(* ===== verification/_CoqProject ===== *)
-Q . S2P
Prelude.v
CxxString.v
CxxStd.v
Store.v
Regex.v
Validation.v
UniqueIndex.v
MultiIndex.v
Pages.v
Workflows.v
Sessions.v
Packages.v
Components.v
ComponentForest.v
ComponentTree.v
Client.v
WfOrder.v
Uuid.v
Json.v
PlainJson.v
EntityHost.v
WfContext.v
WfSteps.v
WfLoader.v
BqlLexer.v
BqlParser.v
BqlRoundTrip.v
BqlScript.v
OneTime.v
RefreshTokens.v
BlobMemory.v
BlobFiles.v
Adapter.v
CachingAdapter.v
Base64.v
Oidc.v
CompensatingTransaction.v
RedisAdapter.v
Elastic.v
ElasticStore.v
Searching.v
HttpParser.v
HttpServer.v
Limits.v
Jwt.v
AccessControl.v
EntityRoutes.v
BulkRoutes.v
Calendar.v
BlobRoutes.v
S3Auth.v
S3Storage.v
SqlWhere.v
SqlAdapter.v
SqlSafety.v
Sqlite.v
SqliteSafety.v
Credentials.v
TokenIssuer.v
LoginPages.v
SignOn.v
Federation.v
Seeding.v
Connections.v
Secrets.v
AdminRoutes.v
RpcRoutes.v
QueryProcedures.v
SchemaQueue.v
SchemaLoaders.v
SchemaTables.v
