(* ===== verification/Prelude.v ===== *)
(** * Verification of the DBAL daemon

    The C++ program under src/libraries/dbal/production is a data access daemon:
    it answers HTTP requests that create, read, change, list and delete rows of
    tenants' entities, keeps blobs, signs users on, and runs workflows, over one
    of several databases.  This development translates its own logic into
    executable definitions, one per function, and proves what the functions are
    for.  Paths in the files' comments are relative to that directory.

    ** Conventions

    An operation of type [Op S A] (CxxStd.v) takes the state and answers a
    [Result A] with the new state.  A [Result] is [Ok], an [Err] of the program's
    error type, a [Throw] of a C++ exception that leaves the function, or [Undef],
    a step C++ gives no meaning to; nothing is left out by looping, since every
    definition is total.  The state that survives an error is the state the code
    has changed so far, so partial effects show.  Integers are [Z] with the bounds
    the C++ type has written out where they matter; texts are byte strings; a
    [std::map] is a [gmap] iterated in key order ([map_items]), a JSON object a
    list in key order.  Clocks, random draws, digests, signatures, the text of
    numbers and the HTTP, JSON, sqlite3 and driver libraries are arguments or type
    classes; what a proof needs of them is a named law of the class or a
    hypothesis of the section, and every class has an instance in the development
    on which the witnesses compute.

    ** The parts, from the inside out

    - Support: CxxString.v and CxxStd.v (strings, containers, errors, the
      operation monad), Regex.v (full matches by derivatives), Json.v (values and
      their exceptions).
    - The in-memory store (src/store, src/entities, src/validation): Store.v is
      the record of tables, indexes and counters with the snapshot transactions;
      Validation.v the field checks; UniqueIndex.v and MultiIndex.v the two shapes
      of secondary index; Pages.v, Workflows.v, Sessions.v, Packages.v and
      Components.v the handlers, function by function; ComponentForest.v and
      ComponentTree.v the tree of components; Client.v every run of calls.
    - Workflows (src/workflow): WfContext.v (variables and templates), WfSteps.v
      (the step plugins and the executor), WfOrder.v (order of the nodes),
      WfLoader.v (loading, dispatch), over EntityHost.v, the interface to a
      database.  Uuid.v is the generator and the validators.
    - The sentence language (src/bql): BqlLexer.v, BqlParser.v, BqlRoundTrip.v,
      BqlScript.v.
    - Databases (src/adapters): Adapter.v is the interface with its laws; over it
      are CachingAdapter.v (src/cache), CompensatingTransaction.v (src/core) and
      the routes; below it RedisAdapter.v, SqlWhere.v with SqlAdapter.v and
      SqlSafety.v (PostgreSQL and MySQL), Sqlite.v with SqliteSafety.v, and
      Elastic.v with ElasticStore.v (Elasticsearch; PlainJson.v is a printer and
      parser the witnesses compute with).  Searching.v is the decorator that
      mirrors rows into a search index and is an adapter again.
    - Sign-on (src/oidc, src/cas, src/saml, src/security): OneTime.v (codes,
      tickets, pending requests), RefreshTokens.v, Oidc.v, Base64.v, Jwt.v,
      Limits.v (rates and nonces), Credentials.v (passwords and users, over any
      adapter), TokenIssuer.v (what is signed and how it is checked).  The
      handlers call them: SignOn.v is the OpenID Connect provider as a browser
      and a client see it, Federation.v the CAS and SAML services with their
      handlers, LoginPages.v the pages and XML they send.
    - Blobs (src/blob): BlobMemory.v, BlobFiles.v, S3Auth.v (request signatures,
      dates by Calendar.v) and S3Storage.v (the client of an object store).
    - The daemon (src/daemon): HttpParser.v reads and checks the requests of the
      socket server, HttpServer.v is its threads; AccessControl.v is the gate of
      the entity routes, EntityRoutes.v what happens behind it, BulkRoutes.v the
      routes that name several rows, BlobRoutes.v the blob routes.  A request
      passes the gate ([entity_gate]), is parsed into a route ([parseRoute]), and
      the handler calls the adapter.
    - The daemon's own life (src/daemon, src/core, src/cache): Connections.v takes
      the environment to a configuration, the configuration to an adapter with its
      layers, and holds the client the routes use, which an administrator may
      switch; Seeding.v loads seed files; Secrets.v keeps reversible secrets;
      AdminRoutes.v are the administrator's routes to these three and to
      Credentials.v; RpcRoutes.v (POST /api/dbal) and QueryProcedures.v (named
      queries) are two more routes over the same server; SchemaQueue.v is the file
      of pending migrations behind /api/dbal/schema.
    - Schemas (src/adapters/schema_loader.hpp, src/core): SchemaLoaders.v is both
      loaders of the schema files, the one the adapters take their tables from and
      the one the access rules of AccessControl.v come from; SchemaTables.v writes
      and runs the statements that make tables and bring them up to date, for
      PostgreSQL, MySQL and SQLite.

    Interfaces are type classes over the state: [Adapter] (with its laws [Rows]),
    [BlobStorage], [CredentialTable], [SignOnDb], [SeedTable], [SecretTable],
    [UserTable], and one for each library the code only calls (an HTTP client, an
    SQL engine, a JWT signer, Argon2, AES-GCM, XML).

    ** What is shown

    - Invariants of the state: along every run of client calls the tables and
      their indexes agree, identifiers come from the counters, components form a
      forest (Client.reachable_store_ok, with the preservation lemmas of each
      file); a snapshot transaction isolates (Store.transaction_isolates).
    - Who may do what: a request that reaches a handler carries a token the rules
      of the entity and the configuration of the tenant entitle, where the entity
      has a rule that is read at all (AccessControl.handled_is_entitled), and the
      exception the body's media type makes is
      AccessControl.privileged_body_unseen; a row is read, changed or deleted by
      identifier only within the tenant of the route
      (EntityRoutes.id_route_guarded), and listed so
      (EntityRoutes.listing_is_scoped); blob routes of one tenant neither learn
      from nor touch another's, stated on two runs (BlobRoutes.blob_routes_isolated);
      without the administrator's token the administration routes tell nothing and
      do nothing (AdminRoutes.admin_needs_token), and what they show of a database
      hides its password (AdminRoutes.redact_hides); a remote call stays in the
      tenant it names (RpcRoutes.rpc_stays_in_tenant), a named query in what its
      file says (QueryProcedures.procedure_is_bounded).  Where the schemas are ones
      the core accepts, every table the adapters serve has the rules written beside
      it (SchemaLoaders.tables_have_rules); SchemaLoaders.relationship_drops_rules is
      what happens where they are not.
    - The daemon's state: the client in use was made for the configuration the
      server reports (Connections.client_matches_config), a switch that fails
      changes nothing (Connections.switch_adapter_spec); a start of the daemon leaves
      alone the rows an operator has changed, as long as the stored fingerprints are
      read (Seeding.seeds_leave_rows; Seeding.failed_read_overwrites is what a
      failed read does), and seeding applies what a seed file has changed
      (Seeding.bootstrap_record_applied); a migration is decided once
      (SchemaQueue.decisions_are_final), and an approval decides one entry when the
      registry can be written (SchemaQueue.approve_decides_one).
    - Signing on: a login of the form issues an authorization code only for the
      right password of the account and the client of a pending request
      (SignOn.login_issues_code), an existing session only while it lives
      (SignOn.authorize_reuses_session); over every run of the routes a redirect
      goes to a registered address or stays in the daemon (SignOn.no_open_redirect);
      a SAML assertion is posted only to a registered provider, for the account
      that signed on (Federation.assertion_to_registered); what a request carries
      into a page stays the value of its attribute (LoginPages.pages_carry_values).
    - Requests: a printed request is read back, an accepted one is within the
      limits and has one length and no transfer encoding among the headers it kept,
      with what that leaves open stated beside it (HttpParser); at most a thousand
      connections are served at a time (HttpServer.connections_bounded); a signature
      of an object store's request binds all its parts (S3Auth.signature_binds).
    - All or nothing: bulk and batch requests (BulkRoutes.bulk_all_or_nothing, for
      adapters whose transactions undo), package batches, the undo log of
      adapters without transactions (CompensatingTransaction.rollback_restores).
    - Refinement of a specification: the cache is invisible over an adapter whose
      failed writes leave the rows that were there
      (CachingAdapter.cache_transparent; over one that changes a row and then fails
      it is not, CachingAdapter.late_failure_leaves_stale_copy); the in-memory blob
      store is a map, its listing and its upload from a stream apart
      (BlobMemory.memory_storage_refines), and so is the object store seen through
      its client, for the keys a URL can carry (S3Storage.s3_storage_refines);
      documents of the search engine are rows (ElasticStore.documents_refine); a
      bulk creation is the list of its
      items (BulkRoutes.bulk_create_runs).
    - Statements: a WHERE clause, parsed back with SQL's grammar, is the tree of the
      filter it was built from, and means the filter where every condition has the
      values its operator needs (SqlWhere.where_clause_spec,
      SqlWhere.incomplete_conditions); parameters stand where their
      placeholders do (SqlSafety.statements_aligned, SqliteSafety.list_placeholders);
      a listing with an unknown field runs no statement
      (SqlSafety.listing_refuses_unknown; an alias is not such a field,
      SqlSafety.alias_breaks_out), and a sensitive field never leaves the adapter
      (SqlSafety.answers_hide_sensitive); the migration of a table adds columns, lets
      columns be null and moves its key, in that order, as the database's answers
      to its questions say, and runs nothing else
      (SchemaTables.migration_statements), and nothing at all once the table is as
      its schema says (SchemaTables.settled_table_untouched).
    - Secrets are used once: codes, tickets, refresh tokens, nonces (OneTime,
      RefreshTokens, Oidc, Limits); tokens are accepted exactly when they verify
      (Jwt.validate_iff).
    - Round trips: base64, sentences of the language, rows through Redis, access
      tokens, passwords and users, secrets (Secrets.secret_roundtrip), connection
      URLs (Connections.connection_url_parsed), requests of the socket server.
    - Termination and order: node order of workflows whose nodes have distinct
      keys (WfOrder.topologicalOrder_spec, WfOrder.repeated_keys), the loops of the parsers,
      the tree listing, the rows of a prepared statement.

    Behaviour the proofs showed to differ from the intention is stated too, as
    lemmas about concrete inputs next to the component (for example
    RedisAdapter.begin_create_rollback, SqlSafety.createMany_keeps_rows,
    SqliteSafety.filter_name_escapes).

    ** Fuel

    Recursion follows the data wherever it can.  Where it cannot, a definition
    takes a bound and has an answer of its own beyond it ([Undef], [None] or what
    is left), and a theorem says which bound is enough: one more than the number of
    components for the walks of the tree (ComponentForest.v), twice the number of
    nodes for Kahn's loop (WfOrder.topologicalOrder_spec), the length of the text
    or the number of tokens for the lexer and the parsers
    (BqlRoundTrip.parser_loops_end) and for templates (WfContext.v), the number of
    steps the server still has for a scan of the cache (CachingAdapter.v), one more
    than the rows delivered for the SQLite readers (SqliteSafety.rows_loop_reads,
    SchemaTables.columns_loop_reads).

    ** Not modelled

    - What only calls a library: socket calls, opening connections and files, XML
      signatures, the generation of RSA keys, logging.
    - The MongoDB, Cassandra, SurrealDB and Supabase clients (calls of their
      drivers, of which the daemon can only choose the first, whose URL it refuses:
      Connections.mongodb_refused); the templating library of the CREATE statements
      (their data and their templates are modelled); the health and metrics routes
      (texts and counters); src/query, which nothing includes.
    - Interleavings inside one object: each object holds its mutex for a whole
      call, so a call is one step; the detached thread of an asynchronous workflow
      is the operation it runs.
    - Destructors, and the deadlines of the sessions of the web framework.
    - Generated entity structs carry only the fields the handlers use. *)

From stdpp Require Export base tactics list strings gmap sorting.
From Stdlib Require Export ZArith Lia.

Declare Scope dbal_scope.
Delimit Scope dbal_scope with dbal.

(** ** Hint databases of the development *)

(** [dbal] collects the preservation lemmas of operations; [dbal_map] the
    equations that normalise lookups. *)
Create HintDb dbal.
Create HintDb dbal_map.
Create Rewrite HintDb dbal_str.
Create Rewrite HintDb dbal_run.

(** ** Tactics *)

(** Case analysis on the innermost [match]/[if] of the goal, keeping its
    equation, and dropping the branches that are immediately absurd. *)
Ltac break_one :=
  match goal with
  | |- context [match ?x with _ => _ end] => destruct x eqn:?; simplify_eq/=
  end.
Ltac break_goal := repeat break_one.

Ltac break_in H :=
  repeat match type of H with
  | context [match ?x with _ => _ end] => destruct x eqn:?; simplify_eq/=
  end.

(** Turn boolean tests of the code into propositions. *)
Ltac boolify :=
  repeat match goal with
  | H : negb _ = true |- _ => apply negb_true_iff in H
  | H : negb _ = false |- _ => apply negb_false_iff in H
  | H : _ && _ = true |- _ => apply andb_true_iff in H as [? ?]
  | H : _ || _ = false |- _ => apply orb_false_iff in H as [? ?]
  | H : bool_decide _ = true |- _ => apply bool_decide_eq_true in H
  | H : bool_decide _ = false |- _ => apply bool_decide_eq_false in H
  | H : (_ <? _)%Z = true |- _ => apply Z.ltb_lt in H
  | H : (_ <? _)%Z = false |- _ => apply Z.ltb_ge in H
  | H : (_ <=? _)%Z = true |- _ => apply Z.leb_le in H
  | H : (_ <=? _)%Z = false |- _ => apply Z.leb_gt in H
  | H : (_ =? _)%Z = true |- _ => apply Z.eqb_eq in H
  | H : (_ =? _)%Z = false |- _ => apply Z.eqb_neq in H
  | H : (_ =? _)%nat = true |- _ => apply Nat.eqb_eq in H
  | H : (_ =? _)%nat = false |- _ => apply Nat.eqb_neq in H
  | H : (_ <? _)%nat = true |- _ => apply Nat.ltb_lt in H
  | H : (_ <? _)%nat = false |- _ => apply Nat.ltb_ge in H
  | H : (_ <=? _)%nat = true |- _ => apply Nat.leb_le in H
  | H : (_ <=? _)%nat = false |- _ => apply Nat.leb_gt in H
  | H : String.eqb _ _ = true |- _ => apply String.eqb_eq in H
  | H : String.eqb _ _ = false |- _ => apply String.eqb_neq in H
  end.

(** ** Machine integers

    [int] of the target ABI is 32 bits wide; a value is a [Z] in range and an
    operation that would leave the range is undefined in C++. *)

Definition INT_MAX : Z := 2 ^ 31 - 1.
Definition INT_MIN : Z := - 2 ^ 31.
Definition in_int (z : Z) : bool := (INT_MIN <=? z)%Z && (z <=? INT_MAX)%Z.

Lemma in_int_spec z : in_int z = true <-> (INT_MIN <= z <= INT_MAX)%Z.
Proof. unfold in_int. rewrite andb_true_iff, !Z.leb_le. done. Qed.

(** ** Lists *)

Lemma NoDup_subset_length {A} (l k : list A) :
  NoDup l -> (forall x, x ∈ l -> x ∈ k) -> length l <= length k.
Proof. intros Hl Hk. by apply submseteq_length, NoDup_submseteq. Qed.

Lemma filter_elem_ne {A} `{EqDecision A} (l : list A) x y :
  y ∈ filter (fun z => z <> x) l <-> y <> x /\ y ∈ l.
Proof. by rewrite list_elem_of_filter. Qed.

Lemma NoDup_snoc {A} (l : list A) x : NoDup l -> x ∉ l -> NoDup (l ++ [x]).
Proof.
  intros Hl Hx. apply NoDup_app. split; [done|]. split; [|apply NoDup_singleton].
  intros y Hy Hin. apply list_elem_of_singleton in Hin. by subst.
Qed.

Lemma forallb_Forall {A} (p : A -> bool) l :
  forallb p l = true <-> Forall (fun x => p x = true) l.
Proof. rewrite forallb_forall, Forall_forall. by setoid_rewrite list_elem_of_In. Qed.

(** ** Field assignment on records

    [r <| f := v |>] is the C++ assignment [r.f = v] on a copied value.  A
    record type gives its fields once, as the identity that rebuilds it from
    its projections ([Fields]); the assignment of a field is derived from it. *)

Class Fields (R : Type) := rebuild : R -> R.
Class Setter {R E : Type} (getter : R -> E) := assign : (E -> E) -> R -> R.
Arguments assign {R E} getter {Setter} _ _.

Ltac derive_setter R getter :=
  let fields := constr:(_ : Fields R) in
  let body := eval red in fields in
  lazymatch eval pattern getter in body with
  | ?upd _ =>
      let u := eval cbv beta in (fun f => upd (fun r => f (getter r))) in exact u
  end.

#[export] Hint Extern 1 (@Setter ?R _ ?getter) =>
  derive_setter R getter : typeclass_instances.

Notation "r <| f := v |>" := (assign f (fun _ => v) r)
  (at level 1, left associativity, f constr, v at level 99,
   format "r  <| f  :=  v |>") : dbal_scope.
Notation "r <| f ::= g |>" := (assign f g r)
  (at level 1, left associativity, f constr, g at level 99,
   format "r  <| f  ::=  g |>") : dbal_scope.
#[global] Open Scope dbal_scope.

(** Reduce field assignments and projections of rebuilt records. *)
Ltac fsimpl := cbn [assign] in *; simpl in *.

