(* ===== verification/CxxString.v ===== *)
(** * The C++ string and character functions the sources use

    [std::string] is a Rocq [string] of 8-bit characters (its length is
    [String.length], its [operator<] the unsigned lexicographic order that
    [String.ltb] computes, [find] on a substring [String.index]).  This file
    adds what the sources take from <cctype>, <cstdio> and <string>: character
    classes in the C locale, [tolower] over a string, [snprintf("%08d")] and
    the decimal printing of integers, with the round trips the rest of the
    development relies on. *)

From S2P Require Import Prelude.
From Stdlib Require Export Ascii NArith.

Open Scope string_scope.

(** ** Characters *)

Definition byte_of (c : ascii) : N := N_of_ascii c.

Definition in_range (lo hi : ascii) (c : ascii) : bool :=
  (byte_of lo <=? byte_of c)%N && (byte_of c <=? byte_of hi)%N.

Definition is_digit (c : ascii) : bool := in_range "0" "9" c.
Definition is_lower (c : ascii) : bool := in_range "a" "z" c.
Definition is_upper (c : ascii) : bool := in_range "A" "Z" c.
Definition is_alpha (c : ascii) : bool := is_lower c || is_upper c.
Definition is_alnum (c : ascii) : bool := is_alpha c || is_digit c.
(** [std::isspace]: space, \t, \n, \v, \f and \r. *)
Definition is_space (c : ascii) : bool :=
  (byte_of c =? 32)%N || in_range "009" "013" c.

Definition to_lower_char (c : ascii) : ascii :=
  if is_upper c then ascii_of_N (byte_of c + 32) else c.

Definition to_upper_char (c : ascii) : ascii :=
  if is_lower c then ascii_of_N (byte_of c - 32) else c.

Fixpoint string_map (f : ascii -> ascii) (s : string) : string :=
  match s with
  | EmptyString => EmptyString
  | String c s' => String (f c) (string_map f s')
  end.

Fixpoint string_forallb (p : ascii -> bool) (s : string) : bool :=
  match s with
  | EmptyString => true
  | String c s' => p c && string_forallb p s'
  end.

Fixpoint string_existsb (p : ascii -> bool) (s : string) : bool :=
  match s with
  | EmptyString => false
  | String c s' => p c || string_existsb p s'
  end.

(** [std::transform(..., std::tolower)]. *)
Definition to_lower : string -> string := string_map to_lower_char.
Definition to_upper : string -> string := string_map to_upper_char.

Definition is_empty (s : string) : bool := String.eqb s "".
Definition size (s : string) : Z := Z.of_nat (String.length s).

(** [hay.find(needle) != npos]. *)
Definition contains (hay needle : string) : bool :=
  match String.index 0 needle hay with Some _ => true | None => false end.

(** [s.substr(n)] for [n <= s.size()]. *)
Fixpoint string_drop (n : nat) (s : string) : string :=
  match n, s with
  | O, _ => s
  | S n', String _ s' => string_drop n' s'
  | S _, EmptyString => EmptyString
  end.

Fixpoint string_take (n : nat) (s : string) : string :=
  match n, s with
  | S n', String c s' => String c (string_take n' s')
  | _, _ => EmptyString
  end.

(** The position of the first [c] in [s], [s.find(c)]. *)
Fixpoint find_char (c : ascii) (s : string) : option nat :=
  match s with
  | EmptyString => None
  | String c' s' => if Ascii.eqb c c' then Some O else S <$> find_char c s'
  end.

(** ** Lemmas on strings *)

Lemma string_app_cons c s t : String c s +:+ t = String c (s +:+ t).
Proof. done. Qed.
Lemma string_app_nil_l s : "" +:+ s = s.
Proof. done. Qed.
#[export] Hint Rewrite string_app_cons string_app_nil_l : dbal_str.

Lemma string_length_app s t :
  String.length (s +:+ t) = String.length s + String.length t.
Proof. induction s as [|c s IH]; [done|]. autorewrite with dbal_str. simpl. lia. Qed.

Lemma string_app_nil_r s : s +:+ "" = s.
Proof. induction s as [|c s IH]; autorewrite with dbal_str; congruence. Qed.

Lemma string_app_assoc s t u : s +:+ (t +:+ u) = (s +:+ t) +:+ u.
Proof. induction s as [|c s IH]; autorewrite with dbal_str; congruence. Qed.

Lemma string_take_all n s : String.length s <= n -> string_take n s = s.
Proof.
  revert n; induction s as [|c s IH]; intros [|n] Hn; simpl in *; try done; [lia|].
  f_equal. apply IH. lia.
Qed.

Lemma string_take_drop n s : string_take n s +:+ string_drop n s = s.
Proof.
  revert n; induction s as [|c s IH]; intros [|n]; simpl; try done.
  by rewrite string_app_cons, IH.
Qed.

Lemma string_take_length n s :
  String.length (string_take n s) = n `min` String.length s.
Proof. revert n; induction s as [|c s IH]; intros [|n]; simpl; auto. Qed.

Lemma string_drop_length n s :
  String.length (string_drop n s) = String.length s - n.
Proof. revert n; induction s as [|c s IH]; intros [|n]; simpl; auto. Qed.

Lemma string_map_length f s : String.length (string_map f s) = String.length s.
Proof. induction s; simpl; auto. Qed.

Lemma string_forallb_app p s t :
  string_forallb p (s +:+ t) = string_forallb p s && string_forallb p t.
Proof.
  induction s as [|c s IH]; [done|].
  autorewrite with dbal_str. simpl. by rewrite IH, andb_assoc.
Qed.

Lemma is_empty_true s : is_empty s = true <-> s = "".
Proof. apply String.eqb_eq. Qed.

Lemma is_empty_false s : is_empty s = false <-> s <> "".
Proof. apply String.eqb_neq. Qed.

Lemma find_char_Some c s n :
  find_char c s = Some n ->
  s = string_take n s +:+ String c (string_drop (S n) s) /\
  find_char c (string_take n s) = None.
Proof.
  revert n; induction s as [|d s IH]; intros n Hf; simpl in *; [done|].
  destruct (Ascii.eqb_spec c d) as [<-|Hne]; simplify_eq/=; [done|].
  apply fmap_Some in Hf as (m & Hm & ->). destruct (IH m Hm) as [Heq Hno]. simpl. split.
  - rewrite string_app_cons. congruence.
  - destruct (Ascii.eqb_spec c d); [done|]. by rewrite Hno.
Qed.

Lemma find_char_app_ne c s t : find_char c s = None -> find_char c (s +:+ t) = (fun n => String.length s + n) <$> find_char c t.
Proof.
  induction s as [|c' s IH]; [intros _; rewrite string_app_nil_l; by destruct (find_char c t)|].
  rewrite string_app_cons. simpl. destruct (Ascii.eqb c c'); [done|].
  destruct (find_char c s); [done|]. intros _. rewrite IH by done. by destruct (find_char c t).
Qed.

Lemma string_take_app s t : string_take (String.length s) (s +:+ t) = s.
Proof. induction s as [|c s IH]; [by destruct t|]. rewrite string_app_cons. simpl. by rewrite IH. Qed.
Lemma string_drop_app s t : string_drop (String.length s) (s +:+ t) = t.
Proof. induction s as [|c s IH]; [by destruct t|]. by rewrite string_app_cons. Qed.
Lemma string_drop_app_S s c t : string_drop (S (String.length s)) (s +:+ String c t) = t.
Proof. induction s as [|c' s IH]; [by destruct t|]. rewrite string_app_cons. simpl. apply IH. Qed.

(** Every property of characters can be checked on the 256 of them. *)
Lemma ascii_forall (p : ascii -> bool) :
  forallb (fun n => p (ascii_of_nat n)) (seq 0 256) = true -> forall c, p c = true.
Proof.
  intros H c. rewrite forallb_forall in H.
  rewrite <- (ascii_nat_embedding c). apply H, in_seq.
  pose proof (nat_ascii_bounded c). lia.
Qed.

Lemma to_lower_char_idem c : to_lower_char (to_lower_char c) = to_lower_char c.
Proof.
  apply Ascii.eqb_eq. revert c.
  apply (ascii_forall (fun c => Ascii.eqb (to_lower_char (to_lower_char c)) (to_lower_char c))).
  vm_compute. reflexivity.
Qed.

Lemma to_lower_idem s : to_lower (to_lower s) = to_lower s.
Proof.
  induction s as [|c s IH]; [done|]. unfold to_lower in *; simpl.
  by rewrite to_lower_char_idem, IH.
Qed.

(** ** Decimal numbers *)

(** [std::to_string] of a non-negative number, most significant digit first. *)
Fixpoint dec_go (fuel : nat) (n : N) (acc : string) : string :=
  match fuel with
  | O => acc
  | S f =>
      let acc' := String (ascii_of_N (48 + n mod 10)) acc in
      if (n <? 10)%N then acc' else dec_go f (n / 10) acc'
  end.
Definition dec_string (n : N) : string := dec_go (S (N.size_nat n)) n "".

Definition to_string (z : Z) : string :=
  if (z <? 0)%Z then "-" +:+ dec_string (Z.to_N (- z)) else dec_string (Z.to_N z).

(** The value of a digit string, read from the left onto [acc]. *)
Definition digit_val (c : ascii) : N := byte_of c - 48.
Fixpoint dec_val (s : string) (acc : N) : N :=
  match s with
  | EmptyString => acc
  | String c s' => dec_val s' (acc * 10 + digit_val c)%N
  end.

Fixpoint zeros (n : nat) : string :=
  match n with O => "" | S n' => String "0" (zeros n') end.

(** The "%0<w>d" conversion: zero padding after the sign, the sign counting
    towards the width. *)
Definition pad0 (w : nat) (s : string) : string :=
  zeros (w - String.length s) +:+ s.
Definition format_0d (w : nat) (z : Z) : string :=
  if (z <? 0)%Z then "-" +:+ pad0 (w - 1) (dec_string (Z.to_N (- z)))
  else pad0 w (dec_string (Z.to_N z)).

Lemma digit_val_char n : (n < 10)%N -> digit_val (ascii_of_N (48 + n)) = n.
Proof.
  intros Hn. unfold digit_val, byte_of. rewrite N_ascii_embedding; lia.
Qed.

Lemma dec_val_go f n acc :
  (n < 2 ^ N.of_nat f)%N -> dec_val (dec_go (S f) n acc) 0 = dec_val acc n.
Proof.
  revert n acc; induction f as [|f IH]; intros n acc Hn.
  - assert (n = 0)%N as -> by (simpl in Hn; lia). done.
  - cbn [dec_go]. destruct (N.ltb_spec n 10) as [Hlt|Hge].
    + cbn [dec_val]. rewrite digit_val_char by (apply N.mod_lt; lia).
      by rewrite N.mod_small by lia.
    + change (dec_val (dec_go (S f) (n / 10) (String (ascii_of_N (48 + n mod 10)) acc)) 0
              = dec_val acc n).
      rewrite IH.
      * cbn [dec_val]. rewrite digit_val_char by (apply N.mod_lt; lia).
        f_equal. pose proof (N.div_mod' n 10). lia.
      * rewrite Nat2N.inj_succ, N.pow_succ_r' in Hn.
        apply N.Div0.div_lt_upper_bound. lia.
Qed.

Lemma N_lt_pow_size n : (n < 2 ^ N.of_nat (N.size_nat n))%N.
Proof.
  destruct (decide (n = 0%N)) as [->|Hn]; [done|].
  pose proof (N.size_gt n) as H.
  replace (N.of_nat (N.size_nat n)) with (N.size n); [done|].
  destruct n as [|p]; [done|]. simpl. clear.
  induction p; simpl; lia.
Qed.

Lemma dec_val_string n : dec_val (dec_string n) 0 = n.
Proof. unfold dec_string. rewrite dec_val_go; [done|]. apply N_lt_pow_size. Qed.

Lemma dec_val_zeros k s acc : dec_val (zeros k +:+ s) 0 = acc -> dec_val s 0 = acc.
Proof.
  induction k as [|k IH]; [done|]. exact IH.
Qed.

Lemma dec_val_pad0 w s : dec_val (pad0 w s) 0 = dec_val s 0.
Proof. symmetry. by apply (dec_val_zeros (w - String.length s)). Qed.

Lemma dec_go_length f n acc k :
  (n < 10 ^ N.of_nat (S k))%N ->
  String.length (dec_go f n acc) <= S k + String.length acc.
Proof.
  revert n acc k; induction f as [|f IH]; intros n acc k Hn; [simpl; lia|].
  cbn [dec_go]. destruct (N.ltb_spec n 10) as [Hlt|Hge]; [simpl; lia|].
  destruct k as [|k].
  { change (10 ^ N.of_nat 1)%N with 10%N in Hn. lia. }
  etrans; [apply (IH _ _ k)|simpl; lia].
  rewrite Nat2N.inj_succ, N.pow_succ_r' in Hn.
  apply N.Div0.div_lt_upper_bound. lia.
Qed.

Lemma dec_string_length n k :
  (n < 10 ^ N.of_nat (S k))%N -> String.length (dec_string n) <= S k.
Proof. intros Hn. unfold dec_string. etrans; [by apply (dec_go_length _ _ _ k)|simpl; lia]. Qed.

Lemma zeros_length k : String.length (zeros k) = k.
Proof. induction k; simpl; auto. Qed.

Lemma format_0d_inj w n m :
  (0 <= n)%Z -> (0 <= m)%Z -> format_0d w n = format_0d w m -> n = m.
Proof.
  intros Hn Hm. unfold format_0d.
  destruct (Z.ltb_spec n 0), (Z.ltb_spec m 0); try lia. intros Heq.
  apply (f_equal (fun s => dec_val s 0)) in Heq.
  rewrite !dec_val_pad0, !dec_val_string in Heq. lia.
Qed.

Lemma format_0d_length n :
  (0 <= n <= INT_MAX)%Z -> String.length (format_0d 8 n) <= 10.
Proof.
  intros Hn. unfold format_0d. destruct (Z.ltb_spec n 0); [lia|].
  unfold pad0. rewrite string_length_app, zeros_length.
  pose proof (dec_string_length (Z.to_N n) 9) as H'.
  assert (Z.to_N n < 10 ^ N.of_nat 10)%N as Hlt.
  { change (10 ^ N.of_nat 10)%N with 10000000000%N. unfold INT_MAX in Hn. lia. }
  specialize (H' Hlt). lia.
Qed.

(** ** [std::stoi]

    What [strtol] reads in base 10: leading white space, an optional sign, then
    digits; [None] when there is no digit. *)
Fixpoint take_digits (s : string) : string :=
  match s with
  | "" => ""
  | String c s' => if is_digit c then String c (take_digits s') else ""
  end.
Fixpoint skip_space (s : string) : string :=
  match s with
  | "" => ""
  | String c s' => if is_space c then skip_space s' else s
  end.
Definition strtol (s : string) : option Z :=
  let s := skip_space s in
  let '(neg, s) := match s with
    | String "-" s' => (true, s')
    | String "+" s' => (false, s')
    | _ => (false, s)
    end in
  match take_digits s with
  | "" => None
  | ds => Some (if neg then - Z.of_N (dec_val ds 0) else Z.of_N (dec_val ds 0))%Z
  end.

(** The parts between the delimiters: [std::getline] on a string stream, which
    gives no last part when the text ends in one. *)
Fixpoint split_on (d : ascii) (s : string) : list string :=
  match s with
  | EmptyString => [""]
  | String c s =>
      if Ascii.eqb c d then "" :: split_on d s
      else match split_on d s with [] => [String c ""] | p :: ps => String c p :: ps end
  end.

(** The text a C function sees of [s.c_str()]: up to the first NUL. *)
Fixpoint c_str (s : string) : string :=
  match s with "" => "" | String c s => if Ascii.eqb c "000" then "" else String c (c_str s) end.

(** ** Case-insensitive search *)
Definition containsInsensitive (text query : string) : bool :=
  contains (to_lower text) (to_lower query).
