(* ===== verification/CxxStd.v ===== *)
(** * Results, errors and the containers of the C++ standard library

    [Result<T>] with its [Error], the ways a handler can end besides returning
    (an exception that escapes it, undefined behaviour), a small state monad
    over them for the handlers that mutate a store, [std::map] iteration order
    and [std::sort].

    Sources: include/dbal/core/error_codes.hpp, error.hpp, error_result.hpp and
    src/errors.cpp. *)

From S2P Require Import Prelude CxxString.

Open Scope string_scope.

(** ** Errors (error_codes.hpp, error.hpp) *)

Inductive ErrorCode :=
  | NotFound | Conflict | Unauthorized | Forbidden | ValidationError
  | RateLimitExceeded | InternalError | Timeout | DatabaseError
  | CapabilityNotSupported | SandboxViolation | MaliciousCodeDetected.

#[export] Instance ErrorCode_eq_dec : EqDecision ErrorCode.
Proof. solve_decision. Defined.

(** The numeric value each enumerator is declared with. *)
Definition http_status (c : ErrorCode) : Z :=
  match c with
  | NotFound => 404 | Conflict => 409 | Unauthorized => 401 | Forbidden => 403
  | ValidationError => 422 | RateLimitExceeded => 429 | InternalError => 500
  | Timeout => 504 | DatabaseError => 503 | CapabilityNotSupported => 501
  | SandboxViolation => 406 | MaliciousCodeDetected => 451
  end%Z.

Record Error := mkError { code : ErrorCode; message : string }.

#[export] Instance Error_eq_dec : EqDecision Error.
Proof. solve_decision. Defined.

Definition notFound (m : string) : Error := mkError NotFound m.
Definition conflict (m : string) : Error := mkError Conflict m.
Definition unauthorized (m : string) : Error := mkError Unauthorized m.
Definition forbidden (m : string) : Error := mkError Forbidden m.
Definition validationError (m : string) : Error := mkError ValidationError m.
Definition internal (m : string) : Error := mkError InternalError m.
Definition sandboxViolation (m : string) : Error := mkError SandboxViolation m.
Definition maliciousCode (m : string) : Error := mkError MaliciousCodeDetected m.

(** ** How a call ends

    [Ok]/[Err] are the two states of [Result<T>] (error_result.hpp); [Throw]
    is an exception leaving the call, [Undef] a call whose behaviour C++ leaves
    undefined (signed overflow, an iterator outside its container). *)

Inductive Exn :=
  | invalid_argument | out_of_range   (* as std::stoi and its kin raise them *)
  | bad_argument (what : string)      (* std::invalid_argument with its message *)
  | runtime_error (what : string)
  | wf_stop (why : string)     (* WfStop of workflow/wf_stop.hpp *)
  | json_error (id : Z).       (* an exception of the JSON library, by its number *)

Inductive Result (A : Type) :=
  | Ok (a : A)
  | Err (e : Error)
  | Throw (x : Exn)
  | Undef.
Arguments Ok {A} _.
Arguments Err {A} _.
Arguments Throw {A} _.
Arguments Undef {A}.

#[export] Instance Exn_eq_dec : EqDecision Exn.
Proof. solve_decision. Defined.
#[export] Instance Result_eq_dec {A} `{EqDecision A} : EqDecision (Result A).
Proof. solve_decision. Defined.

Definition isOk {A} (r : Result A) : bool :=
  match r with Ok _ => true | _ => false end.
Definition isError {A} (r : Result A) : bool :=
  match r with Err _ => true | _ => false end.

(** A result that is not [Ok], at another type. *)
Definition recast {A B} (r : Result A) : Result B :=
  match r with Ok _ => Undef | Err e => Err e | Throw x => Throw x | Undef => Undef end.

#[export] Instance Result_ret : MRet Result := @Ok.
#[export] Instance Result_bind : MBind Result := fun A B f r =>
  match r with Ok a => f a | r => recast r end.

Lemma result_bind_ok {A B} (r : Result A) (f : A -> Result B) b :
  r ≫= f = Ok b -> exists a, r = Ok a /\ f a = Ok b.
Proof. destruct r; try done. eauto. Qed.

(** ** Handlers over a mutable store *)

Definition Op (S A : Type) : Type := S -> Result A * S.

#[export] Instance Op_ret {S} : MRet (Op S) := fun A a s => (Ok a, s).
#[export] Instance Op_bind {S} : MBind (Op S) := fun A B f m s =>
  match m s with
  | (Ok a, s') => f a s'
  | (r, s') => (recast r, s')
  end.

Section Ops.
Context {S : Type}.

Definition fail {A} (e : Error) : Op S A := fun s => (Err e, s).
Definition throw {A} (x : Exn) : Op S A := fun s => (Throw x, s).
Definition undef {A} : Op S A := fun s => (Undef, s).
Definition gets {A} (f : S -> A) : Op S A := fun s => (Ok (f s), s).
Definition modify (f : S -> S) : Op S unit := fun s => (Ok tt, f s).
(** Evaluating a read-only routine that may itself fail. *)
Definition reads {A} (f : S -> Result A) : Op S A := fun s => (f s, s).
Definition of_result {A} (r : Result A) : Op S A := fun s => (r, s).
(** [if (b) return e;] *)
Definition reject_if (b : bool) (e : Error) : Op S unit :=
  fun s => if b then (Err e, s) else (Ok tt, s).
(** [auto it = m.find(k); if (it == m.end()) return e;] *)
Definition find_or {K A} `{Countable K} (m : S -> gmap K A) (k : K) (e : Error) : Op S A :=
  fun s => match m s !! k with Some a => (Ok a, s) | None => (Err e, s) end.
(** Reading the entry behind an iterator that is known to be valid. *)
Definition deref {K A} `{Countable K} (m : S -> gmap K A) (k : K) : Op S A :=
  fun s => match m s !! k with Some a => (Ok a, s) | None => (Undef, s) end.
(** [if (o.has_value()) f(o.value())] *)
Definition when_some {A} (o : option A) (f : A -> Op S unit) : Op S unit :=
  match o with Some a => f a | None => mret tt end.

(** Running the first statement of a handler. *)
Lemma run_reject {B} b e (k : unit -> Op S B) s :
  (reject_if b e ≫= k) s = if b then (Err e, s) else k tt s.
Proof. unfold reject_if, mbind, Op_bind. by destruct b. Qed.
Lemma run_find {K A B} `{Countable K} (m : S -> gmap K A) i e (k : A -> Op S B) s :
  (find_or m i e ≫= k) s = match m s !! i with Some a => k a s | None => (Err e, s) end.
Proof. unfold find_or, mbind, Op_bind. by destruct (m s !! i). Qed.
Lemma run_deref {K A B} `{Countable K} (m : S -> gmap K A) i (k : A -> Op S B) s :
  (deref m i ≫= k) s = match m s !! i with Some a => k a s | None => (Undef, s) end.
Proof. unfold deref, mbind, Op_bind. by destruct (m s !! i). Qed.
Lemma run_gets {A B} (f : S -> A) (k : A -> Op S B) s : (gets f ≫= k) s = k (f s) s.
Proof. done. Qed.
Lemma run_reads {A B} (f : S -> Result A) (k : A -> Op S B) s :
  (reads f ≫= k) s = match f s with Ok a => k a s | r => (recast r, s) end.
Proof. unfold reads, mbind, Op_bind. by destruct (f s). Qed.
Lemma run_modify {B} (f : S -> S) (k : unit -> Op S B) s : (modify f ≫= k) s = k tt (f s).
Proof. done. Qed.
Lemma run_bind_ok {A B} (m : Op S A) (k : A -> Op S B) a s s' :
  m s = (Ok a, s') -> (m ≫= k) s = k a s'.
Proof. unfold mbind, Op_bind. by intros ->. Qed.
Lemma run_bind_err {A B} (m : Op S A) (k : A -> Op S B) e s s' :
  m s = (Err e, s') -> (m ≫= k) s = (Err e, s').
Proof. unfold mbind, Op_bind. by intros ->. Qed.
Lemma run_assoc {A B C} (m : Op S A) (f : A -> Op S B) (g : B -> Op S C) s :
  ((m ≫= f) ≫= g) s = (m ≫= (fun a => f a ≫= g)) s.
Proof. unfold mbind, Op_bind. by destruct (m s) as [[] ?]. Qed.

Lemma run_bind_inv {A B} (m : Op S A) (f : A -> Op S B) s b s' :
  (m ≫= f) s = (Ok b, s') -> exists a s1, m s = (Ok a, s1) /\ f a s1 = (Ok b, s').
Proof. unfold mbind, Op_bind. destruct (m s) as [[a|e|x|] s1] eqn:Hm; try done. eauto. Qed.

Lemma run_reject_inv {B} b e (k : Op S B) s r s' :
  (reject_if b e;; k) s = (Ok r, s') -> b = false /\ k s = (Ok r, s').
Proof. rewrite run_reject. by destruct b. Qed.

Lemma run_of_result_inv {A B} (r : Result A) (k : A -> Op S B) s b s' :
  (of_result r ≫= k) s = (Ok b, s') -> exists a, r = Ok a /\ k a s = (Ok b, s').
Proof. unfold of_result, mbind, Op_bind. destruct r; try done. eauto. Qed.

(** [m] keeps [P] whatever way it ends. *)
Definition preserves {A} (P : S -> Prop) (m : Op S A) : Prop :=
  forall s, P s -> P (m s).2.
(** [m] does not touch the store. *)
Definition pure_op {A} (m : Op S A) : Prop := forall s, (m s).2 = s.

Lemma preserves_bind {A B} (P : S -> Prop) (m : Op S A) (f : A -> Op S B) :
  preserves P m -> (forall a, preserves P (f a)) -> preserves P (m ≫= f).
Proof.
  intros Hm Hf s Hs. unfold mbind, Op_bind. specialize (Hm s Hs).
  destruct (m s) as [[] s']; simpl in *; auto. by apply Hf.
Qed.

Lemma pure_preserves {A} (P : S -> Prop) (m : Op S A) : pure_op m -> preserves P m.
Proof. intros Hm s Hs. by rewrite Hm. Qed.

Lemma preserves_modify (P : S -> Prop) (f : S -> S) :
  (forall s, P s -> P (f s)) -> preserves P (modify f).
Proof. by intros Hf s Hs; apply Hf. Qed.

Lemma preserves_when_some {A} (P : S -> Prop) (o : option A) (f : A -> Op S unit) :
  (forall a, preserves P (f a)) -> preserves P (when_some o f).
Proof. intros Hf s Hs. destruct o; [by apply Hf|done]. Qed.

Lemma pure_ret {A} (a : A) : pure_op (mret a : Op S A). Proof. done. Qed.
Lemma pure_fail {A} e : pure_op (fail e : Op S A). Proof. done. Qed.
Lemma pure_throw {A} x : pure_op (throw x : Op S A). Proof. done. Qed.
Lemma pure_undef {A} : pure_op (undef : Op S A). Proof. done. Qed.
Lemma pure_gets {A} (f : S -> A) : pure_op (gets f). Proof. done. Qed.
Lemma pure_reads {A} (f : S -> Result A) : pure_op (reads f). Proof. done. Qed.
Lemma pure_of_result {A} (r : Result A) : pure_op (of_result r). Proof. done. Qed.
Lemma pure_reject_if b e : pure_op (reject_if b e).
Proof. intros s. by destruct b. Qed.
Lemma pure_find_or {K A} `{Countable K} (m : S -> gmap K A) k e : pure_op (find_or m k e).
Proof. intros s. unfold find_or. by destruct (m s !! k). Qed.

Lemma pure_deref {K A} `{Countable K} (m : S -> gmap K A) k : pure_op (deref m k).
Proof. intros s. unfold deref. by destruct (m s !! k). Qed.

Lemma pure_bind {A B} (m : Op S A) (f : A -> Op S B) :
  pure_op m -> (forall a, pure_op (f a)) -> pure_op (m ≫= f).
Proof.
  intros Hm Hf s. unfold mbind, Op_bind. specialize (Hm s).
  destruct (m s) as [[] s']; simpl in *; subst; auto. by apply Hf.
Qed.
End Ops.

(** Follow a run that succeeds through its steps. *)
Ltac run_steps H :=
  repeat first
    [ apply run_reject_inv in H as [? H]
    | apply run_of_result_inv in H as (? & ? & H)
    | apply run_bind_inv in H as (? & ? & ? & H) ].

(** ** Triples

    [triple P m Q E]: from a store satisfying [P], [m] ends with [Ok a] in a
    store satisfying [Q a], or in another way [r] in a store satisfying [E r].
    The store a failing handler leaves behind matters, because the handlers
    assign fields before their last check. *)
Definition triple {S A} (P : S -> Prop) (m : Op S A) (Q : A -> S -> Prop)
    (E : Result unit -> S -> Prop) : Prop :=
  forall s, P s -> match m s with (Ok a, s') => Q a s' | (r, s') => E (recast r) s' end.

(** The statements of a handler are composed with [≫=]; the rules are stated
    for the first statement and the rest, in the shape the handlers have. *)
Section Triples.
Context {S : Type}.
Implicit Types (P : S -> Prop) (E : Result unit -> S -> Prop).

Lemma triple_bind {A B} P (m : Op S A) (f : A -> Op S B) R Q E :
  triple P m R E -> (forall a, triple (R a) (f a) Q E) -> triple P (m ≫= f) Q E.
Proof.
  intros Hm Hf s Hs. specialize (Hm s Hs). unfold mbind, Op_bind.
  destruct (m s) as [[a|e|x|] s']; simpl; [by apply Hf|done..].
Qed.

Lemma triple_ret {A} (a : A) P (Q : A -> S -> Prop) E :
  (forall s, P s -> Q a s) -> triple P (mret a) Q E.
Proof. intros HQ s Hs. by apply HQ. Qed.

Lemma triple_weaken {A} P P' (m : Op S A) Q E :
  triple P' m Q E -> (forall s, P s -> P' s) -> triple P m Q E.
Proof. intros Hm HP s Hs. by apply Hm, HP. Qed.

Lemma triple_pure_pre {A} P (phi : Prop) (m : Op S A) Q E :
  (phi -> triple P m Q E) -> triple (fun s => P s /\ phi) m Q E.
Proof. intros Hm s [Hs Hphi]. by apply Hm. Qed.

Lemma triple_exists {A B} (P : B -> S -> Prop) (m : Op S A) Q E :
  (forall b, triple (P b) m Q E) -> triple (fun s => exists b, P b s) m Q E.
Proof. intros Hm s [b Hs]. by apply (Hm b). Qed.

Lemma triple_post {A} P (m : Op S A) (Q Q' : A -> S -> Prop) E :
  triple P m Q' E -> (forall a s, Q' a s -> Q a s) -> triple P m Q E.
Proof. intros Hm HQ s Hs. specialize (Hm s Hs). destruct (m s) as [[] ?]; auto. Qed.

Lemma triple_reject_then {B} b e P (k : Op S B) Q E :
  (forall s, P s -> E (Err e) s) -> (b = false -> triple P k Q E) ->
  triple P (reject_if b e ;; k) Q E.
Proof.
  intros HE Hk s Hs. unfold reject_if, mbind, Op_bind. destruct b; [by apply HE|by apply Hk].
Qed.

Lemma triple_gets_then {A B} (f : S -> A) P (k : A -> Op S B) Q E :
  (forall a, triple (fun s => P s /\ f s = a) (k a) Q E) -> triple P (gets f ≫= k) Q E.
Proof. intros Hk s Hs. by apply (Hk (f s)). Qed.

Lemma triple_reads_then {A B} (f : S -> Result A) P (k : A -> Op S B) Q E :
  (forall r s, P s -> f s = r -> isOk r = false -> E (recast r) s) ->
  (forall a, triple (fun s => P s /\ f s = Ok a) (k a) Q E) -> triple P (reads f ≫= k) Q E.
Proof.
  intros HE Hk s Hs. unfold reads, mbind, Op_bind.
  destruct (f s) eqn:Hf; [by apply Hk|..]; by apply (HE _ _ Hs Hf).
Qed.

Lemma triple_find_then {K A B} `{Countable K} (m : S -> gmap K A) k e P
    (f : A -> Op S B) Q E :
  (forall s, P s -> E (Err e) s) ->
  (forall a, triple (fun s => P s /\ m s !! k = Some a) (f a) Q E) ->
  triple P (find_or m k e ≫= f) Q E.
Proof.
  intros HE Hf s Hs. unfold find_or, mbind, Op_bind.
  destruct (m s !! k) eqn:Hk; [by apply Hf|by apply HE].
Qed.

Lemma triple_find {K A} `{Countable K} (m : S -> gmap K A) k e P Q E :
  (forall s, P s -> E (Err e) s) -> (forall s a, P s -> m s !! k = Some a -> Q a s) ->
  triple P (find_or m k e) Q E.
Proof.
  intros HE HQ s Hs. unfold find_or. destruct (m s !! k) eqn:Hk; [by apply HQ|by apply HE].
Qed.

Lemma triple_deref {K A} `{Countable K} (m : S -> gmap K A) k P Q E :
  (forall s, P s -> exists a, m s !! k = Some a /\ Q a s) -> triple P (deref m k) Q E.
Proof. intros HQ s Hs. unfold deref. by destruct (HQ s Hs) as (a & -> & ?). Qed.

Lemma triple_modify (f : S -> S) P Q E :
  (forall s, P s -> Q tt (f s)) -> triple P (modify f) Q E.
Proof. intros HQ s Hs. by apply HQ. Qed.

Lemma triple_modify_then {B} (f : S -> S) P P' (k : Op S B) Q E :
  (forall s, P s -> P' (f s)) -> triple P' k Q E -> triple P (modify f ;; k) Q E.
Proof. intros Hf Hk s Hs. apply Hk. by apply Hf. Qed.

Lemma triple_seq {B} (m : Op S unit) P P' (k : Op S B) Q E :
  triple P m (fun _ => P') E -> triple P' k Q E -> triple P (m ;; k) Q E.
Proof. intros Hm Hk. by eapply triple_bind; [exact Hm|]. Qed.

Lemma triple_when_then {A B} (o : option A) (f : A -> Op S unit) P P' (k : Op S B) Q E :
  (o = None -> forall s, P s -> P' s) ->
  (forall a, o = Some a -> triple P (f a) (fun _ => P') E) ->
  triple P' k Q E -> triple P (when_some o f ;; k) Q E.
Proof.
  intros HP Hf Hk. eapply triple_seq; [|exact Hk].
  destruct o; simpl; [by apply Hf|by apply triple_ret, HP].
Qed.

Lemma triple_pure {A} (m : Op S A) P :
  pure_op m -> triple P m (fun _ => P) (fun _ => P).
Proof. intros Hm s Hs. specialize (Hm s). destruct (m s) as [[] s']; simpl in *; by subst. Qed.

Lemma triple_preserves {A} P (m : Op S A) :
  triple P m (fun _ => P) (fun _ => P) -> preserves P m.
Proof. intros Hm s Hs. specialize (Hm s Hs). by destruct (m s) as [[] ?]. Qed.
End Triples.

#[export] Hint Resolve pure_ret pure_fail pure_throw pure_undef pure_gets pure_reads pure_of_result
  pure_reject_if pure_find_or pure_deref pure_bind pure_preserves preserves_bind
  preserves_when_some : dbal.


(** ** Frames

    [frame R m]: whatever way [m] ends, the stores before and after are related
    by [R]; with [R] "only these fields differ" it is the footprint of [m]. *)
Definition frame {S A} (R : relation S) (m : Op S A) : Prop := forall s, R s (m s).2.

Section Frames.
Context {S : Type} (R : relation S) `{!PreOrder R}.

Lemma frame_pure {A} (m : Op S A) : pure_op m -> frame R m.
Proof. intros Hm s. rewrite Hm. reflexivity. Qed.

Lemma frame_bind {A B} (m : Op S A) (f : A -> Op S B) :
  frame R m -> (forall a, frame R (f a)) -> frame R (m ≫= f).
Proof.
  intros Hm Hf s. specialize (Hm s). unfold mbind, Op_bind.
  destruct (m s) as [[a|e|x|] s']; simpl in *; [|done..]. by etrans; [|apply Hf].
Qed.

Lemma frame_when_some {A} (o : option A) (f : A -> Op S unit) :
  (forall a, frame R (f a)) -> frame R (when_some o f).
Proof. intros Hf. destruct o; simpl; [apply Hf|]. intros s. reflexivity. Qed.

Lemma frame_modify (f : S -> S) : (forall s, R s (f s)) -> frame R (modify f).
Proof. intros Hf s. apply Hf. Qed.
End Frames.

#[export] Hint Resolve frame_pure frame_bind frame_when_some frame_modify : dbal.

#[export] Hint Rewrite @run_reject @run_gets @run_modify @run_assoc : dbal_run.

(** A loop [for (x : l) f(x)] whose body may return or throw. *)
Fixpoint forM {S A} (l : list A) (f : A -> Op S unit) : Op S unit :=
  match l with
  | [] => mret tt
  | x :: l' => f x ;; forM l' f
  end.

Lemma frame_forM {S A} (R : relation S) `{!PreOrder R} (l : list A) (f : A -> Op S unit) :
  (forall x, frame R (f x)) -> frame R (forM l f).
Proof.
  intros Hf. induction l as [|x l IH]; simpl; [by apply frame_pure|].
  apply frame_bind; [done|apply Hf|by intros _].
Qed.

Lemma preserves_forM {S A} (P : S -> Prop) (l : list A) (f : A -> Op S unit) :
  (forall x, preserves P (f x)) -> preserves P (forM l f).
Proof.
  intros Hf. induction l as [|x l IH]; simpl; [by apply pure_preserves|].
  apply preserves_bind; [apply Hf|by intros _].
Qed.

(** The elements kept by a test that may throw, in order. *)
Fixpoint filterM {A} (p : A -> Result bool) (l : list A) : Result (list A) :=
  match l with
  | [] => Ok []
  | x :: l' => b ← p x; r ← filterM p l'; Ok (if b : bool then x :: r else r)
  end.

Lemma filterM_pure {A} (p : A -> Result bool) (q : A -> bool) l :
  (forall x, p x = Ok (q x)) -> filterM p l = Ok (List.filter q l).
Proof.
  intros Hp. induction l as [|x l IH]; simpl; [done|]. rewrite Hp, IH. simpl.
  by destruct (q x).
Qed.

(** [std::stoi]. *)
Definition stoi (s : string) : Result Z :=
  match strtol s with
  | None => Throw invalid_argument
  | Some z => if in_int z then Ok z else Throw out_of_range
  end.

(** [operator<] of [std::optional]: an empty one comes first. *)
Definition opt_lt (a b : option Z) : bool :=
  match a, b with
  | _, None => false
  | None, Some _ => true
  | Some x, Some y => (x <? y)%Z
  end.

(** [m.find(k) != m.end()]. *)
Definition has_key {A} (m : gmap string A) (k : string) : bool :=
  match m !! k with Some _ => true | None => false end.

Lemma has_key_false {A} (m : gmap string A) k : has_key m k = false <-> m !! k = None.
Proof. unfold has_key. by destruct (m !! k). Qed.
Lemma has_key_true {A} (m : gmap string A) k : has_key m k = true <-> is_Some (m !! k).
Proof. unfold has_key. rewrite is_Some_alt. by destruct (m !! k). Qed.

(** ** [std::map] iteration

    [std::map<std::string, A>] iterates in increasing key order. *)

Definition key_le {A} (p q : string * A) : Prop := String.le p.1 q.1.
#[export] Instance key_le_dec {A} : RelDecision (@key_le A).
Proof. intros p q. unfold key_le. apply _. Defined.

Definition map_items {A} (m : gmap string A) : list (string * A) :=
  merge_sort key_le (map_to_list m).

Lemma map_items_perm {A} (m : gmap string A) : map_items m ≡ₚ map_to_list m.
Proof. apply merge_sort_Permutation. Qed.

Lemma map_items_empty {A} : map_items (∅ : gmap string A) = [].
Proof. unfold map_items. by rewrite map_to_list_empty. Qed.

Lemma elem_of_map_items {A} (m : gmap string A) k a :
  (k, a) ∈ map_items m <-> m !! k = Some a.
Proof. by rewrite map_items_perm, elem_of_map_to_list. Qed.

Lemma map_items_sorted {A} (m : gmap string A) : Sorted key_le (map_items m).
Proof.
  apply Sorted_merge_sort. intros p q. unfold key_le. apply String.le_total.
Qed.

Lemma NoDup_map_items_fst {A} (m : gmap string A) : NoDup (map_items m).*1.
Proof. rewrite map_items_perm. apply NoDup_fst_map_to_list. Qed.

Lemma map_items_length {A} (m : gmap string A) : length (map_items m) = base.size m.
Proof. by rewrite map_items_perm, length_map_to_list. Qed.

Lemma list_filter_perm {A} (p : A -> bool) (l k : list A) :
  l ≡ₚ k -> List.filter p l ≡ₚ List.filter p k.
Proof.
  induction 1 as [|x l k _ IH|x y l|l k j _ IH1 _ IH2]; simpl; [done|..].
  - by destruct (p x); rewrite IH.
  - destruct (p x), (p y); try done. apply Permutation_swap.
  - by etrans.
Qed.

(** The entries a test selects and the entries it leaves make up the map. *)
Lemma filter_items_count {A} (p : string * A -> bool) (m : gmap string A) :
  length (List.filter p (map_items m)) +
    base.size (base.filter (fun e => p e = false) m) = base.size m.
Proof.
  rewrite (list_filter_perm p _ _ (map_items_perm m)).
  induction m as [|k a m Hk IH] using map_ind.
  { by rewrite map_to_list_empty, map_filter_empty. }
  rewrite (list_filter_perm p _ _ (map_to_list_insert m k a Hk)).
  rewrite map_size_insert_None by done. simpl.
  rewrite map_filter_insert. destruct (p (k, a)) eqn:Hp; simpl.
  - rewrite delete_id by done. lia.
  - rewrite map_size_insert_None; [lia|]. apply map_lookup_filter_None. by left.
Qed.

(** ** [std::sort]

    The standard promises a permutation of the range that is ordered by the
    comparator, when the comparator is a strict weak order; it does not promise
    stability, so the theorems about sorted listings hold for every
    implementation of this interface. *)

Record strict_weak {A} (lt : A -> A -> bool) : Prop := {
  sw_irrefl : forall x, lt x x = false;
  sw_trans : forall x y z, lt x y = true -> lt y z = true -> lt x z = true;
  sw_incomp : forall x y z, lt y x = false -> lt z y = false -> lt z x = false;
}.

Class StdSort := {
  std_sort : forall {A : Type}, (A -> A -> bool) -> list A -> list A;
  std_sort_perm : forall A (lt : A -> A -> bool) l, std_sort lt l ≡ₚ l;
  std_sort_sorted : forall A (lt : A -> A -> bool) l,
    strict_weak lt -> StronglySorted (fun x y => lt y x = false) (std_sort lt l);
}.

(** A reference implementation, insertion sort, for the concrete evaluations. *)
Fixpoint insert_by {A} (lt : A -> A -> bool) (x : A) (l : list A) : list A :=
  match l with
  | [] => [x]
  | y :: l' => if lt x y then x :: l else y :: insert_by lt x l'
  end.
Definition insertion_sort {A} (lt : A -> A -> bool) (l : list A) : list A :=
  foldr (insert_by lt) [] l.

Lemma insert_by_perm {A} (lt : A -> A -> bool) x l : insert_by lt x l ≡ₚ x :: l.
Proof.
  induction l as [|y l IH]; simpl; [done|]. destruct (lt x y); [done|].
  rewrite IH. apply Permutation_swap.
Qed.

Lemma insert_by_sorted {A} (lt : A -> A -> bool) x l :
  strict_weak lt ->
  StronglySorted (fun x y => lt y x = false) l ->
  StronglySorted (fun x y => lt y x = false) (insert_by lt x l).
Proof.
  intros Hlt. induction 1 as [|y l Hl IH Hy]; simpl.
  - repeat constructor.
  - destruct (lt x y) eqn:Hxy.
    + assert (lt y x = false) as Hyx.
      { destruct (lt y x) eqn:E; [|done].
        pose proof (sw_trans _ Hlt _ _ _ Hxy E). by rewrite (sw_irrefl _ Hlt) in *. }
      constructor; [by constructor|]. constructor; [done|].
      eapply Forall_impl; [exact Hy|]. intros z Hz. by eapply (sw_incomp _ Hlt).
    + constructor; [done|].
      apply Forall_forall. intros z Hz. rewrite insert_by_perm in Hz.
      apply elem_of_cons in Hz as [->|Hz]; [done|]. by eapply Forall_forall in Hy.
Qed.

Program Definition insertion_StdSort : StdSort := {|
  std_sort A lt l := insertion_sort lt l
|}.
Next Obligation.
  intros A lt l. simpl. induction l as [|x l IH]; simpl; [done|].
  by rewrite insert_by_perm, IH.
Qed.
Next Obligation.
  intros A lt l Hlt. simpl. induction l as [|x l IH]; simpl; [constructor|].
  by apply insert_by_sorted.
Qed.

(** Another one, which treats equal elements in the opposite order. *)
Program Definition reversed_StdSort : StdSort := {|
  std_sort A lt l := @std_sort insertion_StdSort A lt (rev l)
|}.
Next Obligation. intros A lt l. cbv beta. rewrite std_sort_perm. symmetry. apply Permutation_rev. Qed.
Next Obligation. intros A lt l Hlt. cbv beta. by apply std_sort_sorted. Qed.

Lemma StronglySorted_impl {A} (R R' : A -> A -> Prop) l :
  (forall x y, R x y -> R' x y) -> StronglySorted R l -> StronglySorted R' l.
Proof. intros HR. induction 1 as [|x l Hl IH Hx]; constructor; [done|].
  eapply Forall_impl; [exact Hx|auto]. Qed.

(** Comparators that compare a key of an order are strict weak orders. *)
Lemma strict_weak_Z {A} (f : A -> Z) : strict_weak (fun a b => (f a <? f b)%Z).
Proof. split; intros *; rewrite ?Z.ltb_lt, ?Z.ltb_ge; lia. Qed.

Lemma ltb_negb_leb a b : String.ltb a b = negb (String.leb b a).
Proof.
  unfold String.ltb, String.leb. rewrite (String.compare_antisym b a).
  by destruct (String.compare a b).
Qed.

Lemma leb_le a b : String.leb a b = true <-> String.le a b.
Proof. unfold String.le. destruct (String.leb a b); simpl; split; done. Qed.

Lemma ltb_false a b : String.ltb a b = false <-> String.le b a.
Proof. by rewrite ltb_negb_leb, negb_false_iff, leb_le. Qed.

Lemma ltb_true a b : String.ltb a b = true <-> ~ String.le b a.
Proof. by rewrite ltb_negb_leb, negb_true_iff, <- not_true_iff_false, leb_le. Qed.

Lemma strict_weak_string {A} (f : A -> string) :
  strict_weak (fun a b => String.ltb (f a) (f b)).
Proof.
  split; intros *; rewrite ?ltb_true, ?ltb_false; [done| |].
  - intros Hxy Hyz Hzx. destruct (total String.le (f y) (f z)) as [H|H]; [|done].
    apply Hxy. by etrans.
  - intros ??. by etrans.
Qed.

Lemma strict_weak_opt {A} (f : A -> option Z) : strict_weak (fun a b => opt_lt (f a) (f b)).
Proof.
  unfold opt_lt. split; intros *; repeat case_match; try done;
    rewrite ?Z.ltb_lt, ?Z.ltb_ge; lia.
Qed.

(** Comparing by one key and, where it does not decide, by another. *)
Definition lex {A} (lt1 lt2 : A -> A -> bool) (a b : A) : bool :=
  lt1 a b || (negb (lt1 b a) && lt2 a b).

Lemma strict_weak_lex {A} (lt1 lt2 : A -> A -> bool) :
  strict_weak lt1 -> strict_weak lt2 -> strict_weak (lex lt1 lt2).
Proof.
  intros [I1 T1 C1] [I2 T2 C2]. unfold lex. split.
  - intros x. by rewrite I1, I2.
  - intros x y z. pose proof (T1 x y z). pose proof (T2 x y z).
    pose proof (C1 z x y). pose proof (C1 y z x). pose proof (C1 x y z).
    destruct (lt1 x y) eqn:?, (lt1 y x) eqn:?, (lt1 y z) eqn:?, (lt1 z y) eqn:?, (lt1 x z) eqn:?,
      (lt1 z x) eqn:?; simpl in *; intuition congruence.
  - intros x y z. pose proof (C1 x y z). pose proof (C2 x y z).
    pose proof (C1 z x y). pose proof (C1 y z x). pose proof (T1 x y z).
    destruct (lt1 x y) eqn:?, (lt1 y x) eqn:?, (lt1 y z) eqn:?, (lt1 z y) eqn:?, (lt1 x z) eqn:?,
      (lt1 z x) eqn:?; simpl in *; intuition congruence.
Qed.

Lemma strict_weak_ext {A} (lt lt' : A -> A -> bool) :
  (forall a b, lt a b = lt' a b) -> strict_weak lt' -> strict_weak lt.
Proof. intros H [I T C]. split; intros *; rewrite !H; eauto. Qed.

Lemma lex_false {A} (lt1 lt2 : A -> A -> bool) a b :
  lex lt1 lt2 a b = false -> lex lt1 lt2 b a = false ->
  lt1 a b = false /\ lt1 b a = false /\ lt2 a b = false /\ lt2 b a = false.
Proof. unfold lex. destruct (lt1 a b), (lt1 b a); simpl; try done. Qed.

Lemma ltb_antisym a b : String.ltb a b = false -> String.ltb b a = false -> a = b.
Proof. rewrite !ltb_false. intros. by apply (anti_symm String.le). Qed.
