(* ===== verification/Store.v ===== *)
(** * The in-memory store: entity types, identifiers, transactions

    Models src/store/in_memory_store.hpp: the record of collections, secondary
    indexes and counters that every entity handler works on, the generation of
    identifiers, and the snapshot transactions.  The entity structs are those
    the schemas generate, with the fields the handlers read or write. *)

From stdpp Require Import relations.
From S2P Require Import Prelude CxxString CxxStd.

Open Scope string_scope.

(** [std::chrono::system_clock::time_point], in clock ticks since the epoch. *)
Abbreviation Timestamp := Z.

(** ** Entities *)

Record User := mkUser {
  user_id : string; user_username : string; user_email : string; user_role : string;
  user_profilePicture : option string; user_bio : option string; user_createdAt : option Timestamp;
  user_tenantId : option string; user_isInstanceOwner : option bool;
  user_passwordChangeTimestamp : option Timestamp; user_firstLogin : option bool;
}.
#[export] Instance User_fields : Fields User := fun u =>
  mkUser (user_id u) (user_username u) (user_email u) (user_role u) (user_profilePicture u) (user_bio u)
    (user_createdAt u) (user_tenantId u) (user_isInstanceOwner u) (user_passwordChangeTimestamp u)
    (user_firstLogin u).

Record PageConfig := mkPage {
  page_id : string; page_tenantId : option string; page_packageId : option string;
  page_path : string; page_title : string; page_description : option string;
  page_icon : option string; page_component : option string; page_level : Z;
  page_requiresAuth : bool; page_requiredRole : option string;
  page_parentPath : option string; page_sortOrder : Z; page_isPublished : bool;
  page_params : option string; page_meta : option string;
  page_createdAt : option Timestamp;
}.
#[export] Instance PageConfig_fields : Fields PageConfig := fun p =>
  mkPage (page_id p) (page_tenantId p) (page_packageId p) (page_path p) (page_title p)
    (page_description p) (page_icon p) (page_component p) (page_level p)
    (page_requiresAuth p) (page_requiredRole p) (page_parentPath p) (page_sortOrder p)
    (page_isPublished p) (page_params p) (page_meta p) (page_createdAt p).

Record Workflow := mkWorkflow {
  wf_id : string; wf_tenantId : option string; wf_name : string;
  wf_description : option string; wf_enabled : option bool; wf_version : Z;
  wf_createdAt : option Timestamp; wf_updatedAt : option Timestamp;
  wf_createdBy : option string;
}.
#[export] Instance Workflow_fields : Fields Workflow := fun w =>
  mkWorkflow (wf_id w) (wf_tenantId w) (wf_name w) (wf_description w) (wf_enabled w)
    (wf_version w) (wf_createdAt w) (wf_updatedAt w) (wf_createdBy w).

Record Session := mkSession {
  ses_id : string; ses_userId : string; ses_token : string; ses_expiresAt : Timestamp;
  ses_createdAt : option Timestamp; ses_lastActivity : option Timestamp;
  ses_ipAddress : option string; ses_userAgent : option string;
}.
#[export] Instance Session_fields : Fields Session := fun s =>
  mkSession (ses_id s) (ses_userId s) (ses_token s) (ses_expiresAt s) (ses_createdAt s)
    (ses_lastActivity s) (ses_ipAddress s) (ses_userAgent s).

Record InstalledPackage := mkPackage {
  pkg_packageId : string; pkg_tenantId : option string;
  pkg_installedAt : option Timestamp; pkg_version : string; pkg_enabled : bool;
}.
#[export] Instance InstalledPackage_fields : Fields InstalledPackage := fun p =>
  mkPackage (pkg_packageId p) (pkg_tenantId p) (pkg_installedAt p) (pkg_version p)
    (pkg_enabled p).

Record ComponentNode := mkComponent {
  cmp_id : string; cmp_pageId : string; cmp_parentId : option string;
  cmp_type : string; cmp_childIds : string; cmp_order : Z;
}.
#[export] Instance ComponentNode_fields : Fields ComponentNode := fun c =>
  mkComponent (cmp_id c) (cmp_pageId c) (cmp_parentId c) (cmp_type c) (cmp_childIds c)
    (cmp_order c).

(** Only the key of a credential is ever stored by the handlers of the store,
    and none of them adds one: the collection is copied and cleared. *)
Record Credential := mkCredential { cred_username : string; cred_passwordHash : string }.

(** The fields of [ListOptions] (types.hpp) that the in-memory listings read. *)
Record ListOptions := mkListOptions {
  opt_filter : gmap string string; opt_sort : gmap string string;
  opt_page : Z; opt_limit : Z;
}.

(** ** The store *)

Record InMemoryStore := mkStore {
  users : gmap string User; pages : gmap string PageConfig;
  workflows : gmap string Workflow; sessions : gmap string Session;
  packages : gmap string InstalledPackage; credentials : gmap string Credential;
  page_paths : gmap string string; workflow_names : gmap string string;
  session_tokens : gmap string string; package_keys : gmap string string;
  user_counter : Z; page_counter : Z; workflow_counter : Z;
  session_counter : Z; package_counter : Z; credential_counter : Z;
  components : gmap string ComponentNode;
  components_by_page : gmap string (list string);
  components_by_parent : gmap string (list string);
  component_counter : Z;
}.
#[export] Instance InMemoryStore_fields : Fields InMemoryStore := fun s =>
  mkStore (users s) (pages s) (workflows s) (sessions s) (packages s) (credentials s)
    (page_paths s) (workflow_names s) (session_tokens s) (package_keys s)
    (user_counter s) (page_counter s) (workflow_counter s) (session_counter s)
    (package_counter s) (credential_counter s) (components s) (components_by_page s)
    (components_by_parent s) (component_counter s).

Definition empty_store : InMemoryStore :=
  mkStore ∅ ∅ ∅ ∅ ∅ ∅ ∅ ∅ ∅ ∅ 0 0 0 0 0 0 ∅ ∅ ∅ 0.

(** ** Identifiers *)

(** [snprintf(buffer, 64, "%s_%08d", prefix, counter)]: what fits in 63
    characters before the terminating zero. *)
Definition generateId (prefix : string) (counter : Z) : string :=
  string_take 63 (prefix +:+ "_" +:+ format_0d 8 counter).

(** [++counter] on an [int]: undefined past [INT_MAX]. *)
Definition incr (get : InMemoryStore -> Z) (put : InMemoryStore -> Z -> InMemoryStore) :
    Op InMemoryStore Z := fun s =>
  if (get s <? INT_MAX)%Z then (Ok (get s + 1)%Z, put s (get s + 1)%Z) else (Undef, s).

Lemma frame_incr (R : relation InMemoryStore) get put :
  PreOrder R -> (forall s n, R s (put s n)) -> frame R (incr get put).
Proof. intros HR Hp s. unfold incr. destruct (_ <? _)%Z; simpl; [apply Hp|reflexivity]. Qed.
#[export] Hint Resolve frame_incr : dbal.

Lemma triple_incr_then {B} get put (P : InMemoryStore -> Prop) (k : Z -> Op InMemoryStore B) Q E :
  (forall s, P s -> E Undef s) ->
  (forall n, triple (fun s => exists s0, P s0 /\ (get s0 < INT_MAX)%Z /\
                               n = (get s0 + 1)%Z /\ s = put s0 n) (k n) Q E) ->
  triple P (incr get put ≫= k) Q E.
Proof.
  intros HE Hk s Hs. unfold incr, mbind, Op_bind.
  destruct (Z.ltb_spec (get s) INT_MAX); [|by apply HE]. apply Hk. eauto.
Qed.

(** Follows the statements of a handler, leaving the relations between the
    stores before and after each assignment. *)
Ltac frame_step :=
  lazymatch goal with
  | |- frame _ (_ ≫= _) => apply frame_bind; [typeclasses eauto| |intros ?]
  | |- frame _ (when_some _ _) => apply frame_when_some; [typeclasses eauto|intros ?]
  | |- frame _ (forM _ _) => apply frame_forM; [typeclasses eauto|intros ?]
  | |- frame _ (incr _ _) => apply frame_incr; [typeclasses eauto|intros ? ?; red; reflexivity]
  | |- frame _ (modify _) => apply frame_modify; intros ?; red; reflexivity
  | |- frame _ _ => first [ solve [auto with dbal nocore]
                          | apply frame_pure; [typeclasses eauto|solve [auto with dbal]] ]
  end.
Ltac solve_frame := repeat frame_step.

Lemma string_app_inj_l s t u : s +:+ t = s +:+ u -> t = u.
Proof. apply String.app_inj. Qed.

Lemma generateId_inj prefix n m :
  String.length prefix <= 50 ->
  (0 <= n <= INT_MAX)%Z -> (0 <= m <= INT_MAX)%Z ->
  generateId prefix n = generateId prefix m -> n = m.
Proof.
  intros Hp Hn Hm. unfold generateId.
  rewrite !string_take_all.
  - intros H%string_app_inj_l%string_app_inj_l. apply format_0d_inj in H; lia.
  - rewrite !string_length_app. pose proof (format_0d_length m Hm). simpl. lia.
  - rewrite !string_length_app. pose proof (format_0d_length n Hn). simpl. lia.
Qed.

(** The identifiers a counter at [c] has handed out so far. *)
Definition issued (prefix : string) (c : Z) (id : string) : Prop :=
  exists n, (1 <= n <= c)%Z /\ id = generateId prefix n.

Lemma issued_fresh prefix c :
  String.length prefix <= 50 -> (0 <= c < INT_MAX)%Z ->
  ~ issued prefix c (generateId prefix (c + 1)).
Proof.
  intros Hp Hc (n & Hn & Heq). apply generateId_inj in Heq; [lia|done|lia|lia].
Qed.

Lemma issued_mono prefix c c' id : (c <= c')%Z -> issued prefix c id -> issued prefix c' id.
Proof. intros Hc (n & Hn & ->). exists n. split; [lia|done]. Qed.

Lemma issued_next prefix c : (0 <= c)%Z -> issued prefix (c + 1) (generateId prefix (c + 1)).
Proof. intros Hc. exists (c + 1)%Z. split; [lia|done]. Qed.

Lemma generateId_nonempty prefix n : prefix <> "" -> generateId prefix n <> "".
Proof. destruct prefix; [done|]. unfold generateId. by rewrite string_app_cons. Qed.

(** ** Paging

    The slice every listing but the component one returns: a start index before
    the range and a product outside [int] are undefined. *)
Definition paginate {A} (page limit : Z) (l : list A) : Result (list A) :=
  let n := Z.of_nat (length l) in
  let start := ((page - 1) * limit)%Z in
  if negb (in_int (page - 1) && in_int start && in_int (start + limit)) then Undef
  else
    let stop := Z.min (start + limit) n in
    if (start <? n)%Z then
      if (start <? 0)%Z || (stop <? start)%Z then Undef
      else Ok (take (Z.to_nat (stop - start)) (drop (Z.to_nat start) l))
    else Ok [].

Lemma paginate_ok {A} page limit (l : list A) :
  (1 <= page)%Z -> (0 <= limit)%Z -> (page * limit <= INT_MAX)%Z ->
  (page <= INT_MAX)%Z ->
  paginate page limit l =
    Ok (take (Z.to_nat limit) (drop (Z.to_nat ((page - 1) * limit)) l)).
Proof.
  intros Hp Hl Hm Hpm. unfold paginate.
  assert (0 <= (page - 1) * limit)%Z as H0 by nia.
  assert (page * limit = (page - 1) * limit + limit)%Z as Heq by lia.
  set (st := ((page - 1) * limit)%Z) in *.
  rewrite !(proj2 (in_int_spec _)) by (unfold INT_MIN, INT_MAX in *; lia). simpl.
  destruct (Z.ltb_spec st (Z.of_nat (length l))) as [Hlt|Hge].
  - destruct (Z.ltb_spec st 0); [lia|].
    destruct (Z.ltb_spec (Z.min (st + limit) (Z.of_nat (length l))) st); [lia|].
    simpl. f_equal.
    destruct (decide (st + limit <= Z.of_nat (length l))%Z).
    + f_equal. lia.
    + rewrite !take_ge; [done|rewrite length_drop; lia..].
  - rewrite drop_ge by lia. by rewrite take_nil.
Qed.

Lemma paginate_before {A} limit (l : list A) :
  (0 < limit <= INT_MAX)%Z -> 0 < length l -> paginate 0 limit l = Undef.
Proof.
  intros Hl Hn. unfold paginate. destruct (negb _); [done|].
  destruct (Z.ltb_spec ((0 - 1) * limit) (Z.of_nat (length l))); [|lia].
  destruct (Z.ltb_spec ((0 - 1) * limit) 0); [done|lia].
Qed.

Lemma paginate_subset {A} page limit (l r : list A) :
  paginate page limit l = Ok r -> forall x, x ∈ r -> x ∈ l.
Proof.
  unfold paginate. destruct (negb _); [done|].
  destruct (_ <? _)%Z; [|by intros [= <-] x Hx%not_elem_of_nil].
  destruct (_ || _); [done|]. intros [= <-] x Hx.
  by eapply subseteq_drop, subseteq_take.
Qed.

(** The same listing options at another page. *)
Definition at_page (options : ListOptions) (page : Z) : ListOptions :=
  {| opt_filter := opt_filter options; opt_sort := opt_sort options;
     opt_page := page; opt_limit := opt_limit options |}.

Lemma take_add {A} n m (l : list A) : take (n + m) l = (take n l ++ take m (drop n l))%list.
Proof.
  revert l; induction n as [|n IH]; intros [|x l]; simpl; try done.
  - by rewrite take_nil.
  - by rewrite IH.
Qed.

(** Consecutive slices of one list put together again. *)
Lemma paginate_pages {A} (f : nat -> option (list A)) n limit (l : list A) :
  (forall i, 1 <= i <= n ->
     f i = Some (take (Z.to_nat limit) (drop (Z.to_nat ((Z.of_nat i - 1) * limit)) l))) ->
  (0 <= limit)%Z ->
  exists slices, mapM f (seq 1 n) = Some slices /\
                 concat slices = take (n * Z.to_nat limit) l.
Proof.
  intros Hf Hl. induction n as [|n IH]; [by exists []|].
  destruct IH as (slices & Hs & Hc); [intros i Hi; apply Hf; lia|].
  rewrite seq_S. eexists. split.
  - apply mapM_Some. apply mapM_Some in Hs. apply Forall2_app; [exact Hs|].
    constructor; [|constructor]. apply Hf. lia.
  - rewrite concat_app. simpl. rewrite app_nil_r, Hc.
    rewrite Nat.add_comm, take_add. do 3 f_equal. nia.
Qed.

(** ** Optional fields of an update

    [if (input.f.has_value()) x.f = input.f.value();] *)
Definition keep {A} (o : option A) (old : A) : A := default old o.
Definition keep_opt {A} (o : option A) (old : option A) : option A :=
  match o with Some a => Some a | None => old end.

(** ** Transactions

    The store object itself: the data, the snapshot a transaction holds and the
    flag.  A snapshot is created without a snapshot of its own. *)

Record TxStore := mkTx {
  live : InMemoryStore; snapshot_ : option InMemoryStore; transaction_active_ : bool;
}.
#[export] Instance TxStore_fields : Fields TxStore := fun t =>
  mkTx (live t) (snapshot_ t) (transaction_active_ t).

Definition fresh_tx : TxStore := mkTx empty_store None false.

Definition clear (t : TxStore) : TxStore := t <| live := empty_store |>.

Definition beginTransaction (t : TxStore) : bool * TxStore :=
  if transaction_active_ t then (false, t)
  else (true, t <| snapshot_ := Some (live t) |> <| transaction_active_ := true |>).

Definition commitTransaction (t : TxStore) : bool * TxStore :=
  if negb (transaction_active_ t) then (false, t)
  else (true, t <| snapshot_ := None |> <| transaction_active_ := false |>).

Definition rollbackTransaction (t : TxStore) : bool * TxStore :=
  if negb (transaction_active_ t) then (false, t)
  else match snapshot_ t with
  | None => (false, t)
  | Some s => (true, t <| live := s |> <| snapshot_ := None |> <| transaction_active_ := false |>)
  end.

Definition isTransactionActive (t : TxStore) : bool := transaction_active_ t.

(** A snapshot is held exactly while a transaction is active. *)
Definition tx_wf (t : TxStore) : Prop :=
  transaction_active_ t = true <-> is_Some (snapshot_ t).

(** What a caller can do to the store object: any change of the live data
    through the handlers, and the transaction calls. *)
Inductive tx_step : TxStore -> TxStore -> Prop :=
  | tx_work t s : tx_step t (t <| live := s |>)
  | tx_clear t : tx_step t (clear t)
  | tx_begin t : tx_step t (beginTransaction t).2
  | tx_commit t : tx_step t (commitTransaction t).2
  | tx_rollback t : tx_step t (rollbackTransaction t).2.

Lemma tx_step_wf t t' : tx_step t t' -> tx_wf t -> tx_wf t'.
Proof.
  unfold tx_wf. destruct 1; unfold clear, beginTransaction, commitTransaction, rollbackTransaction.
  all: break_goal; boolify; intuition eauto; try done.
  all: by match goal with H : is_Some None |- _ => destruct H end.
Qed.

(** What can happen between a begin and its commit or rollback. *)
Inductive tx_inside : TxStore -> TxStore -> Prop :=
  | inside_work t s : tx_inside t (t <| live := s |>)
  | inside_clear t : tx_inside t (clear t)
  | inside_begin t : tx_inside t (beginTransaction t).2.

Lemma tx_inside_snapshot t t' s :
  rtc tx_inside t t' -> transaction_active_ t = true -> snapshot_ t = Some s ->
  transaction_active_ t' = true /\ snapshot_ t' = Some s.
Proof.
  induction 1 as [|t t1 t' Hstep _ IH]; intros Ha Hs; [done|].
  apply IH; destruct Hstep; try done; unfold beginTransaction; by rewrite Ha.
Qed.

(** A transaction isolates what happens inside it: whatever handlers ran,
    however often the store was cleared and although a nested begin was
    refused, a rollback puts back exactly the data the begin saw, a commit keeps
    exactly the current data, and both leave the store ready for a new
    transaction. *)
Theorem transaction_isolates t t' :
  transaction_active_ t = false -> rtc tx_inside (beginTransaction t).2 t' ->
  rollbackTransaction t' = (true, mkTx (live t) None false) /\
  commitTransaction t' = (true, mkTx (live t') None false) /\
  beginTransaction t' = (false, t').
Proof.
  intros Ha Hin. unfold beginTransaction in Hin. rewrite Ha in Hin. simpl in Hin.
  destruct (tx_inside_snapshot _ _ (live t) Hin eq_refl eq_refl) as [Ha' Hs'].
  unfold rollbackTransaction, commitTransaction, beginTransaction. rewrite Ha', Hs'.
  split_and!; [|by destruct t'|done].
  f_equal.
Qed.

Lemma transaction_isolates_witness :
  rollbackTransaction (clear (beginTransaction (mkTx (empty_store <| page_counter := 7%Z |>) None false)).2) =
    (true, mkTx (empty_store <| page_counter := 7%Z |>) None false).
Proof.
  refine (proj1 (transaction_isolates (mkTx (empty_store <| page_counter := 7%Z |>) None false) _ eq_refl _)).
  eapply rtc_l; [apply inside_clear|apply rtc_refl].
Defined.
