(* ===== verification/Regex.v ===== *)
(** * [std::regex_match] on the patterns of the sources

    The sources use ECMAScript patterns built from literals, character classes,
    groups, alternation and the quantifiers [*], [+], [?], [{n}] and [{n,}], and
    only [regex_match], which asks whether the whole string belongs to the
    pattern's language (anchors are then redundant).  The matcher below decides
    it with derivatives; [re_match_spec] proves it against the usual inductive
    meaning of the operators. *)

From S2P Require Import Prelude CxxString.

Open Scope string_scope.

Inductive re :=
  | RNone | REps
  | RCls (p : ascii -> bool)
  | RCat (a b : re) | RAlt (a b : re) | RStar (a : re).

Definition rchar (c : ascii) : re := RCls (Ascii.eqb c).
Definition rplus (a : re) : re := RCat a (RStar a).
Definition ropt (a : re) : re := RAlt REps a.
Fixpoint rrep (n : nat) (a : re) : re :=
  match n with O => REps | S n' => RCat a (rrep n' a) end.
Definition rrep_ge (n : nat) (a : re) : re := RCat (rrep n a) (RStar a).
Fixpoint rlit (s : string) : re :=
  match s with "" => REps | String c s' => RCat (rchar c) (rlit s') end.

(** ** Meaning *)

Inductive lang : re -> string -> Prop :=
  | lang_eps : lang REps ""
  | lang_cls p c : p c = true -> lang (RCls p) (String c "")
  | lang_cat a b s t : lang a s -> lang b t -> lang (RCat a b) (s +:+ t)
  | lang_alt_l a b s : lang a s -> lang (RAlt a b) s
  | lang_alt_r a b s : lang b s -> lang (RAlt a b) s
  | lang_star_nil a : lang (RStar a) ""
  | lang_star_cons a s t : lang a s -> lang (RStar a) t -> lang (RStar a) (s +:+ t).

(** ** Matcher *)

Fixpoint nullable (r : re) : bool :=
  match r with
  | RNone | RCls _ => false
  | REps | RStar _ => true
  | RCat a b => nullable a && nullable b
  | RAlt a b => nullable a || nullable b
  end.

Fixpoint deriv (c : ascii) (r : re) : re :=
  match r with
  | RNone | REps => RNone
  | RCls p => if p c then REps else RNone
  | RCat a b =>
      if nullable a then RAlt (RCat (deriv c a) b) (deriv c b) else RCat (deriv c a) b
  | RAlt a b => RAlt (deriv c a) (deriv c b)
  | RStar a => RCat (deriv c a) (RStar a)
  end.

Fixpoint re_match (r : re) (s : string) : bool :=
  match s with
  | "" => nullable r
  | String c s' => re_match (deriv c r) s'
  end.

Lemma app_empty_inv s t : s +:+ t = "" -> s = "" /\ t = "".
Proof. destruct s; [done|]. by rewrite string_app_cons. Qed.

Lemma nullable_spec r : nullable r = true <-> lang r "".
Proof.
  induction r as [| |p|a IHa b IHb|a IHa b IHb|a IHa]; simpl;
    rewrite ?andb_true_iff, ?orb_true_iff, ?IHa, ?IHb; split; intros H.
  all: try done; try (by constructor); try (by inversion H).
  - destruct H. by apply (lang_cat a b "" "").
  - inversion H as [| |? ? s t Ha Hb E1 E2| | | |]; subst.
    apply app_empty_inv in E2 as [-> ->]. done.
  - destruct H; [by apply lang_alt_l|by apply lang_alt_r].
  - inversion H; subst; auto.
Qed.

Lemma lang_star_cons_inv a c s :
  lang (RStar a) (String c s) ->
  exists s1 s2, s = s1 +:+ s2 /\ lang a (String c s1) /\ lang (RStar a) s2.
Proof.
  intros H. remember (RStar a) as r eqn:Er. remember (String c s) as w eqn:Eu.
  revert s Eu. induction H as [| | | | | |a' u t Ha IHa Ht IHt]; intros z Eu; simplify_eq.
  destruct u as [|d u].
  - apply IHt; [done|]. exact Eu.
  - rewrite string_app_cons in Eu. simplify_eq. eauto.
Qed.

Lemma lang_alt_iff a b s : lang (RAlt a b) s <-> lang a s \/ lang b s.
Proof.
  split; [inversion 1; subst; auto|]. intros []; [by apply lang_alt_l|by apply lang_alt_r].
Qed.

Lemma deriv_spec c r s : lang (deriv c r) s <-> lang r (String c s).
Proof.
  revert s; induction r as [| |p|a IHa b IHb|a IHa b IHb|a IHa]; intros s; simpl.
  - split; inversion 1.
  - split; inversion 1.
  - destruct (p c) eqn:Hp; split; inversion 1; subst; try congruence.
    + by constructor.
    + constructor.
  - assert (Hcat : lang (RCat (deriv c a) b) s <->
       exists s1 s2, s = s1 +:+ s2 /\ lang a (String c s1) /\ lang b s2).
    { split.
      - inversion 1; subst. eexists _, _. split; [done|]. by rewrite <- IHa.
      - intros (s1 & s2 & -> & H1 & H2). constructor; [by apply IHa|done]. }
    assert (Hall : lang (RCat a b) (String c s) <->
       (exists s1 s2, s = s1 +:+ s2 /\ lang a (String c s1) /\ lang b s2) \/
       (lang a "" /\ lang b (String c s))).
    { split.
      - inversion 1 as [| |? ? u t Ha Hb E1 E2| | | |]; subst.
        destruct u as [|d u]; [right; done|].
        rewrite string_app_cons in E2. simplify_eq. left; eauto.
      - intros [(s1 & s2 & -> & H1 & H2)|[H1 H2]].
        + rewrite <- string_app_cons. by constructor.
        + by apply (lang_cat a b ""). }
    destruct (nullable a) eqn:Hn.
    + rewrite Hall, <- Hcat. apply nullable_spec in Hn. rewrite <- IHb. split.
      * inversion 1; subst; auto.
      * intros [H|[_ H]]; [by apply lang_alt_l|by apply lang_alt_r].
    + rewrite Hall, Hcat. apply not_true_iff_false in Hn. rewrite nullable_spec in Hn.
      tauto.
  - by rewrite !lang_alt_iff, IHa, IHb.
  - split.
    + inversion 1; subst. rewrite <- string_app_cons. constructor; [by apply IHa|done].
    + intros (s1 & s2 & -> & H1 & H2)%lang_star_cons_inv. constructor; [by apply IHa|done].
Qed.

Lemma re_match_spec r s : re_match r s = true <-> lang r s.
Proof.
  revert r; induction s as [|c s IH]; intros r; simpl.
  - apply nullable_spec.
  - rewrite IH. apply deriv_spec.
Qed.

(** ** Reading the language of the combinators *)

Lemma lang_cat_iff a b s :
  lang (RCat a b) s <-> exists u v, s = u +:+ v /\ lang a u /\ lang b v.
Proof.
  split; [inversion 1; subst; eauto|]. intros (u & v & -> & ? & ?). by constructor.
Qed.

Lemma lang_cls_iff p s : lang (RCls p) s <-> exists c, s = String c "" /\ p c = true.
Proof. split; [inversion 1; eauto|]. intros (c & -> & ?). by constructor. Qed.

Lemma lang_eps_iff s : lang REps s <-> s = "".
Proof. split; [by inversion 1|]. intros ->. constructor. Qed.

Lemma lang_rchar_iff c s : lang (rchar c) s <-> s = String c "".
Proof.
  unfold rchar. rewrite lang_cls_iff. split.
  - intros (d & -> & H). apply Ascii.eqb_eq in H. by subst.
  - intros ->. exists c. by rewrite Ascii.eqb_refl.
Qed.

(** Iterating a character class: the string is made of its characters. *)
Lemma lang_star_cls_iff p s : lang (RStar (RCls p)) s <-> string_forallb p s = true.
Proof.
  split.
  - intros H. remember (RStar (RCls p)) as r eqn:Er.
    induction H as [| | | | | |a s t Ha _ Ht IH]; simplify_eq; [done|].
    apply lang_cls_iff in Ha as (c & -> & Hc). rewrite string_forallb_app, IH by done.
    simpl. by rewrite Hc.
  - induction s as [|c s IH]; simpl; [constructor|].
    intros [Hc Hs]%andb_true_iff. apply (lang_star_cons _ (String c "") s); [|auto].
    by constructor.
Qed.

Lemma lang_plus_cls_iff p s :
  lang (rplus (RCls p)) s <-> s <> "" /\ string_forallb p s = true.
Proof.
  unfold rplus. rewrite lang_cat_iff. split.
  - intros (u & v & -> & (c & -> & Hc)%lang_cls_iff & Hv%lang_star_cls_iff).
    rewrite string_app_cons. simpl. by rewrite Hc.
  - destruct s as [|c s]; [tauto|]. intros [_ [Hc Hs]%andb_true_iff].
    exists (String c ""), s. rewrite lang_cls_iff, lang_star_cls_iff. naive_solver.
Qed.

Lemma lang_rep_ge_cls_iff n p s :
  lang (rrep_ge n (RCls p)) s <-> n <= String.length s /\ string_forallb p s = true.
Proof.
  unfold rrep_ge. revert s. induction n as [|n IH]; intros s; simpl; rewrite lang_cat_iff.
  - setoid_rewrite lang_eps_iff. setoid_rewrite lang_star_cls_iff. split.
    + intros (u & v & -> & -> & ?). split; [lia|done].
    + intros [_ ?]. exists "", s. done.
  - split.
    + intros (u & v & -> & (u1 & u2 & -> & (c & -> & Hc)%lang_cls_iff & H2)%lang_cat_iff & Hv).
      assert (lang (RCat (rrep n (RCls p)) (RStar (RCls p))) (u2 +:+ v)) as [Hl Hs]%IH
        by by constructor.
      rewrite !string_app_cons, string_app_nil_l. simpl. rewrite Hc. split; [lia|done].
    + destruct s as [|c s]; simpl; [lia|]. intros [Hl [Hc Hs]%andb_true_iff].
      assert (lang (RCat (rrep n (RCls p)) (RStar (RCls p))) s) as H by (apply IH; split; [lia|done]).
      apply lang_cat_iff in H as (u & v & -> & Hu & Hv).
      exists (String c u), v. split; [done|]. split; [|done].
      apply (lang_cat _ _ (String c "") u); [by constructor|done].
Qed.
