(* ===== verification/Validation.v ===== *)
(** * Field validators of the entities

    Models src/validation/entity/*.hpp.  The regular expressions are written
    with the combinators of [Regex], literal by literal; the theorems restate
    what the accepted strings are. *)

From S2P Require Import Prelude CxxString Regex.

Open Scope string_scope.

Definition isValidPath (path : string) : bool :=
  negb (is_empty path || (255 <? size path)%Z).

Definition isValidWorkflowName (name : string) : bool :=
  negb (is_empty name) && (size name <=? 255)%Z.

Definition isValidPackageId (packageId : string) : bool :=
  negb (is_empty packageId) && (size packageId <=? 255)%Z.

(** Three groups [(0|[1-9]\d* )], separated by dots. *)
Definition semver_number : re :=
  RAlt (rchar "0") (RCat (RCls (in_range "1" "9")) (RStar (RCls is_digit))).
Definition semver_pattern : re :=
  RCat semver_number (RCat (rchar ".") (RCat semver_number (RCat (rchar ".") semver_number))).
Definition isValidSemver (version : string) : bool := re_match semver_pattern version.

Definition packageKey (packageId : string) : string := packageId.

Definition isValidComponentType (component_type : string) : bool :=
  negb (is_empty component_type) && (size component_type <=? 100)%Z.

Definition isValidComponentOrder (value : Z) : bool := (0 <=? value)%Z.

Definition isValidCredentialPassword (password : string) : bool :=
  if (size password <? 8)%Z then false
  else if (128 <? size password)%Z then false
  else string_existsb (fun c => negb (is_space c)) password.

(** "[a-zA-Z0-9._%+-]+@[a-zA-Z0-9.-]+\.[a-zA-Z]{2,}" *)
Definition email_local_char (c : ascii) : bool :=
  is_alnum c || string_existsb (Ascii.eqb c) "._%+-".
Definition email_domain_char (c : ascii) : bool :=
  is_alnum c || string_existsb (Ascii.eqb c) ".-".
Definition email_pattern : re :=
  RCat (rplus (RCls email_local_char)) (RCat (rchar "@")
    (RCat (rplus (RCls email_domain_char)) (RCat (rchar ".") (rrep_ge 2 (RCls is_alpha))))).
Definition isValidEmail (email : string) : bool := re_match email_pattern email.

(** "[a-zA-Z0-9_-]+" *)
Definition username_char (c : ascii) : bool :=
  is_alnum c || string_existsb (Ascii.eqb c) "_-".
Definition isValidUsername (username : string) : bool :=
  if (size username <? 3)%Z || (50 <? size username)%Z then false
  else re_match (rplus (RCls username_char)) username.

(** ** Canonical decimal numbers *)

(** A digit string without a superfluous leading zero. *)
Definition canonical (s : string) : Prop :=
  string_forallb is_digit s = true /\
  (s = "0" \/ exists c t, s = String c t /\ in_range "1" "9" c = true).

Lemma digit_val_bound c : is_digit c = true -> (digit_val c < 10)%N.
Proof. unfold is_digit, in_range, digit_val. intros [_ H%N.leb_le]%andb_true_iff.
  change (byte_of "9") with 57%N in H. lia. Qed.

Lemma digit_val_inj c d :
  is_digit c = true -> is_digit d = true -> digit_val c = digit_val d -> c = d.
Proof.
  unfold is_digit, in_range, digit_val, byte_of.
  intros [H1%N.leb_le _]%andb_true_iff [H2%N.leb_le _]%andb_true_iff Heq.
  change (N_of_ascii "0") with 48%N in *.
  rewrite <- (ascii_N_embedding c), <- (ascii_N_embedding d). f_equal. lia.
Qed.

Lemma dec_val_acc s acc :
  dec_val s acc = (acc * 10 ^ N.of_nat (String.length s) + dec_val s 0)%N.
Proof.
  revert acc; induction s as [|c s IH]; intros acc; cbn [dec_val String.length].
  - change (10 ^ N.of_nat 0)%N with 1%N. lia.
  - rewrite IH, (IH (0 * 10 + digit_val c)%N), Nat2N.inj_succ, N.pow_succ_r'. lia.
Qed.

Lemma dec_val_bound s :
  string_forallb is_digit s = true -> (dec_val s 0 < 10 ^ N.of_nat (String.length s))%N.
Proof.
  induction s as [|c s IH]; cbn [dec_val String.length string_forallb]; [done|].
  intros [Hc Hs]%andb_true_iff. apply digit_val_bound in Hc.
  rewrite dec_val_acc, Nat2N.inj_succ, N.pow_succ_r'. specialize (IH Hs). nia.
Qed.

Lemma dec_val_inj_len s t :
  String.length s = String.length t ->
  string_forallb is_digit s = true -> string_forallb is_digit t = true ->
  dec_val s 0 = dec_val t 0 -> s = t.
Proof.
  revert t; induction s as [|c s IH]; intros [|d t] Hl Hs Ht Heq; try done.
  cbn [dec_val string_forallb String.length] in *.
  apply andb_true_iff in Hs as [Hc Hs], Ht as [Hd Ht].
  rewrite dec_val_acc, (dec_val_acc t) in Heq.
  injection Hl as Hl. rewrite <- Hl in Heq.
  pose proof (dec_val_bound s Hs). pose proof (dec_val_bound t Ht) as H'. rewrite <- Hl in H'.
  assert (digit_val c = digit_val d) as E by nia.
  f_equal; [by apply digit_val_inj|]. apply IH; try done. nia.
Qed.

Lemma canonical_bound s :
  canonical s -> s = "0" \/ (10 ^ N.of_nat (String.length s - 1) <= dec_val s 0)%N.
Proof.
  intros [Hd [->|(c & t & -> & Hc)]]; [by left|right].
  cbn [dec_val String.length]. rewrite dec_val_acc, Nat.sub_1_r, Nat.pred_succ.
  apply andb_true_iff in Hc as [H1%N.leb_le _]. unfold digit_val.
  change (byte_of "1") with 49%N in H1. nia.
Qed.

Lemma canonical_inj s t : canonical s -> canonical t -> dec_val s 0 = dec_val t 0 -> s = t.
Proof.
  intros Hs Ht Heq. destruct (decide (String.length s = String.length t)) as [Hl|Hl].
  { apply dec_val_inj_len; [done|apply Hs|apply Ht|done]. }
  pose proof (dec_val_bound s (proj1 Hs)) as Bs. pose proof (dec_val_bound t (proj1 Ht)) as Bt.
  assert (forall u v, canonical u -> canonical v -> dec_val u 0 = dec_val v 0 ->
    (dec_val u 0 < 10 ^ N.of_nat (String.length u))%N ->
    String.length u < String.length v -> False) as Habs.
  { intros u v Hu Hv He Bu Hlt. destruct (canonical_bound v Hv) as [->|Hb].
    - destruct u; [destruct Hu as [_ [?|(?&?&?&_)]]; done|simpl in Hlt; lia].
    - assert (10 ^ N.of_nat (String.length u) <= 10 ^ N.of_nat (String.length v - 1))%N
        by (apply N.pow_le_mono_r; lia). lia. }
  exfalso. destruct (Nat.lt_total (String.length s) (String.length t)) as [H|[H|H]];
    [by eapply (Habs s t)|done|by eapply (Habs t s)].
Qed.

Lemma is_digit_char n : (n < 10)%N -> is_digit (ascii_of_N (48 + n)) = true.
Proof.
  intros Hn. unfold is_digit, in_range, byte_of. rewrite N_ascii_embedding by lia.
  change (N_of_ascii "0") with 48%N. change (N_of_ascii "9") with 57%N.
  apply andb_true_iff. rewrite !N.leb_le. lia.
Qed.

Lemma dec_go_digits f n acc :
  string_forallb is_digit acc = true -> string_forallb is_digit (dec_go f n acc) = true.
Proof.
  revert n acc; induction f as [|f IH]; intros n acc Ha; [done|]. cbn [dec_go].
  assert (string_forallb is_digit (String (ascii_of_N (48 + n mod 10)) acc) = true).
  { simpl. rewrite Ha, is_digit_char; [done|]. apply N.mod_lt. lia. }
  destruct (n <? 10)%N; auto.
Qed.

Lemma dec_go_head f n acc :
  (0 < n)%N -> (n < 2 ^ N.of_nat f)%N ->
  exists c t, dec_go (S f) n acc = String c t /\ in_range "1" "9" c = true.
Proof.
  revert n acc; induction f as [|f IH]; intros n acc H0 Hn; [simpl in Hn; lia|].
  cbn [dec_go]. destruct (N.ltb_spec n 10) as [Hlt|Hge].
  - eexists _, _. split; [done|]. rewrite N.mod_small by done.
    unfold in_range, byte_of. rewrite N_ascii_embedding by lia.
    change (N_of_ascii "1") with 49%N. change (N_of_ascii "9") with 57%N.
    apply andb_true_iff. rewrite !N.leb_le. lia.
  - apply IH.
    + apply N.div_str_pos. lia.
    + rewrite Nat2N.inj_succ, N.pow_succ_r' in Hn. apply N.Div0.div_lt_upper_bound. lia.
Qed.

Lemma canonical_dec_string n : canonical (dec_string n).
Proof.
  unfold dec_string. split; [by apply dec_go_digits|].
  destruct (decide (n = 0)%N) as [->|Hn]; [by left|right].
  apply dec_go_head; [lia|apply N_lt_pow_size].
Qed.

Lemma canonical_iff s : canonical s <-> exists n, s = dec_string n.
Proof.
  split; [|intros (n & ->); apply canonical_dec_string].
  intros Hs. exists (dec_val s 0).
  apply canonical_inj; [done|apply canonical_dec_string|by rewrite dec_val_string].
Qed.

(** A number's own text is read back, up to what is not a digit. *)
Lemma take_digits_app ds rest :
  string_forallb is_digit ds = true -> take_digits rest = "" -> take_digits (ds +:+ rest) = ds.
Proof.
  intros Hd Hr. induction ds as [|c ds IH]; [done|]. cbn in Hd. apply andb_true_iff in Hd as [Hc Hd].
  rewrite string_app_cons. cbn. by rewrite Hc, IH.
Qed.
Lemma strtol_to_string z rest :
  (0 <= z)%Z -> take_digits rest = "" -> strtol (to_string z +:+ rest) = Some z.
Proof.
  intros Hz Hr. unfold to_string. rewrite (proj2 (Z.ltb_ge z 0)) by done.
  pose proof (canonical_dec_string (Z.to_N z)) as [Hd Hne].
  set (ds := dec_string (Z.to_N z)) in *. assert (exists c ds', ds = String c ds') as (c & ds' & Hds).
  { destruct ds as [|c ds']; [|by eauto]. by destruct Hne as [Hne|(? & ? & Hne & _)]. }
  assert (is_digit c = true) as Hc by (rewrite Hds in Hd; cbn in Hd; by apply andb_true_iff in Hd as [? _]).
  assert (is_space c = false /\ c <> "-"%char /\ c <> "+"%char) as (Hs & Hm & Hp).
  { split_and!; [|by intros ->..]. destruct (is_space c) eqn:Hs; [|done]. exfalso. revert Hc Hs.
    clear. destruct c as [[] [] [] [] [] [] [] []]; vm_compute; done. }
  unfold strtol. assert (skip_space (ds +:+ rest) = ds +:+ rest) as ->.
  { rewrite Hds, string_app_cons. cbn. by rewrite Hs. }
  assert (match ds +:+ rest with String "-" s' => (true, s') | String "+" s' => (false, s') | _ => (false, ds +:+ rest) end =
    (false, ds +:+ rest)) as ->.
  { rewrite Hds, string_app_cons. destruct c as [[] [] [] [] [] [] [] []]; done. }
  rewrite take_digits_app by done. rewrite Hds at 1. rewrite <- Hds. unfold ds. rewrite dec_val_string. f_equal. lia.
Qed.


Lemma semver_number_spec s : lang semver_number s <-> canonical s.
Proof.
  unfold semver_number, canonical.
  rewrite lang_alt_iff, lang_rchar_iff, lang_cat_iff. split.
  - intros [->|(u & v & -> & (c & -> & Hc)%lang_cls_iff & Hv%lang_star_cls_iff)]; [by auto|].
    rewrite string_app_cons, string_app_nil_l. simpl. rewrite Hv. split; [|by eauto].
    apply andb_true_iff in Hc as [H1%N.leb_le H2]. unfold is_digit, in_range.
    rewrite H2, !andb_true_r. apply N.leb_le.
    change (byte_of "1") with 49%N in H1. change (byte_of "0") with 48%N. lia.
  - intros [Hd [->|(c & t & -> & Hc)]]; [by left|right].
    simpl in Hd. apply andb_true_iff in Hd as [_ Hd].
    exists (String c ""), t. rewrite lang_cls_iff, lang_star_cls_iff. naive_solver.
Qed.

(** ** What the patterns accept *)

#[local] Opaque rplus rrep_ge.

Lemma isValidSemver_spec v :
  isValidSemver v = true <->
  exists x y z : N, v = dec_string x +:+ "." +:+ dec_string y +:+ "." +:+ dec_string z.
Proof.
  unfold isValidSemver, semver_pattern. rewrite re_match_spec.
  repeat setoid_rewrite lang_cat_iff. setoid_rewrite lang_rchar_iff.
  setoid_rewrite semver_number_spec. setoid_rewrite canonical_iff. split.
  - intros (? & ? & -> & (x & ->) & ? & ? & -> & -> & ? & ? & -> & (y & ->) & ? & ? & -> & -> & (z & ->)).
    by exists x, y, z.
  - intros (x & y & z & ->). eexists _, _. split; [done|]. split; [by eauto|].
    eexists _, _. do 2 (split; [done|]). eexists _, _. split; [done|]. split; [by eauto|].
    eexists _, _. do 2 (split; [done|]). eauto.
Qed.

Lemma isValidEmail_spec e :
  isValidEmail e = true <->
  exists l d t, e = l +:+ "@" +:+ d +:+ "." +:+ t /\
    l <> "" /\ string_forallb email_local_char l = true /\
    d <> "" /\ string_forallb email_domain_char d = true /\
    2 <= String.length t /\ string_forallb is_alpha t = true.
Proof.
  unfold isValidEmail, email_pattern. rewrite re_match_spec.
  repeat setoid_rewrite lang_cat_iff. setoid_rewrite lang_rchar_iff.
  setoid_rewrite lang_plus_cls_iff. setoid_rewrite lang_rep_ge_cls_iff. split.
  - intros (l & ? & -> & [? ?] & ? & ? & -> & -> & d & ? & -> & [? ?] & ? & t & -> & -> & [? ?]).
    exists l, d, t. done.
  - intros (l & d & t & -> & ? & ? & ? & ? & ? & ?). eexists _, _. do 2 (split; [done|]).
    eexists _, _. do 2 (split; [done|]). eexists _, _. do 2 (split; [done|]).
    eexists _, _. done.
Qed.

Lemma isValidUsername_spec u :
  isValidUsername u = true <->
  3 <= String.length u <= 50 /\ string_forallb username_char u = true.
Proof.
  unfold isValidUsername, size.
  destruct (Z.ltb_spec (Z.of_nat (String.length u)) 3); simpl; [split; [done|lia]|].
  destruct (Z.ltb_spec 50 (Z.of_nat (String.length u))); simpl; [split; [done|lia]|].
  rewrite re_match_spec, lang_plus_cls_iff. split; [intros [_ ?]; split; [lia|done]|].
  intros [? ?]. split; [|done]. by destruct u.
Qed.
