(* ===== verification/UniqueIndex.v ===== *)
(** * Tables with a unique secondary index

    Pages, workflows, sessions and packages share one shape: a table from
    identifiers to entities, and an index from a unique field (path, name,
    token, package id) back to the identifier.  [index_ok] says the index is
    exactly that; the lemmas say which pairs of updates keep it. *)

From S2P Require Import Prelude CxxStd.

(** Assigning through an iterator is an insertion once the entry is known. *)
Lemma alter_insert_some {A} (f : A -> A) (m : gmap string A) k a :
  m !! k = Some a -> alter f k m = <[k := f a]> m.
Proof.
  intros Hk. apply map_eq. intros k'. rewrite lookup_alter, lookup_insert.
  case_decide; [|done]. subst. by rewrite Hk.
Qed.

Section UniqueIndex.
Context {E : Type} (key : E -> string).
Implicit Types (tbl : gmap string E) (idx : gmap string string).

Definition index_ok tbl idx : Prop :=
  forall k id, idx !! k = Some id <-> exists e, tbl !! id = Some e /\ key e = k.

Lemma index_ok_empty : index_ok ∅ ∅.
Proof.
  intros k id. rewrite lookup_empty. split; [done|].
  intros (e & He & _). by rewrite lookup_empty in He.
Qed.

Lemma index_ok_lookup tbl idx id e :
  index_ok tbl idx -> tbl !! id = Some e -> idx !! key e = Some id.
Proof. intros Hok He. apply Hok. eauto. Qed.

Lemma index_ok_unique tbl idx id1 id2 e1 e2 :
  index_ok tbl idx -> tbl !! id1 = Some e1 -> tbl !! id2 = Some e2 ->
  key e1 = key e2 -> id1 = id2.
Proof.
  intros Hok H1 H2 Hk. pose proof (index_ok_lookup _ _ _ _ Hok H1) as I1.
  pose proof (index_ok_lookup _ _ _ _ Hok H2) as I2. rewrite Hk in I1. congruence.
Qed.

Lemma index_ok_insert tbl idx id e k0 :
  index_ok tbl idx -> key e = k0 -> tbl !! id = None -> idx !! k0 = None ->
  index_ok (<[id := e]> tbl) (<[k0 := id]> idx).
Proof.
  intros Hok <- Hid Hk k id'. rewrite lookup_insert_Some. setoid_rewrite lookup_insert_Some. split.
  - intros [[<- <-]|[Hne Hi]]; [by eauto|].
    apply Hok in Hi as (e' & He' & <-). exists e'. split; [right|done].
    split; [|done]. intros <-. congruence.
  - intros (e' & [[<- <-]|[Hne He']] & <-); [by left|right].
    assert (idx !! key e' = Some id') as Hi by (apply Hok; eauto).
    split; [|done]. intros Heq. rewrite Heq in Hk. congruence.
Qed.

Lemma index_ok_delete tbl idx id e k0 :
  index_ok tbl idx -> tbl !! id = Some e -> key e = k0 ->
  index_ok (delete id tbl) (delete k0 idx).
Proof.
  intros Hok He <- k id'. rewrite lookup_delete_Some. split.
  - intros [Hne Hi]. apply Hok in Hi as (e' & He' & <-).
    exists e'. rewrite lookup_delete_Some. split; [|done]. split; [|done].
    intros <-. congruence.
  - intros (e' & [Hne He']%lookup_delete_Some & <-). split.
    + intros Hk. apply Hne. by eapply index_ok_unique.
    + by eapply index_ok_lookup.
Qed.

(** Writing an entity back under its identifier, the key unchanged. *)
Lemma index_ok_same tbl idx id e e' :
  index_ok tbl idx -> tbl !! id = Some e -> key e' = key e ->
  index_ok (<[id := e']> tbl) idx.
Proof.
  intros Hok He Hk k id'. rewrite (Hok k id'). setoid_rewrite lookup_insert_Some. split.
  - intros (e0 & He0 & <-). destruct (decide (id = id')) as [<-|Hne]; [|by eauto].
    exists e'. split; [by left|congruence].
  - intros (e0 & [[<- <-]|[Hne He0]] & <-); [|by eauto]. exists e. done.
Qed.

(** Moving an entity to another key: the old entry is erased before the new
    one is written. *)
Lemma index_ok_rekey tbl idx id e e' k0 k1 :
  index_ok tbl idx -> tbl !! id = Some e -> key e = k0 -> key e' = k1 ->
  (forall id', idx !! k1 = Some id' -> id' = id) ->
  index_ok (<[id := e']> tbl) (<[k1 := id]> (delete k0 idx)).
Proof.
  intros Hok He <- <- Hfree. rewrite <- (insert_delete_eq tbl).
  apply index_ok_insert.
  - by eapply index_ok_delete.
  - done.
  - apply lookup_delete_eq.
  - destruct (decide (key e = key e')) as [->|Hne]; [apply lookup_delete_eq|].
    rewrite lookup_delete_ne by done.
    destruct (idx !! key e') as [id'|] eqn:Hi; [|done].
    pose proof (Hfree _ eq_refl) as ->. apply Hok in Hi as (e0 & He0 & Hk0). congruence.
Qed.
End UniqueIndex.
