(* ===== verification/MultiIndex.v ===== *)
(** * Tables with a list-valued secondary index

    Components are indexed by their page and by their parent: each key maps to
    the list of the identifiers under it, and a key whose list becomes empty is
    erased (addComponentTo.../removeComponentFrom... of
    src/entities/component/helpers.hpp).  [multi_ok] says that the lists are
    exactly the rows with that key, without repetition. *)

From S2P Require Import Prelude CxxStd.

Open Scope list_scope.

Section Buckets.
Implicit Types (idx : gmap string (list string)) (k id : string).

(** [idx[k].push_back(id)]: a missing list is created empty first. *)
Definition link k id idx : gmap string (list string) :=
  <[k := default [] (idx !! k) ++ [id]]> idx.

(** The erase-remove idiom on [idx[k]], dropping the list once it is empty. *)
Definition unlink k id idx : gmap string (list string) :=
  match idx !! k with
  | None => idx
  | Some entries =>
      match filter (fun x => x <> id) entries with
      | [] => delete k idx
      | rest => <[k := rest]> idx
      end
  end.

Definition bucket idx k : list string := default [] (idx !! k).

Lemma bucket_some idx k l : idx !! k = Some l -> bucket idx k = l.
Proof. unfold bucket. by intros ->. Qed.

Lemma bucket_none idx k : idx !! k = None -> bucket idx k = [].
Proof. unfold bucket. by intros ->. Qed.

Lemma bucket_insert idx k l k' :
  bucket (<[k := l]> idx) k' = if decide (k = k') then l else bucket idx k'.
Proof. unfold bucket. rewrite lookup_insert. by case_decide. Qed.

Lemma bucket_delete idx k k' :
  bucket (delete k idx) k' = if decide (k = k') then [] else bucket idx k'.
Proof. unfold bucket. rewrite lookup_delete. by case_decide. Qed.

Lemma bucket_link idx k id k' :
  bucket (link k id idx) k' = if decide (k = k') then bucket idx k ++ [id] else bucket idx k'.
Proof. apply bucket_insert. Qed.

Lemma bucket_unlink idx k id k' :
  bucket (unlink k id idx) k' =
    if decide (k = k') then filter (fun x => x <> id) (bucket idx k) else bucket idx k'.
Proof.
  unfold unlink. destruct (idx !! k) as [l|] eqn:Hk.
  - rewrite (bucket_some _ _ _ Hk). destruct (filter _ l) eqn:Hf.
    + by rewrite bucket_delete.
    + by rewrite bucket_insert.
  - case_decide; [subst|done]. by rewrite (bucket_none _ _ Hk).
Qed.

Definition no_empty_bucket idx : Prop := forall k, idx !! k <> Some [].

Lemma link_no_empty idx k id : no_empty_bucket idx -> no_empty_bucket (link k id idx).
Proof.
  intros Hne k'. unfold link. rewrite lookup_insert. case_decide; [|apply Hne].
  by destruct (default [] (idx !! k)).
Qed.

Lemma unlink_no_empty idx k id : no_empty_bucket idx -> no_empty_bucket (unlink k id idx).
Proof.
  intros Hne k'. unfold unlink. destruct (idx !! k); [|apply Hne].
  destruct (filter _ l).
  - rewrite lookup_delete. case_decide; [done|apply Hne].
  - rewrite lookup_insert. case_decide; [done|apply Hne].
Qed.
End Buckets.

Section MultiIndex.
Context {E : Type} (key : E -> option string).
Implicit Types (tbl : gmap string E) (idx : gmap string (list string)).

Record multi_ok tbl idx : Prop := {
  multi_elem : forall k id,
    id ∈ bucket idx k <-> exists e, tbl !! id = Some e /\ key e = Some k;
  multi_nodup : forall k, NoDup (bucket idx k);
  multi_nonempty : no_empty_bucket idx;
}.

Lemma multi_ok_empty : multi_ok ∅ ∅.
Proof.
  split.
  - intros k id. unfold bucket. rewrite lookup_empty. split; [by intros ?%not_elem_of_nil|].
    intros (e & He & _). by rewrite lookup_empty in He.
  - intros k. unfold bucket. rewrite lookup_empty. constructor.
  - intros k. by rewrite lookup_empty.
Qed.

(** A key without rows has no entry at all. *)
Lemma multi_ok_absent tbl idx k :
  multi_ok tbl idx -> (forall id e, tbl !! id = Some e -> key e <> Some k) -> idx !! k = None.
Proof.
  intros Hok Hno. destruct (idx !! k) as [[|id l]|] eqn:Hk; [|exfalso|done].
  - by destruct (multi_nonempty _ _ Hok k).
  - destruct (proj1 (multi_elem _ _ Hok k id)) as (e & He & Hke).
    + rewrite (bucket_some _ _ _ Hk). apply elem_of_cons. by left.
    + by eapply Hno.
Qed.

Lemma multi_ok_insert tbl idx id e k :
  multi_ok tbl idx -> tbl !! id = None -> key e = Some k ->
  multi_ok (<[id := e]> tbl) (link k id idx).
Proof.
  intros Hok Hid Hk. split.
  - intros k' id'. rewrite bucket_link. setoid_rewrite lookup_insert_Some.
    case_decide as Hkk; [subst k'; rewrite elem_of_app, list_elem_of_singleton|];
      rewrite (multi_elem _ _ Hok); split.
    + intros [(e' & He' & ?)| ->]; [|by eauto].
      exists e'. split; [right|done]. split; [congruence|done].
    + intros (e' & [[<- <-]|[? ?]] & ?); eauto.
    + intros (e' & He' & ?). exists e'. split; [right|done]. split; [congruence|done].
    + intros (e' & [[<- <-]|[? ?]] & ?); [congruence|eauto].
  - intros k'. rewrite bucket_link. case_decide; [|apply (multi_nodup _ _ Hok)].
    apply NoDup_snoc; [apply (multi_nodup _ _ Hok)|].
    rewrite (multi_elem _ _ Hok). intros (e' & He' & _). congruence.
  - apply link_no_empty, Hok.
Qed.

Lemma multi_ok_insert_none tbl idx id e :
  multi_ok tbl idx -> tbl !! id = None -> key e = None -> multi_ok (<[id := e]> tbl) idx.
Proof.
  intros Hok Hid Hk. split; [|apply Hok..]. intros k' id'. rewrite (multi_elem _ _ Hok).
  setoid_rewrite lookup_insert_Some. split.
  - intros (e' & He' & ?). exists e'. split; [right|done]. split; [congruence|done].
  - intros (e' & [[<- <-]|[? ?]] & ?); [congruence|eauto].
Qed.

Lemma multi_ok_delete tbl idx id e k :
  multi_ok tbl idx -> tbl !! id = Some e -> key e = Some k ->
  multi_ok (delete id tbl) (unlink k id idx).
Proof.
  intros Hok Hid Hk. split.
  - intros k' id'. rewrite bucket_unlink. setoid_rewrite lookup_delete_Some.
    case_decide as Hkk; [subst k'; rewrite list_elem_of_filter|];
      rewrite (multi_elem _ _ Hok).
    + firstorder congruence.
    + firstorder congruence.
  - intros k'. rewrite bucket_unlink. case_decide; [apply NoDup_filter|]; apply (multi_nodup _ _ Hok).
  - apply unlink_no_empty, Hok.
Qed.

Lemma multi_ok_delete_none tbl idx id e :
  multi_ok tbl idx -> tbl !! id = Some e -> key e = None -> multi_ok (delete id tbl) idx.
Proof.
  intros Hok Hid Hk. split; [|apply Hok..]. intros k' id'. rewrite (multi_elem _ _ Hok).
  setoid_rewrite lookup_delete_Some. firstorder congruence.
Qed.

(** Writing a row back with the key it had. *)
Lemma multi_ok_same tbl idx id e e' :
  multi_ok tbl idx -> tbl !! id = Some e -> key e' = key e -> multi_ok (<[id := e']> tbl) idx.
Proof.
  intros Hok Hid Hk. split; [|apply Hok..]. intros k' id'. rewrite (multi_elem _ _ Hok).
  setoid_rewrite lookup_insert_Some. split.
  - intros (e0 & He0 & ?). destruct (decide (id = id')) as [<-|Hne]; [|by eauto].
    exists e'. split; [by left|congruence].
  - intros (e0 & [[<- <-]|[? ?]] & ?); [|by eauto]. exists e. split; [done|congruence].
Qed.

(** Removing a row's entry, whatever its key. *)
Definition unlink_opt (k : option string) id idx :=
  match k with Some k => unlink k id idx | None => idx end.
Definition link_opt (k : option string) id idx :=
  match k with Some k => link k id idx | None => idx end.

Lemma multi_ok_remove tbl idx id e :
  multi_ok tbl idx -> tbl !! id = Some e -> multi_ok (delete id tbl) (unlink_opt (key e) id idx).
Proof.
  intros Hok He. destruct (key e) eqn:Hk; [by eapply multi_ok_delete|by eapply multi_ok_delete_none].
Qed.

Lemma multi_ok_add tbl idx id e :
  multi_ok tbl idx -> tbl !! id = None -> multi_ok (<[id := e]> tbl) (link_opt (key e) id idx).
Proof.
  intros Hok He. destruct (key e) eqn:Hk; [by eapply multi_ok_insert|by eapply multi_ok_insert_none].
Qed.

(** Moving a row to another key. *)
Lemma multi_ok_rekey tbl idx id e e' :
  multi_ok tbl idx -> tbl !! id = Some e ->
  multi_ok (<[id := e']> tbl) (link_opt (key e') id (unlink_opt (key e) id idx)).
Proof.
  intros Hok He. rewrite <- insert_delete_eq. apply multi_ok_add; [by apply multi_ok_remove|].
  apply lookup_delete_eq.
Qed.
End MultiIndex.
