(* ===== verification/Pages.v ===== *)
(** * Page configurations

    Models src/entities/page/crud: create, get, get by path, update, delete,
    list and search on the [pages] table and its [page_paths] index. *)

From S2P Require Import Prelude CxxString CxxStd Store Validation UniqueIndex.

Open Scope string_scope.

Record CreatePageInput := mkCreatePage {
  cp_tenantId : option string; cp_packageId : option string; cp_path : string;
  cp_title : string; cp_description : option string; cp_icon : option string;
  cp_component : option string; cp_level : Z; cp_requiresAuth : bool;
  cp_requiredRole : option string; cp_parentPath : option string; cp_sortOrder : Z;
  cp_isPublished : bool; cp_params : option string; cp_meta : option string;
}.

Record UpdatePageInput := mkUpdatePage {
  up_tenantId : option string; up_packageId : option string; up_path : option string;
  up_title : option string; up_description : option string; up_icon : option string;
  up_component : option string; up_level : option Z; up_requiresAuth : option bool;
  up_requiredRole : option string; up_parentPath : option string;
  up_sortOrder : option Z; up_isPublished : option bool; up_params : option string;
  up_meta : option string;
}.

(** ** Operations *)

Definition badTitle (title : string) : bool := is_empty title || (255 <? size title)%Z.
Definition badLevel (level : Z) : bool := (level <? 1)%Z || (6 <? level)%Z.

Definition new_page (now : Timestamp) (n : Z) (input : CreatePageInput) : PageConfig := {|
  page_id := generateId "page" n; page_tenantId := cp_tenantId input;
  page_packageId := cp_packageId input; page_path := cp_path input;
  page_title := cp_title input; page_description := cp_description input;
  page_icon := cp_icon input; page_component := cp_component input;
  page_level := cp_level input; page_requiresAuth := cp_requiresAuth input;
  page_requiredRole := cp_requiredRole input; page_parentPath := cp_parentPath input;
  page_sortOrder := cp_sortOrder input; page_isPublished := cp_isPublished input;
  page_params := cp_params input; page_meta := cp_meta input;
  page_createdAt := Some now |}.

Definition createPage (now : Timestamp) (input : CreatePageInput) :
    Op InMemoryStore PageConfig :=
  reject_if (negb (isValidPath (cp_path input))) (validationError "Invalid path format");;
  reject_if (badTitle (cp_title input))
    (validationError "Title must be between 1 and 255 characters");;
  reject_if (badLevel (cp_level input)) (validationError "Level must be between 1 and 6");;
  taken ← gets (fun s => page_paths s !! cp_path input);
  reject_if (bool_decide (is_Some taken))
    (conflict ("Page with path already exists: " +:+ cp_path input));;
  n ← incr page_counter (fun s n => s <| page_counter := n |>);
  let page := new_page now n input in
  modify (fun s => s <| pages ::= <[page_id page := page]> |>
                     <| page_paths ::= <[page_path page := page_id page]> |>);;
  mret page.

Definition getPage (id : string) : Op InMemoryStore PageConfig :=
  reject_if (is_empty id) (validationError "Page ID cannot be empty");;
  find_or pages id (notFound ("Page not found: " +:+ id)).

Definition getPageByPath (path : string) : Op InMemoryStore PageConfig :=
  reject_if (is_empty path) (validationError "Path cannot be empty");;
  id ← find_or page_paths path (notFound ("Page not found with path: " +:+ path));
  getPage id.

(** Assigning through the reference to the entry [id]. *)
Definition write_page (id : string) (f : PageConfig -> PageConfig) : Op InMemoryStore unit :=
  modify (fun s => s <| pages ::= alter f id |>).

Definition updatePage (id : string) (input : UpdatePageInput) : Op InMemoryStore PageConfig :=
  reject_if (is_empty id) (validationError "Page ID cannot be empty");;
  page ← find_or pages id (notFound ("Page not found: " +:+ id));
  let old_path := page_path page in
  when_some (up_path input) (fun path =>
    reject_if (negb (isValidPath path)) (validationError "Invalid path format");;
    owner ← gets (fun s => page_paths s !! path);
    reject_if (match owner with Some o => negb (String.eqb o id) | None => false end)
      (conflict ("Path already exists: " +:+ path));;
    modify (fun s => s <| page_paths ::= fun m => <[path := id]> (delete old_path m) |>
                       <| pages ::= alter (fun p => p <| page_path := path |>) id |>));;
  when_some (up_title input) (fun title =>
    reject_if (badTitle title)
      (validationError "Title must be between 1 and 255 characters");;
    write_page id (fun p => p <| page_title := title |>));;
  write_page id (fun p => p
    <| page_description ::= keep_opt (up_description input) |>
    <| page_icon ::= keep_opt (up_icon input) |>
    <| page_component ::= keep_opt (up_component input) |>);;
  when_some (up_level input) (fun level =>
    reject_if (badLevel level) (validationError "Level must be between 1 and 6");;
    write_page id (fun p => p <| page_level := level |>));;
  write_page id (fun p => p
    <| page_requiresAuth ::= keep (up_requiresAuth input) |>
    <| page_requiredRole ::= keep_opt (up_requiredRole input) |>
    <| page_parentPath ::= keep_opt (up_parentPath input) |>
    <| page_sortOrder ::= keep (up_sortOrder input) |>
    <| page_isPublished ::= keep (up_isPublished input) |>
    <| page_params ::= keep_opt (up_params input) |>
    <| page_meta ::= keep_opt (up_meta input) |>
    <| page_packageId ::= keep_opt (up_packageId input) |>
    <| page_tenantId ::= keep_opt (up_tenantId input) |>);;
  deref pages id.

Definition deletePage (id : string) : Op InMemoryStore bool :=
  reject_if (is_empty id) (validationError "Page ID cannot be empty");;
  page ← find_or pages id (notFound ("Page not found: " +:+ id));
  modify (fun s => s <| page_paths ::= delete (page_path page) |>
                     <| pages ::= delete id |>);;
  mret true.

Definition page_matches (filter : gmap string string) (page : PageConfig) : Result bool :=
  let published :=
    match filter !! "isPublished" with
    | Some v => Bool.eqb (page_isPublished page) (String.eqb v "true")
    | None => true
    end in
  level ← match filter !! "level" with
    | Some v => n ← stoi v; Ok (page_level page =? n)%Z
    | None => Ok true
    end;
  Ok (published && level).

Section Listing.
Context `{!StdSort}.

Definition sort_pages (sort : gmap string string) (l : list PageConfig) : list PageConfig :=
  if has_key sort "title" then std_sort (fun a b => String.ltb (page_title a) (page_title b)) l
  else if has_key sort "createdAt" then
    std_sort (fun a b => opt_lt (page_createdAt a) (page_createdAt b)) l
  else l.

Lemma sort_pages_length sort l : length (sort_pages sort l) = length l.
Proof.
  unfold sort_pages.
  destruct (has_key sort "title"); [|destruct (has_key sort "createdAt"); [|done]];
    apply Permutation_length, std_sort_perm.
Qed.

Definition listPages (options : ListOptions) : Op InMemoryStore (list PageConfig) :=
  all ← gets (fun s => (map_items (pages s)).*2);
  found ← of_result (filterM (page_matches (opt_filter options)) all);
  of_result (paginate (opt_page options) (opt_limit options)
               (sort_pages (opt_sort options) found)).

Definition searchPages (query : string) (limit : Z) : Op InMemoryStore (list PageConfig) :=
  reject_if (is_empty query) (validationError "search query is required");;
  all ← gets (fun s => (map_items (pages s)).*2);
  let matches := List.filter (fun p => containsInsensitive (page_path p) query
                                    || containsInsensitive (page_title p) query) all in
  let matches := std_sort (fun a b => String.ltb (page_path a) (page_path b)) matches in
  mret (if (0 <? limit)%Z && (limit <? Z.of_nat (length matches))%Z
        then take (Z.to_nat limit) matches else matches).
End Listing.

(** ** Invariant *)

Definition page_fields_ok (p : PageConfig) : Prop :=
  isValidPath (page_path p) = true /\ badTitle (page_title p) = false /\
  badLevel (page_level p) = false.

Definition pages_ok (s : InMemoryStore) : Prop :=
  index_ok page_path (pages s) (page_paths s) /\
  (0 <= page_counter s <= INT_MAX)%Z /\
  forall id p, pages s !! id = Some p ->
    page_id p = id /\ issued "page" (page_counter s) id /\ page_fields_ok p.

(** The page operations touch only their own three fields. *)
Definition pages_only (s s' : InMemoryStore) : Prop :=
  s' = s <| pages := pages s' |> <| page_paths := page_paths s' |>
         <| page_counter := page_counter s' |>.

#[export] Instance pages_only_preorder : PreOrder pages_only.
Proof.
  split.
  - intros s. by destruct s.
  - intros s1 s2 s3 H12 H23. unfold pages_only in *. rewrite H23, H12. done.
Qed.


Lemma createPage_frame now input : frame pages_only (createPage now input).
Proof. unfold createPage. solve_frame. Qed.
Lemma getPage_pure id : pure_op (getPage id).
Proof. unfold getPage. auto with dbal. Qed.
Lemma getPageByPath_pure path : pure_op (getPageByPath path).
Proof. unfold getPageByPath. auto using getPage_pure with dbal. Qed.
Lemma updatePage_frame id input : frame pages_only (updatePage id input).
Proof. unfold updatePage, write_page. solve_frame. Qed.
Lemma deletePage_frame id : frame pages_only (deletePage id).
Proof. unfold deletePage. solve_frame. Qed.
Lemma listPages_pure `{!StdSort} options : pure_op (listPages options).
Proof. unfold listPages. auto with dbal. Qed.
Lemma searchPages_pure `{!StdSort} query limit : pure_op (searchPages query limit).
Proof. unfold searchPages. auto with dbal. Qed.
#[export] Hint Resolve createPage_frame getPage_pure getPageByPath_pure updatePage_frame
  deletePage_frame listPages_pure searchPages_pure : dbal.

(** ** The invariant is kept, on the error paths too *)

Lemma pages_ok_write s id p p' :
  pages_ok s -> pages s !! id = Some p ->
  page_id p' = page_id p -> page_path p' = page_path p ->
  page_fields_ok p' -> pages_ok (s <| pages := <[id := p']> (pages s) |>).
Proof.
  intros (Hidx & Hc & Hall) Hp Hid Hpath Hf. split; [|split; [done|]].
  - simpl. by eapply index_ok_same.
  - simpl. intros id' q [[<- <-]|[Hne Hq]]%lookup_insert_Some; [|by apply Hall].
    destruct (Hall _ _ Hp) as (? & ? & _). by rewrite Hid.
Qed.

(** The state between the statements of an update. *)
Definition page_at (id : string) (s : InMemoryStore) : Prop :=
  pages_ok s /\ is_Some (pages s !! id).

Lemma write_page_at id f E :
  (forall p, page_fields_ok p ->
    page_id (f p) = page_id p /\ page_path (f p) = page_path p /\ page_fields_ok (f p)) ->
  triple (page_at id) (write_page id f) (fun _ => page_at id) E.
Proof.
  intros Hf. apply triple_modify. intros s [Hok [p Hp]].
  destruct (Hf p) as (Hid & Hpath & Hfo); [by apply Hok in Hp as (_ & _ & ?)|].
  unfold assign. simpl. rewrite (alter_insert_some _ _ _ _ Hp).
  split; [by eapply pages_ok_write|]. simpl. rewrite lookup_insert_eq. eauto.
Qed.

Lemma rename_page_at s id page path :
  pages_ok s -> pages s !! id = Some page -> isValidPath path = true ->
  match page_paths s !! path with Some o => negb (String.eqb o id) | None => false end = false ->
  page_at id (s <| page_paths ::= fun m => <[path := id]> (delete (page_path page) m) |>
                <| pages ::= alter (fun p => p <| page_path := path |>) id |>).
Proof.
  intros (Hidx & Hc & Hall) Hp Hv Hown. unfold assign. simpl.
  rewrite (alter_insert_some _ _ _ _ Hp).
  split; [split; [|split; [done|]]|]; simpl.
  - eapply index_ok_rekey; [done..|]. intros id' Hid'. rewrite Hid' in Hown. by boolify.
  - intros id' q [[<- <-]|[Hne Hq]]%lookup_insert_Some; [|by apply Hall].
    destruct (Hall _ _ Hp) as (? & ? & ? & ? & ?). by repeat split.
  - rewrite lookup_insert_eq. eauto.
Qed.

Lemma updatePage_ok id input : preserves pages_ok (updatePage id input).
Proof.
  apply triple_preserves. unfold updatePage.
  apply triple_reject_then; [done|intros _].
  apply triple_find_then; [done|intros page].
  apply (triple_when_then _ _ _ (page_at id)); [by intros _ s []; split; eauto| |].
  { intros path _. apply triple_reject_then; [tauto|intros Hv%negb_false_iff].
    apply triple_gets_then; intros owner. apply triple_reject_then; [tauto|intros Hown].
    apply triple_modify. intros s [[Hok Hp] Ho]. subst. by apply rename_page_at. }
  assert (forall s, page_at id s -> pages_ok s) as Hat by (by intros s []).
  apply (triple_when_then _ _ _ (page_at id)); [done| |].
  { intros title _. apply triple_reject_then; [done|intros Ht].
    apply write_page_at. intros p (? & ? & ?). by repeat split. }
  eapply triple_seq; [by apply write_page_at|].
  apply (triple_when_then _ _ _ (page_at id)); [done| |].
  { intros level _. apply triple_reject_then; [done|intros Hl].
    apply write_page_at. intros p (? & ? & ?). by repeat split. }
  eapply triple_seq; [by apply write_page_at|].
  apply triple_deref. intros s [Hok [p Hp]]. eauto.
Qed.

Lemma createPage_ok now input : preserves pages_ok (createPage now input).
Proof.
  apply triple_preserves. unfold createPage.
  apply triple_reject_then; [done|intros Hv%negb_false_iff].
  apply triple_reject_then; [done|intros Ht]. apply triple_reject_then; [done|intros Hl].
  apply triple_gets_then; intros taken.
  apply triple_reject_then; [tauto|intros Htaken%bool_decide_eq_false%eq_None_not_Some].
  apply triple_incr_then; [by intros ? []|intros n].
  eapply triple_modify_then; [|by apply triple_ret].
  intros s (s0 & ((Hidx & Hc & Hall) & Hfree) & Hlt & -> & ->).
  rewrite Htaken in Hfree. unfold assign in *; simpl in *.
  assert (pages s0 !! generateId "page" (page_counter s0 + 1) = None) as Hnew.
  { apply eq_None_not_Some. intros [p Hp]. apply Hall in Hp as (_ & Hi & _).
    revert Hi. apply issued_fresh; simpl; lia. }
  split; [|split]; simpl.
  - by apply index_ok_insert.
  - lia.
  - intros id p [[<- <-]|[_ Hp]]%lookup_insert_Some.
    + split; [done|]. split; [apply issued_next; lia|by repeat split].
    + destruct (Hall _ _ Hp) as (? & ? & ?). split; [done|]. split; [|done].
      eapply issued_mono; [|done]. lia.
Qed.

Lemma deletePage_ok id : preserves pages_ok (deletePage id).
Proof.
  apply triple_preserves. unfold deletePage.
  apply triple_reject_then; [done|intros _]. apply triple_find_then; [done|intros page].
  eapply triple_modify_then; [|by apply triple_ret].
  intros s [(Hidx & Hc & Hall) Hp]. split; [|split; [done|]]; simpl.
  - by eapply index_ok_delete.
  - intros id' p [_ Hp']%lookup_delete_Some. by apply Hall.
Qed.

Lemma pages_ok_empty : pages_ok empty_store.
Proof.
  split; [apply index_ok_empty|]. split; [simpl; unfold INT_MAX; lia|].
  intros id p Hp. change (pages empty_store) with (∅ : gmap string PageConfig) in Hp.
  by rewrite lookup_empty in Hp.
Qed.

(** ** Functional behaviour *)

Lemma isValidPath_nonempty path : isValidPath path = true -> is_empty path = false.
Proof. unfold isValidPath. by destruct (is_empty path). Qed.

Lemma getPage_found s id p :
  is_empty id = false -> pages s !! id = Some p -> getPage id s = (Ok p, s).
Proof.
  intros Hid Hp. unfold getPage, reject_if, find_or, mbind, Op_bind. by rewrite Hid, Hp.
Qed.

Lemma getPageByPath_found s path id p :
  is_empty path = false -> is_empty id = false ->
  page_paths s !! path = Some id -> pages s !! id = Some p ->
  getPageByPath path s = (Ok p, s).
Proof.
  intros Hpath Hid Hi Hp. unfold getPageByPath, reject_if, find_or, mbind, Op_bind.
  rewrite Hpath, Hi. by apply getPage_found.
Qed.

(** Creating a page, on every branch: the fresh page is stored under a new
    identifier and found again by identifier and by path; a refusal leaves the
    store as it was and is a validation error or a conflict for the stated
    reason; only an exhausted counter leaves the defined behaviours. *)
Theorem createPage_spec now input s :
  pages_ok s ->
  match createPage now input s with
  | (Ok p, s') =>
      p = new_page now (page_counter s + 1) input /\ page_fields_ok p /\
      page_paths s !! cp_path input = None /\ pages s !! page_id p = None /\
      s' = s <| page_counter := (page_counter s + 1)%Z |>
             <| pages := <[page_id p := p]> (pages s) |>
             <| page_paths := <[page_path p := page_id p]> (page_paths s) |> /\
      getPage (page_id p) s' = (Ok p, s') /\ getPageByPath (page_path p) s' = (Ok p, s')
  | (Err e, s') =>
      s' = s /\
      ((code e = ValidationError /\ ~ page_fields_ok (new_page now 0 input)) \/
       (code e = Conflict /\ is_Some (page_paths s !! cp_path input)))
  | (Throw _, _) => False
  | (Undef, s') => s' = s /\ page_counter s = INT_MAX
  end.
Proof.
  intros (Hidx & Hc & Hall). unfold createPage, reject_if, gets, modify, incr, mbind, Op_bind.
  destruct (isValidPath (cp_path input)) eqn:Hv; simpl; [|unfold page_fields_ok; simpl; intuition congruence].
  destruct (badTitle (cp_title input)) eqn:Ht; [unfold page_fields_ok; simpl; intuition congruence|].
  destruct (badLevel (cp_level input)) eqn:Hl; [unfold page_fields_ok; simpl; intuition congruence|].
  destruct (page_paths s !! cp_path input) eqn:Hfree; simpl; [by eauto 6|].
  destruct (Z.ltb_spec (page_counter s) INT_MAX); [|split; [done|lia]].
  set (p := new_page now (page_counter s + 1) input).
  assert (is_empty (page_id p) = false) as Hid
    by (apply is_empty_false, generateId_nonempty; done).
  assert (pages s !! page_id p = None) as Hnew.
  { apply eq_None_not_Some. intros [q Hq]. apply Hall in Hq as (_ & Hi & _).
    revert Hi. apply issued_fresh; simpl; lia. }
  unfold mret, Op_ret. do 5 (split; [done|]).
  split; [apply getPage_found; [done|]|eapply getPageByPath_found; [|done| |]];
    try (apply lookup_insert_eq). by apply isValidPath_nonempty.
Qed.

Definition apply_page_update (input : UpdatePageInput) (p : PageConfig) : PageConfig := {|
  page_id := page_id p; page_tenantId := keep_opt (up_tenantId input) (page_tenantId p);
  page_packageId := keep_opt (up_packageId input) (page_packageId p);
  page_path := keep (up_path input) (page_path p);
  page_title := keep (up_title input) (page_title p);
  page_description := keep_opt (up_description input) (page_description p);
  page_icon := keep_opt (up_icon input) (page_icon p);
  page_component := keep_opt (up_component input) (page_component p);
  page_level := keep (up_level input) (page_level p);
  page_requiresAuth := keep (up_requiresAuth input) (page_requiresAuth p);
  page_requiredRole := keep_opt (up_requiredRole input) (page_requiredRole p);
  page_parentPath := keep_opt (up_parentPath input) (page_parentPath p);
  page_sortOrder := keep (up_sortOrder input) (page_sortOrder p);
  page_isPublished := keep (up_isPublished input) (page_isPublished p);
  page_params := keep_opt (up_params input) (page_params p);
  page_meta := keep_opt (up_meta input) (page_meta p);
  page_createdAt := page_createdAt p |}.

Definition path_free (s : InMemoryStore) (id path : string) : Prop :=
  forall o, page_paths s !! path = Some o -> o = id.

(** The store with entry [id] and the path index replaced: what the statements
    of an update have done to [s0] so far. *)
Definition page_put (s0 : InMemoryStore) (id : string) (p : PageConfig)
    (paths : gmap string string) (s : InMemoryStore) : Prop :=
  s = s0 <| pages := <[id := p]> (pages s0) |> <| page_paths := paths |>.

Lemma write_page_put s0 id p paths f E :
  triple (page_put s0 id p paths) (write_page id f) (fun _ => page_put s0 id (f p) paths) E.
Proof.
  apply triple_modify. intros s ->. unfold page_put, assign. simpl. by rewrite alter_insert_eq.
Qed.

Lemma page_put_start s id p : pages s !! id = Some p -> page_put s id p (page_paths s) s.
Proof. intros Hp. unfold page_put, assign. simpl. rewrite insert_id by done. by destruct s. Qed.

Definition moved_paths (s : InMemoryStore) (id : string) (p : PageConfig)
    (input : UpdatePageInput) : gmap string string :=
  match up_path input with
  | Some path => <[path := id]> (delete (page_path p) (page_paths s))
  | None => page_paths s
  end.

Lemma updatePage_triple id input s0 :
  triple (fun s => s = s0) (updatePage id input)
    (fun p' s' => exists p, pages s0 !! id = Some p /\ p' = apply_page_update input p /\
       page_put s0 id p' (moved_paths s0 id p input) s')
    (fun r s' => match r with
       | Err e => code e <> ValidationError -> s' = s0
       | _ => False
       end).
Proof.
  unfold updatePage. apply triple_reject_then; [done|intros _].
  apply triple_find_then; [done|intros p].
  apply (triple_weaken _ (fun s => s = s0 /\ pages s0 !! id = Some p)); [|by intros s []; subst].
  apply triple_pure_pre. intros Hp.
  set (q1 := p <| page_path ::= keep (up_path input) |>).
  set (q2 := q1 <| page_title ::= keep (up_title input) |>).
  apply (triple_when_then _ _ _ (page_put s0 id q1 (moved_paths s0 id p input))).
  { intros Hn s ->. unfold moved_paths. rewrite Hn.
    replace q1 with p by (unfold q1; rewrite Hn; by destruct p). by apply page_put_start. }
  { intros path Hpath. apply triple_reject_then; [by intros s _ []|intros _].
    apply triple_gets_then; intros owner. apply triple_reject_then; [by intros s []|intros _].
    apply triple_modify. intros s [-> _]. unfold page_put, q1, moved_paths, assign. simpl.
    by rewrite Hpath, (alter_insert_some _ _ _ _ Hp). }
  apply (triple_when_then _ _ _ (page_put s0 id q2 (moved_paths s0 id p input))).
  { intros Hn s. unfold q2. rewrite Hn. done. }
  { intros title Ht. apply triple_reject_then; [by intros s _ []|intros _].
    eapply triple_post; [apply write_page_put|]. unfold q2. rewrite Ht. done. }
  eapply triple_seq; [apply write_page_put|].
  match goal with |- triple (page_put _ _ ?q _) _ _ _ => set (q3 := q) end.
  apply (triple_when_then _ _ _
    (page_put s0 id (q3 <| page_level ::= keep (up_level input) |>) (moved_paths s0 id p input))).
  { intros Hn s. rewrite Hn. done. }
  { intros level Hl. apply triple_reject_then; [by intros s _ []|intros _].
    eapply triple_post; [apply write_page_put|]. rewrite Hl. done. }
  eapply triple_seq; [apply write_page_put|]. apply triple_deref. intros s ->.
  eexists. split; [apply lookup_insert_eq|]. exists p. done.
Qed.

(** A successful update stores exactly the requested fields under the same
    identifier and moves the path index entry; a conflict or a missing page
    leaves the store as it was. *)
Theorem updatePage_spec id input s :
  match updatePage id input s with
  | (Ok p', s') => exists p,
      pages s !! id = Some p /\ p' = apply_page_update input p /\
      s' = s <| pages := <[id := p']> (pages s) |>
             <| page_paths := match up_path input with
                | Some path => <[path := id]> (delete (page_path p) (page_paths s))
                | None => page_paths s
                end |>
  | (Err e, s') => code e <> ValidationError -> s' = s
  | _ => False
  end.
Proof.
  pose proof (updatePage_triple id input s s eq_refl) as H.
  destruct (updatePage id input s) as [[] s']; exact H.
Qed.

(** The update is not atomic: a refused title comes after the new path has been
    committed, so the page answers at the new path although the call failed. *)
Theorem updatePage_partial id input s p path title :
  pages_ok s -> is_empty id = false -> pages s !! id = Some p ->
  up_path input = Some path -> isValidPath path = true -> path_free s id path ->
  up_title input = Some title -> badTitle title = true ->
  exists s', updatePage id input s =
      (Err (validationError "Title must be between 1 and 255 characters"), s') /\
    getPageByPath path s' = (Ok (p <| page_path := path |>), s') /\
    (path <> page_path p -> page_paths s' !! page_path p = None).
Proof.
  intros Hok Hid Hp Hpath Hv Hfree Htitle Hbad.
  unfold updatePage, reject_if, find_or, mbind, Op_bind.
  rewrite Hid, Hp, Hpath, Htitle. unfold when_some, gets, modify, write_page.
  rewrite Hv. simpl.
  replace (match page_paths s !! path with Some o => negb (o =? id)%string | None => false end)
    with false.
  2: { destruct (page_paths s !! path) as [o|] eqn:Ho; [|done].
       rewrite (Hfree o Ho). by rewrite String.eqb_refl. }
  rewrite Hbad. eexists. split; [done|]. split.
  - eapply getPageByPath_found; [by apply isValidPath_nonempty|exact Hid| |]; unfold assign; simpl.
    + apply lookup_insert_eq.
    + rewrite (alter_insert_some _ _ _ _ Hp). apply lookup_insert_eq.
  - intros Hne. unfold assign; simpl. rewrite lookup_insert_ne by done. apply lookup_delete_eq.
Qed.

(** A page number below one makes the slice start before the listing, which is
    outside the behaviours C++ defines, as soon as anything is listed. *)
Theorem listPages_page_zero `{!StdSort} options s found :
  filterM (page_matches (opt_filter options)) (map_items (pages s)).*2 = Ok found ->
  found <> [] -> opt_page options = 0%Z -> (0 < opt_limit options <= INT_MAX)%Z ->
  listPages options s = (Undef, s).
Proof.
  intros Hf Hne Hp Hl. unfold listPages, gets, of_result, mbind, Op_bind. rewrite Hf, Hp.
  rewrite paginate_before; [done|lia|].
  rewrite sort_pages_length. destruct found; [done|simpl; lia].
Qed.

(** ** A store with one page *)

Definition demo_page (path title : string) : CreatePageInput :=
  mkCreatePage None None path title None None None 1 false None None 0 true None None.

Definition demo_pages : InMemoryStore := (createPage 5 (demo_page "/home" "Home") empty_store).2.

Lemma demo_pages_ok : pages_ok demo_pages.
Proof. apply createPage_ok, pages_ok_empty. Qed.

(** The second page of the same path is refused, and the page it would hide is found. *)
Lemma createPage_spec_witness :
  exists e, createPage 6 (demo_page "/home" "Other") demo_pages = (Err e, demo_pages) /\ code e = Conflict.
Proof.
  pose proof (createPage_spec 6 (demo_page "/home" "Other") demo_pages demo_pages_ok) as H.
  assert (exists m, createPage 6 (demo_page "/home" "Other") demo_pages = (Err (conflict m), demo_pages))
    as [m Hm] by (eexists; vm_compute; reflexivity).
  rewrite Hm in H. destruct H as [_ [[H _]|[H _]]]; [done|]. by exists (conflict m).
Defined.

Definition demo_move : UpdatePageInput :=
  mkUpdatePage None None (Some "/about") (Some "") None None None None None None None None None None None.

Lemma updatePage_partial_witness :
  exists s', (updatePage "page_00000001" demo_move demo_pages).2 = s' /\
    getPageByPath "/about" s' =
      (Ok ((new_page 5 1 (demo_page "/home" "Home")) <| page_path := "/about" |>), s') /\
    page_paths s' !! "/home" = None.
Proof.
  destruct (updatePage_partial "page_00000001" demo_move demo_pages
    (new_page 5 1 (demo_page "/home" "Home")) "/about" "") as (s' & Hu & Hg & Hn);
    [exact demo_pages_ok|reflexivity|vm_compute; reflexivity|reflexivity|reflexivity| |reflexivity
    |reflexivity|].
  { intros id' Hid. vm_compute in Hid. done. }
  exists s'. rewrite Hu. split; [done|]. split; [exact Hg|]. by apply Hn.
Defined.

Lemma listPages_page_zero_witness :
  listPages (H := insertion_StdSort) (mkListOptions ∅ ∅ 0 20) demo_pages = (Undef, demo_pages).
Proof.
  apply (listPages_page_zero (H := insertion_StdSort) _ _ [new_page 5 1 (demo_page "/home" "Home")]);
    [vm_compute; reflexivity|done|done|]. simpl. unfold INT_MAX. lia.
Defined.
