(* ===== verification/Workflows.v ===== *)
(** * Stored workflows

    Models src/entities/workflow/crud: create, get, update, delete and list on
    the [workflows] table and its [workflow_names] index. *)

From S2P Require Import Prelude CxxString CxxStd Store Validation UniqueIndex.

Open Scope string_scope.

Record CreateWorkflowInput := mkCreateWorkflow {
  cw_tenantId : option string; cw_name : string; cw_description : option string;
  cw_enabled : bool; cw_version : Z; cw_createdAt : option Timestamp;
  cw_updatedAt : option Timestamp; cw_createdBy : option string;
}.

Record UpdateWorkflowInput := mkUpdateWorkflow {
  uw_tenantId : option string; uw_name : option string; uw_description : option string;
  uw_enabled : option bool; uw_version : option Z; uw_createdAt : option Timestamp;
  uw_updatedAt : option Timestamp; uw_createdBy : option string;
}.

(** ** Operations *)

Definition new_workflow (now : Timestamp) (n : Z) (input : CreateWorkflowInput) : Workflow := {|
  wf_id := generateId "workflow" n; wf_tenantId := cw_tenantId input;
  wf_name := cw_name input; wf_description := cw_description input;
  wf_enabled := Some (cw_enabled input); wf_version := cw_version input;
  wf_createdAt := Some (default now (cw_createdAt input));
  wf_updatedAt := cw_updatedAt input; wf_createdBy := cw_createdBy input |}.

Definition createWorkflow (now : Timestamp) (input : CreateWorkflowInput) :
    Op InMemoryStore Workflow :=
  reject_if (negb (isValidWorkflowName (cw_name input)))
    (validationError "Workflow name must be 1-255 characters");;
  taken ← gets (fun s => has_key (workflow_names s) (cw_name input));
  reject_if taken (conflict ("Workflow name already exists: " +:+ cw_name input));;
  n ← incr workflow_counter (fun s n => s <| workflow_counter := n |>);
  let workflow := new_workflow now n input in
  modify (fun s => s <| workflows ::= <[wf_id workflow := workflow]> |>
                     <| workflow_names ::= <[wf_name workflow := wf_id workflow]> |>);;
  mret workflow.

Definition getWorkflow (id : string) : Op InMemoryStore Workflow :=
  reject_if (is_empty id) (validationError "Workflow ID cannot be empty");;
  find_or workflows id (notFound ("Workflow not found: " +:+ id)).

Definition write_workflow (id : string) (f : Workflow -> Workflow) : Op InMemoryStore unit :=
  modify (fun s => s <| workflows ::= alter f id |>).

Definition updateWorkflow (id : string) (input : UpdateWorkflowInput) :
    Op InMemoryStore Workflow :=
  reject_if (is_empty id) (validationError "Workflow ID cannot be empty");;
  workflow ← find_or workflows id (notFound ("Workflow not found: " +:+ id));
  let old_name := wf_name workflow in
  when_some (uw_name input) (fun name =>
    reject_if (negb (isValidWorkflowName name))
      (validationError "Workflow name must be 1-255 characters");;
    owner ← gets (fun s => workflow_names s !! name);
    reject_if (match owner with Some o => negb (String.eqb o id) | None => false end)
      (conflict ("Workflow name already exists: " +:+ name));;
    modify (fun s => s <| workflow_names ::= fun m => <[name := id]> (delete old_name m) |>
                       <| workflows ::= alter (fun w => w <| wf_name := name |>) id |>));;
  write_workflow id (fun w => w
    <| wf_description ::= keep_opt (uw_description input) |>
    <| wf_enabled ::= keep_opt (uw_enabled input) |>
    <| wf_version ::= keep (uw_version input) |>
    <| wf_createdBy ::= keep_opt (uw_createdBy input) |>
    <| wf_createdAt ::= keep_opt (uw_createdAt input) |>
    <| wf_updatedAt ::= keep_opt (uw_updatedAt input) |>
    <| wf_tenantId ::= keep_opt (uw_tenantId input) |>);;
  deref workflows id.

Definition deleteWorkflow (id : string) : Op InMemoryStore bool :=
  reject_if (is_empty id) (validationError "Workflow ID cannot be empty");;
  workflow ← find_or workflows id (notFound ("Workflow not found: " +:+ id));
  modify (fun s => s <| workflow_names ::= delete (wf_name workflow) |>
                     <| workflows ::= delete id |>);;
  mret true.

(** [workflow.enabled != filter_enabled] compares an optional with a bool. *)
Definition workflow_matches (filter : gmap string string) (w : Workflow) : bool :=
  match filter !! "enabled" with
  | Some v => bool_decide (wf_enabled w = Some (String.eqb v "true"))
  | None => true
  end &&
  match filter !! "tenantId" with
  | Some v => bool_decide (wf_tenantId w = Some v)
  | None => true
  end &&
  match filter !! "createdBy" with
  | Some v => bool_decide (wf_createdBy w = Some v)
  | None => true
  end.

Section Listing.
Context `{!StdSort}.

(** [createdAt.value_or(time_point())]: the epoch when absent. *)
Definition sort_workflows (sort : gmap string string) (l : list Workflow) : list Workflow :=
  if has_key sort "name" then std_sort (fun a b => String.ltb (wf_name a) (wf_name b)) l
  else if has_key sort "createdAt" then
    std_sort (fun a b => (default 0 (wf_createdAt a) <? default 0 (wf_createdAt b))%Z) l
  else l.

Definition listWorkflows (options : ListOptions) : Op InMemoryStore (list Workflow) :=
  all ← gets (fun s => (map_items (workflows s)).*2);
  let found := List.filter (workflow_matches (opt_filter options)) all in
  of_result (paginate (opt_page options) (opt_limit options)
               (sort_workflows (opt_sort options) found)).
End Listing.

(** ** Invariant and footprint *)

Definition workflows_ok (s : InMemoryStore) : Prop :=
  index_ok wf_name (workflows s) (workflow_names s) /\
  (0 <= workflow_counter s <= INT_MAX)%Z /\
  forall id w, workflows s !! id = Some w ->
    wf_id w = id /\ issued "workflow" (workflow_counter s) id /\
    isValidWorkflowName (wf_name w) = true.

Definition workflows_only (s s' : InMemoryStore) : Prop :=
  s' = s <| workflows := workflows s' |> <| workflow_names := workflow_names s' |>
         <| workflow_counter := workflow_counter s' |>.

#[export] Instance workflows_only_preorder : PreOrder workflows_only.
Proof.
  split.
  - intros s. by destruct s.
  - intros s1 s2 s3 H12 H23. unfold workflows_only in *. rewrite H23, H12. done.
Qed.

Lemma createWorkflow_frame now input : frame workflows_only (createWorkflow now input).
Proof. unfold createWorkflow. solve_frame. Qed.
Lemma getWorkflow_pure id : pure_op (getWorkflow id).
Proof. unfold getWorkflow. auto with dbal. Qed.
Lemma updateWorkflow_frame id input : frame workflows_only (updateWorkflow id input).
Proof. unfold updateWorkflow, write_workflow. solve_frame. Qed.
Lemma deleteWorkflow_frame id : frame workflows_only (deleteWorkflow id).
Proof. unfold deleteWorkflow. solve_frame. Qed.
Lemma listWorkflows_pure `{!StdSort} options : pure_op (listWorkflows options).
Proof. unfold listWorkflows. auto with dbal. Qed.
#[export] Hint Resolve createWorkflow_frame getWorkflow_pure updateWorkflow_frame
  deleteWorkflow_frame listWorkflows_pure : dbal.

Definition workflow_at (id : string) (s : InMemoryStore) : Prop :=
  workflows_ok s /\ is_Some (workflows s !! id).

Lemma write_workflow_at id f E :
  (forall w, wf_id (f w) = wf_id w /\ wf_name (f w) = wf_name w) ->
  triple (workflow_at id) (write_workflow id f) (fun _ => workflow_at id) E.
Proof.
  intros Hf. apply triple_modify. intros s [(Hidx & Hc & Hall) [w Hw]].
  destruct (Hf w) as (Hid & Hname). unfold assign. simpl.
  rewrite (alter_insert_some _ _ _ _ Hw).
  split; [split; [|split; [done|]]|]; simpl.
  - by eapply index_ok_same.
  - intros id' q [[<- <-]|[Hne Hq]]%lookup_insert_Some; [|by apply Hall].
    destruct (Hall _ _ Hw) as (? & ? & ?). by rewrite Hid, Hname.
  - rewrite lookup_insert_eq. eauto.
Qed.

Lemma rename_workflow_at s id w name :
  workflows_ok s -> workflows s !! id = Some w -> isValidWorkflowName name = true ->
  match workflow_names s !! name with Some o => negb (String.eqb o id) | None => false end
    = false ->
  workflow_at id (s <| workflow_names ::= fun m => <[name := id]> (delete (wf_name w) m) |>
                    <| workflows ::= alter (fun w => w <| wf_name := name |>) id |>).
Proof.
  intros (Hidx & Hc & Hall) Hw Hv Hown. unfold assign. simpl.
  rewrite (alter_insert_some _ _ _ _ Hw).
  split; [split; [|split; [done|]]|]; simpl.
  - eapply index_ok_rekey; [done..|]. intros id' Hid'. rewrite Hid' in Hown. by boolify.
  - intros id' q [[<- <-]|[Hne Hq]]%lookup_insert_Some; [|by apply Hall].
    destruct (Hall _ _ Hw) as (? & ? & ?). by repeat split.
  - rewrite lookup_insert_eq. eauto.
Qed.

Lemma updateWorkflow_ok id input : preserves workflows_ok (updateWorkflow id input).
Proof.
  apply triple_preserves. unfold updateWorkflow.
  apply triple_reject_then; [done|intros _]. apply triple_find_then; [done|intros w].
  apply (triple_when_then _ _ _ (workflow_at id)); [by intros _ s []; split; eauto| |].
  { intros name _. apply triple_reject_then; [tauto|intros Hv%negb_false_iff].
    apply triple_gets_then; intros owner. apply triple_reject_then; [tauto|intros Hown].
    apply triple_modify. intros s [[Hok Hw] Ho]. subst. by apply rename_workflow_at. }
  eapply triple_seq; [by apply write_workflow_at|].
  apply triple_deref. intros s [Hok [w' Hw]]. eauto.
Qed.

Lemma createWorkflow_ok now input : preserves workflows_ok (createWorkflow now input).
Proof.
  apply triple_preserves. unfold createWorkflow.
  apply triple_reject_then; [done|intros Hv%negb_false_iff].
  apply triple_gets_then; intros taken. apply triple_reject_then; [tauto|intros ->].
  apply triple_incr_then; [by intros s []|intros n].
  eapply triple_modify_then; [|by apply triple_ret].
  intros s (s0 & ((Hidx & Hc & Hall) & Hfree%has_key_false) & Hlt & -> & ->).
  unfold assign in *; simpl in *.
  assert (workflows s0 !! generateId "workflow" (workflow_counter s0 + 1) = None) as Hnew.
  { apply eq_None_not_Some. intros [w Hw]. apply Hall in Hw as (_ & Hi & _).
    revert Hi. apply issued_fresh; simpl; lia. }
  split; [|split]; simpl.
  - by apply index_ok_insert.
  - lia.
  - intros id w [[<- <-]|[_ Hw]]%lookup_insert_Some.
    + split; [done|]. split; [apply issued_next; lia|done].
    + destruct (Hall _ _ Hw) as (? & ? & ?). split; [done|]. split; [|done].
      eapply issued_mono; [|done]. lia.
Qed.

Lemma deleteWorkflow_ok id : preserves workflows_ok (deleteWorkflow id).
Proof.
  apply triple_preserves. unfold deleteWorkflow.
  apply triple_reject_then; [done|intros _]. apply triple_find_then; [done|intros w].
  eapply triple_modify_then; [|by apply triple_ret].
  intros s [(Hidx & Hc & Hall) Hw]. split; [|split; [done|]]; simpl.
  - by eapply index_ok_delete.
  - intros id' w' [_ Hw']%lookup_delete_Some. by apply Hall.
Qed.

Lemma workflows_ok_empty : workflows_ok empty_store.
Proof.
  split; [apply index_ok_empty|]. split; [simpl; unfold INT_MAX; lia|].
  intros id w Hw. change (workflows empty_store) with (∅ : gmap string Workflow) in Hw.
  by rewrite lookup_empty in Hw.
Qed.

(** ** Listing *)

Section ListingSpec.
Context `{!StdSort}.

Definition matching_workflows (options : ListOptions) (s : InMemoryStore) : list Workflow :=
  List.filter (workflow_matches (opt_filter options)) (map_items (workflows s)).*2.

Lemma sort_workflows_perm sort l : sort_workflows sort l ≡ₚ l.
Proof.
  unfold sort_workflows. destruct (has_key sort "name"); [apply std_sort_perm|].
  destruct (has_key sort "createdAt"); [apply std_sort_perm|done].
Qed.

Lemma sort_workflows_name sort l :
  has_key sort "name" = true ->
  StronglySorted (fun a b => String.le (wf_name a) (wf_name b)) (sort_workflows sort l).
Proof.
  intros Hs. unfold sort_workflows. rewrite Hs.
  eapply StronglySorted_impl; [|apply std_sort_sorted, (strict_weak_string wf_name)].
  intros a b. apply ltb_false.
Qed.

Lemma sort_workflows_created sort l :
  has_key sort "name" = false -> has_key sort "createdAt" = true ->
  StronglySorted (fun a b => default 0 (wf_createdAt a) <= default 0 (wf_createdAt b))%Z
    (sort_workflows sort l).
Proof.
  intros Hn Hs. unfold sort_workflows. rewrite Hn, Hs.
  eapply StronglySorted_impl;
    [|apply std_sort_sorted, (strict_weak_Z (fun w => default 0%Z (wf_createdAt w)))].
  intros a b Hab. by apply Z.ltb_ge in Hab.
Qed.

(** For a page size that does not overflow, the pages [1 .. n] of a listing,
    read one after the other, show the first [n * limit] workflows of one
    fixed arrangement of the matching ones, ordered by the requested key;
    once [n * limit] reaches their number that is every match exactly once. *)
Theorem listWorkflows_pages options s n :
  (0 <= opt_limit options)%Z -> (Z.of_nat n * opt_limit options <= INT_MAX)%Z ->
  (Z.of_nat n <= INT_MAX)%Z ->
  exists sorted,
    sorted ≡ₚ matching_workflows options s /\
    (has_key (opt_sort options) "name" = true ->
      StronglySorted (fun a b => String.le (wf_name a) (wf_name b)) sorted) /\
    (has_key (opt_sort options) "name" = false ->
      has_key (opt_sort options) "createdAt" = true ->
      StronglySorted
        (fun a b => default 0 (wf_createdAt a) <= default 0 (wf_createdAt b))%Z sorted) /\
    exists slices,
      mapM (fun i => match listWorkflows (at_page options (Z.of_nat i)) s with
                     | (Ok l, _) => Some l | _ => None end) (seq 1 n) = Some slices /\
      concat slices = take (n * Z.to_nat (opt_limit options)) sorted.
Proof.
  intros Hl Hmax Hn. set (sorted := sort_workflows (opt_sort options) (matching_workflows options s)).
  exists sorted. split; [apply sort_workflows_perm|]. split; [apply sort_workflows_name|].
  split; [apply sort_workflows_created|]. apply paginate_pages; [|done].
  intros i Hi. unfold listWorkflows, gets, of_result, mbind, Op_bind. simpl.
  unfold at_page. simpl. fold (matching_workflows options s). fold sorted.
  rewrite paginate_ok; [done|lia|done|nia|lia].
Qed.
End ListingSpec.

(** ** A store with two workflows *)

Definition demo_workflow (name : string) : CreateWorkflowInput :=
  mkCreateWorkflow None name None true 1 None None None.
Definition demo_workflows : InMemoryStore :=
  (createWorkflow 2 (demo_workflow "b") (createWorkflow 1 (demo_workflow "a") empty_store).2).2.

Definition by_name : ListOptions := mkListOptions ∅ {["name" := "asc"]} 1 1.

Lemma listWorkflows_pages_witness :
  exists slices sorted,
    mapM (fun i => match listWorkflows (H := insertion_StdSort) (at_page by_name (Z.of_nat i)) demo_workflows with
      | (Ok l, _) => Some l | _ => None end) (seq 1 2) = Some slices /\
    concat slices = take (2 * Z.to_nat (opt_limit by_name)) sorted /\
    sorted ≡ₚ matching_workflows by_name demo_workflows.
Proof.
  assert (0 <= opt_limit by_name /\ Z.of_nat 2 * opt_limit by_name <= INT_MAX /\ Z.of_nat 2 <= INT_MAX)%Z
    as (H1 & H2 & H3) by (vm_compute; split_and!; discriminate).
  destruct (listWorkflows_pages (H := insertion_StdSort) by_name demo_workflows 2 H1 H2 H3)
    as (sorted & Hp & _ & _ & slices & Hs & Hc).
  exists slices, sorted. split; [exact Hs|]. split; [exact Hc|exact Hp].
Defined.
