(* ===== verification/Sessions.v ===== *)
(** * Sessions and the first-login flag

    Models src/entities/session/crud (create, get, get by token, update, delete,
    list, and lifecycle/clean_expired.hpp) on the [sessions] table and its
    [session_tokens] index, and src/entities/credential/crud/first_login_flag.hpp
    on the [users] table.  The clock read of a call is its argument [now]. *)

From S2P Require Import Prelude CxxString CxxStd Store UniqueIndex.

Open Scope string_scope.

Record CreateSessionInput := mkCreateSession {
  cs_userId : string; cs_token : string; cs_expiresAt : Timestamp;
  cs_createdAt : option Timestamp; cs_lastActivity : option Timestamp;
  cs_ipAddress : option string; cs_userAgent : option string;
}.

Record UpdateSessionInput := mkUpdateSession {
  us_userId : option string; us_token : option string; us_expiresAt : option Timestamp;
  us_lastActivity : option Timestamp; us_ipAddress : option string;
  us_userAgent : option string;
}.

(** ** Operations *)

Definition new_session (now : Timestamp) (n : Z) (input : CreateSessionInput) : Session :=
  let createdAt := Some (default now (cs_createdAt input)) in {|
  ses_id := generateId "session" n; ses_userId := cs_userId input;
  ses_token := cs_token input; ses_expiresAt := cs_expiresAt input;
  ses_createdAt := createdAt;
  ses_lastActivity := keep_opt (cs_lastActivity input) createdAt;
  ses_ipAddress := cs_ipAddress input; ses_userAgent := cs_userAgent input |}.

Definition createSession (now : Timestamp) (input : CreateSessionInput) :
    Op InMemoryStore Session :=
  reject_if (is_empty (cs_userId input)) (validationError "userId is required");;
  reject_if (is_empty (cs_token input)) (validationError "token is required");;
  known ← gets (fun s => has_key (users s) (cs_userId input));
  reject_if (negb known) (validationError ("User not found: " +:+ cs_userId input));;
  taken ← gets (fun s => has_key (session_tokens s) (cs_token input));
  reject_if taken (conflict ("Session token already exists: " +:+ cs_token input));;
  n ← incr session_counter (fun s n => s <| session_counter := n |>);
  let session := new_session now n input in
  modify (fun s => s <| sessions ::= <[ses_id session := session]> |>
                     <| session_tokens ::= <[ses_token session := ses_id session]> |>);;
  mret session.

(** Both erasures behind an iterator to session [x] at [id]. *)
Definition erase_session (id : string) (x : Session) : InMemoryStore -> InMemoryStore :=
  fun s => s <| session_tokens ::= delete (ses_token x) |> <| sessions ::= delete id |>.

Definition expired (now : Timestamp) (x : Session) : bool := (ses_expiresAt x <=? now)%Z.

Definition getSession (now : Timestamp) (id : string) : Op InMemoryStore Session :=
  reject_if (is_empty id) (validationError "Session ID cannot be empty");;
  x ← find_or sessions id (notFound ("Session not found: " +:+ id));
  if expired now x then
    modify (erase_session id x);; fail (notFound ("Session expired: " +:+ id))
  else mret x.

Definition getSessionByToken (now : Timestamp) (token : string) : Op InMemoryStore Session :=
  reject_if (is_empty token) (validationError "Token cannot be empty");;
  id ← find_or session_tokens token (notFound "Session not found for token");
  getSession now id.

Definition write_session (id : string) (f : Session -> Session) : Op InMemoryStore unit :=
  modify (fun s => s <| sessions ::= alter f id |>).

Definition updateSession (id : string) (input : UpdateSessionInput) :
    Op InMemoryStore Session :=
  reject_if (is_empty id) (validationError "Session ID cannot be empty");;
  session ← find_or sessions id (notFound ("Session not found: " +:+ id));
  when_some (us_userId input) (fun userId =>
    reject_if (is_empty userId) (validationError "userId is required");;
    known ← gets (fun s => has_key (users s) userId);
    reject_if (negb known) (validationError ("User not found: " +:+ userId));;
    write_session id (fun x => x <| ses_userId := userId |>));;
  when_some (us_token input) (fun token =>
    reject_if (is_empty token) (validationError "token is required");;
    owner ← gets (fun s => session_tokens s !! token);
    reject_if (match owner with Some o => negb (String.eqb o id) | None => false end)
      (conflict ("Session token already exists: " +:+ token));;
    modify (fun s => s <| session_tokens ::= fun m => <[token := id]> (delete (ses_token session) m) |>
                       <| sessions ::= alter (fun x => x <| ses_token := token |>) id |>));;
  write_session id (fun x => x
    <| ses_expiresAt ::= keep (us_expiresAt input) |>
    <| ses_lastActivity ::= keep_opt (us_lastActivity input) |>
    <| ses_ipAddress ::= keep_opt (us_ipAddress input) |>
    <| ses_userAgent ::= keep_opt (us_userAgent input) |>);;
  deref sessions id.

Definition deleteSession (id : string) : Op InMemoryStore bool :=
  reject_if (is_empty id) (validationError "Session ID cannot be empty");;
  x ← find_or sessions id (notFound ("Session not found: " +:+ id));
  modify (erase_session id x);;
  mret true.

Definition cleanExpired (now : Timestamp) : Op InMemoryStore Z :=
  expired_ids ← gets (fun s =>
    (List.filter (fun e => expired now e.2) (map_items (sessions s))).*1);
  forM expired_ids (fun id =>
    modify (fun s => match sessions s !! id with
                     | Some x => erase_session id x s
                     | None => s
                     end));;
  mret (Z.of_nat (length expired_ids)).

Definition session_matches (filter : gmap string string) (x : Session) : bool :=
  match filter !! "userId" with
  | Some v => String.eqb (ses_userId x) v
  | None => true
  end &&
  match filter !! "token" with
  | Some v => String.eqb (ses_token x) v
  | None => true
  end.

Section Listing.
Context `{!StdSort}.

Definition sort_sessions (sort : gmap string string) (l : list Session) : list Session :=
  if has_key sort "createdAt" then
    std_sort (fun a b => opt_lt (ses_createdAt a) (ses_createdAt b)) l
  else if has_key sort "expiresAt" then
    std_sort (fun a b => (ses_expiresAt a <? ses_expiresAt b)%Z) l
  else l.

Lemma sort_sessions_perm sort l : sort_sessions sort l ≡ₚ l.
Proof.
  unfold sort_sessions. destruct (has_key sort "createdAt"); [apply std_sort_perm|].
  destruct (has_key sort "expiresAt"); [apply std_sort_perm|done].
Qed.

Definition listSessions (now : Timestamp) (options : ListOptions) :
    Op InMemoryStore (list Session) :=
  cleanExpired now;;
  all ← gets (fun s => (map_items (sessions s)).*2);
  let found := List.filter (session_matches (opt_filter options)) all in
  of_result (paginate (opt_page options) (opt_limit options)
               (sort_sessions (opt_sort options) found)).
End Listing.

(** ** The first-login flag of a user (first_login_flag.hpp)

    The loop visits the users in key order and stops at the first one with the
    user name. *)

Definition first_user (s : InMemoryStore) (username : string) : option (string * User) :=
  find (fun e => String.eqb (user_username e.2) username) (map_items (users s)).

Definition setFirstLogin (username : string) (flag : bool) : Op InMemoryStore bool :=
  reject_if (is_empty username) (validationError "username is required");;
  found ← gets (fun s => first_user s username);
  match found with
  | Some (id, _) =>
      modify (fun s => s <| users ::= alter (fun u => u <| user_firstLogin := Some flag |>) id |>);;
      mret true
  | None => fail (notFound ("User not found: " +:+ username))
  end.

Definition getFirstLogin (username : string) : Op InMemoryStore bool :=
  reject_if (is_empty username) (validationError "username is required");;
  found ← gets (fun s => first_user s username);
  match found with
  | Some (_, u) => mret (default false (user_firstLogin u))
  | None => fail (notFound ("User not found: " +:+ username))
  end.

(** ** Invariant and footprint *)

Definition sessions_ok (s : InMemoryStore) : Prop :=
  index_ok ses_token (sessions s) (session_tokens s) /\
  (0 <= session_counter s <= INT_MAX)%Z /\
  forall id x, sessions s !! id = Some x ->
    ses_id x = id /\ issued "session" (session_counter s) id /\
    ses_token x <> "" /\ is_Some (users s !! ses_userId x).

Definition sessions_only (s s' : InMemoryStore) : Prop :=
  s' = s <| sessions := sessions s' |> <| session_tokens := session_tokens s' |>
         <| session_counter := session_counter s' |>.

#[export] Instance sessions_only_preorder : PreOrder sessions_only.
Proof.
  split.
  - intros s. by destruct s.
  - intros s1 s2 s3 H12 H23. unfold sessions_only in *. rewrite H23, H12. done.
Qed.

Definition users_only (s s' : InMemoryStore) : Prop := s' = s <| users := users s' |>.

#[export] Instance users_only_preorder : PreOrder users_only.
Proof.
  split.
  - intros s. by destruct s.
  - intros s1 s2 s3 H12 H23. unfold users_only in *. rewrite H23, H12. done.
Qed.

Lemma createSession_frame now input : frame sessions_only (createSession now input).
Proof. unfold createSession. solve_frame. Qed.
Lemma getSession_frame now id : frame sessions_only (getSession now id).
Proof.
  unfold getSession. solve_frame. destruct (expired now a0); solve_frame.
Qed.
#[export] Hint Resolve getSession_frame : dbal.
Lemma getSessionByToken_frame now token : frame sessions_only (getSessionByToken now token).
Proof. unfold getSessionByToken. solve_frame. Qed.
Lemma updateSession_frame id input : frame sessions_only (updateSession id input).
Proof. unfold updateSession, write_session. solve_frame. Qed.
Lemma deleteSession_frame id : frame sessions_only (deleteSession id).
Proof. unfold deleteSession. solve_frame. Qed.
Lemma cleanExpired_frame now : frame sessions_only (cleanExpired now).
Proof.
  unfold cleanExpired. apply frame_bind; [typeclasses eauto|solve_frame|intros ids].
  apply frame_bind; [typeclasses eauto| |intros _; solve_frame].
  apply frame_forM; [typeclasses eauto|]. intros id s. unfold modify. simpl.
  destruct (sessions s !! id); [red; reflexivity|by destruct s].
Qed.
#[export] Hint Resolve cleanExpired_frame : dbal.
Lemma listSessions_frame `{!StdSort} now options : frame sessions_only (listSessions now options).
Proof. unfold listSessions. solve_frame. Qed.
Lemma setFirstLogin_frame username flag : frame users_only (setFirstLogin username flag).
Proof. unfold setFirstLogin. solve_frame. destruct a0 as [[id u]|]; solve_frame. Qed.
Lemma getFirstLogin_pure username : pure_op (getFirstLogin username).
Proof. unfold getFirstLogin. intros s. simpl. unfold mbind, Op_bind, reject_if, gets.
  destruct (is_empty username); [done|]. by destruct (first_user s username) as [[]|]. Qed.
#[export] Hint Resolve createSession_frame getSessionByToken_frame updateSession_frame
  deleteSession_frame listSessions_frame setFirstLogin_frame getFirstLogin_pure : dbal.

(** ** The invariant is kept *)

Lemma erase_session_ok s id x :
  sessions_ok s -> sessions s !! id = Some x -> sessions_ok (erase_session id x s).
Proof.
  intros (Hidx & Hc & Hall) Hx. split; [|split; [done|]]; simpl.
  - by eapply index_ok_delete.
  - intros id' y [_ Hy]%lookup_delete_Some. by apply Hall.
Qed.

Definition session_at (id : string) (token : string) (s : InMemoryStore) : Prop :=
  sessions_ok s /\ exists x, sessions s !! id = Some x /\ ses_token x = token.

Lemma write_session_at id token f (P : InMemoryStore -> Prop) E :
  (forall s, P s -> session_at id token s /\ forall x, sessions s !! id = Some x ->
     ses_id (f x) = ses_id x /\ ses_token (f x) = ses_token x /\
     is_Some (users s !! ses_userId (f x))) ->
  triple P (write_session id f) (fun _ => session_at id token) E.
Proof.
  intros Hf. apply triple_modify.
  intros s [[(Hidx & Hc & Hall) (x & Hx & Htok)] Hfx]%Hf.
  destruct (Hfx x Hx) as (Hid & Ht & Hu). unfold assign. simpl.
  rewrite (alter_insert_some _ _ _ _ Hx).
  split; [split; [|split; [done|]]|]; simpl.
  - by eapply index_ok_same.
  - intros id' q [[<- <-]|[Hne Hq]]%lookup_insert_Some; [|by apply Hall].
    destruct (Hall _ _ Hx) as (? & ? & ? & ?). by rewrite Hid, Ht.
  - rewrite lookup_insert_eq. eexists. split; [done|congruence].
Qed.

Lemma retoken_session_at s id token token' :
  session_at id token s -> is_empty token' = false ->
  match session_tokens s !! token' with Some o => negb (String.eqb o id) | None => false end
    = false ->
  session_at id token'
    (s <| session_tokens ::= fun m => <[token' := id]> (delete token m) |>
       <| sessions ::= alter (fun x => x <| ses_token := token' |>) id |>).
Proof.
  intros [(Hidx & Hc & Hall) (x & Hx & Htok)] Hv%is_empty_false Hown. unfold assign. simpl.
  rewrite (alter_insert_some _ _ _ _ Hx).
  split; [split; [|split; [done|]]|]; simpl.
  - eapply index_ok_rekey; [done..|]. intros id' Hid'. rewrite Hid' in Hown. by boolify.
  - intros id' q [[<- <-]|[Hne Hq]]%lookup_insert_Some; [|by apply Hall].
    destruct (Hall _ _ Hx) as (? & ? & ? & ?). by repeat split.
  - rewrite lookup_insert_eq. by eexists.
Qed.

Lemma updateSession_ok id input : preserves sessions_ok (updateSession id input).
Proof.
  apply triple_preserves. unfold updateSession.
  apply triple_reject_then; [done|intros _]. apply triple_find_then; [done|intros x].
  assert (forall t s, session_at id t s -> sessions_ok s) as Hat by (by intros t s []).
  apply (triple_weaken _ (session_at id (ses_token x))); [|by intros s []; split; eauto].
  apply (triple_when_then _ _ _ (session_at id (ses_token x))); [done| |].
  { intros userId _. apply triple_reject_then; [by eauto|intros _].
    apply triple_gets_then; intros known.
    apply triple_reject_then; [by intros s []; eauto|intros ->%negb_false_iff].
    apply write_session_at. intros s [Hs Hk%has_key_true]. split; [done|]. by intros. }
  eapply (triple_when_then _ _ _ (fun s => exists t, session_at id t s)); [by eauto| |].
  { intros token _. apply triple_reject_then; [by eauto|intros Hv].
    apply triple_gets_then; intros owner.
    apply triple_reject_then; [by intros s []; eauto|intros Hown].
    apply triple_modify. intros s [Hs Ho]. subst. exists token. by apply retoken_session_at. }
  apply triple_exists; intros t. eapply (triple_seq _ _ (session_at id t)).
  - apply write_session_at. intros s Hs. split; [done|]. intros y Hy.
    destruct Hs as [(_ & _ & Hall) _]. by destruct (Hall _ _ Hy) as (_ & _ & _ & ?).
  - apply triple_deref. intros s [Hok (y & Hy & _)]. eauto.
Qed.

Lemma createSession_ok now input : preserves sessions_ok (createSession now input).
Proof.
  apply triple_preserves. unfold createSession.
  apply triple_reject_then; [done|intros _].
  apply triple_reject_then; [done|intros Ht%is_empty_false].
  apply triple_gets_then; intros known.
  apply triple_reject_then; [by intros s []|intros ->%negb_false_iff].
  apply triple_gets_then; intros taken.
  apply triple_reject_then; [by intros s [[]]|intros ->].
  apply triple_incr_then; [by intros s [[]]|intros n].
  eapply triple_modify_then; [|by apply triple_ret].
  intros s (s0 & (((Hidx & Hc & Hall) & Hk%has_key_true) & Hfree%has_key_false) & Hlt & -> & ->).
  unfold assign in *; simpl in *.
  assert (sessions s0 !! generateId "session" (session_counter s0 + 1) = None) as Hnew.
  { apply eq_None_not_Some. intros [w Hw]. apply Hall in Hw as (_ & Hi & _).
    revert Hi. apply issued_fresh; simpl; lia. }
  split; [|split]; simpl.
  - by apply index_ok_insert.
  - lia.
  - intros id w [[<- <-]|[_ Hw]]%lookup_insert_Some.
    + split; [done|]. split; [apply issued_next; lia|done].
    + destruct (Hall _ _ Hw) as (? & ? & ?). split; [done|]. split; [|done].
      eapply issued_mono; [|done]. lia.
Qed.

Lemma deleteSession_ok id : preserves sessions_ok (deleteSession id).
Proof.
  apply triple_preserves. unfold deleteSession.
  apply triple_reject_then; [done|intros _]. apply triple_find_then; [done|intros x].
  eapply triple_modify_then; [|by apply triple_ret].
  intros s [Hok Hx]. by apply erase_session_ok.
Qed.

Lemma getSession_ok now id : preserves sessions_ok (getSession now id).
Proof.
  apply triple_preserves. unfold getSession.
  apply triple_reject_then; [done|intros _]. apply triple_find_then; [done|intros x].
  destruct (expired now x).
  - eapply (triple_modify_then _ _ sessions_ok); [|by apply triple_pure, pure_fail].
    intros s [Hok Hx]. by apply erase_session_ok.
  - apply triple_ret. by intros s [].
Qed.

Lemma getSessionByToken_ok now token : preserves sessions_ok (getSessionByToken now token).
Proof.
  unfold getSessionByToken. eauto using getSession_ok with dbal.
Qed.

Lemma cleanExpired_ok now : preserves sessions_ok (cleanExpired now).
Proof.
  unfold cleanExpired. apply preserves_bind; [eauto with dbal|intros ids].
  apply preserves_bind; [|intros _; eauto with dbal].
  apply preserves_forM. intros id. apply preserves_modify. intros s Hok.
  destruct (sessions s !! id) eqn:Hx; [by apply erase_session_ok|done].
Qed.

Lemma listSessions_ok `{!StdSort} now options : preserves sessions_ok (listSessions now options).
Proof.
  unfold listSessions. apply preserves_bind; [apply cleanExpired_ok|]. eauto with dbal.
Qed.

Lemma sessions_ok_empty : sessions_ok empty_store.
Proof.
  split; [apply index_ok_empty|]. split; [simpl; unfold INT_MAX; lia|].
  intros id w Hw. change (sessions empty_store) with (∅ : gmap string Session) in Hw.
  by rewrite lookup_empty in Hw.
Qed.

Lemma setFirstLogin_sessions_ok username flag : preserves sessions_ok (setFirstLogin username flag).
Proof.
  unfold setFirstLogin. apply preserves_bind; [eauto with dbal|intros _].
  apply preserves_bind; [eauto with dbal|intros [[id u]|]]; [|eauto with dbal].
  apply preserves_bind; [|eauto with dbal]. apply preserves_modify.
  intros s (Hidx & Hc & Hall). split; [done|]. split; [done|]. simpl.
  intros id' x Hx. destruct (Hall _ _ Hx) as (? & ? & ? & Hu). split_and!; try done.
  rewrite lookup_alter. case_decide; [subst; by apply fmap_is_Some|done].
Qed.

(** ** Functional behaviour *)

(** What a sweep leaves: the sessions that have not expired, nothing else
    changed. *)
Definition swept (now : Timestamp) (s : InMemoryStore) : gmap string Session :=
  base.filter (fun e => expired now e.2 = false) (sessions s).

Lemma sweep_loop ids s :
  sessions_ok s ->
  exists s', forM ids (fun id =>
    modify (fun s => match sessions s !! id with
                     | Some x => erase_session id x s | None => s end)) s = (Ok tt, s') /\
    sessions_ok s' /\
    forall k, sessions s' !! k = if decide (k ∈ ids) then None else sessions s !! k.
Proof.
  revert s; induction ids as [|id ids IH]; intros s Hok.
  { exists s. split; [done|]. split; [done|]. intros k. by rewrite decide_False by set_solver. }
  cbn [forM]. unfold mbind, Op_bind, modify at 1.
  set (s1 := match sessions s !! id with Some x => erase_session id x s | None => s end).
  assert (sessions_ok s1 /\ forall k, sessions s1 !! k = if decide (k = id) then None else sessions s !! k)
    as [Hok1 Hs1].
  { unfold s1. destruct (sessions s !! id) as [x|] eqn:Hx.
    - split; [by apply erase_session_ok|]. intros k. simpl.
      rewrite lookup_delete. repeat case_decide; congruence.
    - split; [done|]. intros k. case_decide; congruence. }
  destruct (IH s1 Hok1) as (s' & -> & Hok' & Hs'). exists s'. split; [done|]. split; [done|].
  intros k. rewrite Hs', Hs1.
  destruct (decide (k ∈ ids)), (decide (k = id)); try (rewrite decide_True by (rewrite elem_of_cons; tauto); done).
  by rewrite decide_False by (rewrite elem_of_cons; tauto).
Qed.

Lemma elem_of_expired_ids now s id :
  id ∈ (List.filter (fun e => expired now e.2) (map_items (sessions s))).*1 <->
  exists x, sessions s !! id = Some x /\ expired now x = true.
Proof.
  rewrite list_elem_of_fmap. split.
  - intros ([k x] & -> & Hin). apply list_elem_of_In, filter_In in Hin as [Hin Hx].
    apply list_elem_of_In, elem_of_map_items in Hin. eauto.
  - intros (x & Hx & He). exists (id, x). split; [done|].
    apply list_elem_of_In, filter_In. split; [|done]. by apply list_elem_of_In, elem_of_map_items.
Qed.

Lemma cleanExpired_run now s :
  sessions_ok s ->
  exists s', cleanExpired now s =
      (Ok (Z.of_nat (length (List.filter (fun e => expired now e.2) (map_items (sessions s))))), s') /\
    sessions_ok s' /\ sessions_only s s' /\ sessions s' = swept now s.
Proof.
  intros Hok. pose proof (cleanExpired_frame now s) as Hfr. revert Hfr.
  unfold cleanExpired at 1 2, gets, mbind, Op_bind.
  destruct (sweep_loop (List.filter (fun e => expired now e.2) (map_items (sessions s))).*1 s Hok)
    as (s' & -> & Hok' & Hs').
  simpl. intros Hfr. exists s'. split; [by rewrite length_fmap|]. split; [done|]. split; [done|].
  apply map_eq. intros k. rewrite Hs'. unfold swept. apply option_eq. intros x.
  rewrite map_lookup_filter_Some. simpl. case_decide as Hk.
  - apply elem_of_expired_ids in Hk as (y & Hy & He). split; [done|]. intros [Hx Hnx]. congruence.
  - split; [|by intros [? _]]. intros Hx. split; [done|].
    apply not_true_iff_false. intros He. apply Hk, elem_of_expired_ids. eauto.
Qed.

(** A sweep removes exactly the expired sessions, together with their tokens,
    reports how many they were, and touches nothing else. *)
Theorem cleanExpired_spec now s :
  sessions_ok s ->
  exists s', cleanExpired now s =
      (Ok (Z.of_nat (base.size (sessions s) - base.size (sessions s'))), s') /\
    sessions s' = swept now s /\
    (forall token id, session_tokens s' !! token = Some id <->
       exists x, sessions s !! id = Some x /\ ses_token x = token /\ (now < ses_expiresAt x)%Z) /\
    users s' = users s /\ pages s' = pages s /\ workflows s' = workflows s /\
    packages s' = packages s /\ components s' = components s.
Proof.
  intros Hok. destruct (cleanExpired_run now s Hok) as (s' & Hrun & Hok' & Hfr & Hs').
  exists s'. split; [|split; [done|split]].
  - rewrite Hrun. do 3 f_equal. rewrite Hs'. unfold swept.
    pose proof (filter_items_count (fun e => expired now e.2) (sessions s)). simpl in *. lia.
  - intros token id. rewrite (proj1 Hok' token id), Hs'. unfold swept. split.
    + intros (x & Hx & Ht). apply map_lookup_filter_Some in Hx as [Hx He]. exists x.
      split; [done|]. split; [done|]. by apply Z.leb_gt in He.
    + intros (x & Hx & Ht & He). exists x. split; [|done]. apply map_lookup_filter_Some.
      split; [done|]. by apply Z.leb_gt.
  - unfold sessions_only in Hfr. rewrite Hfr. by split_and!.
Qed.

Lemma getSession_cases now id s :
  getSession now id s =
    if is_empty id then (Err (validationError "Session ID cannot be empty"), s)
    else match sessions s !! id with
    | None => (Err (notFound ("Session not found: " +:+ id)), s)
    | Some x => if expired now x
                then (Err (notFound ("Session expired: " +:+ id)), erase_session id x s)
                else (Ok x, s)
    end.
Proof.
  unfold getSession, reject_if, find_or, mbind, Op_bind.
  destruct (is_empty id); [done|]. destruct (sessions s !! id) as [x|]; [|done].
  by destruct (expired now x).
Qed.

(** Looking a session up by token is sound as an authentication check: what it
    answers carries that token, has not expired and belongs to a stored user;
    "not found" means that no live session carries the token, and then the token
    of a session found expired is dropped while every live session is kept. *)
Theorem getSessionByToken_sound now token s :
  sessions_ok s ->
  match getSessionByToken now token s with
  | (Ok x, s') =>
      s' = s /\ ses_token x = token /\ (now < ses_expiresAt x)%Z /\
      is_Some (users s !! ses_userId x)
  | (Err e, s') =>
      (code e = ValidationError /\ token = "" /\ s' = s) \/
      (code e = NotFound /\ session_tokens s' !! token = None /\
       forall id x, sessions s !! id = Some x -> (now < ses_expiresAt x)%Z ->
         ses_token x <> token /\ sessions s' !! id = Some x)
  | _ => False
  end.
Proof.
  intros (Hidx & Hc & Hall). unfold getSessionByToken, reject_if, find_or, mbind, Op_bind.
  destruct (is_empty token) eqn:Ht; [left; by apply is_empty_true in Ht|].
  destruct (session_tokens s !! token) as [id|] eqn:Hi.
  2: { right. split; [done|]. split; [by rewrite Hi|]. intros id x Hx _. split; [|done].
       intros Hk. rewrite (proj2 (Hidx token id)) in Hi; [done|eauto]. }
  assert (Hi' := Hi). apply Hidx in Hi as (x & Hx & Hk). destruct (Hall _ _ Hx) as (Hid & Hiss & _ & Hu).
  rewrite getSession_cases, Hx.
  assert (is_empty id = false) as ->.
  { destruct Hiss as (n & _ & ->). by apply is_empty_false, generateId_nonempty. }
  destruct (expired now x) eqn:He; simpl; unfold expired in He; boolify; [|done].
  right. split; [done|]. subst token. split; [apply lookup_delete_eq|].
  intros id' y Hy Hlive. assert (id <> id') as Hne.
  { intros <-. rewrite Hx in Hy. injection Hy as ->. lia. }
  split; [|by rewrite lookup_delete_ne].
  intros Hk. rewrite (proj2 (Hidx _ id')) in Hi' by eauto. congruence.
Qed.

(** A listing sweeps first: whatever it returns is stored, matches the filter
    and has not expired. *)
Theorem listSessions_live `{!StdSort} now options s l s' :
  sessions_ok s -> listSessions now options s = (Ok l, s') ->
  Forall (fun x => (now < ses_expiresAt x)%Z /\ session_matches (opt_filter options) x = true /\
                   exists id, sessions s !! id = Some x) l.
Proof.
  intros Hok. unfold listSessions. unfold mbind at 1, Op_bind at 1.
  destruct (cleanExpired_run now s Hok) as (s1 & -> & Hok1 & _ & Hs1).
  unfold gets, of_result, mbind, Op_bind. intros [= Hl ->].
  apply Forall_forall. intros x Hx. pose proof (paginate_subset _ _ _ _ Hl x Hx) as Hsub. rewrite sort_sessions_perm in Hsub.
  apply list_elem_of_In, filter_In in Hsub as [Hin Hm].
  apply list_elem_of_In, list_elem_of_fmap in Hin as ([id y] & -> & Hin).
  apply elem_of_map_items in Hin. rewrite Hs1 in Hin.
  apply map_lookup_filter_Some in Hin as [Hy He]. simpl in *.
  split; [by apply Z.leb_gt in He|]. eauto.
Qed.

(** The update is not atomic: the new owner is already stored when the token is
    refused as taken by another session. *)
Theorem updateSession_partial id input s x userId token other :
  is_empty id = false -> sessions s !! id = Some x ->
  us_userId input = Some userId -> is_empty userId = false -> is_Some (users s !! userId) ->
  us_token input = Some token -> is_empty token = false ->
  session_tokens s !! token = Some other -> other <> id ->
  exists s', updateSession id input s =
      (Err (conflict ("Session token already exists: " +:+ token)), s') /\
    sessions s' !! id = Some (x <| ses_userId := userId |>).
Proof.
  intros Hid Hx Hu Hue Hus Ht Hte Ho Hne.
  unfold updateSession, reject_if, find_or, mbind, Op_bind.
  rewrite Hid, Hx, Hu, Ht. unfold when_some, gets, modify, write_session.
  rewrite Hue. apply has_key_true in Hus as ->. simpl. rewrite Hte.
  assert (session_tokens s !! token = Some other) as H by done.
  unfold assign; simpl. rewrite H. destruct (String.eqb_spec other id); [done|]. simpl.
  eexists. split; [done|]. simpl. rewrite (alter_insert_some _ _ _ _ Hx). apply lookup_insert_eq.
Qed.

(** ** A store with a user and two sessions *)

Definition demo_user : User := 
  mkUser "u1" "ada" "ada@example.org" "user" None None None None None None None.
Definition demo_session (token : string) (expires : Timestamp) : CreateSessionInput :=
  mkCreateSession "u1" token expires None None None None.

Definition demo_users : InMemoryStore := empty_store <| users := {["u1" := demo_user]} |>.
Definition demo_sessions : InMemoryStore :=
  (createSession 1 (demo_session "late" 100) (createSession 1 (demo_session "soon" 10) demo_users).2).2.

Lemma demo_sessions_ok : sessions_ok demo_sessions.
Proof.
  do 2 apply createSession_ok. split; [apply index_ok_empty|].
  split; [simpl; unfold INT_MAX; lia|]. intros id w Hw.
  change (sessions demo_users) with (∅ : gmap string Session) in Hw. by rewrite lookup_empty in Hw.
Qed.

Lemma cleanExpired_spec_witness :
  exists s', cleanExpired 50 demo_sessions = (Ok 1%Z, s') /\ session_tokens s' !! "soon" = None.
Proof.
  destruct (cleanExpired_spec 50 demo_sessions demo_sessions_ok) as (s' & Hc & Hs & Ht & _).
  exists s'. split.
  - rewrite Hc, Hs. vm_compute. reflexivity.
  - destruct (session_tokens s' !! "soon") as [id|] eqn:E; [|done].
    assert (snd (cleanExpired 50 demo_sessions) = s') as Hs' by (by rewrite Hc).
    rewrite <- Hs' in E. vm_compute in E. done.
Defined.

Lemma getSessionByToken_sound_witness :
  exists x, getSessionByToken 50 "late" demo_sessions = (Ok x, demo_sessions) /\ (50 < ses_expiresAt x)%Z.
Proof.
  pose proof (getSessionByToken_sound 50 "late" demo_sessions demo_sessions_ok) as H.
  destruct (getSessionByToken 50 "late" demo_sessions) as [r s'] eqn:E.
  assert (isOk (getSessionByToken 50 "late" demo_sessions).1 = true) as Hok by (vm_compute; reflexivity).
  rewrite E in Hok. destruct r as [x|e|e|]; try done.
  destruct H as (-> & _ & Hlive & _). by exists x.
Defined.

Lemma listSessions_live_witness :
  exists x s', listSessions (H := insertion_StdSort) 50 (mkListOptions ∅ ∅ 1 20) demo_sessions = (Ok [x], s') /\
    (50 < ses_expiresAt x)%Z.
Proof.
  destruct (listSessions (H := insertion_StdSort) 50 (mkListOptions ∅ ∅ 1 20) demo_sessions) as [r s'] eqn:E.
  assert (exists x, r = Ok [x]) as [x ->].
  { assert (r = (listSessions (H := insertion_StdSort) 50 (mkListOptions ∅ ∅ 1 20) demo_sessions).1) as ->
      by (by rewrite E).
    eexists. vm_compute. reflexivity. }
  exists x, s'. split; [done|].
  pose proof (listSessions_live (H := insertion_StdSort) _ _ _ _ _ demo_sessions_ok E) as H.
  by destruct (Forall_inv H).
Defined.

Definition demo_steal : UpdateSessionInput :=
  mkUpdateSession (Some "u2") (Some "late") None None None None.
Definition demo_two_users : InMemoryStore :=
  demo_sessions <| users := <["u2" := demo_user]> (users demo_sessions) |>.

Lemma updateSession_partial_witness :
  exists s' x, (updateSession "session_00000001" demo_steal demo_two_users).2 = s' /\
    sessions s' !! "session_00000001" = Some x /\ ses_userId x = "u2".
Proof.
  destruct (updateSession_partial "session_00000001" demo_steal demo_two_users
    (new_session 1 1 (demo_session "soon" 10)) "u2" "late" "session_00000002") as (s' & Hu & Hs);
    try done; try (vm_compute; reflexivity).
  exists s', ((new_session 1 1 (demo_session "soon" 10)) <| ses_userId := "u2" |>).
  by rewrite Hu.
Defined.
