(* ===== verification/Packages.v ===== *)
(** * Installed packages

    Models src/entities/package/crud and src/entities/package/batch: the package
    id is both the identifier of the row and, through [packageKey], its unique
    key, so no counter is involved. *)

From S2P Require Import Prelude CxxString CxxStd Store Validation UniqueIndex.

Open Scope string_scope.

Record CreatePackageInput := mkCreatePackage {
  ck_packageId : string; ck_tenantId : option string; ck_installedAt : option Timestamp;
  ck_version : string; ck_enabled : bool;
}.

Record UpdatePackageInput := mkUpdatePackage {
  uk_tenantId : option string; uk_installedAt : option Timestamp;
  uk_version : option string; uk_enabled : option bool;
}.

Record UpdatePackageBatchItem := mkPackageBatchItem {
  upb_id : string; upb_data : UpdatePackageInput;
}.

(** ** Operations *)

Definition new_package (now : Timestamp) (input : CreatePackageInput) : InstalledPackage := {|
  pkg_packageId := ck_packageId input; pkg_tenantId := ck_tenantId input;
  pkg_installedAt := Some (default now (ck_installedAt input));
  pkg_version := ck_version input; pkg_enabled := ck_enabled input |}.

Definition createPackage (now : Timestamp) (input : CreatePackageInput) :
    Op InMemoryStore InstalledPackage :=
  reject_if (negb (isValidPackageId (ck_packageId input)))
    (validationError "Package ID must be 1-255 characters");;
  reject_if (negb (isValidSemver (ck_version input)))
    (validationError "Version must be valid semver");;
  let key := packageKey (ck_packageId input) in
  taken ← gets (fun s => has_key (package_keys s) key);
  reject_if taken (conflict ("Package ID already exists: " +:+ key));;
  let pkg := new_package now input in
  modify (fun s => s <| packages ::= <[pkg_packageId pkg := pkg]> |>
                     <| package_keys ::= <[key := pkg_packageId pkg]> |>);;
  mret pkg.

Definition getPackage (id : string) : Op InMemoryStore InstalledPackage :=
  reject_if (is_empty id) (validationError "Package ID cannot be empty");;
  find_or packages id (notFound ("Package not found: " +:+ id)).

Definition getPackageByPackageId (package_key : string) : Op InMemoryStore InstalledPackage :=
  reject_if (is_empty package_key) (validationError "Package key cannot be empty");;
  id ← find_or package_keys package_key (notFound ("Package not found: " +:+ package_key));
  getPackage id.

Definition updatePackage (id : string) (input : UpdatePackageInput) :
    Op InMemoryStore InstalledPackage :=
  reject_if (is_empty id) (validationError "Package ID cannot be empty");;
  package ← find_or packages id (notFound ("Package not found: " +:+ id));
  let next_version := default (pkg_version package) (uk_version input) in
  reject_if (negb (isValidSemver next_version)) (validationError "Version must be valid semver");;
  modify (fun s => s <| packages ::= alter (fun p => p
    <| pkg_version := next_version |>
    <| pkg_tenantId ::= keep_opt (uk_tenantId input) |>
    <| pkg_installedAt ::= keep_opt (uk_installedAt input) |>
    <| pkg_enabled ::= keep (uk_enabled input) |>) id |>);;
  deref packages id.

Definition erase_package (id : string) (p : InstalledPackage) : InMemoryStore -> InMemoryStore :=
  fun s => s <| package_keys ::= delete (packageKey (pkg_packageId p)) |>
             <| packages ::= delete id |>.

Definition deletePackage (id : string) : Op InMemoryStore bool :=
  reject_if (is_empty id) (validationError "Package ID cannot be empty");;
  p ← find_or packages id (notFound ("Package not found: " +:+ id));
  modify (erase_package id p);;
  mret true.

Definition package_matches (filter : gmap string string) (p : InstalledPackage) : bool :=
  match filter !! "packageId" with
  | Some v => String.eqb (pkg_packageId p) v | None => true end &&
  match filter !! "version" with
  | Some v => String.eqb (pkg_version p) v | None => true end &&
  match filter !! "tenantId" with
  | Some v => bool_decide (pkg_tenantId p = Some v) | None => true end &&
  match filter !! "enabled" with
  | Some v => Bool.eqb (pkg_enabled p) (String.eqb v "true") | None => true end.

Section Listing.
Context `{!StdSort}.

Definition sort_packages (sort : gmap string string) (l : list InstalledPackage) :
    list InstalledPackage :=
  if has_key sort "packageId" then
    std_sort (fun a b => String.ltb (pkg_packageId a) (pkg_packageId b)) l
  else if has_key sort "installedAt" then
    std_sort (fun a b => opt_lt (pkg_installedAt a) (pkg_installedAt b)) l
  else l.

Definition listPackages (options : ListOptions) : Op InMemoryStore (list InstalledPackage) :=
  all ← gets (fun s => (map_items (packages s)).*2);
  let found := List.filter (package_matches (opt_filter options)) all in
  of_result (paginate (opt_page options) (opt_limit options)
               (sort_packages (opt_sort options) found)).
End Listing.

(** ** Batches

    A creation batch undoes what it created when one of its items is refused;
    the update and deletion batches stop at the first refusal and keep what
    they did. *)

(** The rollback loop over the identifiers created so far. *)
Definition rollback (created_ids : list string) : Op InMemoryStore unit :=
  forM created_ids (fun id =>
    modify (fun s => match packages s !! id with
                     | Some p => erase_package id p s
                     | None => s
                     end)).

(** [now] is read once per item: the clock of the i-th creation. *)
Fixpoint batchCreate_loop (now : nat -> Timestamp) (i : nat) (inputs : list CreatePackageInput)
    (created_ids : list string) : Op InMemoryStore (list string) :=
  match inputs with
  | [] => mret created_ids
  | input :: rest => fun s =>
      match createPackage (now i) input s with
      | (Ok pkg, s') => batchCreate_loop now (S i) rest (created_ids ++ [pkg_packageId pkg])%list s'
      | (Err e, s') => (rollback created_ids;; fail e) s'
      | (r, s') => (recast r, s')
      end
  end.

Definition batchCreate (now : nat -> Timestamp) (inputs : list CreatePackageInput) :
    Op InMemoryStore Z :=
  match inputs with
  | [] => mret 0%Z
  | _ =>
      created_ids ← batchCreate_loop now 0 inputs [];
      mret (Z.of_nat (length created_ids))
  end.

Fixpoint batchUpdate_loop (updates : list UpdatePackageBatchItem) (updated : Z) :
    Op InMemoryStore Z :=
  match updates with
  | [] => mret updated
  | item :: rest =>
      updatePackage (upb_id item) (upb_data item);;
      batchUpdate_loop rest (updated + 1)
  end.
Definition batchUpdate (updates : list UpdatePackageBatchItem) : Op InMemoryStore Z :=
  match updates with [] => mret 0%Z | _ => batchUpdate_loop updates 0 end.

Fixpoint batchDelete_loop (ids : list string) (deleted : Z) : Op InMemoryStore Z :=
  match ids with
  | [] => mret deleted
  | id :: rest => deletePackage id;; batchDelete_loop rest (deleted + 1)
  end.
Definition batchDelete (ids : list string) : Op InMemoryStore Z :=
  match ids with [] => mret 0%Z | _ => batchDelete_loop ids 0 end.

(** ** Invariant and footprint *)

Definition packages_ok (s : InMemoryStore) : Prop :=
  index_ok pkg_packageId (packages s) (package_keys s) /\
  forall id p, packages s !! id = Some p ->
    pkg_packageId p = id /\ isValidPackageId id = true /\ isValidSemver (pkg_version p) = true.

Definition packages_only (s s' : InMemoryStore) : Prop :=
  s' = s <| packages := packages s' |> <| package_keys := package_keys s' |>.

#[export] Instance packages_only_preorder : PreOrder packages_only.
Proof.
  split.
  - intros s. by destruct s.
  - intros s1 s2 s3 H12 H23. unfold packages_only in *. rewrite H23, H12. done.
Qed.

Lemma packages_only_eq s1 s2 s :
  packages_only s s1 -> packages_only s s2 ->
  packages s1 = packages s2 -> package_keys s1 = package_keys s2 -> s1 = s2.
Proof. unfold packages_only. intros -> -> Hp Hk. simpl in *. by rewrite Hp, Hk. Qed.

Lemma createPackage_frame now input : frame packages_only (createPackage now input).
Proof. unfold createPackage. solve_frame. Qed.
Lemma getPackage_pure id : pure_op (getPackage id).
Proof. unfold getPackage. auto with dbal. Qed.
Lemma getPackageByPackageId_pure k : pure_op (getPackageByPackageId k).
Proof. unfold getPackageByPackageId. auto using getPackage_pure with dbal. Qed.
Lemma updatePackage_frame id input : frame packages_only (updatePackage id input).
Proof. unfold updatePackage. solve_frame. Qed.
Lemma deletePackage_frame id : frame packages_only (deletePackage id).
Proof. unfold deletePackage, erase_package. solve_frame. Qed.
Lemma listPackages_pure `{!StdSort} options : pure_op (listPackages options).
Proof. unfold listPackages. auto with dbal. Qed.
#[export] Hint Resolve createPackage_frame getPackage_pure getPackageByPackageId_pure
  updatePackage_frame deletePackage_frame listPackages_pure : dbal.

Lemma rollback_frame ids : frame packages_only (rollback ids).
Proof.
  apply frame_forM; [typeclasses eauto|]. intros id s. unfold modify. simpl.
  destruct (packages s !! id); [red; reflexivity|by destruct s].
Qed.
#[export] Hint Resolve rollback_frame : dbal.

Lemma batchCreate_loop_frame now i inputs ids : frame packages_only (batchCreate_loop now i inputs ids).
Proof.
  revert i ids; induction inputs as [|input rest IH]; intros i ids; cbn [batchCreate_loop]; [solve_frame|].
  intros s.
  pose proof (createPackage_frame (now i) input s) as Hc.
  destruct (createPackage (now i) input s) as [[pkg|e|x|] s']; simpl in *; try done.
  - etrans; [exact Hc|apply IH].
  - etrans; [exact Hc|].
    assert (frame packages_only (rollback ids;; fail (A:=list string) e)) as Hr by solve_frame.
    apply Hr.
Qed.
#[export] Hint Resolve batchCreate_loop_frame : dbal.

Lemma batchCreate_frame now inputs : frame packages_only (batchCreate now inputs).
Proof. unfold batchCreate. destruct inputs; solve_frame. Qed.
Lemma batchUpdate_frame updates : frame packages_only (batchUpdate updates).
Proof.
  assert (forall n, frame packages_only (batchUpdate_loop updates n)) as H.
  { induction updates; intros n; cbn [batchUpdate_loop]; solve_frame. }
  unfold batchUpdate. destruct updates; [solve_frame|apply H].
Qed.
Lemma batchDelete_frame ids : frame packages_only (batchDelete ids).
Proof.
  assert (forall n, frame packages_only (batchDelete_loop ids n)) as H.
  { induction ids; intros n; cbn [batchDelete_loop]; solve_frame. }
  unfold batchDelete. destruct ids; [solve_frame|apply H].
Qed.
#[export] Hint Resolve batchCreate_frame batchUpdate_frame batchDelete_frame : dbal.

(** ** The invariant is kept *)

Lemma createPackage_ok now input : preserves packages_ok (createPackage now input).
Proof.
  apply triple_preserves. unfold createPackage.
  apply triple_reject_then; [done|intros Hid%negb_false_iff].
  apply triple_reject_then; [done|intros Hv%negb_false_iff].
  apply triple_gets_then; intros taken. apply triple_reject_then; [by intros s []|intros ->].
  eapply triple_modify_then; [|by apply triple_ret].
  intros s [[Hidx Hall] Hfree%has_key_false]. unfold packageKey in *.
  assert (packages s !! ck_packageId input = None) as Hnew.
  { apply eq_None_not_Some. intros [p Hp]. destruct (Hall _ _ Hp) as (Hk & _).
    rewrite <- Hk in Hfree. rewrite (index_ok_lookup _ _ _ _ _ Hidx Hp) in Hfree. done. }
  split; simpl; [by apply index_ok_insert|].
  intros id p [[<- <-]|[_ Hp]]%lookup_insert_Some; [done|by apply Hall].
Qed.

Lemma updatePackage_ok id input : preserves packages_ok (updatePackage id input).
Proof.
  apply triple_preserves. unfold updatePackage.
  apply triple_reject_then; [done|intros _]. apply triple_find_then; [done|intros p].
  apply triple_reject_then; [by intros s []|intros Hv%negb_false_iff].
  apply (triple_modify_then _ _ (fun s => packages_ok s /\ is_Some (packages s !! id))).
  - intros s [[Hidx Hall] Hp]. unfold assign; simpl. rewrite (alter_insert_some _ _ _ _ Hp).
    split; [split; simpl|simpl; rewrite lookup_insert_eq; eauto].
    + by eapply index_ok_same.
    + intros id' q [[<- <-]|[_ Hq]]%lookup_insert_Some; [|by apply Hall].
      destruct (Hall _ _ Hp) as (? & ? & ?). by repeat split.
  - apply triple_deref. intros s [? [q Hq]]. eauto.
Qed.

Lemma erase_package_ok s id p :
  packages_ok s -> packages s !! id = Some p -> packages_ok (erase_package id p s).
Proof.
  intros [Hidx Hall] Hp. split; simpl.
  - by eapply index_ok_delete.
  - intros id' q [_ Hq]%lookup_delete_Some. by apply Hall.
Qed.

Lemma deletePackage_ok id : preserves packages_ok (deletePackage id).
Proof.
  apply triple_preserves. unfold deletePackage.
  apply triple_reject_then; [done|intros _]. apply triple_find_then; [done|intros p].
  eapply triple_modify_then; [|by apply triple_ret]. intros s []. by apply erase_package_ok.
Qed.

Lemma packages_ok_empty : packages_ok empty_store.
Proof.
  split; [apply index_ok_empty|].
  intros id p Hp. change (packages empty_store) with (∅ : gmap string InstalledPackage) in Hp.
  by rewrite lookup_empty in Hp.
Qed.

Lemma rollback_run ids s :
  packages_ok s ->
  exists s', rollback ids s = (Ok tt, s') /\ packages_ok s' /\
    forall k, packages s' !! k = if decide (k ∈ ids) then None else packages s !! k.
Proof.
  unfold rollback. revert s; induction ids as [|id ids IH]; intros s Hok.
  { exists s. split; [done|]. split; [done|]. intros k. by rewrite decide_False by set_solver. }
  cbn [forM]. unfold mbind, Op_bind, modify at 1.
  set (s1 := match packages s !! id with Some p => erase_package id p s | None => s end).
  assert (packages_ok s1 /\ forall k, packages s1 !! k = if decide (k = id) then None else packages s !! k)
    as [Hok1 Hs1].
  { unfold s1. destruct (packages s !! id) as [x|] eqn:Hx.
    - split; [by apply erase_package_ok|]. intros k. simpl.
      rewrite lookup_delete. repeat case_decide; congruence.
    - split; [done|]. intros k. case_decide; congruence. }
  destruct (IH s1 Hok1) as (s' & -> & Hok' & Hs'). exists s'. split; [done|]. split; [done|].
  intros k. rewrite Hs', Hs1.
  destruct (decide (k ∈ ids)), (decide (k = id));
    try (rewrite decide_True by (rewrite elem_of_cons; tauto); done).
  by rewrite decide_False by (rewrite elem_of_cons; tauto).
Qed.

Lemma index_ok_functional {E} (key : E -> string) tbl idx1 idx2 :
  index_ok key tbl idx1 -> index_ok key tbl idx2 -> idx1 = idx2.
Proof.
  intros H1 H2. apply map_eq. intros k. apply option_eq. intros id. by rewrite (H1 k id), (H2 k id).
Qed.

(** ** Batches: all or nothing, or a prefix *)

(** [s] is [s0] with the rows [ids] added. *)
Definition grown (s0 s : InMemoryStore) (ids : list string) : Prop :=
  packages_only s0 s /\ packages_ok s /\
  (forall k, k ∈ ids -> packages s0 !! k = None /\ is_Some (packages s !! k)) /\
  (forall k, k ∉ ids -> packages s !! k = packages s0 !! k).

Lemma rollback_grown s0 s ids :
  packages_ok s0 -> grown s0 s ids -> rollback ids s = (Ok tt, s0).
Proof.
  intros Hok0 (Hfr & Hok & Hin & Hout). destruct (rollback_run ids s Hok) as (s' & Hrun & Hok' & Hs').
  assert (packages s' = packages s0) as Hp.
  { apply map_eq. intros k. rewrite Hs'. case_decide as Hk; [by rewrite (proj1 (Hin k Hk))|by apply Hout]. }
  rewrite Hrun. do 2 f_equal. apply (packages_only_eq _ _ s0); [|reflexivity|done|].
  - etrans; [exact Hfr|]. pose proof (rollback_frame ids s) as H. by rewrite Hrun in H.
  - eapply index_ok_functional; [apply Hok'|]. rewrite Hp. apply Hok0.
Qed.

Lemma createPackage_run now input s :
  packages_ok s ->
  match createPackage now input s with
  | (Ok pkg, s') => pkg = new_package now input /\
      packages s !! ck_packageId input = None /\
      packages s' = <[ck_packageId input := pkg]> (packages s)
  | (Err _, s') => s' = s
  | _ => False
  end.
Proof.
  intros [Hidx Hall]. unfold createPackage, reject_if, gets, mbind, Op_bind, packageKey.
  destruct (isValidPackageId _); simpl; [|done].
  destruct (isValidSemver _); simpl; [|done].
  destruct (has_key (package_keys s) (ck_packageId input)) eqn:Hk; simpl; [done|].
  split; [done|]. split; [|done]. apply has_key_false in Hk.
  apply eq_None_not_Some. intros [p Hp]. destruct (Hall _ _ Hp) as (Hkey & _).
  rewrite <- Hkey in Hk. rewrite (index_ok_lookup _ _ _ _ _ Hidx Hp) in Hk. done.
Qed.

Lemma grown_snoc s0 s s1 ids id pkg :
  grown s0 s ids -> packages_only s s1 -> packages_ok s1 ->
  packages s !! id = None -> packages s1 = <[id := pkg]> (packages s) ->
  (id ∉ ids) /\ grown s0 s1 (ids ++ [id])%list.
Proof.
  intros (Hfr & Hok & Hin & Hout) Hfr1 Hok1 Hnew Hs1.
  assert (id ∉ ids) as Hni.
  { intros Hid. destruct (Hin _ Hid) as [_ [p Hp]]. congruence. }
  split; [done|]. split; [by transitivity s|]. split; [done|]. rewrite Hs1. split.
  - intros k [Hk|Hk%list_elem_of_singleton]%elem_of_app.
    + destruct (Hin k Hk) as [? Hp]. split; [done|]. rewrite lookup_insert_ne; [done|]. by intros ->.
    + subst k. rewrite lookup_insert_eq. split; [by rewrite <- Hout|eauto].
  - intros k Hk. rewrite lookup_insert_ne by set_solver. apply Hout. set_solver.
Qed.

Lemma batchCreate_loop_run now inputs i ids s0 s :
  packages_ok s0 -> grown s0 s ids ->
  match batchCreate_loop now i inputs ids s with
  | (Ok ids', s') => ids' = (ids ++ (ck_packageId <$> inputs))%list /\ grown s0 s' ids' /\
      (forall k, k ∈ ids -> packages s' !! k = packages s !! k) /\
      (forall j input, inputs !! j = Some input ->
         packages s' !! ck_packageId input = Some (new_package (now (i + j)) input))
  | (Err _, s') => s' = s0
  | _ => False
  end.
Proof.
  intros Hok0. revert i ids s; induction inputs as [|input rest IH]; intros i ids s Hg.
  { cbn. rewrite app_nil_r. by split_and!. }
  cbn [batchCreate_loop]. pose proof Hg as (_ & Hok & _).
  pose proof (createPackage_run (now i) input s Hok) as Hrun.
  pose proof (createPackage_ok (now i) input s Hok) as Hok1.
  pose proof (createPackage_frame (now i) input s) as Hfr1.
  destruct (createPackage (now i) input s) as [[pkg|e|x|] s1]; simpl in *; try done.
  2: { subst s1. unfold mbind, Op_bind. by rewrite (rollback_grown s0 s ids). }
  destruct Hrun as (-> & Hnew & Hs1).
  destruct (grown_snoc _ _ _ _ _ _ Hg Hfr1 Hok1 Hnew Hs1) as [Hni Hg1].
  specialize (IH (S i) _ s1 Hg1).
  destruct (batchCreate_loop now (S i) rest _ s1) as [[ids'|e|x|] s']; try done.
  destruct IH as (-> & Hg' & Hold & Hnewer). split; [by rewrite <- app_assoc|].
  split; [done|]. split.
  - intros k Hkin. rewrite Hold by set_solver. rewrite Hs1, lookup_insert_ne; [done|]. set_solver.
  - intros [|j] input' Hj; simpl in Hj.
    + injection Hj as <-. rewrite Hold by set_solver. rewrite Hs1, Nat.add_0_r. apply lookup_insert_eq.
    + rewrite <- Nat.add_succ_comm. by apply Hnewer.
Qed.

Lemma grown_refl s : packages_ok s -> grown s s [].
Proof. intros Hok. split; [done|]. split; [done|]. split; [set_solver|done]. Qed.

Lemma batchCreate_ok now inputs : preserves packages_ok (batchCreate now inputs).
Proof.
  intros s Hok. unfold batchCreate. destruct inputs as [|input rest]; [done|].
  pose proof (batchCreate_loop_run now (input :: rest) 0 [] s s Hok (grown_refl s Hok)) as H.
  unfold mbind, Op_bind. destruct (batchCreate_loop now 0 (input :: rest) [] s) as [[]?]; try done.
  - apply H.
  - simpl. by rewrite H.
Qed.

Lemma batchUpdate_ok updates : preserves packages_ok (batchUpdate updates).
Proof.
  assert (forall n, preserves packages_ok (batchUpdate_loop updates n)) as H.
  { induction updates; intros n; cbn [batchUpdate_loop]; [auto with dbal|].
    apply preserves_bind; [apply updatePackage_ok|auto]. }
  unfold batchUpdate. destruct updates; [auto with dbal|apply H].
Qed.

Lemma batchDelete_ok ids : preserves packages_ok (batchDelete ids).
Proof.
  assert (forall n, preserves packages_ok (batchDelete_loop ids n)) as H.
  { induction ids; intros n; cbn [batchDelete_loop]; [auto with dbal|].
    apply preserves_bind; [apply deletePackage_ok|auto]. }
  unfold batchDelete. destruct ids; [auto with dbal|apply H].
Qed.

(** A creation batch is all or nothing: when it is refused, the store is the
    one it started from (the rollback undoes every earlier creation, the key
    index included); when it is accepted, the count is the number of inputs,
    every input is stored as its row, no input overwrote an existing row and
    every other row is as it was. *)
Theorem batchCreate_atomic now inputs s :
  packages_ok s ->
  match batchCreate now inputs s with
  | (Ok n, s') => n = Z.of_nat (length inputs) /\ packages_ok s' /\ packages_only s s' /\
      (forall j input, inputs !! j = Some input ->
         packages s !! ck_packageId input = None /\
         packages s' !! ck_packageId input = Some (new_package (now j) input)) /\
      (forall k, k ∉ (ck_packageId <$> inputs) -> packages s' !! k = packages s !! k)
  | (Err _, s') => s' = s
  | _ => False
  end.
Proof.
  intros Hok. destruct inputs as [|input rest].
  { cbn. by split_and!. }
  unfold batchCreate, mbind, Op_bind.
  pose proof (batchCreate_loop_run now (input :: rest) 0 [] s s Hok (grown_refl s Hok)) as H.
  destruct (batchCreate_loop now 0 (input :: rest) [] s) as [[ids'|e|x|] s']; try done.
  destruct H as (-> & (Hfr & Hok' & Hin & Hout) & _ & Hrows). rewrite app_nil_l in *.
  cbn [mret Op_ret]. split; [by rewrite length_fmap|]. split_and!; try done.
  intros j i Hj. split; [|by apply (Hrows j)].
  apply Hin. apply list_elem_of_fmap. exists i. split; [done|]. by eapply list_elem_of_lookup_2.
Qed.

(** ** A store with one package *)

Definition demo_package (id version : string) : CreatePackageInput := mkCreatePackage id None None version true.
Definition demo_packages : InMemoryStore := (createPackage 1 (demo_package "forms" "1.0.0") empty_store).2.

(** The third row repeats the key of the store: nothing of the batch stays. *)
Lemma batchCreate_atomic_witness :
  exists e, batchCreate (fun _ => 2%Z)
    [demo_package "shop" "2.1.0"; demo_package "wiki" "0.1.0"; demo_package "forms" "1.1.0"] demo_packages =
    (Err e, demo_packages).
Proof.
  set (inputs := [_; _; _]).
  pose proof (batchCreate_atomic (fun _ => 2%Z) inputs demo_packages
    (createPackage_ok 1 (demo_package "forms" "1.0.0") empty_store packages_ok_empty)) as H.
  destruct (batchCreate (fun _ => 2%Z) inputs demo_packages) as [r s'] eqn:E.
  assert (isError (batchCreate (fun _ => 2%Z) inputs demo_packages).1 = true) as He by (vm_compute; reflexivity).
  rewrite E in He. destruct r as [n|e|x|]; try done. exists e. by rewrite H.
Defined.
