(* ===== verification/Components.v ===== *)
(** * Page components

    Models src/entities/component: the tree of components of a page, kept as a
    table with two list-valued indexes, by page and by parent.  The recursive
    helpers take the number of nested calls they may make; a recursion that
    would go deeper than that ends as [Undef] (the call stack of C++ is finite
    too), and the theorems of ComponentForest show that on the stores the
    handlers build a depth of one more than the number of components is never
    exceeded. *)

From S2P Require Import Prelude CxxString CxxStd Store Validation MultiIndex.

Open Scope string_scope.

Record CreateComponentNodeInput := mkCreateComponent {
  cc_pageId : string; cc_parentId : option string; cc_type : string;
  cc_childIds : string; cc_order : Z;
}.

Record UpdateComponentNodeInput := mkUpdateComponent {
  uc_parentId : option string; uc_type : option string;
  uc_childIds : option string; uc_order : option Z;
}.

Record MoveComponentInput := mkMoveComponent {
  mc_id : string; mc_newParentId : string; mc_order : Z;
}.

Record ComponentOrderUpdate := mkOrderUpdate { ou_id : string; ou_order : Z }.

(** ** Helpers *)

Definition addComponentToPage (pageId id : string) : Op InMemoryStore unit :=
  modify (fun s => s <| components_by_page ::= link pageId id |>).
Definition removeComponentFromPage (pageId id : string) : Op InMemoryStore unit :=
  modify (fun s => s <| components_by_page ::= unlink pageId id |>).
Definition addComponentToParent (parentId id : string) : Op InMemoryStore unit :=
  modify (fun s => s <| components_by_parent ::= link parentId id |>).
Definition removeComponentFromParent (parentId id : string) : Op InMemoryStore unit :=
  modify (fun s => s <| components_by_parent ::= unlink parentId id |>).

(** [for (x : l) if (f(x)) return true; return false;] *)
Fixpoint any_of {A} (f : A -> Result bool) (l : list A) : Result bool :=
  match l with
  | [] => Ok false
  | x :: l' => b ← f x; if b : bool then Ok true else any_of f l'
  end.

Fixpoint hasDescendant (fuel : nat) (s : InMemoryStore) (ancestor_id candidate_id : string) :
    Result bool :=
  match fuel with
  | 0 => Undef
  | S fuel =>
      match components_by_parent s !! ancestor_id with
      | None => Ok false
      | Some children =>
          any_of (fun child_id =>
            if String.eqb child_id candidate_id then Ok true
            else hasDescendant fuel s child_id candidate_id) children
      end
  end.

(** [comp_it] is read again after the recursion: it must still be valid. *)
Fixpoint cascadeDeleteComponent (fuel : nat) (component_id : string) : Op InMemoryStore unit :=
  match fuel with
  | 0 => undef
  | S fuel => fun s =>
      match components s !! component_id with
      | None => (Ok tt, s)
      | Some _ =>
          (when_some (components_by_parent s !! component_id) (fun children =>
             forM children (cascadeDeleteComponent fuel);;
             modify (fun s => s <| components_by_parent ::= delete component_id |>));;
           component ← deref components component_id;
           when_some (cmp_parentId component) (fun p => removeComponentFromParent p component_id);;
           removeComponentFromPage (cmp_pageId component) component_id;;
           modify (fun s => s <| components ::= delete component_id |>)) s
      end
  end.

(** The depth the handlers allow the helpers. *)
Definition depth (s : InMemoryStore) : nat := S (base.size (components s)).

(** ** Create, read, update, delete *)

Definition create (input : CreateComponentNodeInput) : Op InMemoryStore ComponentNode :=
  reject_if (is_empty (cc_pageId input)) (validationError "pageId is required");;
  reject_if (negb (isValidComponentType (cc_type input)))
    (validationError "type must be 1-100 characters");;
  reject_if (negb (isValidComponentOrder (cc_order input)))
    (validationError "order must be a non-negative integer");;
  page ← find_or pages (cc_pageId input) (notFound ("Page not found: " +:+ cc_pageId input));
  when_some (cc_parentId input) (fun p =>
    parent ← find_or components p (notFound ("Parent component not found: " +:+ p));
    reject_if (negb (String.eqb (cmp_pageId parent) (cc_pageId input)))
      (validationError "Parent component must belong to the same page"));;
  n ← incr component_counter (fun s n => s <| component_counter := n |>);
  let component := {|
    cmp_id := generateId "component" n; cmp_pageId := cc_pageId input;
    cmp_parentId := cc_parentId input; cmp_type := cc_type input;
    cmp_childIds := cc_childIds input; cmp_order := cc_order input |} in
  modify (fun s => s <| components ::= <[cmp_id component := component]> |>);;
  addComponentToPage (cmp_pageId component) (cmp_id component);;
  when_some (cmp_parentId component) (fun p => addComponentToParent p (cmp_id component));;
  mret component.

Definition get (id : string) : Op InMemoryStore ComponentNode :=
  reject_if (is_empty id) (validationError "Component ID cannot be empty");;
  find_or components id (notFound ("Component not found: " +:+ id)).

(** Assigning a field through the iterator. *)
Definition set_component (id : string) (f : ComponentNode -> ComponentNode) :
    Op InMemoryStore unit :=
  modify (fun s => s <| components ::= alter f id |>).

Definition update (id : string) (input : UpdateComponentNodeInput) :
    Op InMemoryStore ComponentNode :=
  reject_if (is_empty id) (validationError "Component ID cannot be empty");;
  _ ← find_or components id (notFound ("Component not found: " +:+ id));
  when_some (uc_type input) (fun t =>
    reject_if (negb (isValidComponentType t)) (validationError "type must be 1-100 characters");;
    set_component id (fun c => c <| cmp_type := t |>));;
  when_some (uc_order input) (fun o =>
    reject_if (negb (isValidComponentOrder o))
      (validationError "order must be a non-negative integer");;
    set_component id (fun c => c <| cmp_order := o |>));;
  when_some (uc_childIds input) (fun l => set_component id (fun c => c <| cmp_childIds := l |>));;
  when_some (uc_parentId input) (fun new_parent =>
    reject_if (is_empty new_parent) (validationError "parentId cannot be empty");;
    reject_if (String.eqb new_parent id) (validationError "Component cannot be its own parent");;
    parent ← find_or components new_parent (notFound ("Parent component not found: " +:+ new_parent));
    component ← deref components id;
    reject_if (negb (String.eqb (cmp_pageId parent) (cmp_pageId component)))
      (validationError "Parent component must belong to the same page");;
    below ← reads (fun s => hasDescendant (depth s) s id new_parent);
    reject_if below (validationError "Cannot move component under its descendant");;
    when_some (cmp_parentId component) (fun p => removeComponentFromParent p id);;
    set_component id (fun c => c <| cmp_parentId := Some new_parent |>);;
    addComponentToParent new_parent id);;
  deref components id.

Definition remove (id : string) : Op InMemoryStore bool :=
  reject_if (is_empty id) (validationError "Component ID cannot be empty");;
  _ ← find_or components id (notFound ("Component not found: " +:+ id));
  fuel ← gets depth;
  cascadeDeleteComponent fuel id;;
  mret true.

(** ** Moving and reordering *)

Definition move (input : MoveComponentInput) : Op InMemoryStore ComponentNode :=
  let id := mc_id input in
  let new_parent := mc_newParentId input in
  reject_if (is_empty id) (validationError "Component ID is required");;
  reject_if (mc_order input <? 0)%Z (validationError "Order must be a non-negative integer");;
  component ← find_or components id (notFound ("Component not found: " +:+ id));
  reject_if (String.eqb new_parent (cmp_id component))
    (validationError "Component cannot be its own parent");;
  (if negb (is_empty new_parent) then
     parent ← find_or components new_parent
                (notFound ("Parent component not found: " +:+ new_parent));
     reject_if (negb (String.eqb (cmp_pageId parent) (cmp_pageId component)))
       (validationError "New parent must belong to the same page");;
     below ← reads (fun s => hasDescendant (depth s) s (cmp_id component) new_parent);
     reject_if below (validationError "Cannot move component under its descendant")
   else mret tt);;
  when_some (cmp_parentId component) (fun p => removeComponentFromParent p (cmp_id component));;
  (if negb (is_empty new_parent) then
     addComponentToParent new_parent (cmp_id component);;
     set_component id (fun c => c <| cmp_parentId := Some new_parent |>)
   else set_component id (fun c => c <| cmp_parentId := None |>));;
  set_component id (fun c => c <| cmp_order := mc_order input |>);;
  deref components id.

(** The first loop of [reorder], carrying the parent all the rows must share. *)
Fixpoint reorder_check (updates : list ComponentOrderUpdate)
    (parent_scope : option (option string)) : Op InMemoryStore unit :=
  match updates with
  | [] => mret tt
  | update :: rest =>
      reject_if (is_empty (ou_id update)) (validationError "Component ID is required");;
      reject_if (ou_order update <? 0)%Z (validationError "Order must be a non-negative integer");;
      c ← find_or components (ou_id update) (notFound ("Component not found: " +:+ ou_id update));
      match parent_scope with
      | None => reorder_check rest (Some (cmp_parentId c))
      | Some scope =>
          reject_if (negb (bool_decide (scope = cmp_parentId c)))
            (validationError "All components must share the same parent");;
          reorder_check rest parent_scope
      end
  end.

Definition reorder (updates : list ComponentOrderUpdate) : Op InMemoryStore bool :=
  match updates with
  | [] => mret true
  | _ =>
      reorder_check updates None;;
      forM updates (fun update =>
        set_component (ou_id update) (fun c => c <| cmp_order := ou_order update |>));;
      mret true
  end.

(** ** Listings *)

Section Listing.
Context `{!StdSort}.

Definition order_of (s : InMemoryStore) (id : string) : Z :=
  match components s !! id with Some c => cmp_order c | None => 0%Z end.

(** [std::sort] by [components.at(a).order < components.at(b).order]: [at]
    throws on an identifier without a row as soon as two are compared. *)
Definition sort_ids (s : InMemoryStore) (ids : list string) : Result (list string) :=
  match ids with
  | [] | [_] => Ok ids
  | _ =>
      if forallb (has_key (components s)) ids
      then Ok (std_sort (fun a b => (order_of s a <? order_of s b)%Z) ids)
      else Throw out_of_range
  end.

(** [components.at(id)] *)
Definition at_ (s : InMemoryStore) (id : string) : Result ComponentNode :=
  match components s !! id with Some c => Ok c | None => Throw out_of_range end.

Fixpoint take_children (s : InMemoryStore) (type_filter : option string) (limit : Z)
    (ids : list string) (children : list ComponentNode) : Result (list ComponentNode) :=
  match ids with
  | [] => Ok children
  | id :: rest =>
      component ← at_ s id;
      if match type_filter with
         | Some t => negb (String.eqb (cmp_type component) t) | None => false end
      then take_children s type_filter limit rest children
      else
        let children := (children ++ [component])%list in
        if (0 <? limit)%Z && (limit <=? Z.of_nat (length children))%Z then Ok children
        else take_children s type_filter limit rest children
  end.

Definition getChildren (parentId : string) (type_filter : option string) (limit : Z) :
    Op InMemoryStore (list ComponentNode) :=
  reject_if (is_empty parentId) (validationError "parentId is required");;
  _ ← find_or components parentId (notFound ("Component not found: " +:+ parentId));
  reads (fun s =>
    match components_by_parent s !! parentId with
    | None => Ok []
    | Some ids => ids ← sort_ids s ids; take_children s type_filter limit ids []
    end).

Definition collectChildren (s : InMemoryStore) (parentId : option string) (pageId : string) :
    Result (list string) :=
  sort_ids s
    match parentId with
    | Some p => default [] (components_by_parent s !! p)
    | None =>
        (List.filter (fun e => String.eqb (cmp_pageId e.2) pageId &&
                               negb (bool_decide (is_Some (cmp_parentId e.2))))
           (map_items (components s))).*1
    end.

(** The loop over the children: each row, then what the nested call appends. *)
Fixpoint visit (s : InMemoryStore) (build : string -> Result (list ComponentNode))
    (ids : list string) : Result (list ComponentNode) :=
  match ids with
  | [] => Ok []
  | child_id :: rest =>
      component ← at_ s child_id;
      below ← build child_id;
      siblings ← visit s build rest;
      Ok (component :: below ++ siblings)%list
  end.

(** [out] is appended to: the result lists what a call appends. *)
Fixpoint buildTree (fuel : nat) (s : InMemoryStore) (pageId : string)
    (parentId : option string) : Result (list ComponentNode) :=
  match fuel with
  | 0 => Undef
  | S fuel =>
      children ← collectChildren s parentId pageId;
      visit s (fun child_id => buildTree fuel s pageId (Some child_id)) children
  end.

Definition getTree (pageId : string) : Op InMemoryStore (list ComponentNode) :=
  reject_if (is_empty pageId) (validationError "pageId is required");;
  _ ← find_or pages pageId (notFound ("Page not found: " +:+ pageId));
  reads (fun s => buildTree (S (depth s)) s pageId None).

Definition list_matches (filter : gmap string string) (c : ComponentNode) : bool :=
  match filter !! "pageId" with
  | Some v => is_empty v || String.eqb (cmp_pageId c) v | None => true end &&
  match filter !! "parentId" with
  | Some v => bool_decide (cmp_parentId c = Some v) | None => true end &&
  match filter !! "type" with
  | Some v => String.eqb (cmp_type c) v | None => true end.

(** [operator<] of [std::optional<std::string>]. *)
Definition opt_string_lt (a b : option string) : bool :=
  match a, b with
  | _, None => false
  | None, Some _ => true
  | Some x, Some y => String.ltb x y
  end.

(** The comparator of the listing. *)
Definition list_lt (a b : ComponentNode) : bool :=
  if negb (String.eqb (cmp_pageId a) (cmp_pageId b)) then
    String.ltb (cmp_pageId a) (cmp_pageId b)
  else if negb (Bool.eqb (bool_decide (is_Some (cmp_parentId a)))
                         (bool_decide (is_Some (cmp_parentId b)))) then
    negb (bool_decide (is_Some (cmp_parentId a))) && bool_decide (is_Some (cmp_parentId b))
  else if negb (bool_decide (cmp_parentId a = cmp_parentId b)) then
    opt_string_lt (cmp_parentId a) (cmp_parentId b)
  else if negb (cmp_order a =? cmp_order b)%Z then (cmp_order a <? cmp_order b)%Z
  else String.ltb (cmp_id a) (cmp_id b).

Definition list_window {A} (page limit : Z) (l : list A) : Result (list A) :=
  let n := Z.of_nat (length l) in
  let page := if (1 <? page)%Z then page else 1%Z in
  let limit := if (0 <? limit)%Z then limit else n in
  if (limit =? 0)%Z || (n =? 0)%Z then Ok []
  else
    let start := ((page - 1) * limit)%Z in
    if negb (in_int start) then Undef
    else if (n <=? start)%Z then Ok []
    else if negb (in_int (start + limit)) then Undef
    else
      let stop := Z.min (start + limit) n in
      Ok (take (Z.to_nat (stop - start)) (drop (Z.to_nat start) l)).

Definition list_components (options : ListOptions) : Op InMemoryStore (list ComponentNode) :=
  all ← gets (fun s => (map_items (components s)).*2);
  let found := std_sort list_lt (List.filter (list_matches (opt_filter options)) all) in
  of_result (list_window (opt_page options) (opt_limit options) found).

Definition search_lt (a b : ComponentNode) : bool :=
  if negb (String.eqb (cmp_type a) (cmp_type b)) then String.ltb (cmp_type a) (cmp_type b)
  else (cmp_order a <? cmp_order b)%Z.

(** The search helper of components finds nothing for an empty query. *)
Definition component_contains (text query : string) : bool :=
  if is_empty query then false else containsInsensitive text query.

Definition search_matches (query : string) (pageId : option string) (c : ComponentNode) : bool :=
  match pageId with Some p => String.eqb (cmp_pageId c) p | None => true end &&
  (component_contains (cmp_type c) query || component_contains (cmp_childIds c) query).

Definition search (query : string) (pageId : option string) (limit : Z) :
    Op InMemoryStore (list ComponentNode) :=
  reject_if (is_empty query) (validationError "search query is required");;
  all ← gets (fun s => (map_items (components s)).*2);
  let matches := std_sort search_lt (List.filter (search_matches query pageId) all) in
  mret (if (0 <? limit)%Z && (limit <? Z.of_nat (length matches))%Z
        then take (Z.to_nat limit) matches else matches).
End Listing.
