(* ===== verification/ComponentForest.v ===== *)
(** * The component forest

    The invariant of the component tables (identifiers issued by the counter,
    exact page and parent indexes, parents on the same page, no cycles), its
    preservation by every operation of Components, the termination of the
    recursive helpers, and what they compute: reachability, the removal of a
    subtree, the listing of a page's tree. *)

From stdpp Require Import relations.
From S2P Require Import Prelude CxxString CxxStd Store Validation UniqueIndex MultiIndex Components.

Open Scope string_scope.

(** ** Reachability *)

(** [id] has the child [c]. *)
Definition child (s : InMemoryStore) (id c : string) : Prop :=
  exists n, components s !! c = Some n /\ cmp_parentId n = Some id.

(** [x] is strictly below [id]. *)
Definition below (s : InMemoryStore) : relation string := tc (child s).
(** [x] is in the subtree of [id]. *)
Definition subtree (s : InMemoryStore) : relation string := rtc (child s).

Definition by_page_key (c : ComponentNode) : option string := Some (cmp_pageId c).

Record components_ok (s : InMemoryStore) : Prop := {
  co_counter : (0 <= component_counter s <= INT_MAX)%Z;
  co_ids : forall id c, components s !! id = Some c ->
    cmp_id c = id /\ issued "component" (component_counter s) id;
  co_valid : forall id c, components s !! id = Some c ->
    isValidComponentType (cmp_type c) = true /\ isValidComponentOrder (cmp_order c) = true;
  co_parent : forall id c p, components s !! id = Some c -> cmp_parentId c = Some p ->
    exists q, components s !! p = Some q /\ cmp_pageId q = cmp_pageId c;
  co_by_parent : multi_ok cmp_parentId (components s) (components_by_parent s);
  co_by_page : multi_ok by_page_key (components s) (components_by_page s);
  co_acyclic : exists rank : string -> nat, forall p c, child s p c -> rank p < rank c;
}.

(** Only the component tables differ. *)
Definition components_only (s s' : InMemoryStore) : Prop :=
  s' = s <| components := components s' |> <| components_by_page := components_by_page s' |>
         <| components_by_parent := components_by_parent s' |>
         <| component_counter := component_counter s' |>.

#[export] Instance components_only_preorder : PreOrder components_only.
Proof.
  split.
  - intros s. by destruct s.
  - intros s1 s2 s3 H12 H23. unfold components_only in *. rewrite H23, H12. done.
Qed.

Lemma components_ok_empty : components_ok empty_store.
Proof.
  assert (forall id, components empty_store !! id = None) as Hno by (intros; apply lookup_empty).
  split; try (intros id c *; rewrite Hno; done).
  - done.
  - apply (multi_ok_empty cmp_parentId).
  - apply (multi_ok_empty by_page_key).
  - exists (fun _ => 0). intros p c (n & Hn & _). by rewrite Hno in Hn.
Qed.

Section Forest.
Context (s : InMemoryStore) (Hok : components_ok s).

Lemma below_acyclic x : ~ below s x x.
Proof.
  destruct (co_acyclic s Hok) as [rank Hrank].
  assert (forall y z, below s y z -> rank y < rank z) as H.
  { induction 1 as [y z Hyz|y z w Hyz _ IH]; [by apply Hrank|].
    apply Hrank in Hyz. lia. }
  intros Hx. apply H in Hx. lia.
Qed.

Lemma child_unique p q c : child s p c -> child s q c -> p = q.
Proof. intros (n & Hn & Hp) (m & Hm & Hq). congruence. Qed.

Lemma child_bucket p c : c ∈ bucket (components_by_parent s) p <-> child s p c.
Proof. apply (multi_elem _ _ _ (co_by_parent s Hok)). Qed.

Lemma child_present p c :
  child s p c -> is_Some (components s !! p) /\ is_Some (components s !! c).
Proof.
  intros (n & Hn & Hp). destruct (co_parent s Hok _ _ _ Hn Hp) as (q & Hq & _). eauto.
Qed.

(** The ancestors of a row form a chain. *)
Lemma subtree_chain a b x : subtree s a x -> subtree s b x -> subtree s a b \/ subtree s b a.
Proof.
  intros Ha. revert b x Ha. refine (fun b => rtc_ind_r _ a _ _); [by right|].
  intros y z Hay Hyz IH Hb.
  apply rtc_inv_r in Hb as [<-|(w & Hbw & Hwz)]; [left; by eapply rtc_r|].
  rewrite (child_unique _ _ _ Hwz Hyz) in Hbw. by apply IH.
Qed.

Lemma below_children a x : below s a x <-> exists c, child s a c /\ subtree s c x.
Proof.
  split.
  - destruct 1 as [a x H|a c x H Hcx]; eexists; (split; [exact H|]); [done|by apply tc_rtc].
  - intros (c & Hac & Hcx). eapply tc_rtc_r; [by apply tc_once|done].
Qed.

Lemma subtree_below a x : subtree s a x <-> a = x \/ below s a x.
Proof. apply rtc_tc. Qed.

Lemma below_present x y : below s x y -> is_Some (components s !! x) /\ is_Some (components s !! y).
Proof.
  induction 1 as [x y H|x y z H _ [_ IH]]; [by apply child_present|].
  destruct (child_present _ _ H). by split.
Qed.
End Forest.

(** ** Depth of the recursion *)

(** Below [id] the calls nest at most [n] deep. *)
Inductive height (s : InMemoryStore) : nat -> string -> Prop :=
  | height_intro n id : (forall c, child s id c -> height s n c) -> height s (S n) id.

Lemma height_mono s s' n id :
  (forall x y, child s' x y -> child s x y) -> height s n id -> height s' n id.
Proof. intros Hsub. induction 1 as [n id _ IH]. constructor. intros c Hc. by apply IH, Hsub. Qed.

(** The calls made so far are the strict ancestors of the current one, so they
    are distinct rows. *)
Lemma height_path s fuel id path :
  components_ok s -> NoDup path -> (forall x, x ∈ path -> below s x id) ->
  base.size (components s) < fuel + length path -> height s fuel id.
Proof.
  intros Hok. revert id path. induction fuel as [|fuel IH]; intros id path Hnd Hbelow Hlen.
  - exfalso. assert (length path <= length (map_to_list (components s)).*1) as Hle.
    { apply NoDup_subset_length; [done|]. intros x Hx.
      destruct (below_present s Hok _ _ (Hbelow x Hx)) as [[c Hc] _].
      apply list_elem_of_fmap. exists (x, c). split; [done|]. by apply elem_of_map_to_list. }
    rewrite length_fmap, length_map_to_list in Hle. lia.
  - constructor. intros c Hc. apply (IH c (id :: path)); [| |simpl; lia].
    + constructor; [|done]. intros Hin. by apply (below_acyclic s Hok id), Hbelow.
    + intros x [->|Hx]%elem_of_cons; [by apply tc_once|]. eapply tc_r; [by apply Hbelow|done].
Qed.

Lemma height_depth s id : components_ok s -> height s (depth s) id.
Proof.
  intros Hok. apply (height_path s _ _ []); [done|constructor| |unfold depth; simpl; lia].
  intros x Hx%not_elem_of_nil. done.
Qed.

(** ** [hasDescendant] is reachability *)

Lemma any_of_ok {A} (f : A -> Result bool) (P : A -> Prop) l :
  (forall x, x ∈ l -> exists b, f x = Ok b /\ (b = true <-> P x)) ->
  exists b, any_of f l = Ok b /\ (b = true <-> exists x, x ∈ l /\ P x).
Proof.
  induction l as [|x l IH]; intros Hf; simpl.
  { exists false. split; [done|]. split; [done|]. by intros (x & ?%not_elem_of_nil & _). }
  destruct (Hf x (list_elem_of_here _ _)) as (b & -> & Hb). simpl. destruct b.
  - exists true. split; [done|]. split; [|done]. intros _. exists x.
    split; [apply list_elem_of_here|by apply Hb].
  - destruct IH as (b & -> & Hb'); [intros y Hy; by apply Hf, list_elem_of_further|].
    exists b. split; [done|]. rewrite Hb'. split.
    + intros (y & Hy & HP). exists y. split; [by apply list_elem_of_further|done].
    + intros (y & [->|Hy]%elem_of_cons & HP); [|by eauto]. by apply Hb in HP.
Qed.

Lemma hasDescendant_run s n a x :
  components_ok s -> height s n a ->
  exists b, hasDescendant n s a x = Ok b /\ (b = true <-> below s a x).
Proof.
  intros Hok Hh. revert x. induction Hh as [n a Hc IH]; intros x. cbn [hasDescendant].
  setoid_rewrite below_children. destruct (components_by_parent s !! a) as [l|] eqn:Hl.
  - destruct (any_of_ok (fun c => if String.eqb c x then Ok true else hasDescendant n s c x)
                (fun c => subtree s c x) l) as (b & -> & Hb).
    + intros c Hin. assert (child s a c) as Hac.
      { apply (child_bucket s Hok). by rewrite (bucket_some _ _ _ Hl). }
      destruct (String.eqb_spec c x) as [->|Hne]; [exists true; split; [done|]; split; [|done]; by intros|].
      destruct (IH c Hac x) as (b & -> & Hb). exists b. split; [done|].
      rewrite Hb, subtree_below. split; [by right|]. by intros [?|?].
    + exists b. split; [done|]. rewrite Hb. split; intros (c & Hin & Hcx); exists c; split; try done.
      * apply (child_bucket s Hok). by rewrite (bucket_some _ _ _ Hl).
      * apply (child_bucket s Hok) in Hin. by rewrite (bucket_some _ _ _ Hl) in Hin.
  - exists false. split; [done|]. split; [done|]. intros (c & Hac & _).
    apply (child_bucket s Hok) in Hac. rewrite (bucket_none _ _ Hl) in Hac.
    by apply not_elem_of_nil in Hac.
Qed.

Lemma hasDescendant_depth s a x :
  components_ok s -> exists b, hasDescendant (depth s) s a x = Ok b /\ (b = true <-> below s a x).
Proof. intros Hok. by apply hasDescendant_run, height_depth. Qed.

Lemma below_decide s a x : components_ok s -> {below s a x} + {~ below s a x}.
Proof.
  intros Hok. destruct (hasDescendant (depth s) s a x) as [[]|e|e|] eqn:H; [left|right|exfalso..].
  all: destruct (hasDescendant_depth s a x Hok) as (b & Hb & Hiff); rewrite H in Hb; simplify_eq.
  - by apply Hiff.
  - intros Hx. by apply Hiff in Hx.
Qed.

(** ** Row-level changes and the invariant *)

Definition add_row (c : ComponentNode) (s : InMemoryStore) : InMemoryStore :=
  s <| components ::= <[cmp_id c := c]> |>
    <| components_by_page ::= link (cmp_pageId c) (cmp_id c) |>
    <| components_by_parent ::= link_opt (cmp_parentId c) (cmp_id c) |>.

Definition remove_row (id : string) (c : ComponentNode) (s : InMemoryStore) : InMemoryStore :=
  s <| components_by_parent ::= unlink_opt (cmp_parentId c) id |>
    <| components_by_page ::= unlink (cmp_pageId c) id |>
    <| components ::= delete id |>.

(** The row [c] under [id] is replaced by [c'], of the same page. *)
Definition replace_row (id : string) (c c' : ComponentNode) (s : InMemoryStore) : InMemoryStore :=
  s <| components ::= <[id := c']> |>
    <| components_by_parent ::= fun m => link_opt (cmp_parentId c') id (unlink_opt (cmp_parentId c) id m) |>.

Definition valid_row (c : ComponentNode) : Prop :=
  isValidComponentType (cmp_type c) = true /\ isValidComponentOrder (cmp_order c) = true.

Lemma remove_row_ok s id c :
  components_ok s -> components s !! id = Some c -> (forall x, ~ child s id x) ->
  components_ok (remove_row id c s).
Proof.
  intros Hok Hc Hleaf. assert (forall p x, child (remove_row id c s) p x -> child s p x) as Hsub.
  { intros p x (n & Hn & Hp). simpl in Hn. apply lookup_delete_Some in Hn as [_ Hn]. by exists n. }
  split; simpl.
  - apply Hok.
  - intros x n [_ Hn]%lookup_delete_Some. by apply (co_ids s Hok).
  - intros x n [_ Hn]%lookup_delete_Some. by apply (co_valid s Hok x).
  - intros x n p [_ Hn]%lookup_delete_Some Hp.
    destruct (co_parent s Hok _ _ _ Hn Hp) as (q & Hq & ?). exists q. split; [|done].
    rewrite lookup_delete_ne; [done|]. intros ->. apply (Hleaf x). by exists n.
  - by apply multi_ok_remove; [apply Hok|].
  - apply (multi_ok_remove by_page_key _ _ id c); [apply Hok|done].
  - destruct (co_acyclic s Hok) as [rank Hr]. exists rank. auto.
Qed.

Lemma add_row_ok s c :
  components_ok s -> issued "component" (component_counter s) (cmp_id c) ->
  components s !! cmp_id c = None -> valid_row c ->
  (forall p, cmp_parentId c = Some p -> exists q, components s !! p = Some q /\ cmp_pageId q = cmp_pageId c) ->
  components_ok (add_row c s).
Proof.
  intros Hok Hid Hnew Hvalid Hpar.
  assert (forall p x, child (add_row c s) p x -> (x = cmp_id c /\ cmp_parentId c = Some p) \/ child s p x)
    as Hchild.
  { intros p x (n & Hn & Hp). simpl in Hn. apply lookup_insert_Some in Hn as [[<- <-]|[_ Hn]]; [by left|].
    right. by exists n. }
  split; simpl.
  - apply Hok.
  - intros x n [[<- <-]|[_ Hn]]%lookup_insert_Some; [done|by apply (co_ids s Hok)].
  - intros x n [[<- <-]|[_ Hn]]%lookup_insert_Some; [done|by apply (co_valid s Hok x)].
  - intros x n p Hn Hp.
    assert (exists q, components s !! p = Some q /\ cmp_pageId q = cmp_pageId n) as (q & Hq & ?).
    { apply lookup_insert_Some in Hn as [[<- <-]|[_ Hn]]; [by apply Hpar|].
      by apply (co_parent s Hok x). }
    exists q. split; [|done]. rewrite lookup_insert_ne; [done|]. intros <-. congruence.
  - by apply multi_ok_add; [apply Hok|].
  - by apply (multi_ok_add by_page_key _ _ _ c); [apply Hok|].
  - destruct (co_acyclic s Hok) as [rank Hr].
    exists (fun x => if decide (x = cmp_id c)
                     then match cmp_parentId c with Some p => S (rank p) | None => 0 end
                     else rank x).
    intros p x [[-> Hp]|Hpx]%Hchild.
    + rewrite (decide_True (P := cmp_id c = cmp_id c)) by done. rewrite Hp.
      destruct (Hpar _ Hp) as (q & Hq & _). rewrite decide_False by congruence. lia.
    + destruct (child_present s Hok _ _ Hpx) as [[] []].
      rewrite !decide_False by congruence. by apply Hr.
Qed.

Lemma replace_row_ok s id c c' :
  components_ok s -> components s !! id = Some c ->
  cmp_id c' = cmp_id c -> cmp_pageId c' = cmp_pageId c -> valid_row c' ->
  (forall p, cmp_parentId c' = Some p -> p <> id /\ ~ below s id p /\
     exists q, components s !! p = Some q /\ cmp_pageId q = cmp_pageId c) ->
  components_ok (replace_row id c c' s).
Proof.
  intros Hok Hc Hid Hpage Hvalid Hpar.
  assert (forall p x, child (replace_row id c c' s) p x ->
            (x = id /\ cmp_parentId c' = Some p) \/ child s p x) as Hchild.
  { intros p x (n & Hn & Hp). simpl in Hn. apply lookup_insert_Some in Hn as [[<- <-]|[_ Hn]]; [by left|].
    right. by exists n. }
  split; simpl.
  - apply Hok.
  - intros x n [[<- <-]|[_ Hn]]%lookup_insert_Some; [rewrite Hid|]; by apply (co_ids s Hok).
  - intros x n [[<- <-]|[_ Hn]]%lookup_insert_Some; [done|by apply (co_valid s Hok x)].
  - intros x n p Hn Hp.
    assert (exists q, components s !! p = Some q /\ cmp_pageId q = cmp_pageId n) as (q & Hq & Hqn).
    { apply lookup_insert_Some in Hn as [[<- <-]|[_ Hn]]; [|by apply (co_parent s Hok x)].
      rewrite Hpage. by apply Hpar. }
    destruct (decide (p = id)) as [->|Hne].
    + exists c'. rewrite lookup_insert_eq. split; [done|]. congruence.
    + exists q. by rewrite lookup_insert_ne.
  - by apply multi_ok_rekey; [apply Hok|].
  - eapply multi_ok_same; [apply Hok|done|]. unfold by_page_key. congruence.
  - destruct (co_acyclic s Hok) as [rank Hr]. destruct (cmp_parentId c') as [np|] eqn:Hnp.
    + destruct (Hpar np eq_refl) as (Hne & Hnb & _).
      exists (fun x => if decide (x = id) then rank x + S (rank np)
                       else if below_decide s id x Hok then rank x + S (rank np) else rank x).
      intros p x [[-> [= <-]]|Hpx]%Hchild.
      * rewrite decide_False by done. rewrite decide_True by done.
        destruct (below_decide s id np Hok); [done|lia].
      * pose proof (Hr _ _ Hpx). repeat case_decide; subst.
        all: repeat match goal with |- context [below_decide ?s ?a ?x ?H] =>
                      destruct (below_decide s a x H) end; try lia.
        -- assert (below s id x) by by apply tc_once. done.
        -- assert (below s id x) by by eapply tc_r. done.
    + exists rank. intros p x [[_ ?]|Hpx]%Hchild; [done|by apply Hr].
Qed.

(** ** Deleting a subtree *)

(** [s'] is [s] without the rows that satisfy [D]. *)
Definition pruned (s s' : InMemoryStore) (D : string -> Prop) : Prop :=
  components_ok s' /\ components_only s s' /\ component_counter s' = component_counter s /\
  forall x, (components s' !! x = None /\ D x) \/ (components s' !! x = components s !! x /\ ~ D x).

Lemma pruned_child s s' D x y : pruned s s' D -> child s' x y -> child s x y.
Proof.
  intros (_ & _ & _ & HD) (n & Hn & Hp). exists n.
  destruct (HD y) as [[? _]|[Heq _]]; [congruence|]. by rewrite <- Heq.
Qed.

Lemma pruned_subtree s s' D c x :
  (forall y z, child s y z -> D y -> D z) -> pruned s s' D -> subtree s c x -> D x \/ subtree s' c x.
Proof.
  intros Hdown Hpr. revert x. refine (rtc_ind_r _ c _ _); [by right|].
  intros y z _ Hyz [HD|Hsub]; [left; by eapply Hdown|].
  destruct Hpr as (_ & _ & _ & HD). destruct (HD z) as [[_ ?]|[Heq _]]; [by left|right].
  eapply rtc_r; [done|]. destruct Hyz as (n & Hn & Hp). exists n. by rewrite Heq.
Qed.

Lemma pruned_trans s s1 s2 D1 D2 D :
  pruned s s1 D1 -> pruned s1 s2 D2 -> (forall x, D x <-> D1 x \/ D2 x) -> pruned s s2 D.
Proof.
  intros (_ & Hf1 & Hc1 & H1) (Hok & Hf2 & Hc2 & H2) HD. split; [done|].
  split; [by transitivity s1|]. split; [congruence|].
  intros x. rewrite HD. destruct (H2 x) as [[-> ?]|[-> ?]]; [auto|].
  destruct (H1 x) as [[-> ?]|[-> ?]]; [auto|]. right. tauto.
Qed.

Lemma pruned_iff s s' D D' : pruned s s' D -> (forall x, D' x <-> D x) -> pruned s s' D'.
Proof.
  intros (? & ? & ? & H) HD. split; [done|]. split; [done|]. split; [done|].
  intros x. by rewrite HD.
Qed.

Lemma pruned_refl s D : components_ok s -> (forall x, ~ D x) -> pruned s s D.
Proof. intros Hok HD. split; [done|]. split; [done|]. split; [done|]. intros x. right. auto. Qed.

Lemma remove_row_pruned s id c :
  components_ok s -> components s !! id = Some c -> (forall x, ~ child s id x) ->
  pruned s (remove_row id c s) (fun x => x = id).
Proof.
  intros Hok Hc Hleaf. split; [by apply remove_row_ok|]. split; [red; reflexivity|].
  split; [done|]. intros x. simpl. destruct (decide (id = x)) as [<-|Hne].
  - left. split; [apply lookup_delete_eq|done].
  - right. split; [by apply lookup_delete_ne|by intros ->].
Qed.

Lemma cascade_children s n l :
  (forall s id, components_ok s -> height s n id ->
     exists s', cascadeDeleteComponent n id s = (Ok tt, s') /\ pruned s s' (subtree s id)) ->
  components_ok s -> (forall c, c ∈ l -> height s n c) ->
  exists s', forM l (cascadeDeleteComponent n) s = (Ok tt, s') /\
             pruned s s' (fun x => exists c, c ∈ l /\ subtree s c x).
Proof.
  intros Hdel. revert s; induction l as [|c l IH]; intros s Hok Hl; cbn [forM].
  { exists s. split; [done|]. apply pruned_refl; [done|]. by intros x (c & ?%not_elem_of_nil & _). }
  destruct (Hdel s c Hok (Hl c (list_elem_of_here _ _))) as (s1 & Hrun1 & Hpr1).
  destruct (IH s1) as (s2 & Hrun2 & Hpr2).
  { apply Hpr1. }
  { intros c' Hc'. apply (height_mono s); [|by apply Hl, list_elem_of_further].
    intros x y. by eapply pruned_child. }
  exists s2. unfold mbind, Op_bind. rewrite Hrun1. split; [done|].
  eapply pruned_trans; [exact Hpr1|exact Hpr2|]. intros x. split.
  - intros (c' & [->|Hin]%elem_of_cons & Hx); [by left|].
    destruct (pruned_subtree s s1 (subtree s c) c' x) as [?|?]; eauto.
    intros y z Hyz Hy. by eapply rtc_r.
  - intros [Hx|(c' & Hin & Hx)]; [by exists c; split; [apply list_elem_of_here|]|].
    exists c'. split; [by apply list_elem_of_further|]. eapply (rtc_subrel (child s1)); [|exact Hx].
    intros y z. by eapply pruned_child.
Qed.

(** Once the children are gone, what is left of [cascadeDeleteComponent]. *)
Lemma cascade_row s id c :
  components s !! id = Some c ->
  (component ← deref components id;
   when_some (cmp_parentId component) (fun p => removeComponentFromParent p id);;
   removeComponentFromPage (cmp_pageId component) id;;
   modify (fun s => s <| components ::= delete id |>)) s = (Ok tt, remove_row id c s).
Proof.
  intros Hc. unfold deref, mbind, Op_bind. rewrite Hc.
  unfold remove_row. by destruct (cmp_parentId c).
Qed.

Lemma cascade_run n s id :
  components_ok s -> height s n id ->
  exists s', cascadeDeleteComponent n id s = (Ok tt, s') /\ pruned s s' (subtree s id).
Proof.
  revert s id; induction n as [|n IH]; intros s id Hok Hh; [by inversion Hh|].
  inversion Hh as [? ? Hc]; subst. cbn [cascadeDeleteComponent].
  destruct (components s !! id) as [c|] eqn:Hid.
  2: { exists s. split; [done|]. split; [done|]. split; [done|]. split; [done|]. intros x.
       destruct (decide (x = id)) as [->|Hne]; [left; by split|right].
       split; [done|]. intros [->|Hb]%subtree_below; [done|].
       destruct (below_present s Hok _ _ Hb) as [[] _]; congruence. }
  assert (exists s1, when_some (components_by_parent s !! id) (fun children =>
             forM children (cascadeDeleteComponent n);;
             modify (fun s => s <| components_by_parent ::= delete id |>)) s = (Ok tt, s1) /\
           pruned s s1 (below s id)) as (s1 & Hrun & Hpr).
  { destruct (components_by_parent s !! id) as [l|] eqn:Hl; cbn [when_some].
    - destruct (cascade_children s n l IH Hok) as (s1 & Hrun & Hpr).
      { intros x Hx. apply Hc, (child_bucket s Hok). by rewrite (bucket_some _ _ _ Hl). }
      exists s1. assert (pruned s s1 (below s id)) as Hpr'.
      { eapply pruned_iff; [exact Hpr|]. intros x. rewrite below_children.
        split; intros (y & Hy & Hyx); exists y; (split; [|done]).
        - apply (child_bucket s Hok) in Hy. by rewrite (bucket_some _ _ _ Hl) in Hy.
        - apply (child_bucket s Hok). by rewrite (bucket_some _ _ _ Hl). }
      split; [|done]. unfold mbind, Op_bind. rewrite Hrun. unfold modify. do 2 f_equal.
      assert (components_by_parent s1 !! id = None) as Hnone.
      { eapply multi_ok_absent; [apply Hpr'|]. intros x m Hm Hp.
        destruct Hpr' as (_ & _ & _ & HD). destruct (HD x) as [[? _]|[Heq Hnb]]; [congruence|].
        apply Hnb, tc_once. exists m. by rewrite <- Heq. }
      unfold assign; simpl. rewrite delete_id by done. by destruct s1.
    - exists s. split; [done|]. apply pruned_refl; [done|]. intros x (y & Hy & _)%below_children.
      apply (child_bucket s Hok) in Hy. rewrite (bucket_none _ _ Hl) in Hy.
      by apply not_elem_of_nil in Hy. }
  unfold mbind at 1, Op_bind at 1. rewrite Hrun.
  destruct Hpr as (Hok1 & Hf1 & Hc1 & HD1).
  assert (components s1 !! id = Some c) as Hid1.
  { destruct (HD1 id) as [[_ Hb]|[-> _]]; [by apply below_acyclic in Hb|done]. }
  rewrite (cascade_row _ _ _ Hid1). eexists; split; [done|].
  eapply pruned_trans; [by split|apply remove_row_pruned; try done|].
  - intros x Hx. assert (child s id x) as Hx' by (eapply pruned_child; [by split|done]).
    destruct Hx as (m & Hm & _). destruct (HD1 x) as [[? _]|[_ Hnb]]; [congruence|].
    by apply Hnb, tc_once.
  - intros x. rewrite subtree_below. naive_solver.
Qed.

(** ** Footprint *)

Lemma cascade_frame n id : frame components_only (cascadeDeleteComponent n id).
Proof.
  revert id; induction n as [|n IH]; intros id s; cbn [cascadeDeleteComponent]; [reflexivity|].
  destruct (components s !! id); [|reflexivity].
  match goal with |- components_only s (?m s).2 => assert (frame components_only m) as H end; [|apply H].
  unfold removeComponentFromParent, removeComponentFromPage. solve_frame.
Qed.
#[export] Hint Resolve cascade_frame : dbal.

Lemma create_frame input : frame components_only (create input).
Proof. unfold create, addComponentToPage, addComponentToParent. solve_frame. Qed.
Lemma get_pure id : pure_op (get id).
Proof. unfold get. auto with dbal. Qed.
Lemma update_frame id input : frame components_only (update id input).
Proof. unfold update, set_component, addComponentToParent, removeComponentFromParent. solve_frame. Qed.
Lemma remove_frame id : frame components_only (remove id).
Proof. unfold remove. solve_frame. Qed.
Lemma move_frame input : frame components_only (move input).
Proof.
  unfold move, set_component, addComponentToParent, removeComponentFromParent.
  destruct (is_empty (mc_newParentId input)); cbn [negb]; solve_frame.
Qed.
Lemma reorder_check_pure updates scope : pure_op (reorder_check updates scope).
Proof.
  revert scope; induction updates as [|u us IH]; intros scope; cbn [reorder_check]; [by auto with dbal|].
  repeat (apply pure_bind; [by auto with dbal|intros ?]). destruct scope; [|apply IH].
  apply pure_bind; [by auto with dbal|intros _; apply IH].
Qed.
#[export] Hint Resolve create_frame get_pure update_frame remove_frame move_frame
  reorder_check_pure : dbal.
Lemma reorder_frame updates : frame components_only (reorder updates).
Proof.
  unfold reorder, set_component. destruct updates; solve_frame.
Qed.
#[export] Hint Resolve reorder_frame : dbal.

Section PureListings.
Context `{!StdSort}.
Lemma getChildren_pure p t l : pure_op (getChildren p t l).
Proof. unfold getChildren. auto with dbal. Qed.
Lemma getTree_pure p : pure_op (getTree p).
Proof. unfold getTree. auto with dbal. Qed.
Lemma list_components_pure o : pure_op (list_components o).
Proof. unfold list_components. auto with dbal. Qed.
Lemma search_pure q p l : pure_op (search q p l).
Proof. unfold search. auto with dbal. Qed.
End PureListings.
#[export] Hint Resolve getChildren_pure getTree_pure list_components_pure search_pure : dbal.

(** ** The invariant is kept *)

Lemma create_tail c s :
  (modify (fun s => s <| components ::= <[cmp_id c := c]> |>);;
   addComponentToPage (cmp_pageId c) (cmp_id c);;
   when_some (cmp_parentId c) (fun p => addComponentToParent p (cmp_id c));;
   mret c) s = (Ok c, add_row c s).
Proof. unfold add_row. by destruct (cmp_parentId c), s. Qed.

Lemma create_ok input : preserves components_ok (create input).
Proof.
  apply triple_preserves. unfold create.
  apply triple_reject_then; [done|intros _].
  apply triple_reject_then; [done|intros Ht%negb_false_iff].
  apply triple_reject_then; [done|intros Ho%negb_false_iff].
  apply triple_find_then; [done|intros page].
  apply (triple_weaken _ components_ok); [|by intros s []].
  apply (triple_seq _ _ (fun s => components_ok s /\ (forall p, cc_parentId input = Some p ->
    exists q, components s !! p = Some q /\ cmp_pageId q = cc_pageId input))).
  { destruct (cc_parentId input) as [p|]; simpl; [|by apply triple_ret].
    apply triple_find_then; [done|intros q].
    intros s [Hok Hq]. unfold reject_if.
    destruct (String.eqb_spec (cmp_pageId q) (cc_pageId input)); simpl; [|done].
    split; [done|]. intros ? [= <-]. by exists q. }
  apply triple_incr_then; [by intros s []|intros n s (s0 & [Hok Hpar] & Hmax & -> & ->)].
  cbv zeta. rewrite create_tail. pose proof (co_counter s0 Hok) as Hc.
  apply add_row_ok; [|apply issued_next; lia| |done|exact Hpar].
  - destruct Hok. split; try done; simpl; [unfold INT_MAX in *; lia|].
    intros id c Hid. destruct (co_ids0 id c Hid) as [? Hiss]. split; [done|].
    eapply issued_mono; [|exact Hiss]. lia.
  - cbn [cmp_id]. change (components s0 !! generateId "component" (component_counter s0 + 1) = None).
    destruct (components s0 !! _) eqn:Hid; [exfalso|done].
    apply (issued_fresh "component" (component_counter s0)); [simpl; lia|lia|].
    by eapply (co_ids s0 Hok).
Qed.

(** Assigning fields that no index depends on. *)
Lemma set_component_ok id f s :
  components_ok s ->
  (forall c, cmp_id (f c) = cmp_id c /\ cmp_pageId (f c) = cmp_pageId c /\
             cmp_parentId (f c) = cmp_parentId c) ->
  (forall c, valid_row c -> valid_row (f c)) ->
  components_ok (s <| components ::= alter f id |>).
Proof.
  intros Hok Hf Hv. assert (forall x c', alter f id (components s) !! x = Some c' ->
      exists c, components s !! x = Some c /\ cmp_id c' = cmp_id c /\ cmp_pageId c' = cmp_pageId c /\
        cmp_parentId c' = cmp_parentId c /\ (valid_row c -> valid_row c')) as Hback.
  { intros x c' Hx. apply lookup_alter_Some in Hx as [(-> & c & Hc & ->)|[_ Hx]].
    - exists c. split; [done|]. destruct (Hf c) as (? & ? & ?). by repeat (split; [done|]); auto.
    - by exists c'. }
  assert (forall key, (forall c, key (f c) = key c) ->
      forall (m : gmap string (list string)), multi_ok key (components s) m ->
      multi_ok key (alter f id (components s)) m) as Hmulti.
  { intros key Hk m Hm. destruct (components s !! id) as [c|] eqn:Hid.
    - assert (alter f id (components s) = <[id := f c]> (components s)) as ->.
      { apply map_eq. intros x. rewrite lookup_alter, lookup_insert. case_decide; [|done].
        subst. by rewrite Hid. }
      eapply multi_ok_same; [done|exact Hid|apply Hk].
    - rewrite alter_id; [done|]. intros c Hc. congruence. }
  split; simpl.
  - apply Hok.
  - intros x c' Hx. destruct (Hback _ _ Hx) as (c & Hc & -> & _). by apply (co_ids s Hok).
  - intros x c' Hx. destruct (Hback _ _ Hx) as (c & Hc & _ & _ & _ & Hvc).
    by eapply Hvc, (co_valid s Hok).
  - intros x c' p Hx Hp. destruct (Hback _ _ Hx) as (c & Hc & _ & Hpg & Hpa & _).
    rewrite Hpa in Hp. destruct (co_parent s Hok _ _ _ Hc Hp) as (q & Hq & Hqp).
    destruct (decide (p = id)) as [->|Hne].
    + exists (f q). rewrite lookup_alter_eq, Hq. split; [done|]. destruct (Hf q) as (_ & -> & _). congruence.
    + exists q. rewrite lookup_alter_ne by done. split; [done|congruence].
  - apply Hmulti; [|apply Hok]. intros c. apply Hf.
  - apply Hmulti; [|apply Hok]. intros c. unfold by_page_key. f_equal. apply Hf.
  - destruct (co_acyclic s Hok) as [rank Hr]. exists rank. intros p x (c' & Hx & Hp).
    destruct (Hback _ _ Hx) as (c & Hc & _ & _ & Hpa & _). apply Hr. exists c. by rewrite <- Hpa.
Qed.

Lemma set_component_triple id f E :
  (forall c, cmp_id (f c) = cmp_id c /\ cmp_pageId (f c) = cmp_pageId c /\
             cmp_parentId (f c) = cmp_parentId c) ->
  (forall c, valid_row c -> valid_row (f c)) ->
  triple (fun s => components_ok s /\ is_Some (components s !! id)) (set_component id f)
    (fun _ s => components_ok s /\ is_Some (components s !! id)) E.
Proof.
  intros Hf Hv. apply triple_modify. intros s [Hok Hid]. split; [by apply set_component_ok|].
  simpl. by rewrite lookup_alter_eq, fmap_is_Some.
Qed.

Lemma hasDescendant_false s a x :
  components_ok s -> hasDescendant (depth s) s a x = Ok false -> ~ below s a x.
Proof.
  intros Hok H. destruct (hasDescendant_depth s a x Hok) as (b & Hb & Hiff).
  rewrite H in Hb. injection Hb as <-. intros Hx. by apply Hiff in Hx.
Qed.

Lemma replace_row_eq id c c' s m :
  m = <[id := c']> (components s) ->
  s <| components := m |> <| components_by_parent ::=
      fun b => link_opt (cmp_parentId c') id (unlink_opt (cmp_parentId c) id b) |>
  = replace_row id c c' s.
Proof. by intros ->. Qed.

(** The parent assignment of [update], once its checks have passed. *)
Lemma update_reparent_run s id c np :
  components s !! id = Some c ->
  (when_some (cmp_parentId c) (fun p => removeComponentFromParent p id);;
   set_component id (fun c => c <| cmp_parentId := Some np |>);;
   addComponentToParent np id) s
  = (Ok tt, replace_row id c (c <| cmp_parentId := Some np |>) s).
Proof.
  intros Hc. rewrite <- (replace_row_eq _ _ _ _ _
    (alter_insert_some (fun c => c <| cmp_parentId := Some np |>) _ _ _ Hc)).
  by destruct (cmp_parentId c).
Qed.

Lemma update_ok id input : preserves components_ok (update id input).
Proof.
  apply triple_preserves. unfold update.
  apply triple_reject_then; [done|intros _].
  apply triple_find_then; [done|intros c0].
  set (I := fun s => components_ok s /\ is_Some (components s !! id)).
  apply (triple_weaken _ I); [|intros s [Hok Hc]; split; eauto].
  apply (triple_when_then _ _ _ I); [done| |].
  { intros t _. apply triple_reject_then; [by intros s []|intros Ht%negb_false_iff].
    apply set_component_triple; [done|]. by intros c []. }
  apply (triple_when_then _ _ _ I); [done| |].
  { intros o _. apply triple_reject_then; [by intros s []|intros Ho%negb_false_iff].
    apply set_component_triple; [done|]. by intros c []. }
  apply (triple_when_then _ _ _ I); [done| |].
  { intros l _. by apply set_component_triple. }
  apply (triple_when_then _ _ _ I); [done| |].
  2: { apply triple_deref. intros s [Hok [c Hc]]. eauto. }
  intros np _. apply triple_reject_then; [by intros s []|intros _].
  apply triple_reject_then; [by intros s []|intros Hne%String.eqb_neq].
  apply triple_find_then; [by intros s []|intros q].
  eapply triple_bind; [apply (triple_deref _ _ _ (fun c s => I s /\ components s !! np = Some q /\
    components s !! id = Some c))|intros c].
  { intros s [[Hok [c Hc]] Hq]. exists c. split; [done|]. split; [split; eauto|done]. }
  apply triple_reject_then; [by intros s [[] _]|intros Hpg%negb_false_iff%String.eqb_eq].
  apply triple_reads_then; [by intros r s [[] _]|intros below_].
  apply triple_reject_then; [by intros s [[[] _] _]|intros ->].
  intros s [([Hok _] & Hq & Hc) Hnb]. apply (hasDescendant_false s id np Hok) in Hnb.
  rewrite (update_reparent_run s id c np Hc). split; [|simpl; rewrite lookup_insert_eq; eauto].
  apply replace_row_ok; [done|done|done|done|exact (co_valid s Hok id c Hc)|].
  intros p [= <-]. split; [done|]. split; [done|]. by exists q.
Qed.

Lemma remove_ok id : preserves components_ok (remove id).
Proof.
  apply triple_preserves. unfold remove.
  apply triple_reject_then; [done|intros _]. apply triple_find_then; [done|intros c].
  apply triple_gets_then; intros n. intros s [[Hok _] <-].
  destruct (cascade_run (depth s) s id Hok (height_depth s id Hok)) as (s' & Hrun & Hpr).
  unfold mbind, Op_bind. rewrite Hrun. apply Hpr.
Qed.

(** What a component becomes when it is moved. *)
Definition moved (input : MoveComponentInput) (c : ComponentNode) : ComponentNode :=
  c <| cmp_parentId := if is_empty (mc_newParentId input) then None else Some (mc_newParentId input) |>
    <| cmp_order := mc_order input |>.

(** The assignments of [move], once its checks have passed. *)
Lemma move_run s input c :
  components s !! mc_id input = Some c -> cmp_id c = mc_id input ->
  (when_some (cmp_parentId c) (fun p => removeComponentFromParent p (cmp_id c));;
   (if negb (is_empty (mc_newParentId input)) then
      addComponentToParent (mc_newParentId input) (cmp_id c);;
      set_component (mc_id input) (fun c => c <| cmp_parentId := Some (mc_newParentId input) |>)
    else set_component (mc_id input) (fun c => c <| cmp_parentId := None |>));;
   set_component (mc_id input) (fun c => c <| cmp_order := mc_order input |>);;
   deref components (mc_id input)) s
  = (Ok (moved input c), replace_row (mc_id input) c (moved input c) s).
Proof.
  intros Hc Hid. rewrite Hid.
  assert (forall f, alter (fun c => c <| cmp_order := mc_order input |>) (mc_id input)
            (alter f (mc_id input) (components s)) =
          <[mc_id input := (f c) <| cmp_order := mc_order input |>]> (components s)) as Halter.
  { intros f. rewrite (alter_insert_some f _ _ _ Hc).
    rewrite (alter_insert_some _ _ _ (f c)) by apply lookup_insert_eq. apply insert_insert_eq. }
  pose proof (replace_row_eq _ c (moved input c) _ _ (Halter (fun c => c <| cmp_parentId :=
    if is_empty (mc_newParentId input) then None else Some (mc_newParentId input) |>))) as Hrow.
  rewrite <- Hrow.
  assert (forall s' : InMemoryStore, components s' !! mc_id input = Some (moved input c) ->
    deref components (mc_id input) s' = (Ok (moved input c), s')) as Hderef.
  { intros s' Hs'. unfold deref. by rewrite Hs'. }
  specialize (Hderef _ (eq_trans (f_equal (fun s => components s !! mc_id input) Hrow)
                           (lookup_insert_eq _ _ _))).
  rewrite <- Hderef. unfold moved. by destruct (is_empty (mc_newParentId input)), (cmp_parentId c).
Qed.

(** The moves that are accepted: [c] is the row of the component, and a new
    parent, if given, is another row of the same page outside its subtree. *)
Definition move_allowed (s : InMemoryStore) (input : MoveComponentInput) (c : ComponentNode) : Prop :=
  mc_id input <> "" /\ (0 <= mc_order input)%Z /\ components s !! mc_id input = Some c /\
  (mc_newParentId input <> "" ->
     mc_newParentId input <> mc_id input /\ ~ below s (mc_id input) (mc_newParentId input) /\
     exists q, components s !! mc_newParentId input = Some q /\ cmp_pageId q = cmp_pageId c).

Lemma move_cases s input :
  components_ok s ->
  (exists c, move_allowed s input c /\
     move input s = (Ok (moved input c), replace_row (mc_id input) c (moved input c) s)) \/
  ((forall c, ~ move_allowed s input c) /\ exists e, move input s = (Err e, s)).
Proof.
  intros Hok. unfold move. set (id := mc_id input). set (np := mc_newParentId input).
  rewrite run_reject. destruct (is_empty id) eqn:Hid.
  { right. split; [|eauto]. apply is_empty_true in Hid. by intros c (? & _). }
  apply is_empty_false in Hid.
  rewrite run_reject. destruct (Z.ltb_spec (mc_order input) 0) as [Ho|Ho].
  { right. split; [|eauto]. intros c (_ & ? & _). lia. }
  rewrite run_find. destruct (components s !! id) as [c|] eqn:Hc.
  2: { right. split; [|eauto]. intros c (_ & _ & Hc' & _). fold id in Hc'. congruence. }
  destruct (co_ids s Hok _ _ Hc) as [Hcid _].
  pose proof (move_run s input c Hc Hcid) as Hrun. rewrite Hcid in Hrun. fold id np in Hrun.
  rewrite run_reject, Hcid. destruct (String.eqb_spec np id) as [Heq|Hne].
  { right. split; [|eauto]. intros c0 (_ & _ & _ & Hp). by destruct Hp as [? _]; [fold np; by rewrite Heq|]. }
  destruct (is_empty np) eqn:Hnp; cbn [negb] in *.
  { left. exists c. split; [|exact Hrun]. split; [done|]. split; [done|]. split; [done|].
    apply is_empty_true in Hnp. by intros []. }
  apply is_empty_false in Hnp. rewrite run_assoc, run_find.
  destruct (components s !! np) as [q|] eqn:Hq.
  2: { right. split; [|eauto]. intros c0 (_ & _ & _ & Hp).
       destruct (Hp Hnp) as (_ & _ & q & Hq' & _). fold np in Hq'. congruence. }
  rewrite run_assoc, run_reject. destruct (String.eqb_spec (cmp_pageId q) (cmp_pageId c)) as [Hpg|Hpg].
  2: { right. split; [|eauto]. intros c0 (_ & _ & Hc0 & Hp). fold id in Hc0.
       destruct (Hp Hnp) as (_ & _ & q' & Hq' & ?). fold np in Hq'. congruence. }
  cbn [negb]. rewrite run_assoc, run_reads.
  destruct (hasDescendant_depth s id np Hok) as (b & -> & Hb).
  rewrite run_reject. destruct b.
  { right. split; [|eauto]. intros c0 (_ & _ & _ & Hp).
    destruct (Hp Hnp) as (_ & Hnb & _). by apply Hnb, Hb. }
  left. exists c. split; [|exact Hrun]. split; [done|]. split; [done|]. split; [done|]. intros _.
  split; [done|]. split; [|by exists q]. intros Hbel. by apply Hb in Hbel.
Qed.

Lemma moved_ok s input c :
  components_ok s -> move_allowed s input c ->
  components_ok (replace_row (mc_id input) c (moved input c) s).
Proof.
  intros Hok (_ & Ho & Hc & Hp). apply replace_row_ok; [done|done|done|done|..].
  - split; simpl; [apply (co_valid s Hok _ _ Hc)|]. unfold isValidComponentOrder. by apply Z.leb_le.
  - intros p. simpl. destruct (is_empty (mc_newParentId input)) eqn:He; [done|].
    intros [= <-]. by apply Hp, is_empty_false.
Qed.

Lemma move_ok input : preserves components_ok (move input).
Proof.
  intros s Hok. destruct (move_cases s input Hok) as [(c & Hall & ->)|(_ & e & ->)]; [|done].
  by apply moved_ok.
Qed.

(** ** Reordering *)

Definition set_order (o : Z) (c : ComponentNode) : ComponentNode := c <| cmp_order := o |>.

(** The rows an accepted reordering names: all present, under one parent. *)
Definition reorderable (s : InMemoryStore) (p : option string) (u : ComponentOrderUpdate) : Prop :=
  ou_id u <> "" /\ (0 <= ou_order u)%Z /\
  exists c, components s !! ou_id u = Some c /\ cmp_parentId c = p.

Lemma reorder_check_cases us scope s :
  (exists e, reorder_check us scope s = (Err e, s)) \/
  (reorder_check us scope s = (Ok tt, s) /\
   exists p, (forall p0, scope = Some p0 -> p = p0) /\ Forall (reorderable s p) us).
Proof.
  revert scope; induction us as [|u us IH]; intros scope; cbn [reorder_check].
  { right. split; [done|]. destruct scope as [p|]; [exists p|exists None]; by split; [naive_solver|]. }
  rewrite run_reject. destruct (is_empty (ou_id u)) eqn:Hid; [left; eauto|].
  apply is_empty_false in Hid.
  rewrite run_reject. destruct (Z.ltb_spec (ou_order u) 0) as [Ho|Ho]; [left; eauto|].
  rewrite run_find. destruct (components s !! ou_id u) as [c|] eqn:Hc; [|left; eauto].
  assert (reorderable s (cmp_parentId c) u) as Hu by (split; [done|]; split; [done|]; eauto).
  destruct scope as [p|].
  - rewrite run_reject. destruct (bool_decide (p = cmp_parentId c)) eqn:Hp; cbn [negb]; [|left; eauto].
    apply bool_decide_eq_true in Hp as ->.
    destruct (IH (Some (cmp_parentId c))) as [?|(Hrun & p & Hp & Hall)]; [by left|right].
    split; [done|]. rewrite (Hp _ eq_refl) in Hall. exists (cmp_parentId c).
    split; [naive_solver|by constructor].
  - destruct (IH (Some (cmp_parentId c))) as [?|(Hrun & p & Hp & Hall)]; [by left|right].
    split; [done|]. rewrite (Hp _ eq_refl) in Hall. exists (cmp_parentId c).
    split; [done|by constructor].
Qed.

(** The order the last update for [id] gives. *)
Definition last_order (id : string) (us : list ComponentOrderUpdate) : option Z :=
  foldl (fun o u => if String.eqb (ou_id u) id then Some (ou_order u) else o) None us.

Definition reordered (us : list ComponentOrderUpdate) (m : gmap string ComponentNode) :
    gmap string ComponentNode :=
  foldl (fun m u => alter (set_order (ou_order u)) (ou_id u) m) m us.

Lemma reorder_assign_run us s :
  forM us (fun u => set_component (ou_id u) (fun c => c <| cmp_order := ou_order u |>)) s
  = (Ok tt, s <| components := reordered us (components s) |>).
Proof.
  revert s; induction us as [|u us IH]; intros s; cbn [forM]; [by destruct s|].
  unfold mbind, Op_bind, set_component at 1, modify. rewrite IH. done.
Qed.

Lemma reordered_lookup us m id :
  reordered us m !! id =
    (match last_order id us with Some o => set_order o | None => fun c => c end) <$> m !! id.
Proof.
  unfold reordered, last_order. induction us as [|u us IH] using rev_ind; simpl.
  { by destruct (m !! id). }
  rewrite !foldl_snoc, lookup_alter. destruct (String.eqb_spec (ou_id u) id) as [<-|Hne].
  - rewrite decide_True, IH by done. destruct (m !! ou_id u) as [c|]; [|done].
    by destruct (foldl _ None us).
  - by rewrite decide_False, IH by done.
Qed.

Lemma reorder_cases us s :
  (exists e, reorder us s = (Err e, s)) \/
  (reorder us s = (Ok true, s <| components := reordered us (components s) |>) /\
   exists p, Forall (reorderable s p) us).
Proof.
  destruct us as [|u us]; [right; split; [by destruct s|by exists None]|].
  unfold reorder. destruct (reorder_check_cases (u :: us) None s) as [(e & Hc)|(Hc & p & _ & Hall)].
  - left. exists e. by apply run_bind_err.
  - right. split; [|by exists p]. rewrite (run_bind_ok _ _ _ _ _ Hc).
    by rewrite (run_bind_ok _ _ _ _ _ (reorder_assign_run _ _)).
Qed.

Lemma reordered_ok us s :
  components_ok s -> Forall (fun u => (0 <= ou_order u)%Z) us ->
  components_ok (s <| components := reordered us (components s) |>).
Proof.
  revert s; induction us as [|u us IH]; intros s Hok Hus; [by destruct s|].
  apply Forall_cons in Hus as [Hu Hus].
  set (s1 := s <| components ::= alter (set_order (ou_order u)) (ou_id u) |>).
  assert (s <| components := reordered (u :: us) (components s) |> =
          s1 <| components := reordered us (components s1) |>) as -> by done.
  apply IH; [|done].
  apply set_component_ok; [done|done|]. intros c [? _]. split; [done|]. by apply Z.leb_le.
Qed.

Lemma reorder_ok updates : preserves components_ok (reorder updates).
Proof.
  intros s Hok. destruct (reorder_cases updates s) as [(e & ->)|(-> & p & Hall)]; [done|].
  apply reordered_ok; [done|]. eapply Forall_impl; [exact Hall|]. by intros u (_ & ? & _).
Qed.
