(* ===== verification/ComponentTree.v ===== *)
(** * What the component operations compute

    The listing of a page's tree, the ordered listings, and the theorems that
    describe deletion, moving and reordering. *)

From stdpp Require Import relations.
From S2P Require Import Prelude CxxString CxxStd Store Validation MultiIndex Components ComponentForest.

Open Scope string_scope.
Open Scope list_scope.

(** ** Sorting identifiers by the order of their rows *)

Section Trees.
Context `{!StdSort}.

Definition by_order (s : InMemoryStore) (a b : string) : Prop := (order_of s a <= order_of s b)%Z.

Lemma sort_ids_ok s ids :
  (forall x, x ∈ ids -> is_Some (components s !! x)) ->
  exists l, sort_ids s ids = Ok l /\ l ≡ₚ ids /\ StronglySorted (by_order s) l.
Proof.
  intros Hin. unfold sort_ids. destruct ids as [|x [|y ids]].
  - exists []. split; [done|]. split; [done|constructor].
  - exists [x]. split; [done|]. split; [done|]. repeat constructor.
  - assert (forallb (has_key (components s)) (x :: y :: ids) = true) as ->.
    { apply forallb_forall. intros z Hz%list_elem_of_In. by apply has_key_true, Hin. }
    eexists. split; [done|]. split; [apply std_sort_perm|].
    eapply StronglySorted_impl; [|apply std_sort_sorted, strict_weak_Z].
    intros a b Hab. apply Z.ltb_ge. exact Hab.
Qed.

(** ** The tree of a page *)

(** [tree_list s ids t]: [t] is the listing of the trees rooted at [ids], in
    that order, each row followed by the listing of its children, siblings by
    increasing order. *)
Inductive tree_list (s : InMemoryStore) : list string -> list ComponentNode -> Prop :=
  | tree_nil : tree_list s [] []
  | tree_cons id c kids below_ rest siblings :
      components s !! id = Some c ->
      (forall x, x ∈ kids <-> child s id x) -> NoDup kids -> StronglySorted (by_order s) kids ->
      tree_list s kids below_ -> tree_list s rest siblings ->
      tree_list s (id :: rest) (c :: below_ ++ siblings).

(** The listing of the children of [id] with everything below them. *)
Definition listed_below (s : InMemoryStore) (id : string) (t : list ComponentNode) : Prop :=
  exists kids, (forall x, x ∈ kids <-> child s id x) /\ NoDup kids /\
    StronglySorted (by_order s) kids /\ tree_list s kids t.

Lemma visit_run s build l :
  (forall x, x ∈ l -> is_Some (components s !! x) /\ exists t, build x = Ok t /\ listed_below s x t) ->
  exists t, visit s build l = Ok t /\ tree_list s l t.
Proof.
  induction l as [|x l IH]; intros Hl; [exists []; split; [done|constructor]|].
  destruct IH as (ts & Hvisit & Hts); [intros y Hy; by apply Hl, list_elem_of_further|].
  destruct (Hl x (list_elem_of_here _ _)) as ([c Hc] & b & Hb & kids & Hk & Hnd & Hs & Hkt).
  exists (c :: b ++ ts). split; [|by econstructor].
  simpl. unfold at_. rewrite Hc. simpl. rewrite Hb. simpl. by rewrite Hvisit.
Qed.

Lemma buildTree_run s page n id :
  components_ok s -> height s n id ->
  exists t, buildTree n s page (Some id) = Ok t /\ listed_below s id t.
Proof.
  intros Hok. induction 1 as [n id Hc IH]. cbn [buildTree].
  change (collectChildren s (Some id) page) with (sort_ids s (bucket (components_by_parent s) id)).
  assert (forall x, x ∈ bucket (components_by_parent s) id <-> child s id x) as Hb
    by (intros; by apply child_bucket).
  destruct (sort_ids_ok s (bucket (components_by_parent s) id)) as (kids & -> & Hperm & Hsort).
  { intros x Hx%Hb. by destruct (child_present s Hok _ _ Hx). }
  cbn [mbind Result_bind].
  assert (forall x, x ∈ kids <-> child s id x) as Hkids by (intros; by rewrite Hperm).
  destruct (visit_run s (fun x => buildTree n s page (Some x)) kids) as (t & Hrun & Ht).
  { intros x Hx%Hkids. split; [by destruct (child_present s Hok _ _ Hx)|by apply IH]. }
  exists t. split; [done|]. exists kids. split; [done|]. split; [|done].
  rewrite Hperm. apply (multi_nodup _ _ _ (co_by_parent s Hok)).
Qed.

(** The roots of a page, as [collectChildren] selects them. *)
Definition root_of (s : InMemoryStore) (page x : string) : Prop :=
  exists c, components s !! x = Some c /\ cmp_pageId c = page /\ cmp_parentId c = None.

Lemma roots_run s page :
  components_ok s ->
  exists roots, collectChildren s None page = Ok roots /\ NoDup roots /\
    StronglySorted (by_order s) roots /\ forall x, x ∈ roots <-> root_of s page x.
Proof.
  intros Hok. unfold collectChildren. set (l := List.filter _ _).
  assert (forall x c, (x, c) ∈ l <-> components s !! x = Some c /\ cmp_pageId c = page /\ cmp_parentId c = None)
    as Hl.
  { intros x c. unfold l. rewrite list_elem_of_In, filter_In, <- list_elem_of_In, elem_of_map_items.
    simpl. rewrite andb_true_iff, String.eqb_eq, negb_true_iff, bool_decide_eq_false.
    rewrite <- eq_None_not_Some. done. }
  assert (forall x, x ∈ l.*1 <-> root_of s page x) as Hroots.
  { intros x. rewrite list_elem_of_fmap. split.
    - intros ([y c] & -> & Hin). exists c. by apply Hl.
    - intros (c & Hc). exists (x, c). split; [done|]. by apply Hl. }
  destruct (sort_ids_ok s l.*1) as (roots & -> & Hperm & Hsort).
  { intros x (c & Hc & _)%Hroots. eauto. }
  exists roots. split; [done|]. split; [|split; [done|intros x; by rewrite Hperm]].
  rewrite Hperm. eapply sublist_NoDup; [apply (NoDup_map_items_fst (components s))|].
  unfold l. clear. induction (map_items (components s)) as [|e m IH]; simpl; [done|].
  destruct (_ && _); by constructor.
Qed.

(** ** What a listing contains *)

(** No row is in the subtree of another. *)
Definition antichain (s : InMemoryStore) (l : list string) : Prop :=
  forall a b, a ∈ l -> b ∈ l -> subtree s a b -> a = b.

Lemma siblings_antichain s p l :
  components_ok s -> (forall x, x ∈ l -> child s p x) -> antichain s l.
Proof.
  intros Hok Hl a b Ha Hb [->|Hab]%subtree_below; [done|exfalso].
  apply Hl in Ha, Hb. pose proof (tc_rtc _ _ Hab) as Hsub.
  apply rtc_inv_r in Hsub as [->|(q & Haq & Hqb)]; [exact (below_acyclic s Hok _ Hab)|].
  rewrite (child_unique _ _ _ _ Hqb Hb) in Haq.
  apply (below_acyclic s Hok p). eapply tc_rtc_r; [apply tc_once; exact Ha|done].
Qed.

Lemma tree_list_elem s l t :
  components_ok s -> tree_list s l t ->
  forall c, c ∈ t <-> components s !! cmp_id c = Some c /\ exists r, r ∈ l /\ subtree s r (cmp_id c).
Proof.
  intros Hok. induction 1 as [|id n kids b rest sib Hn Hk Hnd Hs _ IHb _ IHs]; intros c.
  { split; [by intros ?%not_elem_of_nil|]. by intros (_ & r & ?%not_elem_of_nil & _). }
  destruct (co_ids s Hok _ _ Hn) as [Hid _].
  rewrite elem_of_cons, elem_of_app, IHb, IHs. setoid_rewrite elem_of_cons. split.
  - intros [->|[(Hc & r & Hr & Hrc)|(Hc & r & Hr & Hrc)]].
    + rewrite Hid. split; [done|]. exists id. split; [by left|done].
    + split; [done|]. exists id. split; [by left|]. eapply rtc_l; [by apply Hk|done].
    + split; [done|]. exists r. eauto.
  - intros (Hc & r & [->|Hr] & Hrc); [|by right; right; eauto].
    apply subtree_below in Hrc as [Heq|(k & Hik & Hkc)%below_children]; [left; congruence|].
    right; left. split; [done|]. exists k. split; [by apply Hk|done].
Qed.

Lemma tree_list_NoDup s l t :
  components_ok s -> tree_list s l t -> NoDup l -> antichain s l -> NoDup (cmp_id <$> t).
Proof.
  intros Hok. induction 1 as [|id n kids b rest sib Hn Hk Hnd Hs Hb IHb Hsib IHs]; intros Hl Hanti.
  { constructor. }
  destruct (co_ids s Hok _ _ Hn) as [Hid _]. apply NoDup_cons in Hl as [Hni Hrest].
  assert (forall x, x ∈ cmp_id <$> b -> below s id x) as Hbelow.
  { intros x (c & -> & Hc)%list_elem_of_fmap.
    apply (tree_list_elem s kids b Hok Hb) in Hc as (_ & k & Hik%Hk & Hkx).
    apply below_children. eauto. }
  assert (forall x, x ∈ cmp_id <$> sib -> exists r, r ∈ rest /\ subtree s r x) as Hsubs.
  { intros x (c & -> & Hc)%list_elem_of_fmap.
    by apply (tree_list_elem s rest sib Hok Hsib) in Hc as (_ & r & ? & ?); exists r. }
  assert (forall r, r ∈ rest -> ~ subtree s r id /\ ~ subtree s id r) as Hsep.
  { intros r Hr. split; intros Hsub; apply Hni.
    - rewrite <- (Hanti r id); [done|by apply list_elem_of_further|apply list_elem_of_here|done].
    - rewrite (Hanti id r); [done|apply list_elem_of_here|by apply list_elem_of_further|done]. }
  rewrite fmap_cons, fmap_app, Hid. apply NoDup_cons. split.
  - intros [Hin%Hbelow|(r & Hr & Hsub)%Hsubs]%elem_of_app; [exact (below_acyclic s Hok _ Hin)|].
    by destruct (Hsep r Hr).
  - apply NoDup_app. split; [apply IHb; [done|]; eapply siblings_antichain; [done|apply Hk]|].
    split; [|apply IHs; [done|]; intros x y Hx Hy; apply Hanti; by apply list_elem_of_further].
    intros x Hx%Hbelow (r & Hr & Hsub)%Hsubs. apply tc_rtc in Hx.
    destruct (subtree_chain s id r x Hx Hsub); by destruct (Hsep r Hr).
Qed.

(** Every row of a page is in the subtree of a root of the page. *)
Lemma root_exists s x c :
  components_ok s -> components s !! x = Some c ->
  exists r, root_of s (cmp_pageId c) r /\ subtree s r x.
Proof.
  intros Hok. destruct (co_acyclic s Hok) as [rank Hrank].
  remember (rank x) as k eqn:Hk. revert x c Hk.
  induction k as [k IH] using lt_wf_ind; intros x c -> Hc.
  destruct (cmp_parentId c) as [p|] eqn:Hp; [|exists x; split; [by exists c|done]].
  destruct (co_parent s Hok _ _ _ Hc Hp) as (q & Hq & Hpg).
  assert (child s p x) as Hpx by by exists c.
  destruct (IH (rank p) (Hrank _ _ Hpx) p q eq_refl Hq) as (r & Hr & Hrp).
  exists r. rewrite <- Hpg. split; [done|]. by eapply rtc_r.
Qed.

Lemma subtree_page s a x c d :
  components_ok s -> subtree s a x -> components s !! a = Some c -> components s !! x = Some d ->
  cmp_pageId c = cmp_pageId d.
Proof.
  intros Hok Hsub Hc. revert x Hsub d. refine (rtc_ind_r _ a _ _); [intros; congruence|].
  intros y z _ (n & Hn & Hp) IH d Hd.
  destruct (co_parent s Hok _ _ _ Hn Hp) as (q & Hq & Hpg). rewrite (IH q Hq). congruence.
Qed.

(** C24. The tree of a page ends in a result (the recursion needs no more depth
    than there are components) and lists every component of the page exactly
    once and nothing else: the roots of the page by increasing order, each row
    followed by the trees of its children, siblings by increasing order. *)
Theorem getTree_spec s page :
  components_ok s -> page <> "" -> is_Some (pages s !! page) ->
  exists t roots, getTree page s = (Ok t, s) /\
    NoDup (cmp_id <$> t) /\
    (forall c, c ∈ t <-> components s !! cmp_id c = Some c /\ cmp_pageId c = page) /\
    (forall x, x ∈ roots <-> root_of s page x) /\ StronglySorted (by_order s) roots /\
    tree_list s roots t.
Proof.
  intros Hok Hpage%is_empty_false [pg Hpg]. unfold getTree. rewrite run_reject, Hpage, run_find, Hpg.
  unfold reads. cbn [buildTree].
  destruct (roots_run s page Hok) as (roots & -> & Hnd & Hsort & Hroots). cbn [mbind Result_bind].
  destruct (visit_run s (fun x => buildTree (depth s) s page (Some x)) roots) as (t & -> & Ht).
  { intros x (c & Hc & _)%Hroots. split; [eauto|]. by apply buildTree_run, height_depth. }
  exists t, roots. split; [done|]. split.
  { eapply tree_list_NoDup; [done..|]. intros a b _ (c & Hc & _ & Hp)%Hroots [->|Hab]%subtree_below; [done|].
    apply tc_rtc, rtc_inv_r in Hab as [->|(q & _ & (d & Hd & Hq))]; [done|].
    congruence. }
  split; [|done]. intros c. rewrite (tree_list_elem s roots t Hok Ht). split.
  - intros (Hc & r & (d & Hd & <- & _)%Hroots & Hsub). split; [done|].
    symmetry. by eapply subtree_page.
  - intros (Hc & <-). split; [done|]. destruct (root_exists s _ _ Hok Hc) as (r & Hr & Hsub).
    exists r. split; [by apply Hroots|done].
Qed.
End Trees.

(** ** Reachability, deletion, moving, reordering *)

(** [hasDescendant] decides whether a component is strictly below another,
    on every store the handlers build: it always ends (a depth of one more than
    the number of components is enough) and its answer is reachability. *)
Theorem hasDescendant_spec s ancestor_id candidate_id :
  components_ok s ->
  (hasDescendant (depth s) s ancestor_id candidate_id = Ok true <-> below s ancestor_id candidate_id) /\
  (hasDescendant (depth s) s ancestor_id candidate_id = Ok false <-> ~ below s ancestor_id candidate_id).
Proof.
  intros Hok. destruct (hasDescendant_depth s ancestor_id candidate_id Hok) as (b & -> & Hb).
  destruct b; naive_solver.
Qed.

(** Deleting a component always ends, removes exactly the component and
    everything below it, from the table and from both indexes, leaves every
    other component and every other collection as they were. *)
Theorem remove_subtree s id :
  components_ok s -> id <> "" -> is_Some (components s !! id) ->
  exists s', remove id s = (Ok true, s') /\ components_ok s' /\ components_only s s' /\
    component_counter s' = component_counter s /\
    forall x, (components s' !! x = None /\ subtree s id x) \/
              (components s' !! x = components s !! x /\ ~ subtree s id x).
Proof.
  intros Hok Hid%is_empty_false [c Hc]. unfold remove. rewrite run_reject, Hid, run_find, Hc, run_gets.
  destruct (cascade_run (depth s) s id Hok (height_depth s id Hok)) as (s' & Hrun & Hpr).
  exists s'. split; [by rewrite (run_bind_ok _ _ _ _ _ Hrun)|]. exact Hpr.
Qed.

Lemma below_in_place s s' id :
  components_ok s -> (forall p x, x <> id -> child s p x -> child s' p x) ->
  forall x, below s id x -> below s' id x.
Proof.
  intros Hok Hsame x Hx.
  assert (forall y z, below s y z -> (y = id \/ below s id y) -> below s' y z) as H.
  { induction 1 as [y z Hyz|y z w Hyz Hzw IH]; intros Hy.
    all: assert (z <> id) as Hz by
      (intros ->; apply (below_acyclic s Hok id);
       destruct Hy as [->|Hy]; [by apply tc_once|by eapply tc_r]).
    - apply tc_once. by apply Hsame.
    - eapply tc_l; [by apply Hsame|]. apply IH. right.
      destruct Hy as [->|Hy]; [by apply tc_once|by eapply tc_r]. }
  apply H; [done|by left].
Qed.

(** A move is accepted exactly when the component exists, the order is not
    negative and the new parent, if any, is another component of the same page
    outside the component's subtree; then it re-parents and re-orders that one
    row, its subtree goes along unchanged and no cycle appears.  A refused move
    leaves the store as it was. *)
Theorem move_spec s input :
  components_ok s ->
  match move input s with
  | (Ok c', s') => exists c, move_allowed s input c /\ c' = moved input c /\
      components s' = <[mc_id input := c']> (components s) /\
      components_ok s' /\ components_only s s' /\
      forall x, below s' (mc_id input) x <-> below s (mc_id input) x
  | (Err _, s') => s' = s /\ forall c, ~ move_allowed s input c
  | _ => False
  end.
Proof.
  intros Hok. destruct (move_cases s input Hok) as [(c & Hall & ->)|(Hno & e & ->)]; [|done].
  exists c. pose proof (moved_ok s input c Hok Hall) as Hok'.
  split; [done|]. split; [done|]. split; [done|]. split; [done|]. split; [red; reflexivity|].
  intros x. split; apply below_in_place; try done; intros p y Hne (n & Hn & Hp); exists n; (split; [|done]).
  - simpl in Hn. by rewrite lookup_insert_ne in Hn.
  - simpl. by rewrite lookup_insert_ne.
Qed.

(** A reordering is all or nothing: a refused one leaves the store as it
    was; an accepted one names rows of one parent, gives each the order of its
    last update and changes nothing else. *)
Theorem reorder_atomic s updates :
  match reorder updates s with
  | (Ok r, s') => r = true /\ (exists p, Forall (reorderable s p) updates) /\
      s' = s <| components := components s' |> /\
      forall id, components s' !! id =
        (match last_order id updates with Some o => set_order o | None => fun c => c end)
          <$> components s !! id
  | (Err _, s') => s' = s
  | _ => False
  end.
Proof.
  destruct (reorder_cases updates s) as [(e & ->)|(-> & Hp)]; [done|].
  split; [done|]. split; [done|]. split; [done|]. intros id. apply reordered_lookup.
Qed.

(** ** The order of the flat listing *)

Definition has_parent (c : ComponentNode) : bool := bool_decide (is_Some (cmp_parentId c)).

(** The comparator of the listing as a composition of key comparisons. *)
Definition list_key_lt : ComponentNode -> ComponentNode -> bool :=
  lex (fun a b => String.ltb (cmp_pageId a) (cmp_pageId b))
  (lex (fun a b => (Z.b2z (has_parent a) <? Z.b2z (has_parent b))%Z)
  (lex (fun a b => String.ltb (default "" (cmp_parentId a)) (default "" (cmp_parentId b)))
  (lex (fun a b => (cmp_order a <? cmp_order b)%Z)
       (fun a b => String.ltb (cmp_id a) (cmp_id b))))).

Lemma string_eqb_ltb a b :
  String.eqb a b = negb (String.ltb a b) && negb (String.ltb b a).
Proof.
  destruct (String.eqb_spec a b) as [->|Hne].
  - assert (String.ltb b b = false) as ->; [by apply ltb_false|done].
  - destruct (String.ltb a b) eqn:H1, (String.ltb b a) eqn:H2; try done.
    by destruct Hne; apply ltb_antisym.
Qed.

Lemma list_lt_key a b : list_lt a b = list_key_lt a b.
Proof.
  unfold list_lt, list_key_lt, lex, has_parent. rewrite string_eqb_ltb.
  assert (forall x y, String.ltb x y = true -> String.ltb y x = false) as Hasym.
  { intros x y Hx. apply ltb_false. apply ltb_true in Hx.
    by destruct (total String.le x y). }
  destruct (String.ltb (cmp_pageId a) (cmp_pageId b)) eqn:H1; [by rewrite ?andb_false_r|].
  destruct (String.ltb (cmp_pageId b) (cmp_pageId a)) eqn:H2; [done|]. simpl.
  destruct (cmp_parentId a) as [p|], (cmp_parentId b) as [q|]; simpl; try done.
  - destruct (decide (Some p = Some q)) as [[= ->]|Hne].
    + rewrite bool_decide_true by done. simpl.
      assert (String.ltb q q = false) as -> by by apply ltb_false. simpl.
      destruct (Z.eqb_spec (cmp_order a) (cmp_order b)) as [->|?]; simpl; [by rewrite Z.ltb_irrefl|].
      destruct (Z.ltb_spec (cmp_order a) (cmp_order b)), (Z.ltb_spec (cmp_order b) (cmp_order a));
        try lia; done.
    + rewrite bool_decide_false by done. simpl.
      destruct (String.ltb p q) eqn:E1; [done|]. destruct (String.ltb q p) eqn:E2; [done|].
      destruct Hne. f_equal. by apply ltb_antisym.
  - destruct (Z.eqb_spec (cmp_order a) (cmp_order b)) as [->|?]; simpl; [by rewrite Z.ltb_irrefl|].
    destruct (Z.ltb_spec (cmp_order a) (cmp_order b)), (Z.ltb_spec (cmp_order b) (cmp_order a));
      try lia; done.
Qed.

Lemma list_lt_strict_weak : strict_weak list_lt.
Proof.
  eapply strict_weak_ext; [exact list_lt_key|].
  repeat apply strict_weak_lex; (apply strict_weak_string || apply strict_weak_Z).
Qed.

Lemma list_lt_antisym a b : list_lt a b = false -> list_lt b a = false -> cmp_id a = cmp_id b.
Proof.
  rewrite !list_lt_key. intros Hab Hba.
  repeat (apply lex_false in Hab as (_ & _ & Hab & Hba'); [|exact Hba]; clear Hba;
          rename Hba' into Hba).
  by apply ltb_antisym.
Qed.

(** The flat listing does not depend on the sorting algorithm: its order
    (page, roots first, parent, order, identifier) is total on the stored
    components, so any two implementations of [std::sort] give the same page. *)
Theorem list_components_deterministic (sort1 sort2 : StdSort) s options :
  components_ok s ->
  list_components (H := sort1) options s = list_components (H := sort2) options s.
Proof.
  intros Hok. unfold list_components. rewrite !run_gets. do 2 f_equal.
  set (l := List.filter _ _).
  eapply (StronglySorted_unique_strong (fun x y => list_lt y x = false)).
  2, 3: apply std_sort_sorted, list_lt_strict_weak.
  2: by rewrite !std_sort_perm.
  assert (forall x, x ∈ l -> components s !! cmp_id x = Some x) as Hl.
  { intros x Hx. unfold l in Hx. rewrite list_elem_of_In, filter_In, <- list_elem_of_In in Hx.
    destruct Hx as [([k y] & -> & Hx)%list_elem_of_fmap _]. apply elem_of_map_items in Hx. simpl.
    by destruct (co_ids s Hok _ _ Hx) as [-> _]. }
  intros x y Hx Hy Hxy Hyx. rewrite (@std_sort_perm sort1) in Hx. rewrite (@std_sort_perm sort2) in Hy.
  pose proof (Hl _ Hx) as H1. pose proof (Hl _ Hy) as H2.
  rewrite (list_lt_antisym x y Hyx Hxy) in H1. congruence.
Qed.

(** ** A page with three components *)

Definition demo_home : PageConfig :=
  mkPage "p1" None None "/home" "Home" None None None 1 false None None 0 true None None None.
Definition demo_empty : InMemoryStore := empty_store <| pages := {["p1" := demo_home]} |>.
Definition demo_node (parent : option string) (type : string) (order : Z) : CreateComponentNodeInput :=
  mkCreateComponent "p1" parent type "[]" order.

(** [component_00000001] holds [component_00000002]; [component_00000003] is a second root. *)
Definition demo_tree : InMemoryStore :=
  (create (demo_node None "footer" 1)
    (create (demo_node (Some "component_00000001") "text" 0)
      (create (demo_node None "box" 0) demo_empty).2).2).2.

Lemma demo_tree_ok : components_ok demo_tree.
Proof. do 3 apply create_ok. destruct components_ok_empty. by split. Qed.

Lemma demo_tree_present id :
  has_key (components demo_tree) id = true -> is_Some (components demo_tree !! id).
Proof. apply has_key_true. Qed.

Lemma getTree_spec_witness :
  exists t, getTree (H := insertion_StdSort) "p1" demo_tree = (Ok t, demo_tree) /\ NoDup (cmp_id <$> t).
Proof.
  destruct (getTree_spec (H := insertion_StdSort) demo_tree "p1" demo_tree_ok) as (t & _ & Ht & Hnd & _).
  - discriminate.
  - apply has_key_true. vm_compute. reflexivity.
  - exists t. split; [exact Ht|exact Hnd].
Defined.

Lemma hasDescendant_spec_witness :
  below demo_tree "component_00000001" "component_00000002" /\
  ~ below demo_tree "component_00000003" "component_00000002".
Proof.
  split.
  - apply (hasDescendant_spec demo_tree "component_00000001" "component_00000002" demo_tree_ok).
    vm_compute. reflexivity.
  - apply (hasDescendant_spec demo_tree "component_00000003" "component_00000002" demo_tree_ok).
    vm_compute. reflexivity.
Defined.

Lemma remove_subtree_witness :
  exists s', remove "component_00000001" demo_tree = (Ok true, s') /\
    components s' !! "component_00000002" = None.
Proof.
  destruct (remove_subtree demo_tree "component_00000001" demo_tree_ok) as (s' & Hr & _ & _ & _ & Hx).
  - discriminate.
  - apply has_key_true. vm_compute. reflexivity.
  - exists s'. split; [exact Hr|]. destruct (Hx "component_00000002") as [[Hn _]|[_ Hn]]; [exact Hn|].
    destruct Hn. apply rtc_once.
    assert (fmap cmp_parentId (components demo_tree !! "component_00000002") = Some (Some "component_00000001"))
      as H by (vm_compute; reflexivity).
    apply fmap_Some in H as (c & Hc & Hp).
    exists c. exact (conj Hc (eq_sym Hp)).
Defined.

(** The second root goes under the first; moving the first into its own child is refused. *)
Lemma move_spec_witness :
  (exists c s', move (mkMoveComponent "component_00000003" "component_00000001" 4) demo_tree = (Ok c, s') /\
     components_ok s') /\
  (exists e, move (mkMoveComponent "component_00000001" "component_00000002" 0) demo_tree = (Err e, demo_tree)).
Proof.
  split.
  - set (input := mkMoveComponent _ _ _).
    pose proof (move_spec demo_tree input demo_tree_ok) as H.
    assert (isOk (move input demo_tree).1 = true) as Hr by (vm_compute; reflexivity).
    destruct (move input demo_tree) as [[c|e|x|] s'] eqn:E; try discriminate Hr.
    destruct H as (_ & _ & _ & _ & H & _). exists c, s'. exact (conj eq_refl H).
  - set (input := mkMoveComponent _ _ _).
    pose proof (move_spec demo_tree input demo_tree_ok) as H.
    assert (isError (move input demo_tree).1 = true) as Hr by (vm_compute; reflexivity).
    destruct (move input demo_tree) as [[c|e|x|] s'] eqn:E; try discriminate Hr.
    destruct H as [-> _]. exists e. exact eq_refl.
Defined.

Lemma list_components_deterministic_witness :
  list_components (H := reversed_StdSort) (mkListOptions ∅ ∅ 1 20) demo_tree =
  list_components (H := insertion_StdSort) (mkListOptions ∅ ∅ 1 20) demo_tree.
Proof. apply (list_components_deterministic reversed_StdSort), demo_tree_ok. Defined.
