(* ===== verification/Client.v ===== *)
(** * The client over the in-memory store

    Models the part of Client that is served from the in-memory store
    (src/client_page_component_ops.cpp and src/client_misc_ops.cpp): each entry
    point delegates to one entity handler.  A run of the client is a sequence of
    such calls on one store that starts empty; the invariants of all the
    components hold along every run. *)

From S2P Require Import Prelude CxxString CxxStd Store Validation UniqueIndex MultiIndex.
From S2P Require Import Pages Workflows Sessions Packages Components ComponentForest.

Open Scope string_scope.

(** ** Calls *)

(** The clock a call reads is an argument of the call. *)
Inductive ClientCall :=
  | CallCreatePage (now : Timestamp) (input : CreatePageInput)
  | CallGetPage (id : string)
  | CallGetPageByPath (path : string)
  | CallUpdatePage (id : string) (input : UpdatePageInput)
  | CallDeletePage (id : string)
  | CallListPages (options : ListOptions)
  | CallSearchPages (query : string) (limit : Z)
  | CallCreateComponent (input : CreateComponentNodeInput)
  | CallGetComponent (id : string)
  | CallUpdateComponent (id : string) (input : UpdateComponentNodeInput)
  | CallDeleteComponent (id : string)
  | CallListComponents (options : ListOptions)
  | CallGetComponentTree (pageId : string)
  | CallReorderComponents (updates : list ComponentOrderUpdate)
  | CallMoveComponent (input : MoveComponentInput)
  | CallSearchComponents (query : string) (pageId : option string) (limit : Z)
  | CallGetComponentChildren (parentId : string) (type_filter : option string) (limit : Z)
  | CallSetFirstLogin (username : string) (flag : bool)
  | CallGetFirstLogin (username : string)
  | CallCreateWorkflow (now : Timestamp) (input : CreateWorkflowInput)
  | CallGetWorkflow (id : string)
  | CallUpdateWorkflow (id : string) (input : UpdateWorkflowInput)
  | CallDeleteWorkflow (id : string)
  | CallListWorkflows (options : ListOptions)
  | CallCreateSession (now : Timestamp) (input : CreateSessionInput)
  | CallGetSession (now : Timestamp) (id : string)
  | CallUpdateSession (id : string) (input : UpdateSessionInput)
  | CallDeleteSession (id : string)
  | CallListSessions (now : Timestamp) (options : ListOptions)
  | CallCreatePackage (now : Timestamp) (input : CreatePackageInput)
  | CallGetPackage (id : string)
  | CallUpdatePackage (id : string) (input : UpdatePackageInput)
  | CallDeletePackage (id : string)
  | CallListPackages (options : ListOptions)
  | CallBatchCreatePackages (now : nat -> Timestamp) (inputs : list CreatePackageInput)
  | CallBatchUpdatePackages (updates : list UpdatePackageBatchItem)
  | CallBatchDeletePackages (ids : list string).

(** What a call does to the store, its returned value left aside. *)
Definition void {A} (m : Op InMemoryStore A) : Op InMemoryStore unit := m;; mret tt.

Section Client.
Context `{!StdSort}.

Definition perform (c : ClientCall) : Op InMemoryStore unit :=
  match c with
  | CallCreatePage now input => void (createPage now input)
  | CallGetPage id => void (getPage id)
  | CallGetPageByPath path => void (getPageByPath path)
  | CallUpdatePage id input => void (updatePage id input)
  | CallDeletePage id => void (deletePage id)
  | CallListPages options => void (listPages options)
  | CallSearchPages query limit => void (searchPages query limit)
  | CallCreateComponent input => void (create input)
  | CallGetComponent id => void (get id)
  | CallUpdateComponent id input => void (update id input)
  | CallDeleteComponent id => void (remove id)
  | CallListComponents options => void (list_components options)
  | CallGetComponentTree pageId => void (getTree pageId)
  | CallReorderComponents updates => void (reorder updates)
  | CallMoveComponent input => void (move input)
  | CallSearchComponents query pageId limit => void (search query pageId limit)
  | CallGetComponentChildren parentId type_filter limit =>
      void (getChildren parentId type_filter limit)
  | CallSetFirstLogin username flag => void (setFirstLogin username flag)
  | CallGetFirstLogin username => void (getFirstLogin username)
  | CallCreateWorkflow now input => void (createWorkflow now input)
  | CallGetWorkflow id => void (getWorkflow id)
  | CallUpdateWorkflow id input => void (updateWorkflow id input)
  | CallDeleteWorkflow id => void (deleteWorkflow id)
  | CallListWorkflows options => void (listWorkflows options)
  | CallCreateSession now input => void (createSession now input)
  | CallGetSession now id => void (getSession now id)
  | CallUpdateSession id input => void (updateSession id input)
  | CallDeleteSession id => void (deleteSession id)
  | CallListSessions now options => void (listSessions now options)
  | CallCreatePackage now input => void (createPackage now input)
  | CallGetPackage id => void (getPackage id)
  | CallUpdatePackage id input => void (updatePackage id input)
  | CallDeletePackage id => void (deletePackage id)
  | CallListPackages options => void (listPackages options)
  | CallBatchCreatePackages now inputs => void (batchCreate now inputs)
  | CallBatchUpdatePackages updates => void (batchUpdate updates)
  | CallBatchDeletePackages ids => void (batchDelete ids)
  end.

(** The stores a client can bring about. *)
Inductive reachable : InMemoryStore -> Prop :=
  | reachable_empty : reachable empty_store
  | reachable_call s c : reachable s -> reachable (perform c s).2.

(** ** The invariant of the whole store *)

Record store_ok (s : InMemoryStore) : Prop := {
  so_pages : pages_ok s;
  so_workflows : workflows_ok s;
  so_sessions : sessions_ok s;
  so_packages : packages_ok s;
  so_components : components_ok s;
}.

Lemma store_ok_empty : store_ok empty_store.
Proof.
  split; [apply pages_ok_empty|apply workflows_ok_empty|apply sessions_ok_empty
         |apply packages_ok_empty|apply components_ok_empty].
Qed.

Lemma components_ok_other s s' :
  components s' = components s -> components_by_page s' = components_by_page s ->
  components_by_parent s' = components_by_parent s -> component_counter s' = component_counter s ->
  components_ok s -> components_ok s'.
Proof.
  intros Hc Hpg Hpa Hn [H1 H2 H3 H4 H5 H6 H7].
  split; rewrite ?Hc, ?Hpg, ?Hpa, ?Hn; try done.
  destruct H7 as [rank Hr]. exists rank. intros p c Hch. apply Hr. unfold child in *. by rewrite <- Hc.
Qed.

Definition client_ok (s : InMemoryStore) : Prop := store_ok s /\ users s = ∅.

Lemma client_pages {A} (m : Op InMemoryStore A) :
  frame pages_only m -> preserves pages_ok m -> preserves client_ok m.
Proof.
  intros Hf Hp s [[H1 H2 H3 H4 H5] Hu]. specialize (Hf s). specialize (Hp s H1).
  red in Hf. split; [|by rewrite Hf]. split; [done|rewrite Hf; done..|].
  rewrite Hf. by apply (components_ok_other s).
Qed.

Lemma client_workflows {A} (m : Op InMemoryStore A) :
  frame workflows_only m -> preserves workflows_ok m -> preserves client_ok m.
Proof.
  intros Hf Hp s [[H1 H2 H3 H4 H5] Hu]. specialize (Hf s). specialize (Hp s H2).
  red in Hf. split; [|by rewrite Hf]. split; [rewrite Hf; done|done|rewrite Hf; done..|].
  rewrite Hf. by apply (components_ok_other s).
Qed.

Lemma client_sessions {A} (m : Op InMemoryStore A) :
  frame sessions_only m -> preserves sessions_ok m -> preserves client_ok m.
Proof.
  intros Hf Hp s [[H1 H2 H3 H4 H5] Hu]. specialize (Hf s). specialize (Hp s H3).
  red in Hf. split; [|by rewrite Hf]. split; [rewrite Hf; done..|done|rewrite Hf; done|].
  rewrite Hf. by apply (components_ok_other s).
Qed.

Lemma client_packages {A} (m : Op InMemoryStore A) :
  frame packages_only m -> preserves packages_ok m -> preserves client_ok m.
Proof.
  intros Hf Hp s [[H1 H2 H3 H4 H5] Hu]. specialize (Hf s). specialize (Hp s H4).
  red in Hf. split; [|by rewrite Hf]. split; [rewrite Hf; done..|done|].
  rewrite Hf. by apply (components_ok_other s).
Qed.

Lemma client_components {A} (m : Op InMemoryStore A) :
  frame components_only m -> preserves components_ok m -> preserves client_ok m.
Proof.
  intros Hf Hp s [[H1 H2 H3 H4 H5] Hu]. specialize (Hf s). specialize (Hp s H5).
  red in Hf. split; [|by rewrite Hf]. split; [rewrite Hf; done..|done].
Qed.

Lemma client_pure {A} (m : Op InMemoryStore A) : pure_op m -> preserves client_ok m.
Proof. apply pure_preserves. Qed.

Lemma client_void {A} (m : Op InMemoryStore A) : preserves client_ok m -> preserves client_ok (void m).
Proof. intros Hm. apply preserves_bind; [done|]. intros a. apply client_pure, pure_ret. Qed.

(** There is no user whose flag could be set. *)
Lemma client_setFirstLogin username flag : preserves client_ok (setFirstLogin username flag).
Proof.
  intros s [Hok Hu]. unfold setFirstLogin. rewrite run_reject. destruct (is_empty username); [done|].
  rewrite run_gets. unfold first_user. rewrite Hu. done.
Qed.

Lemma perform_ok c : preserves client_ok (perform c).
Proof.
  destruct c; apply client_void; first
  [ apply client_setFirstLogin
  | apply client_pure; solve [auto with dbal]
  | apply client_pages; [solve [auto with dbal]
      | first [apply createPage_ok|apply updatePage_ok|apply deletePage_ok]]
  | apply client_workflows; [solve [auto with dbal]
      | first [apply createWorkflow_ok|apply updateWorkflow_ok|apply deleteWorkflow_ok]]
  | apply client_sessions; [solve [auto with dbal]
      | first [apply createSession_ok|apply getSession_ok|apply updateSession_ok
              |apply deleteSession_ok|apply listSessions_ok]]
  | apply client_packages; [solve [auto with dbal]
      | first [apply createPackage_ok|apply updatePackage_ok|apply deletePackage_ok
              |apply batchCreate_ok|apply batchUpdate_ok|apply batchDelete_ok]]
  | apply client_components; [solve [auto with dbal]
      | first [apply create_ok|apply update_ok|apply remove_ok|apply move_ok|apply reorder_ok]] ].
Qed.

Lemma reachable_client_ok s : reachable s -> client_ok s.
Proof.
  induction 1 as [|s c _ IH]; [split; [apply store_ok_empty|done]|]. by apply perform_ok.
Qed.

(** C1. Along every run of the client, whatever its calls, their inputs and
    their failures, the invariants of all the components hold together: every
    unique index is exact, every identifier was issued by its counter, the
    fields satisfy their validation rules, sessions name users, and the
    component tables form a forest with exact page and parent indexes. *)
Theorem reachable_store_ok s : reachable s -> store_ok s.
Proof. intros Hs. by apply reachable_client_ok. Qed.

(** No client ever opens a session in the in-memory store: its calls create
    users only in the database behind the adapter, so in every store a client
    can bring about the creation of a session is refused with "User not found"
    for every non-empty user and token, no session is ever stored, and setting
    or reading the first-login flag finds no user either. *)
Theorem sessions_unreachable s :
  reachable s ->
  sessions s = ∅ /\
  (forall now input, cs_userId input <> "" -> cs_token input <> "" ->
     createSession now input s =
       (Err (validationError ("User not found: " +:+ cs_userId input)), s)) /\
  (forall username flag, username <> "" ->
     setFirstLogin username flag s = (Err (notFound ("User not found: " +:+ username)), s) /\
     getFirstLogin username s = (Err (notFound ("User not found: " +:+ username)), s)).
Proof.
  intros Hs. destruct (reachable_client_ok s Hs) as [Hok Hu].
  assert (forall k, users s !! k = None) as Hno by (intros; rewrite Hu; apply lookup_empty).
  split; [|split].
  - apply map_eq. intros id. rewrite lookup_empty.
    destruct (sessions s !! id) as [x|] eqn:Hx; [|done].
    destruct (so_sessions s Hok) as (_ & _ & Hall).
    destruct (Hall _ _ Hx) as (_ & _ & _ & [u Hx']). by rewrite Hno in Hx'.
  - intros now input Hid%is_empty_false Htok%is_empty_false. unfold createSession.
    rewrite run_reject, Hid, run_reject, Htok, run_gets.
    rewrite (proj2 (has_key_false _ _) (Hno _)). by rewrite run_reject.
  - intros username flag Hn%is_empty_false.
    unfold setFirstLogin, getFirstLogin. rewrite !run_reject, Hn, !run_gets.
    unfold first_user. by rewrite Hu.
Qed.
End Client.

(** ** A short run *)

Definition demo_run : InMemoryStore :=
  (perform (H := insertion_StdSort) (CallCreatePage 5 (demo_page "/home" "Home")) empty_store).2.

Lemma demo_run_reachable : reachable (H := insertion_StdSort) demo_run.
Proof. apply (reachable_call (H := insertion_StdSort)), reachable_empty. Qed.

Lemma reachable_store_ok_witness :
  page_paths demo_run !! "/home" = Some "page_00000001" /\ store_ok demo_run.
Proof.
  split; [vm_compute; reflexivity|].
  exact (reachable_store_ok (H := insertion_StdSort) demo_run demo_run_reachable).
Defined.

Lemma sessions_unreachable_witness :
  createSession 9 (mkCreateSession "u1" "token" 99 None None None None) demo_run =
    (Err (validationError ("User not found: " +:+ "u1")), demo_run).
Proof.
  destruct (sessions_unreachable (H := insertion_StdSort) demo_run demo_run_reachable) as (_ & Hc & _).
  apply (Hc 9%Z (mkCreateSession "u1" "token" 99 None None None None)); discriminate.
Defined.
