(* ===== verification/WfOrder.v ===== *)
(** * Workflow node order

    Models [topologicalOrder] of src/workflow/wf_graph_order.cpp: Kahn's
    algorithm over the node keys and the edges of a workflow graph, seeded in the
    caller's order, returning the input order when a cycle leaves nodes out. *)

From stdpp Require Import relations.
From S2P Require Import Prelude CxxString CxxStd MultiIndex.

Open Scope list_scope.

(** ** The algorithm *)

Abbreviation Edge := (string * string)%type.

(** [known.count(from) == 0 || known.count(to) == 0] *)
Definition known_edge (node_keys : list string) (e : Edge) : bool :=
  bool_decide (e.1 ∈ node_keys) && bool_decide (e.2 ∈ node_keys).

(** [indegree[k] += d] *)
Definition add_degree (d : Z) (k : string) (indegree : gmap string Z) : gmap string Z :=
  <[k := (default 0 (indegree !! k) + d)%Z]> indegree.

Definition zero_degrees (node_keys : list string) : gmap string Z :=
  foldl (fun m k => <[k := 0%Z]> m) ∅ node_keys.

(** The adjacency lists and the in-degrees after the loop over the edges. *)
Definition build_graph (node_keys : list string) (edges : list Edge) :
    gmap string (list string) * gmap string Z :=
  foldl (fun g e =>
    if known_edge node_keys e
    then (link e.1 e.2 g.1, add_degree 1 e.2 g.2) else g)
    (∅, zero_degrees node_keys) edges.

(** [for (next : out[key]) if (--indegree[next] == 0) ready.push_back(next);] *)
Definition release (nexts : list string) (st : gmap string Z * list string) :
    gmap string Z * list string :=
  foldl (fun st next =>
    let indegree := add_degree (-1) next st.1 in
    (indegree, if (default 0 (indegree !! next) =? 0)%Z then st.2 ++ [next] else st.2))
    st nexts.

(** The main loop; [None] when it would run longer than [fuel] rounds. *)
Fixpoint kahn (fuel : nat) (out : gmap string (list string)) (indegree : gmap string Z)
    (ready ordered : list string) : option (list string) :=
  match ready with
  | [] => Some ordered
  | key :: ready' =>
      match fuel with
      | 0 => None
      | S fuel =>
          let '(indegree', ready'') := release (default [] (out !! key)) (indegree, ready') in
          kahn fuel out indegree' ready'' (ordered ++ [key])
      end
  end.

Definition topologicalOrder_fuel (fuel : nat) (node_keys : list string) (edges : list Edge) :
    option (list string) :=
  let '(out, indegree) := build_graph node_keys edges in
  let ready := filter (fun k => default 0%Z (indegree !! k) = 0%Z) node_keys in
  ordered ← kahn fuel out indegree ready [];
  Some (if (length ordered =? length node_keys)%nat then ordered else node_keys).

(** Every key enters the queue at most once at the start and once when its
    in-degree reaches zero. *)
Definition topologicalOrder (node_keys : list string) (edges : list Edge) : list string :=
  default node_keys (topologicalOrder_fuel (2 * length node_keys) node_keys edges).

(** ** Counting *)

Definition cnt (k : string) (l : list string) : Z := Z.of_nat (length (filter (fun x => x = k) l)).

Lemma cnt_nil k : cnt k [] = 0%Z.
Proof. done. Qed.

Lemma cnt_cons k x l : cnt k (x :: l) = ((if decide (x = k) then 1 else 0) + cnt k l)%Z.
Proof. unfold cnt. rewrite filter_cons. case_decide; simpl; lia. Qed.

Lemma cnt_targets_cons k (e : Edge) (l : list Edge) :
  cnt k (e :: l).*2 = ((if decide (e.2 = k) then 1 else 0) + cnt k l.*2)%Z.
Proof. apply cnt_cons. Qed.

Lemma cnt_app k l1 l2 : cnt k (l1 ++ l2) = (cnt k l1 + cnt k l2)%Z.
Proof. unfold cnt. rewrite filter_app, length_app. lia. Qed.

Lemma cnt_nonneg k l : (0 <= cnt k l)%Z.
Proof. unfold cnt. lia. Qed.

Lemma cnt_pos k l : (0 < cnt k l)%Z <-> k ∈ l.
Proof.
  induction l as [|x l IH]; [rewrite cnt_nil, elem_of_nil; lia|].
  rewrite cnt_cons, elem_of_cons. pose proof (cnt_nonneg k l). case_decide.
  - subst. split; [by left|lia].
  - rewrite Z.add_0_l, IH. naive_solver.
Qed.

(** The value of a degree table at a key. *)
Definition deg (m : gmap string Z) (k : string) : Z := default 0%Z (m !! k).

Lemma deg_add d k m k' : deg (add_degree d k m) k' = (deg m k' + if decide (k = k') then d else 0)%Z.
Proof.
  unfold deg, add_degree. rewrite lookup_insert. case_decide; subst; simpl; lia.
Qed.

Lemma deg_zero keys k : deg (zero_degrees keys) k = 0%Z.
Proof.
  unfold zero_degrees, deg. induction keys as [|x keys IH] using rev_ind; [done|].
  rewrite foldl_snoc, lookup_insert. by case_decide.
Qed.

(** ** The graph *)

(** The edges that count, the successors of a node, and the edges whose source
    has not been ordered yet. *)
Definition good (keys : list string) (edges : list Edge) : list Edge :=
  List.filter (known_edge keys) edges.
Definition succs (E : list Edge) (k : string) : list string := (filter (fun e => e.1 = k) E).*2.
Definition pending (E : list Edge) (ordered : list string) : list string :=
  (filter (fun e => e.1 ∉ ordered) E).*2.

Lemma good_elem keys edges e : e ∈ good keys edges <-> e ∈ edges /\ e.1 ∈ keys /\ e.2 ∈ keys.
Proof.
  unfold good. rewrite (list_elem_of_In (List.filter _ _)), filter_In, <- list_elem_of_In.
  unfold known_edge. by rewrite andb_true_iff, !bool_decide_eq_true.
Qed.

Lemma succs_elem E a b : b ∈ succs E a <-> (a, b) ∈ E.
Proof.
  unfold succs. rewrite list_elem_of_fmap. split.
  - intros ([x y] & -> & [Hx Hin]%list_elem_of_filter). simpl in Hx. by subst.
  - intros Hin. exists (a, b). split; [done|]. by apply list_elem_of_filter.
Qed.

Lemma pending_elem E ordered b : b ∈ pending E ordered <-> exists a, a ∉ ordered /\ (a, b) ∈ E.
Proof.
  unfold pending. rewrite list_elem_of_fmap. split.
  - intros ([x y] & -> & [Hx Hin]%list_elem_of_filter). by exists x.
  - intros (a & Ha & Hin). exists (a, b). split; [done|]. by apply list_elem_of_filter.
Qed.

(** Ordering [key] settles exactly the edges that leave it. *)
Lemma pending_snoc E ordered key k :
  key ∉ ordered ->
  cnt k (pending E ordered) = (cnt k (pending E (ordered ++ [key])) + cnt k (succs E key))%Z.
Proof.
  intros Hkey. unfold pending, succs. induction E as [|[a b] E IH]; [done|].
  rewrite !filter_cons. cbn [fst snd].
  destruct (decide (a = key)) as [->|Hne].
  - rewrite (decide_True (P := key ∉ ordered)) by done.
    rewrite decide_False by (intros H; apply H, elem_of_app; right; apply list_elem_of_here).
    rewrite !cnt_targets_cons, IH. lia.
  - destruct (decide (a ∈ ordered)).
    + rewrite decide_False by tauto.
      rewrite decide_False by (rewrite elem_of_app; tauto). done.
    + rewrite decide_True by done.
      rewrite decide_True by (rewrite elem_of_app, list_elem_of_singleton; tauto).
      rewrite !cnt_targets_cons, IH. lia.
Qed.

Lemma build_graph_spec keys edges :
  (forall k, bucket (build_graph keys edges).1 k = succs (good keys edges) k) /\
  (forall k, deg (build_graph keys edges).2 k = cnt k (good keys edges).*2).
Proof.
  unfold build_graph, good. induction edges as [|e edges [IHo IHd]] using rev_ind.
  { split; intros k; [done|apply deg_zero]. }
  rewrite foldl_snoc, List.filter_app. cbn [List.filter].
  destruct (known_edge keys e); [|by rewrite app_nil_r]. cbn [fst snd]. split; intros k.
  - rewrite bucket_link, !IHo. unfold succs. rewrite filter_app, filter_cons, filter_nil.
    case_decide; simplify_eq; [by rewrite fmap_app|by rewrite app_nil_r].
  - rewrite deg_add, IHd, fmap_app, cnt_app, cnt_targets_cons. change (cnt k [].*2) with 0%Z. lia.
Qed.

(** ** Releasing successors *)

Lemma release_spec l m r :
  (forall k, (cnt k l <= deg m k)%Z) ->
  exists new, (release l (m, r)).2 = r ++ new /\ NoDup new /\
    (forall k, k ∈ new <-> k ∈ l /\ deg m k = cnt k l) /\
    (forall k, deg (release l (m, r)).1 k = (deg m k - cnt k l)%Z).
Proof.
  revert m r; induction l as [|x l IH]; intros m r Hle.
  { exists []. split; [by rewrite app_nil_r|]. split; [constructor|].
    split; [|by intros k; rewrite cnt_nil, Z.sub_0_r]. intros k. rewrite elem_of_nil. naive_solver. }
  unfold release. cbn [foldl fst snd].
  change (default 0%Z (add_degree (-1) x m !! x)) with (deg (add_degree (-1) x m) x).
  rewrite deg_add, decide_True by done.
  set (r1 := if (deg m x + -1 =? 0)%Z then r ++ [x] else r).
  destruct (IH (add_degree (-1) x m) r1) as (new & Hr & Hnd & Hnew & Hdeg).
  { intros k. specialize (Hle k). rewrite cnt_cons in Hle. rewrite deg_add.
    repeat case_decide; simplify_eq; lia. }
  fold (release l (add_degree (-1) x m, r1)).
  assert (forall k, deg (release l (add_degree (-1) x m, r1)).1 k = (deg m k - cnt k (x :: l))%Z) as Hdeg'.
  { intros k. rewrite Hdeg, deg_add, cnt_cons. repeat case_decide; simplify_eq; lia. }
  pose proof (Hle x) as Hx. rewrite cnt_cons, decide_True in Hx by done.
  destruct (Z.eqb_spec (deg m x + -1) 0) as [Hz|Hz].
  - assert (cnt x l = 0)%Z as Hc by (pose proof (cnt_nonneg x l); lia).
    assert (x ∉ l) as Hxl by (rewrite <- cnt_pos; lia).
    assert (x ∉ new) as Hxn by (intros [? _]%Hnew; done).
    exists (x :: new). unfold r1 in *. rewrite Hr, <- app_assoc. split; [done|].
    split; [by constructor|]. split; [|done].
    intros k. rewrite !elem_of_cons, Hnew, deg_add, cnt_cons.
    destruct (decide (x = k)) as [<-|Hne]; [rewrite Hc; split; [intros _; split; [by left|lia]|by left]|].
    rewrite Z.add_0_l, Z.add_0_r. naive_solver.
  - exists new. split; [exact Hr|]. split; [done|]. split; [|done].
    intros k. rewrite Hnew, elem_of_cons, deg_add, cnt_cons.
    destruct (decide (x = k)) as [<-|Hne].
    + split; [intros [? ?]; split; [by left|lia]|]. intros [_ ?]. split; [|lia].
      apply cnt_pos. pose proof (cnt_nonneg x l). lia.
    + rewrite Z.add_0_l, Z.add_0_r. naive_solver.
Qed.

(** ** The loop ends *)

(** What can still enter the queue: the queue itself and the distinct nodes
    whose in-degree is still positive. *)
Definition positive (keys : list string) (m : gmap string Z) : nat :=
  length (filter (fun k => (0 < deg m k)%Z) (remove_dups keys)).

Lemma positive_step l m x :
  NoDup l ->
  length (filter (fun k => (0 < deg (add_degree (-1) x m) k)%Z) l) =
    length (filter (fun k => (0 < deg m k)%Z) l)
      - (if decide (x ∈ l /\ deg m x = 1%Z) then 1 else 0) /\
  (x ∈ l /\ deg m x = 1%Z -> 0 < length (filter (fun k => (0 < deg m k)%Z) l)).
Proof.
  induction 1 as [|y l Hy Hnd [IH1 IH2]].
  { rewrite decide_False by (rewrite elem_of_nil; tauto). rewrite elem_of_nil. simpl. tauto. }
  rewrite !filter_cons, !deg_add. pose proof (elem_of_cons l x y) as Hcons.
  destruct (decide (x = y)) as [<-|Hne].
  - rewrite (decide_False (P := x ∈ l /\ _)) in IH1 by tauto.
    repeat case_decide; simpl; rewrite ?IH1; intuition lia.
  - rewrite Z.add_0_r. repeat case_decide; simpl; rewrite ?IH1; intuition lia.
Qed.

Lemma release_potential keys nexts m r :
  (forall x, x ∈ nexts -> x ∈ keys) ->
  let st := release nexts (m, r) in
  length st.2 + positive keys st.1 = length r + positive keys m.
Proof.
  revert m r; induction nexts as [|x nexts IH]; intros m r Hin; [done|].
  unfold release. cbn [foldl fst snd].
  change (default 0%Z (add_degree (-1) x m !! x)) with (deg (add_degree (-1) x m) x).
  rewrite deg_add, decide_True by done.
  fold (release nexts (add_degree (-1) x m, if (deg m x + -1 =? 0)%Z then r ++ [x] else r)).
  cbv zeta in IH |- *. rewrite IH by (intros y Hy; by apply Hin, list_elem_of_further).
  unfold positive.
  destruct (positive_step (remove_dups keys) m x (NoDup_remove_dups keys)) as [-> Hpos].
  assert (x ∈ remove_dups keys) as Hx by apply elem_of_remove_dups, Hin, list_elem_of_here.
  destruct (Z.eqb_spec (deg m x + -1) 0).
  - rewrite decide_True by (split; [done|lia]). rewrite length_app. simpl.
    specialize (Hpos ltac:(split; [done|lia])). lia.
  - rewrite decide_False by (intros [_ ?]; lia). lia.
Qed.

Lemma kahn_total keys out m ready ordered fuel :
  (forall k x, x ∈ bucket out k -> x ∈ keys) ->
  length ready + positive keys m <= fuel ->
  is_Some (kahn fuel out m ready ordered).
Proof.
  intros Hout. revert m ready ordered; induction fuel as [|fuel IH]; intros m [|key ready] ordered Hf;
    cbn [kahn]; try (by eexists); [simpl in Hf; lia|].
  fold (bucket out key).
  pose proof (release_potential keys (bucket out key) m ready (Hout key)) as Hp. cbv zeta in Hp.
  destruct (release (bucket out key) (m, ready)) as [m' ready'].
  apply IH. simpl in *. lia.
Qed.

Lemma positive_le keys m : positive keys m <= length keys.
Proof.
  unfold positive. etrans; [apply length_filter|].
  apply NoDup_subset_length; [apply NoDup_remove_dups|]. intros x. apply elem_of_remove_dups.
Qed.

Lemma succs_good keys edges k x : x ∈ succs (good keys edges) k -> x ∈ keys.
Proof. intros H%succs_elem%good_elem. naive_solver. Qed.

Lemma topologicalOrder_total keys edges :
  is_Some (topologicalOrder_fuel (2 * length keys) keys edges).
Proof.
  unfold topologicalOrder_fuel. destruct (build_graph_spec keys edges) as [Hout _].
  destruct (build_graph keys edges) as [out m]. cbn [fst snd] in Hout.
  edestruct (kahn_total keys out m) as [ordered ->]; [| |by eexists].
  - intros k x. rewrite Hout. apply succs_good.
  - pose proof (length_filter (fun k => default 0%Z (m !! k) = 0%Z) keys).
    pose proof (positive_le keys m). lia.
Qed.

(** ** The loop orders the nodes *)

(** [a] stands before [b] in [l]. *)
Definition before (l : list string) (a b : string) : Prop :=
  exists i j, l !! i = Some a /\ l !! j = Some b /\ i < j.

Lemma before_snoc l x a b : before l a b -> before (l ++ [x]) a b.
Proof. intros (i & j & Hi & Hj & ?). exists i, j. by rewrite !(lookup_app_l_Some _ _ _ _ Hi), (lookup_app_l_Some _ _ _ _ Hj). Qed.

Lemma before_last l a b : a ∈ l -> before (l ++ [b]) a b.
Proof.
  intros [i Hi]%list_elem_of_lookup_1. exists i, (length l). pose proof (lookup_lt_Some _ _ _ Hi).
  split; [by apply lookup_app_l_Some|]. split; [by apply list_lookup_middle|done].
Qed.

Record kahn_inv (keys : list string) (E : list Edge) (m : gmap string Z)
    (ready ordered : list string) : Prop := {
  ki_nodup : NoDup (ordered ++ ready);
  ki_keys : forall k, k ∈ ordered ++ ready -> k ∈ keys;
  ki_deg : forall k, deg m k = cnt k (pending E ordered);
  ki_zero : forall k, k ∈ keys -> (k ∈ ordered ++ ready <-> deg m k = 0%Z);
  ki_before : forall a b, (a, b) ∈ E -> b ∈ ordered -> before ordered a b;
}.

Lemma kahn_step keys E m ready ordered key m' new :
  (forall a b, (a, b) ∈ E -> a ∈ keys /\ b ∈ keys) ->
  kahn_inv keys E m (key :: ready) ordered ->
  NoDup new -> (forall k, k ∈ new <-> k ∈ succs E key /\ deg m k = cnt k (succs E key)) ->
  (forall k, deg m' k = (deg m k - cnt k (succs E key))%Z) ->
  kahn_inv keys E m' (ready ++ new) (ordered ++ [key]).
Proof.
  intros HE [Hnd Hkeys Hdeg Hzero Hbef] Hnew Hin Hdeg'.
  assert (key ∈ ordered ++ key :: ready) as Hkey by set_solver.
  assert (key ∉ ordered) as Hko.
  { apply NoDup_app in Hnd as (_ & Hdis & _). intros H. apply (Hdis _ H), list_elem_of_here. }
  assert (forall k, deg m' k = cnt k (pending E (ordered ++ [key]))) as Hd.
  { intros k. rewrite Hdeg', Hdeg, (pending_snoc E ordered key k Hko). lia. }
  assert ((ordered ++ [key]) ++ ready ++ new = (ordered ++ key :: ready) ++ new) as Heq.
  { by rewrite <- !app_assoc. }
  assert (forall k, k ∈ new -> k ∈ keys /\ (0 < deg m k)%Z) as Hnk.
  { intros k [Hs Hc]%Hin. split; [apply succs_elem in Hs; by destruct (HE _ _ Hs)|].
    rewrite Hc. by apply cnt_pos. }
  split; rewrite ?Heq.
  - apply NoDup_app. split; [done|]. split; [|done]. intros k Hk Hkn.
    destruct (Hnk k Hkn) as [Hkk Hpos]. apply (Hzero k Hkk) in Hk. lia.
  - intros k [Hk|Hk]%elem_of_app; [by apply Hkeys|by apply Hnk].
  - exact Hd.
  - intros k Hk. rewrite elem_of_app, Hin, (Hzero k Hk), Hdeg'.
    assert (cnt k (succs E key) <= deg m k)%Z as Hle.
    { rewrite Hdeg, (pending_snoc E ordered key k Hko). pose proof (cnt_nonneg k (pending E (ordered ++ [key]))). lia. }
    pose proof (cnt_nonneg k (succs E key)). rewrite <- cnt_pos. lia.
  - intros a b Hab [Hb|Hb%list_elem_of_singleton]%elem_of_app; [by apply before_snoc, Hbef|].
    subst b. apply before_last. destruct (decide (a ∈ ordered)) as [|Ha]; [done|exfalso].
    assert (key ∈ pending E ordered) as Hp by (apply pending_elem; eauto).
    apply cnt_pos in Hp. rewrite <- Hdeg in Hp.
    apply (Hzero key (Hkeys _ Hkey)) in Hkey. lia.
Qed.

Lemma kahn_run keys E out m ready ordered fuel res :
  (forall a b, (a, b) ∈ E -> a ∈ keys /\ b ∈ keys) ->
  (forall k, bucket out k = succs E k) ->
  kahn_inv keys E m ready ordered ->
  kahn fuel out m ready ordered = Some res ->
  exists m', kahn_inv keys E m' [] res.
Proof.
  intros HE Hout. revert m ready ordered; induction fuel as [|fuel IH]; intros m [|key ready] ordered Hinv;
    cbn [kahn]; try (intros [= <-]; by exists m).
  fold (bucket out key). rewrite Hout.
  destruct (release_spec (succs E key) m ready) as (new & Hr & Hnd & Hin & Hd).
  { intros k. rewrite (ki_deg _ _ _ _ _ Hinv k), (pending_snoc E ordered key k).
    - pose proof (cnt_nonneg k (pending E (ordered ++ [key]))). lia.
    - pose proof (ki_nodup _ _ _ _ _ Hinv) as (_ & Hdis & _)%NoDup_app.
      intros H. apply (Hdis _ H), list_elem_of_here. }
  destruct (release (succs E key) (m, ready)) as [m' ready']. simpl in Hr. subst ready'.
  apply IH. by eapply kahn_step.
Qed.

Lemma pending_nil E : pending E [] = E.*2.
Proof.
  unfold pending. induction E as [|e E IH]; [done|].
  rewrite filter_cons, decide_True by apply not_elem_of_nil. rewrite !fmap_cons. by rewrite IH.
Qed.

Lemma kahn_inv_init keys edges m :
  NoDup keys -> (forall k, deg m k = cnt k (good keys edges).*2) ->
  kahn_inv keys (good keys edges) m (filter (fun k => default 0%Z (m !! k) = 0%Z) keys) [].
Proof.
  intros Hnd Hm. split; simpl.
  - by apply NoDup_filter.
  - intros k [_ ?]%list_elem_of_filter. done.
  - intros k. by rewrite Hm, pending_nil.
  - intros k Hk. rewrite list_elem_of_filter. unfold deg. tauto.
  - by intros a b _ ?%not_elem_of_nil.
Qed.

(** The edges with both ends among the nodes, as a relation. *)
Definition edge_rel (keys : list string) (edges : list Edge) : relation string :=
  fun a b => (a, b) ∈ good keys edges.

Lemma topologicalOrder_run keys edges :
  NoDup keys ->
  exists ordered m, kahn_inv keys (good keys edges) m [] ordered /\
    topologicalOrder keys edges = if (length ordered =? length keys)%nat then ordered else keys.
Proof.
  intros Hnd. unfold topologicalOrder. destruct (topologicalOrder_total keys edges) as [l Hl].
  rewrite Hl. unfold topologicalOrder_fuel in Hl.
  destruct (build_graph_spec keys edges) as [Hout Hdeg].
  destruct (build_graph keys edges) as [out m]. cbn [fst snd] in *.
  destruct (kahn _ out m _ []) as [ordered|] eqn:Hk; [|done]. injection Hl as <-.
  eapply (kahn_run keys (good keys edges)) in Hk as [m' Hinv]; [by exists ordered, m'| |done|].
  - intros a b Hab%good_elem. naive_solver.
  - by apply kahn_inv_init.
Qed.

(** Nodes left out of the order each have a predecessor left out: walking back
    over them repeats a node. *)
Lemma left_out_cycle keys edges ordered m fuel k path :
  kahn_inv keys (good keys edges) m [] ordered ->
  k ∈ keys -> k ∉ ordered -> NoDup path -> (forall x, x ∈ path -> x ∈ keys) ->
  (forall x, x ∈ path -> tc (edge_rel keys edges) k x) -> length keys < fuel + length path ->
  exists x, tc (edge_rel keys edges) x x.
Proof.
  intros Hinv. revert k path; induction fuel as [|fuel IH]; intros k path Hk Hout Hnd Hin Htc Hlen.
  { apply (NoDup_subset_length _ keys) in Hnd; [lia|done]. }
  destruct (decide (k ∈ path)) as [|Hkp]; [by exists k; apply Htc|].
  pose proof (ki_zero _ _ _ _ _ Hinv k Hk) as Hz. rewrite app_nil_r, (ki_deg _ _ _ _ _ Hinv) in Hz.
  assert (k ∈ pending (good keys edges) ordered) as (a & Ha & Hak)%pending_elem.
  { apply cnt_pos. pose proof (cnt_nonneg k (pending (good keys edges) ordered)).
    destruct (decide (cnt k (pending (good keys edges) ordered) = 0%Z)); [tauto|lia]. }
  assert (tc (edge_rel keys edges) a k) as Hak' by by apply tc_once.
  apply (IH a (k :: path)); [by apply good_elem in Hak as (_ & ? & _)|done|by constructor| | |].
  - intros x [->|Hx]%elem_of_cons; auto.
  - intros x [->|Hx]%elem_of_cons; [done|]. eapply tc_l; [exact Hak|auto].
  - simpl. lia.
Qed.

Lemma before_acyclic (R : relation string) l :
  (forall a b, R a b -> before l a b) -> NoDup l -> forall x, ~ tc R x x.
Proof.
  intros Hbef Hnd x Hx.
  assert (forall a b, tc R a b -> before l a b) as Htc.
  { induction 1 as [a b Hab|a b c Hab _ (j' & k & Hj' & Hk & ?)]; [by apply Hbef|].
    destruct (Hbef _ _ Hab) as (i & j & Hi & Hj & ?).
    rewrite (NoDup_lookup _ _ _ _ Hnd Hj' Hj) in *. exists i, k. split; [done|]. split; [done|lia]. }
  destruct (Htc _ _ Hx) as (i & j & Hi & Hj & ?).
  rewrite (NoDup_lookup _ _ _ _ Hnd Hi Hj) in *. lia.
Qed.

(** ** Correctness *)

Lemma topologicalOrder_correct keys edges :
  NoDup keys ->
  topologicalOrder keys edges ≡ₚ keys /\
  ((~ exists x, tc (edge_rel keys edges) x x) -> forall a b,
     (a, b) ∈ edges -> a ∈ keys -> b ∈ keys -> before (topologicalOrder keys edges) a b) /\
  ((exists x, tc (edge_rel keys edges) x x) -> topologicalOrder keys edges = keys).
Proof.
  intros Hnd. destruct (topologicalOrder_run keys edges Hnd) as (ordered & m & Hinv & ->).
  pose proof (ki_nodup _ _ _ _ _ Hinv) as Hno. rewrite app_nil_r in Hno.
  pose proof (ki_keys _ _ _ _ _ Hinv) as Hsub. rewrite app_nil_r in Hsub.
  destruct (Nat.eqb_spec (length ordered) (length keys)) as [Heq|Hneq].
  - assert (ordered ≡ₚ keys) as Hperm.
    { apply submseteq_length_Permutation; [by apply NoDup_submseteq|lia]. }
    assert (forall a b, edge_rel keys edges a b -> before ordered a b) as Hbef.
    { intros a b Hab. apply (ki_before _ _ _ _ _ Hinv); [done|].
      rewrite Hperm. by apply good_elem in Hab as (_ & _ & ?). }
    split; [done|]. split; [|intros [x Hx]; by destruct (before_acyclic _ _ Hbef Hno x)].
    intros _ a b Hab Ha Hb. by apply Hbef, good_elem.
  - split; [done|]. split; [|done]. intros Hno_cycle. exfalso. apply Hno_cycle.
    destruct (decide (Forall (fun k => k ∈ ordered) keys)) as [Hall|Hex].
    + apply (NoDup_subset_length keys ordered) in Hnd; [|by apply Forall_forall].
      apply (NoDup_subset_length ordered keys) in Hno; [lia|done].
    + apply not_Forall_Exists in Hex; [|intros ?; apply _].
      apply Exists_exists in Hex as (k & Hk & Hout).
      apply (left_out_cycle keys edges ordered m (S (length keys)) k []); try done;
        [constructor|by intros ? ?%not_elem_of_nil..|simpl; lia].
Qed.

(** C25. The execution order of a workflow's nodes, where their keys are distinct, is a
    permutation of the nodes it was given; when the edges between known nodes contain
    no cycle, every edge runs source before target; when they contain one, the nodes
    keep the order they were given.  (Edges naming unknown nodes are ignored.)  The loop
    ends within twice as many rounds as there are nodes for any keys, distinct or not;
    the order of repeated keys may break the rest (repeated_keys). *)
Theorem topologicalOrder_spec keys edges :
  is_Some (topologicalOrder_fuel (2 * length keys) keys edges) /\
  (NoDup keys ->
  topologicalOrder keys edges ≡ₚ keys /\
  ((~ exists x, tc (edge_rel keys edges) x x) -> forall a b,
     (a, b) ∈ edges -> a ∈ keys -> b ∈ keys -> before (topologicalOrder keys edges) a b) /\
  ((exists x, tc (edge_rel keys edges) x x) -> topologicalOrder keys edges = keys)).
Proof. split; [apply topologicalOrder_total|apply topologicalOrder_correct]. Qed.

(** With a repeated key an edge may run backwards though there is no cycle, and the
    order given is not kept though there is one. *)
Theorem repeated_keys :
  topologicalOrder ["b"; "b"; "a"] [("a", "b")] = ["b"; "b"; "a"] /\
  topologicalOrder ["c"; "b"; "a"; "a"] [("a", "b"); ("b", "c"); ("c", "b")] = ["a"; "a"; "b"; "c"].
Proof. split; vm_compute; reflexivity. Qed.

Lemma topologicalOrder_spec_witness :
  topologicalOrder ["c"; "a"; "b"] [("a", "b"); ("b", "c"); ("x", "a")] ≡ₚ ["c"; "a"; "b"].
Proof.
  apply (topologicalOrder_spec ["c"; "a"; "b"] [("a", "b"); ("b", "c"); ("x", "a")]).
  repeat constructor; set_solver.
Defined.
