(* ===== verification/Uuid.v ===== *)
(** * UUIDs

    The two generators (src/workflow/steps/uuid_step.hpp and
    src/util/uuid/uuid_generate.hpp) and the two validators
    (src/security/validation/is_valid_uuid.hpp and
    src/util/uuid/uuid_is_valid.hpp).  The draws of the random engine are
    arguments. *)

From S2P Require Import Prelude CxxString.

Open Scope string_scope.

(** [std::isxdigit] *)
Definition is_xdigit (c : ascii) : bool := is_digit c || in_range "a" "f" c || in_range "A" "F" c.

(** ** Validation *)

(** [for (i = 0; i < s.size(); ++i) if (!ok(i, s[i])) return false; return true;] *)
Fixpoint all_at (ok : nat -> ascii -> bool) (i : nat) (s : string) : bool :=
  match s with
  | EmptyString => true
  | String c s' => ok i c && all_at ok (S i) s'
  end.

Definition is_dash_position (i : nat) : bool :=
  (i =? 8)%nat || (i =? 13)%nat || (i =? 18)%nat || (i =? 23)%nat.

Definition uuid_is_valid (uuid : string) : bool :=
  (String.length uuid =? 36)%nat &&
  all_at (fun i c => if is_dash_position i then Ascii.eqb c "-" else is_xdigit c) 0 uuid.

Definition v4_char (i : nat) (c : ascii) : bool :=
  if is_dash_position i then Ascii.eqb c "-"
  else if (i =? 14)%nat then Ascii.eqb c "4"
  else if (i =? 19)%nat then
    let c := to_lower_char c in
    Ascii.eqb c "8" || Ascii.eqb c "9" || Ascii.eqb c "a" || Ascii.eqb c "b"
  else is_xdigit c.

Definition is_valid_uuid (uuid : string) : bool :=
  (String.length uuid =? 36)%nat && all_at v4_char 0 uuid.

(** ** Generation *)

Definition hex_digit (n : Z) : ascii :=
  if (n <? 10)%Z then ascii_of_N (48 + Z.to_N n) else ascii_of_N (87 + Z.to_N n).

(** [std::hex << std::setfill('0') << std::setw(w) << n] for an [n] of at most
    [w] digits. *)
Fixpoint hex (w : nat) (n : Z) : string :=
  match w with
  | 0 => ""
  | S w' => hex w' (Z.shiftr n 4) +:+ String (hex_digit (Z.land n 15)) ""
  end.

(** The value of a [uint64_t]. *)
Definition mask64 (n : Z) : Z := Z.land n (Z.ones 64).

Definition generate_uuid_v4 (draw1 draw2 : Z) : string :=
  let hi := Z.lor (Z.land (mask64 draw1) 0xFFFFFFFFFFFF0FFF) 0x0000000000004000 in
  let lo := Z.lor (Z.land (mask64 draw2) 0x3FFFFFFFFFFFFFFF) 0x8000000000000000 in
  hex 8 (Z.shiftr hi 32) +:+ ("-" +:+ (hex 4 (Z.land (Z.shiftr hi 16) 0xFFFF) +:+ ("-" +:+
  (hex 4 (Z.land hi 0xFFFF) +:+ ("-" +:+ (hex 4 (Z.shiftr lo 48) +:+ ("-" +:+
  hex 12 (Z.land lo 0xFFFFFFFFFFFF)))))))).

(** The digits drawn one by one: [dis i] is the i-th draw of 0..15, [dis2] the
    draw of 8..11. *)
Fixpoint draw_hex (dis : nat -> Z) (from n : nat) : string :=
  match n with
  | 0 => ""
  | S n => String (hex_digit (dis from)) (draw_hex dis (S from) n)
  end.

Definition uuid_generate (dis : nat -> Z) (dis2 : Z) : string :=
  draw_hex dis 0 8 +:+ ("-" +:+ (draw_hex dis 8 4 +:+ ("-4" +:+ (draw_hex dis 12 3 +:+ ("-" +:+
  (String (hex_digit dis2) "" +:+ (draw_hex dis 15 3 +:+ ("-" +:+ draw_hex dis 18 12)))))))).

(** ** Generated identifiers are valid *)

Lemma all_at_app ok i s t : all_at ok i (s +:+ t) = all_at ok i s && all_at ok (i + String.length s) t.
Proof.
  revert i; induction s as [|c s IH]; intros i; [by rewrite string_app_nil_l, Nat.add_0_r|].
  rewrite string_app_cons. cbn [all_at String.length]. rewrite IH, andb_assoc.
  do 2 f_equal. lia.
Qed.

Lemma hex_digit_range (P : Z -> bool) n :
  (0 <= n < 16)%Z -> forallb (fun k => P (Z.of_nat k)) (seq 0 16) = true -> P n = true.
Proof.
  intros Hn Hall. rewrite forallb_forall in Hall. specialize (Hall (Z.to_nat n)).
  rewrite Z2Nat.id in Hall by lia. apply Hall, in_seq. lia.
Qed.

Lemma hex_digit_xdigit n : (0 <= n < 16)%Z -> is_xdigit (hex_digit n) = true.
Proof. intros Hn. by apply (hex_digit_range (fun n => is_xdigit (hex_digit n))). Qed.

Lemma land_15_range n : (0 <= Z.land n 15 < 16)%Z.
Proof. change 15%Z with (Z.ones 4). rewrite Z.land_ones by lia. by apply Z.mod_pos_bound. Qed.

Lemma hex_length w n : String.length (hex w n) = w.
Proof.
  revert n; induction w as [|w IH]; intros n; [done|]. cbn [hex].
  rewrite string_length_app, IH. simpl. lia.
Qed.

Lemma hex_xdigits w n : string_forallb is_xdigit (hex w n) = true.
Proof.
  revert n; induction w as [|w IH]; intros n; [done|]. cbn [hex].
  rewrite string_forallb_app, IH. cbn [string_forallb].
  by rewrite hex_digit_xdigit by apply land_15_range.
Qed.

Lemma draw_hex_length dis i n : String.length (draw_hex dis i n) = n.
Proof. revert i; induction n; intros i; simpl; auto. Qed.

Lemma draw_hex_xdigits dis i n :
  (forall k, (0 <= dis k < 16)%Z) -> string_forallb is_xdigit (draw_hex dis i n) = true.
Proof.
  intros Hd. revert i; induction n as [|n IH]; intros i; [done|]. cbn [draw_hex string_forallb].
  by rewrite hex_digit_xdigit, IH.
Qed.

(** A run of hexadecimal digits at positions without a rule of their own. *)
Lemma all_at_plain i s :
  string_forallb is_xdigit s = true ->
  forallb (fun j => negb (is_dash_position j || (j =? 14)%nat || (j =? 19)%nat)) (seq i (String.length s)) = true ->
  all_at v4_char i s = true.
Proof.
  revert i; induction s as [|c s IH]; intros i; [done|]. cbn [string_forallb String.length seq forallb all_at].
  intros [Hc Hs]%andb_true_iff [Hi Hr]%andb_true_iff. rewrite (IH (S i) Hs Hr), andb_true_r.
  apply negb_true_iff, orb_false_iff in Hi as [[Hd H14]%orb_false_iff H19].
  unfold v4_char. by rewrite Hd, H14, H19.
Qed.

Lemma hex_head w n :
  hex (S w) n = String (hex_digit (Z.land (Z.shiftr n (4 * Z.of_nat w)) 15)) (hex w n).
Proof.
  revert n; induction w as [|w IH]; intros n.
  { cbn [hex]. by rewrite string_app_nil_l, Z.shiftr_0_r. }
  change (hex (S (S w)) n) with (hex (S w) (Z.shiftr n 4) +:+ String (hex_digit (Z.land n 15)) "").
  rewrite IH, string_app_cons, Z.shiftr_shiftr by lia.
  replace (4 + 4 * Z.of_nat w)%Z with (4 * Z.of_nat (S w))%Z by lia. done.
Qed.

(** Evaluates the bits of constants. *)
Ltac eval_bits :=
  repeat match goal with
  | |- context [Z.testbit (Zpos ?p) ?k] =>
      let b := eval vm_compute in (Z.testbit (Zpos p) k) in
      lazymatch b with
      | true => change (Z.testbit (Zpos p) k) with true
      | false => change (Z.testbit (Zpos p) k) with false
      end
  end;
  rewrite ?andb_false_r, ?andb_true_r, ?orb_false_r, ?orb_true_r.

(** The version and variant nibbles set by the masks. *)
Lemma version_nibble n :
  Z.land (Z.shiftr (Z.land (Z.lor (Z.land n 0xFFFFFFFFFFFF0FFF) 0x4000) 0xFFFF) 12) 15 = 4%Z.
Proof.
  apply Z.bits_inj'. intros k Hk.
  rewrite Z.land_spec, Z.shiftr_spec, Z.land_spec, Z.lor_spec, Z.land_spec by lia.
  destruct (decide (k < 4)%Z) as [Hlt|Hge].
  - assert (k = 0 \/ k = 1 \/ k = 2 \/ k = 3)%Z as [->|[->|[->| ->]]] by lia;
      eval_bits; done.
  - assert (Z.testbit 15 k = false) as ->.
    { apply (Z.bits_above_log2 15); [done|]. change (Z.log2 15) with 3%Z. lia. }
    rewrite andb_false_r. symmetry. apply (Z.bits_above_log2 4); [done|]. change (Z.log2 4) with 2%Z. lia.
Qed.

Lemma variant_nibble n :
  exists v, (v = 8 \/ v = 9 \/ v = 10 \/ v = 11)%Z /\
  Z.land (Z.shiftr (Z.shiftr (Z.lor (Z.land n 0x3FFFFFFFFFFFFFFF) 0x8000000000000000) 48) 12) 15 = v.
Proof.
  eexists. split; [|reflexivity]. rewrite Z.shiftr_shiftr by lia. change (48 + 12)%Z with 60%Z.
  assert (forall k, (0 <= k)%Z -> Z.testbit
    (Z.land (Z.shiftr (Z.lor (Z.land n 0x3FFFFFFFFFFFFFFF) 0x8000000000000000) 60) 15) k =
    Z.testbit (Z.b2z (Z.testbit n 60) + 2 * Z.b2z (Z.testbit n 61) + 8) k) as Hbits.
  { intros k Hk. rewrite Z.land_spec, Z.shiftr_spec, Z.lor_spec, Z.land_spec by lia.
    destruct (decide (k < 4)%Z) as [Hlt|Hge].
    - assert (k = 0 \/ k = 1 \/ k = 2 \/ k = 3)%Z as [->|[->|[->| ->]]] by lia;
        eval_bits; change (0 + 60)%Z with 60%Z; change (1 + 60)%Z with 61%Z;
        destruct (Z.testbit n 60), (Z.testbit n 61); done.
    - assert (Z.testbit 15 k = false) as ->.
      { apply (Z.bits_above_log2 15); [done|]. change (Z.log2 15) with 3%Z. lia. }
      rewrite andb_false_r. symmetry. apply Z.bits_above_log2.
      + destruct (Z.testbit n 60), (Z.testbit n 61); done.
      + destruct (Z.testbit n 60), (Z.testbit n 61); simpl; lia. }
  rewrite (Z.bits_inj' _ _ Hbits). destruct (Z.testbit n 60), (Z.testbit n 61); simpl; lia.
Qed.

Lemma v4_variant (n : Z) :
  (n = 8 \/ n = 9 \/ n = 10 \/ n = 11)%Z -> v4_char 19 (hex_digit n) = true.
Proof. by intros [->|[->|[->| ->]]]. Qed.

(** The shape of every generated identifier. *)
Lemma v4_shape a b c (v : Z) d e :
  String.length a = 8 -> String.length b = 4 -> String.length c = 3 ->
  String.length d = 3 -> String.length e = 12 ->
  Forall (fun s => string_forallb is_xdigit s = true) [a; b; c; d; e] ->
  (v = 8 \/ v = 9 \/ v = 10 \/ v = 11)%Z ->
  is_valid_uuid (a +:+ ("-" +:+ (b +:+ ("-" +:+ (String "4" c +:+ ("-" +:+
    (String (hex_digit v) d +:+ ("-" +:+ e)))))))) = true.
Proof.
  intros Ha Hb Hc Hd He Hall Hv.
  rewrite !Forall_cons in Hall. destruct Hall as (Xa & Xb & Xc & Xd & Xe & _).
  unfold is_valid_uuid. rewrite !string_length_app. cbn [String.length].
  rewrite Ha, Hb, Hc, Hd, He. cbn [Nat.add Nat.eqb andb].
  rewrite !all_at_app. cbn [String.length all_at].
  rewrite Ha, Hb, Hc, Hd. cbn [Nat.add].
  rewrite !all_at_plain by (try done; by rewrite ?Ha, ?Hb, ?Hc, ?Hd, ?He).
  by rewrite v4_variant.
Qed.

(** Every identifier either generator produces, whatever the random draws,
    is accepted by the version-4 validator, and everything that validator
    accepts is accepted by the general one. *)
Theorem uuid_generators_valid :
  (forall draw1 draw2, is_valid_uuid (generate_uuid_v4 draw1 draw2) = true) /\
  (forall dis dis2, (forall i, (0 <= dis i < 16)%Z) -> (8 <= dis2 <= 11)%Z ->
     is_valid_uuid (uuid_generate dis dis2) = true) /\
  (forall s, is_valid_uuid s = true -> uuid_is_valid s = true).
Proof.
  split; [|split].
  - intros draw1 draw2. unfold generate_uuid_v4.
    rewrite (hex_head 3 (Z.land (Z.lor _ _) 65535)). change (4 * Z.of_nat 3)%Z with 12%Z. rewrite version_nibble.
    destruct (variant_nibble (mask64 draw2)) as (v & Hv & Heq).
    rewrite (hex_head 3 (Z.shiftr _ 48)). change (4 * Z.of_nat 3)%Z with 12%Z. rewrite Heq.
    apply v4_shape; rewrite ?hex_length; try done.
    repeat constructor; apply hex_xdigits.
  - intros dis dis2 Hd H2. unfold uuid_generate.
    apply (v4_shape (draw_hex dis 0 8) (draw_hex dis 8 4) (draw_hex dis 12 3) dis2
      (draw_hex dis 15 3) (draw_hex dis 18 12)); rewrite ?draw_hex_length; try done; [|lia].
    repeat constructor; by apply draw_hex_xdigits.
  - intros s. unfold is_valid_uuid, uuid_is_valid. intros [-> Hs]%andb_true_iff. simpl.
    revert Hs. generalize 0. induction s as [|c s IH]; intros i; [done|]. cbn [all_at].
    intros [Hc Hs]%andb_true_iff. rewrite (IH _ Hs), andb_true_r. revert Hc. unfold v4_char.
    destruct (is_dash_position i); [done|].
    destruct (i =? 14)%nat; [by intros ->%Ascii.eqb_eq|]. destruct (i =? 19)%nat; [|done].
    assert (forall c, implb (let c := to_lower_char c in
      Ascii.eqb c "8" || Ascii.eqb c "9" || Ascii.eqb c "a" || Ascii.eqb c "b") (is_xdigit c) = true) as Hall.
    { apply ascii_forall. reflexivity. }
    cbv zeta. specialize (Hall c). cbv zeta in Hall. intros Hc. by rewrite Hc in Hall.
Qed.
