(* ===== verification/Json.v ===== *)
(** * JSON values

    The values of nlohmann::json the workflow engine and the daemon pass around:
    an inductive type, with an object as an association list in increasing key
    order (the default object type of the library is [std::map]), and the
    accessors the sources use with the exceptions they raise.  Parsing and
    printing text are the library's own and are operations of [JsonLib]. *)

From Stdlib Require Import SpecFloat.
From S2P Require Import Prelude CxxString CxxStd.

Open Scope string_scope.

(** Numbers are integers (64 bits) or IEEE doubles. *)
Inductive json :=
  | JNull
  | JBool (b : bool)
  | JInt (z : Z)
  | JFloat (f : spec_float)
  | JString (s : string)
  | JArray (l : list json)
  | JObject (m : list (string * json)).

(** Text conversions of the JSON library, and [std::stod] with the number of
    characters it used; [None] where they raise an exception. *)
Class JsonLib := {
  dump_text : json -> option string;
  parse : string -> option json;
  stod : string -> option (spec_float * nat);
}.

(** [v.dump()]: text that is not UTF-8 raises an exception. *)
Definition dump `{!JsonLib} (v : json) : Result string :=
  match dump_text v with Some s => Ok s | None => Throw (json_error 316) end.

(** ** Predicates and accessors *)

Definition is_null (v : json) : bool := match v with JNull => true | _ => false end.
Definition is_boolean (v : json) : bool := match v with JBool _ => true | _ => false end.
Definition is_string (v : json) : bool := match v with JString _ => true | _ => false end.
Definition is_object (v : json) : bool := match v with JObject _ => true | _ => false end.
Definition is_array (v : json) : bool := match v with JArray _ => true | _ => false end.
Definition is_number (v : json) : bool :=
  match v with JInt _ | JFloat _ => true | _ => false end.

Abbreviation members := (list (string * json)).

Fixpoint obj_get (k : string) (m : members) : option json :=
  match m with
  | [] => None
  | (k', v) :: m' => if String.eqb k k' then Some v else obj_get k m'
  end.

(** [m[k] = v], keeping the keys in order. *)
Fixpoint obj_set (k : string) (v : json) (m : members) : members :=
  match m with
  | [] => [(k, v)]
  | (k', v') :: m' =>
      if String.eqb k k' then (k, v) :: m'
      else if String.ltb k k' then (k, v) :: m
      else (k', v') :: obj_set k v m'
  end.

(** [v.contains(k)] and [v[k]]: only objects have members. *)
Definition member (v : json) (k : string) : option json :=
  match v with JObject m => obj_get k m | _ => None end.
Definition has_member (v : json) (k : string) : bool :=
  match member v k with Some _ => true | None => false end.

(** [v[k]] as a string, when it is one. *)
Definition string_member (v : json) (k : string) : option string :=
  match member v k with Some (JString s) => Some s | _ => None end.

(** [v.value(k, def)] with a JSON default. *)
Definition value_json (v : json) (k : string) (def : json) : Result json :=
  match v with
  | JObject m => Ok (default def (obj_get k m))
  | _ => Throw (json_error 306)
  end.

(** [v.value(k, def)] with a string default: a member of another type throws. *)
Definition value_string (v : json) (k : string) (def : string) : Result string :=
  match v with
  | JObject m =>
      match obj_get k m with
      | None => Ok def
      | Some (JString s) => Ok s
      | Some _ => Throw (json_error 302)
      end
  | _ => Throw (json_error 306)
  end.

(** [v.get<std::string>()] *)
Definition get_string (v : json) : Result string :=
  match v with JString s => Ok s | _ => Throw (json_error 302) end.

(** A range-[for] over a JSON value. *)
Definition iterate (v : json) : list json :=
  match v with JNull => [] | JArray l => l | JObject m => m.*2 | v => [v] end.

(** [v.value(k, def)] with a Boolean default. *)
Definition value_bool (v : json) (k : string) (def : bool) : Result bool :=
  match v with
  | JObject m =>
      match obj_get k m with
      | None => Ok def | Some (JBool b) => Ok b | Some _ => Throw (json_error 302)
      end
  | _ => Throw (json_error 306)
  end.
(** [v.at(k)] *)
Definition at_member (v : json) (k : string) : Result json :=
  match v with
  | JObject m => match obj_get k m with Some x => Ok x | None => Throw (json_error 403) end
  | _ => Throw (json_error 304)
  end.

(** [v.items()]: the elements of an array go by their position. *)
Definition items (v : json) : list (string * json) :=
  match v with
  | JNull => []
  | JArray l => imap (fun i x => (to_string (Z.of_nat i), x)) l
  | JObject m => m
  | v => [("", v)]
  end.

(** [v[k] = x] on a mutable value: null becomes an object. *)
Definition assign_member (v : json) (k : string) (x : json) : Result json :=
  match v with
  | JObject m => Ok (JObject (obj_set k x m))
  | JNull => Ok (JObject [(k, x)])
  | _ => Throw (json_error 305)
  end.

(** The integer part of a double, when it has one. *)
Definition float_trunc (f : spec_float) : option Z :=
  match f with
  | S754_zero _ => Some 0%Z
  | S754_finite s m e =>
      let a := if (0 <=? e)%Z then Z.shiftl (Zpos m) e else Z.shiftr (Zpos m) (- e) in
      Some (if s then - a else a)%Z
  | _ => None
  end.

(** [static_cast<int>] of a 64-bit integer keeps the low 32 bits. *)
Definition wrap_int (z : Z) : Z := ((z - INT_MIN) mod 2 ^ 32 + INT_MIN)%Z.

(** [v.get<int>()]: a double outside [int] is undefined. *)
Definition get_int (v : json) : Result Z :=
  match v with
  | JInt z => Ok (wrap_int z)
  | JBool b => Ok (Z.b2z b)
  | JFloat f =>
      match float_trunc f with
      | Some z => if in_int z then Ok z else Undef
      | None => Undef
      end
  | _ => Throw (json_error 302)
  end.

(** [v.value(k, def)] with an [int] default. *)
Definition value_int (v : json) (k : string) (def : Z) : Result Z :=
  match v with
  | JObject m => match obj_get k m with Some x => get_int x | None => Ok def end
  | _ => Throw (json_error 306)
  end.

(** [v.value(k, def)] with a 64-bit integer default. *)
Definition in_int64 (z : Z) : bool := (- 2 ^ 63 <=? z)%Z && (z <? 2 ^ 63)%Z.
Definition value_int64 (v : json) (k : string) (def : Z) : Result Z :=
  match v with
  | JObject m =>
      match obj_get k m with
      | None => Ok def
      | Some (JInt z) => Ok z
      | Some (JBool b) => Ok (Z.b2z b)
      | Some (JFloat f) =>
          match float_trunc f with
          | Some z => if in_int64 z then Ok z else Undef
          | None => Undef
          end
      | Some _ => Throw (json_error 302)
      end
  | _ => Throw (json_error 306)
  end.

(** [v.get<int64_t>()]: a double loses its fraction. *)
Definition get_int64 (v : json) : Result Z :=
  match v with
  | JInt z => Ok z
  | JFloat f =>
      match float_trunc f with Some z => if in_int64 z then Ok z else Undef | None => Undef end
  | _ => Throw (json_error 302)
  end.

(** A braced list of keys and values, or the assignments of its members to an
    empty value one after the other. *)
Definition build (l : members) : members := foldl (fun m kv => obj_set kv.1 kv.2 m) [] l.
Definition object (l : members) : json := JObject (build l).

(** A string, or null when there is none. *)
Definition or_null (o : option string) : json :=
  match o with Some s => JString s | None => JNull end.

(** ** Lemmas *)

Lemma obj_get_set k v m k' :
  obj_get k' (obj_set k v m) = if String.eqb k' k then Some v else obj_get k' m.
Proof.
  induction m as [|[k0 v0] m IH]; simpl; [done|].
  destruct (String.eqb_spec k k0) as [->|Hne]; simpl.
  - by destruct (String.eqb k' k0).
  - destruct (String.ltb k k0); simpl; [done|]. rewrite IH.
    destruct (String.eqb_spec k' k0) as [->|]; [|done].
    by destruct (String.eqb_spec k0 k).
Qed.

Lemma obj_get_app k (l l' : members) :
  obj_get k (l ++ l')%list = match obj_get k l with Some v => Some v | None => obj_get k l' end.
Proof.
  induction l as [|[k' v] l IH]; [done|]. cbn [app obj_get]. by destruct (String.eqb k k').
Qed.

(** Of several assignments to one member the last one counts. *)
Lemma obj_get_build k l : obj_get k (build l) = obj_get k (reverse l).
Proof.
  unfold build. induction l as [|[k' v] l IH] using rev_ind; [done|].
  rewrite foldl_app, reverse_snoc. cbn [foldl fst snd obj_get]. by rewrite obj_get_set, IH.
Qed.

Lemma wrap_int_range z : in_int (wrap_int z) = true.
Proof.
  apply in_int_spec. unfold wrap_int, INT_MIN, INT_MAX.
  pose proof (Z.mod_pos_bound (z - - 2 ^ 31) (2 ^ 32)). lia.
Qed.

Lemma wrap_int_id z : in_int z = true -> wrap_int z = z.
Proof.
  intros Hz%in_int_spec. unfold wrap_int, INT_MIN, INT_MAX in *. rewrite Z.mod_small; lia.
Qed.

(** Induction through arrays and objects. *)
Section JsonInd.
Context (P : json -> Prop)
  (Hnull : P JNull) (Hbool : forall b, P (JBool b)) (Hint : forall z, P (JInt z))
  (Hfloat : forall f, P (JFloat f)) (Hstring : forall s, P (JString s))
  (Harray : forall l, Forall P l -> P (JArray l))
  (Hobject : forall m, Forall (fun e => P e.2) m -> P (JObject m)).

Fixpoint json_ind' (v : json) : P v :=
  match v with
  | JNull => Hnull
  | JBool b => Hbool b
  | JInt z => Hint z
  | JFloat f => Hfloat f
  | JString s => Hstring s
  | JArray l => Harray l ((fix go l := match l return Forall P l with
      | [] => Forall_nil_2 _
      | x :: l => Forall_cons_2 _ x l (json_ind' x) (go l) end) l)
  | JObject m => Hobject m ((fix go m := match m return Forall (fun e => P e.2) m with
      | [] => Forall_nil_2 _
      | (k, x) :: m => Forall_cons_2 (fun e => P e.2) (k, x) m (json_ind' x) (go m) end) m)
  end.
End JsonInd.

(** A small JSON library, for the concrete evaluations: it prints the scalars
    and reads back "null" and the two booleans. *)
Definition scalar_json : JsonLib := {|
  dump_text v :=
    match v with
    | JNull => Some "null"
    | JBool b => Some (if b then "true" else "false")
    | JInt z => Some (to_string z)
    | _ => None
    end;
  parse s :=
    if String.eqb s "null" then Some JNull
    else if String.eqb s "true" then Some (JBool true)
    else if String.eqb s "false" then Some (JBool false) else None;
  stod _ := None;
|}.
