(* ===== verification/PlainJson.v ===== *)
(** * A JSON text library for concrete runs

    The text conversions of nlohmann::json are a class ([JsonLib] of Json.v).  This
    instance prints and reads the values without floating-point numbers whose
    strings have no character to escape, in the compact form of [dump()]; the
    evaluations of the files that talk to servers in JSON run on it. *)

From S2P Require Import Prelude CxxString CxxStd Json.

Open Scope string_scope.

Definition dquote : string := String "034" "".
Definition plain_text_char (c : ascii) : bool :=
  negb (Ascii.eqb c "034" || Ascii.eqb c "\" || (byte_of c <? 32)%N || (126 <? byte_of c)%N).
Definition quoted (s : string) : option string :=
  if string_forallb plain_text_char s then Some (dquote +:+ (s +:+ dquote)) else None.

(** Printing. *)
Fixpoint plain_print (v : json) : option string :=
  match v with
  | JNull => Some "null"
  | JBool b => Some (if b then "true" else "false")
  | JInt z => Some (to_string z)
  | JFloat _ => None
  | JString s => quoted s
  | JArray l =>
      let fix elements (sep : string) (l : list json) : option string :=
        match l with
        | [] => Some "]"
        | v :: l => a ← plain_print v; b ← elements "," l; Some (sep +:+ (a +:+ b))
        end in
      b ← elements "" l; Some ("[" +:+ b)
  | JObject m =>
      let fix members_of (sep : string) (m : list (string * json)) : option string :=
        match m with
        | [] => Some "}"
        | (k, v) :: m => q ← quoted k; a ← plain_print v; b ← members_of "," m; Some (sep +:+ (q +:+ (":" +:+ (a +:+ b))))
        end in
      b ← members_of "" m; Some ("{" +:+ b)
  end.

(** Reading: a text after its opening quote, and a number. *)
Fixpoint read_quoted (s : string) : option (string * string) :=
  match s with
  | EmptyString => None
  | String c s =>
      if Ascii.eqb c "034" then Some ("", s)
      else if plain_text_char c then '(t, s) ← read_quoted s; Some (String c t, s) else None
  end.
Fixpoint drop_prefix (p s : string) : option string :=
  match p, s with
  | EmptyString, _ => Some s
  | String a p, String b s => if Ascii.eqb a b then drop_prefix p s else None
  | _, _ => None
  end.
Definition read_number (s : string) : option (json * string) :=
  let '(sign, t) := match s with String "-" t => ((-1)%Z, t) | _ => (1%Z, s) end in
  let d := take_digits t in
  if is_empty d then None
  else Some (JInt (sign * Z.of_N (dec_val d 0)), string_drop (String.length d) t).

(** One value, and what follows it: the fuel is the length of the text. *)
Fixpoint read_value (fuel : nat) (s : string) : option (json * string) :=
  match fuel with
  | 0 => None
  | S fuel =>
      match s with
      | String "n" _ => r ← drop_prefix "null" s; Some (JNull, r)
      | String "t" _ => r ← drop_prefix "true" s; Some (JBool true, r)
      | String "f" _ => r ← drop_prefix "false" s; Some (JBool false, r)
      | String "034" s => '(t, r) ← read_quoted s; Some (JString t, r)
      | String "[" (String "]" s) => Some (JArray [], s)
      | String "[" s =>
          (fix elements (n : nat) (s : string) (acc : list json) : option (json * string) :=
             match n with
             | 0 => None
             | S n => '(v, r) ← read_value fuel s;
                 match r with
                 | String "," r => elements n r (v :: acc)
                 | String "]" r => Some (JArray (reverse (v :: acc)), r)
                 | _ => None
                 end
             end) fuel s []
      | String "{" (String "}" s) => Some (JObject [], s)
      | String "{" s =>
          (fix members_of (n : nat) (s : string) (acc : members) : option (json * string) :=
             match n with
             | 0 => None
             | S n => r ← drop_prefix dquote s; '(k, r) ← read_quoted r; r ← drop_prefix ":" r; '(v, r) ← read_value fuel r;
                 match r with
                 | String "," r => members_of n r (obj_set k v acc)
                 | String "}" r => Some (JObject (obj_set k v acc), r)
                 | _ => None
                 end
             end) fuel s []
      | _ => read_number s
      end
  end.
Definition plain_parse (s : string) : option json :=
  match read_value (S (String.length s)) s with Some (v, EmptyString) => Some v | _ => None end.

Definition plain_json : JsonLib := {| dump_text := plain_print; parse := plain_parse; stod _ := None |}.

Example plain_json_reads_back :
  let v := object [("a", JArray [JInt 1; JInt (-20); JNull; object []]); ("b", object [("c", JString "x y"); ("d", JBool true)])] in
  (plain_print v ≫= plain_parse) = Some v.
Proof. vm_compute. reflexivity. Qed.

(** ** Equality of values *)

Fixpoint json_eqb (v w : json) : bool :=
  match v, w with
  | JNull, JNull => true
  | JBool a, JBool b => Bool.eqb a b
  | JInt a, JInt b => (a =? b)%Z
  | JString a, JString b => String.eqb a b
  | JArray l, JArray k =>
      (fix go (l k : list json) : bool :=
         match l, k with [], [] => true | v :: l, w :: k => json_eqb v w && go l k | _, _ => false end) l k
  | JObject l, JObject k =>
      (fix go (l k : list (string * json)) : bool :=
         match l, k with
         | [], [] => true
         | (a, v) :: l, (b, w) :: k => String.eqb a b && (json_eqb v w && go l k)
         | _, _ => false
         end) l k
  | _, _ => false
  end.

Lemma json_eqb_sound v : forall w, json_eqb v w = true -> v = w.
Proof.
  induction v as [|b|z|f|s|l IH|m IH] using json_ind'; intros [|b'|z'|f'|s'|l'|m'] Heq; try discriminate Heq.
  - done.
  - f_equal. by apply Bool.eqb_prop.
  - f_equal. by apply Z.eqb_eq.
  - f_equal. by apply String.eqb_eq.
  - f_equal. revert l' Heq. induction IH as [|v l Hv _ IH']; intros [|w k] Heq; try discriminate Heq; [done|].
    cbn in Heq. apply andb_true_iff in Heq as [H1 H2]. f_equal; [by apply Hv|by apply IH'].
  - f_equal. revert m' Heq. induction IH as [|[a v] l Hv _ IH']; intros [|[b w] k] Heq; try discriminate Heq; [done|].
    cbn in Heq. apply andb_true_iff in Heq as [H0 [H1 H2]%andb_true_iff].
    apply String.eqb_eq in H0. subst. f_equal; [f_equal; by apply Hv|by apply IH'].
Qed.
