(* ===== verification/EntityHost.v ===== *)
(** * The generic entity operations, as an interface

    Most of the daemon stores its data through five operations of Client
    (src/client_entity_ops.cpp) that delegate to the configured database
    adapter (include/dbal/adapters/adapter.hpp).  [Host] is the interface their
    callers use; [EntityDb] adds what a database promises about them: every
    entity is a table of rows by identifier, a listing shows matching rows in
    an order of its own choosing, a write changes what it is asked to change, a
    call that fails changes nothing.  [table_db] is an implementation of both. *)

From S2P Require Import Prelude CxxString CxxStd Store Json.

Open Scope string_scope.

(** ** The operations *)

(** [ListOptions] as default-constructed (include/dbal/core/types.hpp). *)
Definition default_options : ListOptions :=
  {| opt_filter := ∅; opt_sort := ∅; opt_page := 1; opt_limit := 20 |}.

(** The generic entity operations of the client, [std::time] and two draws of
    [std::random_device]'s generator. *)
Class Host (W : Type) := {
  createEntity : string -> json -> Op W json;
  getEntity : string -> string -> Op W json;
  updateEntity : string -> string -> json -> Op W json;
  deleteEntity : string -> string -> Op W bool;
  listEntities : string -> ListOptions -> Op W (list json);
  host_time : W -> Z;
  host_random64 : W -> Z * W;
}.

(** ** What a database promises *)

(** A row holds the value [v] in the column [k] of every entry of the filter. *)
Definition matches (filter : gmap string string) (m : members) : Prop :=
  map_Forall (fun k v => string_member (JObject m) k = Some v) filter.
#[export] Instance matches_dec filter m : Decision (matches filter m).
Proof. unfold matches. apply _. Defined.

(** The members of [patch] replace those of [m]. *)
Definition patched (patch m m' : members) : Prop :=
  forall k, obj_get k m' = match obj_get k patch with Some v => Some v | None => obj_get k m end.

Abbreviation table := (gmap string members).

Definition matching (filter : gmap string string) (t : table) : list members :=
  base.filter (matches filter) (map_to_list t).*2.

(** [t'] is [t] with the row [m] added under an identifier that is new. *)
Definition row_added (d : members) (t t' : table) (m : members) : Prop :=
  exists id, t !! id = None /\ t' = <[id := m]> t /\ obj_get "id" m = Some (JString id) /\
    forall k v, k <> "id" -> obj_get k d = Some v -> obj_get k m = Some v.

(** How a call on the table of [entity] may end: with the tables changed as [Q]
    says of the result and the new table, or with an error and the tables as
    they were. *)
Definition changes {W A} (rows : W -> string -> table) (entity : string) (w : W)
    (r : Result A * W) (Q : A -> table -> Prop) : Prop :=
  match r with
  | (Ok a, w') => Q a (rows w' entity) /\ forall e, e <> entity -> rows w' e = rows w e
  | (Err _, w') => forall e, rows w' e = rows w e
  | _ => False
  end.

Class EntityDb (W : Type) `{Host W} := {
  rows : W -> string -> table;
  db_ids : forall w e id m, rows w e !! id = Some m -> obj_get "id" m = Some (JString id) /\ id <> "";
  db_list : forall w e opts, opt_sort opts = ∅ -> opt_page opts = 1%Z -> (0 < opt_limit opts)%Z ->
    match listEntities e opts w with
    | (Ok items, w') => (forall e', rows w' e' = rows w e') /\
        exists l, l ≡ₚ matching (opt_filter opts) (rows w e) /\
          items = JObject <$> take (Z.to_nat (opt_limit opts)) l
    | (Err _, w') => forall e', rows w' e' = rows w e'
    | _ => False
    end;
  db_create : forall w e d,
    changes rows e w (createEntity e (JObject d) w) (fun row t' =>
      exists m, row = JObject m /\ row_added d (rows w e) t' m);
  db_update : forall w e id patch, obj_get "id" patch = None ->
    changes rows e w (updateEntity e id (JObject patch) w) (fun row t' =>
      exists m m', rows w e !! id = Some m /\ patched patch m m' /\ t' = <[id := m']> (rows w e));
}.

(** ** Looking rows up *)

(** The query by one column that the stores below make. *)
Definition by_column (k v : string) (limit : Z) : ListOptions :=
  {| opt_filter := {[k := v]}; opt_sort := opt_sort default_options;
     opt_page := opt_page default_options; opt_limit := limit |}.

Lemma elem_of_matching k v (t : table) m :
  m ∈ matching {[k := v]} t <-> exists id, t !! id = Some m /\ string_member (JObject m) k = Some v.
Proof.
  unfold matching. rewrite list_elem_of_filter, list_elem_of_fmap. unfold matches.
  rewrite map_Forall_singleton. split.
  - intros (Hv & [id m'] & -> & Hin). apply elem_of_map_to_list in Hin. eauto.
  - intros (id & Hid & Hv). split; [done|]. exists (id, m). split; [done|]. by apply elem_of_map_to_list.
Qed.

Section Lookup.
Context {W : Type} `{!Host W} `{!EntityDb W}.

(** What a query for one row finds, with the tables unchanged. *)
Lemma find_one e k v w :
  match listEntities e (by_column k v 1) w with
  | (Ok [], w') => (forall e', rows w' e' = rows w e') /\
      forall id m, rows w e !! id = Some m -> string_member (JObject m) k <> Some v
  | (Ok (row :: _), w') => (forall e', rows w' e' = rows w e') /\
      exists id m, row = JObject m /\ rows w e !! id = Some m /\
        string_member (JObject m) k = Some v /\ obj_get "id" m = Some (JString id) /\ id <> ""
  | (Err _, w') => forall e', rows w' e' = rows w e'
  | _ => False
  end.
Proof.
  pose proof (db_list w e (by_column k v 1) eq_refl eq_refl ltac:(done)) as H.
  destruct (listEntities e (by_column k v 1) w) as [[items|er|x|] w']; try done.
  destruct H as (Hsame & l & Hl & ->). cbn [by_column opt_filter opt_limit] in *.
  change (Z.to_nat 1) with 1. destruct l as [|m l]; cbn [take fmap list_fmap].
  - split; [done|]. intros id m Hm Hv.
    assert (m ∈ matching {[k := v]} (rows w e)) as Hin by (apply elem_of_matching; eauto).
    rewrite <- Hl in Hin. by apply elem_of_nil in Hin.
  - split; [done|].
    assert (m ∈ matching {[k := v]} (rows w e)) as (id & Hid & Hv)%elem_of_matching
      by (rewrite <- Hl; apply list_elem_of_here).
    exists id, m. destruct (db_ids _ _ _ _ Hid). done.
Qed.

Lemma NoDup_matching w e f : NoDup (matching f (rows w e)).
Proof.
  unfold matching. apply NoDup_filter, NoDup_fmap_2_strong; [|apply NoDup_map_to_list].
  intros [id1 m1] [id2 m2] H1%elem_of_map_to_list H2%elem_of_map_to_list [= ->].
  destruct (db_ids _ _ _ _ H1) as [Hid1 _]. destruct (db_ids _ _ _ _ H2) as [Hid2 _]. congruence.
Qed.

#[export] Instance JObject_inj : Inj (=) (=) JObject.
Proof. by intros ? ? [= ->]. Qed.

(** A query with room for every row of a column finds exactly those. *)
Lemma find_all e k v limit w :
  (0 < limit)%Z -> (Z.of_nat (base.size (rows w e)) <= limit)%Z ->
  match listEntities e (by_column k v limit) w with
  | (Ok items, w') => (forall e', rows w' e' = rows w e') /\ NoDup items /\
      forall r, r ∈ items <-> exists id m, r = JObject m /\ rows w e !! id = Some m /\
                                string_member (JObject m) k = Some v
  | (Err _, w') => forall e', rows w' e' = rows w e'
  | _ => False
  end.
Proof.
  intros Hpos Hsize. pose proof (db_list w e (by_column k v limit) eq_refl eq_refl Hpos) as H.
  destruct (listEntities e (by_column k v limit) w) as [[items|er|x|] w']; try done.
  destruct H as (Hsame & l & Hl & ->). cbn [by_column opt_filter opt_limit] in *. split; [done|].
  assert (length l <= Z.to_nat limit) as Hlen.
  { rewrite Hl. unfold matching. etrans; [apply length_filter|].
    rewrite length_fmap, length_map_to_list. lia. }
  rewrite take_ge by done. split.
  { apply (NoDup_fmap_2 JObject). rewrite Hl. apply NoDup_matching. }
  intros r. rewrite list_elem_of_fmap. setoid_rewrite Hl.
  setoid_rewrite elem_of_matching. naive_solver.
Qed.
End Lookup.

(** ** An implementation *)

(** A database in memory: a table per entity.  Only rows that carry their own
    identifier are shown. *)
Abbreviation TableDb := (gmap string table).

Definition shown (kv : string * members) : Prop :=
  string_member (JObject kv.2) "id" = Some kv.1 /\ kv.1 <> "".
#[export] Instance shown_dec kv : Decision (shown kv).
Proof. unfold shown. apply _. Defined.

Definition table_of (db : TableDb) (e : string) : table := default ∅ (db !! e).
Definition view (db : TableDb) (e : string) : table := base.filter shown (table_of db e).

(** Longer than every identifier of the table. *)
Definition fresh_id (t : table) : string :=
  zeros (S (list_max (String.length <$> (map_to_list t).*1))).

Definition merge (patch m : members) : members := foldr (fun kv m => obj_set kv.1 kv.2 m) m patch.

Definition table_db : Host TableDb := {|
  createEntity e data := fun db =>
    match data with
    | JObject d =>
        let id := fresh_id (table_of db e) in
        let m := obj_set "id" (JString id) d in
        (Ok (JObject m), <[e := <[id := m]> (table_of db e)]> db)
    | _ => (Err (validationError "not an object"), db)
    end;
  getEntity e id := fun db =>
    match view db e !! id with
    | Some m => (Ok (JObject m), db)
    | None => (Err (notFound id), db)
    end;
  updateEntity e id patch := fun db =>
    match patch, view db e !! id with
    | JObject p, Some m => (Ok (JObject (merge p m)), <[e := <[id := merge p m]> (table_of db e)]> db)
    | _, _ => (Err (notFound id), db)
    end;
  deleteEntity e id := fun db => (Ok true, <[e := delete id (table_of db e)]> db);
  listEntities e opts := fun db =>
    (Ok (JObject <$> take (Z.to_nat (opt_limit opts)) (matching (opt_filter opts) (view db e))), db);
  host_time _ := 0%Z;
  host_random64 db := (0%Z, db);
|}.

Lemma fresh_id_new t : t !! fresh_id t = None.
Proof.
  apply eq_None_not_Some. intros [m Hm]. unfold fresh_id in Hm. set (l := list_max _) in Hm.
  assert (String.length (zeros (S l)) <= l) as Hle; [|rewrite zeros_length in Hle; lia].
  pose proof (list_max_le (String.length <$> (map_to_list t).*1) l) as [Hmax _].
  specialize (Hmax (Nat.le_refl l)). rewrite List.Forall_forall in Hmax. apply Hmax.
  apply list_elem_of_In. apply list_elem_of_fmap. eexists. split; [done|].
  apply list_elem_of_fmap. exists (zeros (S l), m). split; [done|]. by apply elem_of_map_to_list.
Qed.

Lemma merge_get patch m : patched patch m (merge patch m).
Proof.
  intros k. induction patch as [|[k' v] patch IH]; [done|]. cbn [merge foldr fst snd obj_get].
  rewrite obj_get_set. destruct (String.eqb k k'); [done|exact IH].
Qed.

Lemma table_of_insert db e t e' : table_of (<[e := t]> db) e' = if decide (e' = e) then t else table_of db e'.
Proof.
  unfold table_of. case_decide; [subst; by rewrite lookup_insert_eq|by rewrite lookup_insert_ne].
Qed.

Lemma view_insert db e id m :
  shown (id, m) -> view (<[e := <[id := m]> (table_of db e)]> db) e = <[id := m]> (view db e).
Proof.
  intros Hm. unfold view. rewrite table_of_insert, decide_True by done. by apply map_filter_insert_True.
Qed.

Lemma view_other db e t e' : e' <> e -> view (<[e := t]> db) e' = view db e'.
Proof. intros Hne. unfold view. by rewrite table_of_insert, decide_False. Qed.

Lemma string_member_get m k s : string_member (JObject m) k = Some s <-> obj_get k m = Some (JString s).
Proof. unfold string_member. cbn [member]. repeat case_match; naive_solver. Qed.

Program Definition table_laws : @EntityDb TableDb table_db := {| rows := view |}.
Next Obligation.
  intros db e id m. unfold view. rewrite map_lookup_filter_Some. intros [_ [Hid Hne]].
  split; [|done]. by apply string_member_get.
Qed.
Next Obligation.
  intros db e opts _ _ _. cbn. split; [done|]. by exists (matching (opt_filter opts) (view db e)).
Qed.
Next Obligation.
  intros db e d. cbn. set (id := fresh_id (table_of db e)).
  split; [|intros e' He'; by apply view_other].
  exists (obj_set "id" (JString id) d). split; [done|]. exists id.
  assert (table_of db e !! id = None) as Hnew by apply fresh_id_new.
  split; [by unfold view; apply map_lookup_filter_None; left|].
  assert (shown (id, obj_set "id" (JString id) d)) as Hs.
  { split; [|done]. apply string_member_get. cbn [snd fst]. by rewrite obj_get_set. }
  split; [by apply view_insert|]. split; [by rewrite obj_get_set|].
  intros k v Hk Hv. rewrite obj_get_set. by destruct (String.eqb_spec k "id").
Qed.
Next Obligation.
  intros db e id patch Hid. cbn. destruct (view db e !! id) as [m|] eqn:Hm; [|done].
  split; [|intros e' He'; by apply view_other].
  exists m, (merge patch m). split; [done|]. split; [apply merge_get|]. apply view_insert.
  unfold view in Hm. apply map_lookup_filter_Some in Hm as [_ [Hs Hne]]. split; [|done].
  cbn [fst snd] in *. rewrite string_member_get in *. by rewrite (merge_get patch m "id"), Hid.
Qed.
