(* ===== verification/WfContext.v ===== *)
(** * Workflow variables and comparisons

    Models WfContext (include/workflow/wf_context.hpp): the variables of a
    workflow run, dotted lookups and "${...}" templates; and the small helpers
    around it, compareHolds and asText (src/workflow/wf_compare.cpp) and
    appendEffect (src/workflow/wf_effects.cpp). *)

From S2P Require Import Prelude CxxString CxxStd Json.

Open Scope string_scope.

(** [vars_]: a JSON object, the variables by name. *)
Abbreviation WfContext := (gmap string json).

Definition set (key : string) (val : json) (ctx : WfContext) : WfContext := <[key := val]> ctx.

(** One recursion per dot: [S (length path)] nested calls are enough. *)
Fixpoint getPath (fuel : nat) (obj : json) (path : string) (def : json) : json :=
  match fuel with
  | 0 => def
  | S fuel =>
      match find_char "." path with
      | None => default def (member obj path)
      | Some dot =>
          match member obj (string_take dot path) with
          | None => def
          | Some inner => getPath fuel inner (string_drop (S dot) path) def
          end
      end
  end.

Definition get (ctx : WfContext) (key : string) (def : json) : json :=
  match find_char "." key with
  | Some dot =>
      let root := string_take dot key in
      let rest := string_drop (S dot) key in
      match ctx !! root with
      | Some v => if is_object v then getPath (S (String.length rest)) v rest def else def
      | None => def
      end
  | None => default def (ctx !! key)
  end.

Definition has (ctx : WfContext) (key : string) : bool :=
  match find_char "." key with
  | Some dot => has_key ctx (string_take dot key)
  | None => has_key ctx key
  end.

(** [regex_match(s, "\$\{([^}]+)\}")]: the key of a whole-string template. *)
Definition whole_key (s : string) : option string :=
  match s with
  | String "$" (String "{" rest) =>
      match find_char "}" rest with
      | Some (S n) =>
          if is_empty (string_drop (S (S n)) rest) then Some (string_take (S n) rest) else None
      | _ => None
      end
  | _ => None
  end.

Section Templates.
Context `{!JsonLib}.

(** What a placeholder contributes to a string. *)
Definition placeholder_text (v : json) : Result string :=
  match v with
  | JString s => Ok s
  | JNull => Ok ""
  | _ => dump v
  end.

(** The scan over what is left of the template; each round consumes at least
    one character. *)
Fixpoint resolveStr_go (fuel : nat) (ctx : WfContext) (tmpl : string) : Result string :=
  match fuel with
  | 0 => Ok ""
  | S fuel =>
      match tmpl with
      | EmptyString => Ok ""
      | String "$" (String "{" rest as next) =>
          match find_char "}" rest with
          | None => r ← resolveStr_go fuel ctx next; Ok (String "$" r)
          | Some n =>
              text ← placeholder_text (get ctx (string_take n rest) JNull);
              r ← resolveStr_go fuel ctx (string_drop (S n) rest);
              Ok (text +:+ r)
          end
      | String c rest => r ← resolveStr_go fuel ctx rest; Ok (String c r)
      end
  end.

Definition resolveStr (ctx : WfContext) (tmpl : string) : Result string :=
  resolveStr_go (S (String.length tmpl)) ctx tmpl.

Fixpoint resolve (ctx : WfContext) (val : json) : Result json :=
  match val with
  | JString s =>
      match whole_key s with
      | Some key => Ok (get ctx key val)
      | None => r ← resolveStr ctx s; Ok (JString r)
      end
  | JObject m =>
      r ← (fix members_ (m : list (string * json)) : Result (list (string * json)) :=
             match m with
             | [] => Ok []
             | (k, v) :: m' => x ← resolve ctx v; rest ← members_ m'; Ok ((k, x) :: rest)
             end) m;
      Ok (JObject r)
  | JArray l =>
      r ← (fix elements (l : list json) : Result (list json) :=
             match l with
             | [] => Ok []
             | v :: l' => x ← resolve ctx v; rest ← elements l'; Ok (x :: rest)
             end) l;
      Ok (JArray r)
  | _ => Ok val
  end.

(** ** Comparisons and effects *)

Definition asText (value : json) : Result string :=
  match value with
  | JNull => Ok ""
  | JString s => Ok s
  | _ => dump value
  end.

Definition compareHolds (is_ : string) (value other : json) : Result bool :=
  got ← asText value;
  want ← asText other;
  let rel := to_lower is_ in
  Ok (if String.eqb rel "empty" then is_empty got
      else if String.eqb rel "not empty" then negb (is_empty got)
      else if String.eqb rel "equals" then String.eqb got want
      else if String.eqb rel "does not equal" then negb (String.eqb got want)
      else if String.eqb rel "contains" then contains got want
      else if String.eqb rel "does not contain" then negb (contains got want)
      else if String.eqb rel "is true" then
        match value with JBool b => b | _ => String.eqb (to_lower got) "true" end
      else false).

End Templates.

Definition kEffectsVar : string := "__page_effects".

Definition appendEffect (existing effect : json) : json :=
  match existing with
  | JArray l => JArray (l ++ [effect])%list
  | _ => JArray [effect]
  end.

(** ** Variables *)

(** A path as its parts: [getPath] follows them one by one. *)
Fixpoint follow (obj : json) (parts : list string) : option json :=
  match parts with
  | [] => Some obj
  | k :: parts => v ← member obj k; follow v parts
  end.

Fixpoint dotted (parts : list string) : string :=
  match parts with
  | [] => ""
  | [k] => k
  | k :: parts => k +:+ String "." (dotted parts)
  end.

Lemma getPath_dotted parts fuel obj def :
  parts <> [] -> Forall (fun k => find_char "." k = None) parts -> length parts <= fuel ->
  getPath fuel obj (dotted parts) def = default def (follow obj parts).
Proof.
  intros Hne Hall. revert fuel obj Hne. induction Hall as [|k parts Hk Hall IH]; [done|].
  intros [|fuel] obj _ Hlen; [simpl in Hlen; lia|].
  destruct parts as [|k' parts].
  - simpl. rewrite Hk. by destruct (member obj k).
  - cbn [dotted getPath]. rewrite find_char_app_ne by done. cbn [find_char Ascii.eqb]. simpl fmap.
    change (fun n => String.length k + n) with (Nat.add (String.length k)).
    cbn [option_fmap option_map fmap]. rewrite Nat.add_0_r, string_take_app, string_drop_app_S.
    cbn [follow]. destruct (member obj k) as [v|]; [|done]. cbn [mbind option_bind].
    apply IH; [done|simpl in *; lia].
Qed.

Lemma dotted_length parts : Forall (fun k => k <> "") parts -> length parts <= S (String.length (dotted parts)).
Proof.
  induction 1 as [|k parts Hk _ IH]; [simpl; lia|]. destruct parts as [|k' parts]; [simpl; lia|].
  cbn [dotted]. rewrite string_length_app. destruct k; [done|]. simpl in *. lia.
Qed.

(** A dotted name reads through nested objects: looking up
    "root.k1.k2..." is the variable [root] followed along the members k1, k2,
    ..., or the default when any of them is missing; a plain name is the
    variable itself.  (The parts must contain no dot and be non-empty.) *)
Theorem get_dotted ctx root parts def :
  find_char "." root = None -> Forall (fun k => find_char "." k = None /\ k <> "") parts ->
  get ctx (dotted (root :: parts)) def =
    default def (v ← ctx !! root; match parts with [] => Some v | _ => follow v parts end).
Proof.
  intros Hroot Hparts. unfold get. destruct parts as [|k parts].
  { simpl. rewrite Hroot. by destruct (ctx !! root). }
  change (dotted (root :: k :: parts)) with (root +:+ String "." (dotted (k :: parts))).
  rewrite find_char_app_ne by done. simpl find_char. cbn [fmap option_fmap option_map].
  rewrite Nat.add_0_r, string_take_app, string_drop_app_S.
  destruct (ctx !! root) as [v|]; [|done]. cbn [mbind option_bind].
  destruct (is_object v) eqn:Hv.
  - apply getPath_dotted; [done|by eapply Forall_impl; [exact Hparts|]; intros ? []|].
    apply dotted_length. eapply Forall_impl; [exact Hparts|]. by intros ? [].
  - by destruct v.
Qed.

(** The variable a name refers to: the part before its first dot. *)
Definition root_name (name : string) : string :=
  match find_char "." name with Some dot => string_take dot name | None => name end.

Lemma find_char_take c s n : find_char c s = Some n -> find_char c (string_take n s) = None.
Proof.
  revert n; induction s as [|c' s IH]; intros n; cbn [find_char]; [done|].
  destruct (Ascii.eqb c c') eqn:Hc; [by intros [= <-]|].
  destruct (find_char c s) as [k|]; [|done]. intros [= <-]. cbn [string_take find_char].
  by rewrite Hc, (IH k eq_refl).
Qed.

Lemma root_name_plain name : find_char "." (root_name name) = None.
Proof.
  unfold root_name. destruct (find_char "." name) as [n|] eqn:Hn; [by apply find_char_take|done].
Qed.

Lemma get_root ctx ctx' name def :
  ctx !! root_name name = ctx' !! root_name name -> get ctx name def = get ctx' name def.
Proof. unfold get, root_name. destruct (find_char "." name); by intros ->. Qed.

(** Setting a variable under a plain name makes it readable by that name and
    changes no name that refers to another variable; setting one under a name
    with a dot changes nothing that can be read, under any name: a step output
    wired to such a name is lost. *)
Theorem get_set ctx key val :
  (find_char "." key = None -> forall def, get (set key val ctx) key def = val) /\
  (forall name def, root_name name <> key -> get (set key val ctx) name def = get ctx name def) /\
  (is_Some (find_char "." key) -> forall name def, get (set key val ctx) name def = get ctx name def).
Proof.
  assert (forall name def, root_name name <> key -> get (set key val ctx) name def = get ctx name def)
    as Hother.
  { intros name def Hne. apply get_root. by apply lookup_insert_ne. }
  split; [|split; [done|]].
  - intros Hkey def. unfold get. rewrite Hkey. unfold set. by rewrite lookup_insert_eq.
  - intros [n Hn] name def. apply Hother. intros Heq. pose proof (root_name_plain name). congruence.
Qed.

(** ** Templates *)

(** A text without "${" stands for itself. *)
Fixpoint no_template (s : string) : bool :=
  match s with
  | EmptyString => true
  | String c s' => negb (Ascii.eqb c "$" && match s' with String "{" _ => true | _ => false end)
                   && no_template s'
  end.

Section TemplateLemmas.
Context `{!JsonLib}.

Lemma resolveStr_go_literal fuel ctx s :
  String.length s < fuel -> no_template s = true -> resolveStr_go fuel ctx s = Ok s.
Proof.
  revert s; induction fuel as [|fuel IH]; intros s Hlen Hs; [lia|].
  destruct s as [|c s]; [done|]. cbn [no_template] in Hs. apply andb_true_iff in Hs as [Hc Hs].
  cbn [resolveStr_go]. simpl in Hlen. rewrite (IH s) by (done || lia).
  destruct (ascii_dec c "$") as [->|Hne].
  - destruct s as [|c' s]; [done|]. destruct (ascii_dec c' "{") as [->|Hne]; [done|].
    destruct c' as [[] [] [] [] [] [] [] []]; done.
  - destruct c as [[] [] [] [] [] [] [] []]; done.
Qed.

Lemma whole_key_template s k : whole_key s = Some k -> no_template s = false.
Proof.
  destruct s as [|c [|c' s]]; [done|by destruct c as [[] [] [] [] [] [] [] []]|].
  destruct (ascii_dec c "$") as [->|Hne].
  - destruct (ascii_dec c' "{") as [->|Hne]; [done|].
    by destruct c' as [[] [] [] [] [] [] [] []].
  - by destruct c as [[] [] [] [] [] [] [] []].
Qed.

(** No string of the value, at any depth, contains a template. *)
Inductive literal : json -> Prop :=
  | literal_string s : no_template s = true -> literal (JString s)
  | literal_array l : Forall literal l -> literal (JArray l)
  | literal_object m : Forall (fun e => literal e.2) m -> literal (JObject m)
  | literal_null : literal JNull
  | literal_bool b : literal (JBool b)
  | literal_int z : literal (JInt z)
  | literal_float f : literal (JFloat f).

(** Resolving a value that contains no template gives the value back,
    whatever the variables are. *)
Theorem resolve_literal ctx v : literal v -> resolve ctx v = Ok v.
Proof.
  induction v as [| | | |s|l IH|m IH] using json_ind'; intros Hv; try done; inversion Hv as [? Hs|? Hl|? Hm| | | |]; subst.
  - cbn [resolve]. destruct (whole_key s) eqn:Hw; [apply whole_key_template in Hw; congruence|].
    unfold resolveStr. by rewrite resolveStr_go_literal by (done || lia).
  - cbn [resolve]. match goal with |- context [?f l] => set (elements := f) end.
    assert (elements l = Ok l) as ->; [|done].
    induction IH as [|x l Hx _ IHl]; [done|]. apply Forall_cons in Hl as [Hlx Hl].
    simpl. rewrite Hx by done. simpl. rewrite IHl; [done|by constructor|done].
  - cbn [resolve]. match goal with |- context [?f m] => set (members := f) end.
    assert (members m = Ok m) as ->; [|done].
    induction IH as [|[k x] m Hx _ IHm]; [done|]. apply Forall_cons in Hm as [Hmx Hm].
    simpl in *. rewrite Hx by done. simpl. rewrite IHm; [done|by constructor|done].
Qed.
End TemplateLemmas.

(** ** Concrete variables *)

Definition demo_event : json :=
  JObject [("name", JString "Ada"); ("pet", JObject [("kind", JString "cat")])].
Definition demo_vars : WfContext := {["event" := demo_event]}.

Lemma get_dotted_witness : get demo_vars "event.pet.kind" JNull = JString "cat".
Proof.
  change "event.pet.kind" with (dotted ("event" :: ["pet"; "kind"])).
  rewrite (get_dotted demo_vars "event" ["pet"; "kind"] JNull); [reflexivity|reflexivity|].
  repeat constructor; discriminate.
Defined.

Lemma resolve_literal_witness :
  resolve (H := scalar_json) demo_vars (JArray [JString "plain text"; JInt 3]) =
    Ok (JArray [JString "plain text"; JInt 3]).
Proof.
  apply (resolve_literal (H := scalar_json)). repeat constructor.
Defined.
