(* ===== verification/WfSteps.v ===== *)
(** * Workflow steps and the executor

    Models the step plugins of src/workflow/steps and WfExecutor
    (src/workflow/wf_executor.cpp).  A step works on the variables of the run
    and on the world behind the client; the client's generic entity operations,
    the clock and the random source are the interface [Host] of EntityHost. *)

From S2P Require Import Prelude CxxString CxxStd Store Json EntityHost WfContext Uuid.

Open Scope string_scope.

(** ** What a step can call *)

(** A single node of a workflow. *)
Record WfNode := mkNode {
  node_id : string; node_type : string; node_parameters : json; node_outputs : json;
}.

(** A run: its variables and the world behind the client. *)
Record WfState (W : Type) := mkState { vars : WfContext; world : W }.
Arguments mkState {W} _ _.
Arguments vars {W} _.
Arguments world {W} _.

Section Steps.
Context {W : Type} `{!Host W} `{!JsonLib}.

Definition Step : Type := WfNode -> Op (WfState W) unit.

Definition lift {A} (m : Op W A) : Op (WfState W) A := fun st =>
  let '(r, w) := m (world st) in (r, mkState (vars st) w).

Definition set_var (key : string) (v : json) : Op (WfState W) unit :=
  modify (fun st => mkState (set key v (vars st)) (world st)).

(** [for (auto& [k, v] : node.outputs.items()) if (v.is_string()) ctx.set(v, value);] *)
Definition set_outputs (outputs value : json) : Op (WfState W) unit :=
  match outputs with
  | JObject m => forM m (fun e => match e.2 with JString name => set_var name value | _ => mret tt end)
  | _ => mret tt
  end.

(** A client call whose failure is rethrown with the step's label. *)
Definition client_call {A} (label : string) (m : Op W A) : Op (WfState W) A := fun st =>
  match lift m st with
  | (Err e, st') => (Throw (runtime_error (label +:+ ": " +:+ message e)), st')
  | r => r
  end.

(** [if (!p.contains(k) || !p[k].is_string()) throw ...; p[k].get<std::string>()] *)
Definition need_string (step : string) (p : json) (k : string) : Op (WfState W) string :=
  match string_member p k with
  | Some s => mret s
  | None => throw (runtime_error (step +:+ ": missing '" +:+ k +:+ "' parameter"))
  end.

(** The string members of a "filter" parameter. *)
Definition filter_param (p : json) : gmap string string :=
  match member p "filter" with
  | Some (JObject m) =>
      foldl (fun f e => match e.2 with JString s => <[e.1 := s]> f | _ => f end) ∅ m
  | _ => ∅
  end.

Definition EntityCreateStep : Step := fun node =>
  let p := node_parameters node in
  entity ← need_string "dbal.entity.create" p "entity";
  data ← of_result (value_json p "data" (JObject []));
  result ← client_call ("dbal.entity.create [" +:+ entity +:+ "]") (createEntity entity data);
  (* the arguments of the debug message are evaluated *)
  _ ← of_result (value_string result "id" "?");
  set_outputs (node_outputs node) result.

Definition EntityGetStep : Step := fun node =>
  let p := node_parameters node in
  entity ← need_string "dbal.entity.get" p "entity";
  id ← match member p "id" with
       | None => throw (runtime_error "dbal.entity.get: missing 'id' parameter")
       | Some (JString s) => mret s
       | Some v => of_result (dump v)
       end;
  result ← client_call ("dbal.entity.get [" +:+ entity +:+ "/" +:+ id +:+ "]") (getEntity entity id);
  set_outputs (node_outputs node) result.

Definition EntityListStep : Step := fun node =>
  let p := node_parameters node in
  entity ← need_string "dbal.entity.list" p "entity";
  limit ← match member p "limit" with
          | Some v => if is_number v then of_result (get_int v) else mret (opt_limit default_options)
          | None => mret (opt_limit default_options)
          end;
  let opts := {| opt_filter := filter_param p; opt_sort := opt_sort default_options;
                 opt_page := opt_page default_options; opt_limit := limit |} in
  items ← client_call ("dbal.entity.list [" +:+ entity +:+ "]") (listEntities entity opts);
  set_outputs (node_outputs node) (JArray items).

Definition EntityUpdateStep : Step := fun node =>
  let p := node_parameters node in
  entity ← need_string "dbal.entity.update" p "entity";
  id ← need_string "dbal.entity.update" p "id";
  data ← of_result (value_json p "data" (JObject []));
  result ← client_call ("dbal.entity.update [" +:+ entity +:+ "]") (updateEntity entity id data);
  set_outputs (node_outputs node) result.

Definition EntityDeleteStep : Step := fun node =>
  let p := node_parameters node in
  entity ← need_string "dbal.entity.delete" p "entity";
  id ← need_string "dbal.entity.delete" p "id";
  result ← client_call ("dbal.entity.delete [" +:+ entity +:+ "]") (deleteEntity entity id);
  set_outputs (node_outputs node) (JBool result).

(** The options of a count: the filter alone, everything else as by default. *)
Definition count_options (p : json) : ListOptions :=
  {| opt_filter := filter_param p; opt_sort := opt_sort default_options;
     opt_page := opt_page default_options; opt_limit := opt_limit default_options |}.

Definition EntityCountStep : Step := fun node =>
  let p := node_parameters node in
  entity ← need_string "dbal.entity.count" p "entity";
  items ← client_call ("dbal.entity.count [" +:+ entity +:+ "]") (listEntities entity (count_options p));
  set_outputs (node_outputs node) (JInt (Z.of_nat (length items))).

Definition LogStep : Step := fun node =>
  match member (node_parameters node) "message" with
  | None => mret tt
  | Some (JString s) => _ ← reads (fun st : WfState W => resolveStr (vars st) s); mret tt
  | Some v => _ ← of_result (dump v); mret tt
  end.

Definition VarSetStep : Step := fun node =>
  let p := node_parameters node in
  key ← need_string "dbal.var.set" p "key";
  value ← of_result (value_json p "value" JNull);
  v ← reads (fun st : WfState W => resolve (vars st) value);
  set_var key v.

Definition StopUnlessStep : Step := fun node =>
  let p := node_parameters node in
  is_ ← of_result (value_string p "is" "not empty");
  value ← of_result (value_json p "value" JNull);
  other ← of_result (value_json p "other" JNull);
  holds ← of_result (compareHolds is_ value other);
  if holds : bool then mret tt
  else throw (wf_stop ("condition '" +:+ is_ +:+ "' did not hold")).

Definition TimestampStep : Step := fun node =>
  t ← gets (fun st => host_time (world st));
  set_outputs (node_outputs node) (JInt (t * 1000)).

(** One draw of the generator. *)
Definition draw : Op (WfState W) Z := fun st =>
  let '(n, w) := host_random64 (world st) in (Ok n, mkState (vars st) w).

Definition UuidStep : Step := fun node =>
  hi ← draw;
  lo ← draw;
  set_outputs (node_outputs node) (JString (generate_uuid_v4 hi lo)).

(** ** Page effects *)

Definition PageEffectStep (type_ : string) (required_ : list string) : Step := fun node =>
  forM required_ (fun name =>
    if has_member (node_parameters node) name then mret tt
    else throw (runtime_error (type_ +:+ ": missing '" +:+ name +:+ "' parameter")));;
  effect ← of_result (assign_member (node_parameters node) "do" (JString type_));
  existing ← gets (fun st : WfState W => get (vars st) kEffectsVar JNull);
  set_var kEffectsVar (appendEffect existing effect).

Definition pageTextStep : Step := PageEffectStep "page.text" ["target"; "text"].
Definition pageShowStep : Step := PageEffectStep "page.show" ["target"].
Definition pageHideStep : Step := PageEffectStep "page.hide" ["target"].
Definition pageClassStep : Step := PageEffectStep "page.class" ["target"; "class"].
Definition pageMessageStep : Step := PageEffectStep "page.message" ["text"].
Definition pageGoStep : Step := PageEffectStep "page.go" ["path"].

(** ** The executor *)

Definition registerStep (type_ : string) (step : Step) (steps : gmap string Step) :
    gmap string Step := <[type_ := step]> steps.

(** The constructor of WfEngine. *)
Definition builtin_steps : gmap string Step :=
  foldl (fun steps e => registerStep e.1 e.2 steps) ∅
    [("dbal.uuid", UuidStep); ("dbal.timestamp", TimestampStep);
     ("dbal.entity.create", EntityCreateStep); ("dbal.entity.get", EntityGetStep);
     ("dbal.entity.list", EntityListStep); ("dbal.var.set", VarSetStep);
     ("dbal.log", LogStep); ("dbal.entity.update", EntityUpdateStep);
     ("dbal.entity.delete", EntityDeleteStep); ("dbal.entity.count", EntityCountStep);
     ("dbal.stop.unless", StopUnlessStep);
     ("page.text", pageTextStep); ("page.show", pageShowStep); ("page.hide", pageHideStep);
     ("page.class", pageClassStep); ("page.message", pageMessageStep); ("page.go", pageGoStep)].

(** [n.value(...)] for each field of a node of the document. *)
Definition parseNode (n : json) : Result WfNode :=
  id ← value_string n "id" "";
  type_ ← value_string n "type" "";
  parameters ← value_json n "parameters" (JObject []);
  outputs ← value_json n "outputs" (JObject []);
  Ok {| node_id := id; node_type := type_; node_parameters := parameters; node_outputs := outputs |}.

Fixpoint parseEach (l : list json) : Result (list WfNode) :=
  match l with
  | [] => Ok []
  | n :: l' => node ← parseNode n; rest ← parseEach l'; Ok (node :: rest)
  end.

Definition parseNodes (doc : json) (label : string) : Result (list WfNode) :=
  match member doc "nodes" with
  | Some (JArray l) => parseEach l
  | _ => Throw (runtime_error ("workflow: '" +:+ label +:+ "' missing 'nodes' array"))
  end.

Fixpoint executeNodes (steps : gmap string Step) (nodes : list WfNode) : Op (WfState W) unit :=
  match nodes with
  | [] => mret tt
  | node :: rest =>
      match steps !! node_type node with
      | None => executeNodes steps rest
      | Some step => fun st =>
          match resolve (vars st) (node_parameters node) with
          | Ok parameters =>
              let resolved := {| node_id := node_id node; node_type := node_type node;
                                 node_parameters := parameters; node_outputs := node_outputs node |} in
              match step resolved st with
              | (Ok _, st') => executeNodes steps rest st'
              | (Throw (wf_stop _), st') => (Ok tt, st')
              | r => r
              end
          | r => (recast r, st)
          end
      end
  end.
End Steps.

(** ** Running one node *)

Section Running.
Context {W : Type} `{!Host W} `{!JsonLib}.
Implicit Types (st : WfState W) (steps : gmap string (Step (W := W))).

Definition with_parameters (node : WfNode) (parameters : json) : WfNode :=
  {| node_id := node_id node; node_type := node_type node;
     node_parameters := parameters; node_outputs := node_outputs node |}.

Lemma executeNodes_cons steps node rest st step parameters :
  steps !! node_type node = Some step -> resolve (vars st) (node_parameters node) = Ok parameters ->
  executeNodes steps (node :: rest) st =
    match step (with_parameters node parameters) st with
    | (Ok _, st') => executeNodes steps rest st'
    | (Throw (wf_stop _), st') => (Ok tt, st')
    | r => r
    end.
Proof. intros Hs Hr. cbn [executeNodes]. by rewrite Hs, Hr. Qed.

(** A "dbal.stop.unless" node decides whether the rest of the workflow runs:
    when its condition holds the run goes on from the same state, when it does
    not the run ends there without an error, the later nodes are not executed
    and the state is untouched. *)
Theorem stop_unless_decides node rest st p is_ value other holds :
  node_type node = "dbal.stop.unless" ->
  resolve (vars st) (node_parameters node) = Ok (JObject p) ->
  value_string (JObject p) "is" "not empty" = Ok is_ ->
  value = default JNull (obj_get "value" p) -> other = default JNull (obj_get "other" p) ->
  compareHolds is_ value other = Ok holds ->
  executeNodes builtin_steps (node :: rest) st =
    if holds then executeNodes builtin_steps rest st else (Ok tt, st).
Proof.
  intros Ht Hr His -> -> Hc.
  rewrite (executeNodes_cons _ _ _ _ StopUnlessStep (JObject p)); [|rewrite Ht; reflexivity|done].
  unfold StopUnlessStep, of_result, mbind, Op_bind. cbn [node_parameters with_parameters].
  rewrite His. cbn [value_json]. rewrite Hc. by destruct holds.
Qed.

Lemma forM_checks (p : json) names (e : string -> Exn) st :
  forallb (has_member p) names = true ->
  forM names (fun name => if has_member p name then mret tt else throw (e name)) st = (Ok tt, st).
Proof.
  induction names as [|n names IH]; simpl; [done|]. intros [Hn Hrest]%andb_true_iff.
  unfold mbind, Op_bind. rewrite Hn. simpl. by apply IH.
Qed.

(** A "page.*" node whose required parameters are present appends exactly
    one effect to the list the response carries back - its resolved parameters
    with "do" naming the step - after the effects already recorded; no other
    variable and nothing in the world changes, and the run goes on. *)
Theorem page_effect_appends type_ required node rest st p steps :
  steps !! node_type node = Some (PageEffectStep type_ required) ->
  resolve (vars st) (node_parameters node) = Ok (JObject p) ->
  forallb (has_member (JObject p)) required = true ->
  let effect := JObject (obj_set "do" (JString type_) p) in
  let before := match vars st !! kEffectsVar with Some (JArray l) => l | _ => [] end in
  executeNodes steps (node :: rest) st =
    executeNodes steps rest
      (mkState (<[kEffectsVar := JArray (before ++ [effect])]> (vars st)) (world st)).
Proof.
  intros Hs Hr Hreq. cbv zeta. rewrite (executeNodes_cons _ _ _ _ _ _ Hs Hr).
  unfold PageEffectStep. cbn [node_parameters with_parameters].
  rewrite (run_bind_ok _ _ tt st st) by (by apply forM_checks).
  unfold of_result, gets, mbind, Op_bind. cbn [assign_member].
  unfold set_var, modify, set, get. change (find_char "." kEffectsVar) with (@None nat).
  cbv iota beta. do 3 f_equal. destruct (vars st !! kEffectsVar) as [[]|]; done.
Qed.

(** A "dbal.entity.count" node asks for one page of at most 20 rows and
    counts those: against any client that honours the limit it is given, the
    variable it sets is never more than 20, however many rows match. *)
Theorem entity_count_capped node st st' entity p w items name :
  node_parameters node = JObject p -> string_member (JObject p) "entity" = Some entity ->
  node_outputs node = JObject [("count", JString name)] ->
  listEntities entity (count_options (JObject p)) (world st) = (Ok items, w) ->
  (Z.of_nat (length items) <= opt_limit (count_options (JObject p)))%Z ->
  EntityCountStep node st = (Ok tt, st') ->
  exists n, vars st' !! name = Some (JInt n) /\ (0 <= n <= 20)%Z /\ world st' = w.
Proof.
  intros Hp He Ho Hl Hlim. unfold EntityCountStep. rewrite Hp. unfold need_string. rewrite He.
  unfold mbind, Op_bind. cbn [mret Op_ret]. unfold client_call, lift. rewrite Hl, Ho.
  cbn [set_outputs forM snd]. unfold mbind, Op_bind, set_var, modify. cbn [vars world].
  intros [= <-]. exists (Z.of_nat (length items)). cbn [vars world]. unfold set.
  rewrite lookup_insert_eq. split; [done|]. split; [|done].
  change (opt_limit (count_options (JObject p))) with 20%Z in Hlim. lia.
Qed.

(** A "dbal.var.set" node expands its value twice: the executor resolves the
    parameters, and the step resolves the result again.  So a placeholder that
    arrives inside data (here the submitted member "note" of the event) is
    expanded too, and any variable of the run can be read that way. *)
Theorem var_set_expands_data node rest st key secret s :
  node_type node = "dbal.var.set" ->
  node_parameters node = JObject [("key", JString key); ("value", JString "${event.note}")] ->
  no_template key = true -> find_char "}" secret = None -> secret <> "" ->
  vars st !! "event" = Some (JObject [("note", JString ("${" +:+ secret +:+ "}"))]) ->
  get (vars st) secret (JString ("${" +:+ secret +:+ "}")) = s ->
  executeNodes builtin_steps (node :: rest) st =
    executeNodes builtin_steps rest (mkState (<[key := s]> (vars st)) (world st)).
Proof.
  intros Ht Hp Hkey Hsec Hne Hev Hs.
  assert (whole_key ("${" +:+ secret +:+ "}") = Some secret) as Hwhole.
  { rewrite !string_app_cons, string_app_nil_l. cbn [whole_key].
    rewrite find_char_app_ne by done. simpl find_char. cbn [fmap option_fmap option_map].
    rewrite Nat.add_0_r. destruct secret as [|c secret]; [done|]. cbn [String.length].
    change (S (S (String.length secret))) with (S (String.length (String c secret))).
    rewrite string_drop_app_S. cbn [is_empty String.eqb].
    change (S (String.length secret)) with (String.length (String c secret)).
    by rewrite string_take_app. }
  assert (whole_key key = None) as Hwk.
  { destruct (whole_key key) eqn:E; [apply whole_key_template in E; congruence|done]. }
  assert (resolve (vars st) (node_parameters node) =
      Ok (JObject [("key", JString key); ("value", JString ("${" +:+ secret +:+ "}"))])) as Hr.
  { rewrite Hp. cbn [resolve]. rewrite Hwk. unfold resolveStr.
    rewrite (resolveStr_go_literal _ (vars st) key) by (assumption || (simpl; lia)). cbn [mbind Result_bind].
    change (whole_key "${event.note}") with (Some "event.note"). cbv iota.
    unfold get at 1. change (find_char "." "event.note") with (Some 5). cbv iota zeta.
    change (string_take 5 "event.note") with "event". rewrite Hev. done. }
  rewrite (executeNodes_cons builtin_steps _ _ _ VarSetStep _ ltac:(rewrite Ht; reflexivity) Hr).
  unfold VarSetStep. cbn [node_parameters with_parameters need_string string_member member obj_get].
  unfold need_string, string_member. cbn [member obj_get String.eqb Ascii.eqb Bool.eqb].
  unfold of_result, reads, mbind, Op_bind. cbn [mret Op_ret value_json obj_get String.eqb Ascii.eqb Bool.eqb default].
  unfold id. cbn [resolve]. by rewrite Hwhole, Hs.
Qed.
End Running.

(** ** Errors inside a run

    The steps turn every [Error] of the client into an exception, so a run ends
    normally or with an exception. *)
Section NoErr.
Context {W : Type} `{!Host W} `{!JsonLib}.

Definition no_err {S A} (m : Op S A) : Prop := forall s, isError (m s).1 = false.

Lemma no_err_bind {S A B} (m : Op S A) (k : A -> Op S B) :
  no_err m -> (forall a, no_err (k a)) -> no_err (m ≫= k).
Proof.
  intros Hm Hk s. specialize (Hm s). unfold mbind, Op_bind.
  destruct (m s) as [[a|e|x|] s']; try done. apply Hk.
Qed.
Lemma no_err_ret {S A} (a : A) : no_err (mret a : Op S A). Proof. done. Qed.
Lemma no_err_throw {S A} x : no_err (throw x : Op S A). Proof. done. Qed.
Lemma no_err_gets {S A} (f : S -> A) : no_err (gets f). Proof. done. Qed.
Lemma no_err_modify {S} (f : S -> S) : no_err (modify f). Proof. done. Qed.
Lemma no_err_result {S A} (r : Result A) : isError r = false -> no_err (of_result r : Op S A).
Proof. by intros Hr s. Qed.
Lemma no_err_reads {S A} (f : S -> Result A) : (forall s, isError (f s) = false) -> no_err (reads f).
Proof. intros Hf s. apply Hf. Qed.
Lemma no_err_forM {S A} (l : list A) (f : A -> Op S unit) : (forall x, no_err (f x)) -> no_err (forM l f).
Proof.
  intros Hf. induction l as [|x l IH]; [apply no_err_ret|]. apply no_err_bind; [apply Hf|done].
Qed.
Lemma no_err_client_call {A} label (m : Op W A) : no_err (client_call (W := W) label m).
Proof. intros st. unfold client_call, lift. by destruct (m (world st)) as [[] ?]. Qed.

Lemma isError_bind {A B} (r : Result A) (k : A -> Result B) :
  isError r = false -> (forall a, isError (k a) = false) -> isError (r ≫= k) = false.
Proof. destruct r; try done. intros _ Hk. apply Hk. Qed.

Lemma isError_dump v : isError (dump v) = false.
Proof. unfold dump. by destruct (dump_text v). Qed.
Lemma isError_value_json v k d : isError (value_json v k d) = false.
Proof. by destruct v. Qed.
Lemma isError_value_string v k d : isError (value_string v k d) = false.
Proof. destruct v as [| | | | | |m]; try done. simpl. by destruct (obj_get k m) as [[]|]. Qed.
Lemma isError_assign_member v k x : isError (assign_member v k x) = false.
Proof. by destruct v. Qed.
Lemma isError_get_int v : isError (get_int v) = false.
Proof. destruct v; try done. simpl. destruct (float_trunc f) as [z|]; [|done]. by destruct (in_int z). Qed.

Lemma isError_placeholder v : isError (placeholder_text v) = false.
Proof. destruct v; try done; apply isError_dump. Qed.

Lemma isError_resolveStr ctx s : isError (resolveStr ctx s) = false.
Proof.
  unfold resolveStr. generalize (S (String.length s)) as fuel. intros fuel. revert s.
  induction fuel as [|fuel IH]; intros s; [done|]. cbn [resolveStr_go].
  repeat first [done | apply isError_bind; [|intros ?] | apply IH | apply isError_placeholder
    | match goal with |- context [match ?x with _ => _ end] => destruct x end ].
Qed.

Lemma isError_resolve ctx v : isError (resolve ctx v) = false.
Proof.
  induction v as [| | | |s|l IH|m IH] using json_ind'; try done; cbn [resolve].
  - destruct (whole_key s); [done|]. apply isError_bind; [apply isError_resolveStr|done].
  - apply isError_bind; [|done]. induction IH as [|x l Hx _ IHl]; [done|].
    apply isError_bind; [done|intros ?]. by apply isError_bind.
  - apply isError_bind; [|done]. induction IH as [|[k x] m Hx _ IHm]; [done|].
    apply isError_bind; [done|intros ?]. by apply isError_bind.
Qed.

Lemma isError_compareHolds is_ v o : isError (compareHolds is_ v o) = false.
Proof.
  assert (forall v, isError (asText v) = false) as Ht by (intros []; try done; apply isError_dump).
  unfold compareHolds. apply isError_bind; [done|intros ?]. by apply isError_bind.
Qed.

Lemma no_err_set_outputs outputs v : no_err (set_outputs (W := W) outputs v).
Proof. destruct outputs as [| | | | | |m]; try done. apply no_err_forM. by intros [k []]. Qed.

Lemma no_err_need_string step p k : no_err (need_string (W := W) step p k).
Proof. unfold need_string. by destruct (string_member p k). Qed.

#[local] Hint Resolve no_err_bind no_err_ret no_err_throw no_err_gets no_err_modify no_err_result
  no_err_reads no_err_forM no_err_client_call isError_dump isError_value_json isError_value_string
  isError_assign_member isError_get_int isError_resolveStr isError_resolve isError_compareHolds
  no_err_set_outputs no_err_need_string : core.

Lemma builtin_no_err type_ (step : Step (W := W)) node :
  builtin_steps !! type_ = Some step -> no_err (step node).
Proof.
  assert (forall t r n, no_err (PageEffectStep (W := W) t r n)) as Hpage.
  { intros t r n. unfold PageEffectStep, set_var. apply no_err_bind; [|auto].
    apply no_err_forM. intros x. by destruct (has_member _ x). }
  unfold builtin_steps, registerStep. cbn [foldl fst snd].
  repeat (rewrite lookup_insert; case_decide; [intros [= <-]|]); [..|by rewrite lookup_empty];
    try apply Hpage.
  all: unfold UuidStep, TimestampStep, EntityCreateStep, EntityGetStep, EntityListStep, VarSetStep,
    LogStep, EntityUpdateStep, EntityDeleteStep, EntityCountStep, StopUnlessStep, set_var;
    repeat (apply no_err_bind; [|intros ?]); auto.
  all: repeat match goal with
    | |- context [match ?x with _ => _ end] => destruct x
    end; auto.
  all: intros st; unfold draw; by destruct (host_random64 (world st)).
Qed.

Lemma executeNodes_no_err nodes : no_err (executeNodes (W := W) builtin_steps nodes).
Proof.
  induction nodes as [|node nodes IH]; [done|]. cbn [executeNodes].
  destruct (builtin_steps !! node_type node) as [step|] eqn:Hs; [|done]. intros st.
  pose proof (isError_resolve (vars st) (node_parameters node)) as Hr.
  destruct (resolve _ _) as [p|e|x|]; try done.
  pose proof (builtin_no_err _ _ (with_parameters node p) Hs st) as Hstep. unfold with_parameters in Hstep.
  destruct (step _ st) as [[a|e|x|] st']; [apply IH|done|by destruct x|done].
Qed.
End NoErr.

(** ** Concrete runs

    The world is a list of rows, each with its entity; a listing filters by
    equality on string columns and keeps at most [limit] rows. *)

Definition row_matches (filter : gmap string string) (row : json) : bool :=
  forallb (fun kv => bool_decide (string_member row kv.1 = Some kv.2)) (map_to_list filter).

Definition tables : Type := list (string * json).

Definition rows_of (entity : string) (w : tables) : list json :=
  (List.filter (fun e => String.eqb e.1 entity) w).*2.

Definition demo_list (entity : string) (opts : ListOptions) (w : tables) : list json :=
  take (Z.to_nat (opt_limit opts)) (List.filter (row_matches (opt_filter opts)) (rows_of entity w)).

Definition demo_host : Host tables := {|
  createEntity entity row := fun w =>
    (Ok row, (w ++ [(entity, row)])%list);
  getEntity entity id := fun w => (Err (notFound id), w);
  updateEntity entity id row := fun w => (Err (notFound id), w);
  deleteEntity entity id := fun w => (Err (notFound id), w);
  listEntities entity opts := fun w => (Ok (demo_list entity opts w), w);
  host_time _ := 0%Z;
  host_random64 w := (0%Z, w);
|}.

#[local] Existing Instance demo_host.
#[local] Existing Instance scalar_json.

Definition demo_state (rows : list json) : WfState tables :=
  mkState {["event" := JObject [("note", JString "${db.url}")]; "db" := JObject [("url", JString "x")]]}
    (pair "Post" <$> rows).

Definition stop_node (text : string) : WfNode :=
  mkNode "n1" "dbal.stop.unless" (JObject [("value", JString text)]) (JObject []).
Definition text_node : WfNode :=
  mkNode "n2" "page.text" (JObject [("target", JString "#a"); ("text", JString "hi")]) (JObject []).
Definition count_node : WfNode :=
  mkNode "n3" "dbal.entity.count" (JObject [("entity", JString "Post")]) (JObject [("count", JString "n")]).
Definition var_node : WfNode :=
  mkNode "n4" "dbal.var.set" (JObject [("key", JString "copy"); ("value", JString "${event.note}")]) (JObject []).

(** A text that is not empty lets the run go on, an empty one ends it. *)
Lemma stop_unless_decides_witness :
  executeNodes builtin_steps [stop_node "yes"; text_node] (demo_state []) =
    executeNodes builtin_steps [text_node] (demo_state []) /\
  executeNodes builtin_steps [stop_node ""; text_node] (demo_state []) = (Ok tt, demo_state []).
Proof.
  split.
  - apply (stop_unless_decides (stop_node "yes") [text_node] (demo_state []) [("value", JString "yes")]
      "not empty" (JString "yes") JNull true); reflexivity.
  - apply (stop_unless_decides (stop_node "") [text_node] (demo_state []) [("value", JString "")]
      "not empty" (JString "") JNull false); reflexivity.
Defined.

Lemma page_effect_appends_witness :
  executeNodes builtin_steps [text_node; text_node] (demo_state []) =
    executeNodes builtin_steps [text_node]
      (mkState (<[kEffectsVar := JArray [JObject [("do", JString "page.text"); ("target", JString "#a");
                                                  ("text", JString "hi")]]]> (vars (demo_state [])))
        (world (demo_state []))).
Proof.
  apply (page_effect_appends "page.text" ["target"; "text"] text_node [text_node] (demo_state [])
    [("target", JString "#a"); ("text", JString "hi")]); reflexivity.
Defined.

(** 30 matching rows are counted as 20. *)
Lemma entity_count_capped_witness :
  exists st' n, EntityCountStep count_node (demo_state (repeat (JObject []) 30)) = (Ok tt, st') /\
    vars st' !! "n" = Some (JInt n) /\ (0 <= n <= 20)%Z.
Proof.
  set (st := demo_state (repeat (JObject []) 30)). set (st' := (EntityCountStep count_node st).2).
  assert (EntityCountStep count_node st = (Ok tt, st')) as E by (vm_compute; reflexivity).
  destruct (entity_count_capped (Host0 := demo_host) count_node st st' "Post" [("entity", JString "Post")] (world st)
    (demo_list "Post" (count_options (JObject [("entity", JString "Post")])) (world st)) "n"
    eq_refl eq_refl eq_refl eq_refl) as (n & Hn & Hb & _); [vm_compute; discriminate|exact E|].
  exists st', n. split; [exact E|]. split; [exact Hn|exact Hb].
Defined.

(** The submitted note names a variable of the run, and its value is copied. *)
Lemma var_set_expands_data_witness :
  executeNodes builtin_steps [var_node] (demo_state []) =
    (Ok tt, mkState (<["copy" := JString "x"]> (vars (demo_state []))) (world (demo_state []))).
Proof.
  rewrite (var_set_expands_data var_node [] (demo_state []) "copy" "db.url" (JString "x"));
    [reflexivity|reflexivity|reflexivity|reflexivity|reflexivity|discriminate|reflexivity|reflexivity].
Defined.
