(* ===== verification/WfLoader.v ===== *)
(** * Loading and dispatching tenant workflows

    Models src/workflow/wf_graph_loader.cpp (a workflow rebuilt from its rows),
    the row helpers of src/workflow/wf_graph_order.cpp (decodeParam, bestForForm)
    and WfEngine (src/workflow/wf_engine.cpp): the event map, the cached tenant
    triggers, and the two ways a workflow is run.  The detached thread of
    [dispatchAsync] is the operation it is handed. *)

From stdpp Require Import relations.
From S2P Require Import Prelude CxxString CxxStd Store Json EntityHost WfContext WfOrder WfSteps.

Open Scope string_scope.

Section Rows.
Context {JL : JsonLib}.

(** ** Row helpers *)

Definition decodeParam (value type_ : string) : json :=
  if String.eqb type_ "number" then
    match stod value with
    | Some (n, used) => if (used =? String.length value)%nat then JFloat n else JString value
    | None => JString value
    end
  else if String.eqb type_ "boolean" then JBool (String.eqb value "true")
  else if String.eqb type_ "json" then
    match parse value with Some v => v | None => JString value end
  else JString value.

Definition isDraft (row : json) : bool :=
  match member row "isPublished" with Some (JBool b) => negb b | _ => false end.

(** [formNameOf], and [formOf] of the engine. *)
Definition formNameOf (row : json) : string := default "" (string_member row "formName").

Fixpoint bestForForm_go (rows : list json) (form : string) (anyForm : json) : json :=
  match rows with
  | [] => anyForm
  | row :: rest =>
      if isDraft row then bestForForm_go rest form anyForm
      else
        let wants := formNameOf row in
        if negb (is_empty wants) && String.eqb wants form then row
        else bestForForm_go rest form
               (if is_empty wants && is_null anyForm then row else anyForm)
  end.
Definition bestForForm (rows : list json) (form : string) : json :=
  bestForForm_go rows form JNull.

Definition str (row : json) (key : string) : Result string :=
  match member row key with
  | None | Some JNull => Ok ""
  | Some (JString s) => Ok s
  | Some v => dump v
  end.

Fixpoint firstPublished (rows : list json) : json :=
  match rows with
  | [] => JNull
  | row :: rest => if isDraft row then firstPublished rest else row
  end.

(** ** The graph of a workflow *)

Record NodeParams := mkParams {
  params_by_node : gmap string members; outputs_by_node : gmap string json;
}.

Fixpoint group_params (rows : list json) (acc : NodeParams) : Result NodeParams :=
  match rows with
  | [] => Ok acc
  | row :: rest =>
      node_id ← str row "nodeId";
      name ← str row "name";
      if is_empty node_id || is_empty name then group_params rest acc
      else
        text ← str row "value";
        type_ ← str row "valueType";
        let value := decodeParam text type_ in
        group_params rest
          (if String.eqb name "outputs" then
             if is_object value
             then mkParams (params_by_node acc) (<[node_id := value]> (outputs_by_node acc))
             else acc
           else mkParams
             (<[node_id := obj_set name value (default [] (params_by_node acc !! node_id))]>
                (params_by_node acc)) (outputs_by_node acc))
  end.

Fixpoint collect_keys (rows : list json) : Result (list (string * json)) :=
  match rows with
  | [] => Ok []
  | row :: rest =>
      key ← str row "nodeKey";
      keys ← collect_keys rest;
      Ok (if is_empty key then keys else (key, row) :: keys)
  end.

(** [row_by_key]: the last row of each key. *)
Definition row_by_key (keyed : list (string * json)) : gmap string json :=
  foldl (fun m e => <[e.1 := e.2]> m) ∅ keyed.

Fixpoint collect_edges (rows : list json) : Result (list Edge) :=
  match rows with
  | [] => Ok []
  | row :: rest =>
      from ← str row "sourceKey";
      to_ ← str row "targetKey";
      edges ← collect_edges rest;
      Ok (if negb (is_empty from) && negb (is_empty to_) then (from, to_) :: edges else edges)
  end.

Fixpoint build_nodes (order : list string) (rows : gmap string json) (p : NodeParams) :
    Result (list WfNode) :=
  match order with
  | [] => Ok []
  | key :: rest =>
      let row := default JNull (rows !! key) in
      type_ ← str row "type";
      node_id ← str row "id";
      nodes ← build_nodes rest rows p;
      Ok (mkNode key type_
            (JObject (default [] (params_by_node p !! node_id)))
            (default (JObject []) (outputs_by_node p !! node_id)) :: nodes)
  end.
End Rows.

Record LoadedWorkflow := mkLoaded { lw_id : string; lw_name : string; lw_nodes : list WfNode }.

Section Loader.
Context {W : Type} `{!Host W} {JL : JsonLib}.

(** [try { ... } catch (...) { return fallback; }] *)
Definition catching {A} (fallback : A) (m : Op W A) : Op W A := fun w =>
  match m w with
  | (Throw _, w') => (Ok fallback, w')
  | r => r
  end.

(** The items of a listing, [None] when it is not [isOk()]. *)
Definition listed (entity : string) (opts : ListOptions) : Op W (option (list json)) := fun w =>
  match listEntities entity opts w with
  | (Ok items, w') => (Ok (Some items), w')
  | (Err _, w') => (Ok None, w')
  | (r, w') => (recast r, w')
  end.

Definition with_filter (filter : gmap string string) (limit : Z) : ListOptions :=
  {| opt_filter := filter; opt_sort := opt_sort default_options;
     opt_page := opt_page default_options; opt_limit := limit |}.

Definition rowsFor (entity tenant workflow_id : string) : Op W (list json) :=
  items ← listed entity
            (with_filter (<["workflowId" := workflow_id]> (<["tenantId" := tenant]> ∅)) 2000);
  mret (default [] items).

Definition buildWorkflow_body (tenant : string) (chosen : json) : Op W (option LoadedWorkflow) :=
  if is_null chosen then mret None
  else
    id ← of_result (str chosen "id");
    name ← of_result (str chosen "name");
    if is_empty id then mret None
    else
      node_rows ← rowsFor "WorkflowNode" tenant id;
      match node_rows with
      | [] => mret None
      | _ =>
          param_rows ← rowsFor "WorkflowNodeParam" tenant id;
          edge_rows ← rowsFor "WorkflowEdge" tenant id;
          params ← of_result (group_params param_rows (mkParams ∅ ∅));
          keyed ← of_result (collect_keys node_rows);
          edges ← of_result (collect_edges edge_rows);
          nodes ← of_result (build_nodes (topologicalOrder keyed.*1 edges) (row_by_key keyed) params);
          mret (Some (mkLoaded id name nodes))
      end.

Definition buildWorkflow (tenant : string) (chosen : json) : Op W (option LoadedWorkflow) :=
  catching None (buildWorkflow_body tenant chosen).

Definition loadTenantWorkflow (tenant trigger_event form : string) : Op W (option LoadedWorkflow) :=
  found ← listed "Workflow"
            (with_filter (<["triggerEvent" := trigger_event]> (<["tenantId" := tenant]> ∅)) 100);
  match found with
  | None => mret None
  | Some items => buildWorkflow tenant (bestForForm items form)
  end.

(** The query for one of the two columns a name is tried against. *)
Definition named_options (tenant column named trigger_event : string) : ListOptions :=
  with_filter (<["triggerEvent" := trigger_event]> (<[column := named]> (<["tenantId" := tenant]> ∅))) 10.

Fixpoint load_named (columns : list string) (tenant named trigger_event : string) :
    Op W (option LoadedWorkflow) :=
  match columns with
  | [] => mret None
  | column :: rest =>
      found ← listed "Workflow" (named_options tenant column named trigger_event);
      match found with
      | None => load_named rest tenant named trigger_event
      | Some items =>
          let chosen := firstPublished items in
          if is_null chosen then load_named rest tenant named trigger_event
          else buildWorkflow tenant chosen
      end
  end.

Definition loadTenantWorkflowNamed (tenant named trigger_event form : string) :
    Op W (option LoadedWorkflow) := load_named ["id"; "name"] tenant named trigger_event.

(** ** The engine *)

Record WfEngine := mkEngine {
  event_map : gmap string string;
  tenant_events : gset string; tenants_with_workflows : gset string;
  tenant_events_at : Z; tenant_events_loaded : bool;
}.

(** The event mappings of a parsed configuration: an entry that throws ends the
    loop, the entries before it stay registered. *)
Fixpoint load_entries (entries : list json) (m : gmap string string) : gmap string string :=
  match entries with
  | [] => m
  | entry :: rest =>
      match value_string entry "event" "", value_string entry "workflow" "" with
      | Ok event, Ok workflow =>
          load_entries rest (if negb (is_empty event) && negb (is_empty workflow)
                             then <[event := workflow]> m else m)
      | _, _ => m
      end
  end.

(** [root] is the parsed file, [None] when it cannot be opened or parsed. *)
Definition loadConfig (root : option json) (e : WfEngine) : WfEngine :=
  match root with
  | Some root =>
      match member root "events" with
      | Some (JArray entries) =>
          mkEngine (load_entries entries (event_map e)) (tenant_events e)
            (tenants_with_workflows e) (tenant_events_at e) (tenant_events_loaded e)
      | _ => e
      end
  | None => e
  end.

(** 30 seconds in nanoseconds. *)
Definition kTenantEventsTtl : Z := 30 * 10 ^ 9.

Definition splitEvent (event_name : string) : string * string :=
  match find_char "." event_name with
  | None | Some 0 => ("", "")
  | Some dot =>
      if (String.length event_name <=? dot + 1)%nat then ("", "")
      else (string_take dot event_name, string_drop (S dot) event_name)
  end.

Definition invalidateTenantEvents (e : WfEngine) : WfEngine :=
  mkEngine (event_map e) (tenant_events e) (tenants_with_workflows e) (tenant_events_at e) false.

(** The tenant a workflow row belongs to. *)
Definition row_tenant (row : json) : string :=
  match string_member row "tenantId" with
  | Some t => if is_empty t then "system" else t
  | None => "system"
  end.

(** The event a published row subscribes its tenant to. *)
Definition row_event (row : json) : option string :=
  match string_member row "triggerEvent" with
  | Some trigger => if is_empty trigger then None else Some (row_tenant row +:+ "." +:+ trigger)
  | None => None
  end.

Definition published (rows : list json) : list json := List.filter (fun row => negb (isDraft row)) rows.

Definition tenants_of (rows : list json) : gset string := list_to_set (row_tenant <$> published rows).
Definition events_of (rows : list json) : gset string := list_to_set (omap row_event (published rows)).

(** [now] and [now'] are the clock before and after the listing. *)
Definition refreshTenantEvents (now now' : Z) : Op (WfEngine * W) unit := fun '(e, w) =>
  if tenant_events_loaded e && (now - tenant_events_at e <? kTenantEventsTtl)%Z then (Ok tt, (e, w))
  else
    let fill rows w' :=
      (Ok tt, (mkEngine (event_map e) (events_of rows) (tenants_of rows) now' true, w')) in
    match listEntities "Workflow" (with_filter ∅ 2000) w with
    | (Ok rows, w') => fill rows w'
    | (Undef, w') => (Undef, (e, w'))
    | (_, w') => fill [] w'
    end.

Definition hasEvent (now now' : Z) (event_name : string) : Op (WfEngine * W) bool :=
  known ← gets (fun st => has_key (event_map st.1) event_name);
  if known : bool then mret true
  else
    refreshTenantEvents now now';;
    gets (fun st =>
      bool_decide (event_name ∈ tenant_events st.1) ||
      (negb (is_empty (splitEvent event_name).1) &&
       bool_decide ((splitEvent event_name).1 ∈ tenants_with_workflows st.1))).

(** A workflow run on its own variables, started with the event. *)
Definition run_nodes (nodes : list WfNode) (entity_data : json) : Op W WfContext := fun w =>
  let start := mkState (set "event" entity_data ∅) w in
  match executeNodes builtin_steps nodes start with
  | (Ok _, st) => (Ok (vars st), world st)
  | (r, st) => (recast r, world st)
  end.

Definition runNamedNow (tenant named trigger_event : string) (entity_data : json) : Op W json :=
  catching (JArray []) (
    loaded ← loadTenantWorkflowNamed tenant named trigger_event (formNameOf entity_data);
    match loaded with
    | None => mret (JArray [])
    | Some wf =>
        ctx ← run_nodes (lw_nodes wf) entity_data;
        let effects := get ctx kEffectsVar JNull in
        mret (if is_array effects then effects else JArray [])
    end).

(** The work handed to the detached thread; [read_file] opens and parses a
    workflow file. *)
Definition dispatch_work (read_file : string -> Result json) (path : option string)
    (event_name : string) (entity_data : json) : Op W unit :=
  catching tt (
    match path with
    | Some path =>
        doc ← of_result (read_file path);
        nodes ← of_result (parseNodes doc path);
        _ ← run_nodes nodes entity_data; mret tt
    | None =>
        let '(tenant, trigger) := splitEvent event_name in
        let named := default "" (string_member entity_data "workflow") in
        let form := formNameOf entity_data in
        loaded ← (if is_empty named then loadTenantWorkflow tenant trigger form
                  else loadTenantWorkflowNamed tenant named trigger form);
        match loaded with
        | None => mret tt
        | Some wf => _ ← run_nodes (lw_nodes wf) entity_data; mret tt
        end
    end).

Definition dispatchAsync (read_file : string -> Result json) (now now' : Z)
    (event_name : string) (entity_data : json) : Op (WfEngine * W) (option (Op W unit)) :=
  path ← gets (fun st => event_map st.1 !! event_name);
  match path with
  | Some _ => mret (Some (dispatch_work read_file path event_name entity_data))
  | None =>
      known ← hasEvent now now' event_name;
      mret (if known : bool then Some (dispatch_work read_file None event_name entity_data) else None)
  end.
End Loader.

(** ** Which workflow answers *)

Section RowLemmas.
Context {JL : JsonLib}.

(** A published row that names exactly [form], or one that names none. *)
Definition answers_exactly (form : string) (row : json) : bool :=
  negb (isDraft row) && negb (is_empty (formNameOf row)) && String.eqb (formNameOf row) form.
Definition answers_any (row : json) : bool :=
  negb (isDraft row) && is_empty (formNameOf row).

Lemma bestForForm_go_spec rows form anyForm :
  Forall (fun row => is_null row = false) rows ->
  bestForForm_go rows form anyForm =
    match List.find (answers_exactly form) rows with
    | Some row => row
    | None => if is_null anyForm then default anyForm (List.find answers_any rows) else anyForm
    end.
Proof.
  intros Hall. revert anyForm; induction Hall as [|row rows Hrow _ IH]; intros anyForm; simpl.
  { by destruct (is_null anyForm). }
  unfold answers_exactly at 1, answers_any at 1.
  destruct (isDraft row); simpl; [by rewrite IH|].
  destruct (is_empty (formNameOf row)) eqn:He; simpl.
  - rewrite IH. destruct (List.find (answers_exactly form) rows); [done|].
    destruct (is_null anyForm) eqn:Hn; [by rewrite Hrow|by rewrite Hn].
  - destruct (String.eqb (formNameOf row) form); [done|]. by rewrite IH.
Qed.

Lemma firstPublished_spec rows :
  firstPublished rows = default JNull (List.find (fun row => negb (isDraft row)) rows).
Proof. induction rows as [|row rows IH]; simpl; [done|]. by destruct (isDraft row). Qed.

(** The workflow that answers a submission is the first published one naming
    its form; only when there is none, the first published one naming no form;
    and none (null) when neither exists: a workflow naming another form, or a
    draft, never answers. *)
Theorem bestForForm_spec rows form :
  Forall (fun row => is_null row = false) rows ->
  bestForForm rows form =
    match List.find (answers_exactly form) rows with
    | Some row => row
    | None => default JNull (List.find answers_any rows)
    end.
Proof. intros Hall. unfold bestForForm. by rewrite bestForForm_go_spec. Qed.

Lemma isError_str row key : isError (str row key) = false.
Proof. unfold str. destruct (member row key) as [[]|]; try done; apply isError_dump. Qed.

Lemma group_params_no_err rows acc : isError (group_params rows acc) = false.
Proof.
  revert acc; induction rows as [|row rows IH]; intros acc; [done|]. cbn [group_params].
  repeat (apply isError_bind; [apply isError_str|intros ?]).
  match goal with |- context [if ?b then _ else _] => destruct b end; [apply IH|].
  repeat (apply isError_bind; [apply isError_str|intros ?]). apply IH.
Qed.

Lemma collect_keys_no_err rows : isError (collect_keys rows) = false.
Proof.
  induction rows as [|row rows IH]; [done|]. apply isError_bind; [apply isError_str|intros ?].
  by apply isError_bind.
Qed.

Lemma collect_edges_no_err rows : isError (collect_edges rows) = false.
Proof.
  induction rows as [|row rows IH]; [done|].
  repeat (apply isError_bind; [apply isError_str|intros ?]). by apply isError_bind.
Qed.

Lemma build_nodes_no_err order rows p : isError (build_nodes order rows p) = false.
Proof.
  induction order as [|key order IH]; [done|].
  repeat (apply isError_bind; [apply isError_str|intros ?]). by apply isError_bind.
Qed.

Lemma build_nodes_ids order rows p nodes :
  build_nodes order rows p = Ok nodes -> node_id <$> nodes = order.
Proof.
  revert nodes; induction order as [|key order IH]; intros nodes; cbn [build_nodes]; [by intros [= <-]|].
  destruct (str _ "type"); try done. cbn [mbind Result_bind].
  destruct (str _ "id"); try done. cbn [mbind Result_bind].
  destruct (build_nodes order rows p) as [ns| | |]; try done. intros [= <-].
  rewrite fmap_cons. by rewrite (IH ns).
Qed.
End RowLemmas.

Section LoaderLemmas.
Context {W : Type} `{!Host W} {JL : JsonLib}.

Lemma of_result_ok {S A B} (r : Result A) (k : A -> Op S B) s b s' :
  (of_result r ≫= k) s = (Ok b, s') -> exists a, r = Ok a /\ k a s = (Ok b, s').
Proof. unfold of_result, mbind, Op_bind. destruct r; try done. eauto. Qed.

Lemma bind_ok {S A B} (m : Op S A) (k : A -> Op S B) s b s' :
  (m ≫= k) s = (Ok b, s') -> exists a s1, m s = (Ok a, s1) /\ k a s1 = (Ok b, s').
Proof. unfold mbind, Op_bind. destruct (m s) as [[a|e|x|] s1]; try done. eauto. Qed.

Lemma catching_ok {A} (fallback : A) (m : Op W A) w a w' :
  catching fallback m w = (Ok a, w') -> m w = (Ok a, w') \/ a = fallback.
Proof. unfold catching. destruct (m w) as [[]?]; intros [= <- <-]; auto. Qed.

(** The part of a workflow that its rows determine. *)
Lemma buildWorkflow_some tenant chosen w wf w' :
  buildWorkflow tenant chosen w = (Ok (Some wf), w') ->
  str chosen "id" = Ok (lw_id wf) /\ lw_id wf <> "" /\
  exists node_rows edge_rows w1 w2 w3 keyed edges,
    rowsFor "WorkflowNode" tenant (lw_id wf) w = (Ok node_rows, w1) /\
    rowsFor "WorkflowEdge" tenant (lw_id wf) w2 = (Ok edge_rows, w3) /\
    collect_keys node_rows = Ok keyed /\ collect_edges edge_rows = Ok edges /\
    node_id <$> lw_nodes wf = topologicalOrder keyed.*1 edges.
Proof.
  intros [Hrun|Hrun]%catching_ok; [|done]. unfold buildWorkflow_body in Hrun. rename Hrun into H.
  destruct (is_null chosen); [done|].
  apply of_result_ok in H as (id & Hid & H). apply of_result_ok in H as (name & _ & H).
  destruct (is_empty id) eqn:He; [done|]. apply is_empty_false in He.
  apply bind_ok in H as (node_rows & w1 & Hn & H). destruct node_rows as [|n0 ns]; [done|].
  apply bind_ok in H as (param_rows & w2 & _ & H).
  apply bind_ok in H as (edge_rows & w3 & Hedge & H).
  apply of_result_ok in H as (params & _ & H). apply of_result_ok in H as (keyed & Hk & H).
  apply of_result_ok in H as (edges & Hed & H). apply of_result_ok in H as (nodes & Hnodes & H).
  injection H as <- <-. cbn [lw_id lw_nodes]. split; [done|]. split; [done|].
  exists (n0 :: ns), edge_rows, w1, w2, w3, keyed, edges. repeat (split; [done|]).
  by eapply build_nodes_ids.
Qed.

(** A workflow rebuilt from its rows runs its nodes in the order its edges
    imply: when the node keys are distinct, its nodes are a permutation of the
    stored ones, and unless the edges form a cycle every edge between them runs
    source before target. *)
Theorem buildWorkflow_ordered tenant chosen w wf w' :
  buildWorkflow tenant chosen w = (Ok (Some wf), w') ->
  exists node_rows edge_rows w1 w2 w3 keyed edges,
    rowsFor "WorkflowNode" tenant (lw_id wf) w = (Ok node_rows, w1) /\
    rowsFor "WorkflowEdge" tenant (lw_id wf) w2 = (Ok edge_rows, w3) /\
    collect_keys node_rows = Ok keyed /\ collect_edges edge_rows = Ok edges /\
    (NoDup keyed.*1 -> (node_id <$> lw_nodes wf) ≡ₚ keyed.*1 /\
       ((~ exists x, tc (edge_rel keyed.*1 edges) x x) -> forall a b, (a, b) ∈ edges ->
          a ∈ keyed.*1 -> b ∈ keyed.*1 -> before (node_id <$> lw_nodes wf) a b)).
Proof.
  intros (_ & _ & nr & er & w1 & w2 & w3 & keyed & edges & Hn & He & Hk & Hed & Hord)%buildWorkflow_some.
  exists nr, er, w1, w2, w3, keyed, edges. repeat (split; [done|]). rewrite Hord.
  intros Hnd. destruct (topologicalOrder_correct keyed.*1 edges Hnd) as (Hperm & Hbef & _). by split.
Qed.

(** A client whose listings honour the equality filter they are given. *)
Definition filters_rows : Prop := forall entity opts w items w' row k v,
  listEntities entity opts w = (Ok items, w') -> row ∈ items ->
  opt_filter opts !! k = Some v -> string_member row k = Some v.

(** A workflow summoned by name has opted in: whatever name a request
    carries, the workflow that is loaded is a published row of that tenant whose
    own trigger is the event, found under that identifier or that name. *)
Theorem named_workflow_opted_in tenant named trigger form w wf w' :
  filters_rows -> loadTenantWorkflowNamed tenant named trigger form w = (Ok (Some wf), w') ->
  exists row, str row "id" = Ok (lw_id wf) /\ isDraft row = false /\
    string_member row "tenantId" = Some tenant /\ string_member row "triggerEvent" = Some trigger /\
    (string_member row "id" = Some named \/ string_member row "name" = Some named).
Proof.
  intros Hlaw. unfold loadTenantWorkflowNamed.
  assert (forall columns w, Forall (fun c => c = "id" \/ c = "name") columns ->
    load_named columns tenant named trigger w = (Ok (Some wf), w') -> exists row,
      str row "id" = Ok (lw_id wf) /\ isDraft row = false /\
      string_member row "tenantId" = Some tenant /\ string_member row "triggerEvent" = Some trigger /\
      (string_member row "id" = Some named \/ string_member row "name" = Some named)) as Hgo.
  { induction columns as [|column columns IH]; intros w0 Hcol H; [done|]. cbn [load_named] in H.
    apply Forall_cons in Hcol as [Hc Hcol].
    apply bind_ok in H as (found & w1 & Hl & H). destruct found as [items|]; [|by eapply IH].
    destruct (is_null (firstPublished items)) eqn:Hn; [by eapply IH|].
    apply buildWorkflow_some in H as (Hid & _). exists (firstPublished items). split; [done|].
    rewrite firstPublished_spec in *.
    destruct (List.find _ items) as [row|] eqn:Hf; [|done]. cbn [default] in *.
    apply find_some in Hf as [Hin Hpub]. apply list_elem_of_In in Hin. split; [by apply negb_true_iff|].
    unfold listed in Hl. destruct (listEntities _ _ w0) as [[its| | |] w2] eqn:Hle; try done.
    injection Hl as -> ->.
    assert (forall k v, opt_filter (named_options tenant column named trigger) !! k = Some v ->
      string_member row k = Some v) as Hrow by (intros; by eapply Hlaw).
    destruct Hc as [->| ->]; (split; [|split]); [| |left| | |right]; by apply Hrow. }
  apply Hgo. constructor; [by left|]. constructor; [by right|constructor].
Qed.

Lemma catching_no_err {A} (fallback : A) (m : Op W A) :
  no_err m -> forall w, match catching fallback m w with
                        | (Ok _, _) | (Undef, _) => True | _ => False end.
Proof.
  intros Hm w. specialize (Hm w). unfold catching. by destruct (m w) as [[] ?].
Qed.

Lemma listed_no_err entity opts : no_err (listed entity opts).
Proof. intros w. unfold listed. by destruct (listEntities entity opts w) as [[] ?]. Qed.

Lemma buildWorkflow_no_err tenant chosen : no_err (buildWorkflow tenant chosen).
Proof.
  intros w. unfold buildWorkflow, catching.
  assert (no_err (buildWorkflow_body tenant chosen)) as H.
  2: { specialize (H w). by destruct (buildWorkflow_body tenant chosen w) as [[] ?]. }
  unfold buildWorkflow_body. destruct (is_null chosen); [done|].
  apply no_err_bind; [apply no_err_result, isError_str|intros id].
  apply no_err_bind; [apply no_err_result, isError_str|intros name].
  destruct (is_empty id); [done|].
  assert (forall e, no_err (rowsFor e tenant id)) as Hrows by
    (intros e; apply no_err_bind; [apply listed_no_err|done]).
  apply no_err_bind; [done|intros [|n rows]; [done|]].
  apply no_err_bind; [done|intros params]. apply no_err_bind; [done|intros edges].
  apply no_err_bind; [apply no_err_result, group_params_no_err|intros ?].
  apply no_err_bind; [apply no_err_result, collect_keys_no_err|intros ?].
  apply no_err_bind; [apply no_err_result, collect_edges_no_err|intros ?].
  apply no_err_bind; [apply no_err_result, build_nodes_no_err|done].
Qed.

Lemma load_named_no_err columns tenant named trigger :
  no_err (load_named columns tenant named trigger).
Proof.
  induction columns as [|c columns IH]; [done|]. cbn [load_named].
  apply no_err_bind; [apply listed_no_err|intros [items|]; [|done]].
  destruct (is_null _); [done|apply buildWorkflow_no_err].
Qed.

Lemma run_nodes_no_err nodes data : no_err (run_nodes nodes data).
Proof.
  intros w. unfold run_nodes.
  pose proof (executeNodes_no_err nodes (mkState (set "event" data ∅) w)) as H.
  by destruct (executeNodes _ nodes _) as [[] ?].
Qed.

(** Running a named workflow never fails its caller: it answers with a list
    of page effects, empty when nothing ran or the workflow failed; no error and
    no exception of the client, of a step or of the JSON library comes out. *)
Theorem runNamedNow_total tenant named trigger data w :
  match runNamedNow tenant named trigger data w with
  | (Ok effects, _) => is_array effects = true
  | (Undef, _) => True
  | _ => False
  end.
Proof.
  unfold runNamedNow, catching. set (m := _ ≫= _).
  assert (no_err m) as Hm.
  { apply no_err_bind; [apply load_named_no_err|intros [wf|]; [|done]].
    apply no_err_bind; [apply run_nodes_no_err|done]. }
  assert (forall effects w', m w = (Ok effects, w') -> is_array effects = true) as Hok.
  { intros effects w' H. apply bind_ok in H as ([wf|] & w1 & _ & H); [|by injection H as <- <-].
    apply bind_ok in H as (ctx & w2 & _ & H). injection H as <- <-.
    by destruct (is_array (get ctx kEffectsVar JNull)) eqn:E. }
  specialize (Hm w). destruct (m w) as [[effects|e|x|] w'] eqn:E; try done. by apply (Hok effects w').
Qed.

(** ** The cache of tenant triggers *)

Lemma hasEvent_run now now' event_name e w st' :
  event_map e !! event_name = None -> refreshTenantEvents now now' (e, w) = (Ok tt, st') ->
  hasEvent now now' event_name (e, w) =
    (Ok (bool_decide (event_name ∈ tenant_events st'.1) ||
         (negb (is_empty (splitEvent event_name).1) &&
          bool_decide ((splitEvent event_name).1 ∈ tenants_with_workflows st'.1))), st').
Proof.
  intros He Hr. unfold hasEvent. rewrite run_gets. cbn [fst].
  rewrite (proj2 (has_key_false _ _) He). by rewrite (run_bind_ok _ _ _ _ _ Hr).
Qed.

(** An event that no shipped workflow handles is looked up in the tenants'
    workflows: the client is asked again only when the cache was invalidated or
    is 30 seconds old; then the answer is yes exactly for the events a published
    workflow subscribes to and for the tenants that hold a published workflow,
    and the answer stays the same for the next 30 seconds. *)
Theorem hasEvent_spec now now' event_name (e : WfEngine) w rows w' :
  event_map e !! event_name = None ->
  listEntities "Workflow" (with_filter ∅ 2000) w = (Ok rows, w') ->
  tenant_events_loaded e && (now - tenant_events_at e <? kTenantEventsTtl)%Z = false ->
  exists e', hasEvent now now' event_name (e, w) =
      (Ok (bool_decide (event_name ∈ omap row_event (published rows)) ||
           (negb (is_empty (splitEvent event_name).1) &&
            bool_decide ((splitEvent event_name).1 ∈ row_tenant <$> published rows))), (e', w')) /\
    event_map e' = event_map e /\
    forall later later' w2, (later - now' < kTenantEventsTtl)%Z ->
      hasEvent later later' event_name (e', w2) =
        ((hasEvent now now' event_name (e, w)).1, (e', w2)).
Proof.
  intros He Hl Hstale. set (e' := mkEngine (event_map e) (events_of rows) (tenants_of rows) now' true).
  assert (refreshTenantEvents now now' (e, w) = (Ok tt, (e', w'))) as Hr.
  { unfold refreshTenantEvents. by rewrite Hstale, Hl. }
  assert (forall (l : list string) x, bool_decide (x ∈ (list_to_set l : gset string)) = bool_decide (x ∈ l)) as Hset.
  { intros l x. apply bool_decide_ext. apply elem_of_list_to_set. }
  exists e'. rewrite (hasEvent_run _ _ _ _ _ _ He Hr).
  split; [|split; [done|]].
  - cbn [fst tenant_events tenants_with_workflows e']. unfold events_of, tenants_of. by rewrite !Hset.
  - intros later later' w2 Hlater. rewrite (hasEvent_run _ _ _ _ _ (e', w2)); [done|done|].
    unfold refreshTenantEvents. cbn [tenant_events_loaded tenant_events_at e'].
    apply Z.ltb_lt in Hlater. by rewrite Hlater.
Qed.
End LoaderLemmas.

(** ** A tenant with a workflow of two nodes *)

#[local] Existing Instance demo_host.
#[local] Existing Instance scalar_json.

Definition row (fields : list (string * string)) : json :=
  JObject (foldr (fun e m => obj_set e.1 (JString e.2) m) [] fields).

Definition demo_workflow_row : json :=
  row [("id", "w1"); ("name", "greet"); ("tenantId", "acme"); ("triggerEvent", "Form.created")].

Definition demo_rows : tables :=
  let own fields := row (("tenantId", "acme") :: ("workflowId", "w1") :: fields) in
  [("Workflow", demo_workflow_row);
   ("WorkflowNode", own [("nodeKey", "b"); ("type", "page.show"); ("id", "n2")]);
   ("WorkflowNode", own [("nodeKey", "a"); ("type", "page.text"); ("id", "n1")]);
   ("WorkflowEdge", own [("sourceKey", "a"); ("targetKey", "b")])].

Lemma demo_host_filters : filters_rows (W := tables).
Proof.
  intros entity opts w items w' r k v [= <- <-] Hr Hk.
  assert (r ∈ List.filter (row_matches (opt_filter opts)) (rows_of entity w)) as Hin.
  { eapply elem_of_submseteq; [exact Hr|]. apply sublist_submseteq, sublist_take. }
  apply list_elem_of_In, filter_In in Hin as [_ Hm]. unfold row_matches in Hm.
  rewrite forallb_forall in Hm. refine (bool_decide_eq_true_1 _ (Hm (k, v) _)).
  by apply list_elem_of_In, elem_of_map_to_list.
Qed.

Lemma bestForForm_spec_witness :
  bestForForm [row [("formName", "other")]; row [("id", "any")]; row [("formName", "join")]] "join" =
    row [("formName", "join")].
Proof.
  rewrite bestForForm_spec; [reflexivity|]. repeat constructor.
Defined.

(** The rows list the target first; the loaded workflow runs the source first. *)
Definition demo_loaded : LoadedWorkflow :=
  mkLoaded "w1" "greet" [mkNode "a" "page.text" (JObject []) (JObject []);
                         mkNode "b" "page.show" (JObject []) (JObject [])].

Lemma buildWorkflow_ordered_witness :
  buildWorkflow "acme" demo_workflow_row demo_rows = (Ok (Some demo_loaded), demo_rows) /\
  exists keyed node_rows, collect_keys node_rows = Ok keyed /\
    (NoDup keyed.*1 -> (node_id <$> lw_nodes demo_loaded) ≡ₚ keyed.*1).
Proof.
  assert (buildWorkflow "acme" demo_workflow_row demo_rows = (Ok (Some demo_loaded), demo_rows))
    as Hwf by (vm_compute; reflexivity).
  split; [exact Hwf|].
  destruct (buildWorkflow_ordered "acme" demo_workflow_row demo_rows demo_loaded demo_rows Hwf)
    as (nr & er & w1 & w2 & w3 & keyed & edges & _ & _ & Hk & _ & Ho).
  exists keyed, nr. split; [exact Hk|]. intros Hnd. exact (proj1 (Ho Hnd)).
Defined.

Lemma named_workflow_opted_in_witness :
  loadTenantWorkflowNamed "acme" "greet" "Form.created" "" demo_rows = (Ok (Some demo_loaded), demo_rows) /\
  exists r, str r "id" = Ok "w1" /\ isDraft r = false /\ string_member r "tenantId" = Some "acme".
Proof.
  assert (loadTenantWorkflowNamed "acme" "greet" "Form.created" "" demo_rows =
    (Ok (Some demo_loaded), demo_rows)) as Hwf by (vm_compute; reflexivity).
  split; [exact Hwf|].
  destruct (named_workflow_opted_in "acme" "greet" "Form.created" "" demo_rows demo_loaded demo_rows
    demo_host_filters Hwf) as (r & Hid & Hd & Ht & _).
  exists r. split; [exact Hid|]. split; [exact Hd|exact Ht].
Defined.

Lemma hasEvent_spec_witness :
  exists e', hasEvent 0 1 "acme.Form.created" (mkEngine ∅ ∅ ∅ 0 false, demo_rows) = (Ok true, (e', demo_rows)).
Proof.
  destruct (hasEvent_spec 0 1 "acme.Form.created" (mkEngine ∅ ∅ ∅ 0 false) demo_rows
    (demo_list "Workflow" (with_filter ∅ 2000) demo_rows) demo_rows) as (e' & He & _).
  - reflexivity.
  - reflexivity.
  - reflexivity.
  - exists e'. rewrite He. vm_compute. reflexivity.
Defined.
