(* ===== verification/BqlLexer.v ===== *)
(** * The lexer of the BQL sentence language

    [tokenize] (src/bql/bql_lexer.cpp) cuts one line into words, quoted
    strings and the two punctuation marks.  The loop index [i] is modelled by
    the part of the line it has not reached yet.  The file defines the
    printing of a token list, [render], and shows that reading it back gives
    the same tokens. *)

From S2P Require Import Prelude CxxString.

Open Scope string_scope.

(** ** Tokens (bql_lexer.hpp) *)

Inductive TokenType := Word | Str | Punct.

Record Token := mkToken { type : TokenType; value : string }.

#[export] Instance TokenType_eq_dec : EqDecision TokenType.
Proof. solve_decision. Defined.
#[export] Instance Token_eq_dec : EqDecision Token.
Proof. solve_decision. Defined.

Definition quote : ascii := "034".

(** ** The lexer (bql_lexer.cpp) *)

(** A character that can sit inside a word, on either side of a dot. *)
Definition isWordChar (c : ascii) : bool := is_alnum c || Ascii.eqb c "_".

(** [i + 1 < n && isWordChar(line[i + 1])], of the characters after [i]. *)
Definition word_char_follows (rest : string) : bool :=
  match rest with String c _ => isWordChar c | EmptyString => false end.

(** Where the word loop stops: at [c], with [rest] behind it. *)
Definition word_ends (c : ascii) (rest : string) : bool :=
  is_space c || Ascii.eqb c quote || Ascii.eqb c "," ||
  (Ascii.eqb c "." && negb (word_char_follows rest)).

(** The loop over [j]: the word and what follows it. *)
Fixpoint take_word (s : string) : string * string :=
  match s with
  | EmptyString => ("", "")
  | String c rest =>
      if word_ends c rest then ("", s)
      else let '(w, r) := take_word rest in (String c w, r)
  end.

(** The search for the next quote after [i]: the text up to the closing quote, or to the end of
    the line when there is none, and what follows it. *)
Definition take_quoted (s : string) : string * string :=
  match find_char quote s with
  | Some k => (string_take k s, string_drop (S k) s)
  | None => (s, "")
  end.

(** One round of the loop: the token it pushes, if any, and the rest. *)
Definition lex_step (c : ascii) (rest : string) : option Token * string :=
  if is_space c then (None, rest)
  else if Ascii.eqb c quote then
    let '(v, r) := take_quoted rest in (Some (mkToken Str v), r)
  else if Ascii.eqb c "," then (Some (mkToken Punct ","), rest)
  else if Ascii.eqb c "." && negb (word_char_follows rest) then (Some (mkToken Punct "."), rest)
  else let '(w, r) := take_word (String c rest) in (Some (mkToken Word w), r).

Fixpoint tokenize_loop (fuel : nat) (s : string) : list Token :=
  match fuel, s with
  | S f, String c rest =>
      let '(t, r) := lex_step c rest in
      match t with Some t => t :: tokenize_loop f r | None => tokenize_loop f r end
  | _, _ => []
  end.

Definition tokenize (line : string) : list Token := tokenize_loop (String.length line) line.

(** ** Well-formed tokens *)

(** The text of a word: no separator in it, and every dot followed by a word
    character of the same word. *)
Fixpoint word_text (w : string) : bool :=
  match w with
  | EmptyString => true
  | String c w' => negb (word_ends c w') && word_text w'
  end.

Definition no_quote (s : string) : bool :=
  string_forallb (fun c => negb (Ascii.eqb c quote)) s.

Definition token_ok (t : Token) : bool :=
  match type t with
  | Word => negb (is_empty (value t)) && word_text (value t)
  | Str => no_quote (value t)
  | Punct => String.eqb (value t) "," || String.eqb (value t) "."
  end.

(** A token as it is written, and a line of tokens with a space after each. *)
Definition render_token (t : Token) : string :=
  match type t with
  | Word | Punct => value t
  | Str => String quote (value t +:+ String quote "")
  end.

Fixpoint render (ts : list Token) : string :=
  match ts with
  | [] => ""
  | t :: ts => render_token t +:+ String " " (render ts)
  end.

(** ** The loop ends: every round consumes a character *)

Lemma take_word_length s : String.length (take_word s).2 <= String.length s.
Proof.
  induction s as [|c s IH]; [done|]. cbn [take_word].
  destruct (word_ends c s); [done|]. destruct (take_word s) as [w r]. simpl in *. lia.
Qed.

Lemma take_quoted_length s : String.length (take_quoted s).2 <= String.length s.
Proof.
  unfold take_quoted. destruct (find_char quote s); cbn [snd]; [|simpl; lia].
  rewrite string_drop_length. lia.
Qed.

Lemma lex_step_word c rest :
  is_space c = false -> Ascii.eqb c quote = false -> Ascii.eqb c "," = false ->
  Ascii.eqb c "." && negb (word_char_follows rest) = false ->
  word_ends c rest = false.
Proof. intros H1 H2 H3 H4. unfold word_ends. by rewrite H1, H2, H3, H4. Qed.

Lemma lex_step_length c rest : String.length (lex_step c rest).2 <= String.length rest.
Proof.
  unfold lex_step.
  destruct (is_space c) eqn:E1; [done|].
  destruct (Ascii.eqb c quote) eqn:E2.
  { pose proof (take_quoted_length rest). by destruct (take_quoted rest). }
  destruct (Ascii.eqb c ",") eqn:E3; [done|].
  destruct (Ascii.eqb c "." && _) eqn:E4; [done|].
  cbn [take_word]. rewrite lex_step_word by done.
  pose proof (take_word_length rest). by destruct (take_word rest).
Qed.

(** More fuel than the length of the line changes nothing. *)
Lemma tokenize_loop_fuel f f' s :
  String.length s <= f -> String.length s <= f' -> tokenize_loop f s = tokenize_loop f' s.
Proof.
  revert f' s; induction f as [|f IH]; intros f' [|c s] Hf Hf'; simpl in Hf, Hf'; try lia.
  - by destruct f'.
  - by destruct f'.
  - destruct f' as [|f']; [lia|]. cbn [tokenize_loop].
    pose proof (lex_step_length c s) as Hl. destruct (lex_step c s) as [t r]. cbn [snd] in Hl.
    rewrite (IH f' r) by lia. done.
Qed.

(** The equation of one round, without fuel. *)
Lemma tokenize_cons c rest :
  tokenize (String c rest) =
    (let '(t, r) := lex_step c rest in
     match t with Some t => t :: tokenize r | None => tokenize r end).
Proof.
  unfold tokenize. cbn [String.length tokenize_loop].
  pose proof (lex_step_length c rest) as Hl. destruct (lex_step c rest) as [t r]. cbn [snd] in Hl.
  by rewrite (tokenize_loop_fuel (String.length rest) (String.length r) r) by lia.
Qed.

(** ** What the lexer produces is well formed *)

Lemma word_char_not_end c rest : isWordChar c = true -> word_ends c rest = false.
Proof.
  intros Hc. assert (forall c, implb (isWordChar c)
      (negb (is_space c || Ascii.eqb c quote || Ascii.eqb c "," || Ascii.eqb c ".")) = true) as H
    by (apply ascii_forall; vm_compute; reflexivity).
  specialize (H c). rewrite Hc in H. cbn [implb] in H.
  apply negb_true_iff, orb_false_iff in H as [H1 H2].
  unfold word_ends. by rewrite H1, H2.
Qed.

(** The word loop keeps the dot's follower. *)
Lemma take_word_follows s : word_char_follows s = true -> word_char_follows (take_word s).1 = true.
Proof.
  destruct s as [|c s]; [done|]. intros Hc. cbn [word_char_follows] in Hc. cbn [take_word].
  rewrite word_char_not_end by done. by destruct (take_word s).
Qed.

Lemma word_ends_mono c s s' :
  word_ends c s = false -> (word_char_follows s = true -> word_char_follows s' = true) ->
  word_ends c s' = false.
Proof.
  unfold word_ends. rewrite !orb_false_iff, !andb_false_iff, !negb_false_iff.
  intros [H H'] Hs. naive_solver.
Qed.

Lemma take_word_text s : word_text (take_word s).1 = true.
Proof.
  induction s as [|c s IH]; [done|]. cbn [take_word].
  destruct (word_ends c s) eqn:E; [done|].
  pose proof (take_word_follows s) as Hf. destruct (take_word s) as [w r] eqn:Ew.
  cbn [fst word_text] in *. rewrite IH, andb_true_r. apply negb_true_iff.
  by apply (word_ends_mono c s w).
Qed.

Lemma no_quote_find s : find_char quote s = None <-> no_quote s = true.
Proof.
  induction s as [|c s IH]; [done|]. cbn [find_char no_quote string_forallb].
  rewrite Ascii.eqb_sym. destruct (Ascii.eqb c quote); cbn [negb andb]; [done|].
  change (string_forallb _ s) with (no_quote s). rewrite fmap_None. done.
Qed.

Lemma take_quoted_ok s : no_quote (take_quoted s).1 = true.
Proof.
  unfold take_quoted. destruct (find_char quote s) as [k|] eqn:E; cbn [fst]; apply no_quote_find; [|done].
  by apply find_char_Some in E as [_ E].
Qed.

Lemma lex_step_ok c rest t r : lex_step c rest = (Some t, r) -> token_ok t = true.
Proof.
  unfold lex_step. destruct (is_space c) eqn:E1; [done|].
  destruct (Ascii.eqb c quote) eqn:E2.
  { pose proof (take_quoted_ok rest). destruct (take_quoted rest). by intros [= <- <-]. }
  destruct (Ascii.eqb c ",") eqn:E3; [by intros [= <- <-]|].
  destruct (Ascii.eqb c "." && _) eqn:E4; [by intros [= <- <-]|].
  pose proof (take_word_text (String c rest)) as Hw. revert Hw.
  cbn [take_word]. rewrite lex_step_word by done.
  destruct (take_word rest) as [w r']. intros Hw [= <- <-]. exact Hw.
Qed.

Lemma tokenize_loop_ok f s : Forall (fun t => token_ok t = true) (tokenize_loop f s).
Proof.
  revert s; induction f as [|f IH]; intros [|c s]; try by constructor. cbn [tokenize_loop].
  destruct (lex_step c s) as [[t|] r] eqn:E; [|done].
  constructor; [by eapply lex_step_ok|done].
Qed.

Lemma tokenize_ok line : Forall (fun t => token_ok t = true) (tokenize line).
Proof. apply tokenize_loop_ok. Qed.

(** ** Reading a printed line back *)

Lemma take_word_app w r :
  word_text w = true -> take_word (w +:+ String " " r) = (w, String " " r).
Proof.
  intros Hw. induction w as [|c w IH]; [done|].
  cbn [word_text] in Hw. apply andb_true_iff in Hw as [Hc Hw]. apply negb_true_iff in Hc.
  rewrite string_app_cons. cbn [take_word].
  assert (word_ends c (w +:+ String " " r) = false) as ->.
  { apply (word_ends_mono c w); [done|]. by destruct w. }
  by rewrite IH.
Qed.

Lemma find_quote_app s r :
  no_quote s = true -> find_char quote (s +:+ String quote r) = Some (String.length s).
Proof.
  induction s as [|c s IH]; [done|]. cbn [no_quote string_forallb]. intros [Hc Hs]%andb_true_iff.
  rewrite string_app_cons. cbn [find_char]. rewrite Ascii.eqb_sym. apply negb_true_iff in Hc. rewrite Hc.
  by rewrite IH.
Qed.

Lemma take_quoted_app s r : no_quote s = true -> take_quoted (s +:+ String quote r) = (s, r).
Proof.
  intros Hs. unfold take_quoted. rewrite find_quote_app by done. rewrite string_take_app. f_equal.
  induction s as [|c s IH]; [done|]. rewrite string_app_cons.
  cbn [no_quote string_forallb] in Hs. apply andb_true_iff in Hs as [_ Hs]. exact (IH Hs).
Qed.

Lemma tokenize_space r : tokenize (String " " r) = tokenize r.
Proof. by rewrite tokenize_cons. Qed.

Lemma tokenize_render_token t r :
  token_ok t = true -> tokenize (render_token t +:+ String " " r) = t :: tokenize r.
Proof.
  destruct t as [[] v]; unfold token_ok, render_token; cbn [type value].
  - intros [He Hw]%andb_true_iff. destruct v as [|c v]; [done|].
    pose proof (take_word_app _ r Hw) as Ht. rewrite string_app_cons in *.
    rewrite tokenize_cons. cbn [word_text] in Hw. apply andb_true_iff in Hw as [Hc _].
    apply negb_true_iff in Hc.
    apply (word_ends_mono c v (v +:+ String " " r)) in Hc; [|by destruct v].
    pose proof Hc as Hc'. unfold word_ends in Hc'.
    apply orb_false_iff in Hc' as [[[H1 H2]%orb_false_iff H3]%orb_false_iff H4].
    unfold lex_step. rewrite H1, H2, H3, H4, Ht. by rewrite tokenize_space.
  - intros Hv. rewrite string_app_cons, tokenize_cons.
    replace ((v +:+ String quote "") +:+ String " " r) with (v +:+ String quote (String " " r))
      by (by rewrite <- string_app_assoc).
    unfold lex_step. change (is_space quote) with false. change (Ascii.eqb quote quote) with true.
    cbv iota. rewrite take_quoted_app by done. by rewrite tokenize_space.
  - intros [->%String.eqb_eq| ->%String.eqb_eq]%orb_true_iff.
    all: rewrite string_app_cons, string_app_nil_l, tokenize_cons; unfold lex_step; simpl.
    all: by rewrite tokenize_space.
Qed.

Lemma tokenize_render ts r :
  Forall (fun t => token_ok t = true) ts -> tokenize (render ts +:+ r) = (ts ++ tokenize r)%list.
Proof.
  induction 1 as [|t ts Ht _ IH]; [done|]. cbn [render].
  rewrite <- string_app_assoc, string_app_cons, tokenize_render_token by done. by rewrite IH.
Qed.

(** The lexer always ends, whatever the line holds: one round of its loop
    per character is enough.  The tokens it produces are well formed (a word is
    not empty and holds no blank, quote, comma or sentence-ending dot, quoted
    text holds no quote), and printing them and reading the print again gives
    the same tokens. *)
Theorem tokenize_spec line fuel :
  (String.length line <= fuel -> tokenize_loop fuel line = tokenize line) /\
  Forall (fun t => token_ok t = true) (tokenize line) /\
  tokenize (render (tokenize line)) = tokenize line.
Proof.
  split; [intros Hf; by apply tokenize_loop_fuel|].
  split; [apply tokenize_ok|].
  pose proof (tokenize_render (tokenize line) "" (tokenize_ok line)) as H.
  by rewrite string_app_nil_r, app_nil_r in H.
Qed.

Example lex_sentence :
  tokenize "Inside hero, add a Box of 3.5." =
    [mkToken Word "Inside"; mkToken Word "hero"; mkToken Punct ","; mkToken Word "add";
     mkToken Word "a"; mkToken Word "Box"; mkToken Word "of"; mkToken Word "3.5"; mkToken Punct "."].
Proof. reflexivity. Qed.
