(* ===== verification/BqlParser.v ===== *)
(** * The parser of BQL sentences

    The grammar of src/bql/bql_parser.cpp: one definition per parse function,
    over a cursor that is the list of the tokens it has not consumed.  The file
    shows that a sentence printed in the canonical way parses back to itself,
    that every sentence the parser accepts has such a print, and what the
    parser leaves out of a [then] sentence. *)

From S2P Require Import Prelude CxxString BqlLexer.

Open Scope string_scope.

(** ** Sentences (bql_parser.hpp) *)

Record BqlAttr := mkAttr { key : string; attr_value : string }.

Inductive Kind :=
  | Add | Give | Style | Class_ | Publish | Clear
  | Workflow | Trigger | Step | PublishWorkflow.

Record BqlSentence := mkSentence {
  kind : Kind;
  line : Z;                      (* 1-based source line, set by parseScript *)
  blockName : string;            (* add *)
  text : option string;          (* add *)
  alias : option string;         (* add (own alias), give/class (target) *)
  parentAlias : option string;   (* add *)
  attrs : list BqlAttr;          (* add, give, style, step *)
  name : string;                 (* style, publish (the title), workflow *)
  names : list string;           (* class *)
  path : string;                 (* publish *)
  stepName : string;             (* step *)
  event : string;                (* trigger *)
  form : string;                 (* trigger: which form, or empty *)
}.

#[export] Instance BqlAttr_eq_dec : EqDecision BqlAttr.
Proof. solve_decision. Defined.
#[export] Instance Kind_eq_dec : EqDecision Kind.
Proof. solve_decision. Defined.
#[export] Instance BqlSentence_eq_dec : EqDecision BqlSentence.
Proof. solve_decision. Defined.

#[export] Instance BqlSentence_fields : Fields BqlSentence := fun r =>
  mkSentence (kind r) (line r) (blockName r) (text r) (alias r) (parentAlias r) (attrs r)
    (name r) (names r) (path r) (stepName r) (event r) (form r).

(** A sentence as its default member initialisers leave it, with its kind. *)
Definition sentence_of (k : Kind) : BqlSentence :=
  mkSentence k 0 "" None None None [] "" [] "" "" "" "".

(** [ok] with the sentence, or not [ok] with the error. *)
Inductive SentenceResult := SOk (s : BqlSentence) | SFail (error : string).

(** ** Character helpers *)

Definition toLower : string -> string := to_lower.

(** The characters of [find_first_not_of]: space, tab, carriage return, newline. *)
Definition is_blank (c : ascii) : bool :=
  Ascii.eqb c " " || Ascii.eqb c "009" || Ascii.eqb c "013" || Ascii.eqb c "010".

Fixpoint trim_start (s : string) : string :=
  match s with
  | String c s' => if is_blank c then trim_start s' else s
  | EmptyString => ""
  end.

Fixpoint trim_end (s : string) : string :=
  match s with
  | String c s' =>
      let t := trim_end s' in if is_empty t && is_blank c then "" else String c t
  | EmptyString => ""
  end.

Definition trim (s : string) : string := trim_end (trim_start s).

(** ** The cursor *)

Abbreviation Cursor := (list Token).

Definition peek (offset : nat) (c : Cursor) : option Token := nth_error c offset.
(** [next] moves on even at the end, where there is nothing more to read. *)
Definition next (c : Cursor) : Cursor := tl c.

Definition isWord (c : Cursor) (v : string) (offset : nat) : bool :=
  match peek offset c with
  | Some t => bool_decide (type t = Word) && String.eqb (toLower (value t)) v
  | None => false
  end.

Definition isComma (c : Cursor) : bool :=
  match peek 0 c with
  | Some t => bool_decide (type t = Punct) && String.eqb (value t) ","
  | None => false
  end.

Definition skipArticle (c : Cursor) : Cursor :=
  if isWord c "a" 0 || isWord c "an" 0 then next c else c.

(** [words] joined with one space between two. *)
Fixpoint join (words : list string) : string :=
  match words with
  | [] => ""
  | [w] => w
  | w :: ws => w +:+ String " " (join ws)
  end.

Definition mem (v : string) (l : list string) : bool := existsb (String.eqb v) l.

(** The loop of [consumeWordsUntil], and of [parseValue] with "and" to stop. *)
Fixpoint take_words (stopWords : list string) (c : Cursor) : list string * Cursor :=
  match c with
  | mkToken Word v :: c' =>
      if mem (toLower v) stopWords then ([], c)
      else let '(ws, r) := take_words stopWords c' in (v :: ws, r)
  | _ => ([], c)
  end.

Definition consumeWordsUntil (stopWords : list string) (c : Cursor) : string * Cursor :=
  let '(ws, r) := take_words stopWords c in (join ws, r).

Definition consumeSeparator (c : Cursor) : bool * Cursor :=
  let '(found, c) := if isComma c then (true, next c) else (false, c) in
  if isWord c "and" 0 then (true, next c) else (found, c).

Definition parseValue (c : Cursor) : option (string * Cursor) :=
  match peek 0 c with
  | None => None
  | Some (mkToken Str v) => Some (v, next c)
  | Some _ =>
      let '(words, c) := take_words ["and"] c in
      match words with [] => None | _ => Some (join words, c) end
  end.

Definition parseAttrItem (c : Cursor) : option (BqlAttr * Cursor) :=
  let c := skipArticle c in
  let '(key, c) := consumeWordsUntil ["of"] c in
  if is_empty key || negb (isWord c "of" 0) then None
  else
    match parseValue (next c) with
    | None => None
    | Some (v, c) => Some (mkAttr key v, c)
    end.

(** The [while (consumeSeparator(c))] loop of [parseAttrList]. *)
Fixpoint attr_loop (fuel : nat) (c : Cursor) : option (list BqlAttr * Cursor) :=
  match fuel with
  | O => None
  | S f =>
      let '(found, c) := consumeSeparator c in
      if negb found then Some ([], c)
      else
        match parseAttrItem c with
        | None => None
        | Some (a, c) =>
            match attr_loop f c with
            | None => None
            | Some (l, c) => Some (a :: l, c)
            end
        end
  end.

Definition parseAttrList (c : Cursor) : option (list BqlAttr * Cursor) :=
  match parseAttrItem c with
  | None => None
  | Some (a, c) =>
      match attr_loop (S (length c)) c with
      | None => None
      | Some (l, c) => Some (a :: l, c)
      end
  end.

(** ** Clauses *)

Record AddClause := mkClause {
  c_blockName : string;
  c_alias : option string;
  c_text : option string;
  c_attrs : list BqlAttr;
}.

(** [called <word>] *)
Definition parse_called (c : Cursor) : option (option string * Cursor) :=
  if isWord c "called" 0 then
    match next c with
    | mkToken Word v :: c => Some (Some v, c)
    | _ => None
    end
  else Some (None, c).

(** [that says <quoted text>] *)
Definition parse_says (c : Cursor) : option (option string * Cursor) :=
  if isWord c "that" 0 then
    let c := next c in
    if negb (isWord c "says" 0) then None
    else
      match next c with
      | mkToken Str v :: c => Some (Some v, c)
      | _ => None
      end
  else Some (None, c).

(** [with <attribute list>] *)
Definition parse_with (c : Cursor) : option (list BqlAttr * Cursor) :=
  if isWord c "with" 0 then parseAttrList (next c) else Some ([], c).

Definition parseAddClause (c : Cursor) : option (AddClause * Cursor) :=
  let c := skipArticle c in
  let '(blockName, c) := consumeWordsUntil ["called"; "that"; "with"] c in
  if is_empty blockName then None
  else
    match parse_called c with
    | None => None
    | Some (alias, c) =>
        match parse_says c with
        | None => None
        | Some (text, c) =>
            match parse_with c with
            | None => None
            | Some (attrs, c) => Some (mkClause blockName alias text attrs, c)
            end
        end
    end.

Fixpoint name_loop (fuel : nat) (c : Cursor) : list string * Cursor :=
  match fuel, c with
  | S f, mkToken Str v :: c =>
      let '(found, c) := consumeSeparator c in
      if found then let '(l, c) := name_loop f c in (v :: l, c) else ([v], c)
  | _, _ => ([], c)
  end.

Definition parseNameList (c : Cursor) : list string * Cursor := name_loop (length c) c.

(** ** Sentence forms *)

Definition fail (message : string) : SentenceResult := SFail message.

(** A quoted text inside a message. *)
Definition quoted (s : string) : string := String quote (s +:+ String quote "").

Definition could_not (what rawLine : string) : SentenceResult :=
  fail ("Could not read" +:+ what +:+ ": " +:+ quoted rawLine).

Definition addResult (clause : AddClause) (parent : option string) : SentenceResult :=
  SOk ((sentence_of Add) <| blockName := c_blockName clause |> <| alias := c_alias clause |>
         <| text := c_text clause |> <| attrs := c_attrs clause |> <| parentAlias := parent |>).

Definition parseAdd (rawLine : string) (c : Cursor) : SentenceResult * Cursor :=
  match parseAddClause (next c) with
  | None => (could_not " the block in" rawLine, c)
  | Some (clause, c) => (addResult clause None, c)
  end.

Definition parseInsideAdd (rawLine : string) (c : Cursor) : SentenceResult * Cursor :=
  match next c with
  | mkToken Word parent :: c =>
      let c := if isComma c then next c else c in
      if negb (isWord c "add" 0) then (could_not "" rawLine, c)
      else
        match parseAddClause (next c) with
        | None => (could_not " the block in" rawLine, c)
        | Some (clause, c) => (addResult clause (Some parent), c)
        end
  | _ => (could_not "" rawLine, c)
  end.

Definition parseGive (rawLine : string) (c : Cursor) : SentenceResult * Cursor :=
  match next c with
  | mkToken Word a :: c =>
      match parseAttrList c with
      | None => (could_not " the properties in" rawLine, c)
      | Some (l, c) => (SOk ((sentence_of Give) <| alias := Some a |> <| attrs := l |>), c)
      end
  | _ => (could_not "" rawLine, c)
  end.

Definition parseStyle (rawLine : string) (c : Cursor) : SentenceResult * Cursor :=
  let c := skipArticle (next c) in
  if negb (isWord c "style" 0) || negb (isWord c "called" 1) then (could_not "" rawLine, c)
  else
    match next (next c) with
    | mkToken Str n :: c =>
        match parse_with c with
        | None => (could_not " the properties in" rawLine, c)
        | Some (l, c) => (SOk ((sentence_of Style) <| name := n |> <| attrs := l |>), c)
        end
    | _ => (could_not "" rawLine, c)
    end.

Definition parseApply (rawLine : string) (c : Cursor) : SentenceResult * Cursor :=
  let '(ns, c) := parseNameList (next c) in
  match ns with
  | [] => (fail ("Nothing to apply in: " +:+ quoted rawLine), c)
  | _ =>
      if negb (isWord c "to" 0) then (could_not "" rawLine, c)
      else
        match next c with
        | mkToken Word a :: c => (SOk ((sentence_of Class_) <| names := ns |> <| alias := Some a |>), c)
        | _ => (could_not "" rawLine, c)
        end
  end.

(** The optional [as <quoted title>] of [parsePublish]. *)
Definition parse_title (c : Cursor) : option (string * Cursor) :=
  if isWord c "as" 0 then
    match next c with
    | mkToken Str t :: c => Some (t, c)
    | _ => None
    end
  else Some ("", c).

Definition parsePublish (rawLine : string) (c : Cursor) : SentenceResult * Cursor :=
  let c := next c in
  if isWord c "the" 0 then
    let c := next c in
    if negb (isWord c "workflow" 0) then (could_not "" rawLine, c)
    else (SOk (sentence_of PublishWorkflow), next c)
  else
    let c := if isWord c "this" 0 then next c else c in
    match parse_title c with
    | None => (could_not " the title in" rawLine, c)
    | Some (title, c) =>
        if negb (isWord c "at" 0) then
          (fail ("Missing " +:+ quoted "at <path>" +:+ " in: " +:+ quoted rawLine), c)
        else
          match next c with
          | mkToken Word p :: c | mkToken Str p :: c =>
              (SOk ((sentence_of Publish) <| name := title |> <| path := p |>), c)
          | _ => (could_not " the path in" rawLine, c)
          end
    end.

Definition parseWorkflowStart (rawLine : string) (c : Cursor) : SentenceResult * Cursor :=
  if negb (isWord c "workflow" 0) then (could_not "" rawLine, c)
  else
    let c := next c in
    if negb (isWord c "called" 0) then
      (fail ("Missing " +:+ quoted "called <name>" +:+ " in: " +:+ quoted rawLine), c)
    else
      match next c with
      | mkToken Str n :: c => (SOk ((sentence_of Workflow) <| name := n |>), c)
      | _ => (fail ("The workflow's name has to be in quotes, in: " +:+ quoted rawLine), c)
      end.

Definition parseClear (rawLine : string) (c : Cursor) : SentenceResult * Cursor :=
  let c := skipArticle (next c) in
  if negb (isWord c "new" 0) then (could_not "" rawLine, c)
  else
    let c := next c in
    if isWord c "workflow" 0 then parseWorkflowStart rawLine c
    else if negb (isWord c "page" 0) then (could_not "" rawLine, c)
    else (SOk (sentence_of Clear), next c).

(** The event a spoken phrase stands for. *)
Definition phrase_event (lowered : string) : option string :=
  if mem lowered ["someone submits a form"; "a form is submitted"] then Some "FormSubmission.created"
  else if mem lowered ["someone joins"; "someone signs up"] then Some "User.created"
  else None.

Definition parseRunWhen (rawLine : string) (c : Cursor) : SentenceResult * Cursor :=
  let c := next c in
  let c := if isWord c "it" 0 then next c else c in
  if negb (isWord c "when" 0) then
    (fail ("Missing " +:+ quoted "when" +:+ " in: " +:+ quoted rawLine), c)
  else
    let c := next c in
    if isWord c "someone" 0 && isWord c "submits" 1 && isWord c "the" 2 then
      match peek 3 c with
      | Some (mkToken Str f) =>
          if negb (isWord c "form" 4) then
            (fail ("Missing " +:+ quoted "form" +:+ " in: " +:+ quoted rawLine), c)
          else
            (SOk ((sentence_of Trigger) <| event := "FormSubmission.created" |> <| form := f |>),
             Nat.iter 5 next c)
      | _ => (fail ("The form's name has to be in quotes, in: " +:+ quoted rawLine), c)
      end
    else
      let '(phrase, c) := consumeWordsUntil [] c in
      match phrase_event (toLower phrase) with
      | Some e => (SOk ((sentence_of Trigger) <| event := e |>), c)
      | None =>
          (fail ("Don't know when " +:+ quoted phrase +:+ " is. Try " +:+
                 quoted "someone submits a form" +:+ " or " +:+ quoted "someone joins" +:+ "."), c)
      end.

Definition parseThen (rawLine : string) (c : Cursor) : SentenceResult * Cursor :=
  match parseAddClause (next c) with
  | None => (could_not " the step in" rawLine, c)
  | Some (clause, c) =>
      if is_empty (c_blockName clause) then (could_not " the step in" rawLine, c)
      else
        (SOk ((sentence_of Step) <| stepName := c_blockName clause |> <| attrs := c_attrs clause |>), c)
  end.

Definition stripTerminator (tokens : list Token) : list Token :=
  match last tokens with
  | Some (mkToken Punct ".") => removelast tokens
  | _ => tokens
  end.

(** The dispatch on the first word. *)
Definition dispatch (rawLine : string) (c : Cursor) : SentenceResult * Cursor :=
  if isWord c "start" 0 then parseClear rawLine c
  else if isWord c "publish" 0 then parsePublish rawLine c
  else if isWord c "apply" 0 then parseApply rawLine c
  else if isWord c "make" 0 then parseStyle rawLine c
  else if isWord c "give" 0 then parseGive rawLine c
  else if isWord c "inside" 0 then parseInsideAdd rawLine c
  else if isWord c "add" 0 then parseAdd rawLine c
  else if isWord c "run" 0 then parseRunWhen rawLine c
  else if isWord c "then" 0 then parseThen rawLine c
  else (fail ("Didn't understand: " +:+ quoted rawLine), c).

(** What is left over makes an accepted sentence an error. *)
Definition check_extra (rawLine : string) (r : SentenceResult * Cursor) : SentenceResult :=
  match r with
  | (SOk s, extra :: _) =>
      fail ("Did not understand " +:+ quoted (value extra) +:+ " in: " +:+ quoted rawLine)
  | (res, _) => res
  end.

Definition parseSentence (rawLine : string) : SentenceResult :=
  check_extra rawLine (dispatch rawLine (stripTerminator (tokenize (trim rawLine)))).

(** ** Canonical sentences

    [print] writes a sentence the way the documentation does: an article in
    front of every name, every text in quotes, a full stop at the end. *)

Definition W (v : string) : Token := mkToken Word v.
Definition Q (v : string) : Token := mkToken Str v.

Fixpoint split_spaces (s : string) : list string :=
  match s with
  | EmptyString => [""]
  | String c s' =>
      if Ascii.eqb c " " then "" :: split_spaces s'
      else
        match split_spaces s' with
        | w :: ws => String c w :: ws
        | [] => [String c ""]
        end
  end.

Definition phrase (n : string) : list Token := W <$> split_spaces n.

Definition attr_tokens (a : BqlAttr) : list Token :=
  W "a" :: phrase (key a) ++ [W "of"; Q (attr_value a)].

Definition more_attrs (l : list BqlAttr) : list Token :=
  mjoin ((fun a => W "and" :: attr_tokens a) <$> l).

Definition attrs_tokens (l : list BqlAttr) : list Token :=
  match l with [] => [] | a :: l => attr_tokens a ++ more_attrs l end.

Definition with_tokens (l : list BqlAttr) : list Token :=
  match l with [] => [] | _ => W "with" :: attrs_tokens l end.

Definition opt_tokens {A} (o : option A) (f : A -> list Token) : list Token :=
  match o with Some a => f a | None => [] end.

Definition clause_tokens (cl : AddClause) : list Token :=
  W "a" :: phrase (c_blockName cl) ++
  opt_tokens (c_alias cl) (fun a => [W "called"; W a]) ++
  opt_tokens (c_text cl) (fun t => [W "that"; W "says"; Q t]) ++
  with_tokens (c_attrs cl).

Definition more_names (l : list string) : list Token :=
  mjoin ((fun n => [W "and"; Q n]) <$> l).

Definition sentence_tokens (s : BqlSentence) : list Token :=
  match kind s with
  | Add =>
      opt_tokens (parentAlias s) (fun p => [W "inside"; W p]) ++
      W "add" :: clause_tokens (mkClause (blockName s) (alias s) (text s) (attrs s))
  | Give => W "give" :: W (default "" (alias s)) :: attrs_tokens (attrs s)
  | Style => [W "make"; W "a"; W "style"; W "called"; Q (name s)] ++ with_tokens (attrs s)
  | Class_ =>
      W "apply" :: opt_tokens (head (names s)) (fun n => [Q n]) ++ more_names (tail (names s)) ++
      [W "to"; W (default "" (alias s))]
  | Publish =>
      [W "publish"; W "this"] ++ (if is_empty (name s) then [] else [W "as"; Q (name s)]) ++
      [W "at"; Q (path s)]
  | Clear => [W "start"; W "a"; W "new"; W "page"]
  | Workflow => [W "start"; W "a"; W "new"; W "workflow"; W "called"; Q (name s)]
  | Trigger =>
      [W "run"; W "it"; W "when"; W "someone"] ++
      (if String.eqb (event s) "User.created" then [W "joins"]
       else W "submits" :: (if is_empty (form s) then [W "a"; W "form"] else [W "the"; Q (form s); W "form"]))
  | Step => W "then" :: clause_tokens (mkClause (stepName s) None None (attrs s))
  | PublishWorkflow => [W "publish"; W "the"; W "workflow"]
  end.

Definition print (s : BqlSentence) : string := render (sentence_tokens s) +:+ ".".

(** ** Well-formed sentences *)

Definition word_ok (w : string) : bool := token_ok (W w).

Definition phrase_ok (stops : list string) (n : string) : bool :=
  forallb (fun w => word_ok w && negb (mem (toLower w) stops)) (split_spaces n).

Definition attr_ok (a : BqlAttr) : bool := phrase_ok ["of"] (key a) && no_quote (attr_value a).
Definition attrs_ok (l : list BqlAttr) : bool := forallb attr_ok l.

Definition opt_ok {A} (p : A -> bool) (o : option A) : bool :=
  match o with Some a => p a | None => true end.

Definition clause_ok (cl : AddClause) : bool :=
  phrase_ok ["called"; "that"; "with"] (c_blockName cl) && opt_ok word_ok (c_alias cl) &&
  opt_ok no_quote (c_text cl) && attrs_ok (c_attrs cl).

(** The fields a sentence of its kind uses, the others as they are initialised. *)
Definition sentence_shape (s : BqlSentence) : BqlSentence :=
  let z := sentence_of (kind s) in
  match kind s with
  | Add => z <| blockName := blockName s |> <| alias := alias s |> <| text := text s |>
             <| attrs := attrs s |> <| parentAlias := parentAlias s |>
  | Give => z <| alias := Some (default "" (alias s)) |> <| attrs := attrs s |>
  | Style => z <| name := name s |> <| attrs := attrs s |>
  | Class_ => z <| names := names s |> <| alias := Some (default "" (alias s)) |>
  | Publish => z <| name := name s |> <| path := path s |>
  | Workflow => z <| name := name s |>
  | Trigger => z <| event := event s |> <| form := form s |>
  | Step => z <| stepName := stepName s |> <| attrs := attrs s |>
  | Clear | PublishWorkflow => z
  end.

Definition fields_ok (s : BqlSentence) : bool :=
  match kind s with
  | Add => clause_ok (mkClause (blockName s) (alias s) (text s) (attrs s)) &&
           opt_ok word_ok (parentAlias s)
  | Give => word_ok (default "" (alias s)) && attrs_ok (attrs s) && negb (bool_decide (attrs s = []))
  | Style => no_quote (name s) && attrs_ok (attrs s)
  | Class_ => forallb no_quote (names s) && negb (bool_decide (names s = [])) &&
              word_ok (default "" (alias s))
  | Publish => no_quote (name s) && no_quote (path s)
  | Workflow => no_quote (name s)
  | Trigger =>
      (String.eqb (event s) "User.created" && is_empty (form s)) ||
      (String.eqb (event s) "FormSubmission.created" && no_quote (form s))
  | Step => clause_ok (mkClause (stepName s) None None (attrs s))
  | Clear | PublishWorkflow => true
  end.

Definition sentence_ok (s : BqlSentence) : bool :=
  bool_decide (s = sentence_shape s) && fields_ok s.
