(* ===== verification/BqlRoundTrip.v ===== *)
(** * Printing and parsing BQL sentences

    The lemmas on the parse functions of [BqlParser], each in two directions:
    what a function answers on canonical tokens, and that what it answers on
    any tokens is well formed; then the theorems on whole sentences. *)

From S2P Require Import Prelude CxxString BqlLexer BqlParser.

Open Scope string_scope.

(** ** Phrases *)

Definition no_space (w : string) : bool := string_forallb (fun c => negb (Ascii.eqb c " ")) w.

Lemma split_spaces_no_space w : no_space w = true -> split_spaces w = [w].
Proof.
  induction w as [|c w IH]; [done|]. cbn [no_space string_forallb]. intros [Hc Hw]%andb_true_iff.
  cbn [split_spaces]. apply negb_true_iff in Hc. by rewrite Hc, IH.
Qed.

Lemma split_spaces_cons w r :
  no_space w = true -> split_spaces (w +:+ String " " r) = w :: split_spaces r.
Proof.
  induction w as [|c w IH]; [done|]. cbn [no_space string_forallb]. intros [Hc Hw]%andb_true_iff.
  rewrite string_app_cons. cbn [split_spaces]. apply negb_true_iff in Hc. by rewrite Hc, IH.
Qed.

Lemma split_join ws :
  ws <> [] -> Forall (fun w => no_space w = true) ws -> split_spaces (join ws) = ws.
Proof.
  intros Hne Hws. induction Hws as [|w ws Hw Hws IH]; [done|].
  destruct ws as [|w' ws]; [by apply split_spaces_no_space|].
  cbn [join] in *. by rewrite split_spaces_cons, IH.
Qed.

Lemma join_split s : join (split_spaces s) = s.
Proof.
  induction s as [|c s IH]; [done|]. cbn [split_spaces].
  assert (split_spaces s <> []) as Hne.
  { clear. induction s as [|c s IH]; [done|]. cbn [split_spaces].
    destruct (Ascii.eqb c " "); [done|]. by destruct (split_spaces s). }
  destruct (Ascii.eqb_spec c " ") as [->|].
  - cbn [join]. destruct (split_spaces s); [done|]. by rewrite IH.
  - destruct (split_spaces s) as [|w ws]; [done|]. cbn [join] in *.
    destruct ws; [by rewrite <- IH|]. by rewrite <- IH.
Qed.

Lemma word_ok_no_space w : word_ok w = true -> no_space w = true.
Proof.
  unfold word_ok, token_ok. cbn [W type value]. intros [_ Hw]%andb_true_iff.
  induction w as [|c w IH]; [done|]. cbn [word_text] in Hw. apply andb_true_iff in Hw as [Hc Hw].
  cbn [no_space string_forallb]. rewrite (IH Hw : string_forallb _ w = true), andb_true_r.
  destruct (Ascii.eqb_spec c " ") as [->|]; [done|done].
Qed.

Lemma word_ok_no_quote w : word_ok w = true -> no_quote w = true.
Proof.
  unfold word_ok, token_ok. cbn [W type value]. intros [_ Hw]%andb_true_iff.
  induction w as [|c w IH]; [done|]. cbn [word_text] in Hw. apply andb_true_iff in Hw as [Hc Hw].
  cbn [no_quote string_forallb]. rewrite (IH Hw : string_forallb _ w = true), andb_true_r.
  destruct (Ascii.eqb_spec c quote) as [->|]; [done|done].
Qed.

Lemma no_quote_join ws : forallb word_ok ws = true -> no_quote (join ws) = true.
Proof.
  induction ws as [|w ws IH]; [done|]. cbn [forallb]. intros [Hw Hws]%andb_true_iff.
  apply word_ok_no_quote in Hw. destruct ws as [|w' ws]; [done|].
  change (join (w :: w' :: ws)) with (w +:+ String " " (join (w' :: ws))).
  unfold no_quote in *. rewrite string_forallb_app, Hw. cbn [string_forallb]. by rewrite IH.
Qed.

Lemma phrase_ok_join stops ws :
  ws <> [] -> Forall (fun w => word_ok w && negb (mem (toLower w) stops) = true) ws ->
  phrase_ok stops (join ws) = true.
Proof.
  intros Hne Hws. unfold phrase_ok. rewrite split_join; [|done|].
  - by apply forallb_Forall.
  - eapply Forall_impl; [exact Hws|]. intros w [Hw _]%andb_true_iff. by apply word_ok_no_space.
Qed.

Lemma phrase_nonempty stops n : phrase_ok stops n = true -> is_empty n = false.
Proof. by destruct n. Qed.

(** A token list that does not continue a phrase. *)
Definition stop_at (stops : list string) (c : Cursor) : Prop := take_words stops c = ([], c).

Lemma stop_word stops v c : mem (toLower v) stops = true -> stop_at stops (W v :: c).
Proof. intros H. unfold stop_at. cbn [take_words W]. by rewrite H. Qed.

Lemma take_words_app stops ws r :
  Forall (fun w => word_ok w && negb (mem (toLower w) stops) = true) ws -> stop_at stops r ->
  take_words stops ((W <$> ws) ++ r) = (ws, r).
Proof.
  intros Hws Hr. induction Hws as [|w ws [_ Hw]%andb_true_iff _ IH]; [done|].
  cbn [fmap list_fmap app take_words W] in *. apply negb_true_iff in Hw. rewrite Hw. by rewrite IH.
Qed.

Lemma consume_phrase stops n r :
  phrase_ok stops n = true -> stop_at stops r -> consumeWordsUntil stops (phrase n ++ r) = (n, r).
Proof.
  intros Hn Hr. unfold consumeWordsUntil, phrase. rewrite take_words_app, join_split; [done| |done].
  by apply forallb_Forall.
Qed.

(** ** Canonical tokens are parsed *)

Lemma parse_attr_item a r : attr_ok a = true -> parseAttrItem (attr_tokens a ++ r) = Some (a, r).
Proof.
  destruct a as [k v]. intros [Hk Hv]%andb_true_iff. unfold parseAttrItem, attr_tokens.
  cbn [app key attr_value] in *.
  change (skipArticle (W "a" :: ?l)) with l. rewrite <- app_assoc.
  rewrite (consume_phrase ["of"]); [|done|by apply stop_word].
  by rewrite (phrase_nonempty _ _ Hk).
Qed.

Lemma parse_attr_loop f l :
  attrs_ok l = true -> length l < f -> attr_loop f (more_attrs l) = Some (l, []).
Proof.
  revert f; induction l as [|a l IH]; intros [|f] Hl Hf; simpl in Hf; try lia; [done|].
  cbn [attrs_ok forallb] in Hl. apply andb_true_iff in Hl as [Ha Hl].
  cbn [more_attrs fmap list_fmap mjoin list_join app attr_loop].
  change (consumeSeparator (W "and" :: ?c)) with (true, c). cbn [negb].
  change (mjoin _) with (more_attrs l). rewrite parse_attr_item by done. by rewrite IH by (done || lia).
Qed.

Lemma more_attrs_length l : length l <= length (more_attrs l).
Proof.
  induction l as [|a l IH]; [done|]. cbn [more_attrs fmap list_fmap mjoin list_join].
  rewrite length_app. change (mjoin _) with (more_attrs l). simpl. lia.
Qed.

Lemma parse_attrs l :
  attrs_ok l = true -> l <> [] -> parseAttrList (attrs_tokens l) = Some (l, []).
Proof.
  destruct l as [|a l]; [done|]. intros [Ha Hl]%andb_true_iff _. cbn [attrs_tokens].
  unfold parseAttrList. rewrite parse_attr_item by done.
  by rewrite parse_attr_loop by (done || pose proof (more_attrs_length l); lia).
Qed.

Lemma parse_with_tokens l : attrs_ok l = true -> parse_with (with_tokens l) = Some (l, []).
Proof.
  destruct l as [|a l]; [done|]. intros Hl. cbn [with_tokens].
  change (parse_with (W "with" :: ?c)) with (parseAttrList c). by apply parse_attrs.
Qed.

Lemma parse_called_tokens a r :
  isWord r "called" 0 = false ->
  parse_called (opt_tokens a (fun a => [W "called"; W a]) ++ r) = Some (a, r).
Proof. intros Hr. destruct a; [done|]. unfold parse_called. simpl. by rewrite Hr. Qed.

Lemma parse_says_tokens t r :
  isWord r "that" 0 = false ->
  parse_says (opt_tokens t (fun t => [W "that"; W "says"; Q t]) ++ r) = Some (t, r).
Proof. intros Hr. destruct t; [done|]. unfold parse_says. simpl. by rewrite Hr. Qed.

Lemma parse_clause cl : clause_ok cl = true -> parseAddClause (clause_tokens cl) = Some (cl, []).
Proof.
  destruct cl as [n a t l]. unfold clause_ok, clause_tokens. cbn [c_blockName c_alias c_text c_attrs].
  intros [[[Hn Ha]%andb_true_iff Ht]%andb_true_iff Hl]%andb_true_iff.
  unfold parseAddClause. change (skipArticle (W "a" :: ?l)) with l.
  rewrite consume_phrase; [|done|destruct a, t, l; by apply stop_word || done].
  rewrite (phrase_nonempty _ _ Hn).
  rewrite parse_called_tokens by (by destruct t, l). cbv beta iota.
  rewrite parse_says_tokens by (by destruct l). cbv beta iota.
  by rewrite parse_with_tokens.
Qed.

Lemma parse_names f n l r :
  length l < f ->
  name_loop f (Q n :: more_names l ++ W "to" :: r) = (n :: l, W "to" :: r).
Proof.
  revert f n; induction l as [|m l IH]; intros [|f] n Hf; simpl in Hf; try lia; [done|].
  cbn [name_loop Q]. cbn [more_names fmap list_fmap mjoin list_join app].
  change (consumeSeparator (W "and" :: ?c)) with (true, c). cbv iota.
  change (mjoin _) with (more_names l). by rewrite (IH f m) by lia.
Qed.

Lemma more_names_length l : length l <= length (more_names l).
Proof.
  induction l as [|a l IH]; [done|]. cbn [more_names fmap list_fmap mjoin list_join].
  rewrite length_app. change (mjoin _) with (more_names l). simpl. lia.
Qed.

Lemma parse_name_list n l r :
  parseNameList (Q n :: more_names l ++ W "to" :: r) = (n :: l, W "to" :: r).
Proof.
  apply parse_names. simpl. rewrite length_app. pose proof (more_names_length l). lia.
Qed.

Lemma apply_tokens raw n l a :
  parseApply raw (W "apply" :: Q n :: more_names l ++ [W "to"; W a]) =
    (SOk ((sentence_of Class_) <| names := n :: l |> <| alias := Some a |>), []).
Proof. unfold parseApply. cbn [next tl]. by rewrite parse_name_list. Qed.

(** What a parse function answers on the canonical tokens of a sentence. *)
Lemma dispatch_tokens raw s :
  sentence_ok s = true -> dispatch raw (sentence_tokens s) = (SOk s, []).
Proof.
  intros [Hs%bool_decide_eq_true Hf]%andb_true_iff.
  destruct s as [[] ln bn tx al pa ats nm ns pt sn ev fm]; unfold fields_ok, sentence_tokens in *;
    cbn in Hs; cbn [kind blockName text alias parentAlias attrs name names path stepName event form] in *.
  - injection Hs as -> -> -> -> -> -> ->.
    apply andb_true_iff in Hf as [Hc Hp]. destruct pa as [p|]; cbn [opt_tokens app].
    + change (dispatch raw ?c) with (parseInsideAdd raw c). unfold parseInsideAdd. cbn [next tl W].
      change (isComma (W "add" :: ?c)) with false. cbv beta iota zeta.
      change (isWord (W "add" :: ?c) "add" 0) with true. cbn [negb next tl]. by rewrite parse_clause.
    + change (dispatch raw ?c) with (parseAdd raw c). unfold parseAdd. cbn [next tl]. by rewrite parse_clause.
  - injection Hs as -> -> -> -> -> -> -> -> -> -> ->.
    apply andb_true_iff in Hf as [[Hw Ha]%andb_true_iff Hne%negb_true_iff%bool_decide_eq_false].
    change (dispatch raw ?c) with (parseGive raw c). unfold parseGive. cbn [next tl W].
    by rewrite parse_attrs.
  - injection Hs as -> -> -> -> -> -> -> -> -> ->.
    apply andb_true_iff in Hf as [Hn Ha].
    change (dispatch raw ?c) with (parseStyle raw c). unfold parseStyle. cbn [next tl app].
    change (skipArticle (W "a" :: ?l)) with l.
    change (isWord (W "style" :: ?c) "style" 0) with true. cbv beta iota zeta.
    change (isWord (W "style" :: W "called" :: ?c) "called" 1) with true. cbn [negb orb next tl Q].
    by rewrite parse_with_tokens.
  - injection Hs as -> -> -> -> -> -> -> -> -> -> ->.
    apply andb_true_iff in Hf as [[Hn Hne%negb_true_iff%bool_decide_eq_false]%andb_true_iff Ha].
    change (dispatch raw ?c) with (parseApply raw c).
    destruct ns as [|n ns]; [done|]. cbn [head tail opt_tokens app]. by rewrite apply_tokens.
  - injection Hs as -> -> -> -> -> -> -> -> -> ->. by destruct nm.
  - by injection Hs as -> -> -> -> -> -> -> -> -> -> -> ->.
  - by injection Hs as -> -> -> -> -> -> -> -> -> -> ->.
  - injection Hs as -> -> -> -> -> -> -> -> -> ->.
    apply orb_true_iff in Hf as [[->%String.eqb_eq He%is_empty_true]%andb_true_iff
                                |[->%String.eqb_eq He]%andb_true_iff].
    + by subst.
    + by destruct fm.
  - injection Hs as -> -> -> -> -> -> -> -> -> ->.
    change (dispatch raw ?c) with (parseThen raw c). unfold parseThen. cbn [next tl].
    rewrite parse_clause by done. cbn [c_blockName].
    unfold clause_ok in Hf. cbn [c_blockName] in Hf. rewrite !andb_true_iff in Hf.
    destruct Hf as [[[Hn _] _] _]. by rewrite (phrase_nonempty _ _ Hn).
  - by injection Hs as -> -> -> -> -> -> -> -> -> -> -> ->.
Qed.

(** ** Canonical tokens are lexed *)

Abbreviation tokens_ok := (Forall (fun t => token_ok t = true)).

Lemma phrase_tokens_ok stops n : phrase_ok stops n = true -> tokens_ok (phrase n).
Proof.
  intros Hn%forallb_Forall. apply Forall_fmap. eapply Forall_impl; [exact Hn|].
  by intros w [Hw _]%andb_true_iff.
Qed.

Lemma attr_tokens_ok a : attr_ok a = true -> tokens_ok (attr_tokens a).
Proof.
  intros [Hk Hv]%andb_true_iff. unfold attr_tokens.
  constructor; [done|]. apply Forall_app. split; [by eapply phrase_tokens_ok|].
  repeat constructor; done.
Qed.

Lemma more_attrs_ok l : attrs_ok l = true -> tokens_ok (more_attrs l).
Proof.
  induction l as [|a l IH]; [constructor|]. intros [Ha Hl]%andb_true_iff.
  cbn [more_attrs fmap list_fmap mjoin list_join]. change (mjoin _) with (more_attrs l).
  constructor; [done|]. apply Forall_app. split; [by apply attr_tokens_ok|by apply IH].
Qed.

Lemma attrs_tokens_ok l : attrs_ok l = true -> tokens_ok (attrs_tokens l).
Proof.
  destruct l as [|a l]; [constructor|]. intros [Ha Hl]%andb_true_iff. apply Forall_app.
  split; [by apply attr_tokens_ok|by apply more_attrs_ok].
Qed.

Lemma with_tokens_ok l : attrs_ok l = true -> tokens_ok (with_tokens l).
Proof.
  intros Hl%attrs_tokens_ok. destruct l; [constructor|]. by constructor.
Qed.

Lemma more_names_ok l : forallb no_quote l = true -> tokens_ok (more_names l).
Proof.
  induction l as [|n l IH]; [constructor|]. intros [Hn Hl]%andb_true_iff.
  cbn [more_names fmap list_fmap mjoin list_join]. change (mjoin _) with (more_names l).
  repeat (constructor; [done|]). by apply IH.
Qed.

Lemma clause_tokens_ok cl : clause_ok cl = true -> tokens_ok (clause_tokens cl).
Proof.
  destruct cl as [n a t l]. unfold clause_ok, clause_tokens. cbn [c_blockName c_alias c_text c_attrs].
  intros [[[Hn Ha]%andb_true_iff Ht]%andb_true_iff Hl]%andb_true_iff.
  constructor; [done|]. rewrite !Forall_app. split_and!.
  - by eapply phrase_tokens_ok.
  - destruct a; repeat constructor; done.
  - destruct t; repeat constructor; done.
  - by apply with_tokens_ok.
Qed.

Lemma sentence_tokens_ok s : sentence_ok s = true -> tokens_ok (sentence_tokens s).
Proof.
  intros [_ Hf]%andb_true_iff. unfold fields_ok, sentence_tokens in *.
  destruct (kind s); rewrite ?andb_true_iff in Hf; rewrite ?Forall_app; cbn [app] in *;
    repeat match goal with
    | |- _ /\ _ => split
    | |- tokens_ok (_ :: _) => constructor
    | |- _ => done
    end.
  - destruct (parentAlias s); repeat constructor; naive_solver.
  - apply clause_tokens_ok. naive_solver.
  - naive_solver.
  - apply attrs_tokens_ok. naive_solver.
  - naive_solver.
  - apply with_tokens_ok. naive_solver.
  - destruct Hf as [[Hn Hne] Ha]. destruct (names s) as [|n ns]; [done|].
    apply andb_true_iff in Hn as [Hn Hns]. rewrite !Forall_app. split_and!.
    + by repeat constructor.
    + by apply more_names_ok.
    + by repeat constructor.
  - destruct (is_empty (name s)); repeat constructor; naive_solver.
  - naive_solver.
  - destruct (String.eqb (event s) "User.created"); [repeat constructor|].
    destruct (is_empty (form s)) eqn:E; repeat constructor.
    apply orb_true_iff in Hf as [[Hf _]%andb_true_iff|[_ Hf]%andb_true_iff]; done.
  - by apply clause_tokens_ok.
Qed.

Lemma trim_end_dot x : trim_end (x +:+ ".") = x +:+ ".".
Proof.
  induction x as [|c x IH]; [done|]. rewrite string_app_cons. cbn [trim_end]. rewrite IH.
  by destruct x.
Qed.

Lemma trim_print s : trim (print s) = print s.
Proof.
  unfold trim. assert (trim_start (print s) = print s) as ->; [|apply trim_end_dot].
  unfold print, sentence_tokens. destruct (kind s); try done. by destruct (parentAlias s).
Qed.

Lemma strip_dot ts : stripTerminator (ts ++ [mkToken Punct "."]) = ts.
Proof. unfold stripTerminator. by rewrite last_snoc, removelast_last. Qed.

Lemma parse_print s : sentence_ok s = true -> parseSentence (print s) = SOk s.
Proof.
  intros Hs. unfold parseSentence. rewrite trim_print.
  assert (tokenize (print s) = sentence_tokens s ++ [mkToken Punct "."])%list as ->.
  { unfold print. by rewrite tokenize_render by (by apply sentence_tokens_ok). }
  by rewrite strip_dot, dispatch_tokens.
Qed.

(** ** What is parsed is well formed *)

Lemma tail_ok c : tokens_ok c -> tokens_ok (next c).
Proof. by destruct 1. Qed.

Lemma skip_ok c : tokens_ok c -> tokens_ok (skipArticle c).
Proof. intros Hc. unfold skipArticle. destruct (_ || _); [by apply tail_ok|done]. Qed.

Lemma separator_ok c : tokens_ok c -> tokens_ok (consumeSeparator c).2.
Proof.
  intros Hc. unfold consumeSeparator.
  destruct (isComma c); destruct (isWord _ "and" 0); repeat apply tail_ok; done.
Qed.

Lemma take_words_ok stops c :
  tokens_ok c ->
  Forall (fun w => word_ok w && negb (mem (toLower w) stops) = true) (take_words stops c).1 /\
  tokens_ok (take_words stops c).2.
Proof.
  induction 1 as [|[ty v] c Ht Hc IH]; [by repeat constructor|].
  cbn [take_words]. destruct ty; [|by repeat constructor|by repeat constructor].
  destruct (mem (toLower v) stops) eqn:E; [by repeat constructor|].
  destruct (take_words stops c) as [ws r]. destruct IH as [H1 H2]. split; [|done].
  constructor; [|done]. by rewrite E, andb_true_r.
Qed.

Lemma consume_ok stops c n r :
  tokens_ok c -> consumeWordsUntil stops c = (n, r) ->
  tokens_ok r /\ (n <> "" -> phrase_ok stops n = true).
Proof.
  intros Hc. unfold consumeWordsUntil. pose proof (take_words_ok stops c Hc) as [Hw Hr].
  destruct (take_words stops c) as [ws r']. intros [= <- <-]. split; [done|].
  intros Hne. apply phrase_ok_join; [by destruct ws|done].
Qed.

Lemma value_ok c v r : tokens_ok c -> parseValue c = Some (v, r) -> no_quote v = true /\ tokens_ok r.
Proof.
  intros Hc. unfold parseValue. pose proof (take_words_ok ["and"] c Hc) as [Hw Hr].
  assert (forall x, match (take_words ["and"] c).1 with
    | [] => None | _ => Some (join (take_words ["and"] c).1, (take_words ["and"] c).2) end = Some x ->
    x = (v, r) -> no_quote v = true /\ tokens_ok r) as Hwords.
  { intros x Hx ->. destruct (take_words ["and"] c) as [ws r']. cbn [fst snd] in *.
    assert (forallb word_ok ws = true) as Hws.
    { apply forallb_Forall. eapply Forall_impl; [exact Hw|]. by intros y [Hy _]%andb_true_iff. }
    apply no_quote_join in Hws. by destruct ws; simplify_eq. }
  destruct (peek 0 c) as [[[] v']|] eqn:E; [| | |done].
  1, 3: destruct (take_words ["and"] c) as [ws r']; intros H; by eapply Hwords.
  intros [= <- <-]. destruct Hc as [|t c Ht Hc]; [done|]. injection E as ->. done.
Qed.

Lemma attr_item_ok c a r : tokens_ok c -> parseAttrItem c = Some (a, r) -> attr_ok a = true /\ tokens_ok r.
Proof.
  intros Hc%skip_ok. unfold parseAttrItem.
  destruct (consumeWordsUntil ["of"] (skipArticle c)) as [k c1] eqn:E.
  destruct (consume_ok _ _ _ _ Hc E) as [Hc1 Hk].
  destruct (is_empty k) eqn:Ek; [done|]. destruct (isWord c1 "of" 0); [|done]. cbn [orb negb].
  destruct (parseValue (next c1)) as [[v c2]|] eqn:Ev; [|done]. intros [= <- <-].
  apply value_ok in Ev as [Hv Hc2]; [|by apply tail_ok]. split; [|done].
  unfold attr_ok. cbn [key attr_value]. rewrite Hv, Hk; [done|]. by apply is_empty_false.
Qed.

Lemma attr_loop_ok f c l r : tokens_ok c -> attr_loop f c = Some (l, r) -> attrs_ok l = true /\ tokens_ok r.
Proof.
  revert c l r; induction f as [|f IH]; intros c l r Hc; [done|]. cbn [attr_loop].
  pose proof (separator_ok c Hc) as Hs. destruct (consumeSeparator c) as [[] c1]; cbn [negb snd] in *.
  - destruct (parseAttrItem c1) as [[a c2]|] eqn:Ea; [|done].
    destruct (attr_loop f c2) as [[l' c3]|] eqn:El; [|done]. intros [= <- <-].
    apply attr_item_ok in Ea as [Ha Hc2]; [|done]. apply IH in El as [Hl Hc3]; [|done].
    split; [|done]. cbn [attrs_ok forallb]. by rewrite Ha.
  - by intros [= <- <-].
Qed.

Lemma attr_list_ok c l r :
  tokens_ok c -> parseAttrList c = Some (l, r) -> attrs_ok l = true /\ l <> [] /\ tokens_ok r.
Proof.
  intros Hc. unfold parseAttrList. destruct (parseAttrItem c) as [[a c1]|] eqn:Ea; [|done].
  destruct (attr_loop _ c1) as [[l' c2]|] eqn:El; [|done]. intros [= <- <-].
  apply attr_item_ok in Ea as [Ha Hc1]; [|done]. apply attr_loop_ok in El as [Hl Hc2]; [|done].
  split; [|done]. cbn [attrs_ok forallb]. by rewrite Ha.
Qed.

Lemma with_ok c l r : tokens_ok c -> parse_with c = Some (l, r) -> attrs_ok l = true /\ tokens_ok r.
Proof.
  intros Hc. unfold parse_with. destruct (isWord c "with" 0); [|by intros [= <- <-]].
  intros (Hl & _ & Hr)%attr_list_ok; [done|]. by apply tail_ok.
Qed.

Lemma called_ok c a r : tokens_ok c -> parse_called c = Some (a, r) -> opt_ok word_ok a = true /\ tokens_ok r.
Proof.
  intros Hc. unfold parse_called. destruct (isWord c "called" 0); [|by intros [= <- <-]].
  apply tail_ok in Hc. destruct Hc as [|[[] v] c' Ht Hc]; try done. by intros [= <- <-].
Qed.

Lemma says_ok c t r : tokens_ok c -> parse_says c = Some (t, r) -> opt_ok no_quote t = true /\ tokens_ok r.
Proof.
  intros Hc. unfold parse_says. destruct (isWord c "that" 0); [|by intros [= <- <-]].
  destruct (isWord (next c) "says" 0); [|done]. cbn [negb].
  apply tail_ok, tail_ok in Hc. destruct Hc as [|[[] v] c' Ht Hc]; try done. by intros [= <- <-].
Qed.

Lemma clause_parsed_ok c cl r :
  tokens_ok c -> parseAddClause c = Some (cl, r) -> clause_ok cl = true /\ tokens_ok r.
Proof.
  intros Hc%skip_ok. unfold parseAddClause.
  destruct (consumeWordsUntil _ (skipArticle c)) as [n c1] eqn:En.
  apply consume_ok in En as [Hc1 Hn]; [|done]. destruct (is_empty n) eqn:E; [done|].
  apply is_empty_false, Hn in E.
  destruct (parse_called c1) as [[a c2]|] eqn:Ea; [|done]. apply called_ok in Ea as [Ha Hc2]; [|done].
  destruct (parse_says c2) as [[t c3]|] eqn:Et; [|done]. apply says_ok in Et as [Ht Hc3]; [|done].
  destruct (parse_with c3) as [[l c4]|] eqn:El; [|done]. apply with_ok in El as [Hl Hc4]; [|done].
  intros [= <- <-]. split; [|done]. unfold clause_ok. cbn [c_blockName c_alias c_text c_attrs].
  by rewrite E, Ha, Ht, Hl.
Qed.

Lemma name_loop_ok f c : tokens_ok c ->
  forallb no_quote (name_loop f c).1 = true /\ tokens_ok (name_loop f c).2.
Proof.
  revert c; induction f as [|f IH]; intros c Hc; [done|].
  destruct Hc as [|[[] v] c Ht Hc]; try (split; [done|by repeat constructor]).
  cbn [name_loop]. pose proof (separator_ok c Hc) as Hs. destruct (consumeSeparator c) as [[] c1]; cbn [snd] in *.
  - destruct (IH c1 Hs) as [Hl Hr]. destruct (name_loop f c1). cbn [fst snd forallb] in *.
    split; [|done]. rewrite Hl, andb_true_r. done.
  - split; [|done]. cbn [fst forallb]. rewrite andb_true_r. done.
Qed.

Definition result_ok (r : SentenceResult * Cursor) : Prop :=
  forall s, r.1 = SOk s -> sentence_ok s = true.

Lemma failed_ok c m : result_ok (SFail m, c).
Proof. by intros s H. Qed.

Lemma shape_ok s c : sentence_shape s = s -> fields_ok s = true -> result_ok (SOk s, c).
Proof.
  intros Hs Hf s' [= <-]. unfold sentence_ok. by rewrite Hs, bool_decide_eq_true_2.
Qed.

Lemma add_ok cl p c : clause_ok cl = true -> opt_ok word_ok p = true -> result_ok (addResult cl p, c).
Proof. intros Hc Hp. destruct cl. apply shape_ok; [done|]. unfold fields_ok. cbn. by apply andb_true_iff. Qed.

(** Case analysis on the tests of a parse function, closing the branches that fail. *)
Ltac parse_cases :=
  repeat first
    [ apply failed_ok
    | progress cbv beta zeta
    | match goal with
      | |- result_ok (match ?x with _ => _ end) => destruct x eqn:?
      end ].

Lemma parseAdd_ok raw c : tokens_ok c -> result_ok (parseAdd raw c).
Proof.
  intros Hc%tail_ok. unfold parseAdd, could_not, fail. parse_cases.
  eapply clause_parsed_ok in Hc as [Hcl _]; [|done]. by apply add_ok.
Qed.

Lemma parseInsideAdd_ok raw c : tokens_ok c -> result_ok (parseInsideAdd raw c).
Proof.
  intros Hc%tail_ok. unfold parseInsideAdd, could_not, fail.
  destruct Hc as [|[[] p] c' Hp Hc]; try apply failed_ok. cbv beta iota zeta.
  set (c1 := if isComma c' then _ else _).
  assert (tokens_ok c1) as Hc1 by (unfold c1; destruct (isComma c'); [by apply tail_ok|done]).
  destruct (isWord c1 "add" 0); [|apply failed_ok]. cbn [negb].
  destruct (parseAddClause (next c1)) as [[cl c2]|] eqn:E; [|apply failed_ok].
  apply clause_parsed_ok in E as [Hcl _]; [|by apply tail_ok]. by apply add_ok.
Qed.

Lemma parseGive_ok raw c : tokens_ok c -> result_ok (parseGive raw c).
Proof.
  intros Hc%tail_ok. unfold parseGive, could_not, fail.
  destruct Hc as [|[[] p] c' Hp Hc]; try apply failed_ok.
  destruct (parseAttrList c') as [[l c1]|] eqn:E; [|apply failed_ok].
  apply attr_list_ok in E as (Hl & Hne & _); [|done].
  apply shape_ok; [done|]. change (word_ok p && attrs_ok l && negb (bool_decide (l = [])) = true).
  rewrite Hl, bool_decide_eq_false_2 by done. by rewrite !andb_true_r.
Qed.

Lemma parseStyle_ok raw c : tokens_ok c -> result_ok (parseStyle raw c).
Proof.
  intros Hc%tail_ok%skip_ok. unfold parseStyle, could_not, fail. cbv zeta.
  destruct (_ || _); [apply failed_ok|]. apply tail_ok, tail_ok in Hc.
  destruct Hc as [|[[] n] c' Hn Hc]; try apply failed_ok.
  destruct (parse_with c') as [[l c1]|] eqn:E; [|apply failed_ok].
  apply with_ok in E as [Hl _]; [|done]. apply shape_ok; [done|].
  change (no_quote n && attrs_ok l = true). by rewrite Hl, andb_true_r.
Qed.

Lemma parseApply_ok raw c : tokens_ok c -> result_ok (parseApply raw c).
Proof.
  intros Hc%tail_ok. unfold parseApply, parseNameList, could_not, fail.
  pose proof (name_loop_ok (length (next c)) (next c) Hc) as [Hn Hr].
  destruct (name_loop _ (next c)) as [[|n ns] c1]; cbn [fst snd] in *; [apply failed_ok|].
  destruct (isWord c1 "to" 0); [|apply failed_ok]. cbn [negb]. apply tail_ok in Hr.
  destruct Hr as [|[[] a] c' Ha Hc']; try apply failed_ok.
  apply shape_ok; [done|].
  change (forallb no_quote (n :: ns) && true && word_ok a = true). by rewrite Hn.
Qed.

Lemma title_ok c t r : tokens_ok c -> parse_title c = Some (t, r) -> no_quote t = true /\ tokens_ok r.
Proof.
  intros Hc. unfold parse_title. destruct (isWord c "as" 0); [|by intros [= <- <-]].
  apply tail_ok in Hc. destruct Hc as [|[[] v] c' Ht Hc]; try done. by intros [= <- <-].
Qed.

Lemma parsePublish_ok raw c : tokens_ok c -> result_ok (parsePublish raw c).
Proof.
  intros Hc%tail_ok. unfold parsePublish, could_not, fail. cbv zeta.
  destruct (isWord (next c) "the" 0).
  { destruct (negb _); [apply failed_ok|by apply shape_ok]. }
  set (c1 := if isWord _ "this" 0 then _ else _).
  assert (tokens_ok c1) as Hc1 by (unfold c1; destruct (isWord _ "this" 0); [by apply tail_ok|done]).
  destruct (parse_title c1) as [[t c2]|] eqn:Et; [|apply failed_ok].
  apply title_ok in Et as [Ht Hc2]; [|done]. destruct (negb _); [apply failed_ok|].
  apply tail_ok in Hc2. destruct Hc2 as [|[[] v] c' Hv Hc']; try apply failed_ok.
  - apply shape_ok; [done|]. change (no_quote t && no_quote v = true).
    by rewrite Ht, (word_ok_no_quote v Hv).
  - apply shape_ok; [done|]. change (no_quote t && no_quote v = true). by rewrite Ht.
Qed.

Lemma parseClear_ok raw c : tokens_ok c -> result_ok (parseClear raw c).
Proof.
  intros Hc%tail_ok%skip_ok. unfold parseClear, parseWorkflowStart, could_not, fail. cbv zeta.
  destruct (negb _); [apply failed_ok|]. apply tail_ok in Hc.
  destruct (isWord _ "workflow" 0); cbn [negb].
  - destruct (negb _); [apply failed_ok|]. apply tail_ok, tail_ok in Hc.
    destruct Hc as [|[[] n] c' Hn Hc]; try apply failed_ok. by apply shape_ok.
  - destruct (negb _); [apply failed_ok|by apply shape_ok].
Qed.

Lemma peek_ok n c t : tokens_ok c -> peek n c = Some t -> token_ok t = true.
Proof.
  intros Hc Hp. apply nth_error_In in Hp. apply (proj1 (List.Forall_forall _ _) Hc _ Hp).
Qed.

Lemma parseRunWhen_ok raw c : tokens_ok c -> result_ok (parseRunWhen raw c).
Proof.
  intros Hc%tail_ok. unfold parseRunWhen, fail. cbv zeta.
  set (c1 := if isWord _ "it" 0 then _ else _).
  assert (tokens_ok c1) as Hc1 by (unfold c1; destruct (isWord _ "it" 0); [by apply tail_ok|done]).
  destruct (negb _); [apply failed_ok|]. apply tail_ok in Hc1.
  destruct (_ && _ && _).
  - destruct (peek 3 (next c1)) as [[[] f]|] eqn:E; try apply failed_ok.
    destruct (negb _); [apply failed_ok|]. apply peek_ok in E; [|done]. by apply shape_ok.
  - destruct (consumeWordsUntil [] (next c1)) as [p c2]. unfold phrase_event.
    destruct (mem (toLower p) _); [by apply shape_ok|].
    destruct (mem (toLower p) _); [by apply shape_ok|apply failed_ok].
Qed.

Lemma parseThen_ok raw c : tokens_ok c -> result_ok (parseThen raw c).
Proof.
  intros Hc%tail_ok. unfold parseThen, could_not, fail.
  destruct (parseAddClause (next c)) as [[cl c1]|] eqn:E; [|apply failed_ok].
  apply clause_parsed_ok in E as [Hcl _]; [|done]. destruct (is_empty _); [apply failed_ok|].
  apply shape_ok; [done|]. destruct cl as [n a t l]. unfold fields_ok, clause_ok in *. cbn in *.
  rewrite !andb_true_iff in *. naive_solver.
Qed.

Lemma dispatch_ok raw c : tokens_ok c -> result_ok (dispatch raw c).
Proof.
  intros Hc. unfold dispatch.
  repeat match goal with |- result_ok (if ?b then _ else _) => destruct b end;
    auto using parseClear_ok, parsePublish_ok, parseApply_ok, parseStyle_ok, parseGive_ok,
      parseInsideAdd_ok, parseAdd_ok, parseRunWhen_ok, parseThen_ok.
  apply failed_ok.
Qed.

Lemma strip_ok ts : tokens_ok ts -> tokens_ok (stripTerminator ts).
Proof.
  intros Hts. assert (tokens_ok (removelast ts)) as Hr.
  { destruct (decide (ts = [])) as [->|Hne]; [done|].
    rewrite (app_removelast_last (W "") Hne) in Hts. by apply Forall_app in Hts as [? _]. }
  unfold stripTerminator. by repeat case_match.
Qed.

(** An accepted sentence is well formed. *)
Lemma parseSentence_ok raw s : parseSentence raw = SOk s -> sentence_ok s = true.
Proof.
  unfold parseSentence.
  pose proof (dispatch_ok raw _ (strip_ok _ (tokenize_ok (trim raw)))) as H.
  destruct (dispatch raw _) as [[s'|m] [|t r]]; cbn [check_extra]; try done.
  intros [= <-]. by apply H.
Qed.

(** C36. The sentences the parser can answer are exactly the well-formed ones:
    whatever line it accepts, the fields of its answer are clean (block and
    field names are words that cannot be mistaken for the keywords that end
    them, texts hold no quote, fields its kind does not use are empty), and
    every such sentence has a line that parses to it, its canonical print. *)
Theorem parseSentence_range s :
  (sentence_ok s = true <-> exists raw, parseSentence raw = SOk s) /\
  (forall raw, parseSentence raw = SOk s -> parseSentence (print s) = SOk s).
Proof.
  split; [split|].
  - intros Hs. exists (print s). by apply parse_print.
  - intros [raw H]. by eapply parseSentence_ok.
  - intros raw H%parseSentence_ok. by apply parse_print.
Qed.

(** ** The loops of the parser end *)

Lemma separator_length c : length (consumeSeparator c).2 <= length c.
Proof.
  unfold consumeSeparator. destruct (isComma c), (isWord _ "and" 0); cbn [snd];
    unfold next; destruct c as [|t [|t' c]]; simpl; lia.
Qed.

Lemma separator_shrinks c c1 : consumeSeparator c = (true, c1) -> length c1 < length c.
Proof.
  unfold consumeSeparator. destruct c as [|t c]; [done|].
  destruct (isComma (t :: c)), (isWord _ "and" 0); intros [= <-]; cbn [next tl];
    destruct c; simpl; lia.
Qed.

Lemma skip_length c : length (skipArticle c) <= length c.
Proof. unfold skipArticle. destruct (_ || _); destruct c; simpl; lia. Qed.

Lemma take_words_length stops c : length (take_words stops c).2 <= length c.
Proof.
  induction c as [|[[] v] c IH]; cbn [take_words]; try (simpl; lia).
  destruct (mem _ _); [simpl; lia|]. destruct (take_words stops c). simpl in *. lia.
Qed.

Lemma value_length c v r : parseValue c = Some (v, r) -> length r <= length c.
Proof.
  unfold parseValue. pose proof (take_words_length ["and"] c) as Hl.
  destruct (peek 0 c) as [[[] v']|]; [| | |done].
  1, 3: destruct (take_words ["and"] c) as [[|w ws] r']; intros H; simplify_eq; exact Hl.
  intros [= <- <-]. destruct c; simpl; lia.
Qed.

Lemma attr_item_length c a r : parseAttrItem c = Some (a, r) -> length r <= length c.
Proof.
  unfold parseAttrItem, consumeWordsUntil. pose proof (skip_length c) as Hs.
  pose proof (take_words_length ["of"] (skipArticle c)) as Hl.
  destruct (take_words ["of"] (skipArticle c)) as [ws c1]. cbn [snd] in Hl.
  destruct (_ || _); [done|]. destruct (parseValue (next c1)) as [[v c2]|] eqn:E; [|done].
  intros [= <- <-]. apply value_length in E. unfold next in E. destruct c1; simpl in *; lia.
Qed.

Lemma attr_loop_fuel f f' c : length c < f -> length c < f' -> attr_loop f c = attr_loop f' c.
Proof.
  revert f' c; induction f as [|f IH]; intros [|f'] c Hf Hf'; try lia. cbn [attr_loop].
  destruct (consumeSeparator c) as [[] c1] eqn:E; cbn [negb]; [|done].
  apply separator_shrinks in E. destruct (parseAttrItem c1) as [[a c2]|] eqn:Ea; [|done].
  apply attr_item_length in Ea. by rewrite (IH f' c2) by lia.
Qed.

Lemma name_loop_fuel f f' c : length c <= f -> length c <= f' -> name_loop f c = name_loop f' c.
Proof.
  revert f' c; induction f as [|f IH]; intros f' c Hf Hf'.
  { destruct c; [by destruct f'|simpl in Hf; lia]. }
  destruct c as [|[[] v] c]; [by destruct f'| |..]; destruct f' as [|f']; simpl in *; try lia; try done.
  pose proof (separator_length c) as Hs. destruct (consumeSeparator c) as [[] c1]; [|done]. cbn [snd] in Hs.
  by rewrite (IH f' c1) by lia.
Qed.

(** The loops of [parseAttrList] and [parseNameList] end on every input:
    each round consumes a token, so a bound above the number of tokens left is
    never reached and the choice of the bound does not change the answer. *)
Theorem parser_loops_end f c :
  length c < f ->
  attr_loop f c = attr_loop (S (length c)) c /\ name_loop f c = parseNameList c.
Proof.
  intros Hf. split; [apply attr_loop_fuel; lia|]. apply name_loop_fuel; lia.
Qed.

(** A [then] sentence accepts the clauses of an [add] sentence and drops
    two of them: whatever alias and text the line carries, it is accepted and
    the answer holds neither, although the parser means to report every part of
    a line it does not use. *)
Theorem then_drops_clauses cl :
  clause_ok cl = true ->
  parseSentence (render (W "then" :: clause_tokens cl) +:+ ".") =
    SOk ((sentence_of Step) <| stepName := c_blockName cl |> <| attrs := c_attrs cl |>).
Proof.
  intros Hcl. unfold parseSentence.
  set (raw := render _ +:+ "."). assert (trim raw = raw) as ->.
  { unfold trim. change (trim_start raw) with raw. apply trim_end_dot. }
  assert (tokenize raw = (W "then" :: clause_tokens cl) ++ [mkToken Punct "."])%list as ->.
  { unfold raw. rewrite tokenize_render; [done|]. constructor; [done|by apply clause_tokens_ok]. }
  rewrite strip_dot. change (dispatch raw ?c) with (parseThen raw c). unfold parseThen. cbn [next tl].
  rewrite parse_clause by done. unfold clause_ok in Hcl. rewrite !andb_true_iff in Hcl.
  destruct Hcl as [[[Hn _] _] _]. by rewrite (phrase_nonempty _ _ Hn).
Qed.

(** ** Concrete sentences *)

Lemma parser_loops_end_witness :
  attr_loop 9 [W "and"; W "x"; W "of"; Q "1"] = attr_loop 5 [W "and"; W "x"; W "of"; Q "1"] /\
  name_loop 9 [Q "a"; W "and"; Q "b"] = (["a"; "b"], []).
Proof.
  split.
  - apply (parser_loops_end 9 [W "and"; W "x"; W "of"; Q "1"]). simpl. lia.
  - apply (parser_loops_end 9 [Q "a"; W "and"; Q "b"]). simpl. lia.
Defined.

(** The alias and the text of this line go nowhere. *)
Lemma then_drops_clauses_witness :
  parseSentence ("then a Send Mail called x that says " +:+ quoted "hi" +:+ " with a to of " +:+
                 quoted "ada" +:+ " .") =
    SOk ((sentence_of Step) <| stepName := "Send Mail" |> <| attrs := [mkAttr "to" "ada"] |>).
Proof.
  exact (then_drops_clauses (mkClause "Send Mail" (Some "x") (Some "hi") [mkAttr "to" "ada"]) eq_refl).
Defined.
