(* ===== verification/BqlScript.v ===== *)
(** * BQL scripts and their JSON answer

    [parseScript] and the two [toJson] functions of src/bql/bql_parser.cpp, and
    what src/daemon/handlers/bql/bql_route_handler.cpp answers to a script.
    Every significant line is parsed; the answer holds every sentence or every
    error. *)

From S2P Require Import Prelude CxxString CxxStd Json BqlLexer BqlParser BqlRoundTrip.

Open Scope string_scope.

Record ScriptError := mkScriptError { e_line : Z; e_message : string }.

Record ScriptParseResult := mkParsed {
  ok : bool;
  sentences : list BqlSentence;
  errors : list ScriptError;
}.

#[export] Instance ScriptParseResult_fields : Fields ScriptParseResult := fun r =>
  mkParsed (ok r) (sentences r) (errors r).

Definition newline : ascii := "010".

(** The loop that cuts the script at each newline; the text after the last one
    is a line, even when it is empty. *)
Fixpoint split_lines (s : string) : list string :=
  match s with
  | EmptyString => [""]
  | String c s' =>
      if Ascii.eqb c newline then "" :: split_lines s'
      else
        match split_lines s' with
        | l :: ls => String c l :: ls
        | [] => [String c ""]
        end
  end.

(** [text.empty() || text.front() == '#'], of the trimmed line. *)
Definition skipped (t : string) : bool :=
  match t with
  | EmptyString => true
  | String c _ => Ascii.eqb c "#"
  end.

(** One round of the loop over the lines: [static_cast<int>(i) + 1] numbers the
    line. *)
Definition parse_line (result : ScriptParseResult) (i : nat) (l : string) : ScriptParseResult :=
  let text := trim l in
  if skipped text then result
  else
    let n := (wrap_int (Z.of_nat i) + 1)%Z in
    match parseSentence text with
    | SOk s => result <| sentences ::= fun ss => (ss ++ [s <| line := n |>])%list |>
    | SFail m => result <| errors ::= fun es => (es ++ [mkScriptError n m])%list |>
    end.

Fixpoint parse_lines (result : ScriptParseResult) (i : nat) (ls : list string) : ScriptParseResult :=
  match ls with
  | [] => result
  | l :: ls => parse_lines (parse_line result i l) (S i) ls
  end.

Definition parseScript (script : string) : ScriptParseResult :=
  let result := parse_lines (mkParsed true [] []) 0 (split_lines script) in
  let result := result <| ok := bool_decide (errors result = []) |> in
  if ok result then result else result <| sentences := [] |>.

(** ** JSON *)

(** [j[k] = v] on a value that is an object. *)
Definition put (k : string) (v : json) (j : json) : json :=
  match j with JObject m => JObject (obj_set k v m) | _ => j end.
Definition put_opt (k : string) (o : option string) (j : json) : json :=
  match o with Some s => put k (JString s) j | None => j end.

Definition attr_json (a : BqlAttr) : json :=
  object [("key", JString (key a)); ("value", JString (attr_value a))].

(** [*alias] of an alias that is not there is undefined. *)
Definition alias_of (s : BqlSentence) : Result string :=
  match alias s with Some a => Ok a | None => Undef end.

Definition toJson (s : BqlSentence) : Result json :=
  let attrs := JArray (attr_json <$> attrs s) in
  j ← match kind s with
      | Add =>
          Ok (put_opt "parentAlias" (parentAlias s) (put_opt "alias" (alias s)
            (put_opt "text" (text s)
              (object [("kind", JString "add"); ("blockName", JString (blockName s)); ("attrs", attrs)]))))
      | Give =>
          a ← alias_of s;
          Ok (object [("kind", JString "give"); ("alias", JString a); ("attrs", attrs)])
      | Style => Ok (object [("kind", JString "style"); ("name", JString (name s)); ("attrs", attrs)])
      | Class_ =>
          a ← alias_of s;
          Ok (object [("kind", JString "class"); ("names", JArray (JString <$> names s)); ("alias", JString a)])
      | Clear => Ok (object [("kind", JString "clear")])
      | Workflow => Ok (object [("kind", JString "workflow"); ("name", JString (name s))])
      | Trigger =>
          Ok (object [("kind", JString "trigger"); ("event", JString (event s)); ("form", JString (form s))])
      | Step =>
          Ok (object [("kind", JString "step"); ("stepName", JString (stepName s)); ("attrs", attrs)])
      | PublishWorkflow => Ok (object [("kind", JString "publishWorkflow")])
      | Publish =>
          let j := object [("kind", JString "publish"); ("path", JString (path s))] in
          Ok (if is_empty (name s) then j else put "title" (JString (name s)) j)
      end;
  Ok (put "line" (JInt (line s)) j).

Definition script_json (r : ScriptParseResult) : Result json :=
  let j := object [("ok", JBool (ok r))] in
  if ok r then
    l ← mapM toJson (sentences r);
    Ok (put "sentences" (JArray l) j)
  else
    Ok (put "errors" (JArray ((fun e =>
      object [("line", JInt (e_line e)); ("message", JString (e_message e))]) <$> errors r)) j).

(** ** The route (bql_route_handler.cpp), once the body holds a script *)

Definition kMaxScriptLength : Z := 50000.

Definition error_body (m : string) : json := object [("ok", JBool false); ("error", JString m)].

(** The status and the body of the response. *)
Definition handle (script : string) : Result (Z * json) :=
  if (kMaxScriptLength <? size script)%Z then
    Ok (413%Z, error_body ("Script exceeds the " +:+ to_string kMaxScriptLength +:+
                           "-character limit"))
  else
    let result := parseScript script in
    body ← script_json result;
    Ok (if ok result then 200 else 422, body)%Z.

(** ** Lemmas *)

(** The lines with their 1-based numbers, and those that are parsed. *)
Fixpoint numbered (n : Z) (ls : list string) : list (Z * string) :=
  match ls with [] => [] | l :: ls => (n, trim l) :: numbered (n + 1)%Z ls end.

Definition significant (script : string) : list (Z * string) :=
  filter (fun e => skipped e.2 = false) (numbered 1 (split_lines script)).

Definition line_sentence (e : Z * string) : option BqlSentence :=
  match parseSentence e.2 with SOk s => Some (s <| line := e.1 |>) | SFail _ => None end.

Definition line_error (e : Z * string) : option ScriptError :=
  match parseSentence e.2 with SOk _ => None | SFail m => Some (mkScriptError e.1 m) end.

Lemma split_lines_length s : length (split_lines s) <= S (String.length s).
Proof.
  induction s as [|c s IH]; [simpl; lia|]. cbn [split_lines String.length].
  destruct (Ascii.eqb c newline); [simpl; lia|]. destruct (split_lines s); simpl in *; lia.
Qed.

Lemma split_lines_join s :
  split_lines s <> [] /\ String.concat (String newline "") (split_lines s) = s.
Proof.
  induction s as [|c s [Hne IH]]; [done|]. cbn [split_lines].
  destruct (Ascii.eqb_spec c newline) as [->|Hc]; split; try done.
  - destruct (split_lines s); [done|]. cbn [String.concat] in *. by rewrite IH.
  - by destruct (split_lines s).
  - destruct (split_lines s) as [|l ls]; [done|]. cbn [String.concat] in *.
    destruct ls; [by rewrite IH|]. by rewrite <- IH.
Qed.

Lemma line_number i : (Z.of_nat i < 2 ^ 31 - 1)%Z -> (wrap_int (Z.of_nat i) + 1 = Z.of_nat i + 1)%Z.
Proof. intros Hi. rewrite wrap_int_id; [done|]. apply in_int_spec. unfold INT_MIN, INT_MAX. lia. Qed.

(** The state of the loop after the lines [ls], the first being line [i + 1]. *)
Lemma parse_lines_spec ls r i :
  (Z.of_nat (i + length ls) <= 2 ^ 31 - 1)%Z ->
  let es := filter (fun e => skipped e.2 = false) (numbered (Z.of_nat i + 1) ls) in
  parse_lines r i ls =
    mkParsed (ok r) (sentences r ++ omap line_sentence es) (errors r ++ omap line_error es).
Proof.
  revert r i; induction ls as [|l ls IH]; intros r i Hi; cbn [parse_lines numbered].
  { cbn. rewrite !app_nil_r. by destruct r. }
  simpl length in Hi. rewrite IH by lia. replace (Z.of_nat (S i) + 1)%Z with (Z.of_nat i + 1 + 1)%Z by lia.
  unfold parse_line. rewrite filter_cons. cbn [snd].
  destruct (skipped (trim l)) eqn:E; [by rewrite decide_False|]. rewrite decide_True by done.
  cbn [omap list_omap]. unfold line_sentence at 2, line_error at 2. cbn [fst snd].
  rewrite line_number by lia.
  by destruct (parseSentence (trim l)); destruct r; cbn; rewrite <- ?app_assoc.
Qed.

Lemma parseScript_eq script :
  (size script < 2 ^ 31 - 1)%Z ->
  parseScript script =
    (let es := significant script in
     let errs := omap line_error es in
     if bool_decide (errs = []) then mkParsed true (omap line_sentence es) errs
     else mkParsed false [] errs).
Proof.
  intros Hs. unfold parseScript. pose proof (split_lines_length script) as Hl. unfold size in Hs.
  rewrite parse_lines_spec by lia. change (Z.of_nat 0 + 1)%Z with 1%Z.
  fold (significant script). cbn. by destruct (bool_decide _).
Qed.

Lemma omap_line_error_nil es :
  omap line_error es = [] -> Forall2 (fun e s => line_sentence e = Some s) es (omap line_sentence es).
Proof.
  induction es as [|e es IH]; [constructor|]. cbn [omap list_omap].
  destruct (line_error e) eqn:E; [done|]. intros H. unfold line_error in E.
  destruct (line_sentence e) eqn:E'; [by constructor; auto|].
  unfold line_sentence in E'. by destruct (parseSentence e.2).
Qed.

(** A script is all or nothing: the errors are those of its significant
    lines (not blank, not a comment), every one of them and in order, each with
    the 1-based number of its line in the script; when there is none, the
    answer has one sentence per significant line, in order, the parse of that
    line with its number; when there is one, it has no sentence at all. *)
Theorem parseScript_spec script :
  (size script < 2 ^ 31 - 1)%Z ->
  errors (parseScript script) = omap line_error (significant script) /\
  (ok (parseScript script) = true <-> errors (parseScript script) = []) /\
  (if ok (parseScript script)
   then Forall2 (fun e s => exists s0, parseSentence e.2 = SOk s0 /\ s = s0 <| line := e.1 |>)
          (significant script) (sentences (parseScript script))
   else sentences (parseScript script) = []).
Proof.
  intros Hs. rewrite parseScript_eq by done. cbv zeta.
  case_bool_decide as He; cbn [errors ok sentences]; [|done].
  split; [done|]. split; [done|]. eapply Forall2_impl; [by apply omap_line_error_nil|].
  intros e s H. unfold line_sentence in H. destruct (parseSentence e.2) as [s0|]; [|done].
  injection H as <-. by exists s0.
Qed.

Lemma put_object k v m : put k v (JObject m) = JObject (obj_set k v m).
Proof. done. Qed.

Lemma sentence_json s : sentence_ok s = true -> forall n, exists j, toJson (s <| line := n |>) = Ok j.
Proof.
  intros [Hs%bool_decide_eq_true _]%andb_true_iff n. rewrite Hs.
  unfold sentence_shape, toJson, alias_of. destruct (kind s); cbn; by eexists.
Qed.

Lemma sentences_json l :
  Forall (fun s => exists j, toJson s = Ok j) l -> exists js, mapM toJson l = Ok js /\ length js = length l.
Proof.
  induction 1 as [|s l [j Hj] _ (js & Hjs & Hlen)]; [by exists []|].
  exists (j :: js). cbn [mapM]. rewrite Hj. cbn. rewrite Hjs. cbn. by rewrite Hlen.
Qed.

(** The route answers every script, and never runs into the undefined
    branch of the conversion: a script of more than 50000 characters gets 413;
    any other gets 200 with [ok] and one entry of [sentences] per significant
    line, or 422 with [ok] false and one entry of [errors] per line that does
    not parse, at least one. *)
Theorem handle_total script :
  match handle script with
  | Ok (status, body) =>
      ((status = 413 /\ kMaxScriptLength < size script) \/
       (size script <= kMaxScriptLength /\
        ((status = 200 /\ member body "ok" = Some (JBool true) /\
          exists js, member body "sentences" = Some (JArray js) /\
                     length js = length (significant script)) \/
         (status = 422 /\ member body "ok" = Some (JBool false) /\
          exists js, member body "errors" = Some (JArray js) /\ js <> [] /\
                     length js = length (omap line_error (significant script))))))%Z
  | _ => False
  end.
Proof.
  unfold handle. destruct (Z.ltb_spec kMaxScriptLength (size script)) as [Hlt|Hle]; [by left|].
  rewrite parseScript_eq by (unfold kMaxScriptLength in Hle; lia). cbv zeta.
  case_bool_decide as He; unfold script_json; cbn [ok sentences errors].
  - destruct (sentences_json (omap line_sentence (significant script))) as (js & Hjs & Hlen).
    { apply Forall_forall. intros s (e & _ & H)%list_elem_of_omap. unfold line_sentence in H.
      destruct (parseSentence e.2) as [s0|] eqn:E; [|done]. injection H as <-.
      by apply sentence_json, (parseSentence_ok e.2). }
    rewrite Hjs. cbn. right. split; [done|]. left. split_and!; [done..|].
    exists js. split; [done|]. rewrite Hlen. symmetry. eapply Forall2_length.
    by apply omap_line_error_nil.
  - cbn. right. split; [done|]. right. split_and!; [done..|]. eexists.
    split; [reflexivity|]. split; [by destruct (omap line_error _)|]. by rewrite length_fmap.
Qed.

Example script_errors :
  errors (parseScript (String.concat (String newline "")
    ["# a comment"; ""; "Add a Container called hero."; "Please make it nicer."; "start a page"])) =
  [mkScriptError 4 ("Didn't understand: " +:+ quoted "Please make it nicer.");
   mkScriptError 5 ("Could not read: " +:+ quoted "start a page")].
Proof. vm_compute. reflexivity. Qed.

Definition demo_script : string :=
  String.concat (String newline "") ["start a new page"; "# the title"; ""; "add a Heading 1"].

Lemma parseScript_spec_witness :
  ok (parseScript demo_script) = true /\ length (sentences (parseScript demo_script)) = 2.
Proof.
  assert (size demo_script < 2 ^ 31 - 1)%Z as Hs by (vm_compute; reflexivity).
  destruct (parseScript_spec demo_script Hs) as (He & Hok & Hall).
  assert (ok (parseScript demo_script) = true) as Ht.
  { apply Hok. rewrite He. vm_compute. reflexivity. }
  split; [exact Ht|]. rewrite Ht in Hall. apply Forall2_length in Hall. rewrite <- Hall.
  vm_compute. reflexivity.
Defined.
