(* ===== verification/OneTime.v ===== *)
(** * One-time secrets of the sign-on protocols

    The three stores that hand out something to be used once: authorization
    codes (src/oidc/tokens/auth_code_store.cpp), CAS service tickets
    (src/cas/cas_ticket_store.cpp) and pending SAML requests
    (src/saml/state/saml_request_store.cpp).  Each looks a row up by a key
    column, checks it and marks it consumed; they work on any database with the
    interface of EntityHost.  The clock readings and the random token of a call
    are arguments, and so is the hash function. *)

From stdpp Require Import relations.
From S2P Require Import Prelude CxxString CxxStd Store Json EntityHost.

Open Scope string_scope.

(** ** The stores *)

(** [row.contains(k) && !row[k].is_null()] *)
Definition is_set (row : json) (k : string) : bool :=
  match member row k with Some v => negb (is_null v) | None => false end.

Record AuthorizationCodeRequest := mkCodeRequest {
  rq_clientId : string; rq_userId : string; rq_tenantId : string; rq_redirectUri : string;
  rq_codeChallenge : string; rq_codeChallengeMethod : string; rq_scope : string;
  rq_nonce : option string;
}.

Record RedeemedCode := mkRedeemed {
  rd_clientId : string; rd_userId : string; rd_tenantId : string; rd_redirectUri : string;
  rd_codeChallenge : string; rd_codeChallengeMethod : string; rd_scope : string;
  rd_nonce : option string;
}.

Inductive TicketType := ServiceTicket | TicketGrantingTicket.
Record ValidatedTicket := mkTicket { vt_userId : string; vt_tenantId : string }.

Record PendingSamlRequest := mkPending {
  ps_requestId : string; ps_spEntityId : string; ps_acsUrl : string; ps_relayState : option string;
}.

Definition typeString (type : TicketType) : string :=
  match type with TicketGrantingTicket => "TGT" | ServiceTicket => "ST" end.
Definition ticketPrefix (type : TicketType) : string :=
  match type with TicketGrantingTicket => "TGT-" | ServiceTicket => "ST-" end.

Section Stores.
Context {W : Type} `{!Host W} (sha256_hex : string -> string).

(** Marking a row consumed. *)
Definition mark (entity id column : string) (now : Z) : Op W unit :=
  _ ← updateEntity entity id (object [(column, JInt now)]); mret tt.

(** [AuthCodeStore::issue], with the two clock readings and the random token. *)
Definition issue_code (ttl_seconds now1 now2 : Z) (rawCode : string) (req : AuthorizationCodeRequest) :
    Op W string :=
  let data := object [
    ("codeHash", JString (sha256_hex rawCode)); ("clientId", JString (rq_clientId req));
    ("userId", JString (rq_userId req)); ("tenantId", JString (rq_tenantId req));
    ("redirectUri", JString (rq_redirectUri req)); ("codeChallenge", JString (rq_codeChallenge req));
    ("codeChallengeMethod", JString (rq_codeChallengeMethod req)); ("scope", JString (rq_scope req));
    ("nonce", or_null (rq_nonce req)); ("expiresAt", JInt (now1 + ttl_seconds));
    ("consumedAt", JNull); ("createdAt", JInt now2)] in
  _ ← createEntity "AuthorizationCode" data; mret rawCode.

Definition redeem (now1 now2 : Z) (rawCode clientIdHint : string) : Op W RedeemedCode :=
  items ← listEntities "AuthorizationCode" (by_column "codeHash" (sha256_hex rawCode) 1);
  match items with
  | [] => fail (notFound "invalid_grant: authorization code not found")
  | row :: _ =>
      id ← of_result (value_string row "id" "");
      storedClientId ← of_result (value_string row "clientId" "");
      expiresAt ← of_result (value_int64 row "expiresAt" 0);
      let consumed := negb (match member row "consumedAt" with Some JNull => true | _ => false end) in
      reject_if (negb (String.eqb storedClientId clientIdHint))
        (validationError "invalid_grant: client_id mismatch");;
      reject_if consumed (validationError "invalid_grant: authorization code already used");;
      reject_if (expiresAt <=? now1)%Z (validationError "invalid_grant: authorization code expired");;
      mark "AuthorizationCode" id "consumedAt" now2;;
      userId ← of_result (value_string row "userId" "");
      tenantId ← of_result (value_string row "tenantId" "");
      redirectUri ← of_result (value_string row "redirectUri" "");
      codeChallenge ← of_result (value_string row "codeChallenge" "");
      codeChallengeMethod ← of_result (value_string row "codeChallengeMethod" "");
      scope ← of_result (value_string row "scope" "");
      mret (mkRedeemed storedClientId userId tenantId redirectUri codeChallenge codeChallengeMethod
              scope (string_member row "nonce"))
  end.

(** [CasTicketStore::issue]. *)
Definition issue_ticket (now1 now2 : Z) (token : string) (type : TicketType)
    (userId tenantId service : string) (ttlSeconds : Z) : Op W string :=
  let rawTicket := ticketPrefix type +:+ token in
  let data := object [
    ("ticketHash", JString (sha256_hex rawTicket)); ("ticketType", JString (typeString type));
    ("userId", JString userId); ("tenantId", JString tenantId); ("service", JString service);
    ("consumedAt", JNull); ("expiresAt", JInt (now1 + ttlSeconds)); ("createdAt", JInt now2)] in
  _ ← createEntity "CasTicket" data; mret rawTicket.

Definition issueServiceTicket (now1 now2 : Z) (token userId tenantId service : string) : Op W string :=
  issue_ticket now1 now2 token ServiceTicket userId tenantId service 10.

Definition validateServiceTicket (now1 now2 : Z) (rawTicket service : string) : Op W ValidatedTicket :=
  items ← listEntities "CasTicket" (by_column "ticketHash" (sha256_hex rawTicket) 1);
  match items with
  | [] => fail (notFound "INVALID_TICKET: ticket not recognized")
  | row :: _ =>
      id ← of_result (value_string row "id" "");
      storedService ← of_result (value_string row "service" "");
      expiresAt ← of_result (value_int64 row "expiresAt" 0);
      reject_if (is_set row "consumedAt") (validationError "INVALID_TICKET: ticket already used");;
      reject_if (expiresAt <=? now1)%Z (validationError "INVALID_TICKET: ticket expired");;
      reject_if (negb (String.eqb storedService service))
        (validationError "INVALID_SERVICE: service does not match ticket issuance");;
      mark "CasTicket" id "consumedAt" now2;;
      userId ← of_result (value_string row "userId" "");
      tenantId ← of_result (value_string row "tenantId" "");
      mret (mkTicket userId tenantId)
  end.

(** [SamlRequestStore::store] and [take]. *)
Definition store (ttl_seconds now1 now2 : Z) (req : PendingSamlRequest) : Op W bool :=
  let data := object [
    ("requestId", JString (ps_requestId req)); ("spEntityId", JString (ps_spEntityId req));
    ("acsUrl", JString (ps_acsUrl req)); ("relayState", or_null (ps_relayState req));
    ("consumedAt", JNull); ("expiresAt", JInt (now1 + ttl_seconds)); ("createdAt", JInt now2)] in
  _ ← createEntity "SamlAuthnRequestState" data; mret true.

Definition take_request (now1 now2 : Z) (requestId : string) : Op W PendingSamlRequest :=
  items ← listEntities "SamlAuthnRequestState" (by_column "requestId" requestId 1);
  match items with
  | [] => fail (notFound "AuthnRequest state not found — start over at /saml/sso")
  | row :: _ =>
      id ← of_result (value_string row "id" "");
      expiresAt ← of_result (value_int64 row "expiresAt" 0);
      reject_if (is_set row "consumedAt") (validationError "AuthnRequest state already used");;
      reject_if (expiresAt <=? now1)%Z
        (validationError "AuthnRequest state expired — start over at /saml/sso");;
      mark "SamlAuthnRequestState" id "consumedAt" now2;;
      spEntityId ← of_result (value_string row "spEntityId" "");
      acsUrl ← of_result (value_string row "acsUrl" "");
      mret (mkPending requestId spEntityId acsUrl (string_member row "relayState"))
  end.
End Stores.

(** ** Tables of one-time rows *)

Section Tables.
Context (key col : string).
Implicit Types (t : table) (m : members).

Definition carries (v : string) (m : members) : Prop := string_member (JObject m) key = Some v.

Definition holds_key (t : table) (v : string) : Prop := exists id m, t !! id = Some m /\ carries v m.

(** No two rows carry the same key. *)
Definition keys_unique (t : table) : Prop := forall id1 id2 m1 m2 v,
  t !! id1 = Some m1 -> t !! id2 = Some m2 -> carries v m1 -> carries v m2 -> id1 = id2.

(** There is a row of key [v], and every one is marked. *)
Definition spent (v : string) (t : table) : Prop :=
  holds_key t v /\ forall id m, t !! id = Some m -> carries v m -> is_set (JObject m) col = true.

(** What happens to the table: a row is added under a new key, a row is marked. *)
Inductive table_step : table -> table -> Prop :=
  | table_same t : table_step t t
  | table_add t t' d m v :
      row_added d t t' m -> obj_get key d = Some (JString v) -> ~ holds_key t v -> table_step t t'
  | table_mark t id m m' n :
      t !! id = Some m -> patched [(col, JInt n)] m m' -> table_step t (<[id := m']> t).

Context (Hkc : key <> col) (Hki : key <> "id").

Lemma patched_carries n m m' v : patched [(col, JInt n)] m m' -> carries v m' <-> carries v m.
Proof.
  intros Hp. unfold carries. rewrite !string_member_get, (Hp key). cbn [obj_get].
  by destruct (String.eqb_spec key col).
Qed.

Lemma patched_set n m m' : patched [(col, JInt n)] m m' -> is_set (JObject m') col = true.
Proof. intros Hp. unfold is_set. cbn [member]. rewrite (Hp col). cbn [obj_get]. by rewrite String.eqb_refl. Qed.

Lemma added_carries d t t' m v v' :
  row_added d t t' m -> obj_get key d = Some (JString v) -> carries v' m -> v' = v.
Proof.
  intros (id & _ & _ & _ & Hkeep) Hd Hv. unfold carries in Hv. apply string_member_get in Hv.
  rewrite (Hkeep key _ Hki Hd) in Hv. congruence.
Qed.

Lemma table_step_unique t t' : table_step t t' -> keys_unique t -> keys_unique t'.
Proof.
  destruct 1 as [t|t t' d m v Hadd Hd Hnew|t id m m' n Hm Hp]; intros Hu; [done| |].
  - assert (Hadd' := Hadd). destruct Hadd as (id & Hfresh & -> & _).
    intros id1 id2 m1 m2 v' H1 H2 Hc1 Hc2.
    apply lookup_insert_Some in H1 as [[<- <-]|[Hn1 H1]]; apply lookup_insert_Some in H2 as [[<- <-]|[Hn2 H2]];
      [done| | |by eapply Hu].
    + rewrite (added_carries _ _ _ _ _ _ Hadd' Hd Hc1) in Hc2. destruct Hnew. by exists id2, m2.
    + rewrite (added_carries _ _ _ _ _ _ Hadd' Hd Hc2) in Hc1. destruct Hnew. by exists id1, m1.
  - assert (forall i mi v, <[id := m']> t !! i = Some mi -> carries v mi ->
      exists mi0, t !! i = Some mi0 /\ carries v mi0) as Hback.
    { intros i mi v Hi Hc. apply lookup_insert_Some in Hi as [[<- <-]|[_ Hi]]; [|eauto].
      exists m. split; [done|]. by apply (patched_carries n m m'). }
    intros id1 id2 m1 m2 v H1 H2 Hc1 Hc2. destruct (Hback _ _ _ H1 Hc1) as (n1 & H1' & Hc1').
    destruct (Hback _ _ _ H2 Hc2) as (n2 & H2' & Hc2'). by eapply Hu.
Qed.

Lemma table_step_spent t t' v : table_step t t' -> spent v t -> spent v t'.
Proof.
  destruct 1 as [t|t t' d m v' Hadd Hd Hnew|t id m m' n Hm Hp]; [done| |]; intros [(i & mi & Hi & Hc) Hall].
  - assert (v <> v') as Hne by (intros ->; destruct Hnew; by exists i, mi).
    assert (Hadd' := Hadd). destruct Hadd as (id & Hfresh & -> & _). split.
    + exists i, mi. split; [|done]. rewrite lookup_insert_ne; [done|]. intros ->. congruence.
    + intros i' mi' Hi' Hc'. apply lookup_insert_Some in Hi' as [[<- <-]|[_ Hi']]; [|by eapply Hall].
      by destruct Hne; eapply added_carries.
  - split.
    + destruct (decide (i = id)) as [->|Hne].
      * exists id, m'. rewrite lookup_insert_eq. split; [done|]. rewrite Hm in Hi. injection Hi as ->.
        by apply (patched_carries n mi m').
      * exists i, mi. by rewrite lookup_insert_ne.
    + intros i' mi' Hi' Hc'. apply lookup_insert_Some in Hi' as [[<- <-]|[_ Hi']]; [by eapply patched_set|].
      by eapply Hall.
Qed.

(** Marking the only row of a key spends it. *)
Lemma mark_spends t id m m' n v :
  keys_unique t -> t !! id = Some m -> carries v m -> patched [(col, JInt n)] m m' ->
  spent v (<[id := m']> t).
Proof.
  intros Hu Hm Hc Hp. assert (carries v m') as Hc' by by apply (patched_carries n m m').
  split; [exists id, m'; by rewrite lookup_insert_eq|].
  intros i mi Hi Hci. apply lookup_insert_Some in Hi as [[<- <-]|[Hne Hi]]; [by eapply patched_set|].
  by destruct Hne; eapply Hu.
Qed.
End Tables.

(** ** The shape of a consuming call *)

Section Consume.
Context {W : Type} `{!Host W} `{!EntityDb W} (entity key col : string).

(** [w'] is [w] with the row [id], [m] of key [v] marked. *)
Definition marked (v : string) (id : string) (m : members) (n : Z) (w w' : W) : Prop :=
  rows w entity !! id = Some m /\ carries key v m /\
  (exists m', patched [(col, JInt n)] m m' /\ rows w' entity = <[id := m']> (rows w entity)) /\
  forall e, e <> entity -> rows w' e = rows w e.

(** A consuming call either fails without touching any table, or marks the row
    it found; if it succeeds it marked a row that satisfied [good]. *)
Definition consumes {A} (v : string) (n : Z) (good : string -> members -> A -> Prop) (w : W)
    (r : Result A * W) : Prop :=
  match r with
  | (Ok a, w') => exists id m, marked v id m n w w' /\ good id m a
  | (_, w') => (forall e, rows w' e = rows w e) \/ exists id m, marked v id m n w w'
  end.

Lemma consumes_find {A} v n good w (e : Error) (f : json -> Op W A) :
  (forall id m w', rows w entity !! id = Some m -> carries key v m ->
    obj_get "id" m = Some (JString id) -> (forall e, rows w' e = rows w e) ->
    consumes v n good w (f (JObject m) w')) ->
  consumes v n good w
    ((items ← listEntities entity (by_column key v 1);
      match items with [] => fail e | row :: _ => f row end) w).
Proof.
  intros Hf. unfold mbind, Op_bind. pose proof (find_one entity key v w) as H.
  destruct (listEntities entity (by_column key v 1) w) as [[items|er|x|] w']; try done; [|by left].
  destruct items as [|row items].
  - left. apply H.
  - destruct H as (Hsame & id & m & -> & Hm & Hv & Hid & _). by apply (Hf id m w').
Qed.

Lemma consumes_result {A B} v n good w w' (r : Result B) (k : B -> Op W A) :
  (forall e, rows w' e = rows w e) -> (forall b, r = Ok b -> consumes v n good w (k b w')) ->
  consumes v n good w ((of_result r ≫= k) w').
Proof. intros Hs Hk. unfold mbind, Op_bind, of_result. destruct r; [by apply Hk|by left..]. Qed.

Lemma consumes_reject {A} v n good w w' (b : bool) (e : Error) (k : Op W A) :
  (forall e, rows w' e = rows w e) -> (b = false -> consumes v n good w (k w')) ->
  consumes v n good w ((reject_if b e;; k) w').
Proof. intros Hs Hk. rewrite run_reject. destruct b; [by left|by apply Hk]. Qed.

Lemma consumes_mark {A} v n (good : string -> members -> A -> Prop) w w' id m (k : Op W A) :
  col <> "id" -> rows w entity !! id = Some m -> carries key v m -> (forall e, rows w' e = rows w e) ->
  pure_op k -> (forall w1 a, (k w1).1 = Ok a -> good id m a) ->
  consumes v n good w ((mark entity id col n;; k) w').
Proof.
  intros Hcol Hm Hc Hs Hk Hgood. unfold mark. unfold mbind at 1, Op_bind at 1. unfold mbind, Op_bind.
  assert (obj_get "id" (build [(col, JInt n)]) = None) as Hid.
  { unfold build. cbn [foldl obj_set fst snd obj_get]. by destruct (String.eqb_spec "id" col). }
  pose proof (db_update w' entity id (build [(col, JInt n)]) Hid) as H.
  change (JObject (build [(col, JInt n)])) with (object [(col, JInt n)]) in H.
  destruct (updateEntity entity id (object [(col, JInt n)]) w') as [[row|er|x|] w1]; try done.
  2: { left. intros e. by rewrite (H e), Hs. }
  destruct H as ((m0 & m' & Hm0 & Hp & Ht) & Hother). rewrite Hs in Hm0. rewrite Hm in Hm0.
  injection Hm0 as <-. cbn [mret Op_ret].
  assert (marked v id m n w w1) as Hmark.
  { split; [done|]. split; [done|]. split; [exists m'; by rewrite Ht, Hs|].
    intros e He. by rewrite Hother, Hs. }
  pose proof (Hk w1) as Hpure. pose proof (Hgood w1) as Hg.
  destruct (k w1) as [[a|e|x|] w2]; cbn [fst snd] in *; subst w2; cbn [consumes].
  { exists id, m. split; [done|]. by apply Hg. }
  all: right; exists id, m; exact Hmark.
Qed.

Lemma consumes_step {A} v n good w (r : Result A * W) :
  consumes v n good w r -> table_step key col (rows w entity) (rows r.2 entity).
Proof.
  assert (forall id m w', marked v id m n w w' -> table_step key col (rows w entity) (rows w' entity)) as Hm.
  { intros id m w' (Hid & _ & (m' & Hp & ->) & _). by eapply table_mark. }
  destruct r as [[a|e|x|] w']; cbn [snd].
  - intros (id & m & H & _). by eapply Hm.
  - intros [->|(id & m & H)]; [constructor|by eapply Hm].
  - intros [->|(id & m & H)]; [constructor|by eapply Hm].
  - intros [->|(id & m & H)]; [constructor|by eapply Hm].
Qed.

Lemma consumes_spends {A} v n good w (a : A) w' :
  key <> col -> keys_unique key (rows w entity) -> consumes v n good w (Ok a, w') ->
  spent key col v (rows w' entity).
Proof.
  intros Hkc Hu (id & m & (Hm & Hc & (m' & Hp & ->) & _) & _). by eapply mark_spends.
Qed.
End Consume.

(** In a run that starts with an empty table, a consuming call that succeeds
    spends its key for the rest of the run. *)
Lemma once_spent {W A} `{!Host W} `{!EntityDb W} entity key col v n good w0 w (a : A) w1 w2 :
  key <> col -> key <> "id" -> rows w0 entity = ∅ ->
  rtc (table_step key col) (rows w0 entity) (rows w entity) ->
  rtc (table_step key col) (rows w1 entity) (rows w2 entity) ->
  consumes entity key col v n good w (Ok a, w1) -> spent key col v (rows w2 entity).
Proof.
  intros Hkc Hki H0 Hrun Hlater Hc.
  assert (forall t t', rtc (table_step key col) t t' -> keys_unique key t -> keys_unique key t') as Hu.
  { induction 1 as [|t t1 t2 Ht _ IH]; [done|]. intros Hu. apply IH.
    exact (table_step_unique key col Hkc Hki _ _ Ht Hu). }
  assert (forall t t', rtc (table_step key col) t t' -> spent key col v t -> spent key col v t') as Hs.
  { induction 1 as [|t t1 t2 Ht _ IH]; [done|]. intros Hsp. apply IH.
    exact (table_step_spent key col Hkc Hki _ _ v Ht Hsp). }
  eapply Hs; [exact Hlater|]. eapply consumes_spends; [done| |exact Hc].
  eapply Hu; [exact Hrun|]. rewrite H0.
  intros id1 id2 m1 m2 v' Hm. by rewrite lookup_empty in Hm.
Qed.

Lemma of_result_fst {W A B} (r : Result B) (k : B -> Op W A) w a :
  ((of_result r ≫= k) w).1 = Ok a -> exists b, r = Ok b /\ (k b w).1 = Ok a.
Proof. unfold mbind, Op_bind, of_result. destruct r; try done. eauto. Qed.

(** Walk through the checks before the mark. *)
Ltac consume_checks :=
  repeat first
    [ apply consumes_result; [assumption|intros ? ?]
    | apply consumes_reject; [assumption|intros ?] ].

(** The fields read after the mark. *)
Ltac consume_fields :=
  repeat match goal with
  | H : ((of_result _ ≫= _) _).1 = Ok _ |- _ => apply of_result_fst in H as (? & ? & H)
  end.

(** Creating a row of a new key, and what is returned for it. *)
Lemma creates_step {W A} `{!Host W} `{!EntityDb W} entity key col l v (a : A) w :
  obj_get key (build l) = Some (JString v) -> ~ holds_key key (rows w entity) v ->
  table_step key col (rows w entity) (rows ((_ ← createEntity entity (object l); mret a) w).2 entity).
Proof.
  intros Hv Hnew. unfold mbind, Op_bind. pose proof (db_create w entity (build l)) as H.
  change (JObject (build l)) with (object l) in H. unfold changes in H.
  destruct (createEntity entity (object l) w) as [[row|er|x|] w']; try done; cbn [snd mret Op_ret].
  - destruct H as [(m & _ & Hadd) _]. by eapply table_add.
  - rewrite H. constructor.
Qed.

(** ** Authorization codes *)

Section Codes.
Context {W : Type} `{!Host W} `{!EntityDb W} (sha256_hex : string -> string).

(** The row and the answer of a redemption that succeeds. *)
Definition code_good (now : Z) (clientIdHint : string) (id : string) (m : members) (r : RedeemedCode) : Prop :=
  rd_clientId r = clientIdHint /\ value_string (JObject m) "clientId" "" = Ok clientIdHint /\
  obj_get "consumedAt" m = Some JNull /\
  (exists t, value_int64 (JObject m) "expiresAt" 0 = Ok t /\ (now < t)%Z) /\
  value_string (JObject m) "userId" "" = Ok (rd_userId r) /\
  value_string (JObject m) "tenantId" "" = Ok (rd_tenantId r) /\
  value_string (JObject m) "redirectUri" "" = Ok (rd_redirectUri r) /\
  value_string (JObject m) "codeChallenge" "" = Ok (rd_codeChallenge r) /\
  value_string (JObject m) "codeChallengeMethod" "" = Ok (rd_codeChallengeMethod r) /\
  value_string (JObject m) "scope" "" = Ok (rd_scope r) /\
  rd_nonce r = string_member (JObject m) "nonce".

Lemma redeem_consumes now1 now2 c client w :
  consumes "AuthorizationCode" "codeHash" "consumedAt" (sha256_hex c) now2 (code_good now1 client) w
    (redeem sha256_hex now1 now2 c client w).
Proof.
  unfold redeem. apply consumes_find. intros id m w' Hm Hc Hid Hs.
  assert (value_string (JObject m) "id" "" = Ok id) as Hv by (unfold value_string; by rewrite Hid).
  rewrite Hv. consume_checks. injection H as <-.
  match goal with H : negb (String.eqb _ _) = false |- _ => apply negb_false_iff, String.eqb_eq in H as -> end.
  eapply consumes_mark; try done; [auto 10 with dbal|].
  intros w1 a Ha. consume_fields. injection Ha as <-. unfold code_good. cbn.
  split_and!; try done; [|eexists; split; [done|]; by apply Z.leb_gt].
  match goal with H : negb _ = false |- _ => apply negb_false_iff in H; rename H into Hnull end.
  cbn [member] in Hnull. by repeat case_match.
Qed.

(** Work on the table of codes: a code whose hash is new is issued, a code is
    presented, or something else happens that leaves the table as it is. *)
Inductive code_step : W -> W -> Prop :=
  | step_issue ttl now1 now2 c req w :
      ~ holds_key "codeHash" (rows w "AuthorizationCode") (sha256_hex c) ->
      code_step w (issue_code sha256_hex ttl now1 now2 c req w).2
  | step_redeem now1 now2 c client w : code_step w (redeem sha256_hex now1 now2 c client w).2
  | step_other w w' : rows w' "AuthorizationCode" = rows w "AuthorizationCode" -> code_step w w'.

Lemma code_step_table w w' :
  code_step w w' ->
  table_step "codeHash" "consumedAt" (rows w "AuthorizationCode") (rows w' "AuthorizationCode").
Proof.
  destruct 1 as [ttl now1 now2 c req w Hnew|now1 now2 c client w|w w' ->]; [| |constructor].
  - eapply creates_step; [|exact Hnew]. reflexivity.
  - eapply consumes_step, redeem_consumes.
Qed.

Lemma code_run_table w w' :
  rtc code_step w w' -> rtc (table_step "codeHash" "consumedAt")
    (rows w "AuthorizationCode") (rows w' "AuthorizationCode").
Proof. induction 1 as [|w w1 w2 H%code_step_table _ IH]; [done|]. by eapply rtc_l. Qed.

(** A code redeems at most once.  In every run that starts without codes and
    in which no two issued codes have the same hash, whatever else is presented,
    whenever, by whichever client, and whichever database calls fail: after one
    redemption of a code has succeeded, no later one does. *)
Theorem redeem_once w0 w w1 w2 now1 now2 now1' now2' c client client' r :
  rows w0 "AuthorizationCode" = ∅ -> rtc code_step w0 w ->
  redeem sha256_hex now1 now2 c client w = (Ok r, w1) -> rtc code_step w1 w2 ->
  match redeem sha256_hex now1' now2' c client' w2 with (Ok _, _) => False | _ => True end.
Proof.
  intros H0 Hrun Hr Hlater.
  pose proof (redeem_consumes now1 now2 c client w) as Hc. rewrite Hr in Hc.
  eapply once_spent in Hc; [|done|done|exact H0|by apply code_run_table|by apply code_run_table].
  pose proof (redeem_consumes now1' now2' c client' w2) as Hc'.
  destruct (redeem _ _ _ c client' w2) as [[r'|e|x|] w3]; try done.
  destruct Hc' as (id & m & (Hm & Hk & _) & _ & _ & Hnull & _).
  destruct Hc as [_ Hall]. specialize (Hall id m Hm Hk). unfold is_set in Hall. cbn [member] in Hall.
  by rewrite Hnull in Hall.
Qed.

(** What a redemption that succeeds has checked and done: the row carries
    the hash of the presented code, was issued to the presenting client, had not
    been consumed and had not expired; the answer holds the row's own fields;
    that row, and nothing else in any table, is marked consumed.  One that fails
    marks at most the row it found. *)
Theorem redeem_sound now1 now2 c client w :
  match redeem sha256_hex now1 now2 c client w with
  | (Ok r, w') => exists id m,
      marked "AuthorizationCode" "codeHash" "consumedAt" (sha256_hex c) id m now2 w w' /\
      code_good now1 client id m r
  | (_, w') => (forall e, rows w' e = rows w e) \/
      exists id m, marked "AuthorizationCode" "codeHash" "consumedAt" (sha256_hex c) id m now2 w w'
  end.
Proof. exact (redeem_consumes now1 now2 c client w). Qed.
End Codes.

(** ** CAS tickets *)

Section Tickets.
Context {W : Type} `{!Host W} `{!EntityDb W} (sha256_hex : string -> string).

Definition ticket_good (now : Z) (service : string) (id : string) (m : members) (r : ValidatedTicket) : Prop :=
  value_string (JObject m) "service" "" = Ok service /\
  is_set (JObject m) "consumedAt" = false /\
  (exists t, value_int64 (JObject m) "expiresAt" 0 = Ok t /\ (now < t)%Z) /\
  value_string (JObject m) "userId" "" = Ok (vt_userId r) /\
  value_string (JObject m) "tenantId" "" = Ok (vt_tenantId r).

Lemma validate_consumes now1 now2 ticket service w :
  consumes "CasTicket" "ticketHash" "consumedAt" (sha256_hex ticket) now2 (ticket_good now1 service) w
    (validateServiceTicket sha256_hex now1 now2 ticket service w).
Proof.
  unfold validateServiceTicket. apply consumes_find. intros id m w' Hm Hc Hid Hs.
  assert (value_string (JObject m) "id" "" = Ok id) as Hv by (unfold value_string; by rewrite Hid).
  rewrite Hv. consume_checks. injection H as <-.
  match goal with H : negb (String.eqb _ _) = false |- _ => apply negb_false_iff, String.eqb_eq in H as -> end.
  eapply consumes_mark; try done; [auto 10 with dbal|].
  intros w1 a Ha. consume_fields. injection Ha as <-. unfold ticket_good. cbn [vt_userId vt_tenantId].
  split_and!; try done. eexists. split; [done|]. by apply Z.leb_gt.
Qed.

Inductive ticket_step : W -> W -> Prop :=
  | ticket_issue now1 now2 token type user tenant service ttl w :
      ~ holds_key "ticketHash" (rows w "CasTicket") (sha256_hex (ticketPrefix type +:+ token)) ->
      ticket_step w (issue_ticket sha256_hex now1 now2 token type user tenant service ttl w).2
  | ticket_validate now1 now2 ticket service w :
      ticket_step w (validateServiceTicket sha256_hex now1 now2 ticket service w).2
  | ticket_other w w' : rows w' "CasTicket" = rows w "CasTicket" -> ticket_step w w'.

Lemma ticket_step_table w w' :
  ticket_step w w' ->
  table_step "ticketHash" "consumedAt" (rows w "CasTicket") (rows w' "CasTicket").
Proof.
  destruct 1 as [now1 now2 token type user tenant service ttl w Hnew|now1 now2 ticket service w|w w' ->];
    [| |constructor].
  - eapply creates_step; [|exact Hnew]. reflexivity.
  - eapply consumes_step, validate_consumes.
Qed.

Lemma ticket_run_table w w' :
  rtc ticket_step w w' -> rtc (table_step "ticketHash" "consumedAt") (rows w "CasTicket") (rows w' "CasTicket").
Proof. induction 1 as [|w w1 w2 H%ticket_step_table _ IH]; [done|]. by eapply rtc_l. Qed.

(** A CAS ticket validates at most once, and only for the service it was
    issued for and before it expires; in every run without repeated tickets. *)
Theorem ticket_once w0 w w1 w2 now1 now2 now1' now2' ticket service service' r :
  rows w0 "CasTicket" = ∅ -> rtc ticket_step w0 w ->
  validateServiceTicket sha256_hex now1 now2 ticket service w = (Ok r, w1) ->
  (exists id m, marked "CasTicket" "ticketHash" "consumedAt" (sha256_hex ticket) id m now2 w w1 /\
                ticket_good now1 service id m r) /\
  (rtc ticket_step w1 w2 ->
   match validateServiceTicket sha256_hex now1' now2' ticket service' w2 with
   | (Ok _, _) => False | _ => True end).
Proof.
  intros H0 Hrun Hr. pose proof (validate_consumes now1 now2 ticket service w) as Hc. rewrite Hr in Hc.
  split; [exact Hc|]. intros Hlater.
  eapply once_spent in Hc; [|done|done|exact H0|by apply ticket_run_table|by apply ticket_run_table].
  pose proof (validate_consumes now1' now2' ticket service' w2) as Hc'.
  destruct (validateServiceTicket _ _ _ ticket service' w2) as [[r'|e|x|] w3]; try done.
  destruct Hc' as (id & m & (Hm & Hk & _) & _ & Hset & _).
  destruct Hc as [_ Hall]. specialize (Hall id m Hm Hk). congruence.
Qed.
End Tickets.

(** ** Pending SAML requests *)

Section Requests.
Context {W : Type} `{!Host W} `{!EntityDb W}.

Definition request_good (now : Z) (requestId : string) (id : string) (m : members)
    (r : PendingSamlRequest) : Prop :=
  ps_requestId r = requestId /\ is_set (JObject m) "consumedAt" = false /\
  (exists t, value_int64 (JObject m) "expiresAt" 0 = Ok t /\ (now < t)%Z) /\
  value_string (JObject m) "spEntityId" "" = Ok (ps_spEntityId r) /\
  value_string (JObject m) "acsUrl" "" = Ok (ps_acsUrl r) /\
  ps_relayState r = string_member (JObject m) "relayState".

Lemma take_consumes now1 now2 requestId w :
  consumes "SamlAuthnRequestState" "requestId" "consumedAt" requestId now2 (request_good now1 requestId) w
    (take_request now1 now2 requestId w).
Proof.
  unfold take_request. apply consumes_find. intros id m w' Hm Hc Hid Hs.
  assert (value_string (JObject m) "id" "" = Ok id) as Hv by (unfold value_string; by rewrite Hid).
  rewrite Hv. consume_checks. injection H as <-.
  eapply consumes_mark; try done; [auto 10 with dbal|].
  intros w1 a Ha. consume_fields. injection Ha as <-. unfold request_good.
  cbn [ps_requestId ps_spEntityId ps_acsUrl ps_relayState].
  split_and!; try done. eexists. split; [done|]. by apply Z.leb_gt.
Qed.

(** The identifier of a request comes from the service provider: a run in which
    each is stored once. *)
Inductive request_step : W -> W -> Prop :=
  | request_store ttl now1 now2 req w :
      ~ holds_key "requestId" (rows w "SamlAuthnRequestState") (ps_requestId req) ->
      request_step w (store ttl now1 now2 req w).2
  | request_take now1 now2 requestId w : request_step w (take_request now1 now2 requestId w).2
  | request_other w w' :
      rows w' "SamlAuthnRequestState" = rows w "SamlAuthnRequestState" -> request_step w w'.

Lemma request_step_table w w' :
  request_step w w' ->
  table_step "requestId" "consumedAt" (rows w "SamlAuthnRequestState") (rows w' "SamlAuthnRequestState").
Proof.
  destruct 1 as [ttl now1 now2 req w Hnew|now1 now2 requestId w|w w' ->]; [| |constructor].
  - eapply creates_step; [|exact Hnew]. reflexivity.
  - eapply consumes_step, take_consumes.
Qed.

Lemma request_run_table w w' :
  rtc request_step w w' -> rtc (table_step "requestId" "consumedAt")
    (rows w "SamlAuthnRequestState") (rows w' "SamlAuthnRequestState").
Proof. induction 1 as [|w w1 w2 H%request_step_table _ IH]; [done|]. by eapply rtc_l. Qed.

(** A pending SAML request is answered at most once, and only before it
    expires, with the endpoint it was stored with; in every run that stores each
    request identifier once. *)
Theorem request_once w0 w w1 w2 now1 now2 now1' now2' requestId r :
  rows w0 "SamlAuthnRequestState" = ∅ -> rtc request_step w0 w ->
  take_request now1 now2 requestId w = (Ok r, w1) ->
  (exists id m, marked "SamlAuthnRequestState" "requestId" "consumedAt" requestId id m now2 w w1 /\
                request_good now1 requestId id m r) /\
  (rtc request_step w1 w2 ->
   match take_request now1' now2' requestId w2 with (Ok _, _) => False | _ => True end).
Proof.
  intros H0 Hrun Hr. pose proof (take_consumes now1 now2 requestId w) as Hc. rewrite Hr in Hc.
  split; [exact Hc|]. intros Hlater.
  eapply once_spent in Hc; [|done|done|exact H0|by apply request_run_table|by apply request_run_table].
  pose proof (take_consumes now1' now2' requestId w2) as Hc'.
  destruct (take_request _ _ requestId w2) as [[r'|e|x|] w3]; try done.
  destruct Hc' as (id & m & (Hm & Hk & _) & _ & Hset & _).
  destruct Hc as [_ Hall]. specialize (Hall id m Hm Hk). congruence.
Qed.
End Requests.

(** ** A run on the database in memory *)

Definition demo_sha (s : string) : string := "#" +:+ s.
Definition demo_code_request : AuthorizationCodeRequest :=
  mkCodeRequest "app" "ada" "acme" "https://app/cb" "challenge" "S256" "openid" (Some "n0").
Definition demo_code : RedeemedCode :=
  mkRedeemed "app" "ada" "acme" "https://app/cb" "challenge" "S256" "openid" (Some "n0").

#[local] Existing Instance table_db.
#[local] Existing Instance table_laws.

Definition demo_codes : TableDb := (issue_code demo_sha 60 0 0 "code" demo_code_request (∅ : TableDb)).2.
Definition demo_redeemed : TableDb := (redeem demo_sha 10 10 "code" "app" demo_codes).2.
Definition demo_tickets : TableDb :=
  (issueServiceTicket demo_sha 0 0 "t1" "ada" "acme" "https://wiki/" (∅ : TableDb)).2.
Definition demo_validated : TableDb :=
  (validateServiceTicket demo_sha 5 5 "ST-t1" "https://wiki/" demo_tickets).2.
Definition demo_requests : TableDb :=
  (store 300 0 0 (mkPending "_r1" "https://sp" "https://sp/acs" None) (∅ : TableDb)).2.
Definition demo_taken : TableDb := (take_request 5 5 "_r1" demo_requests).2.


(** A run's result and what it leaves. *)
Lemma run_result {S A} (r : Result A * S) a : r.1 = Ok a -> r = (Ok a, r.2).
Proof. destruct r. cbn. by intros ->. Qed.

Lemma redeem_once_witness :
  (redeem demo_sha 10 10 "code" "app" demo_codes).1 = Ok demo_code /\
  match redeem demo_sha 11 11 "code" "app" demo_redeemed with (Ok _, _) => False | _ => True end.
Proof.
  assert ((redeem demo_sha 10 10 "code" "app" demo_codes).1 = Ok demo_code) as Hr
    by (vm_compute; reflexivity).
  split; [exact Hr|]. apply (redeem_once demo_sha ∅ demo_codes demo_redeemed demo_redeemed 10 10 11 11 "code" "app" "app" demo_code).
  - reflexivity.
  - apply rtc_once, step_issue. intros (id & m & Hm & _). discriminate.
  - by apply run_result.
  - constructor.
Defined.

Lemma ticket_once_witness :
  match validateServiceTicket demo_sha 6 6 "ST-t1" "https://wiki/" demo_validated with
  | (Ok _, _) => False | _ => True end.
Proof.
  apply (ticket_once demo_sha ∅ demo_tickets demo_validated demo_validated 5 5 6 6 "ST-t1"
           "https://wiki/" "https://wiki/" (mkTicket "ada" "acme")).
  - reflexivity.
  - apply rtc_once, (ticket_issue demo_sha 0 0 "t1" ServiceTicket "ada" "acme" "https://wiki/" 10).
    intros (id & m & Hm & _). discriminate.
  - apply run_result. vm_compute. reflexivity.
  - constructor.
Defined.

Lemma request_once_witness :
  match take_request 6 6 "_r1" demo_taken with (Ok _, _) => False | _ => True end.
Proof.
  apply (request_once ∅ demo_requests demo_taken demo_taken 5 5 6 6 "_r1"
           (mkPending "_r1" "https://sp" "https://sp/acs" None)).
  - reflexivity.
  - apply rtc_once, (request_store 300 0 0 (mkPending "_r1" "https://sp" "https://sp/acs" None)).
    intros (id & m & Hm & _). discriminate.
  - apply run_result. vm_compute. reflexivity.
  - constructor.
Defined.
