(* ===== verification/RefreshTokens.v ===== *)
(** * Refresh tokens and their families

    Models src/oidc/tokens/refresh_token_store.cpp on the database interface of
    EntityHost: issuing, rotation with reuse detection, revocation of one token
    and of a whole family.  Clock readings and random tokens are arguments. *)

From stdpp Require Import relations.
From S2P Require Import Prelude CxxString CxxStd Store Json EntityHost OneTime.

Open Scope string_scope.

Record RefreshTokenRequest := mkRefreshRequest {
  rr_clientId : string; rr_userId : string; rr_tenantId : string; rr_scope : string;
  rr_familyId : string;            (* empty: start a new family *)
  rr_parentId : option string;
}.

Record RotatedRefreshToken := mkRotated {
  rt_tokenId : string; rt_clientId : string; rt_userId : string; rt_tenantId : string;
  rt_scope : string; rt_familyId : string;
}.

Section Tokens.
Context {W : Type} `{!Host W} (sha256_hex : string -> string).

Abbreviation kToken := "RefreshToken".

(** [RefreshTokenStore::issue]; [newFamily] is the identifier drawn when the
    request names no family. *)
Definition issue_refresh (now1 now2 ttlSeconds : Z) (rawToken newFamily : string)
    (req : RefreshTokenRequest) : Op W string :=
  let familyId := if is_empty (rr_familyId req) then newFamily else rr_familyId req in
  let data := object [
    ("tokenHash", JString (sha256_hex rawToken)); ("familyId", JString familyId);
    ("clientId", JString (rr_clientId req)); ("userId", JString (rr_userId req));
    ("tenantId", JString (rr_tenantId req)); ("scope", JString (rr_scope req));
    ("parentId", or_null (rr_parentId req)); ("revokedAt", JNull);
    ("expiresAt", JInt (now1 + ttlSeconds)); ("createdAt", JInt now2)] in
  _ ← createEntity kToken data; mret rawToken.

(** The loop of [revokeFamily]: a failed update is logged and the loop goes on. *)
Fixpoint revoke_rows (now : Z) (items : list json) : Op W unit :=
  match items with
  | [] => mret tt
  | row :: rest =>
      if is_set row "revokedAt" then revoke_rows now rest
      else
        id ← of_result (value_string row "id" "");
        if is_empty id then revoke_rows now rest
        else fun w =>
          match updateEntity kToken id (object [("revokedAt", JInt now)]) w with
          | (Ok _, w') | (Err _, w') => revoke_rows now rest w'
          | (r, w') => (recast r, w')
          end
  end.

Definition revokeFamily (now : Z) (familyId : string) : Op W unit := fun w =>
  match listEntities kToken (by_column "familyId" familyId 1000) w with
  | (Ok items, w') => revoke_rows now items w'
  | (Err _, w') => (Ok tt, w')
  | (r, w') => (recast r, w')
  end.

Definition reuse_error : Error :=
  validationError "invalid_grant: refresh token reuse detected — token family revoked".

Definition rotate (now1 now2 : Z) (rawToken clientIdHint : string) : Op W RotatedRefreshToken :=
  items ← listEntities kToken (by_column "tokenHash" (sha256_hex rawToken) 1);
  match items with
  | [] => fail (notFound "invalid_grant: refresh token not found")
  | row :: _ =>
      id ← of_result (value_string row "id" "");
      familyId ← of_result (value_string row "familyId" "");
      storedClientId ← of_result (value_string row "clientId" "");
      expiresAt ← of_result (value_int64 row "expiresAt" 0);
      reject_if (negb (String.eqb storedClientId clientIdHint))
        (validationError "invalid_grant: client_id mismatch");;
      if is_set row "revokedAt" then revokeFamily now1 familyId;; fail reuse_error
      else
        reject_if (expiresAt <=? now1)%Z (validationError "invalid_grant: refresh token expired");;
        mark kToken id "revokedAt" now2;;
        userId ← of_result (value_string row "userId" "");
        tenantId ← of_result (value_string row "tenantId" "");
        scope ← of_result (value_string row "scope" "");
        mret (mkRotated id storedClientId userId tenantId scope familyId)
  end.

Definition revoke (now : Z) (rawToken : string) : Op W bool :=
  items ← listEntities kToken (by_column "tokenHash" (sha256_hex rawToken) 1);
  match items with
  | [] => mret true
  | row :: _ =>
      if is_set row "revokedAt" then mret true
      else
        id ← of_result (value_string row "id" "");
        mark kToken id "revokedAt" now;;
        mret true
  end.
End Tokens.

(** ** Families *)

Section Families.
Context {W : Type} `{!Host W} `{!EntityDb W} (sha256_hex : string -> string).

Abbreviation tokens w := (rows w "RefreshToken").

(** Rows of the family [f]. *)
Definition in_family (f : string) (m : members) : Prop := string_member (JObject m) "familyId" = Some f.

(** Every listed row that was not revoked becomes so, the others keep their
    family and whatever mark they have. *)
Definition revoking (now : Z) (t t' : table) : Prop :=
  forall id, match t !! id, t' !! id with
  | Some m, Some m' => m' = m \/ patched [("revokedAt", JInt now)] m m'
  | None, None => True
  | _, _ => False
  end.

Lemma revoking_refl now t : revoking now t t.
Proof. intros id. destruct (t !! id); auto. Qed.

Lemma patched_twice k v m m' m'' : patched [(k, v)] m m' -> patched [(k, v)] m' m'' -> patched [(k, v)] m m''.
Proof.
  intros H1 H2 k'. rewrite (H2 k'), (H1 k'). cbn [obj_get]. by destruct (String.eqb k' k).
Qed.

Lemma revoking_trans now t1 t2 t3 : revoking now t1 t2 -> revoking now t2 t3 -> revoking now t1 t3.
Proof.
  intros H12 H23 id. specialize (H12 id). specialize (H23 id).
  destruct (t1 !! id), (t2 !! id), (t3 !! id); try done.
  destruct H12 as [->|H12]; [done|]. destruct H23 as [->|H23]; [by right|].
  right. by eapply patched_twice.
Qed.

(** The database answers: listings succeed, and so do updates of rows there are. *)
Definition reliable : Prop :=
  (forall e opts w, isOk (listEntities e opts w).1 = true) /\
  (forall e id patch w, is_Some (rows w e !! id) ->
     isOk (updateEntity e id (JObject patch) w).1 = true).

(** Rows as the loop meets them: what was listed, possibly revoked since. *)
Lemma revoke_rows_run now items w :
  reliable ->
  (forall r, r ∈ items -> exists id m, r = JObject m /\ tokens w !! id = Some m /\
    obj_get "id" m = Some (JString id) /\ id <> "") ->
  NoDup items ->
  exists w', revoke_rows now items w = (Ok tt, w') /\ (forall e, e <> "RefreshToken" -> rows w' e = rows w e) /\
    revoking now (tokens w) (tokens w') /\
    (forall id m, tokens w !! id = Some m -> JObject m ∉ items -> tokens w' !! id = Some m) /\
    (forall id m, tokens w !! id = Some m -> JObject m ∈ items ->
      exists m', tokens w' !! id = Some m' /\ is_set (JObject m') "revokedAt" = true).
Proof.
  intros [_ Hup]. revert w; induction items as [|r items IH]; intros w Hin Hnd.
  { exists w. split; [done|]. split; [done|]. split; [apply revoking_refl|]. split; [done|].
    intros id m _ H. by apply elem_of_nil in H. }
  apply NoDup_cons in Hnd as [Hr Hnd].
  destruct (Hin r (list_elem_of_here _ _)) as (id & m & -> & Hm & Hid & Hne).
  cbn [revoke_rows]. destruct (is_set (JObject m) "revokedAt") eqn:Hset.
  { destruct (IH w) as (w' & Hrun & Hother & Hrev & Hkeep & Hdone); [|done|].
    { intros r Hr'. apply Hin. by apply list_elem_of_further. }
    exists w'. split; [done|]. split; [done|]. split; [done|]. split.
    - intros id' m' Hm' Hnot. apply Hkeep; [done|]. intros H. apply Hnot. by apply list_elem_of_further.
    - intros id' m' Hm' [Heq|Hin']%elem_of_cons; [|by eapply Hdone].
      injection Heq as ->. exists m. split; [|done]. by apply Hkeep. }
  assert (value_string (JObject m) "id" "" = Ok id) as -> by (unfold value_string; by rewrite Hid).
  unfold of_result at 1, mbind, Op_bind. apply is_empty_false in Hne. rewrite Hne.
  pose proof (db_update w "RefreshToken" id [("revokedAt", JInt now)] eq_refl) as H.
  specialize (Hup "RefreshToken" id [("revokedAt", JInt now)] w (mk_is_Some _ _ Hm)).
  change (JObject [("revokedAt", JInt now)]) with (object [("revokedAt", JInt now)]) in *.
  destruct (updateEntity "RefreshToken" id (object [("revokedAt", JInt now)]) w) as [[row|e|x|] w1]; try done.
  destruct H as ((m0 & m1 & Hm0 & Hp & Ht) & Hother1). rewrite Hm in Hm0. injection Hm0 as <-.
  assert (revoking now (tokens w) (tokens w1)) as Hrev1.
  { intros i. rewrite Ht. destruct (decide (i = id)) as [->|Hi].
    - rewrite lookup_insert_eq, Hm. by right.
    - rewrite lookup_insert_ne by done. destruct (tokens w !! i); auto. }
  assert (forall r, r ∈ items -> exists id' m', r = JObject m' /\ tokens w1 !! id' = Some m' /\
    obj_get "id" m' = Some (JString id') /\ id' <> "" /\ id' <> id) as Hin1.
  { intros r Hr'. destruct (Hin r) as (id' & m' & -> & Hm' & Hid' & Hne'); [by apply list_elem_of_further|].
    exists id', m'. assert (id' <> id) as Hii by (intros ->; congruence).
    rewrite Ht, lookup_insert_ne by done. done. }
  destruct (IH w1) as (w' & Hrun & Hother & Hrev & Hkeep & Hdone); [|done|].
  { intros r Hr'. destruct (Hin1 r Hr') as (id' & m' & ? & ? & ? & ? & _). by exists id', m'. }
  exists w'. split; [done|]. split; [intros e He; by rewrite Hother, Hother1|].
  split; [by eapply revoking_trans|]. split.
  - intros id' m' Hm' Hnot. apply not_elem_of_cons in Hnot as [Hn1 Hn2].
    apply Hkeep; [|done]. rewrite Ht, lookup_insert_ne; [done|]. intros <-. congruence.
  - intros id' m' Hm' [Heq|Hin']%elem_of_cons.
    + injection Heq as ->. destruct (db_ids _ _ _ _ Hm') as [Hid'' _]. rewrite Hid in Hid''.
      injection Hid'' as <-. specialize (Hrev id). rewrite Ht, lookup_insert_eq in Hrev.
      destruct (tokens w' !! id) as [m2|] eqn:Hm2; [|done]. exists m2. split; [done|].
      destruct Hrev as [->|Hp2]; by eapply patched_set.
    + destruct (Hin1 _ Hin') as (id2 & m2 & [= <-] & Hm2 & Hid2 & _).
      destruct (db_ids _ _ _ _ Hm') as [Hid'' _]. rewrite Hid2 in Hid''. injection Hid'' as ->.
      by eapply Hdone.
Qed.

(** The token row a rotation finds. *)
Definition token_row (w : W) (rawToken : string) (id : string) (m : members) : Prop :=
  tokens w !! id = Some m /\ carries "tokenHash" (sha256_hex rawToken) m.

Lemma revokeFamily_run now f w :
  reliable -> (Z.of_nat (base.size (tokens w)) <= 1000)%Z ->
  exists w', revokeFamily now f w = (Ok tt, w') /\ (forall e, e <> "RefreshToken" -> rows w' e = rows w e) /\
    forall id m, tokens w !! id = Some m ->
      (in_family f m -> exists m', tokens w' !! id = Some m' /\ is_set (JObject m') "revokedAt" = true) /\
      (~ in_family f m -> tokens w' !! id = Some m).
Proof.
  intros Hrel Hsize. unfold revokeFamily.
  pose proof (find_all "RefreshToken" "familyId" f 1000 w ltac:(done) Hsize) as H.
  pose proof (proj1 Hrel "RefreshToken" (by_column "familyId" f 1000) w) as Hok.
  destruct (listEntities _ _ w) as [[items|e|x|] w1]; try done. destruct H as (Hsame & Hnd & Hitems).
  destruct (revoke_rows_run now items w1 Hrel) as (w' & -> & Hother & _ & Hkeep & Hdone); [|done|].
  { intros r (id & m & -> & Hm & _)%Hitems. rewrite <- Hsame in Hm.
    exists id, m. destruct (db_ids _ _ _ _ Hm). done. }
  exists w'. split; [done|]. split; [intros e He; by rewrite Hother, Hsame|].
  intros id m Hm. rewrite <- Hsame in Hm. split.
  - intros Hf. apply (Hdone id m Hm), Hitems. exists id, m. by rewrite <- Hsame.
  - intros Hf. apply Hkeep; [done|]. intros (id' & m' & [= <-] & _ & Hf')%Hitems. by apply Hf.
Qed.

(** The row and the answer of a rotation that succeeds. *)
Definition token_good (now : Z) (clientIdHint : string) (id : string) (m : members)
    (r : RotatedRefreshToken) : Prop :=
  rt_tokenId r = id /\ rt_clientId r = clientIdHint /\
  value_string (JObject m) "clientId" "" = Ok clientIdHint /\
  is_set (JObject m) "revokedAt" = false /\
  (exists t, value_int64 (JObject m) "expiresAt" 0 = Ok t /\ (now < t)%Z) /\
  value_string (JObject m) "userId" "" = Ok (rt_userId r) /\
  value_string (JObject m) "tenantId" "" = Ok (rt_tenantId r) /\
  value_string (JObject m) "scope" "" = Ok (rt_scope r) /\
  value_string (JObject m) "familyId" "" = Ok (rt_familyId r).

Lemma mark_inv entity col key v id m n (w w1 w2 : W) u :
  col <> "id" -> rows w entity !! id = Some m -> carries key v m -> (forall e, rows w1 e = rows w e) ->
  mark entity id col n w1 = (Ok u, w2) -> marked entity key col v id m n w w2.
Proof.
  intros Hcol Hm Hc Hs Hrun.
  pose proof (consumes_mark entity key col v n (fun id' m' (_ : unit) => id' = id /\ m' = m) w w1 id m
                (mret tt) Hcol Hm Hc Hs (pure_ret tt) (fun _ _ _ => conj eq_refl eq_refl)) as Hk.
  rewrite (run_bind_ok _ _ _ _ _ Hrun) in Hk. by destruct Hk as (? & ? & Hk & -> & ->).
Qed.

Lemma rotate_ok now1 now2 raw client w r w' :
  rotate sha256_hex now1 now2 raw client w = (Ok r, w') ->
  exists id m, marked "RefreshToken" "tokenHash" "revokedAt" (sha256_hex raw) id m now2 w w' /\
    token_good now1 client id m r.
Proof.
  intros Hrun. unfold rotate in Hrun. apply run_bind_inv in Hrun as (items & w1 & Hl & Hrun).
  pose proof (find_one "RefreshToken" "tokenHash" (sha256_hex raw) w) as Hf. rewrite Hl in Hf.
  destruct items as [|row items]; [done|]. destruct Hf as (Hs & id & m & -> & Hm & Hc & Hid & _).
  assert (value_string (JObject m) "id" "" = Ok id) as Hv by (unfold value_string; by rewrite Hid).
  rewrite Hv in Hrun. run_steps Hrun.
  destruct (is_set (JObject m) "revokedAt") eqn:Hset; [by apply run_bind_inv in Hrun as (? & ? & _ & Hrun)|].
  apply run_reject_inv in Hrun as [Hexp Hrun]. apply run_bind_inv in Hrun as (u & w2 & Hmark & Hrun).
  run_steps Hrun. injection Hrun as <- <-. boolify. simplify_eq.
  eexists _, m. split; [by eapply mark_inv|]. split_and!; try done. by eexists.
Qed.

(** C9. Presenting a refresh token a second time revokes its family.  If the row
    of the token is already revoked, the presenting client is its client and the
    database answers, the rotation is refused and afterwards every token of the
    family is revoked, while the tokens of other families and all other tables
    are as they were.  (The family listing holds 1000 rows: the statement is for
    tables of at most that many.) *)
Theorem reuse_revokes_family now1 now2 rawToken client w id m f expires :
  reliable -> (Z.of_nat (base.size (tokens w)) <= 1000)%Z ->
  keys_unique "tokenHash" (tokens w) -> token_row w rawToken id m ->
  string_member (JObject m) "clientId" = Some client -> in_family f m ->
  value_int64 (JObject m) "expiresAt" 0 = Ok expires -> is_set (JObject m) "revokedAt" = true ->
  exists w', rotate sha256_hex now1 now2 rawToken client w = (Err reuse_error, w') /\
    (forall e, e <> "RefreshToken" -> rows w' e = rows w e) /\
    forall id m, tokens w !! id = Some m ->
      (in_family f m -> exists m', tokens w' !! id = Some m' /\ is_set (JObject m') "revokedAt" = true) /\
      (~ in_family f m -> tokens w' !! id = Some m).
Proof.
  intros Hrel Hsize Hu [Hm Hc] Hclient Hf Hexp Hset.
  unfold rotate. unfold mbind at 1, Op_bind at 1.
  pose proof (find_one "RefreshToken" "tokenHash" (sha256_hex rawToken) w) as H.
  pose proof (proj1 Hrel "RefreshToken" (by_column "tokenHash" (sha256_hex rawToken) 1) w) as Hok.
  destruct (listEntities _ _ w) as [[items|e|x|] w1]; try done.
  destruct items as [|row items]; [by destruct H as [_ H]; destruct (H id m Hm)|].
  destruct H as (Hsame & id' & m' & -> & Hm' & Hc' & Hid & _).
  assert (id' = id) as -> by (by eapply Hu). rewrite Hm in Hm'. injection Hm' as <-.
  assert (value_string (JObject m) "id" "" = Ok id) as -> by (unfold value_string; by rewrite Hid).
  unfold in_family in Hf. pose proof Hf as Hf'. apply string_member_get in Hclient, Hf'.
  assert (value_string (JObject m) "familyId" "" = Ok f) as -> by (unfold value_string; by rewrite Hf').
  assert (value_string (JObject m) "clientId" "" = Ok client) as -> by (unfold value_string; by rewrite Hclient).
  rewrite Hexp. unfold of_result, mbind, Op_bind. rewrite String.eqb_refl. cbn [negb]. unfold reject_if.
  rewrite Hset. destruct (revokeFamily_run now1 f w1 Hrel) as (w' & -> & Hother & Hrows).
  { by rewrite Hsame. }
  exists w'. split; [done|]. split; [intros e He; by rewrite Hother, Hsame|].
  intros i mi Hi. apply Hrows. by rewrite Hsame.
Qed.
End Families.

(** ** A run on the database in memory *)

#[local] Existing Instance table_db.
#[local] Existing Instance table_laws.

Lemma table_db_reliable : reliable (W := TableDb).
Proof.
  split; [done|]. intros e id patch db [m Hm]. cbn in *. by rewrite Hm.
Qed.

(** No two entries agree on the key: a check that computes. *)
Definition distinct_keys (key : string) (t : table) : Prop :=
  map_Forall (fun id1 m1 => map_Forall (fun id2 m2 =>
    id1 = id2 \/ string_member (JObject m1) key = None \/
    string_member (JObject m1) key <> string_member (JObject m2) key) t) t.
#[export] Instance distinct_keys_dec key t : Decision (distinct_keys key t).
Proof. unfold distinct_keys. apply _. Defined.

Lemma distinct_keys_unique key t : distinct_keys key t -> keys_unique key t.
Proof.
  intros Ht id1 id2 m1 m2 v H1 H2 Hc1 Hc2. unfold carries in *.
  destruct (Ht id1 m1 H1 id2 m2 H2) as [?|[?|?]]; [done|congruence|congruence].
Qed.

Definition demo_family (parent : option string) : RefreshTokenRequest :=
  mkRefreshRequest "app" "ada" "acme" "openid" "f" parent.
(** A token is issued and rotated, and its successor issued; an unrelated one too. *)
Definition demo_tokens : TableDb :=
  let w1 := (issue_refresh demo_sha 0 0 1000 "t1" "" (demo_family None) (∅ : TableDb)).2 in
  let w2 := (rotate demo_sha 10 10 "t1" "app" w1).2 in
  let w3 := (issue_refresh demo_sha 10 10 1000 "t2" "" (demo_family (Some "0")) w2).2 in
  (issue_refresh demo_sha 11 11 1000 "u1" "g" (mkRefreshRequest "app" "bob" "acme" "openid" "" None) w3).2.
Definition demo_row : members := build [
  ("tokenHash", JString "#t1"); ("familyId", JString "f"); ("clientId", JString "app");
  ("userId", JString "ada"); ("tenantId", JString "acme"); ("scope", JString "openid");
  ("parentId", JNull); ("revokedAt", JInt 10); ("expiresAt", JInt 1000); ("createdAt", JInt 0);
  ("id", JString "0")].

Lemma reuse_revokes_family_witness :
  exists w', rotate demo_sha 20 20 "t1" "app" demo_tokens = (Err reuse_error, w') /\
    exists m', rows w' "RefreshToken" !! "00" = Some m' /\ is_set (JObject m') "revokedAt" = true.
Proof.
  assert (forall m, rows demo_tokens "RefreshToken" !! "00" = Some m -> in_family "f" m -> exists w',
    rotate demo_sha 20 20 "t1" "app" demo_tokens = (Err reuse_error, w') /\
    exists m', rows w' "RefreshToken" !! "00" = Some m' /\ is_set (JObject m') "revokedAt" = true) as Hgo.
  { intros m Hm Hf.
    destruct (reuse_revokes_family demo_sha 20 20 "t1" "app" demo_tokens "0" demo_row "f" 1000)
      as (w' & Hr & _ & Hall).
    - exact table_db_reliable.
    - apply Z.leb_le. vm_compute. reflexivity.
    - apply distinct_keys_unique, (bool_decide_unpack _). vm_compute. exact I.
    - split; vm_compute; reflexivity.
    - vm_compute. reflexivity.
    - vm_compute. reflexivity.
    - vm_compute. reflexivity.
    - vm_compute. reflexivity.
    - exists w'. split; [exact Hr|]. by apply (proj1 (Hall "00" m Hm)). }
  eapply Hgo; vm_compute; reflexivity.
Defined.
