(* ===== verification/BlobMemory.v ===== *)
(** * The in-memory blob store

    Models src/blob/memory_storage.hpp and the operations under
    src/blob/memory/: upload, download of a whole blob or of a range, deletion,
    copies, listings with a prefix, statistics.  The store is the [std::map] of
    the class; a [vector<char>] is a byte string; [size_t] is 64 bits wide.  The
    clock and [std::hash] are arguments. *)

From S2P Require Import Prelude CxxString CxxStd Uuid.

Open Scope string_scope.

(** ** Data *)

Record BlobData := mkBlob {
  b_data : string; b_content_type : string; b_etag : string;
  b_last_modified : Z; b_metadata : gmap string string;
}.
#[export] Instance BlobData_fields : Fields BlobData := fun b =>
  mkBlob (b_data b) (b_content_type b) (b_etag b) (b_last_modified b) (b_metadata b).

Record BlobMetadata := mkBlobMeta {
  bm_key : string; bm_size : Z; bm_content_type : string; bm_etag : string;
  bm_last_modified : Z; bm_custom_metadata : gmap string string;
}.

Record BlobListResult := mkBlobList {
  bl_items : list BlobMetadata; bl_next_token : option string; bl_is_truncated : bool;
}.

Record UploadOptions := mkUpload {
  up_content_type : option string; up_metadata : gmap string string; up_overwrite : bool;
}.
Record DownloadOptions := mkDownload { dl_offset : option Z; dl_length : option Z }.
Record BlobListOptions := mkBlobListOptions {
  lo_prefix : option string; lo_continuation_token : option string; lo_max_keys : Z;
}.

Abbreviation blobs := (gmap string BlobData).

(** Arithmetic of [size_t]. *)
Definition SIZE_MAX : Z := 2 ^ 64 - 1.
Definition size_sub (a b : Z) : Z := ((a - b) mod 2 ^ 64)%Z.
Definition in_size (z : Z) : Prop := (0 <= z <= SIZE_MAX)%Z.

(** ** Operations *)

Section Operations.
Context (hash : string -> Z).

(** [snprintf(buffer, 32, "\"%016zx\"", hash)] *)
Definition generate_etag (data : string) : string :=
  String "034" (hex 16 (mask64 (hash data)) +:+ String "034" "").

Definition make_blob_metadata (key : string) (blob : BlobData) : BlobMetadata :=
  mkBlobMeta key (size (b_data blob)) (b_content_type blob) (b_etag blob)
    (b_last_modified blob) (b_metadata blob).

Definition memory_upload (now : Z) (key data : string) (options : UploadOptions) :
    Op blobs BlobMetadata :=
  store ← gets id;
  reject_if (negb (up_overwrite options) && has_key store key) (conflict ("Blob already exists: " +:+ key));;
  let blob := mkBlob data (default "application/octet-stream" (up_content_type options))
                (generate_etag data) now (up_metadata options) in
  modify (fun store => <[key := blob]> store);;
  mret (make_blob_metadata key blob).

(** [uploadStream]: the vector is reserved, never filled, and the callback never
    called. *)
Definition uploadStream (now : Z) (key : string) (read_callback : string) (n : Z)
    (options : UploadOptions) : Op blobs BlobMetadata := memory_upload now key "" options.

Definition memory_download (key : string) (options : DownloadOptions) : Op blobs string :=
  blob ← find_or id key (notFound ("Blob not found: " +:+ key));
  let data := b_data blob in
  match dl_offset options, dl_length options with
  | None, None => mret data
  | o, l =>
      let offset := default 0%Z o in
      let length := default (size_sub (size data) offset) l in
      reject_if (size data <=? offset)%Z (validationError "Offset exceeds blob size");;
      let length := Z.min length (size_sub (size data) offset) in
      mret (string_take (Z.to_nat length) (string_drop (Z.to_nat offset) data))
  end.

(** [downloadStream]: the pieces handed to the callback. *)
Definition downloadStream (key : string) (options : DownloadOptions) : Op blobs (list string) :=
  data ← memory_download key options;
  mret (if is_empty data then [] else [data]).

Definition memory_delete (key : string) : Op blobs bool :=
  _ ← find_or id key (notFound ("Blob not found: " +:+ key));
  modify (fun store => delete key store);;
  mret true.

Definition memory_exists (key : string) : Op blobs bool := gets (fun store => has_key store key).

Definition memory_get_metadata (key : string) : Op blobs BlobMetadata :=
  blob ← find_or id key (notFound ("Blob not found: " +:+ key));
  mret (make_blob_metadata key blob).

(** [key.find(prefix) == 0] *)
Definition starts_with (key prefix : string) : bool :=
  match String.index 0 prefix key with Some 0 => true | _ => false end.

(** The loop of [memory_list] over the entries that are left. *)
Fixpoint memory_list_loop (prefix : string) (max_keys : Z) (store : list (string * BlobData))
    (items : list BlobMetadata) : BlobListResult :=
  match store with
  | [] => mkBlobList items None false
  | (key, blob) :: rest =>
      if is_empty prefix || starts_with key prefix then
        if (max_keys <=? Z.of_nat (length items))%Z then mkBlobList items (Some key) true
        else memory_list_loop prefix max_keys rest (items ++ [make_blob_metadata key blob])
      else memory_list_loop prefix max_keys rest items
  end.

Definition memory_list (options : BlobListOptions) : Op blobs BlobListResult :=
  gets (fun store =>
    memory_list_loop (default "" (lo_prefix options)) (lo_max_keys options) (map_items store) []).

Definition memory_copy (now : Z) (source_key dest_key : string) : Op blobs BlobMetadata :=
  blob ← find_or id source_key (notFound ("Source blob not found: " +:+ source_key));
  let copy := blob <| b_last_modified := now |> in
  modify (fun store => <[dest_key := copy]> store);;
  mret (make_blob_metadata dest_key copy).

Definition memory_total_size : Op blobs Z :=
  gets (fun store => foldl (fun total kv => (total + size (b_data kv.2)) mod 2 ^ 64)%Z 0%Z (map_items store)).
Definition memory_object_count : Op blobs Z := gets (fun store => Z.of_nat (base.size store)).
End Operations.

(** The steps of an operation, laid open. *)
Ltac unfold_run := unfold find_or, gets, reject_if, modify, mret, Op_ret, mbind, Op_bind.

(** ** What a store of blobs promises *)

Definition contents (store : blobs) : gmap string string := b_data <$> store.

Lemma contents_lookup store key : contents store !! key = b_data <$> store !! key.
Proof. apply lookup_fmap. Qed.

Inductive blob_call :=
  | Upload (key data : string) (overwrite : bool)
  | Download (key : string) (offset length : option Z)
  | Delete (key : string)
  | Exists (key : string)
  | Copy (source_key dest_key : string)
  | Size_of (key : string)
  | DownloadStream (key : string) (offset length : option Z)
  | TotalSize
  | ObjectCount.

Inductive blob_answer := Stored (n : Z) | Bytes (data : string) | Yes (b : bool) | Pieces (l : list string).

(** The sum of the sizes of the values of a map, as a [size_t]. *)
Definition sum_of (l : list Z) : Z := foldr Z.add 0%Z l.
Definition total_size (m : gmap string string) : Z := (sum_of (size <$> (map_to_list m).*2) mod 2 ^ 64)%Z.

(** The bytes of a range: [None] when it starts past the end. *)
Definition slice (data : string) (offset length : option Z) : option string :=
  match offset, length with
  | None, None => Some data
  | _, _ =>
      let from := Z.to_nat (default 0%Z offset) in
      if (String.length data <=? from)%nat then None
      else Some (match length with
                 | None => string_drop from data
                 | Some l => string_take (Z.to_nat l) (string_drop from data)
                 end)
  end.

(** The specification: a map from keys to byte strings. *)
Definition spec_call (c : blob_call) (m : gmap string string) :
    Result blob_answer * gmap string string :=
  match c with
  | Upload key data overwrite =>
      match m !! key with
      | Some _ => if overwrite then (Ok (Stored (size data)), <[key := data]> m)
                  else (Err (conflict ("Blob already exists: " +:+ key)), m)
      | None => (Ok (Stored (size data)), <[key := data]> m)
      end
  | Download key offset length =>
      match m !! key with
      | None => (Err (notFound ("Blob not found: " +:+ key)), m)
      | Some data =>
          match slice data offset length with
          | None => (Err (validationError "Offset exceeds blob size"), m)
          | Some part => (Ok (Bytes part), m)
          end
      end
  | Delete key =>
      match m !! key with
      | None => (Err (notFound ("Blob not found: " +:+ key)), m)
      | Some _ => (Ok (Yes true), delete key m)
      end
  | Exists key => (Ok (Yes (bool_decide (is_Some (m !! key)))), m)
  | Copy source dest =>
      match m !! source with
      | None => (Err (notFound ("Source blob not found: " +:+ source)), m)
      | Some data => (Ok (Stored (size data)), <[dest := data]> m)
      end
  | Size_of key =>
      match m !! key with
      | None => (Err (notFound ("Blob not found: " +:+ key)), m)
      | Some data => (Ok (Stored (size data)), m)
      end
  | DownloadStream key offset length =>
      match m !! key with
      | None => (Err (notFound ("Blob not found: " +:+ key)), m)
      | Some data =>
          match slice data offset length with
          | None => (Err (validationError "Offset exceeds blob size"), m)
          | Some part => (Ok (Pieces (if is_empty part then [] else [part])), m)
          end
      end
  | TotalSize => (Ok (Stored (total_size m)), m)
  | ObjectCount => (Ok (Stored (Z.of_nat (base.size m))), m)
  end.

(** The calls of the class. *)
Definition blob_perform (hash : string -> Z) (now : Z) (c : blob_call) : Op blobs blob_answer :=
  match c with
  | Upload key data overwrite =>
      meta ← memory_upload hash now key data (mkUpload None ∅ overwrite); mret (Stored (bm_size meta))
  | Download key offset length => data ← memory_download key (mkDownload offset length); mret (Bytes data)
  | Delete key => b ← memory_delete key; mret (Yes b)
  | Exists key => b ← memory_exists key; mret (Yes b)
  | Copy source dest => meta ← memory_copy now source dest; mret (Stored (bm_size meta))
  | Size_of key => meta ← memory_get_metadata key; mret (Stored (bm_size meta))
  | DownloadStream key offset length => l ← downloadStream key (mkDownload offset length); mret (Pieces l)
  | TotalSize => n ← memory_total_size; mret (Stored n)
  | ObjectCount => n ← memory_object_count; mret (Stored n)
  end.

(** Arguments of type [size_t], and blobs that fit in memory. *)
Definition call_in_range (c : blob_call) (store : blobs) : Prop :=
  match c with
  | Download key offset length | DownloadStream key offset length =>
      (forall o, offset = Some o -> in_size o) /\ (forall l, length = Some l -> in_size l) /\
      (forall blob, store !! key = Some blob -> in_size (size (b_data blob)))
  | _ => True
  end.

Lemma size_sub_exact a b : in_size a -> (0 <= b <= a)%Z -> size_sub a b = (a - b)%Z.
Proof. unfold in_size, SIZE_MAX, size_sub. intros Ha Hb. apply Z.mod_small. lia. Qed.

(** The two [size_t] subtractions do not matter: a download is the slice. *)
Lemma memory_download_slice key offset length store blob :
  call_in_range (Download key offset length) store -> store !! key = Some blob ->
  memory_download key (mkDownload offset length) store =
    (match slice (b_data blob) offset length with
     | Some part => Ok part | None => Err (validationError "Offset exceeds blob size") end, store).
Proof.
  intros (Ho & Hl & Hd) Hb. unfold memory_download. rewrite run_find. cbn [id]. rewrite Hb. specialize (Hd blob Hb).
  set (data := b_data blob) in *. cbn [dl_offset dl_length].
  assert (forall o l, default 0%Z offset = o -> in_size o ->
    (forall l', l = Some l' -> in_size l') ->
    (reject_if (size data <=? o)%Z (validationError "Offset exceeds blob size");;
     mret (string_take (Z.to_nat (Z.min (default (size_sub (size data) o) l) (size_sub (size data) o)))
             (string_drop (Z.to_nat o) data)) : Op blobs string) store =
    (if (String.length data <=? Z.to_nat o)%nat then Err (validationError "Offset exceeds blob size")
     else Ok (match l with None => string_drop (Z.to_nat o) data
              | Some l => string_take (Z.to_nat l) (string_drop (Z.to_nat o) data) end), store)) as Hgo.
  { intros o l _ Hin Hlin. rewrite run_reject. unfold in_size in Hin.
    destruct (Nat.leb_spec (String.length data) (Z.to_nat o)) as [Hle|Hlt].
    - rewrite (proj2 (Z.leb_le _ _)) by (unfold size; lia). done.
    - assert (o < size data)%Z as Hos by (unfold size; lia).
      rewrite (proj2 (Z.leb_gt _ _)) by done. rewrite size_sub_exact by (done || lia).
      assert (Z.of_nat (String.length (string_drop (Z.to_nat o) data)) = size data - o)%Z as Hlen
        by (rewrite string_drop_length; unfold size; lia).
      unfold mret, Op_ret. f_equal. f_equal. destruct l as [l|]; cbn [from_option id].
      + specialize (Hlin l eq_refl). unfold in_size in Hlin.
        destruct (Z.le_gt_cases l (size data - o)) as [Hc|Hc].
        * by rewrite Z.min_l.
        * rewrite Z.min_r by lia. rewrite !string_take_all by lia. done.
      + rewrite Z.min_id. apply string_take_all. lia. }
  assert (in_size (default 0%Z offset)) as H0.
  { destruct offset as [o|]; [by apply Ho|]. unfold in_size, SIZE_MAX. cbn. lia. }
  unfold slice. destruct offset as [o|], length as [l|].
  - etransitivity; [apply (Hgo o (Some l) eq_refl H0); auto|]. cbn [from_option id]. by destruct (_ <=? _)%nat.
  - etransitivity; [apply (Hgo o None eq_refl H0); done|]. cbn [from_option id]. by destruct (_ <=? _)%nat.
  - etransitivity; [apply (Hgo 0%Z (Some l) eq_refl H0); auto|]. cbn [from_option id]. by destruct (_ <=? _)%nat.
  - done.
Qed.

(** The total is summed along the map, each step in [size_t]. *)
Lemma foldl_size_mod {A} (f : A -> Z) l t :
  (foldl (fun total x => (total + f x) mod 2 ^ 64) t l mod 2 ^ 64 = (t + sum_of (f <$> l)) mod 2 ^ 64)%Z.
Proof.
  unfold sum_of. revert t. induction l as [|x l IH]; intros t; cbn [foldl fmap list_fmap foldr]; [by rewrite Z.add_0_r|].
  rewrite IH, Z.add_mod_idemp_l by done. f_equal. lia.
Qed.
Lemma sum_of_perm l l' : l ≡ₚ l' -> sum_of l = sum_of l'.
Proof. unfold sum_of. induction 1; cbn; lia. Qed.
Lemma memory_total_size_exact store : memory_total_size store = (Ok (total_size (contents store)), store).
Proof.
  unfold memory_total_size, gets. f_equal. f_equal.
  set (f := fun kv : string * BlobData => size (b_data kv.2)).
  assert (forall l t, (0 <= t < 2 ^ 64)%Z ->
    (0 <= foldl (fun total kv => (total + f kv) mod 2 ^ 64) t l < 2 ^ 64)%Z) as Hrange.
  { induction l as [|kv l IH]; intros t Ht; [done|]. cbn [foldl]. apply IH, Z.mod_pos_bound. lia. }
  rewrite <- (Z.mod_small (foldl _ 0%Z _) (2 ^ 64)) by (apply Hrange; lia).
  rewrite (foldl_size_mod f), Z.add_0_l. unfold total_size, contents. f_equal. apply sum_of_perm.
  rewrite map_items_perm, map_to_list_fmap, <- !list_fmap_compose. done.
Qed.

(** C26. The in-memory blob store implements the map of byte strings.  Every call but
    uploadStream (which stores an empty blob: uploadStream_stores_nothing) and list
    (memory_list_spec) answers and changes the store as the specification says, errors
    included: upload, download, downloadStream, delete, exists, copy, the size in the
    metadata, getTotalSize (a sum in [size_t]) and getObjectCount; in particular a range
    download is the range, whatever the offset and length are as [size_t] values, and a
    copy or upload leaves every other blob alone. *)
Theorem memory_storage_refines hash now c store :
  call_in_range c store ->
  (blob_perform hash now c store).1 = (spec_call c (contents store)).1 /\
  contents (blob_perform hash now c store).2 = (spec_call c (contents store)).2.
Proof.
  intros Hc. unfold blob_perform, spec_call.
  destruct c as [key data ow|key offset length|key|key|source dest|key|key offset length| |]; rewrite ?contents_lookup.
  - unfold memory_upload, has_key. unfold_run. cbn [id]. destruct (store !! key) as [b|], ow; cbn;
      unfold contents; rewrite ?fmap_insert; done.
  - unfold_run. destruct (store !! key) as [blob|] eqn:Hb.
    + rewrite (memory_download_slice key offset length store blob Hc Hb). cbn.
      by destruct (slice (b_data blob) offset length).
    + unfold memory_download. unfold_run. cbn [id]. by rewrite Hb.
  - unfold memory_delete. unfold_run. cbn [id]. destruct (store !! key) as [b|]; cbn; unfold contents;
      by rewrite ?fmap_delete.
  - unfold memory_exists, has_key. unfold_run. by destruct (store !! key).
  - unfold memory_copy. unfold_run. cbn [id]. destruct (store !! source) as [b|]; cbn; unfold contents;
      by rewrite ?fmap_insert.
  - unfold memory_get_metadata. unfold_run. cbn [id]. by destruct (store !! key).
  - unfold downloadStream. unfold_run. destruct (store !! key) as [blob|] eqn:Hb.
    + rewrite (memory_download_slice key offset length store blob Hc Hb). cbn.
      by destruct (slice (b_data blob) offset length).
    + unfold memory_download. unfold_run. cbn [id]. by rewrite Hb.
  - unfold mbind, Op_bind. by rewrite memory_total_size_exact.
  - unfold memory_object_count, contents. unfold_run. by rewrite map_size_fmap.
Qed.

(** ** Listings *)

Lemma starts_with_spec key prefix : starts_with key prefix = true <-> exists t, key = prefix +:+ t.
Proof.
  unfold starts_with. revert key. induction prefix as [|c p IH]; intros [|d key].
  - cbn. split; [by exists ""|done].
  - cbn. split; [by eexists|done].
  - cbn. split; [done|]. intros [t Ht]. by autorewrite with dbal_str in Ht.
  - cbn [String.index]. destruct (String.prefix (String c p) (String d key)) eqn:Hp.
    + split; [|done]. intros _. cbn in Hp. destruct (ascii_dec c d) as [<-|]; [|done].
      assert (String.index 0 p key = Some 0) as Hi.
      { destruct p; [by destruct key|]. destruct key; [done|]. cbn in *. by rewrite Hp. }
      destruct (proj1 (IH key)) as [t ->]; [by rewrite Hi|]. by exists t.
    + split; [by destruct (String.index 0 (String c p) key)|]. intros [t Ht].
      autorewrite with dbal_str in Ht. injection Ht as -> ->. exfalso.
      cbn in Hp. destruct (ascii_dec c c); [|done].
      assert (String.prefix p (p +:+ t) = true) as Hpp; [|congruence].
      clear. induction p as [|c p IH]; autorewrite with dbal_str; [by destruct t|]. cbn.
      by destruct (ascii_dec c c).
Qed.

(** Entries whose key starts with the prefix, in the order of the map. *)
Definition with_prefix (prefix : string) (store : blobs) : list (string * BlobData) :=
  List.filter (fun kv => is_empty prefix || starts_with kv.1 prefix) (map_items store).
Definition metadata_of (kv : string * BlobData) : BlobMetadata := make_blob_metadata kv.1 kv.2.

Lemma memory_list_loop_spec prefix max_keys entries items :
  (Z.of_nat (length items) <= max_keys)%Z ->
  let found := List.filter (fun kv => is_empty prefix || starts_with kv.1 prefix) entries in
  let room := Z.to_nat max_keys - length items in
  memory_list_loop prefix max_keys entries items =
    mkBlobList (items ++ (metadata_of <$> take room found)) (fst <$> found !! room)
      (bool_decide (room < length found)).
Proof.
  revert items. induction entries as [|[key blob] entries IH]; intros items Hlen found room.
  - subst found. cbn. rewrite take_nil, app_nil_r. f_equal.
  - subst found. cbn [memory_list_loop List.filter fst]. destruct (is_empty prefix || starts_with key prefix) eqn:Hp.
    + destruct (Z.leb_spec max_keys (Z.of_nat (length items))) as [Hle|Hgt].
      * assert (room = 0) as -> by (subst room; lia). cbn. rewrite app_nil_r.
        f_equal.
      * rewrite IH by (rewrite length_app; cbn; lia). rewrite length_app.
        change (length [make_blob_metadata key blob]) with 1. subst room.
        destruct (Z.to_nat max_keys - length items) as [|n] eqn:Hn; [lia|].
        replace (Z.to_nat max_keys - (length items + 1)) with n by lia.
        rewrite <- app_assoc. cbn. f_equal. apply bool_decide_ext. lia.
    + rewrite IH by done. done.
Qed.

(** A listing shows the blobs whose key starts with the prefix, in key
    order, at most [max_keys] of them; it says it is truncated exactly when
    there are more, and then names the first key it left out. *)
Theorem memory_list_spec options store result store' :
  (0 <= lo_max_keys options)%Z -> memory_list options store = (Ok result, store') ->
  let found := with_prefix (default "" (lo_prefix options)) store in
  let n := Z.to_nat (lo_max_keys options) in
  store' = store /\ bl_items result = metadata_of <$> take n found /\
  (bl_is_truncated result = true <-> n < length found) /\
  bl_next_token result = fst <$> found !! n /\
  forall key blob, (key, blob) ∈ found <->
    store !! key = Some blob /\ exists t, key = default "" (lo_prefix options) +:+ t.
Proof.
  intros Hmax. unfold memory_list, gets. rewrite memory_list_loop_spec by done.
  intros [= <- <-]. cbn [bl_items bl_is_truncated bl_next_token app length]. rewrite Nat.sub_0_r.
  split; [done|]. split; [done|]. split; [apply bool_decide_eq_true|]. split; [done|].
  intros key blob. unfold with_prefix. rewrite list_elem_of_In, filter_In, <- list_elem_of_In.
  rewrite elem_of_map_items. cbn [fst]. rewrite orb_true_iff, starts_with_spec.
  split; [|naive_solver]. intros [Hk [Hp|Hp]]; [|done]. split; [done|].
  apply is_empty_true in Hp as ->. by exists key.
Qed.

(** The continuation token is not read: asking for what follows a truncated
    listing answers the same listing again, so a caller that follows
    [next_token] never gets past the first [max_keys] blobs. *)
Theorem memory_list_ignores_token options token store :
  memory_list (mkBlobListOptions (lo_prefix options) token (lo_max_keys options)) store =
  memory_list options store.
Proof. done. Qed.

(** A streamed upload drops the stream: the blob it stores is empty,
    whatever the callback would have delivered. *)
Theorem uploadStream_stores_nothing hash now key stream n options store meta store' :
  uploadStream hash now key stream n options store = (Ok meta, store') ->
  bm_size meta = 0%Z /\ (memory_download key (mkDownload None None) store').1 = Ok "".
Proof.
  unfold uploadStream, memory_upload. rewrite run_gets, run_reject.
  destruct (negb _ && _); [done|]. rewrite run_modify. cbn [mret Op_ret]. intros [= <- <-].
  split; [done|]. unfold memory_download. rewrite run_find. cbn [id]. by rewrite lookup_insert_eq.
Qed.

(** ** A store with three blobs *)

Definition demo_hash (s : string) : Z := size s.
Definition demo_blobs : blobs :=
  ((_ ← memory_upload demo_hash 1 "img/a" "hello" (mkUpload (Some "text/plain") ∅ true);
   _ ← memory_upload demo_hash 2 "img/b" "world" (mkUpload None ∅ true);
   memory_copy 3 "img/a" "doc/a") (∅ : blobs)).2.

Lemma memory_storage_refines_witness :
  (memory_download "img/a" (mkDownload (Some 1%Z) (Some 100%Z)) demo_blobs).1 = Ok "ello" /\
  (blob_perform demo_hash 9 (Download "img/a" (Some 1%Z) (Some 100%Z)) demo_blobs).1 =
    Ok (Bytes "ello").
Proof.
  split; [vm_compute; reflexivity|].
  assert (call_in_range (Download "img/a" (Some 1%Z) (Some 100%Z)) demo_blobs) as Hr.
  { split; [intros o [= <-]; vm_compute; split; discriminate|].
    split; [intros l [= <-]; vm_compute; split; discriminate|].
    intros blob Hb. vm_compute in Hb. injection Hb as <-. vm_compute. split; discriminate. }
  etransitivity; [exact (proj1 (memory_storage_refines demo_hash 9 _ demo_blobs Hr))|].
  vm_compute. reflexivity.
Defined.

Definition demo_listing : BlobListOptions := mkBlobListOptions (Some "img/") None 1.

Definition demo_page : BlobListResult := memory_list_loop "img/" 1 (map_items demo_blobs) [].

Lemma memory_list_spec_witness :
  bl_is_truncated demo_page = true /\ bl_next_token demo_page = Some "img/b".
Proof.
  destruct (memory_list_spec demo_listing demo_blobs demo_page demo_blobs) as (_ & _ & Ht & Hn & _).
  - vm_compute. discriminate.
  - reflexivity.
  - split; [apply Ht; apply Nat.ltb_lt; vm_compute; reflexivity|]. rewrite Hn. vm_compute. reflexivity.
Defined.

Definition demo_streamed : Result BlobMetadata * blobs :=
  uploadStream demo_hash 1 "a" "bytes" 5 (mkUpload None ∅ true) ∅.
Definition demo_meta : BlobMetadata :=
  mkBlobMeta "a" 0 "application/octet-stream" (generate_etag demo_hash "") 1 ∅.

Lemma uploadStream_stores_nothing_witness :
  (memory_download "a" (mkDownload None None) demo_streamed.2).1 = Ok "".
Proof.
  assert (demo_streamed = (Ok demo_meta, demo_streamed.2)) as Hs by (vm_compute; reflexivity).
  exact (proj2 (uploadStream_stores_nothing demo_hash 1 "a" "bytes" 5 (mkUpload None ∅ true) ∅
           demo_meta demo_streamed.2 Hs)).
Defined.
