(* ===== verification/BlobFiles.v ===== *)
(** * Listing blobs kept in files

    Models src/blob/filesystem/fs_list.hpp and content_type_map.hpp, and the
    textual part of is_key_safe (key_to_path.hpp).  The file system is an
    interface: what a walk of the directory finds, and what the metadata calls
    answer for a key. *)

From S2P Require Import Prelude CxxString CxxStd Uuid BlobMemory.

Open Scope string_scope.

(** ** Content types *)

Definition octet_stream : string := "application/octet-stream".

Definition extension_map : list (string * string) := [
  (".txt", "text/plain"); (".html", "text/html"); (".htm", "text/html"); (".css", "text/css");
  (".csv", "text/csv"); (".xml", "text/xml"); (".md", "text/markdown");
  (".json", "application/json"); (".js", "application/javascript"); (".mjs", "application/javascript");
  (".pdf", "application/pdf"); (".zip", "application/zip"); (".gz", "application/gzip");
  (".tar", "application/x-tar"); (".wasm", "application/wasm"); (".yaml", "application/x-yaml");
  (".yml", "application/x-yaml"); (".toml", "application/toml"); (".bin", "application/octet-stream");
  (".png", "image/png"); (".jpg", "image/jpeg"); (".jpeg", "image/jpeg"); (".gif", "image/gif");
  (".svg", "image/svg+xml"); (".webp", "image/webp"); (".ico", "image/x-icon"); (".bmp", "image/bmp");
  (".tiff", "image/tiff"); (".tif", "image/tiff");
  (".mp3", "audio/mpeg"); (".wav", "audio/wav"); (".ogg", "audio/ogg"); (".flac", "audio/flac");
  (".aac", "audio/aac"); (".m4a", "audio/mp4");
  (".mp4", "video/mp4"); (".webm", "video/webm"); (".avi", "video/x-msvideo");
  (".mov", "video/quicktime"); (".mkv", "video/x-matroska");
  (".woff", "font/woff"); (".woff2", "font/woff2"); (".ttf", "font/ttf"); (".otf", "font/otf");
  (".7z", "application/x-7z-compressed"); (".bz2", "application/x-bzip2"); (".xz", "application/x-xz");
  (".rar", "application/vnd.rar")].

Fixpoint assoc (k : string) (l : list (string * string)) : option string :=
  match l with
  | [] => None
  | (k', v) :: l => if String.eqb k k' then Some v else assoc k l
  end.

(** [key.substr(key.rfind('.'))] *)
Fixpoint from_last_dot (s : string) : option string :=
  match s with
  | EmptyString => None
  | String c s' =>
      match from_last_dot s' with
      | Some t => Some t
      | None => if Ascii.eqb c "." then Some s else None
      end
  end.

Definition guess_content_type (key : string) : string :=
  match from_last_dot key with
  | None => octet_stream
  | Some ext => default octet_stream (assoc (to_lower ext) extension_map)
  end.

(** ** Listing *)

(** What one step of the recursive walk finds. *)
Record DirEntry := mkEntry { de_regular : bool; de_filename : string; de_key : string }.

(** A storage directory: [None] from [walk] when it does not exist; the size of
    the file of a key and the time computed for it, when the calls succeed. *)
Class Files := {
  walk : option (list DirEntry);
  file_info : string -> option (Z * Z);
}.

Definition is_temp (filename : string) : bool :=
  (4 <? String.length filename)%nat &&
  String.eqb (string_drop (String.length filename - 4) filename) ".tmp".

(** The first loop of [fs_list]. *)
Definition is_match (prefix : string) (e : DirEntry) : bool :=
  de_regular e && negb (is_temp (de_filename e)) && (is_empty prefix || starts_with (de_key e) prefix).

Section Listing.
Context `{!StdSort} `{!Files}.

Definition matching_keys (prefix : string) (entries : list DirEntry) : list string :=
  std_sort String.ltb (de_key <$> List.filter (is_match prefix) entries).

(** The second loop: [past_token] and the items so far. *)
Fixpoint fs_list_loop (continuation : string) (max_keys : Z) (keys : list string)
    (past_token : bool) (items : list BlobMetadata) : BlobListResult :=
  match keys with
  | [] => mkBlobList items None false
  | key :: rest =>
      if negb past_token && negb (String.ltb continuation key)
      then fs_list_loop continuation max_keys rest false items
      else if (max_keys <=? Z.of_nat (length items))%Z then mkBlobList items (Some key) true
      else
        match file_info key with
        | None => fs_list_loop continuation max_keys rest true items
        | Some (file_size, time) =>
            fs_list_loop continuation max_keys rest true
              (items ++ [mkBlobMeta key file_size (guess_content_type key) "" time ∅])
        end
  end.

Definition fs_list (options : BlobListOptions) : BlobListResult :=
  match walk with
  | None => mkBlobList [] None false
  | Some entries =>
      let continuation := default "" (lo_continuation_token options) in
      fs_list_loop continuation (lo_max_keys options)
        (matching_keys (default "" (lo_prefix options)) entries) (is_empty continuation) []
  end.

(** ** The pages of a directory *)

(** Metadata of a key whose file answers. *)
Definition item_of (key : string) : option BlobMetadata :=
  '(file_size, time) ← file_info key; Some (mkBlobMeta key file_size (guess_content_type key) "" time ∅).

Lemma fs_list_loop_page continuation max_keys keys items :
  (forall k, k ∈ keys -> is_Some (file_info k)) -> (Z.of_nat (length items) <= max_keys)%Z ->
  let room := Z.to_nat max_keys - length items in
  let r := fs_list_loop continuation max_keys keys true items in
  bm_key <$> bl_items r = ((bm_key <$> items) ++ take room keys)%list /\
  bl_next_token r = keys !! room /\ (bl_is_truncated r = true <-> room < length keys).
Proof.
  revert items. induction keys as [|key keys IH]; intros items Hinfo Hlen room r.
  - subst r. cbn. rewrite take_nil, app_nil_r. split_and!; [done..|]. split; [done|lia].
  - subst r. cbn [fs_list_loop negb andb]. destruct (Z.leb_spec max_keys (Z.of_nat (length items))).
    + assert (room = 0) as -> by lia. cbn. rewrite app_nil_r. split_and!; [done..|]. split; [lia|done].
    + destruct (Hinfo key (list_elem_of_here _ _)) as [[sz t] ->].
      destruct (IH (items ++ [mkBlobMeta key sz (guess_content_type key) "" t ∅])%list) as (Hi & Ht & Htr);
        [intros; apply Hinfo; by apply list_elem_of_further| |].
      { rewrite length_app. cbn. lia. }
      rewrite Hi, Ht, Htr. rewrite length_app. cbn [length]. subst room.
      destruct (Z.to_nat max_keys - length items) as [|n] eqn:Hn; [lia|].
      replace (Z.to_nat max_keys - (length items + 1)) with n by lia.
      cbn. rewrite fmap_app, <- app_assoc. cbn. split_and!; [done..|]. lia.
Qed.

(** Skipping to the token. *)
Lemma fs_list_loop_skip continuation max_keys before after :
  (forall k, k ∈ before -> String.ltb continuation k = false) ->
  match after with [] => True | k :: _ => String.ltb continuation k = true end ->
  fs_list_loop continuation max_keys (before ++ after) false [] =
  match after with [] => mkBlobList [] None false | _ => fs_list_loop continuation max_keys after true [] end.
Proof.
  intros Hb Ha. induction before as [|k before IH].
  - cbn. destruct after as [|k after]; [done|]. cbn [fs_list_loop negb andb]. by rewrite Ha.
  - cbn [app fs_list_loop negb andb]. rewrite (Hb k (list_elem_of_here _ _)). cbn.
    apply IH. intros k' Hk. apply Hb. by apply list_elem_of_further.
Qed.

(** The directory's keys in order, each once. *)
Definition strictly_sorted (keys : list string) : Prop :=
  StronglySorted (fun a b => String.ltb a b = true) keys.

Lemma strictly_sorted_split (keys : list string) i k :
  strictly_sorted keys -> keys !! i = Some k ->
  (forall x, x ∈ take (S i) keys -> String.ltb k x = false) /\
  (forall x, x ∈ drop (S i) keys -> String.ltb k x = true).
Proof.
  intros Hs. revert i. induction Hs as [|y keys Hs IH Hy]; intros [|i] Hi; [done..| |].
  - injection Hi as ->. cbn. rewrite take_0, drop_0. rewrite Forall_forall in Hy. split; [|done].
    intros x Hx. apply list_elem_of_singleton in Hx as ->. apply ltb_false. done.
  - cbn in Hi. destruct (IH i Hi) as [H1 H2]. cbn [take drop]. split; [|exact H2].
    intros x [->|Hx]%elem_of_cons; [|by apply H1]. rewrite Forall_forall in Hy.
    assert (String.ltb y k = true) as Hyk by (apply Hy; by apply list_elem_of_lookup_2 with i).
    apply ltb_false. apply ltb_true in Hyk. destruct (total String.le y k); [done|]. by destruct Hyk.
Qed.

Lemma std_sort_strict (l : list string) : NoDup l -> strictly_sorted (std_sort String.ltb l).
Proof.
  intros Hnd. assert (NoDup (std_sort String.ltb l)) as Hnd' by by rewrite std_sort_perm.
  pose proof (std_sort_sorted _ String.ltb l (strict_weak_string id)) as Hs.
  induction Hs as [|x k Hs IH Hx]; [constructor|]. apply NoDup_cons in Hnd' as [Hn Hnd'].
  constructor; [by apply IH|]. rewrite Forall_forall in *. intros y Hy. specialize (Hx y Hy).
  destruct (String.ltb x y) eqn:Hxy; [done|]. by destruct Hn; rewrite (ltb_antisym x y).
Qed.

(** The position at which the page of a token starts. *)
Definition starts_at (token : option string) (keys : list string) (i : nat) : Prop :=
  match token with
  | None => i = 0
  | Some k => k <> "" /\ exists j, list_find (eq k) keys = Some (j, k) /\ i = S j
  end.

Lemma fs_list_page_at entries prefix max_keys token i :
  walk = Some entries -> NoDup (de_key <$> List.filter (is_match prefix) entries) ->
  (forall k, is_Some (file_info k)) -> (0 <= max_keys)%Z ->
  starts_at token (matching_keys prefix entries) i ->
  let r := fs_list (mkBlobListOptions (Some prefix) token max_keys) in
  let rest := drop i (matching_keys prefix entries) in
  bm_key <$> bl_items r = take (Z.to_nat max_keys) rest /\
  bl_next_token r = rest !! Z.to_nat max_keys /\
  (bl_is_truncated r = true <-> Z.to_nat max_keys < length rest).
Proof.
  intros Hw Hnd Hinfo Hmax Hat. set (keys := matching_keys prefix entries) in *. cbv zeta.
  unfold fs_list. rewrite Hw. cbn [lo_prefix lo_max_keys lo_continuation_token default from_option id].
  change (matching_keys prefix entries) with keys.
  assert (strictly_sorted keys) as Hs by by apply std_sort_strict.
  destruct token as [k|]; cbn [default from_option id] in *.
  - destruct Hat as (Hne & j & (Hi & _ & _)%list_find_Some & ->).
    destruct (strictly_sorted_split keys j k Hs Hi) as [Hlo Hhi].
    assert (is_empty k = false) as -> by (by apply is_empty_false).
    assert (fs_list_loop k max_keys keys false [] =
            match drop (S j) keys with
            | [] => mkBlobList [] None false
            | _ => fs_list_loop k max_keys (drop (S j) keys) true [] end) as ->.
    { rewrite <- (take_drop (S j) keys) at 1. apply fs_list_loop_skip; [exact Hlo|].
      destruct (drop (S j) keys) as [|y rest] eqn:Hd; [done|]. apply Hhi. left. }
    destruct (drop (S j) keys) as [|y rest] eqn:Hd.
    + cbn. rewrite take_nil. split_and!; [done..|]. split; [done|lia].
    + pose proof (fs_list_loop_page k max_keys (y :: rest) [] (fun k _ => Hinfo k) Hmax) as Hp.
      cbn [length fmap list_fmap app] in Hp. by rewrite Nat.sub_0_r in Hp.
  - cbn in Hat. subst i. change (is_empty "") with true. rewrite drop_0.
    pose proof (fs_list_loop_page "" max_keys keys [] (fun k _ => Hinfo k) Hmax) as Hp.
    cbn [length fmap list_fmap app] in Hp. by rewrite Nat.sub_0_r in Hp.
Qed.

(** A page of a directory.  With every file answering, the first page holds
    the first [max_keys] matching keys in order and its token is the next key;
    a page asked for with the token [keys !! i] holds the [max_keys] keys after
    position [i]. *)
Theorem fs_list_pages entries prefix max_keys token i :
  walk = Some entries -> NoDup (de_key <$> List.filter (is_match prefix) entries) ->
  (forall k, is_Some (file_info k)) -> (0 <= max_keys)%Z ->
  starts_at token (matching_keys prefix entries) i ->
  let r := fs_list (mkBlobListOptions (Some prefix) token max_keys) in
  let rest := drop i (matching_keys prefix entries) in
  bm_key <$> bl_items r = take (Z.to_nat max_keys) rest /\
  bl_next_token r = rest !! Z.to_nat max_keys /\
  (bl_is_truncated r = true <-> Z.to_nat max_keys < length rest).
Proof. apply fs_list_page_at. Qed.

(** Paging loses blobs.  The token of a truncated page is the first key it
    left out, and the page asked for with that token starts after it: the blob of
    that key is a matching one and is on neither page. *)
Theorem fs_list_loses_token entries prefix max_keys token :
  walk = Some entries -> NoDup (de_key <$> List.filter (is_match prefix) entries) ->
  (forall k, is_Some (file_info k)) -> (0 <= max_keys)%Z -> token <> "" ->
  let page t := fs_list (mkBlobListOptions (Some prefix) t max_keys) in
  bl_next_token (page None) = Some token ->
  token ∈ matching_keys prefix entries /\
  token ∉ bm_key <$> bl_items (page None) /\ token ∉ bm_key <$> bl_items (page (Some token)).
Proof.
  intros Hw Hnd Hinfo Hmax Hne page Ht. subst page. cbv beta in *.
  destruct (fs_list_page_at entries prefix max_keys None 0 Hw Hnd Hinfo Hmax eq_refl) as (Hi & Hn & _).
  rewrite Hi, Hn in *. rewrite drop_0 in *. set (keys := matching_keys prefix entries) in *.
  assert (strictly_sorted keys) as Hs by by apply std_sort_strict.
  destruct (strictly_sorted_split keys _ _ Hs Ht) as [Hlo Hhi].
  assert (list_find (eq token) keys = Some (Z.to_nat max_keys, token)) as Hf.
  { apply list_find_Some. split; [done|]. split; [done|]. intros j y Hj Hlt <-.
    destruct (strictly_sorted_split keys _ _ Hs Hj) as [_ Hj2].
    assert (String.ltb token token = true) as Hbad; [|by rewrite (proj2 (ltb_false _ _)) in Hbad].
    apply Hj2. apply list_elem_of_lookup. exists (Z.to_nat max_keys - S j).
    rewrite lookup_drop, <- Ht. f_equal. lia. }
  split; [by apply list_elem_of_lookup_2 with (Z.to_nat max_keys)|].
  assert (forall x, x ∈ keys -> String.ltb token x = true -> x <> token) as Hirr.
  { intros x _ Hx ->. by rewrite (proj2 (ltb_false _ _)) in Hx. }
  split.
  - intros Hin. apply list_elem_of_lookup in Hin as [j Hj]. apply lookup_take_Some in Hj as [Hj Hlt].
    apply list_find_Some in Hf as (_ & _ & Hf). by apply (Hf j token Hj Hlt).
  - destruct (fs_list_page_at entries prefix max_keys (Some token) (S (Z.to_nat max_keys)) Hw Hnd Hinfo
      Hmax (conj Hne (ex_intro _ _ (conj Hf eq_refl)))) as (Hi2 & _ & _).
    rewrite Hi2. fold keys. intros Hin%subseteq_take. specialize (Hhi token Hin).
    by rewrite (proj2 (ltb_false _ _)) in Hhi.
Qed.
End Listing.

(** ** A directory with three images *)

Definition demo_entries : list DirEntry :=
  [mkEntry true "b.png" "img/b.png"; mkEntry false "img" "img"; mkEntry true "a.png" "img/a.png";
   mkEntry true "c.png.tmp" "img/c.png.tmp"; mkEntry true "c.png" "img/c.png"].
#[local] Instance demo_files : Files :=
  {| walk := Some demo_entries; file_info key := Some (size key, 0%Z) |}.
#[local] Existing Instance insertion_StdSort.

Lemma demo_distinct : NoDup (de_key <$> List.filter (is_match "img/") demo_entries).
Proof. apply (bool_decide_unpack _). vm_compute. exact I. Qed.

Lemma fs_list_pages_witness :
  bm_key <$> bl_items (fs_list (mkBlobListOptions (Some "img/") None 2)) = ["img/a.png"; "img/b.png"].
Proof.
  destruct (@fs_list_pages insertion_StdSort demo_files demo_entries "img/" 2 None 0 eq_refl demo_distinct (fun k => mk_is_Some _ _ eq_refl)
              ltac:(lia) eq_refl) as (Hi & _ & _).
  etransitivity; [exact Hi|]. vm_compute. reflexivity.
Defined.

Lemma fs_list_loses_token_witness :
  "img/b.png" ∈ matching_keys "img/" demo_entries /\
  bm_key <$> bl_items (fs_list (mkBlobListOptions (Some "img/") None 1)) = ["img/a.png"] /\
  bm_key <$> bl_items (fs_list (mkBlobListOptions (Some "img/") (Some "img/b.png") 1)) = ["img/c.png"].
Proof.
  split; [|split; vm_compute; reflexivity].
  apply (@fs_list_loses_token insertion_StdSort demo_files demo_entries "img/" 1 "img/b.png" eq_refl demo_distinct
           (fun k => mk_is_Some _ _ eq_refl) ltac:(lia) ltac:(discriminate)).
  vm_compute. reflexivity.
Defined.
