(* ===== verification/Adapter.v ===== *)
(** * The adapter interface

    The class [Adapter] of include/dbal/adapters/adapter.hpp, through which the
    daemon reaches whichever database it is configured for: the operations as a
    type class over the state of the world, the metadata records, and the
    defaults of the virtual methods.  [Rows] is what the layers built around an
    adapter rely on: a read answers the row there is, a write that succeeds
    changes the rows it names, one that fails changes none. *)

From S2P Require Import Prelude CxxString CxxStd Store Json.

Open Scope string_scope.

(** ** Data *)

Record ListResult := mkListResult {
  lr_items : list json; lr_total : Z; lr_page : Z; lr_limit : Z;
}.

Record EntityField := mkField {
  fd_name : string; fd_type : string; fd_required : bool; fd_unique : bool; fd_nullable : bool;
  fd_defaultValue : option string; fd_references : option string;
  fd_minLength : option Z; fd_maxLength : option Z; fd_pattern : option string;
  fd_enumValues : option (list string); fd_sensitive : bool;
}.

Record RelationDef := mkRelation {
  rl_name : string; rl_type : string; rl_target_entity : string; rl_foreign_key : string;
  rl_cascade_delete : bool;
}.

Record QueryConfig := mkQueryConfig {
  qc_allowed_operators : list string; qc_allowed_group_by : list string;
  qc_allowed_includes : list string; qc_max_results : Z; qc_timeout_ms : Z;
}.

Record EntitySchema := mkSchema {
  es_name : string; es_displayName : string; es_fields : list EntityField;
  es_indexes : list string; es_metadata : gmap string string;
  es_relations : list RelationDef; es_query_config : QueryConfig;
}.

(** ** Operations *)

Class Adapter (W : Type) := {
  do_create : string -> json -> Op W json;
  do_read : string -> string -> Op W json;
  do_readIncludingSensitive : string -> string -> Op W json;
  do_search : string -> string -> Z -> Op W ListResult;
  do_update : string -> string -> json -> Op W json;
  do_remove : string -> string -> Op W bool;
  do_list : string -> ListOptions -> Op W ListResult;
  do_createMany : string -> list json -> Op W Z;
  do_updateMany : string -> json -> json -> Op W Z;
  do_deleteMany : string -> json -> Op W Z;
  do_findFirst : string -> json -> Op W json;
  do_findByField : string -> string -> json -> Op W json;
  do_upsert : string -> string -> json -> json -> json -> Op W json;
  do_getAvailableEntities : Op W (list string);
  do_getEntitySchema : string -> Op W EntitySchema;
  do_close : Op W unit;
  supportsNativeTransactions : bool;
  do_beginTransaction : Op W bool;
  do_commitTransaction : Op W bool;
  do_rollbackTransaction : Op W bool;
}.

(** The default bodies of the virtual methods. *)
Definition default_search {W} (entityName query : string) (limit : Z) : Op W ListResult :=
  fail (internal ("Full-text search is not configured. Set DBAL_SEARCH_URL to an " +:+
                  "Elasticsearch endpoint to enable it.")).
Definition default_transaction {W} : Op W bool :=
  fail (internal "Transactions not supported by this adapter").

(** ** What the layers around an adapter rely on *)

(** The calls of an adapter as data, but for plain reads and the rollback, for what
    is stated of all of them. *)
Inductive db_call : Type -> Type :=
  | DbCreate (e : string) (data : json) : db_call json
  | DbUpdate (e id : string) (data : json) : db_call json
  | DbRemove (e id : string) : db_call bool
  | DbUpsert (e f : string) (v cd ud : json) : db_call json
  | DbCreateMany (e : string) (l : list json) : db_call Z
  | DbUpdateMany (e : string) (f d : json) : db_call Z
  | DbDeleteMany (e : string) (f : json) : db_call Z
  | DbReadIncludingSensitive (e id : string) : db_call json
  | DbListRows (e : string) (o : ListOptions) : db_call ListResult
  | DbFindFirst (e : string) (f : json) : db_call json
  | DbFindByField (e f : string) (v : json) : db_call json
  | DbSearchRows (e q : string) (n : Z) : db_call ListResult
  | DbEntities : db_call (list string)
  | DbSchema (e : string) : db_call EntitySchema
  | DbClose : db_call unit
  | DbBegin : db_call bool
  | DbCommit : db_call bool.

Definition issue_call {W : Type} {ad : Adapter W} {A} (c : db_call A) : Op W A :=
  match c with
  | DbCreate e data => do_create e data
  | DbUpdate e id data => do_update e id data
  | DbRemove e id => do_remove e id
  | DbUpsert e f v cd ud => do_upsert e f v cd ud
  | DbCreateMany e l => do_createMany e l
  | DbUpdateMany e f d => do_updateMany e f d
  | DbDeleteMany e f => do_deleteMany e f
  | DbReadIncludingSensitive e id => do_readIncludingSensitive e id
  | DbListRows e o => do_list e o
  | DbFindFirst e f => do_findFirst e f
  | DbFindByField e f v => do_findByField e f v
  | DbSearchRows e q n => do_search e q n
  | DbEntities => do_getAvailableEntities
  | DbSchema e => do_getEntitySchema e
  | DbClose => do_close
  | DbBegin => do_beginTransaction
  | DbCommit => do_commitTransaction
  end.

(** The rows of the world, by entity and identifier, as [read] answers them. *)
Abbreviation row_map := (string -> string -> option json).

(** Rows that agree apart from those that [changed] names. *)
Definition same_rows_but (changed : string -> string -> Prop) (r r' : row_map) : Prop :=
  forall e id, ~ changed e id -> r' e id = r e id.

(** A call that changes no row, however it ends. *)
Definition keeps {W A} (rows : W -> row_map) (w : W) (r : Result A * W) : Prop :=
  forall e id, rows r.2 e id = rows w e id.

(** A call that succeeds changes at most the rows its result names; one that fails
    leaves the rows there are as they are, and may have made new ones (a list of
    creations that fails half way keeps the first: SqlSafety.createMany_keeps_rows). *)
Definition writes {W A} (rows : W -> row_map) (w : W) (r : Result A * W)
    (changed : A -> string -> string -> Prop) : Prop :=
  match r with
  | (Ok a, w') => same_rows_but (changed a) (rows w) (rows w')
  | (_, w') => forall e id v, rows w e id = Some v -> rows w' e id = Some v
  end.

(** A call on one row, which changes none when it fails. *)
Definition writes_or_keeps {W A} (rows : W -> row_map) (w : W) (r : Result A * W)
    (changed : A -> string -> string -> Prop) : Prop :=
  match r with
  | (Ok a, w') => same_rows_but (changed a) (rows w) (rows w')
  | (_, w') => forall e id, rows w' e id = rows w e id
  end.
Lemma writes_or_keeps_writes {W A} (rows : W -> row_map) w (r : Result A * W) changed :
  writes_or_keeps rows w r changed -> writes rows w r changed.
Proof. destruct r as [[a|e|x|] w']; cbn; [done|intros H e' id v; by rewrite H..]. Qed.

(** The row a written record is. *)
Definition named_by (e : string) (v : json) (e' id : string) : Prop :=
  e' = e /\ id <> "" /\
  (member v "id" = Some (JString id) \/ exists n, member v "id" = Some (JInt n) /\ id = to_string n).

Definition one_row {A} (e id : string) : A -> string -> string -> Prop :=
  fun _ e' id' => e' = e /\ id' = id /\ id <> "".
Definition one_entity {A} (e : string) : A -> string -> string -> Prop := fun _ e' _ => e' = e.

Class Rows (W : Type) `{Adapter W} := {
  row : W -> row_map;
  row_read : forall w e id,
    keeps row w (do_read e id w) /\
    forall v w', do_read e id w = (Ok v, w') -> row w e id = Some v;
  row_update : forall w e id data,
    writes_or_keeps row w (do_update e id data w) (one_row e id);
  row_remove : forall w e id, writes_or_keeps row w (do_remove e id w) (one_row e id);
  row_create : forall w e data, writes row w (do_create e data w) (named_by e);
  row_upsert : forall w e f v cd ud, writes row w (do_upsert e f v cd ud w) (named_by e);
  row_createMany : forall w e l, writes row w (do_createMany e l w) (one_entity e);
  row_updateMany : forall w e f d, writes row w (do_updateMany e f d w) (one_entity e);
  row_deleteMany : forall w e f, writes row w (do_deleteMany e f w) (one_entity e);
  row_search : forall w e q n, keeps row w (do_search e q n w);
  row_readIncludingSensitive : forall w e id, keeps row w (do_readIncludingSensitive e id w);
  row_list : forall w e o, keeps row w (do_list e o w);
  row_findFirst : forall w e f, keeps row w (do_findFirst e f w);
  row_findByField : forall w e f v, keeps row w (do_findByField e f v w);
  row_entities : forall w, keeps row w (do_getAvailableEntities w);
  row_schema : forall w e, keeps row w (do_getEntitySchema e w);
  row_close : forall w, keeps row w (do_close w);
  row_begin : forall w, keeps row w (do_beginTransaction w);
  row_commit : forall w b w', do_commitTransaction w = (Ok b, w') -> keeps row w (Ok b, w');
}.

(** ** An implementation *)

(** A database of named texts with snapshot transactions. *)
Record DemoDb := mkDemoDb {
  db_live : gmap (string * string) json; db_saved : option (gmap (string * string) json);
}.
Definition unsupported {W A} : Op W A := fail (internal "not supported").
#[export] Instance demo_adapter : Adapter DemoDb := {|
  do_create e v := fun d =>
    match string_member v "id" with
    | Some id =>
        if is_empty id || bool_decide (is_Some (db_live d !! (e, id))) then (Err (conflict id), d)
        else (Ok v, mkDemoDb (<[(e, id) := v]> (db_live d)) (db_saved d))
    | None => (Err (validationError "no id"), d)
    end;
  do_read e id := fun d =>
    match db_live d !! (e, id) with Some v => (Ok v, d) | None => (Err (notFound id), d) end;
  do_update e id v := fun d =>
    if is_empty id then (Err (notFound id), d)
    else (Ok v, mkDemoDb (<[(e, id) := v]> (db_live d)) (db_saved d));
  do_remove e id := fun d =>
    if is_empty id then (Err (notFound id), d)
    else (Ok true, mkDemoDb (delete (e, id) (db_live d)) (db_saved d));
  do_upsert _ _ _ _ _ := unsupported; do_createMany _ _ := unsupported;
  do_updateMany _ _ _ := unsupported; do_deleteMany _ _ := unsupported;
  do_search _ _ _ := unsupported; do_readIncludingSensitive _ _ := unsupported;
  do_list _ _ := unsupported; do_findFirst _ _ := unsupported; do_findByField _ _ _ := unsupported;
  do_getAvailableEntities := unsupported; do_getEntitySchema _ := unsupported;
  do_close := mret tt; supportsNativeTransactions := true;
  do_beginTransaction := fun d =>
    match db_saved d with
    | Some _ => (Err (internal "Transaction already in progress"), d)
    | None => (Ok true, mkDemoDb (db_live d) (Some (db_live d)))
    end;
  do_commitTransaction := fun d => (Ok true, mkDemoDb (db_live d) None);
  do_rollbackTransaction := fun d => (Ok true, mkDemoDb (default (db_live d) (db_saved d)) None);
|}.

#[export] Program Instance demo_rows : Rows DemoDb := {| row d e id := db_live d !! (e, id) |}.
Next Obligation.
  intros d e id. cbn. destruct (db_live d !! (e, id)) as [v|] eqn:Hv; (split; [|naive_solver]).
  all: done.
Qed.
Next Obligation.
  intros d e id data. cbn. destruct (is_empty id) eqn:Hid; [done|]. intros e' id' Hch. cbn.
  apply lookup_insert_ne. intros [= -> ->]. apply Hch. apply is_empty_false in Hid. done.
Qed.
Next Obligation.
  intros d e id. cbn. destruct (is_empty id) eqn:Hid; [done|]. intros e' id' Hch. cbn.
  apply lookup_delete_ne. intros [= -> ->]. apply Hch. apply is_empty_false in Hid. done.
Qed.
Next Obligation.
  intros d e data. cbn. destruct (string_member data "id") as [id|] eqn:Hid; [|by intros e' id' v].
  destruct (is_empty id) eqn:Hne; [by intros e' id' v|]. apply is_empty_false in Hne. cbn [orb].
  destruct (bool_decide _); [by intros e' id' v|]. intros e' id' Hch. cbn. apply lookup_insert_ne. intros [= -> ->].
  apply Hch. split_and!; [done..|]. left. unfold string_member in Hid. repeat case_match; by simplify_eq.
Qed.
Solve Obligations with (first [done | intros d; cbn; by destruct (db_saved d) | by intros d b d' [= _ <-]]).
