(* ===== verification/CachingAdapter.v ===== *)
(** * The read-through cache

    Models src/cache/caching_adapter.cpp and include/dbal/cache/cache_key.hpp: a
    layer around any adapter that answers single-record reads from a Redis
    server when it can and drops the copies a write makes stale.  The adapter
    is the interface of Adapter.v; Redis is an interface of its own, with what
    its documentation promises of the commands used. *)

From stdpp Require Import relations.
From S2P Require Import Prelude CxxString CxxStd Store Json Adapter.

Open Scope string_scope.

(** ** Redis *)

(** The commands of redis-plus-plus that the cache uses; a failure is the
    exception it raises.  [scan_limit] bounds the calls a full SCAN takes. *)
Class RedisCache (R : Type) := {
  redis_get : string -> Op R (option string);
  redis_setex : string -> Z -> string -> Op R unit;
  redis_del : string -> Op R Z;
  redis_scan : Z -> string -> Z -> Op R (Z * list string);
  redis_unlink : list string -> Op R Z;
  scan_limit : R -> nat;
}.

(** ** Keys *)

Definition kCacheKeyPrefix : string := "dbal:cache".
Definition recordKey (entity id : string) : string :=
  kCacheKeyPrefix +:+ (":" +:+ (entity +:+ (":" +:+ id))).
Definition entityScanPattern (entity : string) : string :=
  kCacheKeyPrefix +:+ (":" +:+ (entity +:+ ":*")).

Definition idFromRecord (record : json) : string :=
  if negb (is_object record) then ""
  else match member record "id" with
       | Some (JString s) => s
       | Some (JInt n) => to_string n
       | _ => ""
       end.

(** ** Operations *)

Section Cache.
Context {W R : Type} `{!Adapter W} `{!RedisCache R} {jl : JsonLib} (ttl_seconds : Z).

Definition inner {A} (m : Op W A) : Op (W * R) A := fun '(w, r) =>
  let '(x, w') := m w in (x, (w', r)).
Definition redis {A} (m : Op R A) : Op (W * R) A := fun '(w, r) =>
  let '(x, r') := m r in (x, (w, r')).

(** [try { ... } catch (const std::exception&) {}] *)
Definition attempt {A} (m : Op (W * R) A) : Op (W * R) (option A) := fun s =>
  match m s with
  | (Ok a, s') => (Ok (Some a), s')
  | (Throw _, s') => (Ok None, s')
  | (x, s') => (recast x, s')
  end.

(** The second half of [read]: a miss is read from the adapter and copied. *)
Definition read_through (key entityName id : string) : Op (W * R) json :=
  result ← inner (do_read entityName id);
  attempt (text ← of_result (dump result); redis (redis_setex key ttl_seconds text));;
  mret result.

Definition read (entityName id : string) : Op (W * R) json :=
  let key := recordKey entityName id in
  hit ← attempt (redis (redis_get key));
  match (text ← (hit ≫= fun h => h); parse text) with
  | Some parsed => mret parsed
  | None => read_through key entityName id
  end.

Definition invalidateRecord (entityName id : string) : Op (W * R) unit :=
  if is_empty id then mret tt
  else attempt (redis (redis_del (recordKey entityName id)));; mret tt.

(** The [do ... while (cursor != 0)] loop. *)
Fixpoint scan_loop (fuel : nat) (pattern : string) (cursor : Z) : Op R unit :=
  match fuel with
  | 0 => undef
  | S fuel =>
      '(cursor, batch) ← redis_scan cursor pattern 500;
      (match batch with [] => mret tt | _ => redis_unlink batch;; mret tt end);;
      if (cursor =? 0)%Z then mret tt else scan_loop fuel pattern cursor
  end.

Definition invalidateEntity (entityName : string) : Op (W * R) unit :=
  limit ← gets (fun wr => scan_limit wr.2);
  attempt (redis (scan_loop limit (entityScanPattern entityName) 0));; mret tt.

(** A delegated write, followed by the invalidation when it succeeded. *)
Definition write_then {A} (m : Op W A) (invalidate : A -> Op (W * R) unit) : Op (W * R) A :=
  result ← inner m; invalidate result;; mret result.

Definition create (entityName : string) (data : json) : Op (W * R) json :=
  write_then (do_create entityName data) (fun v => invalidateRecord entityName (idFromRecord v)).
Definition update (entityName id : string) (data : json) : Op (W * R) json :=
  write_then (do_update entityName id data) (fun _ => invalidateRecord entityName id).
Definition remove (entityName id : string) : Op (W * R) bool :=
  write_then (do_remove entityName id) (fun _ => invalidateRecord entityName id).
Definition upsert (entityName uniqueField : string) (uniqueValue createData updateData : json) :
    Op (W * R) json :=
  write_then (do_upsert entityName uniqueField uniqueValue createData updateData)
    (fun v => invalidateRecord entityName (idFromRecord v)).
Definition createMany (entityName : string) (records : list json) : Op (W * R) Z :=
  write_then (do_createMany entityName records) (fun _ => invalidateEntity entityName).
Definition updateMany (entityName : string) (filter data : json) : Op (W * R) Z :=
  write_then (do_updateMany entityName filter data) (fun _ => invalidateEntity entityName).
Definition deleteMany (entityName : string) (filter : json) : Op (W * R) Z :=
  write_then (do_deleteMany entityName filter) (fun _ => invalidateEntity entityName).

(** The class itself: an adapter again. *)
#[export] Instance CachingAdapter : Adapter (W * R) := {|
  do_create := create; do_read := read; do_update := update; do_remove := remove;
  do_upsert := upsert; do_createMany := createMany; do_updateMany := updateMany;
  do_deleteMany := deleteMany;
  do_search entityName query limit := inner (do_search entityName query limit);
  do_readIncludingSensitive entityName id := inner (do_readIncludingSensitive entityName id);
  do_list entityName options := inner (do_list entityName options);
  do_findFirst entityName filter := inner (do_findFirst entityName filter);
  do_findByField entityName field value := inner (do_findByField entityName field value);
  do_getAvailableEntities := inner do_getAvailableEntities;
  do_getEntitySchema entityName := inner (do_getEntitySchema entityName);
  do_close := inner do_close;
  supportsNativeTransactions := supportsNativeTransactions (W := W);
  do_beginTransaction := inner do_beginTransaction;
  do_commitTransaction := inner do_commitTransaction;
  do_rollbackTransaction := inner do_rollbackTransaction;
|}.
End Cache.

(** ** Names and keys *)

(** An entity name without the separator of keys and without the characters
    that a glob pattern treats specially. *)
Definition plain_char (c : ascii) : bool :=
  negb (Ascii.eqb c ":" || Ascii.eqb c "*" || Ascii.eqb c "?" || Ascii.eqb c "[" ||
        Ascii.eqb c "]" || Ascii.eqb c "\").
Definition plain_name (s : string) : Prop := string_forallb plain_char s = true.

Lemma app_colon_inj e e' s s' :
  plain_name e -> plain_name e' -> e +:+ (":" +:+ s) = e' +:+ (":" +:+ s') -> e = e' /\ s = s'.
Proof.
  unfold plain_name. revert e'. induction e as [|c e IH]; intros [|c' e']; autorewrite with dbal_str; cbn.
  - by intros _ _ [= ->].
  - intros _ [Hc _]%andb_true_iff [= <- _]. done.
  - intros [Hc _]%andb_true_iff _ [= -> _]. done.
  - intros [_ H]%andb_true_iff [_ H']%andb_true_iff [= -> Heq].
    by destruct (IH e' H H' Heq) as [-> ->].
Qed.

Lemma recordKey_inj e id e' id' :
  plain_name e -> plain_name e' -> recordKey e id = recordKey e' id' -> e = e' /\ id = id'.
Proof.
  unfold recordKey. intros He He' Heq. apply string_app_inj_l, (string_app_inj_l ":") in Heq.
  by apply app_colon_inj.
Qed.

(** ** What Redis promises *)

Class RedisLaws (R : Type) `{RedisCache R} := {
  kv : R -> gmap string string;                        (* the entries that are there *)
  pending : R -> Z -> string -> Prop;                  (* keys a SCAN cursor has still to return *)
  scan_rank : R -> Z -> nat;                           (* calls before a SCAN is complete *)
  law_get : forall k r,
    match redis_get k r with
    | (Ok o, r') => kv r' ⊆ kv r /\ (forall v, o = Some v -> kv r !! k = Some v)
    | (Throw _, r') => kv r' ⊆ kv r
    | _ => False
    end;
  law_setex : forall k t v r,
    match redis_setex k t v r with
    | (Ok _, r') | (Throw _, r') => kv r' ⊆ <[k := v]> (kv r)
    | _ => False
    end;
  law_del : forall k r,
    match redis_del k r with
    | (Ok _, r') => kv r' ⊆ delete k (kv r)
    | (Throw _, r') => kv r' ⊆ kv r
    | _ => False
    end;
  law_unlink : forall ks r,
    match redis_unlink ks r with
    | (Ok _, r') => kv r' ⊆ kv r /\ (forall k, k ∈ ks -> kv r' !! k = None) /\
        (forall c k, pending r c k -> pending r' c k) /\ (forall c, scan_rank r' c <= scan_rank r c)
    | (Throw _, r') => kv r' ⊆ kv r
    | _ => False
    end;
  (** An element there from the start to the end of an iteration is returned. *)
  law_scan : forall c p n r, plain_name p ->
    match redis_scan c (entityScanPattern p) n r with
    | (Ok (c', batch), r') => kv r' ⊆ kv r /\
        (forall id, is_Some (kv r !! recordKey p id) -> c = 0%Z \/ pending r c (recordKey p id) ->
          recordKey p id ∈ batch \/ (c' <> 0%Z /\ pending r' c' (recordKey p id))) /\
        (c' <> 0%Z -> scan_rank r' c' < scan_rank r c)
    | (Throw _, r') => kv r' ⊆ kv r
    | _ => False
    end;
  law_limit : forall r, scan_rank r 0 < scan_limit r;
}.

(** ** Transparency *)

Section Transparency.
Context {W R : Type} `{!Adapter W} `{!Rows W} `{!RedisCache R} `{!RedisLaws R} {jl : JsonLib} (ttl : Z).

(** The text of a row reads back as the row. *)
Context (text_of_rows : forall w e id v s, row w e id = Some v -> dump_text v = Some s -> parse s = Some v).
(** Removing an entry, and scanning for entries, does not fail. *)
Definition removals_work : Prop :=
  (forall k r, isOk (redis_del k r).1 = true) /\ (forall ks r, isOk (redis_unlink ks r).1 = true) /\
  (forall c p n r, isOk (redis_scan c p n r).1 = true).

(** Every copy in the cache is the row it copies. *)
Definition fresh (wr : W * R) : Prop := forall e id s v,
  plain_name e -> kv wr.2 !! recordKey e id = Some s -> parse s = Some v -> row wr.1 e id = Some v.

Lemma fresh_after w r w' r' changed :
  fresh (w, r) -> same_rows_but changed (row w) (row w') -> kv r' ⊆ kv r ->
  (forall e id, plain_name e -> kv r' !! recordKey e id <> None -> ~ changed e id) -> fresh (w', r').
Proof.
  intros Hf Hw Hr Hch e id s v He Hs Hp. cbn [fst snd] in *. rewrite Hw.
  - apply (Hf e id s v He); [|done]. by eapply lookup_weaken.
  - apply Hch; [done|]. by rewrite Hs.
Qed.

Lemma fresh_same w r w' r' :
  fresh (w, r) -> (forall e id, row w' e id = row w e id) -> kv r' ⊆ kv r -> fresh (w', r').
Proof.
  intros Hf Hw Hr. apply (fresh_after w r w' r' (fun _ _ => False)); [done| |done|auto].
  intros e id _. apply Hw.
Qed.

Lemma fresh_kept w r w' :
  fresh (w, r) -> (forall e id v, row w e id = Some v -> row w' e id = Some v) -> fresh (w', r).
Proof. intros Hf Hw e id s v He Hs Hp. apply Hw. by apply (Hf e id s v). Qed.

(** What [invalidateRecord] leaves. *)
Lemma invalidateRecord_run e id (w : W) (r : R) :
  removals_work -> exists r', invalidateRecord e id (w, r) = (Ok tt, (w, r')) /\ kv r' ⊆ kv r /\
    (id <> "" -> kv r' !! recordKey e id = None).
Proof.
  intros (Hdel & _ & _). unfold invalidateRecord. destruct (is_empty id) eqn:Hid.
  - exists r. apply is_empty_true in Hid. done.
  - unfold attempt, redis, mbind, Op_bind. pose proof (law_del (recordKey e id) r) as H.
    specialize (Hdel (recordKey e id) r).
    destruct (redis_del (recordKey e id) r) as [[n|er|x|] r']; try done. exists r'. split; [done|].
    split; [etrans; [exact H|apply delete_subseteq]|]. intros _.
    eapply lookup_weaken_None; [|exact H]. apply lookup_delete_eq.
Qed.

(** The scan loop ends, and removes every record of the entity. *)
Lemma scan_loop_run fuel p c (r : R) :
  removals_work -> plain_name p -> scan_rank r c < fuel ->
  exists r', scan_loop fuel (entityScanPattern p) c r = (Ok tt, r') /\ kv r' ⊆ kv r /\
    forall id, c = 0%Z \/ pending r c (recordKey p id) -> kv r' !! recordKey p id = None.
Proof.
  intros (Hdel & Hun & Hscan) Hp. revert c r. induction fuel as [|fuel IH]; intros c r Hrank; [lia|].
  cbn [scan_loop]. pose proof (law_scan c p 500 r Hp) as H. specialize (Hscan c (entityScanPattern p) 500%Z r).
  unfold mbind, Op_bind. destruct (redis_scan c (entityScanPattern p) 500 r) as [[[c' batch]|er|x|] r1]; try done.
  destruct H as (Hsub1 & Hall & Hrank1).
  assert (exists r2, (match batch with [] => mret tt | _ => redis_unlink batch;; mret tt end : Op R unit) r1 =
      (Ok tt, r2) /\ kv r2 ⊆ kv r1 /\ (forall k, k ∈ batch -> kv r2 !! k = None) /\
      (forall c k, pending r1 c k -> pending r2 c k) /\ (forall c, scan_rank r2 c <= scan_rank r1 c)) as Hstep.
  { destruct batch as [|k ks].
    - exists r1. split; [done|]. split; [done|]. split; [|done]. intros k Hk. by apply elem_of_nil in Hk.
    - unfold mbind, Op_bind. pose proof (law_unlink (k :: ks) r1) as H. specialize (Hun (k :: ks) r1).
      destruct (redis_unlink (k :: ks) r1) as [[n|er|x|] r2]; try done. by exists r2. }
  destruct Hstep as (r2 & Hrun2 & Hsub2 & Hgone & Hpend & Hrank2). unfold mbind, Op_bind in Hrun2.
  rewrite Hrun2. clear Hrun2.
  assert (forall id, c = 0%Z \/ pending r c (recordKey p id) ->
    kv r2 !! recordKey p id = None \/ (c' <> 0%Z /\ pending r2 c' (recordKey p id))) as Hnext.
  { intros id Hc. destruct (kv r !! recordKey p id) as [s|] eqn:Hs.
    - destruct (Hall id (mk_is_Some _ _ Hs) Hc) as [Hb|[Hc' Hpd]]; [left; by apply Hgone|right; auto].
    - left. eapply lookup_weaken_None; [exact Hs|]. by etrans. }
  destruct (Z.eqb_spec c' 0) as [->|Hc'].
  - exists r2. split; [done|]. split; [by etrans|]. intros id Hid. by destruct (Hnext id Hid) as [?|[? _]].
  - destruct (IH c' r2) as (r' & -> & Hsub & Hdone); [specialize (Hrank1 Hc'); specialize (Hrank2 c'); lia|].
    exists r'. split; [done|]. split; [by etrans; [|etrans]|]. intros id Hid.
    destruct (Hnext id Hid) as [Hn|[_ Hpd]]; [by eapply lookup_weaken_None|]. apply Hdone. by right.
Qed.

Lemma invalidateEntity_run e (w : W) (r : R) :
  removals_work -> plain_name e -> exists r', invalidateEntity e (w, r) = (Ok tt, (w, r')) /\
    kv r' ⊆ kv r /\ forall id, kv r' !! recordKey e id = None.
Proof.
  intros Hrem He. destruct (scan_loop_run (scan_limit r) e 0 r Hrem He (law_limit r)) as (r' & Hrun & Hsub & Hall).
  exists r'. unfold invalidateEntity, gets, attempt, redis, mbind, Op_bind. cbn [snd]. rewrite Hrun.
  split; [done|]. split; [done|]. intros id. apply Hall. by left.
Qed.

(** A call of the cache, on any state that is fresh: the answer and the adapter's
    new state are those of the adapter alone, and the state stays fresh. *)
Definition simulates {A} (cached : Op (W * R) A) (m : Op W A) (w : W) (r : R) : Prop :=
  (cached (w, r)).1 = (m w).1 /\ (cached (w, r)).2.1 = (m w).2 /\ fresh (cached (w, r)).2.

Lemma simulates_inner {A} (m : Op W A) w r :
  fresh (w, r) -> keeps row w (m w) -> simulates (inner m) m w r.
Proof.
  intros Hf Hn. unfold simulates, inner, keeps in *.
  destruct (m w) as [x w']. split; [done|]. split; [done|]. by eapply fresh_same.
Qed.

Lemma simulates_write {A} (m : Op W A) (inv : A -> Op (W * R) unit) w r changed :
  fresh (w, r) -> writes row w (m w) changed ->
  (forall a w', exists r', inv a (w', r) = (Ok tt, (w', r')) /\ kv r' ⊆ kv r /\
    forall e id, plain_name e -> changed a e id -> kv r' !! recordKey e id = None) ->
  simulates (write_then m inv) m w r.
Proof.
  intros Hf Hw Hinv. unfold simulates, write_then, inner, mbind, Op_bind.
  destruct (m w) as [[a|er|x|] w'] eqn:Hm; cbn [fst snd recast].
  2-4: split; [done|]; split; [done|]; by eapply fresh_kept.
  destruct (Hinv a w') as (r' & -> & Hsub & Hgone). cbn. split; [done|]. split; [done|].
  eapply fresh_after; [exact Hf|exact Hw|done|]. intros e id He Hs Hch. by apply Hs, Hgone.
Qed.

Lemma named_id e v e' id : named_by e v e' id -> e' = e /\ id <> "" /\ idFromRecord v = id.
Proof.
  intros (-> & Hid & Hv). split; [done|]. split; [done|]. unfold idFromRecord.
  destruct v as [| | | | | |m]; try (destruct Hv as [Hv|(n & Hv & _)]; discriminate).
  cbn [is_object negb]. by destruct Hv as [->|(n & -> & ->)].
Qed.

Lemma invalidate_named e v (w : W) (r : R) :
  removals_work -> exists r', invalidateRecord e (idFromRecord v) (w, r) = (Ok tt, (w, r')) /\ kv r' ⊆ kv r /\
    forall e' id, plain_name e' -> named_by e v e' id -> kv r' !! recordKey e' id = None.
Proof.
  intros Hrem. destruct (invalidateRecord_run e (idFromRecord v) w r Hrem) as (r' & Hrun & Hsub & Hgone).
  exists r'. split; [done|]. split; [done|]. intros e' id _ (-> & Hne & <-)%named_id. by apply Hgone.
Qed.

Lemma invalidate_one {A} e id (a : A) (w : W) (r : R) :
  removals_work -> exists r', invalidateRecord e id (w, r) = (Ok tt, (w, r')) /\ kv r' ⊆ kv r /\
    forall e' id', plain_name e' -> one_row e id a e' id' -> kv r' !! recordKey e' id' = None.
Proof.
  intros Hrem. destruct (invalidateRecord_run e id w r Hrem) as (r' & Hrun & Hsub & Hgone).
  exists r'. split; [done|]. split; [done|]. intros e' id' _ (-> & -> & Hne). by apply Hgone.
Qed.

Lemma invalidate_all {A} e (a : A) (w : W) (r : R) :
  removals_work -> plain_name e -> exists r', invalidateEntity e (w, r) = (Ok tt, (w, r')) /\ kv r' ⊆ kv r /\
    forall e' id', plain_name e' -> one_entity e a e' id' -> kv r' !! recordKey e' id' = None.
Proof.
  intros Hrem He. destruct (invalidateEntity_run e w r Hrem He) as (r' & Hrun & Hsub & Hgone).
  exists r'. split; [done|]. split; [done|]. by intros e' id' _ ->.
Qed.

Lemma read_through_run e id w r :
  fresh (w, r) -> plain_name e -> simulates (read_through ttl (recordKey e id) e id) (do_read e id) w r.
Proof.
  intros Hf He. unfold simulates, read_through, inner, mbind, Op_bind.
  destruct (row_read w e id) as [Hn Hval]. unfold keeps in Hn.
  destruct (do_read e id w) as [[v|er|x|] w'] eqn:Hrd; cbn [fst snd recast] in *.
  2-4: split; [done|]; split; [done|]; by apply (fresh_same w r).
  specialize (Hval v w' eq_refl).
  assert (fresh (w', r)) as Hf' by by apply (fresh_same w r).
  unfold attempt, of_result, dump, redis. destruct (dump_text v) as [s|] eqn:Hd; [|done].
  pose proof (law_setex (recordKey e id) ttl s r) as H.
  assert (forall r', kv r' ⊆ <[recordKey e id := s]> (kv r) -> fresh (w', r')) as Hgo.
  { intros r' Hsub e' id' s' v' He' Hs Hp. cbn [fst snd] in *. eapply lookup_weaken in Hs; [|exact Hsub].
    apply lookup_insert_Some in Hs as [[Hk <-]|[_ Hs]]; [|by apply (Hf' e' id' s' v')].
    apply recordKey_inj in Hk as [<- <-]; [|done..]. rewrite Hn, Hval.
    rewrite (text_of_rows _ _ _ _ _ Hval Hd) in Hp. congruence. }
  destruct (redis_setex (recordKey e id) ttl s r) as [[u|er|x|] r2]; try done.
  all: split; [done|]; split; [done|]; by apply Hgo.
Qed.

(** A read: answered by the copy of a row, or as the adapter answers. *)
Lemma read_run e id w r :
  fresh (w, r) -> plain_name e ->
  (exists v r', read ttl e id (w, r) = (Ok v, (w, r')) /\ row w e id = Some v /\ fresh (w, r')) \/
  simulates (read ttl e id) (do_read e id) w r.
Proof.
  intros Hf He. unfold read. set (key := recordKey e id).
  assert (exists o r1, attempt (redis (redis_get key)) (w, r) = (Ok o, (w, r1)) /\ kv r1 ⊆ kv r /\
    forall s, o ≫= (fun h => h) = Some s -> kv r !! key = Some s) as (o & r1 & Hget & Hsub & Ho).
  { unfold attempt, redis. pose proof (law_get key r) as H. destruct (redis_get key r) as [[o|er|x|] r1]; try done.
    - destruct H as [Hsub H]. exists (Some o), r1. done.
    - by exists None, r1. }
    assert (fresh (w, r1)) as Hf1 by by apply (fresh_same w r).
  destruct (text ← o ≫= (fun h => h); parse text) as [v|] eqn:Hv.
  - left. exists v, r1. split; [by rewrite (run_bind_ok _ _ _ _ _ Hget), Hv|].
    apply bind_Some in Hv as (s & Hs & Hp). split; [|done].
    apply (Hf e id s v He); [by apply Ho|done].
  - right. destruct (read_through_run e id w r1 Hf1 He) as (H1 & H2 & H3).
    unfold simulates. by rewrite (run_bind_ok _ _ _ _ _ Hget), Hv.
Qed.

(** The bulk writes name an entity. *)
Definition call_ok {A} (c : db_call A) : Prop :=
  match c with DbCreateMany e _ | DbUpdateMany e _ _ | DbDeleteMany e _ => plain_name e | _ => True end.
(** A commit succeeds. *)
Definition commits {A} (c : db_call A) (w : W) : Prop :=
  match c with DbCommit => isOk (do_commitTransaction w).1 = true | _ => True end.

Lemma inner_same {A} (m : Op W A) w (r : R) : (inner m (w, r)).1 = (m w).1 /\ (inner m (w, r)).2.1 = (m w).2.
Proof. unfold inner. by destruct (m w). Qed.

Lemma call_simulates {A} (c : db_call A) w r :
  removals_work -> fresh (w, r) -> call_ok c -> commits c w ->
  simulates (issue_call (ad := CachingAdapter ttl) c) (issue_call c) w r.
Proof.
  intros Hrem Hf Hc Hok. destruct c; cbn [issue_call CachingAdapter do_create do_update do_remove do_upsert do_createMany
    do_updateMany do_deleteMany do_readIncludingSensitive do_list do_findFirst do_findByField do_search
    do_getAvailableEntities do_getEntitySchema do_close do_beginTransaction do_commitTransaction];
    try (apply simulates_inner; [done|]; auto using row_readIncludingSensitive, row_list, row_findFirst,
      row_findByField, row_search, row_entities, row_schema, row_close, row_begin; fail).
  - eapply simulates_write; [done|apply row_create|]. intros ? w'. by apply invalidate_named.
  - eapply simulates_write; [done|apply writes_or_keeps_writes, row_update|]. intros ? w'. by apply invalidate_one.
  - eapply simulates_write; [done|apply writes_or_keeps_writes, row_remove|]. intros ? w'. by apply invalidate_one.
  - eapply simulates_write; [done|apply row_upsert|]. intros ? w'. by apply invalidate_named.
  - eapply simulates_write; [done|apply row_createMany|]. intros ? w'. by apply invalidate_all.
  - eapply simulates_write; [done|apply row_updateMany|]. intros ? w'. by apply invalidate_all.
  - eapply simulates_write; [done|apply row_deleteMany|]. intros ? w'. by apply invalidate_all.
  - apply simulates_inner; [done|]. cbn in Hok. destruct (do_commitTransaction w) as [[b| | |] w'] eqn:Hd; try done.
    by eapply row_commit.
Qed.

(** Runs of a daemon whose adapter is the cache: any sequence of the calls above
    and of reads, by entity names that are plain, in which commits succeed. *)
Inductive cache_step : W * R -> W * R -> Prop :=
  | step_call {A} (c : db_call A) s :
      call_ok c -> commits c s.1 -> cache_step s (issue_call (ad := CachingAdapter ttl) c s).2
  | step_read e id s : plain_name e -> cache_step s (read ttl e id s).2.

Lemma fresh_run s s' : removals_work -> rtc cache_step s s' -> fresh s -> fresh s'.
Proof.
  intros Hrem. induction 1 as [|s s1 s2 Hstep _ IH]; [done|]. intros Hf. apply IH.
  destruct Hstep as [A c [w r] Hc Hok|e id [w r] He].
  - by apply call_simulates.
  - destruct (read_run e id w r Hf He) as [(v & r' & -> & _ & Hf')|(_ & _ & Hf')]; done.
Qed.

(** C5. The cache answers what is in the database.  From a cache that starts empty,
    in every run of creates, updates, removals, bulk writes, queries, transactions
    that commit and reads by plain entity names, whichever GET and SETEX commands
    fail and whichever entries expire: every call answers and changes the database as
    the adapter alone would, and a read answers either as the adapter would or with
    the row there is.  It takes that removals from the cache work, and of the adapter
    (the class [Rows]) that a call changes the rows it reports only, that a write that
    fails leaves the rows there were as they were (a list of creations may keep its
    first records), a failed update or removal leaving all rows alone, and that queries
    change nothing; the theorems below show what happens otherwise. *)
Theorem cache_transparent w0 r0 w r :
  removals_work -> kv r0 = ∅ -> rtc cache_step (w0, r0) (w, r) ->
  (forall A (c : db_call A), call_ok c ->
     (issue_call (ad := CachingAdapter ttl) c (w, r)).1 = (issue_call c w).1 /\
     (issue_call (ad := CachingAdapter ttl) c (w, r)).2.1 = (issue_call c w).2) /\
  (forall e id, plain_name e ->
     (exists v r', read ttl e id (w, r) = (Ok v, (w, r')) /\ row w e id = Some v) \/
     ((read ttl e id (w, r)).1 = (do_read e id w).1 /\ (read ttl e id (w, r)).2.1 = (do_read e id w).2)).
Proof.
  intros Hrem H0 Hrun. assert (fresh (w, r)) as Hf.
  { eapply fresh_run; [done|exact Hrun|]. intros e id s v _ Hs. cbn [snd] in Hs. by rewrite H0 in Hs. }
  split.
  - intros A c Hc. destruct c; try (destruct (call_simulates _ w r Hrem Hf Hc I) as (H1 & H2 & _); done).
    apply (inner_same do_commitTransaction).
  - intros e id He. destruct (read_run e id w r Hf He) as [(v & r' & Hr & Hv & _)|(H1 & H2 & _)]; [left|right]; eauto.
Qed.
End Transparency.

(** ** A server *)

(** A server in memory whose removals fail when it is broken. *)
Definition mem_redis (broken : bool) : RedisCache (gmap string string) := {|
  redis_get k := fun r => (Ok (r !! k), r);
  redis_setex k _ v := fun r => (Ok tt, <[k := v]> r);
  redis_del k := fun r => if broken then (Throw (runtime_error "connection lost"), r) else (Ok 1%Z, delete k r);
  redis_scan _ _ _ := fun r => (Ok (0%Z, (map_to_list r).*1), r);
  redis_unlink ks := fun r =>
    if broken then (Throw (runtime_error "connection lost"), r) else (Ok 0%Z, foldr delete r ks);
  scan_limit _ := 1;
|}.

Lemma foldr_delete_sub (r : gmap string string) ks :
  foldr delete r ks ⊆ r /\ forall k, k ∈ ks -> foldr delete r ks !! k = None.
Proof.
  induction ks as [|k ks [Hsub Hnone]]; cbn.
  - split; [done|]. intros k Hk. by apply elem_of_nil in Hk.
  - split; [etrans; [apply delete_subseteq|done]|]. intros k' [->|Hk]%elem_of_cons.
    + apply lookup_delete_eq.
    + apply lookup_delete_None. right. by apply Hnone.
Qed.

Program Definition mem_laws (broken : bool) : @RedisLaws _ (mem_redis broken) :=
  {| kv r := r; pending _ _ _ := False; scan_rank _ _ := 0 |}.
Next Obligation. intros broken k r. cbn. done. Qed.
Next Obligation. intros broken k t v r. cbn. done. Qed.
Next Obligation. intros broken k r. cbn. by destruct broken. Qed.
Next Obligation.
  intros broken ks r. cbn. destruct broken; [done|]. destruct (foldr_delete_sub r ks) as [H1 H2]. auto.
Qed.
Next Obligation.
  intros broken c p n r Hp. cbn. split; [done|]. split; [|done]. intros id [s Hs] _. left.
  apply list_elem_of_fmap. exists (recordKey p id, s). split; [done|]. by apply elem_of_map_to_list.
Qed.
Next Obligation. intros broken r. cbn. lia. Qed.

(** Values that are texts are their own representation. *)
#[local] Instance text_json : JsonLib := {|
  dump_text v := match v with JString s => Some s | _ => None end;
  parse s := Some (JString s);
  stod _ := None;
|}.

Lemma text_of_demo_rows (d : DemoDb) (e id : string) (v : json) (s : string) :
  row d e id = Some v -> dump_text v = Some s -> parse s = Some v.
Proof. intros _. cbn. by destruct v; intros [= ->]. Qed.

Definition demo_start : DemoDb * gmap string string :=
  (mkDemoDb {[("User", "1") := JString "ada"]} None, ∅).
Definition cached_read broken := @read DemoDb _ _ (mem_redis broken) _ 300 "User" "1".
Definition cached_update broken := @update DemoDb _ _ (mem_redis broken) "User" "1" (JString "bob").

Lemma cache_transparent_witness :
  let s1 := (cached_read false demo_start).2 in
  let s2 := (cached_update false s1).2 in
  (cached_read false s2).1 = Ok (JString "bob").
Proof.
  cbv zeta.
  set (s2 := (cached_update false (cached_read false demo_start).2).2).
  assert (rtc (@cache_step DemoDb _ _ (mem_redis false) _ 300) demo_start s2) as Hrun.
  { eapply rtc_l; [apply (step_read (RedisCache0 := mem_redis false) 300 "User" "1"); reflexivity|].
    apply rtc_once.
    exact (step_call (RedisCache0 := mem_redis false) 300 (DbUpdate "User" "1" (JString "bob")) _ I I). }
  pose proof (@cache_transparent DemoDb _ _ demo_rows (mem_redis false) (mem_laws false) _ 300
    text_of_demo_rows demo_start.1 demo_start.2 s2.1 s2.2) as H.
  rewrite <- !surjective_pairing in H.
  destruct (proj2 (H ltac:(done) eq_refl Hrun) "User" "1" eq_refl) as [(v & r' & Hr & Hv)|[Hr _]].
  - unfold cached_read. rewrite Hr. vm_compute in Hv. by injection Hv as <-.
  - etransitivity; [exact Hr|]. vm_compute. reflexivity.
Defined.

(** A rollback leaves stale copies.  The class forwards [rollbackTransaction]
    and drops nothing: a row updated and read inside a transaction that is then
    rolled back is answered from the cache with the value that was undone. *)
Theorem rollback_leaves_stale_copy :
  let run (s : DemoDb * gmap string string) :=
    let s1 := (@inner DemoDb (gmap string string) _ do_beginTransaction s).2 in
    let s2 := (cached_update false s1).2 in
    let s3 := (cached_read false s2).2 in
    (@do_rollbackTransaction _ (@CachingAdapter DemoDb _ _ (mem_redis false) _ 300) s3).2 in
  row (run demo_start).1 "User" "1" = Some (JString "ada") /\
  (cached_read false (run demo_start)).1 = Ok (JString "bob").
Proof. split; vm_compute; reflexivity. Qed.

(** The adapter of the example, but an update is done and then reported as failed:
    as where the row is written and reading it back fails. *)
Definition late_adapter : Adapter DemoDb := {|
  do_create := do_create; do_read := do_read; do_remove := do_remove; do_upsert := do_upsert;
  do_update e id v := fun d =>
    (Err (internal "the row cannot be read back"), mkDemoDb (<[(e, id) := v]> (db_live d)) (db_saved d));
  do_createMany := do_createMany; do_updateMany := do_updateMany; do_deleteMany := do_deleteMany;
  do_search := do_search; do_readIncludingSensitive := do_readIncludingSensitive; do_list := do_list;
  do_findFirst := do_findFirst; do_findByField := do_findByField;
  do_getAvailableEntities := do_getAvailableEntities; do_getEntitySchema := do_getEntitySchema;
  do_close := do_close; supportsNativeTransactions := supportsNativeTransactions;
  do_beginTransaction := do_beginTransaction; do_commitTransaction := do_commitTransaction;
  do_rollbackTransaction := do_rollbackTransaction;
|}.

(** A write that fails after it changed the row leaves a stale copy: entries are
    dropped after a success only. *)
Theorem late_failure_leaves_stale_copy :
  let s1 := (cached_read false demo_start).2 in
  let s2 := (@update DemoDb _ late_adapter (mem_redis false) "User" "1" (JString "bob") s1).2 in
  row s2.1 "User" "1" = Some (JString "bob") /\ (cached_read false s2).1 = Ok (JString "ada").
Proof. split; vm_compute; reflexivity. Qed.

(** An update whose removal from the cache fails succeeds all the same, and
    reads go on answering the old value: an unreachable cache does cost more than
    latency. *)
Theorem failed_removal_leaves_stale_copy :
  let s1 := (cached_read true demo_start).2 in
  (cached_update true s1).1 = Ok (JString "bob") /\
  row (cached_update true s1).2.1 "User" "1" = Some (JString "bob") /\
  (cached_read true (cached_update true s1).2).1 = Ok (JString "ada").
Proof. split_and!; vm_compute; reflexivity. Qed.
