(* ===== verification/Base64.v ===== *)
(** * Base64, hexadecimal, constant-time comparison

    Models src/security/jwt/base64url.hpp, src/saml/binding/base64_standard.hpp
    and src/security/crypto/timing_safe_equal.hpp.  Bytes are characters; [int]
    and [uint32_t] are 32 bits wide, shifts of [int] wrap (the sources are
    C++20). *)

From S2P Require Import Prelude CxxString CxxStd Json Uuid.

Open Scope string_scope.

(** ** The alphabet *)

Definition b64chars : string := "ABCDEFGHIJKLMNOPQRSTUVWXYZabcdefghijklmnopqrstuvwxyz0123456789+/".

Fixpoint char_at (n : nat) (s : string) : ascii :=
  match n, s with
  | 0, String c _ => c
  | S n, String _ s => char_at n s
  | _, EmptyString => "000"
  end.

(** [b64chars[n & 0x3F]] of the word [n] shifted right by [k]. *)
Definition sextet (n k : Z) : ascii := char_at (Z.to_nat (Z.land (Z.shiftr n k) 63)) b64chars.

(** A byte as an integer, and back. *)
Definition byte_val (c : ascii) : Z := Z.of_N (N_of_ascii c).
Definition to_byte (n : Z) : ascii := ascii_of_N (Z.to_N (Z.land n 255)).

Definition word3 (a b c : ascii) : Z :=
  Z.lor (Z.shiftl (byte_val a) 16) (Z.lor (Z.shiftl (byte_val b) 8) (byte_val c)).

(** ** Encoding *)

(** Three bytes at a time, and the one or two that are left, padded or not. *)
Fixpoint encode_groups (pad : bool) (data : string) : string :=
  match data with
  | String a (String b (String c rest)) =>
      let n := word3 a b c in
      String (sextet n 18) (String (sextet n 12) (String (sextet n 6) (String (sextet n 0)
        (encode_groups pad rest))))
  | String a (String b EmptyString) =>
      let n := word3 a b "000" in
      String (sextet n 18) (String (sextet n 12) (String (sextet n 6) (if pad then "=" else "")))
  | String a EmptyString =>
      let n := word3 a "000" "000" in
      String (sextet n 18) (String (sextet n 12) (if pad then "==" else ""))
  | EmptyString => ""
  end.

Definition url_char (c : ascii) : ascii :=
  if Ascii.eqb c "+" then "-" else if Ascii.eqb c "/" then "_" else c.
Definition standard_char (c : ascii) : ascii :=
  if Ascii.eqb c "-" then "+" else if Ascii.eqb c "_" then "/" else c.

Definition base64url_encode (data : string) : string := string_map url_char (encode_groups false data).
Definition base64_encode (data : string) : string := encode_groups true data.

(** ** Decoding *)

(** What a decoder makes of a character: the end of the text, a character to
    skip, an error, a value. *)
Inductive Symbol := Stop | Skip | Invalid | Value (d : Z).

(** The accumulator [val], the count [valb] of bits in it less 8. *)
Definition push_bits (val d : Z) : Z := (wrap_int (Z.shiftl val 6) + d)%Z.

Fixpoint decode_loop (symbol : ascii -> Symbol) (s : string) (val valb : Z) : Result string :=
  match s with
  | EmptyString => Ok ""
  | String c s =>
      match symbol c with
      | Stop => Ok ""
      | Skip => decode_loop symbol s val valb
      | Invalid => Throw (runtime_error "Invalid base64 character")
      | Value d =>
          let val := push_bits val d in
          let valb := (valb + 6)%Z in
          if (0 <=? valb)%Z
          then rest ← decode_loop symbol s val (valb - 8);
               Ok (String (to_byte (Z.shiftr val valb)) rest)
          else decode_loop symbol s val valb
      end
  end.

Definition lenient_symbol (c : ascii) : Symbol :=
  if Ascii.eqb c "=" then Stop
  else match find_char c b64chars with Some pos => Value (Z.of_nat pos) | None => Skip end.

(** [while (s.size() % 4 != 0) s += '=';] *)
Definition pad4 (s : string) : string :=
  match (String.length s mod 4)%nat with 0 => s | 1 => s +:+ "===" | 2 => s +:+ "==" | _ => s +:+ "=" end.

(** The url decoder has no error case. *)
Definition base64url_decode (input : string) : string :=
  match decode_loop lenient_symbol (pad4 (string_map standard_char input)) 0 (-8) with
  | Ok bytes => bytes
  | _ => ""
  end.

(** The lambda [charVal]. *)
Definition charVal (c : ascii) : Z :=
  let n := byte_val c in
  if in_range "A" "Z" c then n - 65
  else if in_range "a" "z" c then n - 97 + 26
  else if in_range "0" "9" c then n - 48 + 52
  else if Ascii.eqb c "+" then 62
  else if Ascii.eqb c "/" then 63
  else -1.

Definition strict_symbol (c : ascii) : Symbol :=
  if Ascii.eqb c "=" then Stop
  else if Ascii.eqb c "013" || Ascii.eqb c "010" || Ascii.eqb c " " || Ascii.eqb c "009" then Skip
  else if (charVal c <? 0)%Z then Invalid else Value (charVal c).

Definition base64_decode (input : string) : Result string := decode_loop strict_symbol input 0 (-8).

(** ** Hexadecimal *)

Fixpoint to_hex (bytes : string) : string :=
  match bytes with
  | EmptyString => ""
  | String b rest =>
      String (hex_digit (Z.land (Z.shiftr (byte_val b) 4) 15))
        (String (hex_digit (Z.land (byte_val b) 15)) (to_hex rest))
  end.

Definition base64url_to_hex (b64url : string) : string := to_hex (base64url_decode b64url).

(** ** Comparison in constant time *)

(** The loop that gathers the differing bits, over two strings of one length. *)
Fixpoint xor_all (a b : string) (result : Z) : Z :=
  match a, b with
  | String x a, String y b => xor_all a b (Z.lor result (Z.lxor (byte_val x) (byte_val y)))
  | _, _ => result
  end.

Definition timing_safe_equal (a b : string) : bool :=
  if negb (String.length a =? String.length b)%nat then false else (xor_all a b 0 =? 0)%Z.

(** ** Words and their parts *)

Lemma lor_shiftl a b k : (0 <= k)%Z -> (0 <= b < 2 ^ k)%Z -> Z.lor (Z.shiftl a k) b = (a * 2 ^ k + b)%Z.
Proof.
  intros Hk Hb. rewrite <- Z.shiftl_mul_pow2 by done.
  rewrite <- (Z.add_lor_land (Z.shiftl a k) b).
  assert (Z.land (Z.shiftl a k) b = 0%Z) as ->; [|lia].
  apply Z.bits_inj'. intros n Hn. rewrite Z.land_spec, Z.bits_0, Z.shiftl_spec by done.
  destruct (Z.lt_ge_cases n k); [by rewrite Z.testbit_neg_r by lia|].
  rewrite <- (Z.mod_small b (2 ^ k)) by done. rewrite Z.mod_pow2_bits_high by lia.
  apply andb_false_r.
Qed.

Lemma byte_val_range c : (0 <= byte_val c < 256)%Z.
Proof. unfold byte_val. pose proof (N_ascii_bounded c). lia. Qed.

Lemma to_byte_val c : ascii_of_N (Z.to_N (byte_val c)) = c.
Proof. unfold byte_val. rewrite N2Z.id. apply ascii_N_embedding. Qed.

Lemma word3_sum a b c : word3 a b c = (byte_val a * 65536 + byte_val b * 256 + byte_val c)%Z.
Proof.
  pose proof (byte_val_range a). pose proof (byte_val_range b). pose proof (byte_val_range c).
  unfold word3. rewrite (lor_shiftl (byte_val b) _ 8) by (cbn; lia).
  rewrite lor_shiftl by (cbn; lia). cbn. lia.
Qed.

Lemma sextet_index n k : (0 <= k)%Z -> Z.land (Z.shiftr n k) 63 = ((n / 2 ^ k) mod 64)%Z.
Proof. intros Hk. rewrite Z.shiftr_div_pow2 by done. change 63%Z with (Z.ones 6). by rewrite Z.land_ones. Qed.

Lemma to_byte_mod n : to_byte n = ascii_of_N (Z.to_N (n mod 256)).
Proof. unfold to_byte. change 255%Z with (Z.ones 8). by rewrite Z.land_ones. Qed.

(** Only the low bits of the accumulator matter. *)
Lemma push_bits_mod val d : (push_bits val d mod 4096 = (val * 64 + d) mod 4096)%Z.
Proof.
  unfold push_bits, wrap_int, INT_MIN. rewrite Z.shiftl_mul_pow2 by done. cbn [Z.pow Z.pow_pos Pos.iter Z.mul].
  change (2 ^ 6)%Z with 64%Z. change (2 ^ 32)%Z with 4294967296%Z. change (- 2 ^ 31)%Z with (-2147483648)%Z.
  Z.div_mod_to_equations. lia.
Qed.

Lemma push_low w q : (0 <= q < 64)%Z -> (push_bits w q mod 64 = q)%Z.
Proof.
  intros Hq. pose proof (push_bits_mod w q) as H. revert H. generalize (push_bits w q). intros x H.
  assert (x mod 64 = (x mod 4096) mod 64)%Z as -> by (Z.div_mod_to_equations; lia).
  rewrite H. Z.div_mod_to_equations. lia.
Qed.

Lemma push_byte w p q k :
  (w mod 64 = p)%Z -> (0 <= q < 64)%Z -> (k = 0 \/ k = 2 \/ k = 4)%Z ->
  to_byte (Z.shiftr (push_bits w q) k) = ascii_of_N (Z.to_N (((p * 64 + q) / 2 ^ k) mod 256)).
Proof.
  intros Hp Hq Hk. rewrite to_byte_mod, Z.shiftr_div_pow2 by lia. do 2 f_equal.
  pose proof (push_bits_mod w q) as H. revert H. generalize (push_bits w q). intros x H.
  assert ((w * 64 + q) mod 4096 = p * 64 + q)%Z as Hw by (subst p; Z.div_mod_to_equations; lia).
  rewrite Hw in H.
  destruct Hk as [-> | [-> | ->]]; cbn [Z.pow Z.pow_pos Pos.iter Z.mul Pos.mul];
    Z.div_mod_to_equations; lia.
Qed.

(** ** Decoding what was encoded *)

Section RoundTrip.
Context (symbol : ascii -> Symbol).
Context (symbol_value : forall p, (0 <= p < 64)%Z -> symbol (char_at (Z.to_nat p) b64chars) = Value p).
Context (symbol_stop : symbol "=" = Stop).

Lemma decode_sextet n k s val valb :
  (0 <= k)%Z ->
  decode_loop symbol (String (sextet n k) s) val valb =
    let val := push_bits val ((n / 2 ^ k) mod 64) in
    let valb := (valb + 6)%Z in
    if (0 <=? valb)%Z
    then rest ← decode_loop symbol s val (valb - 8); Ok (String (to_byte (Z.shiftr val valb)) rest)
    else decode_loop symbol s val valb.
Proof.
  intros Hk. cbn [decode_loop]. unfold sextet. rewrite sextet_index by done.
  rewrite symbol_value; [done|]. apply Z.mod_pos_bound. lia.
Qed.

(** The three bytes of a word, from its sextets. *)
Ltac byte_goal a b c :=
  pose proof (byte_val_range a); pose proof (byte_val_range b); pose proof (byte_val_range c);
  change (byte_val "000") with 0%Z in *;
  change (2 ^ 4)%Z with 16%Z; change (2 ^ 2)%Z with 4%Z; change (2 ^ 0)%Z with 1%Z;
  Z.div_mod_to_equations; lia.

Lemma decode_first n k s val :
  (0 <= k)%Z -> decode_loop symbol (String (sextet n k) s) val (-8) =
    decode_loop symbol s (push_bits val ((n / 2 ^ k) mod 64)) (-2).
Proof. intros Hk. by rewrite decode_sextet. Qed.

(** The sextet that completes the byte [c], [j] bits of it being the next's. *)
Lemma decode_byte n k s w j c :
  (0 <= k)%Z -> (w mod 64 = (n / 2 ^ (k + 6)) mod 64)%Z -> (j = 0 \/ j = 2 \/ j = 4)%Z ->
  ((((n / 2 ^ (k + 6)) mod 64 * 64 + (n / 2 ^ k) mod 64) / 2 ^ j) mod 256 = byte_val c)%Z ->
  decode_loop symbol (String (sextet n k) s) w (j - 6) =
    rest ← decode_loop symbol s (push_bits w ((n / 2 ^ k) mod 64)) (j - 8); Ok (String c rest).
Proof.
  intros Hk Hw Hj Hc. rewrite decode_sextet by done. cbv zeta. rewrite Z.sub_add.
  rewrite (proj2 (Z.leb_le 0 j)) by lia.
  by rewrite (push_byte w _ _ j Hw), Hc, to_byte_val by (done || apply Z.mod_pos_bound; lia).
Qed.

Lemma decode_encoded data val :
  decode_loop symbol (encode_groups true data) val (-8) = Ok data.
Proof.
  remember (String.length data) as len eqn:Hlen. revert data val Hlen.
  induction len as [len IH] using lt_wf_ind. intros data val ->.
  assert (forall a b c, ((word3 a b c / 2 ^ 18) mod 64 = byte_val a / 4 /\
    (word3 a b c / 2 ^ 12) mod 64 = byte_val a mod 4 * 16 + byte_val b / 16 /\
    (word3 a b c / 2 ^ 6) mod 64 = byte_val b mod 16 * 4 + byte_val c / 64 /\
    (word3 a b c / 2 ^ 0) mod 64 = byte_val c mod 64)%Z) as Hword.
  { intros a b c. rewrite word3_sum. pose proof (byte_val_range a). pose proof (byte_val_range b).
    pose proof (byte_val_range c).
    change (2 ^ 18)%Z with 262144%Z. change (2 ^ 12)%Z with 4096%Z. change (2 ^ 6)%Z with 64%Z.
    change (2 ^ 0)%Z with 1%Z. Z.div_mod_to_equations. lia. }
  assert (forall x, 0 <= (x mod 64) < 64)%Z as Hmod by (intros; apply Z.mod_pos_bound; lia).
  assert (forall s val c, symbol "=" = Stop -> decode_loop symbol (String "=" s) val c = Ok "") as Hstop
    by (intros s v c Hs; cbn; by rewrite Hs).
  destruct data as [|a [|b [|c rest]]]; cbn [encode_groups]; [done| | |].
  - destruct (Hword a "000"%char "000"%char) as (H0 & H1 & _). rewrite decode_first by done.
    change (-2)%Z with (4 - 6)%Z. rewrite (decode_byte _ _ _ _ _ a); [by rewrite Hstop|done|apply push_low, Hmod|auto|].
    change (12 + 6)%Z with 18%Z. rewrite H0, H1. byte_goal a "000"%char "000"%char.
  - destruct (Hword a b "000"%char) as (H0 & H1 & H2 & _). rewrite decode_first by done.
    change (-2)%Z with (4 - 6)%Z. rewrite (decode_byte _ _ _ _ _ a); [|done|apply push_low, Hmod|auto|].
    2: { change (12 + 6)%Z with 18%Z. rewrite H0, H1. byte_goal a b "000"%char. }
    change (4 - 8)%Z with (2 - 6)%Z. rewrite (decode_byte _ _ _ _ _ b); [by rewrite Hstop|done|apply push_low, Hmod|auto|].
    change (6 + 6)%Z with 12%Z. rewrite H1, H2. byte_goal a b "000"%char.
  - destruct (Hword a b c) as (H0 & H1 & H2 & H3). rewrite decode_first by done.
    change (-2)%Z with (4 - 6)%Z. rewrite (decode_byte _ _ _ _ _ a); [|done|apply push_low, Hmod|auto|].
    2: { change (12 + 6)%Z with 18%Z. rewrite H0, H1. byte_goal a b c. }
    change (4 - 8)%Z with (2 - 6)%Z. rewrite (decode_byte _ _ _ _ _ b); [|done|apply push_low, Hmod|auto|].
    2: { change (6 + 6)%Z with 12%Z. rewrite H1, H2. byte_goal a b c. }
    change (2 - 8)%Z with (0 - 6)%Z. rewrite (decode_byte _ _ _ _ _ c); [|done|apply push_low, Hmod|auto|].
    2: { change (0 + 6)%Z with 6%Z. rewrite H2, H3. byte_goal a b c. }
    change (0 - 8)%Z with (-8)%Z. rewrite (IH (String.length rest)); [done|cbn; lia|done].
Qed.
End RoundTrip.

(** Both symbol tables read the alphabet. *)
Lemma alphabet_forall (p : Z -> bool) :
  forallb p (Z.of_nat <$> seq 0 64) = true -> forall n, (0 <= n < 64)%Z -> p n = true.
Proof.
  intros H n Hn. rewrite forallb_forall in H. apply H, list_elem_of_In, list_elem_of_fmap.
  exists (Z.to_nat n). split; [lia|]. apply elem_of_seq. lia.
Qed.

Definition symbol_eqb (s : Symbol) (d : Z) : bool := match s with Value e => (e =? d)%Z | _ => false end.
Lemma symbol_eqb_eq s d : symbol_eqb s d = true -> s = Value d.
Proof. destruct s; try done. cbn. by intros ->%Z.eqb_eq. Qed.

Lemma lenient_value p : (0 <= p < 64)%Z -> lenient_symbol (char_at (Z.to_nat p) b64chars) = Value p.
Proof.
  intros Hp. apply symbol_eqb_eq.
  apply (alphabet_forall (fun p => symbol_eqb (lenient_symbol (char_at (Z.to_nat p) b64chars)) p)); [|done].
  vm_compute. reflexivity.
Qed.

Lemma strict_value p : (0 <= p < 64)%Z -> strict_symbol (char_at (Z.to_nat p) b64chars) = Value p.
Proof.
  intros Hp. apply symbol_eqb_eq.
  apply (alphabet_forall (fun p => symbol_eqb (strict_symbol (char_at (Z.to_nat p) b64chars)) p)); [|done].
  vm_compute. reflexivity.
Qed.

Lemma standard_url_sextet n k : (0 <= k)%Z -> standard_char (url_char (sextet n k)) = sextet n k.
Proof.
  intros Hk. unfold sextet. rewrite sextet_index by done. apply Ascii.eqb_eq.
  apply (alphabet_forall (fun p => Ascii.eqb (standard_char (url_char (char_at (Z.to_nat p) b64chars)))
                                     (char_at (Z.to_nat p) b64chars))).
  - vm_compute. reflexivity.
  - apply Z.mod_pos_bound. lia.
Qed.

(** Three bytes at a time. *)
Lemma string_ind3 (P : string -> Prop) :
  P "" -> (forall a, P (String a "")) -> (forall a b, P (String a (String b ""))) ->
  (forall a b c s, P s -> P (String a (String b (String c s)))) -> forall s, P s.
Proof.
  intros H0 H1 H2 H3 s. remember (String.length s) as n eqn:Hn. revert s Hn.
  induction n as [n IH] using lt_wf_ind. intros [|a [|b [|c s]]] ->; auto.
  apply H3. apply (IH (String.length s)); [cbn; lia|done].
Qed.

Lemma url_characters_back data :
  string_map standard_char (string_map url_char (encode_groups false data)) = encode_groups false data.
Proof.
  induction data as [|a|a b|a b c s IH] using string_ind3; [done| | |];
    cbn [encode_groups string_map]; rewrite !standard_url_sextet by done; [done|done|by rewrite IH].
Qed.

Lemma pad4_group c1 c2 c3 c4 s :
  pad4 (String c1 (String c2 (String c3 (String c4 s)))) =
  String c1 (String c2 (String c3 (String c4 (pad4 s)))).
Proof.
  unfold pad4. change (String.length (String c1 (String c2 (String c3 (String c4 s)))))
    with (4 + String.length s).
  replace ((4 + String.length s) mod 4) with (String.length s mod 4)
    by (rewrite Nat.add_comm; symmetry; apply (Nat.Div0.mod_add (String.length s) 1 4)).
  by destruct (String.length s mod 4) as [|[|[|k]]].
Qed.

Lemma pad4_encoded data : pad4 (encode_groups false data) = encode_groups true data.
Proof.
  induction data as [|a|a b|a b c s IH] using string_ind3; [done..|].
  cbn [encode_groups]. by rewrite pad4_group, IH.
Qed.

(** Base64 decodes what it encoded, for every byte string: the url alphabet
    without padding through the lenient decoder, which never fails, and the
    standard alphabet with padding through the strict one; the 32-bit accumulator
    of the decoders wraps around on longer texts and loses nothing. *)
Theorem base64_roundtrip data :
  base64url_decode (base64url_encode data) = data /\ base64_decode (base64_encode data) = Ok data.
Proof.
  split.
  - unfold base64url_decode, base64url_encode. rewrite url_characters_back, pad4_encoded.
    by rewrite (decode_encoded lenient_symbol lenient_value eq_refl).
  - apply (decode_encoded strict_symbol strict_value eq_refl).
Qed.

Lemma byte_val_inj a b : byte_val a = byte_val b -> a = b.
Proof. intros H. by rewrite <- (to_byte_val a), <- (to_byte_val b), H. Qed.

Lemma xor_all_zero a b r :
  String.length a = String.length b -> (0 <= r)%Z -> xor_all a b r = 0%Z <-> r = 0%Z /\ a = b.
Proof.
  revert b r. induction a as [|x a IH]; intros [|y b] r Hlen Hr; try done; cbn [xor_all].
  - naive_solver.
  - assert (0 <= Z.lxor (byte_val x) (byte_val y))%Z as Hx.
    { apply Z.lxor_nonneg. pose proof (byte_val_range x). pose proof (byte_val_range y). lia. }
    rewrite IH by (cbn in Hlen; lia || (apply Z.lor_nonneg; lia)).
    rewrite Z.lor_eq_0_iff, Z.lxor_eq_0_iff. split.
    + intros ((-> & ->%byte_val_inj) & ->). done.
    + intros (-> & [= -> ->]). done.
Qed.

Lemma timing_safe_equal_eq a b : timing_safe_equal a b = true <-> a = b.
Proof.
  unfold timing_safe_equal. destruct (Nat.eqb_spec (String.length a) (String.length b)) as [Hlen|Hne]; cbn [negb].
  - rewrite Z.eqb_eq, xor_all_zero by done. naive_solver.
  - split; [done|]. by intros ->.
Qed.

(** The comparison in constant time is equality. *)
Theorem timing_safe_equal_spec a b : timing_safe_equal a b = true <-> a = b.
Proof. exact (timing_safe_equal_eq a b). Qed.
