(* ===== verification/Oidc.v ===== *)
(** * The OpenID Connect provider

    Models src/oidc/oidc_service.cpp, src/oidc/pkce/pkce.hpp and
    src/oidc/clients/oauth_client_config.cpp over the stores of OneTime and
    RefreshTokens: the registry of clients, the checks of an authorization
    request, sessions, and the two exchanges that answer tokens.  SHA-256 and the
    signing of tokens are arguments; so are the readings of the clock ([clock i]
    is the i-th of a call) and the random tokens drawn ([draw i]). *)

From S2P Require Import Prelude CxxString CxxStd Regex Store Json Base64 EntityHost Adapter OneTime RefreshTokens.

Open Scope string_scope.

(** ** Scopes *)

(** The pieces of a string between spaces. *)
Fixpoint pieces (s : string) : list string :=
  match s with
  | EmptyString => [""]
  | String c s =>
      if Ascii.eqb c " " then "" :: pieces s
      else match pieces s with [] => [String c ""] | p :: ps => String c p :: ps end
  end.

Definition scopeContains (scope token : string) : bool := existsb (String.eqb token) (pieces scope).

(** The lambda [tokenize] of [isScopeAllowed]. *)
Definition tokenize_scope (s : string) : list string := List.filter (fun p => negb (is_empty p)) (pieces s).

(** ** PKCE *)

Section Pkce.
Context (sha256_bytes : string -> string).

Definition kMinCodeVerifierLength : Z := 43.
Definition kMaxCodeVerifierLength : Z := 128.
Definition kMinCodeChallengeLength : Z := 43.
Definition kMaxCodeChallengeLength : Z := 128.

Definition verifier_char (c : ascii) : bool :=
  is_alnum c || Ascii.eqb c "-" || Ascii.eqb c "." || Ascii.eqb c "_" || Ascii.eqb c "~".
Definition challenge_char (c : ascii) : bool := is_alnum c || Ascii.eqb c "-" || Ascii.eqb c "_".

Definition isValidCodeVerifierFormat (verifier : string) : bool :=
  if (size verifier <? kMinCodeVerifierLength)%Z || (kMaxCodeVerifierLength <? size verifier)%Z then false
  else re_match (rplus (RCls verifier_char)) verifier.

Definition isValidCodeChallengeFormat (challenge : string) : bool :=
  if (size challenge <? kMinCodeChallengeLength)%Z || (kMaxCodeChallengeLength <? size challenge)%Z then false
  else re_match (rplus (RCls challenge_char)) challenge.

Definition deriveS256Challenge (codeVerifier : string) : string :=
  base64url_encode (sha256_bytes codeVerifier).

Definition verifyS256 (codeVerifier storedChallenge : string) : bool :=
  if negb (isValidCodeVerifierFormat codeVerifier) then false
  else timing_safe_equal (deriveS256Challenge codeVerifier) storedChallenge.
End Pkce.

(** ** Registered clients *)

Record OAuthClient := mkClient {
  cl_client_id : string; cl_client_name : string; cl_token_endpoint_auth_method : string;
  cl_grant_types : list string; cl_response_types : list string;
  cl_redirect_uris : list string; cl_post_logout_redirect_uris : list string;
  cl_require_pkce : bool; cl_pkce_methods : list string; cl_scope : string;
  cl_access_token_ttl_seconds : Z; cl_refresh_token_ttl_seconds : Z; cl_id_token_ttl_seconds : Z;
}.

Definition isValidRedirectUri (c : OAuthClient) (uri : string) : bool :=
  existsb (String.eqb uri) (cl_redirect_uris c).
Definition isValidPostLogoutRedirectUri (c : OAuthClient) (uri : string) : bool :=
  existsb (String.eqb uri) (cl_post_logout_redirect_uris c).
Definition isScopeAllowed (c : OAuthClient) (requestedScope : string) : bool :=
  let allowed := tokenize_scope (cl_scope c) in
  forallb (fun r => existsb (String.eqb r) allowed) (tokenize_scope requestedScope).

Fixpoint get_strings (l : list json) : Result (list string) :=
  match l with [] => Ok [] | v :: l => s ← get_string v; rest ← get_strings l; Ok (s :: rest) end.

(** [if (node.contains(k)) for (x : node[k]) out.push_back(...)] *)
Definition string_list (node : json) (k : string) : Result (list string) :=
  match member node k with Some v => get_strings (iterate v) | None => Ok [] end.

Definition refuse_client {A} (id what : string) : Result A :=
  Throw (runtime_error ("Client '" +:+ (id +:+ ("': " +:+ what)))).

(** One round of the loop of [OAuthClientConfig::load]. *)
Definition load_client (node : json) : Result OAuthClient :=
  client_id ← (v ← at_member node "client_id"; get_string v);
  client_name ← value_string node "client_name" client_id;
  auth_method ← value_string node "token_endpoint_auth_method" "none";
  if negb (String.eqb auth_method "none") then
    refuse_client client_id ("only token_endpoint_auth_method=none " +:+ "(public clients) is supported in v1")
  else
  grant_types ← string_list node "grant_types";
  response_types ← string_list node "response_types";
  redirect_uris ← string_list node "redirect_uris";
  post_logout ← string_list node "post_logout_redirect_uris";
  require_pkce ← value_bool node "require_pkce" true;
  if negb require_pkce then
    refuse_client client_id ("require_pkce=false is not supported — " +:+
                             "PKCE is mandatory for every client in this provider")
  else
  pkce_methods ← string_list node "pkce_methods";
  if bool_decide (pkce_methods = []) || existsb (fun m => negb (String.eqb m "S256")) pkce_methods then
    refuse_client client_id ("pkce_methods must be exactly [" +:+ String "034" ("S256" +:+
      String "034" "] — 'plain' is never accepted by this provider"))
  else
  scope ← value_string node "scope" "openid";
  access_ttl ← value_int64 node "access_token_ttl_seconds" 900;
  refresh_ttl ← value_int64 node "refresh_token_ttl_seconds" 1209600;
  id_ttl ← value_int64 node "id_token_ttl_seconds" 900;
  if bool_decide (redirect_uris = []) then refuse_client client_id "redirect_uris must not be empty"
  else Ok (mkClient client_id client_name auth_method grant_types response_types redirect_uris post_logout
             require_pkce pkce_methods scope access_ttl refresh_ttl id_ttl).

Fixpoint load_clients (nodes : list json) (clients : gmap string OAuthClient) :
    Result (gmap string OAuthClient) :=
  match nodes with
  | [] => Ok clients
  | node :: nodes => c ← load_client node; load_clients nodes (<[cl_client_id c := c]> clients)
  end.

(** [OAuthClientConfig::load] of a file that parsed to [root]. *)
Definition load_config (path : string) (root : json) : Result (gmap string OAuthClient) :=
  match member root "clients" with
  | Some (JArray nodes) => load_clients nodes ∅
  | _ => Throw (runtime_error ("OIDC clients config missing 'clients' array: " +:+ path))
  end.

(** ** The service *)

Record AuthorizeRequest := mkAuthorize {
  ar_clientId : string; ar_redirectUri : string; ar_scope : string; ar_state : string;
  ar_codeChallenge : string; ar_codeChallengeMethod : string; ar_nonce : option string;
}.
Record BrowserSession := mkBrowserSession { bs_userId : string; bs_tenantId : string }.
Record IdTokenClaims := mkIdClaims {
  ic_subject : string; ic_audience : string; ic_sid : string; ic_tenantId : string;
  ic_authTime : Z; ic_nonce : option string; ic_ttlSeconds : Z;
}.
Record AccessTokenClaims := mkAccessClaims {
  ac_subject : string; ac_audience : string; ac_tenantId : string; ac_scope : string;
  ac_role : string; ac_ttlSeconds : Z;
}.
Record TokenResponse := mkTokens {
  tr_accessToken : string; tr_idToken : string; tr_refreshToken : string;
  tr_tokenType : string; tr_expiresIn : Z; tr_scope : string;
}.

Definition kBrowserSessionClientId : string := "__browser_session__".

Section Service.
Context {W : Type} `{!Host W} `{!Adapter W}.
Context (sha256_hex sha256_bytes : string -> string).
(** [issueIdToken] and [issueAccessToken]; [None] when signing throws. *)
Context (issueIdToken : IdTokenClaims -> option string) (issueAccessToken : AccessTokenClaims -> option string).
Context (clients : gmap string OAuthClient) (issuer : string).
Context (clock : nat -> Z) (draw : nat -> string).

Definition discoveryDocument : json :=
  object [
    ("issuer", JString issuer);
    ("authorization_endpoint", JString (issuer +:+ "/oidc/authorize"));
    ("token_endpoint", JString (issuer +:+ "/oidc/token"));
    ("userinfo_endpoint", JString (issuer +:+ "/oidc/userinfo"));
    ("jwks_uri", JString (issuer +:+ "/oidc/jwks.json"));
    ("end_session_endpoint", JString (issuer +:+ "/oidc/logout"));
    ("response_types_supported", JArray [JString "code"]);
    ("grant_types_supported", JArray [JString "authorization_code"; JString "refresh_token"]);
    ("subject_types_supported", JArray [JString "public"]);
    ("id_token_signing_alg_values_supported", JArray [JString "RS256"]);
    ("scopes_supported", JArray [JString "openid"; JString "profile"; JString "email"; JString "offline_access"]);
    ("token_endpoint_auth_methods_supported", JArray [JString "none"]);
    ("code_challenge_methods_supported", JArray [JString "S256"])].

Definition validateAuthorize (clientId redirectUri responseType scope state codeChallenge
    codeChallengeMethod : string) (nonce : option string) : Result AuthorizeRequest :=
  match clients !! clientId with
  | None => Err (validationError "invalid_client: unknown client_id")
  | Some client =>
      if negb (isValidRedirectUri client redirectUri) then
        Err (validationError "invalid_request: redirect_uri not registered for this client")
      else if negb (String.eqb responseType "code") then Err (validationError "unsupported_response_type")
      else if negb (String.eqb codeChallengeMethod "S256") then
        Err (validationError "invalid_request: code_challenge_method must be S256")
      else if negb (isValidCodeChallengeFormat codeChallenge) then
        Err (validationError "invalid_request: malformed code_challenge")
      else if negb (isScopeAllowed client scope) then Err (validationError "invalid_scope")
      else Ok (mkAuthorize clientId redirectUri scope state codeChallenge codeChallengeMethod nonce)
  end.

(** [createSession], from the [i]-th reading of the clock on. *)
Definition createSession (i : nat) (userId tenantId clientId : string) : Op W string :=
  let data := object [
    ("userId", JString userId); ("tenantId", JString tenantId); ("clientId", JString clientId);
    ("authTime", JInt (clock i)); ("revokedAt", JNull);
    ("expiresAt", JInt (clock (i + 1) + 12 * 3600)); ("createdAt", JInt (clock (i + 2)))] in
  result ← createEntity "OidcSession" data;
  sid ← of_result (value_string result "id" "");
  reject_if (is_empty sid) (internal "OidcSession created but no id returned");;
  mret sid.

Definition issueCode (req : AuthorizeRequest) (userId tenantId : string) : Op W string :=
  issue_code sha256_hex 60 (clock 0) (clock 1) (draw 0)
    (mkCodeRequest (ar_clientId req) userId tenantId (ar_redirectUri req) (ar_codeChallenge req)
       (ar_codeChallengeMethod req) (ar_scope req) (ar_nonce req)).

Definition createBrowserSession (userId tenantId : string) : Op W string :=
  createSession 0 userId tenantId kBrowserSessionClientId.

Definition lookupBrowserSession (sid : string) : Op W BrowserSession := fun w =>
  match getEntity "OidcSession" sid w with
  | (Ok row, w) =>
      (clientId ← of_result (value_string row "clientId" "");
       reject_if (negb (String.eqb clientId kBrowserSessionClientId)) (notFound "no such session");;
       revokedAt ← of_result (value_json row "revokedAt" JNull);
       reject_if (negb (is_null revokedAt)) (unauthorized "session revoked");;
       expiresAt ← of_result (value_int64 row "expiresAt" 0);
       reject_if (expiresAt <=? clock 0)%Z (unauthorized "session expired");;
       userId ← of_result (value_string row "userId" "");
       tenantId ← of_result (value_string row "tenantId" "");
       reject_if (is_empty userId) (notFound "no such session");;
       mret (mkBrowserSession userId tenantId)) w
  | (Err _, w) => (Err (notFound "no such session"), w)
  | (r, w) => (recast r, w)
  end.

Definition revokeBrowserSession (sid : string) : Op W bool :=
  _ ← updateEntity "OidcSession" sid (object [("revokedAt", JInt (clock 0))]); mret true.

Definition buildAuthorizeRedirect (req : AuthorizeRequest) (userId tenantId : string) : Op W string :=
  code ← issueCode req userId tenantId;
  let separator := match find_char "?" (ar_redirectUri req) with None => "?" | Some _ => "&" end in
  let location := ar_redirectUri req +:+ (separator +:+ ("code=" +:+ code)) in
  mret (if negb (is_empty (ar_state req)) then location +:+ ("&state=" +:+ ar_state req) else location).

(** A call whose error is replaced. *)
Definition or_else {A} (m : Op W A) (f : Error -> A) : Op W A := fun w =>
  match m w with (Err e, w') => (Ok (f e), w') | r => r end.

(** [Client::getUserRoleByUsername] *)
Definition getUserRoleByUsername (username : string) : Op W string := fun w =>
  match do_findByField "User" "username" (JString username) w with
  | (Ok row, w') =>
      (role ← of_result (value_string row "role" ""); mret (if is_empty role then "user" else role)) w'
  | (Err _, w') => (Ok "user", w')
  | (r, w') => (recast r, w')
  end.

(** The two tokens, or the error of the [catch]. *)
Definition sign (ic : IdTokenClaims) (ac : AccessTokenClaims) : Op W (string * string) :=
  match issueIdToken ic with
  | None => fail (internal "token signing failed")
  | Some it =>
      match issueAccessToken ac with
      | None => fail (internal "token signing failed")
      | Some at_ => mret (it, at_)
      end
  end.

Definition exchangeCode (code redirectUri clientId codeVerifier : string) : Op W TokenResponse :=
  match clients !! clientId with
  | None => fail (validationError "invalid_client: unknown client_id")
  | Some client =>
      rc ← redeem sha256_hex (clock 0) (clock 1) code clientId;
      reject_if (negb (String.eqb (rd_redirectUri rc) redirectUri))
        (validationError "invalid_grant: redirect_uri mismatch");;
      reject_if (is_empty codeVerifier) (validationError "invalid_grant: code_verifier required");;
      reject_if (negb (verifyS256 sha256_bytes codeVerifier (rd_codeChallenge rc)))
        (validationError "invalid_grant: PKCE verification failed");;
      sid ← createSession 2 (rd_userId rc) (rd_tenantId rc) (rd_clientId rc);
      role ← or_else (getUserRoleByUsername (rd_userId rc)) (fun _ => "user");
      '(idToken, accessToken) ← sign
        (mkIdClaims (rd_userId rc) (rd_clientId rc) sid (rd_tenantId rc) (clock 5) (rd_nonce rc)
           (cl_id_token_ttl_seconds client))
        (mkAccessClaims (rd_userId rc) (rd_clientId rc) (rd_tenantId rc) (rd_scope rc) role
           (cl_access_token_ttl_seconds client));
      refreshToken ←
        (if scopeContains (rd_scope rc) "offline_access" then
           or_else (issue_refresh sha256_hex (clock 6) (clock 7) (cl_refresh_token_ttl_seconds client)
                      (draw 0) (draw 1)
                      (mkRefreshRequest (rd_clientId rc) (rd_userId rc) (rd_tenantId rc) (rd_scope rc) "" None))
                   (fun _ => "")
         else mret "");
      mret (mkTokens accessToken idToken refreshToken "Bearer" (cl_access_token_ttl_seconds client) (rd_scope rc))
  end.

Definition exchangeRefreshToken (refreshToken clientId : string) : Op W TokenResponse :=
  match clients !! clientId with
  | None => fail (validationError "invalid_client: unknown client_id")
  | Some client =>
      rt ← rotate sha256_hex (clock 0) (clock 1) refreshToken clientId;
      role ← or_else (getUserRoleByUsername (rt_userId rt)) (fun _ => "user");
      '(idToken, accessToken) ← sign
        (mkIdClaims (rt_userId rt) (rt_clientId rt) "" (rt_tenantId rt) (clock 2) None
           (cl_id_token_ttl_seconds client))
        (mkAccessClaims (rt_userId rt) (rt_clientId rt) (rt_tenantId rt) (rt_scope rt) role
           (cl_access_token_ttl_seconds client));
      next ← or_else (issue_refresh sha256_hex (clock 3) (clock 4) (cl_refresh_token_ttl_seconds client)
                        (draw 0) (draw 1)
                        (mkRefreshRequest (rt_clientId rt) (rt_userId rt) (rt_tenantId rt) (rt_scope rt)
                           (rt_familyId rt) (Some (rt_tokenId rt))))
                     (fun _ => "");
      mret (mkTokens accessToken idToken next "Bearer" (cl_access_token_ttl_seconds client) (rt_scope rt))
  end.

Definition revokeRefreshToken (now : Z) (refreshToken : string) : Op W bool :=
  revoke sha256_hex now refreshToken.
End Service.

(** ** Scopes, as sets of words *)

Lemma existsb_elem (x : string) l : existsb (String.eqb x) l = true <-> x ∈ l.
Proof.
  rewrite existsb_exists. setoid_rewrite <- list_elem_of_In. split.
  - by intros (y & Hy & ->%String.eqb_eq).
  - intros Hx. exists x. split; [done|]. apply String.eqb_refl.
Qed.

Lemma isScopeAllowed_iff c s :
  isScopeAllowed c s = true <-> forall p, p <> "" -> p ∈ pieces s -> p ∈ pieces (cl_scope c).
Proof.
  unfold isScopeAllowed, tokenize_scope. rewrite forallb_forall.
  assert (forall p t, p ∈ List.filter (fun p => negb (is_empty p)) (pieces t) <-> p <> "" /\ p ∈ pieces t) as Hp.
  { intros p t. rewrite list_elem_of_In, filter_In, <- list_elem_of_In, negb_true_iff, is_empty_false. tauto. }
  split.
  - intros H p Hne Hin. eapply Hp, existsb_elem, H, list_elem_of_In, Hp. done.
  - intros H p Hin%list_elem_of_In%Hp. apply existsb_elem, Hp. naive_solver.
Qed.

(** ** Authorization requests *)

(** What the provider accepts: a registered client, one of its redirect
    addresses to the letter, the code flow, PKCE with S256 and a challenge of the
    right form, and no scope beyond those of the client. *)
Definition acceptable (clients : gmap string OAuthClient) (redirectUri responseType scope : string)
    (codeChallenge codeChallengeMethod clientId : string) : Prop :=
  exists client, clients !! clientId = Some client /\
    redirectUri ∈ cl_redirect_uris client /\ responseType = "code" /\ codeChallengeMethod = "S256" /\
    (43 <= size codeChallenge <= 128)%Z /\ string_forallb challenge_char codeChallenge = true /\
    forall p, p <> "" -> p ∈ pieces scope -> p ∈ pieces (cl_scope client).

Lemma challenge_format s :
  isValidCodeChallengeFormat s = true <-> (43 <= size s <= 128)%Z /\ string_forallb challenge_char s = true.
Proof.
  unfold isValidCodeChallengeFormat, kMinCodeChallengeLength, kMaxCodeChallengeLength.
  destruct (_ || _) eqn:Hlen.
  - split; [done|]. intros [? _]. apply orb_true_iff in Hlen as [Hl%Z.ltb_lt|Hl%Z.ltb_lt]; lia.
  - boolify. rewrite re_match_spec, lang_plus_cls_iff. split; [by intros [? ?]|].
    intros [? ?]. split; [|done]. intros ->. change (size "") with 0%Z in *. lia.
Qed.

Lemma verifier_format s :
  isValidCodeVerifierFormat s = true <-> (43 <= size s <= 128)%Z /\ string_forallb verifier_char s = true.
Proof.
  unfold isValidCodeVerifierFormat, kMinCodeVerifierLength, kMaxCodeVerifierLength.
  destruct (_ || _) eqn:Hlen.
  - split; [done|]. intros [? _]. apply orb_true_iff in Hlen as [Hl%Z.ltb_lt|Hl%Z.ltb_lt]; lia.
  - boolify. rewrite re_match_spec, lang_plus_cls_iff. split; [by intros [? ?]|].
    intros [? ?]. split; [|done]. intros ->. change (size "") with 0%Z in *. lia.
Qed.

(** An authorization request is accepted exactly when its client is
    registered, the redirect address is one of the client's to the letter, it
    asks for a code with an S256 challenge of 43 to 128 characters of the url
    alphabet, and every scope it names is the client's; what is accepted is the
    request itself. *)
Theorem validateAuthorize_iff clients clientId redirectUri responseType scope state codeChallenge
    codeChallengeMethod nonce req :
  validateAuthorize clients clientId redirectUri responseType scope state codeChallenge
    codeChallengeMethod nonce = Ok req <->
  acceptable clients redirectUri responseType scope codeChallenge codeChallengeMethod clientId /\
  req = mkAuthorize clientId redirectUri scope state codeChallenge codeChallengeMethod nonce.
Proof.
  unfold validateAuthorize, acceptable. destruct (clients !! clientId) as [c|]; [|naive_solver].
  setoid_rewrite <- isScopeAllowed_iff.
  assert (isValidRedirectUri c redirectUri = true <-> redirectUri ∈ cl_redirect_uris c) as Hr
    by apply existsb_elem.
  pose proof (challenge_format codeChallenge) as Hf.
  split.
  - intros H. break_in H. boolify. split; [|done]. exists c. naive_solver.
  - intros [(c' & [= <-] & H1%Hr & -> & -> & H2 & H3 & H4) ->].
    rewrite H1, (proj2 Hf (conj H2 H3)), H4. done.
Qed.

(** ** The registry *)

(** A client of this provider is public: it does not authenticate, it must use
    PKCE with S256 only, and it has somewhere to be redirected to. *)
Definition well_formed (c : OAuthClient) : Prop :=
  cl_token_endpoint_auth_method c = "none" /\ cl_require_pkce c = true /\
  cl_pkce_methods c <> [] /\ Forall (eq "S256") (cl_pkce_methods c) /\ cl_redirect_uris c <> [].

Definition registry_ok (clients : gmap string OAuthClient) : Prop :=
  map_Forall (fun id c => cl_client_id c = id /\ well_formed c) clients.

Ltac result_steps H :=
  repeat match type of H with
  | mbind _ _ = Ok _ => apply result_bind_ok in H as (? & ? & H)
  | (if ?b then _ else _) = Ok _ => destruct b eqn:?; [done|]
  end.

Lemma existsb_others (x : string) l : existsb (fun m => negb (String.eqb m x)) l = false -> Forall (eq x) l.
Proof.
  induction l as [|y l IH]; [done|]. cbn [existsb]. intros H. boolify. constructor; [done|by apply IH].
Qed.

Lemma load_client_ok node c : load_client node = Ok c -> well_formed c.
Proof.
  unfold load_client. intros H. result_steps H. injection H as <-. boolify. unfold well_formed. cbn.
  split_and!; try done. by apply existsb_others.
Qed.

Lemma load_clients_ok nodes clients clients' :
  registry_ok clients -> load_clients nodes clients = Ok clients' -> registry_ok clients'.
Proof.
  revert clients. induction nodes as [|node nodes IH]; intros clients Hok H; [by injection H as <-|].
  cbn [load_clients] in H. apply result_bind_ok in H as (c & Hc%load_client_ok & H).
  eapply IH; [|exact H]. by apply map_Forall_insert_2.
Qed.


(** ** The exchanges *)

Section Exchange.
Context {W : Type} `{!Host W} `{!Adapter W} `{!EntityDb W}.
Context (sha256_hex sha256_bytes : string -> string).
Context (issueIdToken : IdTokenClaims -> option string) (issueAccessToken : AccessTokenClaims -> option string).
Context (clients : gmap string OAuthClient) (clock : nat -> Z) (draw : nat -> string).

(** Tokens for a user: signed, in the name of the user and for the client, with
    the scope granted and the lifetimes of the client. *)
Definition tokens_for (client : OAuthClient) (userId clientId tenantId scope : string)
    (nonce : option string) (t : TokenResponse) : Prop :=
  exists ic ac, issueIdToken ic = Some (tr_idToken t) /\ issueAccessToken ac = Some (tr_accessToken t) /\
    ic_subject ic = userId /\ ic_audience ic = clientId /\ ic_tenantId ic = tenantId /\ ic_nonce ic = nonce /\
    ac_subject ac = userId /\ ac_audience ac = clientId /\ ac_tenantId ac = tenantId /\ ac_scope ac = scope /\
    ic_ttlSeconds ic = cl_id_token_ttl_seconds client /\
    ac_ttlSeconds ac = cl_access_token_ttl_seconds client /\
    tr_scope t = scope /\ tr_tokenType t = "Bearer" /\ tr_expiresIn t = cl_access_token_ttl_seconds client.

Lemma sign_inv ic ac (w w' : W) it at_ :
  sign issueIdToken issueAccessToken ic ac w = (Ok (it, at_), w') ->
  issueIdToken ic = Some it /\ issueAccessToken ac = Some at_.
Proof.
  unfold sign. destruct (issueIdToken ic); [|done]. destruct (issueAccessToken ac); [|done].
  by intros [= -> -> _].
Qed.

Lemma verifyS256_inv v ch :
  verifyS256 sha256_bytes v ch = true ->
  (43 <= size v <= 128)%Z /\ string_forallb verifier_char v = true /\ ch = base64url_encode (sha256_bytes v).
Proof.
  unfold verifyS256. pose proof (verifier_format v) as Hf.
  destruct (isValidCodeVerifierFormat v); [|done]. cbn [negb]. intros <-%timing_safe_equal_eq. naive_solver.
Qed.


(** The fields of the row that succeeds the token [rt]. *)
Definition succeeds (hash : string) (expires : Z) (newFamily : string) (rt : RotatedRefreshToken)
    (m : members) : Prop :=
  string_member (JObject m) "tokenHash" = Some hash /\
  string_member (JObject m) "familyId" =
    Some (if is_empty (rt_familyId rt) then newFamily else rt_familyId rt) /\
  string_member (JObject m) "parentId" = Some (rt_tokenId rt) /\
  string_member (JObject m) "clientId" = Some (rt_clientId rt) /\
  string_member (JObject m) "userId" = Some (rt_userId rt) /\
  string_member (JObject m) "tenantId" = Some (rt_tenantId rt) /\
  string_member (JObject m) "scope" = Some (rt_scope rt) /\
  obj_get "revokedAt" m = Some JNull /\ obj_get "expiresAt" m = Some (JInt expires).

Lemma issue_successor now1 now2 ttl raw newFamily (rt : RotatedRefreshToken) (w w' : W) a :
  issue_refresh sha256_hex now1 now2 ttl raw newFamily
    (mkRefreshRequest (rt_clientId rt) (rt_userId rt) (rt_tenantId rt) (rt_scope rt)
       (rt_familyId rt) (Some (rt_tokenId rt))) w = (Ok a, w') ->
  a = raw /\ (forall e, e <> "RefreshToken" -> rows w' e = rows w e) /\
  exists i m, rows w "RefreshToken" !! i = None /\ rows w' "RefreshToken" = <[i := m]> (rows w "RefreshToken") /\
    succeeds (sha256_hex raw) (now1 + ttl) newFamily rt m.
Proof.
  unfold issue_refresh. intros Hx. apply run_bind_inv in Hx as (row & w1 & Hx & [= <- <-]).
  unfold object in Hx. match type of Hx with createEntity _ (JObject ?d) _ = _ =>
    pose proof (db_create w "RefreshToken" d) as Hc; rewrite Hx in Hc; set (d0 := d) in Hc end.
  destruct Hc as [(m & _ & i & Hi & Ht & _ & Hm) Hother]. split; [done|]. split; [done|].
  exists i, m. split; [done|]. split; [done|]. unfold succeeds. rewrite !string_member_get.
  by split_and!; apply Hm.
Qed.

(** Looking a user's role up changes no table. *)
Context (role_reads : forall u w e, rows (getUserRoleByUsername u w).2 e = rows w e).

(** Tokens for a refresh token are issued only to its client, while the token
    is neither revoked nor expired; the row of the presented token is marked
    revoked; the tokens are in the name of the row's user and never exceed the
    scope of the original grant.  Besides that mark the call adds at most one row
    to the tables, the successor of the token, in the same family. *)
Theorem exchangeRefreshToken_sound refreshToken clientId w t w' :
  exchangeRefreshToken sha256_hex issueIdToken issueAccessToken clients clock draw
    refreshToken clientId w = (Ok t, w') ->
  exists client id m rt w1, clients !! clientId = Some client /\
    marked "RefreshToken" "tokenHash" "revokedAt" (sha256_hex refreshToken) id m (clock 1) w w1 /\
    token_good (clock 0) clientId id m rt /\
    tokens_for client (rt_userId rt) clientId (rt_tenantId rt) (rt_scope rt) None t /\
    (tr_refreshToken t <> "" ->
       (forall e, e <> "RefreshToken" -> rows w' e = rows w e) /\
       exists i m', rows w1 "RefreshToken" !! i = None /\
         rows w' "RefreshToken" = <[i := m']> (rows w1 "RefreshToken") /\
         succeeds (sha256_hex (tr_refreshToken t)) (clock 3 + cl_refresh_token_ttl_seconds client)
           (draw 1) rt m').
Proof.
  unfold exchangeRefreshToken. destruct (clients !! clientId) as [client|] eqn:Hcl; [|done]. intros Hx.
  apply run_bind_inv in Hx as (rt & w1 & Hrt & Hx). apply rotate_ok in Hrt as (id & m & Hmark & Hgood).
  exists client, id, m, rt, w1.
  apply run_bind_inv in Hx as (role & w2 & Hrole & Hx).
  apply run_bind_inv in Hx as ([it at_] & w3 & Hsign & Hx).
  assert (w3 = w2) as ->.
  { revert Hsign. unfold sign. destruct (issueIdToken _); [|done]. destruct (issueAccessToken _); [|done].
    by intros [= _ _ ->]. }
  apply sign_inv in Hsign as [? ?]. apply run_bind_inv in Hx as (next & w4 & Hnext & Hx). injection Hx as <- <-.
  assert (rt_clientId rt = clientId) as Hid by apply Hgood. split; [done|]. split; [done|]. split; [done|].
  split; [unfold tokens_for; rewrite Hid in *; cbn; eexists _, _; split_and!; try done|]. cbn. intros Hne.
  assert (forall e, rows w2 e = rows w1 e) as Hw2.
  { intros e. rewrite <- (role_reads (rt_userId rt) w1). unfold or_else in Hrole.
    destruct (getUserRoleByUsername (rt_userId rt) w1) as [[] ?]; cbn in *; congruence. }
  unfold or_else in Hnext. destruct (issue_refresh _ _ _ _ _ _ _ w2) as [[a|e|x|] w5] eqn:Hi; try done.
  2: { by injection Hnext as <-. }
  injection Hnext as <- <-. apply issue_successor in Hi as (-> & Hother & i & m' & Hi & Ht & Hs).
  split; [intros e He; rewrite (Hother e He), Hw2; by apply Hmark|]. exists i, m'. by rewrite <- Hw2.
Qed.
End Exchange.

(** ** A run on the database in memory *)

#[local] Existing Instance table_db.
#[local] Existing Instance table_laws.

Definition not_offered {A} : Op TableDb A := fail (internal "not supported").
(** The tables behind the adapter interface, as far as looking a row up goes. *)
#[local] Instance users_adapter : Adapter TableDb := {|
  do_create _ _ := not_offered; do_read _ _ := not_offered; do_update _ _ _ := not_offered;
  do_remove _ _ := not_offered; do_upsert _ _ _ _ _ := not_offered; do_createMany _ _ := not_offered;
  do_updateMany _ _ _ := not_offered; do_deleteMany _ _ := not_offered; do_search := default_search;
  do_readIncludingSensitive _ _ := not_offered; do_list _ _ := not_offered; do_findFirst _ _ := not_offered;
  do_findByField e k v := fun db =>
    match v with
    | JString s =>
        match matching {[k := s]} (view db e) with
        | m :: _ => (Ok (JObject m), db) | [] => (Err (notFound e), db)
        end
    | _ => (Err (notFound e), db)
    end;
  do_getAvailableEntities := not_offered; do_getEntitySchema _ := not_offered;
  do_close := mret tt; supportsNativeTransactions := false;
  do_beginTransaction := default_transaction; do_commitTransaction := default_transaction;
  do_rollbackTransaction := default_transaction;
|}.

Lemma table_role_reads u (w : TableDb) e : rows (getUserRoleByUsername u w).2 e = rows w e.
Proof.
  unfold getUserRoleByUsername. cbn [do_findByField users_adapter].
  destruct (matching _ _) as [|m ms]; [done|]. unfold mbind, Op_bind, of_result.
  by destruct (value_string (JObject m) "role" "").
Qed.

Definition demo_config : json := object [("clients", JArray [object [
  ("client_id", JString "app"); ("redirect_uris", JArray [JString "https://app/cb"]);
  ("pkce_methods", JArray [JString "S256"]); ("scope", JString "openid offline_access")]])].
Definition demo_client : OAuthClient :=
  mkClient "app" "app" "none" [] [] ["https://app/cb"] [] true ["S256"] "openid offline_access" 900 1209600 900.
Definition demo_clients : gmap string OAuthClient := {["app" := demo_client]}.

Definition demo_verifier : string := "0123456789-abcdefghijklmnopqrstuvwxyz_ABCDE".
Definition demo_challenge : string := base64url_encode demo_verifier.
Definition demo_clock (i : nat) : Z := 10 + Z.of_nat i.
Definition demo_draw (i : nat) : string := String (ascii_of_nat (48 + i)) "".
Definition demo_id_token (c : IdTokenClaims) : option string := Some ("id:" +:+ ic_subject c).
Definition demo_access_token (c : AccessTokenClaims) : option string := Some ("access:" +:+ ac_scope c).

Definition demo_authorize : AuthorizeRequest :=
  mkAuthorize "app" "https://app/cb" "openid offline_access" "s" demo_challenge "S256" (Some "n").
Definition demo_issued : TableDb :=
  (issueCode demo_sha demo_clock (fun _ => "code") demo_authorize "ada" "acme" (∅ : TableDb)).2.
Definition demo_exchange (w : TableDb) :=
  exchangeCode demo_sha (fun s => s) demo_id_token demo_access_token demo_clients demo_clock demo_draw
    "code" "https://app/cb" "app" demo_verifier w.
Definition demo_exchanged : TableDb := (demo_exchange demo_issued).2.
Definition demo_refresh (w : TableDb) :=
  exchangeRefreshToken demo_sha demo_id_token demo_access_token demo_clients demo_clock
    (fun i => String "n" (demo_draw i)) "0" "app" w.
Definition demo_answer (refresh : string) : TokenResponse :=
  mkTokens "access:openid offline_access" "id:ada" refresh "Bearer" 900 "openid offline_access".

Lemma validateAuthorize_accepts :
  validateAuthorize demo_clients "app" "https://app/cb" "code" "openid offline_access" "s" demo_challenge
    "S256" (Some "n") = Ok demo_authorize.
Proof. vm_compute. reflexivity. Qed.



Lemma exchangeRefreshToken_sound_witness :
  (demo_refresh demo_exchanged).1 = Ok (demo_answer "n0") /\
  exists client, demo_clients !! "app" = Some client.
Proof.
  assert ((demo_refresh demo_exchanged).1 = Ok (demo_answer "n0")) as Hx by (vm_compute; reflexivity).
  split; [exact Hx|].
  destruct (exchangeRefreshToken_sound demo_sha demo_id_token demo_access_token demo_clients demo_clock
    (fun i => String "n" (demo_draw i)) table_role_reads "0" "app" demo_exchanged (demo_answer "n0")
    (demo_refresh demo_exchanged).2) as (client & _ & _ & _ & _ & Hcl & _).
  { by apply run_result. }
  by exists client.
Defined.
