(* ===== verification/CompensatingTransaction.v ===== *)
(** * Compensating transactions

    Models src/core/compensating_transaction.cpp: the undo log an adapter without
    native transactions keeps, and the rollback that calls the adapter back, entry
    by entry from the last.  The log is a [std::vector] the loop iterates over
    while the adapter it calls may append to it: the capacity of the vector is
    part of the state, and going on with an iterator or a reference an append has
    invalidated is undefined. *)

From stdpp Require Import relations.
From S2P Require Import Prelude CxxString CxxStd Store Json EntityHost Adapter.

Open Scope string_scope.

(** ** The log *)

Inductive UndoType := UNDO_CREATE | UNDO_UPDATE | UNDO_DELETE.
Record UndoOp := mkUndo {
  uo_type : UndoType; uo_entityName : string; uo_id : string; uo_data : json;
}.

(** The object, with the capacity of its vector. *)
Record CompTx := mkTx { undo_log_ : list UndoOp; capacity : nat; active_ : bool }.

#[export] Instance UndoType_eq_dec : EqDecision UndoType.
Proof. solve_decision. Defined.

Definition new_transaction : CompTx := mkTx [] 0 true.

(** [push_back]: a full vector moves to storage of twice its size. *)
Definition push_back (op : UndoOp) (t : CompTx) : CompTx :=
  mkTx (undo_log_ t ++ [op])%list
    (if Nat.eqb (length (undo_log_ t)) (capacity t) then Nat.max 1 (2 * capacity t) else capacity t)
    (active_ t).

Definition recordCreate (entityName id : string) (t : CompTx) : CompTx :=
  if active_ t then push_back (mkUndo UNDO_CREATE entityName id JNull) t else t.

Definition recordUpdate (entityName id : string) (previousData : json) (t : CompTx) : CompTx :=
  if active_ t then push_back (mkUndo UNDO_UPDATE entityName id previousData) t else t.

Definition recordDelete (entityName : string) (previousData : json) (t : CompTx) : Result CompTx :=
  if negb (active_ t) then Ok t
  else
    id ← match member previousData "id" with Some v => get_string v | None => Ok "" end;
    Ok (push_back (mkUndo UNDO_DELETE entityName id previousData) t).

Definition commit (t : CompTx) : CompTx := if active_ t then mkTx [] (capacity t) false else t.

(** ** Rollback

    The adapter's world holds the transaction object the rollback runs on. *)

Section Rollback.
Context {W : Type} `{!Adapter W} (get_tx : W -> option CompTx) (set_tx : option CompTx -> W -> W).

(** The call that undoes an entry, its answer dropped. *)
Definition undo (op : UndoOp) : Op W unit :=
  match uo_type op with
  | UNDO_CREATE => _ ← do_remove (uo_entityName op) (uo_id op); mret tt
  | UNDO_UPDATE => _ ← do_update (uo_entityName op) (uo_id op) (uo_data op); mret tt
  | UNDO_DELETE => _ ← do_create (uo_entityName op) (uo_data op); mret tt
  end.

(** Whether the call left the reverse iterator of base [i] and the reference to
    the entry before it useless: the storage moved, or an append invalidated the
    end of the vector while the iterator was there. *)
Definition invalidated (t : CompTx) (after : option CompTx) (i : nat) : bool :=
  match after with
  | None => true
  | Some t' =>
      negb (Nat.eqb (capacity t) (capacity t')) ||
      (negb (Nat.eqb (length (undo_log_ t)) (length (undo_log_ t'))) && Nat.eqb i (length (undo_log_ t)))
  end.

(** The loop from the reverse iterator of base [i] on, with the errors so far. *)
Fixpoint undo_loop (i : nat) (rollback_errors : Z) : Op W Z :=
  match i with
  | O => mret rollback_errors
  | S j => fun w =>
      match get_tx w with
      | None => (Undef, w)
      | Some t =>
          match undo_log_ t !! j with
          | None => (Undef, w)
          | Some op =>
              let '(r, w') := undo op w in
              if invalidated t (get_tx w') i then (Undef, w')
              else match r with
                   | Ok _ => undo_loop j rollback_errors w'
                   | Err _ => undo_loop j (rollback_errors + 1) w'
                   | r => (recast r, w')
                   end
          end
      end
  end.

Definition rollback : Op W bool := fun w =>
  match get_tx w with
  | None => (Undef, w)
  | Some t =>
      if negb (active_ t) then (Err (internal "CompensatingTransaction: not active"), w)
      else
        match undo_loop (length (undo_log_ t)) 0 w with
        | (Ok errors, w') =>
            let w' := set_tx (Some (mkTx [] (capacity t) false)) w' in
            if (0 <? errors)%Z
            then (Err (internal ("CompensatingTransaction: " +:+ (to_string errors +:+
                         " rollback operations failed"))), w')
            else (Ok true, w')
        | (r, w') => (recast r, w')
        end
  end.
End Rollback.

(** ** What rollback promises

    For an adapter that stores rows and does not write to the log by itself:
    its callers record what they did. *)

(** Every member of [m] is in [m']. *)
Definition covers (m m' : members) : Prop := forall k v, obj_get k m = Some v -> obj_get k m' = Some v.

Abbreviation cells := (gmap (string * string) members).

Section Contract.
Context {W : Type} `{!Adapter W} (get_tx : W -> option CompTx) (set_tx : option CompTx -> W -> W).

(** Rows by entity and identifier; the calls the rollback makes succeed when they
    apply, and touch no other row and no log. *)
Class TxStore := {
  cell : W -> cells;
  cell_set_tx : forall t w, cell (set_tx t w) = cell w;
  get_set_tx : forall t w, get_tx (set_tx t w) = t;
  cell_remove : forall w e id m, cell w !! (e, id) = Some m ->
    exists w', do_remove e id w = (Ok true, w') /\ get_tx w' = get_tx w /\
      cell w' = delete (e, id) (cell w);
  cell_update : forall w e id p m, cell w !! (e, id) = Some m ->
    exists a w' m', do_update e id (JObject p) w = (Ok a, w') /\ get_tx w' = get_tx w /\
      patched p m m' /\ cell w' = <[(e, id) := m']> (cell w);
  cell_create : forall w e id d, obj_get "id" d = Some (JString id) -> cell w !! (e, id) = None ->
    exists a w' m', do_create e (JObject d) w = (Ok a, w') /\ get_tx w' = get_tx w /\
      covers d m' /\ cell w' = <[(e, id) := m']> (cell w);
}.
Context `{!TxStore}.

(** One recorded step of the work inside the transaction, on rows and log. *)
Inductive forward : cells * list UndoOp -> cells * list UndoOp -> Prop :=
  | did_create c l e id m :
      c !! (e, id) = None ->
      forward (c, l) (<[(e, id) := m]> c, (l ++ [mkUndo UNDO_CREATE e id JNull])%list)
  | did_update c l e id p m m' :
      c !! (e, id) = Some m -> patched p m m' ->
      forward (c, l) (<[(e, id) := m']> c, (l ++ [mkUndo UNDO_UPDATE e id (JObject m)])%list)
  | did_delete c l e id m :
      c !! (e, id) = Some m -> obj_get "id" m = Some (JString id) ->
      forward (c, l) (delete (e, id) c, (l ++ [mkUndo UNDO_DELETE e id (JObject m)])%list).

(** The same rows, each with at least the members it had. *)
Definition restored (c c' : cells) : Prop := map_relation (fun _ => covers) (fun _ _ => False) (fun _ _ => False) c c'.

Lemma restored_refl c : restored c c.
Proof. intros i. destruct (c !! i); cbn; [by intros k v|done]. Qed.

Lemma restored_insert c c' i m m' : restored c c' -> covers m m' -> restored (<[i := m]> c) (<[i := m']> c').
Proof.
  intros Hr Hm j. destruct (decide (j = i)) as [->|Hne]; [by rewrite !lookup_insert_eq|].
  rewrite !lookup_insert_ne by done. apply Hr.
Qed.

Lemma restored_delete c c' i : restored c c' -> restored (delete i c) (delete i c').
Proof.
  intros Hr j. destruct (decide (j = i)) as [->|Hne]; [by rewrite !lookup_delete_eq|].
  rewrite !lookup_delete_ne by done. apply Hr.
Qed.

Lemma restored_Some c c' i m : restored c c' -> c !! i = Some m -> exists m', c' !! i = Some m' /\ covers m m'.
Proof. intros Hr Hm. specialize (Hr i). rewrite Hm in Hr. destruct (c' !! i); [eauto|done]. Qed.

Lemma restored_None c c' i : restored c c' -> c !! i = None -> c' !! i = None.
Proof. intros Hr Hm. specialize (Hr i). rewrite Hm in Hr. by destruct (c' !! i). Qed.

Lemma patched_covers p m m' : patched p m m' -> covers p m'.
Proof. intros Hp k v Hv. by rewrite (Hp k), Hv. Qed.

(** Undoing the last step. *)
Lemma undo_step c l c1 op w :
  forward (c, l) (c1, (l ++ [op])%list) -> restored c1 (cell w) ->
  exists w', undo op w = (Ok tt, w') /\ get_tx w' = get_tx w /\ restored c (cell w').
Proof.
  intros Hf Hr. inversion Hf as [c' l' e id m Hnone|c' l' e id p m m' Hm Hp|c' l' e id m Hm Hid]; subst;
    match goal with H : (_ ++ [_])%list = _ |- _ => apply app_inj_2 in H as [_ [= <-]]; [|done] end;
    unfold undo; cbn [uo_type uo_entityName uo_id uo_data].
  - destruct (restored_Some _ _ (e, id) m Hr) as (mw & Hmw & _); [by rewrite lookup_insert_eq|].
    destruct (cell_remove w e id mw Hmw) as (w' & Hrun & Htx & Hc). exists w'.
    split; [by rewrite (run_bind_ok _ _ _ _ _ Hrun)|]. split; [done|]. rewrite Hc.
    rewrite <- (delete_insert_id c (e, id) m Hnone). by apply restored_delete.
  - destruct (restored_Some _ _ (e, id) m' Hr) as (mw & Hmw & _); [by rewrite lookup_insert_eq|].
    destruct (cell_update w e id m mw Hmw) as (a & w' & m2 & Hrun & Htx & Hp2 & Hc). exists w'.
    split; [by rewrite (run_bind_ok _ _ _ _ _ Hrun)|]. split; [done|]. rewrite Hc.
    rewrite <- (insert_id c (e, id) m Hm), <- (insert_insert_eq c (e, id) m m').
    apply restored_insert; [done|by eapply patched_covers].
  - assert (cell w !! (e, id) = None) as Hnone by (eapply restored_None; [exact Hr|apply lookup_delete_eq]).
    destruct (cell_create w e id m Hid Hnone) as (a & w' & m2 & Hrun & Htx & Hp2 & Hc). exists w'.
    split; [by rewrite (run_bind_ok _ _ _ _ _ Hrun)|]. split; [done|]. rewrite Hc.
    rewrite <- (insert_delete_id c (e, id) m Hm). by apply restored_insert.
Qed.

Lemma invalidated_same t i : invalidated t (Some t) i = false.
Proof. unfold invalidated. by rewrite !Nat.eqb_refl. Qed.

Lemma undo_loop_restores c0 s :
  rtc forward (c0, []) s -> forall t rest w n,
    get_tx w = Some t -> undo_log_ t = (s.2 ++ rest)%list -> restored s.1 (cell w) ->
    exists w', undo_loop get_tx (length s.2) n w = (Ok n, w') /\ get_tx w' = Some t /\ restored c0 (cell w').
Proof.
  intros Hrun. pattern s. eapply (rtc_ind_r _ (c0, [])); [by intros t rest w n ? ? ?; exists w| |exact Hrun].
  clear s Hrun.
  intros [c l] [c1 l1] _ Hf IH t rest w n Ht Hlog Hr.
  assert (exists op, l1 = (l ++ [op])%list) as [op ->] by (inversion Hf; eauto). cbn [fst snd] in *.
  rewrite length_app, Nat.add_1_r. cbn [undo_loop]. rewrite Ht, Hlog, <- app_assoc. cbn [app]. rewrite list_lookup_middle by done.
  destruct (undo_step _ _ _ _ _ Hf Hr) as (w1 & -> & Htx & Hr1).
  rewrite Htx, Ht, invalidated_same. apply (IH t (op :: rest)); [congruence| |done].
  by rewrite Hlog, <- app_assoc.
Qed.

(** Rollback undoes a transaction: over an adapter that stores rows and leaves
    the log alone, whatever was created, updated and deleted since the transaction
    began, and recorded, rolling back succeeds, ends the transaction and leaves
    exactly the rows there were, each with every member and value it had. *)
Theorem rollback_restores c0 w t :
  get_tx w = Some t -> active_ t = true -> rtc forward (c0, []) (cell w, undo_log_ t) ->
  exists w', rollback get_tx set_tx w = (Ok true, w') /\ restored c0 (cell w') /\
    get_tx w' = Some (mkTx [] (capacity t) false).
Proof.
  intros Ht Hact Hrun. unfold rollback. rewrite Ht, Hact. cbn [negb].
  destruct (undo_loop_restores _ _ Hrun t [] w 0%Z) as (w' & Hl & Ht' & Hr);
    [done|by rewrite app_nil_r|apply restored_refl|].
  cbn [snd] in Hl. rewrite Hl. eexists. split; [done|]. by rewrite cell_set_tx, get_set_tx.
Qed.
End Contract.
Arguments TxStore : clear implicits.
Arguments TxStore {W _} get_tx set_tx.

(** ** A store in memory *)

(** Rows with the transaction of a caller that records what it does. *)
Abbreviation TxDb := (cells * option CompTx)%type.

Definition on_cells {A} (f : cells -> Result A * cells) : Op TxDb A := fun '(c, t) =>
  let '(r, c') := f c in (r, (c', t)).
Definition unsupported {A} : Op TxDb A := fail (internal "not supported").
#[export] Instance tx_adapter : Adapter TxDb := {|
  do_create e v := on_cells (fun c =>
    match string_member v "id", v with
    | Some id, JObject d => (Ok v, <[(e, id) := d]> c) | _, _ => (Err (validationError e), c) end);
  do_read e id := on_cells (fun c =>
    match c !! (e, id) with Some m => (Ok (JObject m), c) | None => (Err (notFound id), c) end);
  do_update e id v := on_cells (fun c =>
    match c !! (e, id), v with
    | Some m, JObject p => (Ok (JObject (merge p m)), <[(e, id) := merge p m]> c)
    | _, _ => (Err (notFound id), c) end);
  do_remove e id := on_cells (fun c =>
    match c !! (e, id) with Some _ => (Ok true, delete (e, id) c) | None => (Err (notFound id), c) end);
  do_upsert _ _ _ _ _ := unsupported; do_createMany _ _ := unsupported; do_updateMany _ _ _ := unsupported;
  do_deleteMany _ _ := unsupported; do_search := default_search; do_readIncludingSensitive _ _ := unsupported;
  do_list _ _ := unsupported; do_findFirst _ _ := unsupported; do_findByField _ _ _ := unsupported;
  do_getAvailableEntities := unsupported; do_getEntitySchema _ := unsupported; do_close := mret tt;
  supportsNativeTransactions := false; do_beginTransaction := default_transaction;
  do_commitTransaction := default_transaction; do_rollbackTransaction := default_transaction;
|}.

#[local] Program Instance tx_store : TxStore (snd : TxDb -> option CompTx) (fun t w => (w.1, t)) :=
  {| cell := fst |}.
Next Obligation. done. Qed.
Next Obligation. done. Qed.
Next Obligation. intros [c t] e id m Hm. cbn in *. rewrite Hm. by eexists. Qed.
Next Obligation.
  intros [c t] e id p m Hm. cbn in *. rewrite Hm. eexists _, _, (merge p m). split; [done|].
  split; [done|]. split; [apply merge_get|done].
Qed.
Next Obligation.
  intros [c t] e id d Hid Hnone. cbn in *. rewrite (proj2 (string_member_get d "id" id) Hid).
  eexists _, _, d. split; [done|]. split; [done|]. split; [by intros k v|done].
Qed.

Definition demo_user : members := build [("id", JString "1"); ("name", JString "ada")].
Definition demo_start : cells := {[("User", "1") := demo_user]}.
(** The user is renamed with a nickname added, then deleted, and another created. *)
Definition demo_renamed : members := merge [("nick", JString "a"); ("name", JString "lovelace")] demo_user.
Definition demo_new : members := build [("id", JString "2")].
Definition demo_log : list UndoOp :=
  [mkUndo UNDO_UPDATE "User" "1" (JObject demo_user); mkUndo UNDO_DELETE "User" "1" (JObject demo_renamed);
   mkUndo UNDO_CREATE "User" "2" JNull].
Definition demo_end : TxDb :=
  (<[("User", "2") := demo_new]> (delete ("User", "1") (<[("User", "1") := demo_renamed]> demo_start)),
   Some (mkTx demo_log 4 true)).

Lemma rollback_restores_witness :
  exists w', rollback (snd : TxDb -> option CompTx) (fun t w => (w.1, t)) demo_end = (Ok true, w') /\
    restored demo_start w'.1.
Proof.
  destruct (rollback_restores (snd : TxDb -> option CompTx) (fun t w => (w.1, t)) demo_start demo_end
    (mkTx demo_log 4 true)) as (w' & Hrun & Hr & _).
  - reflexivity.
  - reflexivity.
  - eapply rtc_l; [apply (did_update _ [] "User" "1" [("nick", JString "a"); ("name", JString "lovelace")]
      demo_user demo_renamed); [reflexivity|apply merge_get]|].
    eapply rtc_l; [apply (did_delete _ _ "User" "1" demo_renamed); reflexivity|].
    apply rtc_once, (did_create _ [mkUndo UNDO_UPDATE "User" "1" (JObject demo_user);
      mkUndo UNDO_DELETE "User" "1" (JObject demo_renamed)] "User" "2" demo_new). reflexivity.
  - exists w'. split; [exact Hrun|exact Hr].
Defined.

(** The undo of an update is an update with the previous members, so a member the
    update added stays. *)
Lemma added_member_stays :
  let w := (<[("User", "1") := demo_renamed]> demo_start,
            Some (mkTx [mkUndo UNDO_UPDATE "User" "1" (JObject demo_user)] 1 true)) : TxDb in
  let r := rollback (snd : TxDb -> option CompTx) (fun t w => (w.1, t)) w in
  r.1 = Ok true /\ (obj_get "nick" <$> r.2.1 !! ("User", "1")) = Some (Some (JString "a")).
Proof. vm_compute. split; reflexivity. Qed.
