(* ===== verification/RedisAdapter.v ===== *)
(** * The Redis adapter

    Models src/adapters/redis: rows as JSON texts under "entity:id", the set
    "entity:all" of the identifiers there are, a counter for new identifiers, and
    the compensating transaction of CompensatingTransaction.v in place of native
    ones.  The server is an interface: its commands answer or raise an exception,
    which the command executor turns into an error.  Schemas, and the text of an
    exception of the JSON parser, are arguments. *)

From S2P Require Import Prelude CxxString CxxStd Store Json EntityHost Adapter CompensatingTransaction.

Open Scope string_scope.

(** ** The server *)

(** The commands; [inl] is the text of the exception one raises. *)
Class RedisServer (R : Type) := {
  redis_set : string -> string -> R -> (string + unit) * R;
  redis_get : string -> R -> (string + option string) * R;
  redis_del : string -> R -> (string + Z) * R;
  redis_sadd : string -> string -> R -> (string + Z) * R;
  redis_srem : string -> string -> R -> (string + Z) * R;
  redis_smembers : string -> R -> (string + list string) * R;
  redis_incr : string -> R -> (string + Z) * R;
}.

(** ** Keys *)

Definition makeKey (entity_name id : string) : string := entity_name +:+ (":" +:+ id).
Definition makeSetKey (entity_name : string) : string := entity_name +:+ ":all".
Definition makeCounterKey (entity_name : string) : string := entity_name +:+ ":id_counter".

(** ** The adapter *)

(** What the adapter reads of a field and of an entity's definition. *)
Record FieldDefinition := mkFieldDef {
  fdf_name : string; fdf_type : string; fdf_required : bool; fdf_unique : bool;
  fdf_default_value : option string;
}.
Record EntityDefinition := mkEntityDef {
  ed_name : string; ed_description : string; ed_fields : list FieldDefinition;
}.

Record RedisWorld (R : Type) := mkWorld { rw_server : R; compensating_tx_ : option CompTx }.
Arguments mkWorld {R} _ _.
Arguments rw_server {R} _.
Arguments compensating_tx_ {R} _.

Section RedisAdapter.
Context {R : Type} `{!RedisServer R} {jl : JsonLib}.
Context (schemas : gmap string EntityDefinition) (parse_what : string -> string).

Abbreviation World := (RedisWorld R).

(** A command through [RedisCommandExecutor]. *)
Definition exec {A} (cmd : R -> (string + A) * R) : Op World A := fun w =>
  let '(r, s) := cmd (rw_server w) in
  (match r with inr a => Ok a | inl what => Err (internal what) end, mkWorld s (compensating_tx_ w)).

(** A call whose error is dropped. *)
Definition ignore {A} (m : Op World A) : Op World unit := fun w =>
  match m w with (Ok _, w') | (Err _, w') => (Ok tt, w') | (r, w') => (recast r, w') end.

(** [if (compensating_tx_ && compensating_tx_->isActive()) record] *)
Definition active_tx (w : World) : option CompTx :=
  match compensating_tx_ w with Some t => if active_ t then Some t else None | None => None end.
Definition set_tx (t : option CompTx) (w : World) : World := mkWorld (rw_server w) t.
Definition recording (f : CompTx -> Result CompTx) : Op World unit := fun w =>
  match active_tx w with
  | None => (Ok tt, w)
  | Some t => match f t with Ok t' => (Ok tt, set_tx (Some t') w) | r => (recast r, w) end
  end.

(** [RedisValueSerializer]: a value that cannot be printed is an empty text. *)
Definition serialize (data : json) : string := default "" (dump_text data).
Definition deserialize (data : string) : Result json :=
  match parse data with
  | Some v => Ok v
  | None => Err (internal ("Failed to parse JSON: " +:+ parse_what data))
  end.

Definition schema_of (entityName : string) : Op World EntityDefinition :=
  match schemas !! entityName with
  | Some def => mret def
  | None => fail (notFound ("Entity schema not found: " +:+ entityName))
  end.

Definition no_row (entityName id : string) : Error :=
  notFound (entityName +:+ (" with id " +:+ (id +:+ " not found"))).

Definition generateId (entityName : string) : Op World string := fun w =>
  match exec (redis_incr (makeCounterKey entityName)) w with
  | (Ok n, w') => (Ok (to_string n), w')
  | (_, w') => (Ok "0", w')
  end.

Definition create (entityName : string) (data : json) : Op World json :=
  schema_of entityName;;
  id ← match member data "id" with
       | Some JNull | None => generateId entityName
       | Some v => of_result (get_string v)
       end;
  record ← of_result (assign_member data "id" (JString id));
  exec (redis_set (makeKey entityName id) (serialize record));;
  ignore (exec (redis_sadd (makeSetKey entityName) id));;
  recording (fun t => Ok (recordCreate entityName id t));;
  mret record.

Definition read (entityName id : string) : Op World json :=
  schema_of entityName;;
  value ← exec (redis_get (makeKey entityName id));
  match value with
  | None => fail (no_row entityName id)
  | Some text => of_result (deserialize text)
  end.

(** The members an iterator with keys goes through. *)
Definition key_values (data : json) : Result members :=
  match data with
  | JObject m => Ok m
  | JNull | JArray [] => Ok []
  | _ => Throw (json_error 207)
  end.

Fixpoint assign_all (record : json) (l : members) : Result json :=
  match l with [] => Ok record | (k, v) :: l => r ← assign_member record k v; assign_all r l end.

Definition update (entityName id : string) (data : json) : Op World json :=
  previous ← read entityName id;
  recording (fun t => Ok (recordUpdate entityName id previous t));;
  record ← of_result (l ← key_values data; assign_all previous l);
  exec (redis_set (makeKey entityName id) (serialize record));;
  mret record.

Definition remove (entityName id : string) : Op World bool :=
  (fun w => match active_tx w with
            | None => (Ok tt, w)
            | Some _ =>
                match read entityName id w with
                | (Ok oldData, w') => recording (recordDelete entityName oldData) w'
                | (Err _, w') => (Ok tt, w')
                | (r, w') => (recast r, w')
                end
            end);;
  deleted ← exec (redis_del (makeKey entityName id));
  reject_if (deleted =? 0)%Z (no_row entityName id);;
  ignore (exec (redis_srem (makeSetKey entityName) id));;
  mret true.

(** [RedisOperations::matchesFilter], of a filter of texts. *)
Definition matchesFilter (record : json) (filter : gmap string string) : bool :=
  bool_decide (map_Forall (fun k v => string_member record k = Some v) filter).

(** The loop of [list]: rows that cannot be read are passed over. *)
Fixpoint collect (entityName : string) (filter : gmap string string) (ids : list string) : Op World (list json) :=
  match ids with
  | [] => mret []
  | id :: ids => fun w =>
      match read entityName id w with
      | (Ok record, w') =>
          (rest ← collect entityName filter ids;
           mret (if bool_decide (filter = ∅) || matchesFilter record filter then record :: rest else rest)) w'
      | (Err _, w') => collect entityName filter ids w'
      | (r, w') => (recast r, w')
      end
  end.

(** [begin() + offset] with a negative offset, or an [int] out of range, is undefined. *)
Definition paginate (page limit : Z) (records : list json) : Result (list json) :=
  let total := Z.of_nat (length records) in
  if negb (in_int (page * limit)) then Undef
  else if (page * limit <? total)%Z then
    if (page * limit <? 0)%Z || negb (in_int (page * limit + limit)) then Undef
    else Ok (take (Z.to_nat (Z.min (page * limit + limit) total - page * limit))
               (drop (Z.to_nat (page * limit)) records))
  else Ok [].

Definition list_entities (entityName : string) (options : ListOptions) : Op World ListResult :=
  schema_of entityName;;
  ids ← exec (redis_smembers (makeSetKey entityName));
  records ← collect entityName (opt_filter options) ids;
  let limit := if (0 <? opt_limit options)%Z then opt_limit options else 100%Z in
  items ← of_result (paginate (opt_page options) limit records);
  mret (mkListResult items (Z.of_nat (length records)) (opt_page options) limit).

(** ** Bulk operations and queries *)

Fixpoint createMany (entityName : string) (records : list json) : Op World Z :=
  match records with
  | [] => mret 0%Z
  | record :: records => fun w =>
      match create entityName record w with
      | (Ok _, w') => (n ← createMany entityName records; mret (1 + n)%Z) w'
      | (Err _, w') => createMany entityName records w'
      | (r, w') => (recast r, w')
      end
  end.

(** A filter of values, each printed: texts get their quotation marks. *)
Fixpoint dump_all (l : members) : Result (gmap string string) :=
  match l with [] => Ok ∅ | (k, v) :: l => s ← dump v; f ← dump_all l; Ok (<[k := s]> f) end.
Definition dumped_filter (filter : json) : Result (gmap string string) :=
  match filter with JObject m => dump_all m | _ => Ok ∅ end.

Definition filtered (filter : gmap string string) (limit : Z) : ListOptions :=
  {| opt_filter := filter; opt_sort := opt_sort default_options; opt_page := opt_page default_options;
     opt_limit := limit |}.

(** [record["id"].get<std::string>()] of a constant record: a missing member is
    undefined. *)
Definition record_id (record : json) : Result string :=
  match record with
  | JObject m => match obj_get "id" m with Some v => get_string v | None => Undef end
  | _ => Throw (json_error 305)
  end.

(** The loop over the listed records, counting the calls that succeed. *)
Fixpoint for_each_id {A} (f : string -> Op World A) (items : list json) : Op World Z :=
  match items with
  | [] => mret 0%Z
  | record :: items =>
      id ← of_result (record_id record);
      (fun w => match f id w with
                | (Ok _, w') => (n ← for_each_id f items; mret (1 + n)%Z) w'
                | (Err _, w') => for_each_id f items w'
                | (r, w') => (recast r, w')
                end) : Op World Z
  end.

Definition updateMany (entityName : string) (filter data : json) : Op World Z :=
  f ← of_result (dumped_filter filter);
  result ← list_entities entityName (filtered f 20);
  for_each_id (fun id => update entityName id data) (lr_items result).

Definition deleteMany (entityName : string) (filter : json) : Op World Z :=
  f ← of_result (dumped_filter filter);
  result ← list_entities entityName (filtered f 20);
  for_each_id (remove entityName) (lr_items result).

(** [options.filter = filter]: an object of texts, or an exception. *)
Fixpoint text_values (l : members) : Result (gmap string string) :=
  match l with [] => Ok ∅ | (k, v) :: l => s ← get_string v; f ← text_values l; Ok (<[k := s]> f) end.
Definition text_filter (filter : json) : Result (gmap string string) :=
  match filter with JObject m => text_values m | _ => Throw (json_error 302) end.

Definition findFirst (entityName : string) (filter : json) : Op World json :=
  f ← of_result (text_filter filter);
  result ← list_entities entityName (filtered f 1);
  match lr_items result with
  | [] => fail (notFound "No matching record found")
  | record :: _ => mret record
  end.

Definition findByField (entityName field : string) (value : json) : Op World json :=
  findFirst entityName (object [(field, value)]).

Definition upsert (entityName uniqueField : string) (uniqueValue createData updateData : json) : Op World json :=
  fun w =>
    match findByField entityName uniqueField uniqueValue w with
    | (Ok found, w') =>
        (id ← of_result (get_string (default JNull (member found "id"))); update entityName id updateData) w'
    | (Err _, w') => create entityName createData w'
    | (r, w') => (recast r, w')
    end.

(** ** Metadata *)

Definition entity_field (f : FieldDefinition) : EntityField :=
  mkField (fdf_name f) (fdf_type f) (fdf_required f) (fdf_unique f) false (fdf_default_value f) None None None
    None None false.

Definition getAvailableEntities : Op World (list string) := mret (map_to_list schemas).*1.

Definition getEntitySchema (entityName : string) : Op World EntitySchema :=
  def ← schema_of entityName;
  mret (mkSchema (ed_name def) (ed_description def) (entity_field <$> ed_fields def) [] ∅ []
          (mkQueryConfig [] [] [] 1000 0)).

(** ** Transactions *)

(** The adapter as its own transaction calls it. *)
Definition redis_calls : Adapter World := {|
  do_create := create; do_read := read; do_readIncludingSensitive := read; do_search := default_search;
  do_update := update; do_remove := remove; do_list := list_entities; do_createMany := createMany;
  do_updateMany := updateMany; do_deleteMany := deleteMany; do_findFirst := findFirst;
  do_findByField := findByField; do_upsert := upsert; do_getAvailableEntities := getAvailableEntities;
  do_getEntitySchema := getEntitySchema; do_close := mret tt; supportsNativeTransactions := false;
  do_beginTransaction := default_transaction; do_commitTransaction := default_transaction;
  do_rollbackTransaction := default_transaction;
|}.

Definition beginTransaction : Op World bool := fun w =>
  match active_tx w with
  | Some _ => (Err (internal "Transaction already in progress"), w)
  | None => (Ok true, set_tx (Some new_transaction) w)
  end.

Definition commitTransaction : Op World bool := fun w =>
  match active_tx w with
  | None => (Err (internal "No transaction in progress"), w)
  | Some _ => (Ok true, set_tx None w)
  end.

Definition rollbackTransaction : Op World bool := fun w =>
  match active_tx w with
  | None => (Err (internal "No transaction in progress"), w)
  | Some _ =>
      match rollback (Adapter0 := redis_calls) compensating_tx_ set_tx w with
      | (Ok b, w') => (Ok b, set_tx None w')
      | (Err e, w') => (Err e, set_tx None w')
      | (r, w') => (r, w')
      end
  end.
End RedisAdapter.

(** ** A server that can be reached *)

(** A value is a text or a set. *)
Inductive rvalue := RText (s : string) | RSet (X : gset string).

(** The commands on the values by key, as the Redis documentation states them. *)
Class RedisLaws (R : Type) `{!RedisServer R} := {
  kv : R -> gmap string rvalue;
  law_set : forall k v s, exists s', redis_set k v s = (inr tt, s') /\ kv s' = <[k := RText v]> (kv s);
  law_get : forall k s, exists s', kv s' = kv s /\ match kv s !! k with
    | None => redis_get k s = (inr None, s')
    | Some (RText t) => redis_get k s = (inr (Some t), s')
    | Some (RSet _) => exists e, redis_get k s = (inl e, s') end;
  law_del : forall k s, exists s', kv s' = delete k (kv s) /\
    redis_del k s = (inr (if bool_decide (is_Some (kv s !! k)) then 1 else 0)%Z, s');
  law_sadd : forall k x s, exists r s', redis_sadd k x s = (r, s') /\ kv s' = match kv s !! k with
    | None => <[k := RSet {[x]}]> (kv s)
    | Some (RSet X) => <[k := RSet ({[x]} ∪ X)]> (kv s)
    | Some (RText _) => kv s end;
  law_smembers : forall k s, exists s', kv s' = kv s /\ match kv s !! k with
    | None => redis_smembers k s = (inr [], s')
    | Some (RSet X) => exists l, redis_smembers k s = (inr l, s') /\ l ≡ₚ elements X
    | Some (RText _) => exists e, redis_smembers k s = (inl e, s') end;
  law_incr : forall k s, forall k', k' <> k -> kv (redis_incr k s).2 !! k' = kv s !! k';
}.

Section Facts.
Context {R : Type} `{!RedisServer R} `{!RedisLaws R} {jl : JsonLib}.
Context (schemas : gmap string EntityDefinition) (parse_what : string -> string).
Implicit Types (w : RedisWorld R).

(** The row a text is, if there is one. *)
Definition row_at (m : gmap string rvalue) (e id : string) : option json :=
  match m !! makeKey e id with Some (RText t) => parse t | _ => None end.
Definition rows_matching (m : gmap string rvalue) (e : string) (f : gmap string string) (ids : list string) :
    list json :=
  omap (fun id => r ← row_at m e id; if matchesFilter r f then Some r else None) ids.

(** What reading leaves alone. *)
Definition same_data w w' : Prop := kv (rw_server w') = kv (rw_server w) /\ compensating_tx_ w' = compensating_tx_ w.

Lemma redis_read_run e id w :
  exists w', same_data w w' /\ match schemas !! e with
    | None => read schemas parse_what e id w = (Err (notFound ("Entity schema not found: " +:+ e)), w')
    | Some _ => match row_at (kv (rw_server w)) e id with
                | Some r => read schemas parse_what e id w = (Ok r, w')
                | None => exists er, read schemas parse_what e id w = (Err er, w')
                end end.
Proof.
  destruct w as [s t]. unfold same_data, read, schema_of, row_at. cbn [rw_server compensating_tx_].
  destruct (schemas !! e) as [def|]; [|by exists (mkWorld s t)].
  unfold mbind, Op_bind. cbn [mret Op_ret]. unfold exec. cbn [rw_server compensating_tx_].
  destruct (law_get (makeKey e id) s) as (s' & Hkv & Hget). exists (mkWorld s' t). split; [done|].
  destruct (kv s !! makeKey e id) as [[text|X]|].
  - rewrite Hget. unfold deserialize, of_result. destruct (parse text); [done|by eexists].
  - destruct Hget as [er ->]. by eexists.
  - rewrite Hget. by eexists.
Qed.

Lemma collect_run e f ids w :
  is_Some (schemas !! e) ->
  exists w', same_data w w' /\
    collect schemas parse_what e f ids w = (Ok (rows_matching (kv (rw_server w)) e f ids), w').
Proof.
  intros [def Hdef]. revert w. induction ids as [|id ids IH]; intros w; [by exists w|].
  cbn [collect rows_matching omap list_omap].
  destruct (redis_read_run e id w) as (w1 & Hs1 & Hrun). rewrite Hdef in Hrun.
  destruct (IH w1) as (w2 & Hs2 & Hrest). exists w2.
  assert (kv (rw_server w1) = kv (rw_server w)) as Hkv by apply Hs1. rewrite Hkv in Hrest.
  split; [split; etrans; [apply Hs2|apply Hs1|apply Hs2|apply Hs1]|].
  destruct (row_at (kv (rw_server w)) e id) as [r|] eqn:Hr; cbn [mbind option_bind].
  - rewrite Hrun, (run_bind_ok _ _ _ _ _ Hrest).
    assert (bool_decide (f = ∅) || matchesFilter r f = matchesFilter r f) as ->.
    { unfold matchesFilter. case_bool_decide as He; [|done]. subst f.
      rewrite bool_decide_eq_true_2; [done|]. apply map_Forall_empty. }
    by destruct (matchesFilter r f).
  - destruct Hrun as [er ->]. exact Hrest.
Qed.

(** The identifiers in the set of an entity. *)
Definition ids_of (m : gmap string rvalue) (e : string) : gset string :=
  match m !! makeSetKey e with Some (RSet X) => X | _ => ∅ end.

Lemma list_eq e opts w :
  is_Some (schemas !! e) -> (forall t, kv (rw_server w) !! makeSetKey e <> Some (RText t)) ->
  exists ids w', ids ≡ₚ elements (ids_of (kv (rw_server w)) e) /\ same_data w w' /\
    list_entities schemas parse_what e opts w =
      ((let rows := rows_matching (kv (rw_server w)) e (opt_filter opts) ids in
        let limit := (if 0 <? opt_limit opts then opt_limit opts else 100)%Z in
        items ← paginate (opt_page opts) limit rows;
        Ok (mkListResult items (Z.of_nat (length rows)) (opt_page opts) limit)), w').
Proof.
  intros [def Hdef] Hset. unfold list_entities, schema_of, ids_of. rewrite Hdef.
  destruct (law_smembers (makeSetKey e) (rw_server w)) as (s' & Hkv & Hm).
  assert (exists ids, exec (redis_smembers (makeSetKey e)) w = (Ok ids, mkWorld s' (compensating_tx_ w)) /\
    ids ≡ₚ elements (match kv (rw_server w) !! makeSetKey e with Some (RSet X) => X | _ => ∅ end))
    as (ids & Hids & Hperm).
  { unfold exec. destruct (kv (rw_server w) !! makeSetKey e) as [[text|X]|]; [by destruct (Hset text)| |].
    - destruct Hm as (l & -> & Hl). by exists l.
    - rewrite Hm. exists []. by rewrite elements_empty. }
  destruct (collect_run e (opt_filter opts) ids (mkWorld s' (compensating_tx_ w))) as (w2 & Hs2 & Hc); [done|].
  cbn [rw_server] in Hc. rewrite Hkv in Hc. exists ids, w2. split; [done|]. split.
  { destruct Hs2 as [H1 H2]. split; [by rewrite H1|by rewrite H2]. }
  rewrite (run_bind_ok _ _ def w w) by done. rewrite (run_bind_ok _ _ _ _ _ Hids), (run_bind_ok _ _ _ _ _ Hc).
  unfold of_result, mbind at 1, Op_bind. by destruct (paginate _ _ _).
Qed.

(** *** Queries *)

Lemma paginate_run page limit (rows l : list json) :
  (0 < limit)%Z -> paginate page limit rows = Ok l ->
  (page * limit < Z.of_nat (length rows) -> 0 <= page * limit)%Z /\
  l = take (Z.to_nat limit) (drop (Z.to_nat (page * limit)) rows).
Proof.
  intros Hl. unfold paginate. destruct (negb (in_int (page * limit))); [done|].
  destruct (Z.ltb_spec (page * limit) (Z.of_nat (length rows))) as [Hlt|Hge].
  - destruct (_ || _) eqn:Hneg; [done|]. intros [= <-]. boolify. split; [done|].
    apply Z.ltb_ge in H. assert (length (drop (Z.to_nat (page * limit)) rows) =
      Z.to_nat (Z.of_nat (length rows) - page * limit)) as Hd by (rewrite length_drop; lia).
    destruct (Z.min_spec (page * limit + limit) (Z.of_nat (length rows))) as [[_ ->]|[? ->]].
    + by replace (page * limit + limit - page * limit)%Z with limit by lia.
    + rewrite !take_ge by lia. done.
  - intros [= <-]. split; [lia|]. rewrite drop_ge by lia. by rewrite take_nil.
Qed.

(** A listing shows the rows of the entity that match the filter, in an order
    of the server's, from number page * limit on, and counts them all.  Pages are
    numbered from 1, so the first [limit] rows are on no page. *)
Theorem list_page_of e opts w r w' :
  (0 < opt_limit opts)%Z -> is_Some (schemas !! e) ->
  (forall t, kv (rw_server w) !! makeSetKey e <> Some (RText t)) ->
  list_entities schemas parse_what e opts w = (Ok r, w') ->
  same_data w w' /\ exists ids, ids ≡ₚ elements (ids_of (kv (rw_server w)) e) /\
    let rows := rows_matching (kv (rw_server w)) e (opt_filter opts) ids in
    lr_total r = Z.of_nat (length rows) /\
    lr_items r = take (Z.to_nat (opt_limit opts)) (drop (Z.to_nat (opt_page opts * opt_limit opts)) rows).
Proof.
  intros Hl Hschema Hset Hrun.
  destruct (list_eq e opts w Hschema Hset) as (ids & w2 & Hperm & Hs & Heq). rewrite Hrun in Heq.
  apply Z.ltb_lt in Hl as Hlb. cbn zeta in Heq. rewrite Hlb in Heq.
  destruct (paginate _ _ _) as [items|er|x|] eqn:Hp; try done. injection Heq as -> ->.
  apply paginate_run in Hp as [_ ->]; [|done]. split; [done|]. by exists ids.
Qed.

Lemma paginate_one (rows : list json) : length rows <= 1 -> paginate 1 1 rows = Ok [].
Proof.
  intros Hlen. unfold paginate. change (negb (in_int (1 * 1))) with false. cbv iota.
  destruct (Z.ltb_spec (1 * 1) (Z.of_nat (length rows))); [lia|done].
Qed.

(** At most one row of the entity carries the text [s] in [field]. *)
Definition at_most_one (m : gmap string rvalue) (e field s : string) : Prop :=
  forall id1 id2 r1 r2, id1 ∈ ids_of m e -> id2 ∈ ids_of m e ->
    row_at m e id1 = Some r1 -> row_at m e id2 = Some r2 ->
    string_member r1 field = Some s -> string_member r2 field = Some s -> id1 = id2.

Lemma at_most_one_rows m e field s ids :
  at_most_one m e field s -> ids ≡ₚ elements (ids_of m e) ->
  length (rows_matching m e {[field := s]} ids) <= 1.
Proof.
  intros Hone Hids.
  assert (NoDup ids) as Hnd by (rewrite Hids; apply NoDup_elements).
  assert (forall id, id ∈ ids -> id ∈ ids_of m e) as Hin by (intros id; rewrite Hids; apply elem_of_elements).
  assert (forall id r, (r ← row_at m e id; if matchesFilter r {[field := s]} then Some r else None) = Some r ->
    row_at m e id = Some r /\ string_member r field = Some s) as Hsel.
  { intros id r. destruct (row_at m e id) as [r0|]; [|done]. cbn [mbind option_bind].
    unfold matchesFilter. case_bool_decide as Hm; [|done]. intros [= ->]. split; [done|].
    by apply map_Forall_singleton in Hm. }
  clear Hids. unfold rows_matching. induction ids as [|id ids IH]; [cbn; lia|].
  apply NoDup_cons in Hnd as [Hid Hnd]. cbn [omap list_omap].
  assert (forall i, i ∈ ids -> i ∈ ids_of m e) as Hin' by (intros i Hi; apply Hin; by apply list_elem_of_further).
  destruct (r ← row_at m e id; if matchesFilter r {[field := s]} then Some r else None) as [r|] eqn:Hr; [|by apply IH].
  apply Hsel in Hr as [Hr Hv].
  enough (omap (fun id => r ← row_at m e id; if matchesFilter r {[field := s]} then Some r else None) ids = [])
    as -> by (cbn; lia).
  destruct (omap _ ids) as [|r2 rest] eqn:Ho; [done|].
  assert (r2 ∈ r2 :: rest) as Hr2 by apply list_elem_of_here. rewrite <- Ho in Hr2.
  apply list_elem_of_omap in Hr2 as (id2 & Hid2 & Hr2). apply Hsel in Hr2 as [Hr2 Hv2].
  destruct Hid. rewrite (Hone id id2 r r2); [done|apply Hin, list_elem_of_here|by apply Hin'|done..].
Qed.

(** An upsert never updates when the field is unique: if at most one row of
    the entity carries the value, the search for it answers that there is none
    (it asks for the second page of a listing of one row a page), and the upsert
    creates, on the same data, whether the row is there or not. *)
Theorem upsert_creates e field s createData updateData w :
  is_Some (schemas !! e) -> at_most_one (kv (rw_server w)) e field s ->
  (forall t, kv (rw_server w) !! makeSetKey e <> Some (RText t)) ->
  exists w', same_data w w' /\
    findByField schemas parse_what e field (JString s) w = (Err (notFound "No matching record found"), w') /\
    upsert schemas parse_what e field (JString s) createData updateData w = create schemas e createData w'.
Proof.
  intros Hschema Hone Hset.
  destruct (list_eq e (filtered {[field := s]} 1) w Hschema Hset) as (ids & w' & Hperm & Hs & Heq).
  pose proof (at_most_one_rows _ _ _ _ _ Hone Hperm) as Hlen.
  assert (findByField schemas parse_what e field (JString s) w =
    (Err (notFound "No matching record found"), w')) as Hf.
  2: { exists w'. split; [done|]. split; [done|]. unfold upsert. by rewrite Hf. }
  cbn [filtered opt_filter opt_page opt_limit default_options] in Heq.
  change (if (0 <? 1)%Z then 1%Z else 100%Z) with 1%Z in Heq. rewrite (paginate_one _ Hlen) in Heq.
  unfold findByField, findFirst.
  rewrite (run_bind_ok (of_result _) _ {[field := s]} w w) by done.
  by rewrite (run_bind_ok _ _ _ _ _ Heq).
Qed.
(** *** Rows *)

(** The transaction object stays what it was. *)
Definition keeps_tx : relation (RedisWorld R) := fun w w' => compensating_tx_ w' = compensating_tx_ w.
#[local] Instance keeps_tx_preorder : PreOrder keeps_tx.
Proof. split; [done|]. intros w1 w2 w3. unfold keeps_tx. congruence. Qed.

Lemma exec_keeps {A} (cmd : R -> (string + A) * R) : frame keeps_tx (exec cmd).
Proof. intros w. unfold exec. by destruct (cmd (rw_server w)). Qed.

Lemma ignore_keeps {A} (m : Op (RedisWorld R) A) : frame keeps_tx m -> frame keeps_tx (ignore m).
Proof. intros Hm w. unfold ignore. specialize (Hm w). by destruct (m w) as [[] ?]. Qed.

Lemma ignore_exec {A} (cmd : R -> (string + A) * R) w :
  ignore (exec cmd) w = (Ok tt, mkWorld (cmd (rw_server w)).2 (compensating_tx_ w)).
Proof. unfold ignore, exec. by destruct (cmd (rw_server w)) as [[] ?]. Qed.

#[local] Hint Resolve exec_keeps ignore_keeps : dbal.

(** What a creation that succeeds has done. *)
Lemma create_run e data w rec w' :
  create schemas e data w = (Ok rec, w') ->
  is_Some (schemas !! e) /\ exists id m, rec = JObject m /\ obj_get "id" m = Some (JString id) /\
    (forall k v, k <> "id" -> member data k = Some v -> obj_get k m = Some v) /\
    kv (rw_server w') !! makeKey e id = Some (RText (serialize rec)) /\
    (forall k, k <> makeKey e id -> k <> makeSetKey e -> k <> makeCounterKey e ->
       kv (rw_server w') !! k = kv (rw_server w) !! k) /\
    compensating_tx_ w' = recordCreate e id <$> compensating_tx_ w.
Proof.
  unfold create, schema_of. destruct (schemas !! e) as [def|]; [|done]. intros Hrun. split; [done|].
  apply run_bind_inv in Hrun as (def' & w0 & [= _ <-] & Hrun).
  apply run_bind_inv in Hrun as (id & w1 & Hid & Hrun).
  assert (compensating_tx_ w1 = compensating_tx_ w /\
    forall k, k <> makeCounterKey e -> kv (rw_server w1) !! k = kv (rw_server w) !! k) as [Htx1 Hkv1].
  { assert (generateId e w = (Ok id, w1) \/ w1 = w) as [Hg| ->]; [|..|done].
    - destruct (member data "id") as [[]|]; (try by left); right; unfold of_result in Hid; by injection Hid.
    - unfold generateId, exec in Hg. pose proof (law_incr (makeCounterKey e) (rw_server w)) as Hi.
      destruct (redis_incr (makeCounterKey e) (rw_server w)) as [[er|n] s1];
        injection Hg as _ <-; (split; [done|]); intros k Hk; by apply Hi. }
  apply run_of_result_inv in Hrun as (record & Hrec & Hrun).
  assert (exists m, record = JObject m /\ obj_get "id" m = Some (JString id) /\
    (forall k v, k <> "id" -> member data k = Some v -> obj_get k m = Some v)) as (m & -> & Hm & Hmem).
  { destruct data as [| | | | | |l]; try done; injection Hrec as <-; (eexists; split; [done|]); cbn [member].
    - split; [done|]. done.
    - rewrite obj_get_set. split; [done|]. intros k v Hk Hv. rewrite obj_get_set.
      by destruct (String.eqb_spec k "id"). }
  destruct (law_set (makeKey e id) (serialize (JObject m)) (rw_server w1)) as (s2 & Hset & Hkv2).
  rewrite (run_bind_ok _ _ tt w1 (mkWorld s2 (compensating_tx_ w1))) in Hrun by (unfold exec; by rewrite Hset).
  rewrite (run_bind_ok _ _ _ _ _ (ignore_exec _ _)) in Hrun. cbn [rw_server compensating_tx_] in Hrun.
  destruct (law_sadd (makeSetKey e) id s2) as (r & s3 & Hsadd & Hkv3). rewrite Hsadd in Hrun. cbn [snd] in Hrun.
  apply run_bind_inv in Hrun as (u & w4 & Hrecord & [= <- <-]).
  assert (w4 = mkWorld s3 (recordCreate e id <$> compensating_tx_ w1)) as ->.
  { unfold recording, active_tx in Hrecord. cbn [compensating_tx_] in Hrecord.
    destruct (compensating_tx_ w1) as [t|]; [|by injection Hrecord as <-].
    destruct (active_ t) eqn:Hact; injection Hrecord as _ <-; [done|].
    cbn [fmap option_fmap option_map]. unfold recordCreate. by rewrite Hact. }
  exists id, m. cbn [rw_server compensating_tx_]. split_and!; try done; [..|by rewrite Htx1].
  - rewrite Hkv3, Hkv2. destruct (decide (makeSetKey e = makeKey e id)) as [->|Hne].
    + rewrite lookup_insert_eq. apply lookup_insert_eq.
    + repeat case_match; rewrite ?(lookup_insert_ne _ (makeSetKey e)) by done; apply lookup_insert_eq.
  - intros k Hk1 Hk2 Hk3. rewrite Hkv3, <- (Hkv1 k Hk3). transitivity (kv s2 !! k).
    + repeat case_match; rewrite ?lookup_insert_ne by done; done.
    + rewrite Hkv2. by rewrite lookup_insert_ne.
Qed.
(** What is created can be read: after a creation that succeeds the adapter
    answers the record it returned under the identifier in it (its JSON text read
    back, as the library documents for valid UTF-8), every member of the data but
    the identifier is in it, and the texts of other keys, the set and counter of
    the entity apart, are as they were. *)
Theorem create_then_read e data w rec w' :
  create schemas e data w = (Ok rec, w') -> parse (serialize rec) = Some rec ->
  exists id, member rec "id" = Some (JString id) /\
    (read schemas parse_what e id w').1 = Ok rec /\
    (forall k v, k <> "id" -> member data k = Some v -> member rec k = Some v) /\
    forall k, k <> makeKey e id -> k <> makeSetKey e -> k <> makeCounterKey e ->
      kv (rw_server w') !! k = kv (rw_server w) !! k.
Proof.
  intros Hrun Hparse. apply create_run in Hrun as ([def Hdef] & id & m & -> & Hid & Hmem & Hrow & Hother & _).
  exists id. split; [done|]. split; [|by split].
  destruct (redis_read_run e id w') as (w2 & _ & Hread). rewrite Hdef in Hread. unfold row_at in Hread.
  rewrite Hrow, Hparse in Hread. by rewrite Hread.
Qed.

(** *** Rollback *)

(** The undo of an entry whose row can be read appends to the log it is read from. *)
Lemma remove_appends e id m v w t :
  is_Some (schemas !! e) -> row_at (kv (rw_server w)) e id = Some (JObject m) -> obj_get "id" m = Some (JString v) ->
  compensating_tx_ w = Some t -> active_ t = true ->
  exists op, compensating_tx_ (remove schemas parse_what e id w).2 = Some (push_back op t).
Proof.
  intros [def Hdef] Hrow Hid Ht Hact. exists (mkUndo UNDO_DELETE e v (JObject m)).
  destruct (redis_read_run e id w) as (w1 & [_ Htx] & Hread). rewrite Hdef, Hrow in Hread.
  assert (remove schemas parse_what e id w =
    (deleted ← exec (redis_del (makeKey e id)); reject_if (deleted =? 0)%Z (no_row e id);;
     ignore (exec (redis_srem (makeSetKey e) id));; mret true)
    (set_tx (Some (push_back (mkUndo UNDO_DELETE e v (JObject m)) t)) w1)) as ->.
  { unfold remove. erewrite (run_bind_ok _ _ tt w); [reflexivity|]. unfold active_tx. rewrite Ht, Hact, Hread.
    unfold recording, active_tx. rewrite Htx, Ht, Hact. unfold recordDelete. rewrite Hact.
    cbn [negb member]. by rewrite Hid. }
  match goal with |- compensating_tx_ (?k ?w).2 = _ => assert (frame keeps_tx k) as Hk end.
  { apply frame_bind; [apply _|apply exec_keeps|]. intros n. apply frame_bind; [apply _|apply frame_pure; [apply _|apply pure_reject_if]|].
    intros _. apply frame_bind; [apply _|apply ignore_keeps, exec_keeps|]. intros _. by apply frame_pure; [apply _|]. }
  by rewrite (Hk _).
Qed.

(** A transaction that created something cannot be rolled back: the undo is a
    removal by the adapter itself, which sees its transaction still active and
    appends to the log that the rollback is going through, so the call's behaviour
    is undefined; for every entity and data, on a server that works, provided the
    new row's text reads back. *)
Theorem begin_create_rollback e data w rec w1 w2 :
  beginTransaction w = (Ok true, w1) -> create schemas e data w1 = (Ok rec, w2) ->
  parse (serialize rec) = Some rec ->
  (rollbackTransaction schemas parse_what w2).1 = Undef.
Proof.
  intros Hbegin Hcreate Hparse.
  assert (compensating_tx_ w1 = Some new_transaction) as Ht1.
  { unfold beginTransaction in Hbegin. destruct (active_tx w); [done|]. by injection Hbegin as <-. }
  apply create_run in Hcreate as (Hschema & id & m & -> & Hid & _ & Hrow & _ & Ht2).
  rewrite Ht1 in Ht2. cbn [fmap option_fmap option_map] in Ht2.
  set (t := recordCreate e id new_transaction) in *.
  destruct (remove_appends e id m id w2 t) as [op Hop]; [done| |done|done|done|].
  { unfold row_at. by rewrite Hrow, Hparse. }
  unfold rollbackTransaction, active_tx. rewrite Ht2. change (active_ t) with true. cbv iota.
  unfold rollback. rewrite Ht2. change (negb (active_ t)) with false. cbv iota.
  change (length (undo_log_ t)) with 1. cbn [undo_loop]. rewrite Ht2.
  change (undo_log_ t !! 0) with (Some (mkUndo UNDO_CREATE e id JNull)).
  cbn [undo uo_type uo_entityName uo_id do_remove redis_calls].
  unfold mbind, Op_bind.
  destruct (remove schemas parse_what e id w2) as [r w3]. cbn [snd] in Hop.
  by destruct r; cbn; rewrite Hop.
Qed.
End Facts.

(** ** A server in memory *)

Definition wrong_type : string := "WRONGTYPE Operation against a key holding the wrong kind of value".
#[local] Instance mem_redis : RedisServer (gmap string rvalue) := {|
  redis_set k v s := (inr tt, <[k := RText v]> s);
  redis_get k s :=
    (match s !! k with None => inr None | Some (RText t) => inr (Some t) | Some (RSet _) => inl wrong_type end, s);
  redis_del k s := (inr (if bool_decide (is_Some (s !! k)) then 1 else 0)%Z, delete k s);
  redis_sadd k x s :=
    match s !! k with
    | None => (inr 1%Z, <[k := RSet {[x]}]> s)
    | Some (RSet X) => (inr (if bool_decide (x ∈ X) then 0 else 1)%Z, <[k := RSet ({[x]} ∪ X)]> s)
    | Some (RText _) => (inl wrong_type, s)
    end;
  redis_srem k x s :=
    match s !! k with
    | None => (inr 0%Z, s)
    | Some (RSet X) =>
        (inr (if bool_decide (x ∈ X) then 1 else 0)%Z,
         if bool_decide (X ∖ {[x]} = ∅) then delete k s else <[k := RSet (X ∖ {[x]})]> s)
    | Some (RText _) => (inl wrong_type, s)
    end;
  redis_smembers k s :=
    (match s !! k with None => inr [] | Some (RSet X) => inr (elements X) | Some (RText _) => inl wrong_type end, s);
  redis_incr k s :=
    match s !! k with
    | None => (inr 1%Z, <[k := RText "1"]> s)
    | Some (RText t) =>
        if string_forallb is_digit t
        then (inr (Z.of_N (dec_val t 0) + 1)%Z, <[k := RText (to_string (Z.of_N (dec_val t 0) + 1))]> s)
        else (inl "ERR value is not an integer or out of range", s)
    | Some (RSet _) => (inl wrong_type, s)
    end;
|}.

#[local] Program Instance mem_redis_laws : RedisLaws (gmap string rvalue) := {| kv s := s |}.
Next Obligation. intros k v s. by eexists. Qed.
Next Obligation. intros k s. exists s. split; [done|]. cbn. destruct (s !! k) as [[]|]; [done|by eexists|done]. Qed.
Next Obligation. intros k s. by eexists. Qed.
Next Obligation. intros k x s. cbn. destruct (s !! k) as [[]|]; by eexists _, _. Qed.
Next Obligation. intros k s. exists s. split; [done|]. cbn. destruct (s !! k) as [[]|]; [by eexists|by eexists|done]. Qed.
Next Obligation.
  intros k s k' Hk. unfold redis_incr, mem_redis. repeat case_match; cbn [snd]; try done; by apply lookup_insert_ne.
Qed.

(** Objects of texts, printed as "key=value;". *)
Fixpoint flat_dump (m : members) : option string :=
  match m with
  | [] => Some ""
  | (k, JString v) :: m => rest ← flat_dump m; Some (k +:+ ("=" +:+ (v +:+ (";" +:+ rest))))
  | _ => None
  end.
Fixpoint flat_parse (s cur : string) (key : option string) : option members :=
  match s with
  | EmptyString => match key with None => if is_empty cur then Some [] else None | Some _ => None end
  | String c s =>
      if Ascii.eqb c "=" then
        match key with None => flat_parse s "" (Some cur) | Some _ => None end
      else if Ascii.eqb c ";" then
        match key with Some k => m ← flat_parse s "" None; Some ((k, JString cur) :: m) | None => None end
      else flat_parse s (cur +:+ String c "") key
  end.
#[local] Instance flat_json : JsonLib := {|
  dump_text v := match v with JObject m => flat_dump m | JString s => Some (String "034" (s +:+ String "034" "")) | _ => None end;
  parse s := JObject <$> flat_parse s "" None;
  stod _ := None;
|}.

Definition demo_schemas : gmap string EntityDefinition := {["User" := mkEntityDef "User" "" []]}.
Definition no_what (_ : string) : string := "".
Abbreviation DemoWorld := (RedisWorld (gmap string rvalue)).
Definition empty_redis : DemoWorld := mkWorld ∅ None.
Definition ada : json := object [("name", JString "ada")].
Definition ada_row : json := object [("id", JString "1"); ("name", JString "ada")].
Definition with_ada : DemoWorld := (create demo_schemas "User" ada empty_redis).2.
Definition in_transaction : DemoWorld := (beginTransaction empty_redis).2.
Definition ada_pending : DemoWorld := (create demo_schemas "User" ada in_transaction).2.
Definition bea : json := object [("name", JString "bea")].
Definition with_both : DemoWorld := (create demo_schemas "User" bea with_ada).2.
Definition one_per_page (page : Z) : ListOptions :=
  {| opt_filter := ∅; opt_sort := ∅; opt_page := page; opt_limit := 1 |}.

Lemma run_fst {S A} (r : Result A * S) a : r.1 = Ok a -> r = (Ok a, r.2).
Proof. destruct r. cbn. by intros ->. Qed.

Lemma create_then_read_witness :
  (create demo_schemas "User" ada empty_redis).1 = Ok ada_row /\
  exists id, (read demo_schemas no_what "User" id with_ada).1 = Ok ada_row.
Proof.
  assert ((create demo_schemas "User" ada empty_redis).1 = Ok ada_row) as Hc by (vm_compute; reflexivity).
  split; [exact Hc|].
  destruct (create_then_read demo_schemas no_what "User" ada empty_redis ada_row with_ada) as (id & _ & Hr & _).
  - by apply run_fst.
  - vm_compute. reflexivity.
  - by exists id.
Defined.

Lemma list_page_of_witness :
  (r ← (list_entities demo_schemas no_what "User" (one_per_page 0) with_both).1; Ok (lr_items r)) = Ok [ada_row] /\
  exists r w', list_entities demo_schemas no_what "User" (one_per_page 1) with_both = (Ok r, w') /\ same_data with_both w'.
Proof.
  split; [vm_compute; reflexivity|].
  assert (exists r, (list_entities demo_schemas no_what "User" (one_per_page 1) with_both).1 = Ok r) as [r Hr]
    by (eexists; vm_compute; reflexivity).
  apply run_fst in Hr. eexists _, _. split; [exact Hr|].
  eapply (list_page_of demo_schemas no_what "User" (one_per_page 1) with_both); [..|exact Hr].
  - reflexivity.
  - by eexists.
  - intros t. vm_compute. discriminate.
Defined.

Lemma upsert_creates_witness : exists w',
  upsert demo_schemas no_what "User" "name" (JString "ada") ada (object [("name", JString "lovelace")]) with_ada =
  create demo_schemas "User" ada w'.
Proof.
  destruct (upsert_creates demo_schemas no_what "User" "name" "ada" ada (object [("name", JString "lovelace")]) with_ada)
    as (w' & _ & _ & Hu).
  - by eexists.
  - intros id1 id2 r1 r2 H1 H2 _ _ _ _.
    assert (ids_of (kv (rw_server with_ada)) "User" = {["1"]}) as Hids by (vm_compute; reflexivity).
    rewrite Hids in H1, H2. apply elem_of_singleton in H1, H2. congruence.
  - intros t. vm_compute. discriminate.
  - by exists w'.
Defined.

(** The second user of the same name. *)
Lemma upsert_duplicates :
  let w := (upsert demo_schemas no_what "User" "name" (JString "ada") ada ada with_ada).2 in
  (read demo_schemas no_what "User" "1" w).1 = Ok ada_row /\
  (read demo_schemas no_what "User" "2" w).1 = Ok (object [("id", JString "2"); ("name", JString "ada")]).
Proof. vm_compute. split; reflexivity. Qed.

Lemma begin_create_rollback_witness :
  (create demo_schemas "User" ada in_transaction).1 = Ok ada_row /\
  (rollbackTransaction demo_schemas no_what ada_pending).1 = Undef.
Proof.
  assert ((create demo_schemas "User" ada in_transaction).1 = Ok ada_row) as Hc by (vm_compute; reflexivity).
  split; [exact Hc|].
  apply (begin_create_rollback demo_schemas no_what "User" ada empty_redis ada_row in_transaction ada_pending).
  - by apply run_fst.
  - by apply run_fst.
  - vm_compute. reflexivity.
Defined.

(** A row whose identifier is "all" takes the key of the entity's set of
    identifiers: after creating one, no row of the entity can be listed. *)
Theorem row_named_all_hides_the_others :
  let w := (create demo_schemas "User" (object [("id", JString "all")]) with_ada).2 in
  isOk (create demo_schemas "User" (object [("id", JString "all")]) with_ada).1 = true /\
  (read demo_schemas no_what "User" "1" w).1 = Ok ada_row /\
  (list_entities demo_schemas no_what "User" default_options w).1 = Err (internal wrong_type).
Proof. vm_compute. split_and!; reflexivity. Qed.

(** Filters of bulk operations never match a text: their values are printed
    with quotation marks and compared with the bare text of the rows. *)
Theorem bulk_filter_misses :
  (deleteMany demo_schemas no_what "User" (object [("name", JString "ada")]) with_both).1 = Ok 0%Z /\
  matchesFilter ada_row {["name" := "ada"]} = true.
Proof. vm_compute. split; reflexivity. Qed.
