(* ===== verification/Elastic.v ===== *)
(** * The Elasticsearch adapter

    Models src/adapters/elasticsearch: the HTTP client, the paths and queries, the
    reading of answers, and the adapter over them.  The server behind the HTTP
    library (cpr) is a type class; cpr answers status 0 and an empty text when it
    reaches no server.  The identifiers of libuuid are drawn from the same class. *)

From S2P Require Import Prelude CxxString CxxStd Store Json EntityHost Adapter CompensatingTransaction RedisAdapter.

Open Scope string_scope.

(** ** The server *)

Class EsServer (E : Type) := {
  es_send : string -> string -> string -> E -> (Z * string) * E;   (* method, URL, body *)
  es_uuid : E -> string * E;
}.

Record EsClient := mkEsClient { base_url_ : string; refresh_policy_ : string; verify_certs_ : bool }.

Record EsWorld (E : Type) := mkEsWorld { ew_server : E; ew_tx : option CompTx }.
Arguments mkEsWorld {E} _ _.
Arguments ew_server {E} _.
Arguments ew_tx {E} _.

(** ** The connection URL (elasticsearch_url_parser.cpp) *)

Record ConnectionConfig := mkConnection {
  cc_base_url : string; cc_default_index : string; cc_document_type : string;
  cc_refresh_policy : string; cc_verify_certs : bool;
}.

(** Up to the first question mark, and after it. *)
Definition before_query (url : string) : string :=
  match find_char "?" url with Some q => string_take q url | None => url end.
Definition after_query (url : string) : string :=
  match find_char "?" url with Some q => string_drop (S q) url | None => "" end.

Definition extractBaseUrl (connection_url : string) : string :=
  let url_part := before_query connection_url in
  if String.prefix "elasticsearch://" url_part then "http://" +:+ string_drop 16 url_part
  else if String.prefix "http://" url_part || String.prefix "https://" url_part then url_part
  else "http://" +:+ url_part.

Definition query_param (config : ConnectionConfig) (param : string) : ConnectionConfig :=
  match find_char "=" param with
  | None => config
  | Some eq =>
      let key := string_take eq param in
      let value := string_drop (S eq) param in
      if String.eqb key "index" then mkConnection (cc_base_url config) value (cc_document_type config) (cc_refresh_policy config) (cc_verify_certs config)
      else if String.eqb key "type" then mkConnection (cc_base_url config) (cc_default_index config) value (cc_refresh_policy config) (cc_verify_certs config)
      else if String.eqb key "refresh" then mkConnection (cc_base_url config) (cc_default_index config) (cc_document_type config) value (cc_verify_certs config)
      else if String.eqb key "verify_certs" then
        mkConnection (cc_base_url config) (cc_default_index config) (cc_document_type config) (cc_refresh_policy config)
          (String.eqb value "true" || String.eqb value "1")
      else config
  end.
Definition parseQueryParams (connection_url : string) (config : ConnectionConfig) : ConnectionConfig :=
  foldl query_param config (split_on "&" (after_query connection_url)).
Definition parse_connection (connection_url : string) : ConnectionConfig :=
  parseQueryParams connection_url (mkConnection (extractBaseUrl connection_url) "metabuilder" "_doc" "true" true).

(** ** Paths and values (elasticsearch_type_converter.cpp) *)

Definition toIndexName (entity_name : string) : string := to_lower entity_name.
Definition makeDocumentPath (index_name document_type id : string) : string :=
  if is_empty id then "/" +:+ (index_name +:+ ("/" +:+ document_type))
  else "/" +:+ (index_name +:+ ("/" +:+ (document_type +:+ ("/" +:+ id)))).
Definition makeSearchPath (index_name : string) : string := "/" +:+ (index_name +:+ "/_search").
Definition convertFieldType (dbal_type : string) : json :=
  if String.eqb dbal_type "string" then
    object [("type", JString "text"); ("fields", object [("keyword", object [("type", JString "keyword")])])]
  else if String.eqb dbal_type "number" then object [("type", JString "double")]
  else if String.eqb dbal_type "boolean" then object [("type", JString "boolean")]
  else if String.eqb dbal_type "timestamp" then object [("type", JString "date")]
  else if String.eqb dbal_type "json" then object [("type", JString "object"); ("enabled", JBool true)]
  else object [("type", JString "keyword")].

(** ** Queries (elasticsearch_query_builder.cpp) *)

Definition text_members (filter : gmap string string) : members := (fun kv => (kv.1, JString kv.2)) <$> map_items filter.
Definition buildMatchAllQuery : members := build [("query", object [("match_all", object [])])].
Definition buildBoolQuery (filter : members) : json :=
  object [("bool", object [("must", JArray ((fun kv => object [("term", object [kv])]) <$> filter))])].
Definition buildSearchQuery (filter : members) (limit from : Z) : json :=
  let query := match filter with [] => buildMatchAllQuery | _ => [("query", buildBoolQuery filter)] end in
  JObject (obj_set "from" (JInt from) (obj_set "size" (JInt limit) query)).

(** ** Answers (elasticsearch_search_builder.cpp) *)

(** The array under "hits" of "hits". *)
Definition hit_list (response : json) : list json :=
  match member response "hits" with
  | Some hits => match member hits "hits" with Some (JArray l) => l | _ => [] end
  | None => []
  end.
Definition extractDocuments (response : json) : list json := omap (fun hit => member hit "_source") (hit_list response).
Definition extractTotal (response : json) : Result Z :=
  match member response "hits" with
  | None => Ok 0%Z
  | Some hits =>
      match member hits "total" with
      | None => Ok 0%Z
      | Some total_obj =>
          match member total_obj "value" with
          | Some v => get_int v
          | None => if is_number total_obj then get_int total_obj else Ok 0%Z
          end
      end
  end.
Definition parseSearchResponse (response : json) (page limit : Z) : Result ListResult :=
  total ← extractTotal response;
  Ok (mkListResult (extractDocuments response) total page limit).

Fixpoint count_items (items : list json) (operation_type : string) : Result Z :=
  match items with
  | [] => Ok 0%Z
  | item :: items =>
      n ← match member item operation_type with
          | Some op_result => status ← value_int op_result "status" 0; Ok (if (200 <=? status)%Z && (status <? 300)%Z then 1 else 0)%Z
          | None => Ok 0%Z
          end;
      rest ← count_items items operation_type;
      Ok (n + rest)%Z
  end.
Definition countSuccesses (bulk_response : json) (operation_type : string) : Result Z :=
  match member bulk_response "items" with Some (JArray items) => count_items items operation_type | _ => Ok 0%Z end.

Section ElasticAdapter.
Context {E : Type} `{!EsServer E} {jl : JsonLib} (client : EsClient) (exn_what : Exn -> string).
Abbreviation World := (EsWorld E).

(** ** The HTTP client (elasticsearch_http_client.cpp) *)

Definition buildUrl (path : string) (include_refresh : bool) : string :=
  base_url_ client +:+ (path +:+
    (if include_refresh && negb (is_empty (refresh_policy_ client)) && negb (String.eqb (refresh_policy_ client) "false")
     then (match find_char "?" path with Some _ => "&" | None => "?" end) +:+ ("refresh=" +:+ refresh_policy_ client)
     else "")).

(** An answer as JSON; the parser throws on a text that is none. *)
Definition parsed (text : string) : Result json :=
  match parse text with Some v => Ok v | None => Throw (json_error 101) end.
Definition answer_json (status : Z) (text : string) : Result json :=
  if (400 <=? status)%Z then Err (internal ("Elasticsearch error (HTTP " +:+ (to_string status +:+ ("): " +:+ text))))
  else if is_empty text then Ok (JObject []) else parsed text.
(** [catch (const std::exception& e)] *)
Definition caught {A} (prefix : string) (r : Result A) : Result A :=
  match r with Throw x => Err (internal (prefix +:+ exn_what x)) | r => r end.

Definition catching {A} (prefix : string) (m : Op World A) : Op World A := fun w =>
  let '(r, w') := m w in (caught prefix r, w').

Definition send (method url body : string) : World -> (Z * string) * World := fun w =>
  let '(r, s) := es_send method url body (ew_server w) in (r, mkEsWorld s (ew_tx w)).

Definition es_get (path : string) : Op World json := fun w =>
  let '((status, text), w') := send "GET" (base_url_ client +:+ path) "" w in
  (caught "HTTP GET failed: " (if (status =? 404)%Z then Err (notFound ("Resource not found: " +:+ path)) else answer_json status text), w').
Definition es_head (path : string) : Op World json := fun w =>
  let '((status, _), w') := send "HEAD" (base_url_ client +:+ path) "" w in
  (if (status =? 404)%Z then Err (notFound ("Resource not found: " +:+ path))
   else if (400 <=? status)%Z then Err (internal ("Elasticsearch error (HTTP " +:+ (to_string status +:+ ")")))
   else Ok (JObject []), w').
(** The calls with a body, whose text is made first. *)
Definition with_body (method prefix path : string) (body : json) (include_refresh : bool) : Op World json := fun w =>
  match dump body with
  | Ok text =>
      let '((status, answer), w') := send method (buildUrl path include_refresh) text w in
      (caught prefix (answer_json status answer), w')
  | r => (caught prefix (recast r), w)
  end.
Definition es_post : string -> json -> bool -> Op World json := with_body "POST" "HTTP POST failed: ".
Definition es_put : string -> json -> bool -> Op World json := with_body "PUT" "HTTP PUT failed: ".
Definition deleteRequest (path : string) (include_refresh : bool) : Op World json := fun w =>
  let '((status, text), w') := send "DELETE" (buildUrl path include_refresh) "" w in
  (caught "HTTP DELETE failed: " (answer_json status text), w').
Fixpoint ndjson (lines : list string) : string :=
  match lines with [] => "" | l :: lines => l +:+ String "010" (ndjson lines) end.
Definition es_bulk (ndjson_lines : list string) : Op World json := fun w =>
  let '((status, text), w') := send "POST" (buildUrl "/_bulk" true) (ndjson ndjson_lines) w in
  (caught "Bulk request failed: "
     (if (400 <=? status)%Z
      then Err (internal ("Elasticsearch bulk request failed (HTTP " +:+ (to_string status +:+ ("): " +:+ text))))
      else parsed text), w').

(** ** Indices (elasticsearch_index_manager.cpp) *)

Definition buildMapping (schema : EntitySchema) : Result string :=
  dump (object [("mappings", object [("properties",
    object ((fun f => (fd_name f, convertFieldType (fd_type f))) <$> es_fields schema))])]).
Definition succeeds {A} (m : Op World A) : Op World bool := fun w =>
  match m w with (Ok _, w') => (Ok true, w') | (Err _, w') => (Ok false, w') | (r, w') => (recast r, w') end.
Definition indexExists (index_name : string) : Op World bool := succeeds (es_head ("/" +:+ index_name)).
Definition createIndex (index_name : string) (schema : EntitySchema) : Op World bool :=
  there ← indexExists index_name;
  if there : bool then mret true
  else
    create_body ← of_result (mapping_str ← buildMapping schema; parsed mapping_str);
    succeeds (es_put ("/" +:+ index_name) create_body false).

(** [createIndices]: the map of schemas goes in an order of its own. *)
Fixpoint createIndices (l : list (string * EntitySchema)) : Op World unit :=
  match l with
  | [] => mret tt
  | (entityName, schema) :: l => createIndex (toIndexName entityName) schema;; createIndices l
  end.

(** ** The adapter *)

Context (schemas : gmap string EntitySchema) (document_type_ : string).

(** The constructor, from the parsed URL on. *)
Definition connect : Op World unit := fun w =>
  match es_get "/_cluster/health" w with
  | (Ok health, w') => (of_result (value_string health "cluster_name" "unknown");; of_result (value_string health "status" "unknown");; createIndices (map_to_list schemas)) w'
  | (Err e, w') => (Throw (runtime_error ("Failed to connect to Elasticsearch: " +:+ message e)), w')
  | (r, w') => (recast r, w')
  end.

Definition active_tx (w : World) : option CompTx :=
  match ew_tx w with Some t => if active_ t then Some t else None | None => None end.
Definition set_tx (t : option CompTx) (w : World) : World := mkEsWorld (ew_server w) t.
Definition recording (f : CompTx -> Result CompTx) : Op World unit := fun w =>
  match active_tx w with
  | None => (Ok tt, w)
  | Some t => match f t with Ok t' => (Ok tt, set_tx (Some t') w) | r => (recast r, w) end
  end.

Definition es_schema (entityName : string) : Op World EntitySchema :=
  match schemas !! entityName with
  | Some schema => mret schema
  | None => fail (notFound ("Entity schema not found: " +:+ entityName))
  end.
Definition es_no_row (entityName id : string) : Error := notFound (entityName +:+ (" with id " +:+ (id +:+ " not found"))).
Definition generateId : Op World string := fun w =>
  let '(id, s) := es_uuid (ew_server w) in (Ok id, mkEsWorld s (ew_tx w)).
Definition given_id (data : json) : Op World string :=
  match member data "id" with Some JNull | None => generateId | Some v => of_result (get_string v) end.
Definition document_path (entityName id : string) : string :=
  makeDocumentPath (toIndexName entityName) document_type_ id.

Definition create (entityName : string) (data : json) : Op World json :=
  es_schema entityName;;
  id ← given_id data;
  record ← of_result (assign_member data "id" (JString id));
  es_put (document_path entityName id) record true;;
  recording (fun t => Ok (recordCreate entityName id t));;
  mret record.

Definition read (entityName id : string) : Op World json :=
  es_schema entityName;;
  response ← es_get (document_path entityName id);
  found ← of_result (value_bool response "found" false);
  if negb found then fail (es_no_row entityName id)
  else match member response "_source" with
       | Some source => mret source
       | None => fail (internal "Elasticsearch response missing _source field")
       end.

Definition update (entityName id : string) (data : json) : Op World json :=
  previous ← read entityName id;
  recording (fun t => Ok (recordUpdate entityName id previous t));;
  record ← of_result (l ← key_values data; assign_all previous l);
  es_put (document_path entityName id) record true;;
  mret record.

Definition record_before_delete (entityName id : string) : Op World unit := fun w =>
  match active_tx w with
  | None => (Ok tt, w)
  | Some _ =>
      match read entityName id w with
      | (Ok oldData, w') => recording (recordDelete entityName oldData) w'
      | (Err _, w') => (Ok tt, w')
      | (r, w') => (recast r, w')
      end
  end.
Definition remove (entityName id : string) : Op World bool :=
  record_before_delete entityName id;;
  response ← deleteRequest (document_path entityName id) true;
  result_status ← of_result (value_string response "result" "");
  if String.eqb result_status "deleted" then mret true
  else if String.eqb result_status "not_found" then fail (es_no_row entityName id)
  else fail (internal ("Unexpected delete result: " +:+ result_status)).

(** The body of [list] inside its [try]; an [int] product out of range is undefined. *)
Definition list_body (entityName : string) (options : ListOptions) : Op World ListResult :=
  let limit := if (0 <? opt_limit options)%Z then opt_limit options else 100%Z in
  let from := (opt_page options * limit)%Z in
  (if in_int from then mret tt else undef);;
  response ← es_post (makeSearchPath (toIndexName entityName)) (buildSearchQuery (text_members (opt_filter options)) limit from) false;
  of_result (parseSearchResponse response (opt_page options) limit).
Definition list_entities (entityName : string) (options : ListOptions) : Op World ListResult :=
  es_schema entityName;;
  catching "" (list_body entityName options).

(** ** Bulk operations (elasticsearch_bulk_operations.cpp) *)

Definition action_line (operation index_name id : string) : Result string :=
  dump (object [(operation, object [("_index", JString index_name); ("_id", JString id)])]).
Fixpoint buildIndexOperations (index_name : string) (records : list json) : Op World (list string) :=
  match records with
  | [] => mret []
  | record :: records =>
      id ← given_id record;
      lines ← of_result (doc ← assign_member record "id" (JString id); a ← action_line "index" index_name id; b ← dump doc; Ok [a; b]);
      rest ← buildIndexOperations index_name records;
      mret (lines ++ rest)%list
  end.
Fixpoint buildUpdateOperations (index_name : string) (records : list json) (update_data : json) : Result (list string) :=
  match records with
  | [] => Ok []
  | record :: records =>
      lines ← match member record "id" with
              | None => Ok []
              | Some v =>
                  id ← get_string v; l ← key_values update_data; updated_doc ← assign_all record l;
                  a ← action_line "update" index_name id; b ← dump (object [("doc", updated_doc)]); Ok [a; b]
              end;
      rest ← buildUpdateOperations index_name records update_data;
      Ok (lines ++ rest)%list
  end.
Fixpoint buildDeleteOperations (index_name : string) (records : list json) : Result (list string) :=
  match records with
  | [] => Ok []
  | record :: records =>
      lines ← match member record "id" with
              | None => Ok [] | Some v => id ← get_string v; a ← action_line "delete" index_name id; Ok [a]
              end;
      rest ← buildDeleteOperations index_name records;
      Ok (lines ++ rest)%list
  end.

Definition createMany (entityName : string) (records : list json) : Op World Z :=
  match records with
  | [] => mret 0%Z
  | _ =>
      lines ← buildIndexOperations (toIndexName entityName) records;
      response ← es_bulk lines;
      of_result (countSuccesses response "index")
  end.

(** A listing of up to so many records: the filter of the caller is not in it. *)
Definition unfiltered (limit : Z) : ListOptions := mkListOptions ∅ ∅ 1 limit.
Definition updateMany (entityName : string) (filter data : json) : Op World Z :=
  listed ← list_entities entityName (unfiltered 10000);
  match lr_items listed with
  | [] => mret 0%Z
  | records =>
      lines ← of_result (buildUpdateOperations (toIndexName entityName) records data);
      response ← es_bulk lines;
      of_result (countSuccesses response "update")
  end.
Definition deleteMany (entityName : string) (filter : json) : Op World Z :=
  listed ← list_entities entityName (unfiltered 10000);
  match lr_items listed with
  | [] => mret 0%Z
  | records =>
      lines ← of_result (buildDeleteOperations (toIndexName entityName) records);
      response ← es_bulk lines;
      of_result (countSuccesses response "delete")
  end.

Definition findFirst (entityName : string) (filter : json) : Op World json :=
  listed ← list_entities entityName (unfiltered 1);
  match lr_items listed with
  | [] => fail (notFound "No matching record found")
  | record :: _ => mret record
  end.
Definition findByField (entityName field : string) (value : json) : Op World json :=
  findFirst entityName (object [(field, value)]).
Definition upsert (entityName uniqueField : string) (uniqueValue createData updateData : json) : Op World json := fun w =>
  match findByField entityName uniqueField uniqueValue w with
  | (Ok found, w') =>
      (id ← of_result (v ← match found with
                           | JObject m => Ok (default JNull (obj_get "id" m)) | JNull => Ok JNull
                           | _ => Throw (json_error 305) end; get_string v);
       update entityName id updateData) w'
  | (Err _, w') => create entityName createData w'
  | (r, w') => (recast r, w')
  end.

(** ** Metadata and transactions *)

Definition getAvailableEntities : Op World (list string) := mret (map_to_list schemas).*1.

Definition es_calls : Adapter World := {|
  do_create := create; do_read := read; do_readIncludingSensitive := read; do_search := default_search;
  do_update := update; do_remove := remove; do_list := list_entities; do_createMany := createMany;
  do_updateMany := updateMany; do_deleteMany := deleteMany; do_findFirst := findFirst;
  do_findByField := findByField; do_upsert := upsert; do_getAvailableEntities := getAvailableEntities;
  do_getEntitySchema := es_schema; do_close := mret tt; supportsNativeTransactions := false;
  do_beginTransaction := default_transaction; do_commitTransaction := default_transaction;
  do_rollbackTransaction := default_transaction;
|}.

Definition beginTransaction : Op World bool := fun w =>
  match active_tx w with
  | Some _ => (Err (internal "Transaction already in progress"), w)
  | None => (Ok true, set_tx (Some new_transaction) w)
  end.
Definition commitTransaction : Op World bool := fun w =>
  match active_tx w with
  | None => (Err (internal "No transaction in progress"), w)
  | Some _ => (Ok true, set_tx None w)
  end.
Definition rollbackTransaction : Op World bool := fun w =>
  match active_tx w with
  | None => (Err (internal "No transaction in progress"), w)
  | Some _ =>
      match rollback (Adapter0 := es_calls) ew_tx set_tx w with
      | (Ok b, w') => (Ok b, set_tx None w')
      | (Err e, w') => (Err e, set_tx None w')
      | (r, w') => (r, w')
      end
  end.
End ElasticAdapter.
