(* ===== verification/ElasticStore.v ===== *)
(** * Elasticsearch as a store of documents

    What the adapter of Elastic.v makes of a server that keeps documents, by index
    and identifier: its calls on one record are those of a map, and none of the
    writes that fail change it.  When no server answers, the same adapter reports
    created records and an empty database. *)

From S2P Require Import Prelude CxxString CxxStd Store Json PlainJson EntityHost Adapter CompensatingTransaction RedisAdapter Elastic.

Open Scope string_scope.

(** ** The server *)

Definition name_char (c : ascii) : bool := is_alnum c || Ascii.eqb c "-" || Ascii.eqb c "_".
(** Names a URL carries as they are, and that the server takes. *)
Definition index_ok (index_name : string) : Prop :=
  (exists c r, index_name = String c r /\ is_lower c = true) /\
  string_forallb name_char index_name = true /\ String.length index_name <= 255.
Definition id_char (c : ascii) : bool := name_char c || Ascii.eqb c ":".
Definition id_ok (id : string) : Prop := id <> "" /\ string_forallb id_char id = true /\ String.length id <= 512.

Abbreviation documents := (gmap (string * string) json).

(** The document API of the server, as its reference has it, for the times the
    server is reachable; a write may be refused (a field of another type, a full
    disk), and a text is answered to a write it took. *)
Class EsDocuments (E : Type) `{!EsServer E} {jl : JsonLib} (client : EsClient) (document_type_ : string) := {
  docs : E -> documents;
  online : E -> bool;
  es_unreached : forall m u b s, online s = false -> es_send m u b s = ((0%Z, ""), s);
  es_uuid_keeps : forall s, docs (es_uuid s).2 = docs s /\ online (es_uuid s).2 = online s;
  es_get_document : forall i id s, online s = true -> index_ok i -> id_ok id ->
    exists status text s',
      es_send "GET" (base_url_ client +:+ makeDocumentPath i document_type_ id) "" s = ((status, text), s') /\
      docs s' = docs s /\ online s' = true /\
      match docs s !! (i, id) with
      | Some v => (status < 400)%Z /\ exists m, parse text = Some (JObject m) /\
          obj_get "found" m = Some (JBool true) /\ obj_get "_source" m = Some v
      | None => status = 404%Z
      end;
  es_put_document : forall i id body m s, online s = true -> index_ok i -> id_ok id -> parse body = Some (JObject m) ->
    exists status text s',
      es_send "PUT" (buildUrl client (makeDocumentPath i document_type_ id) true) body s = ((status, text), s') /\
      online s' = true /\
      ((status < 400)%Z /\ docs s' = <[(i, id) := JObject m]> (docs s) /\ (exists v, parse text = Some v) \/
       (400 <= status)%Z /\ docs s' = docs s);
  es_delete_document : forall i id s, online s = true -> index_ok i -> id_ok id ->
    exists status text s',
      es_send "DELETE" (buildUrl client (makeDocumentPath i document_type_ id) true) "" s = ((status, text), s') /\
      online s' = true /\
      match docs s !! (i, id) with
      | Some _ => ((status < 400)%Z /\ docs s' = delete (i, id) (docs s) /\ exists m, parse text = Some (JObject m) /\
          obj_get "result" m = Some (JString "deleted")) \/ ((400 <= status)%Z /\ docs s' = docs s)
      | None => status = 404%Z /\ docs s' = docs s
      end;
  es_no_text : parse "" = None;
}.

Section Documents.
Context {E : Type} `{!EsServer E} {jl : JsonLib} (client : EsClient) (exn_what : Exn -> string)
  (schemas : gmap string EntitySchema) (document_type_ : string) `{!EsDocuments E client document_type_}.
Abbreviation World := (EsWorld E).

(** A value the library prints and reads back. *)
Definition printable (v : json) : Prop := exists text, dump_text v = Some text /\ parse text = Some v.

Definition held (w : World) : documents := docs (ew_server w).

(** ** The contract *)

Inductive doc_call :=
  | DocCreate (id : string) (data : members)
  | DocRead (id : string)
  | DocUpdate (id : string) (patch : members)
  | DocRemove (id : string).

Definition call_id (c : doc_call) : string :=
  match c with DocCreate id _ | DocRead id | DocUpdate id _ | DocRemove id => id end.

Definition run_call (e : string) (c : doc_call) : Op World json :=
  match c with
  | DocCreate id data => create client exn_what schemas document_type_ e (JObject (obj_set "id" (JString id) data))
  | DocRead id => read client exn_what schemas document_type_ e id
  | DocUpdate id patch => update client exn_what schemas document_type_ e id (JObject patch)
  | DocRemove id => b ← remove client exn_what schemas document_type_ e id; mret (JBool b)
  end.

(** The members a write leaves. *)
Definition patch_all (m patch : members) : members := foldl (fun m kv => obj_set kv.1 kv.2 m) m patch.
Definition written (c : doc_call) (d : option json) : option json :=
  match c, d with
  | DocCreate id data, _ => Some (JObject (obj_set "id" (JString id) (obj_set "id" (JString id) data)))
  | DocUpdate _ patch, Some (JObject m) => Some (JObject (patch_all m patch))
  | _, _ => None
  end.

(** What a call does to the map: the answer, or the code of the error. *)
Definition spec_call (e : string) (c : doc_call) (d : documents) : (ErrorCode + json) * documents :=
  let key := (toIndexName e, call_id c) in
  match c, d !! key with
  | DocCreate _ _, old | DocUpdate _ _, Some _ as old =>
      match written c old with Some v => (inr v, <[key := v]> d) | None => (inl InternalError, d) end
  | DocRead _, Some v => (inr v, d)
  | DocRead _, None | DocUpdate _ _, None => (inl NotFound, d)
  | DocRemove _, Some _ => (inr (JBool true), delete key d)
  | DocRemove _, None => (inl NotFound, d)
  end.

Definition outcome (r : Result json) : option (ErrorCode + json) :=
  match r with Ok v => Some (inr v) | Err e => Some (inl (code e)) | _ => None end.

(** What the caller of an entity respects: its schema is loaded, the names fit a
    URL, the stored document is an object, and what is written can be printed. *)
Record call_ok (e : string) (c : doc_call) (w : World) : Prop := {
  ok_schema : is_Some (schemas !! e);
  ok_index : index_ok (toIndexName e);
  ok_id : id_ok (call_id c);
  ok_stored : forall v, held w !! (toIndexName e, call_id c) = Some v -> is_object v = true;
  ok_printable : forall v, written c (held w !! (toIndexName e, call_id c)) = Some v -> printable v;
}.

Lemma assign_all_object m patch : assign_all (JObject m) patch = Ok (JObject (patch_all m patch)).
Proof. revert m; induction patch as [|[k v] patch IH]; intros m; [done|]. apply IH. Qed.

Lemma answer_text status text v : (status < 400)%Z -> parse text = Some v ->
  answer_json status text = Ok v.
Proof.
  intros Hs Hp. unfold answer_json. replace (400 <=? status)%Z with false by lia.
  destruct (is_empty text) eqn:He.
  - apply is_empty_true in He. subst. by rewrite es_no_text in Hp.
  - unfold parsed. by rewrite Hp.
Qed.
Lemma answer_refused status text : (400 <= status)%Z ->
  exists e, answer_json status text = Err e /\ code e = InternalError.
Proof. intros Hs. unfold answer_json. replace (400 <=? status)%Z with true by lia. by eexists. Qed.

(** Reading one document. *)
Lemma read_document e id w :
  is_Some (schemas !! e) -> online (ew_server w) = true -> index_ok (toIndexName e) -> id_ok id ->
  exists r w', read client exn_what schemas document_type_ e id w = (r, w') /\
    held w' = held w /\ online (ew_server w') = true /\ ew_tx w' = ew_tx w /\
    match held w !! (toIndexName e, id) with
    | Some v => r = Ok v
    | None => exists err, r = Err err /\ code err = NotFound
    end.
Proof.
  intros [schema Hs] Hon Hi Hid.
  destruct (es_get_document _ _ _ Hon Hi Hid) as (status & text & s' & Hsend & Hd & Hon' & Hcase).
  exists (read client exn_what schemas document_type_ e id w).1, (mkEsWorld s' (ew_tx w)).
  unfold read, es_schema. rewrite Hs. unfold mbind, Op_bind, mret, Op_ret, es_get, send, document_path. cbv beta iota. rewrite Hsend.
  unfold held in *. cbn. rewrite Hd.
  destruct (docs (ew_server w) !! _) as [v|].
  - destruct Hcase as (Hst & m & Hp & Hf & Hsrc).
    replace (status =? 404)%Z with false by lia. rewrite (answer_text _ _ _ Hst Hp). cbn. rewrite Hf, Hsrc. done.
  - subst. cbn. split_and!; eauto.
Qed.

(** The server answers a PUT of the value with an error. *)
Definition refuses (i id : string) (v : json) (w : World) : Prop :=
  exists body status text, dump_text v = Some body /\ (400 <= status)%Z /\
    (es_send "PUT" (buildUrl client (makeDocumentPath i document_type_ id) true) body (ew_server w)).1 = (status, text).

(** Storing one document, printed and put. *)
Lemma put_document i id v w :
  is_object v = true -> printable v -> online (ew_server w) = true -> index_ok i -> id_ok id ->
  exists r w', es_put client exn_what (makeDocumentPath i document_type_ id) v true w = (r, w') /\
    online (ew_server w') = true /\ ew_tx w' = ew_tx w /\
    ((exists x, r = Ok x) /\ held w' = <[(i, id) := v]> (held w) \/
     (exists err, r = Err err /\ code err = InternalError) /\ held w' = held w /\ refuses i id v w).
Proof.
  intros Hobj (text & Hdump & Hparse) Hon Hi Hid. destruct v as [| | | | | |m]; try done.
  destruct (es_put_document _ _ _ _ _ Hon Hi Hid Hparse) as (status & answer & s' & Hsend & Hon' & Hcase).
  unfold es_put, with_body, dump, send. rewrite Hdump, Hsend.
  eexists _, _. split; [reflexivity|]. split; [done|]. split; [done|]. unfold held. cbn.
  destruct Hcase as [(Hst & Hd & x & Hp)|[Hst Hd]].
  - left. rewrite (answer_text _ _ _ Hst Hp). eauto.
  - right. destruct (answer_refused status answer Hst) as (err & -> & Hc). cbn. split; [eauto|]. split; [done|].
    exists text, status, answer. by rewrite Hsend.
Qed.

(** The server answers a DELETE of the document with an error. *)
Definition refuses_removal (i id : string) (w : World) : Prop :=
  exists status text, (400 <= status)%Z /\
    (es_send "DELETE" (buildUrl client (makeDocumentPath i document_type_ id) true) "" (ew_server w)).1 = (status, text).

(** The server answers the write of the call with an error; an update is sent after
    the record has been read. *)
Definition refused (e : string) (c : doc_call) (w : World) : Prop :=
  let i := toIndexName e in
  match c with
  | DocCreate id _ => exists v, written c (held w !! (i, id)) = Some v /\ refuses i id v w
  | DocUpdate id _ => exists v, written c (held w !! (i, id)) = Some v /\
      refuses i id v (read client exn_what schemas document_type_ e id w).2
  | DocRemove id => refuses_removal i id w
  | DocRead _ => False
  end.

Lemma recording_none f (w : World) : active_tx w = None -> recording f w = (Ok tt, w).
Proof. unfold recording. by intros ->. Qed.

(** Removing one document. *)
Lemma remove_document e id w :
  active_tx w = None -> online (ew_server w) = true -> index_ok (toIndexName e) -> id_ok id ->
  exists r w', remove client exn_what schemas document_type_ e id w = (r, w') /\
    online (ew_server w') = true /\
    (r = Ok true /\ is_Some (held w !! (toIndexName e, id)) /\ held w' = delete (toIndexName e, id) (held w) \/
     (exists err, r = Err err /\ code err = InternalError) /\ held w' = held w /\ refuses_removal (toIndexName e) id w).
Proof.
  intros Htx Hon Hi Hid.
  destruct (es_delete_document _ _ _ Hon Hi Hid) as (status & text & s' & Hsend & Hon' & Hcase).
  exists (remove client exn_what schemas document_type_ e id w).1, (mkEsWorld s' (ew_tx w)).
  unfold remove, record_before_delete. unfold mbind, Op_bind, mret, Op_ret. rewrite Htx.
  unfold deleteRequest, send, document_path. cbv beta iota. rewrite Hsend. unfold held.
  assert ((400 <= status)%Z -> refuses_removal (toIndexName e) id w) as Hrefused.
  { intros Hst. exists status, text. by rewrite Hsend. }
  destruct (docs (ew_server w) !! _) as [v|].
  - destruct Hcase as [(Hst & Hd & m & Hp & Hr)|[Hst Hd]].
    + rewrite (answer_text _ _ _ Hst Hp). cbn. rewrite Hr. cbn. eauto 10.
    + destruct (answer_refused status text Hst) as (err & -> & Hc). cbn. eauto 10.
  - destruct Hcase as [-> Hd]. assert (refuses_removal (toIndexName e) id w) by by apply Hrefused. cbn. eauto 10.
Qed.

Lemma given_id_set id m (w : World) : given_id (JObject (obj_set "id" (JString id) m)) w = (Ok id, w).
Proof. unfold given_id, member. by rewrite obj_get_set, String.eqb_refl. Qed.


(** A record that is not there cannot be removed, and the caller is not told why: the
    branch for it reads the text of an answer that is an error already. *)
Lemma missing_removal e id w :
  active_tx w = None -> online (ew_server w) = true -> index_ok (toIndexName e) -> id_ok id ->
  held w !! (toIndexName e, id) = None ->
  exists err w', remove client exn_what schemas document_type_ e id w = (Err err, w') /\ code err = InternalError /\ held w' = held w.
Proof.
  intros Htx Hon Hi Hid Hnone. destruct (remove_document e id w Htx Hon Hi Hid) as (r & w' & Hr & _ & Hcase).
  destruct Hcase as [(_ & [v Hv] & _)|((err & -> & Hc) & Hd & _)]; [by rewrite Hv in Hnone|]. by exists err, w'.
Qed.

(** ** No server *)

(** The page size of a listing, and the request it sends. *)
Definition page_limit (options : ListOptions) : Z := if (0 <? opt_limit options)%Z then opt_limit options else 100.
Definition page_query (options : ListOptions) : json :=
  buildSearchQuery (text_members (opt_filter options)) (page_limit options) (opt_page options * page_limit options).

Lemma send_offline m u b (w : World) : online (ew_server w) = false -> send m u b w = ((0%Z, ""), w).
Proof. intros H. unfold send. rewrite (es_unreached _ _ _ _ H). by destruct w. Qed.

(** A server that does not answer looks like an empty one that takes every
    record: creating answers the record as if it were stored, no record is found, a
    listing is an empty page of a total of none; only a removal fails. *)
Theorem unreachable_looks_empty e id data options w :
  is_Some (schemas !! e) -> online (ew_server w) = false -> active_tx w = None ->
  printable (JObject (obj_set "id" (JString id) (obj_set "id" (JString id) data))) ->
  printable (page_query options) -> in_int (opt_page options * page_limit options) = true ->
  create client exn_what schemas document_type_ e (JObject (obj_set "id" (JString id) data)) w =
    (Ok (JObject (obj_set "id" (JString id) (obj_set "id" (JString id) data))), w) /\
  (exists err, read client exn_what schemas document_type_ e id w = (Err err, w) /\ code err = NotFound) /\
  list_entities client exn_what schemas e options w =
    (Ok (mkListResult [] 0 (opt_page options) (page_limit options)), w) /\
  (exists err, remove client exn_what schemas document_type_ e id w = (Err err, w) /\ code err = InternalError).
Proof.
  intros [schema Hs] Hoff Htx (text & Hdump & _) (qtext & Hqdump & _) Hin. split_and!.
  - unfold create, es_schema. rewrite Hs. unfold mbind at 1, Op_bind. cbn [mret Op_ret].
    rewrite (run_bind_ok _ _ _ _ _ (given_id_set id data w)). unfold of_result, mbind, Op_bind. cbn [assign_member].
    unfold es_put, with_body, dump. rewrite Hdump, (send_offline _ _ _ _ Hoff). cbn.
    by rewrite (recording_none _ _ Htx).
  - unfold read, es_schema. rewrite Hs. unfold mbind, Op_bind, mret, Op_ret, es_get. cbv beta iota.
    rewrite (send_offline _ _ _ _ Hoff). cbn. eauto.
  - unfold list_entities, es_schema, catching, list_body. rewrite Hs. unfold mbind, Op_bind, mret, Op_ret. cbv beta iota zeta.
    fold (page_limit options). rewrite Hin. unfold es_post, with_body, dump. fold (page_query options).
    by rewrite Hqdump, (send_offline _ _ _ _ Hoff).
  - unfold remove, record_before_delete, mbind, Op_bind. rewrite Htx. unfold deleteRequest.
    rewrite (send_offline _ _ _ _ Hoff). cbn. eauto.
Qed.

(** ** Filters *)

(** Finding by a filter reads a page of the whole index: the answer is the same for
    every filter, and a bulk update or removal takes the same records. *)
Lemma filter_not_used e filter filter' data :
  findFirst client exn_what schemas e filter = findFirst client exn_what schemas e filter' /\
  updateMany client exn_what schemas e filter data = updateMany client exn_what schemas e filter' data /\
  deleteMany client exn_what schemas e filter = deleteMany client exn_what schemas e filter'.
Proof. done. Qed.

(** The first page of such a listing starts after as many records as it holds:
    [findFirst] asks from the second on, the bulk operations from the 10000th. *)
Lemma first_record_skipped limit : (0 < limit)%Z ->
  page_query (unfiltered limit) = JObject (obj_set "from" (JInt limit) (obj_set "size" (JInt limit) buildMatchAllQuery)).
Proof. intros H. unfold page_query, page_limit. cbn [opt_limit opt_page opt_filter unfiltered]. replace (0 <? limit)%Z with true by lia. unfold text_members. rewrite map_items_empty. unfold buildSearchQuery. cbn [fmap list_fmap]. by rewrite Z.mul_1_l. Qed.
End Documents.

(** ** A server in memory, and the theorems on it *)

Record MemEs := mkMemEs { me_texts : gmap (string * string) string; me_up : bool }.

Definition get_reply (body : string) : string :=
  "{" +:+ (dquote +:+ ("_source" +:+ (dquote +:+ (":" +:+ (body +:+ ("," +:+ (dquote +:+ ("found" +:+ (dquote +:+ ":true}"))))))))).
Definition deleted_reply : string :=
  "{" +:+ (dquote +:+ ("result" +:+ (dquote +:+ (":" +:+ (dquote +:+ ("deleted" +:+ (dquote +:+ "}"))))))).

(** The document a stored text is read back as. *)
Definition source_of (body : string) : option json :=
  match plain_parse (get_reply body) with
  | Some (JObject m) => match obj_get "found" m with Some (JBool true) => obj_get "_source" m | _ => None end
  | _ => None
  end.
(** Whether a text is taken: an object that is read back as it is. *)
Definition takes (body : string) : bool :=
  match plain_parse body, source_of body with Some (JObject m), Some v => json_eqb v (JObject m) | _, _ => false end.

(** The index and the identifier a document URL ends in. *)
Definition url_key (url : string) : string * string :=
  match reverse (split_on "/" (before_query url)) with id :: _ :: index :: _ => (index, id) | _ => ("", "") end.

Definition mem_answer (method url body : string) (s : MemEs) : (Z * string) * MemEs :=
  let key := url_key url in
  if String.eqb method "PUT" then
    if takes body then ((201%Z, "{}"), mkMemEs (<[key := body]> (me_texts s)) (me_up s)) else ((400%Z, ""), s)
  else if String.eqb method "GET" then
    match me_texts s !! key ≫= fun body => source_of body ≫= fun _ => Some body with
    | Some body => ((200%Z, get_reply body), s)
    | None => ((404%Z, "{}"), s)
    end
  else if String.eqb method "DELETE" then
    match me_texts s !! key ≫= source_of with
    | Some _ => ((200%Z, deleted_reply), mkMemEs (delete key (me_texts s)) (me_up s))
    | None => ((404%Z, "{}"), s)
    end
  else ((200%Z, "{}"), s).

#[local] Instance mem_es : EsServer MemEs := {|
  es_send method url body s := if me_up s then mem_answer method url body s else ((0%Z, ""), s);
  es_uuid s := ("00000000-0000-4000-8000-000000000000", s);
|}.

Definition demo_client : EsClient := mkEsClient "http://es:9200" "true" true.

Lemma split_on_lacks d (a b : string) :
  find_char d a = None -> split_on d (a +:+ String d b) = a :: split_on d b.
Proof.
  induction a as [|c a IH]; intros Hf; autorewrite with dbal_str; cbn in *.
  - by rewrite Ascii.eqb_refl.
  - destruct (Ascii.eqb d c) eqn:Hc; [done|]. destruct (find_char d a); [done|]. rewrite (IH eq_refl).
    by rewrite Ascii.eqb_sym, Hc.
Qed.
Lemma split_on_whole d (a : string) : find_char d a = None -> split_on d a = [a].
Proof.
  induction a as [|c a IH]; intros Hf; cbn in *; [done|].
  destruct (Ascii.eqb d c) eqn:Hc; [done|]. destruct (find_char d a); [done|]. rewrite (IH eq_refl).
  by rewrite Ascii.eqb_sym, Hc.
Qed.

Lemma name_lacks (p : ascii -> bool) d s : p d = false -> string_forallb p s = true -> find_char d s = None.
Proof.
  intros Hd. induction s as [|c s IH]; cbn; [done|]. intros [Hc Hs]%andb_true_iff. rewrite (IH Hs).
  destruct (Ascii.eqb d c) eqn:E; [|done]. apply Ascii.eqb_eq in E. subst. congruence.
Qed.

Lemma before_query_app a b : find_char "?" a = None -> before_query (a +:+ String "?" b) = a.
Proof.
  intros H. unfold before_query. rewrite (find_char_app_ne _ _ _ H). cbn. rewrite Nat.add_0_r. apply string_take_app.
Qed.

Lemma url_key_document i id q :
  string_forallb name_char i = true -> string_forallb id_char id = true -> id <> "" ->
  q = "" \/ q = "?refresh=true" ->
  url_key ("http://es:9200" +:+ (makeDocumentPath i "_doc" id +:+ q)) = (i, id).
Proof.
  intros Hi Hid Hne Hq. apply is_empty_false in Hne. unfold makeDocumentPath. rewrite Hne.
  set (u := "http://es:9200" +:+ ("/" +:+ (i +:+ ("/" +:+ ("_doc" +:+ ("/" +:+ id)))))).
  assert (find_char "?" u = None) as Hu.
  { subst u. rewrite !find_char_app_ne by (reflexivity || by apply (name_lacks name_char)).
    by rewrite (name_lacks id_char "?" id eq_refl Hid). }
  assert (before_query ("http://es:9200" +:+ (("/" +:+ (i +:+ ("/" +:+ ("_doc" +:+ ("/" +:+ id))))) +:+ q)) = u) as Hb.
  { rewrite string_app_assoc. fold u. destruct Hq as [->| ->].
    - rewrite string_app_nil_r. unfold before_query. by rewrite Hu.
    - apply (before_query_app u "refresh=true" Hu). }
  unfold url_key. rewrite Hb. subst u.
  change (split_on "/" _) with ("http:" :: "" :: "es:9200" :: split_on "/" (i +:+ String "/" ("_doc" +:+ ("/" +:+ id)))).
  rewrite (split_on_lacks "/" i) by first [by apply (name_lacks name_char) | by apply (name_lacks id_char)].
  change (split_on "/" ("_doc" +:+ _)) with ("_doc" :: split_on "/" id).
  by rewrite (split_on_whole "/" id) by first [by apply (name_lacks name_char) | by apply (name_lacks id_char)].
Qed.

Lemma document_put_url i id :
  string_forallb name_char i = true -> string_forallb id_char id = true -> id <> "" ->
  buildUrl demo_client (makeDocumentPath i "_doc" id) true =
  "http://es:9200" +:+ (makeDocumentPath i "_doc" id +:+ "?refresh=true").
Proof.
  intros Hi Hid Hne.
  assert (find_char "?" (makeDocumentPath i "_doc" id) = None) as Hq; [|unfold buildUrl; rewrite Hq; reflexivity].
  apply is_empty_false in Hne. unfold makeDocumentPath. rewrite Hne.
  rewrite !find_char_app_ne by (reflexivity || by apply (name_lacks name_char)). by rewrite (name_lacks id_char "?" id eq_refl Hid).
Qed.

Lemma source_of_reply body v : source_of body = Some v ->
  exists m, plain_parse (get_reply body) = Some (JObject m) /\ obj_get "found" m = Some (JBool true) /\ obj_get "_source" m = Some v.
Proof.
  unfold source_of. intros H. destruct (plain_parse _) as [[| | | | | |m]|]; try discriminate H.
  exists m. destruct (obj_get "found" m) as [[|[]| | | | |]|]; try discriminate H. done.
Qed.

(** The three answers, by the key of the URL. *)
Lemma mem_get i id s :
  mem_answer "GET" ("http://es:9200" +:+ makeDocumentPath i "_doc" id) "" s =
  match me_texts s !! url_key ("http://es:9200" +:+ makeDocumentPath i "_doc" id) ≫= fun body => source_of body ≫= fun _ => Some body with
  | Some body => ((200%Z, get_reply body), s)
  | None => ((404%Z, "{}"), s)
  end.
Proof. reflexivity. Qed.

Lemma url_key_get i id :
  string_forallb name_char i = true -> string_forallb id_char id = true -> id <> "" ->
  url_key ("http://es:9200" +:+ makeDocumentPath i "_doc" id) = (i, id).
Proof.
  intros Hi Hid Hne. rewrite <- (url_key_document i id "" Hi Hid Hne (or_introl eq_refl)).
  by rewrite string_app_nil_r.
Qed.

#[local] Program Instance mem_es_documents : EsDocuments MemEs (jl := plain_json) demo_client "_doc" :=
  {| docs s := omap source_of (me_texts s); online := me_up |}.
Next Obligation. intros m u b s Hoff. cbn in *. by rewrite Hoff. Qed.
Next Obligation. done. Qed.
Next Obligation.
  intros i id s Hon (_ & Hi & _) (Hne & Hid & _). unfold es_send, mem_es. rewrite Hon.
  change (base_url_ demo_client) with "http://es:9200".
  rewrite mem_get, (url_key_get i id Hi Hid Hne), lookup_omap. unfold mbind, option_bind.
  destruct (me_texts s !! (i, id)) as [body|]; [|by eexists _, _, _].
  destruct (source_of body) as [v|] eqn:Hsrc; [|by eexists _, _, _].
  eexists _, _, s. do 3 (split; [done|]). split; [lia|]. by apply source_of_reply.
Qed.
Next Obligation.
  intros i id body m s Hon (_ & Hi & _) (Hne & Hid & _) Hp. rewrite (document_put_url i id Hi Hid Hne).
  unfold es_send, mem_es. rewrite Hon. unfold mem_answer. rewrite (url_key_document i id _ Hi Hid Hne) by eauto.
  cbn [String.eqb Ascii.eqb Bool.eqb]. change (plain_parse body = Some (JObject m)) in Hp.
  unfold takes. rewrite Hp. destruct (source_of body) as [v|] eqn:Hsrc; [|eexists _, _, s; split_and!; [done..|right; by split]].
  destruct (json_eqb v (JObject m)) eqn:Heq; [|eexists _, _, s; split_and!; [done..|right; by split]].
  apply json_eqb_sound in Heq. subst. eexists _, _, _. split; [reflexivity|]. split; [done|]. left. split; [lia|].
  split; [|exists (JObject []); reflexivity]. cbn [me_texts]. erewrite omap_insert_Some; eauto.
Qed.
Next Obligation.
  intros i id s Hon (_ & Hi & _) (Hne & Hid & _). rewrite (document_put_url i id Hi Hid Hne).
  unfold es_send, mem_es. rewrite Hon. unfold mem_answer. rewrite (url_key_document i id _ Hi Hid Hne) by eauto.
  cbn [String.eqb Ascii.eqb Bool.eqb]. rewrite lookup_omap. unfold mbind, option_bind.
  destruct (me_texts s !! (i, id)) as [body|]; [|by eexists _, _, _].
  destruct (source_of body) as [v|] eqn:Hsrc; [|by eexists _, _, _].
  eexists _, _, _. split; [reflexivity|]. split; [done|]. left. split; [lia|]. split; [cbn [me_texts]; by rewrite omap_delete|].
  eexists. split; [by vm_compute|done].
Qed.
Next Obligation. done. Qed.

Definition es_schemas : gmap string EntitySchema := {["User" := mkSchema "User" "" [] [] ∅ [] (mkQueryConfig [] [] [] 100 1000)]}.
Definition es_up : EsWorld MemEs := mkEsWorld (mkMemEs ∅ true) None.
Definition es_down : EsWorld MemEs := mkEsWorld (mkMemEs ∅ false) None.
Definition es_what (_ : Exn) : string := "".
Definition ada_doc : members := [("name", JString "ada")].
Definition ada_stored : json := JObject [("id", JString "1"); ("name", JString "ada")].
Definition ten_of_page_1 : ListOptions := mkListOptions ∅ ∅ 1 10.

#[local] Existing Instance plain_json.

Lemma user_index_ok : index_ok (toIndexName "User").
Proof. split_and!; [by exists "u"%char, "ser"|done|cbn; lia]. Qed.
Lemma id_1_ok : id_ok "1".
Proof. split_and!; [done..|cbn; lia]. Qed.

(** Printing and reading back, evaluated. *)
Lemma printable_run v : (plain_print v ≫= plain_parse) = Some v -> printable v.
Proof.
  intros H. unfold printable. cbn [dump_text parse plain_json]. destruct (plain_print v) as [text|]; [|discriminate H]. by exists text.
Qed.


Lemma unreachable_looks_empty_witness :
  (create demo_client es_what es_schemas "_doc" "User" (JObject (obj_set "id" (JString "1") ada_doc)) es_down).1 = Ok ada_stored /\
  (list_entities demo_client es_what es_schemas "User" ten_of_page_1 es_down).1 = Ok (mkListResult [] 0 1 10).
Proof.
  destruct (unreachable_looks_empty demo_client es_what es_schemas "_doc" "User" "1" ada_doc ten_of_page_1 es_down)
    as (Hc & _ & Hl & _).
  - by eexists.
  - done.
  - done.
  - apply printable_run. vm_compute. reflexivity.
  - unfold page_query, text_members. change (opt_filter ten_of_page_1) with (∅ : gmap string string).
    rewrite map_items_empty. apply printable_run. vm_compute. reflexivity.
  - done.
  - split; [by rewrite Hc|by rewrite Hl].
Defined.
