(* ===== verification/Searching.v ===== *)
(** * The full-text search decorator

    Models src/search: the configuration URL (search_config.cpp) and the adapter
    that mirrors every record it writes into an Elasticsearch index and answers
    searches from there (searching_adapter.cpp).  The wrapped adapter is the class
    of Adapter.v, the HTTP client and the server are those of Elastic.v. *)

From S2P Require Import Prelude CxxString CxxStd Store Json PlainJson EntityHost Adapter CompensatingTransaction RedisAdapter Elastic ElasticStore.

Open Scope string_scope.

(** ** Configuration (search_config.cpp) *)

Record SearchConfig := mkSearchConfig {
  sc_enabled : bool; sc_base_url : string; sc_index : string; sc_refresh : string; sc_error : string;
}.

(** [forEachQueryParam]: the pairs with an equals sign, in their order. *)
Definition query_pairs (query : string) : list (string * string) :=
  omap (fun pair => eq ← find_char "=" pair; Some (string_take eq pair, string_drop (S eq) pair)) (split_on "&" query).

Definition index_char (c : ascii) : bool :=
  is_lower c || is_digit c || Ascii.eqb c "_" || Ascii.eqb c "-" || Ascii.eqb c ".".
Definition isValidIndexName (name : string) : bool :=
  match name with
  | EmptyString => false
  | String c _ =>
      if (255 <? size name)%Z then false
      else if Ascii.eqb c "_" || Ascii.eqb c "-" || Ascii.eqb c "+" || Ascii.eqb c "." then false
      else string_forallb index_char name
  end.

(** [while (base_url.size() > 8 && base_url.back() == '/') pop_back()] *)
Fixpoint drop_slashes (fuel : nat) (s : string) : string :=
  match fuel with
  | 0 => s
  | S fuel =>
      if (8 <? size s)%Z && String.eqb (string_drop (Nat.pred (String.length s)) s) "/"
      then drop_slashes fuel (string_take (Nat.pred (String.length s)) s)
      else s
  end.

Definition set_index (i : string) (c : SearchConfig) : SearchConfig :=
  mkSearchConfig (sc_enabled c) (sc_base_url c) i (sc_refresh c) (sc_error c).
Definition set_refresh (r : string) (c : SearchConfig) : SearchConfig :=
  mkSearchConfig (sc_enabled c) (sc_base_url c) (sc_index c) r (sc_error c).
Definition search_refused (why : string) (c : SearchConfig) : SearchConfig :=
  mkSearchConfig (sc_enabled c) (sc_base_url c) (sc_index c) (sc_refresh c) why.

(** One pair: the configuration and whether it is bad. *)
Definition config_param (cb : SearchConfig * bool) (kv : string * string) : SearchConfig * bool :=
  let '(c, bad) := cb in
  if bad then cb
  else if String.eqb kv.1 "index" then
    if negb (isValidIndexName kv.2) then
      (search_refused ("DBAL_SEARCH_URL index '" +:+ (kv.2 +:+ "' is not a valid Elasticsearch index name (lowercase letters, digits, '_', '-', '.'; not starting with _ - + .)")) c, true)
    else (set_index kv.2 c, false)
  else if String.eqb kv.1 "refresh" then
    if String.eqb kv.2 "true" || String.eqb kv.2 "false" || String.eqb kv.2 "wait_for" then (set_refresh kv.2 c, false)
    else (search_refused ("DBAL_SEARCH_URL refresh must be true, false or wait_for (got: " +:+ (kv.2 +:+ ")")) c, true)
  else (c, false).

Definition no_search : SearchConfig := mkSearchConfig false "" "dbal_search" "false" "".
Definition parseSearchUrl (url : string) : SearchConfig :=
  if is_empty url then no_search
  else if negb (String.prefix "http://" url) && negb (String.prefix "https://" url) then
    search_refused ("DBAL_SEARCH_URL must begin with http:// or https:// (got: " +:+ (url +:+ ")")) no_search
  else
    let base := before_query url in
    let base_url := drop_slashes (String.length base) base in
    let '(c, bad) := foldl config_param (mkSearchConfig false base_url "dbal_search" "false" "", false) (query_pairs (after_query url)) in
    if bad then mkSearchConfig (sc_enabled c) "" (sc_index c) (sc_refresh c) (sc_error c)
    else mkSearchConfig true (sc_base_url c) (sc_index c) (sc_refresh c) (sc_error c).

(** ** The decorator (searching_adapter.cpp) *)

Definition idFromRecord (record : json) : string :=
  match member record "id" with
  | Some (JString s) => s
  | Some (JInt n) => to_string n
  | _ => ""
  end.
Definition documentId (entityName id : string) : string := entityName +:+ (":" +:+ id).

Section Searching.
Context {W E : Type} `{!Adapter W} `{!EsServer E} {jl : JsonLib} (client : EsClient) (exn_what : Exn -> string) (index_ : string).
Abbreviation State := (W * EsWorld E)%type.

Definition inner {A} (m : Op W A) : Op State A := fun '(w, e) => let '(r, w') := m w in (r, (w', e)).
Definition indexed {A} (m : Op (EsWorld E) A) : Op State A := fun '(w, e) => let '(r, e') := m e in (r, (w, e')).
(** What is logged and dropped: an error, an exception. *)
Definition quietly {A} (m : Op (EsWorld E) A) : Op State unit := fun '(w, e) =>
  match m e with (Undef, e') => (Undef, (w, e')) | (_, e') => (Ok tt, (w, e')) end.

Definition mirror_path (entityName id : string) : string :=
  "/" +:+ (index_ +:+ ("/_doc/" +:+ documentId entityName id)).

Definition mirrorRecord (entityName : string) (record : json) : Op State unit :=
  quietly (
    let id := idFromRecord record in
    if is_empty id then mret (JObject [])
    else
      doc ← of_result (assign_member record "_entity" (JString entityName));
      es_put client exn_what (mirror_path entityName id) doc true).
Definition mirrorDelete (entityName id : string) : Op State unit :=
  quietly (deleteRequest client exn_what (mirror_path entityName id) true).

(** A delegated write, mirrored when it succeeded. *)
Definition write_then {A} (m : Op W A) (mirror : A -> Op State unit) : Op State A :=
  result ← inner m; mirror result;; mret result.

Definition create (entityName : string) (data : json) : Op State json :=
  write_then (do_create entityName data) (mirrorRecord entityName).
Definition update (entityName id : string) (data : json) : Op State json :=
  write_then (do_update entityName id data) (mirrorRecord entityName).
Definition remove (entityName id : string) : Op State bool :=
  write_then (do_remove entityName id) (fun _ => mirrorDelete entityName id).
Definition upsert (entityName uniqueField : string) (uniqueValue createData updateData : json) : Op State json :=
  write_then (do_upsert entityName uniqueField uniqueValue createData updateData) (mirrorRecord entityName).

(** ** Searching *)

Definition search_limit (limit : Z) : Z :=
  let limit := if (limit <=? 0)%Z then 20%Z else limit in if (1000 <? limit)%Z then 1000%Z else limit.
Definition search_body (entityName query : string) (limit : Z) : json :=
  object [
    ("size", JInt limit);
    ("query", object [
      ("bool", object [
        ("filter", JArray [object [("term", object [("_entity.keyword", JString entityName)])]]);
        ("must", JArray [object [("multi_match", object [
          ("query", JString query); ("type", JString "phrase_prefix"); ("lenient", JBool true)])]])])])].

(** [record.erase("_entity")] *)
Definition without_entity (record : json) : Result json :=
  match record with
  | JObject m => Ok (JObject (List.filter (fun kv => negb (String.eqb kv.1 "_entity")) m))
  | _ => Throw (json_error 307)
  end.
Fixpoint found_records (hits : list json) : Result (list json) :=
  match hits with
  | [] => Ok []
  | hit :: hits =>
      match member hit "_source" with
      | None => found_records hits
      | Some source => record ← without_entity source; rest ← found_records hits; Ok (record :: rest)
      end
  end.
Definition found_total (hits : json) : Z :=
  match (total ← member hits "total"; member total "value") with Some (JInt n) => wrap_int n | _ => 0%Z end.
Definition read_hits (response : json) (limit : Z) : Result ListResult :=
  match member response "hits" with
  | None => Ok (mkListResult [] 0 0 0)
  | Some hits =>
      items ← match member hits "hits" with Some (JArray l) => found_records l | _ => Ok [] end;
      Ok (mkListResult items (found_total hits) 0 limit)
  end.
Definition search (entityName query : string) (limit : Z) : Op State ListResult :=
  let limit := search_limit limit in
  response ← indexed (es_post client exn_what ("/" +:+ (index_ +:+ "/_search")) (search_body entityName query limit) false);
  of_result (read_hits response limit).

#[export] Instance SearchingAdapter : Adapter State := {|
  do_create := create; do_read entityName id := inner (do_read entityName id);
  do_readIncludingSensitive entityName id := inner (do_readIncludingSensitive entityName id);
  do_search := search; do_update := update; do_remove := remove;
  do_list entityName options := inner (do_list entityName options);
  do_createMany entityName records := inner (do_createMany entityName records);
  do_updateMany entityName filter data := inner (do_updateMany entityName filter data);
  do_deleteMany entityName filter := inner (do_deleteMany entityName filter);
  do_findFirst entityName filter := inner (do_findFirst entityName filter);
  do_findByField entityName field value := inner (do_findByField entityName field value);
  do_upsert := upsert; do_getAvailableEntities := inner do_getAvailableEntities;
  do_getEntitySchema entityName := inner (do_getEntitySchema entityName); do_close := inner do_close;
  supportsNativeTransactions := supportsNativeTransactions (W := W);
  do_beginTransaction := inner do_beginTransaction; do_commitTransaction := inner do_commitTransaction;
  do_rollbackTransaction := inner do_rollbackTransaction;
|}.
End Searching.

(** ** The wrapped adapter stays in charge *)

Section Decorator.
Context {W E : Type} `{!Adapter W} `{!EsServer E} {jl : JsonLib} (client : EsClient) (exn_what : Exn -> string) (index_ : string).
Abbreviation State := (W * EsWorld E)%type.
Abbreviation decorated := (SearchingAdapter (W := W) (E := E) client exn_what index_).

(** A call that answers as the wrapped adapter's and changes it in the same way. *)
Definition delegates {A} (m : Op State A) (n : Op W A) : Prop :=
  forall w e, (m (w, e)).1 = (n w).1 /\ (m (w, e)).2.1 = (n w).2.

Lemma delegates_inner {A} (n : Op W A) : delegates (inner n) n.
Proof. intros w e. unfold inner. by destruct (n w). Qed.

(** What mirrors runs to its end, whatever the index does. *)
Definition quiet (m : Op State unit) : Prop := forall w e, exists e', m (w, e) = (Ok tt, (w, e')).

Lemma delegates_write {A} (n : Op W A) mirror : (forall a, quiet (mirror a)) -> delegates (write_then n mirror) n.
Proof.
  intros Hq w e. unfold write_then, mbind, Op_bind, inner. destruct (n w) as [[a|err|x|] w']; try done.
  by destruct (Hq a w' e) as [e' ->].
Qed.

Lemma caught_defined {A} p (r : Result A) : r <> Undef -> caught exn_what p r <> Undef.
Proof. by destruct r. Qed.
Lemma answer_defined status text : answer_json status text <> Undef.
Proof. unfold answer_json, parsed. by repeat case_match. Qed.

Lemma quiet_quietly {A} (m : Op (EsWorld E) A) : (forall e, (m e).1 <> Undef) -> quiet (quietly (W := W) m).
Proof. intros H w e. specialize (H e). unfold quietly. destruct (m e) as [[]]; [eauto..|done]. Qed.

Lemma quiet_record e v : quiet (mirrorRecord (W := W) (E := E) client exn_what index_ e v).
Proof.
  apply quiet_quietly. intros w. cbv zeta. destruct (is_empty (idFromRecord v)); [done|]. unfold of_result, mbind, Op_bind.
  destruct (assign_member v _ _) as [doc|err|x|] eqn:Ha; try done.
  - unfold es_put, with_body, dump. destruct (dump_text doc); [|done]. unfold send.
    destruct (es_send _ _ _ _) as [[status answer] srv]. apply caught_defined, answer_defined.
  - by destruct v.
Qed.
Lemma quiet_delete e id : quiet (mirrorDelete (W := W) (E := E) client exn_what index_ e id).
Proof.
  apply quiet_quietly. intros w. unfold deleteRequest, send. destruct (es_send _ _ _ _) as [[status answer] srv].
  apply caught_defined, answer_defined.
Qed.

Definition is_search {A} (c : db_call A) : bool := match c with DbSearchRows _ _ _ => true | _ => false end.

(** The decorator cannot be told from the adapter it wraps, but by a search:
    whatever the index answers or fails to, a call has the wrapped adapter's answer
    and leaves its state as the adapter alone would. *)
Theorem search_decorator_transparent :
  (forall A (c : db_call A), is_search c = false ->
     delegates (issue_call (ad := decorated) c) (issue_call c)) /\
  (forall e id, delegates (do_read (Adapter := decorated) e id) (do_read e id)) /\
  delegates (do_rollbackTransaction (Adapter := decorated)) do_rollbackTransaction.
Proof.
  split_and!; [|intros e id; apply delegates_inner|apply delegates_inner].
  intros A c Hc. destruct c; try apply delegates_inner; try (apply delegates_write; auto using quiet_record, quiet_delete).
  done.
Qed.

(** ** Bounds of a search *)

Lemma search_limit_bounds limit : (1 <= search_limit limit <= 1000)%Z.
Proof. unfold search_limit. destruct (Z.leb_spec limit 0); cbv zeta; case_match; lia. Qed.
End Decorator.

(** ** The index follows the records *)

Section Mirror.
Context {W E : Type} `{!Adapter W} `{!EsServer E} {jl : JsonLib} (client : EsClient) (exn_what : Exn -> string)
  (index_ : string) `{!EsDocuments E client "_doc"}.
Abbreviation State := (W * EsWorld E)%type.
Abbreviation decorated := (SearchingAdapter (W := W) (E := E) client exn_what index_).
Abbreviation indexed_docs := (held client "_doc").

(** The document of a record. *)
Definition mirrored (e : string) (m : members) : json := JObject (obj_set "_entity" (JString e) m).

(** The calls that write one record. *)
Inductive record_write :=
  | Creating (data : json)
  | Updating (id : string) (data : json)
  | Upserting (field : string) (value createData updateData : json).
Definition as_call (e : string) (k : record_write) : db_call json :=
  match k with
  | Creating data => DbCreate e data
  | Updating id data => DbUpdate e id data
  | Upserting f v cd ud => DbUpsert e f v cd ud
  end.

Lemma mirror_path_document e id : documentId e id <> "" ->
  mirror_path index_ e id = makeDocumentPath index_ "_doc" (documentId e id).
Proof. intros H. apply is_empty_false in H. unfold mirror_path, makeDocumentPath. by rewrite H. Qed.

Lemma write_then_run {A} (n : Op W A) mirror (w : W) (s : EsWorld E) a w' s' :
  n w = (Ok a, w') -> mirror a (w', s) = (Ok tt, (w', s')) -> write_then n mirror (w, s) = (Ok a, (w', s')).
Proof. intros Hn Hm. unfold write_then, mbind, Op_bind, inner. by rewrite Hn, Hm. Qed.

(** The index follows the records: when the wrapped adapter creates, updates or
    upserts a record with an identifier, the reachable server holds, under the
    entity and that identifier, exactly the answered record with its entity's name,
    and no other document has changed, unless the server refused the document. *)
Theorem write_mirrored (k : record_write) e w s m w' :
  issue_call (as_call e k) w = (Ok (JObject m), w') ->
  let id := documentId e (idFromRecord (JObject m)) in
  idFromRecord (JObject m) <> "" -> index_ok index_ -> id_ok id -> online (ew_server s) = true ->
  printable (mirrored e m) ->
  exists s', issue_call (ad := decorated) (as_call e k) (w, s) = (Ok (JObject m), (w', s')) /\
    (indexed_docs s' = <[(index_, id) := mirrored e m]> (indexed_docs s) \/
     indexed_docs s' = indexed_docs s /\ refuses client "_doc" index_ id (mirrored e m) s).
Proof.
  intros Hrun id Hne Hi Hid Hon Hpr.
  assert (exists s', mirrorRecord (W := W) client exn_what index_ e (JObject m) (w', s) = (Ok tt, (w', s')) /\
    (indexed_docs s' = <[(index_, id) := mirrored e m]> (indexed_docs s) \/
     indexed_docs s' = indexed_docs s /\ refuses client "_doc" index_ id (mirrored e m) s)) as (s' & Hm & Hcase).
  { destruct (put_document client exn_what "_doc" index_ id (mirrored e m) s eq_refl Hpr Hon Hi Hid) as (r & s' & Hput & _ & _ & Hcase).
    exists s'. unfold mirrorRecord, quietly. cbv zeta. apply is_empty_false in Hne. rewrite Hne.
    unfold of_result, mbind, Op_bind. cbn [assign_member]. fold (mirrored e m).
    rewrite mirror_path_document by apply Hid. fold id. rewrite Hput.
    destruct Hcase as [([x ->] & Hd)|((err & -> & _) & Hd & Href)]; eauto. }
  exists s'. split; [|done].
  destruct k; cbn in Hrun |- *; by eapply write_then_run.
Qed.

(** A search asks the index and nothing else. *)
Lemma search_keeps_rows e q n w s : (search (W := W) client exn_what index_ e q n (w, s)).2.1 = w.
Proof.
  unfold search, mbind, Op_bind, indexed. destruct (es_post _ _ _ _ _ s) as [[v|err|x|] s']; done.
Qed.

(** An index that cannot be reached answers that nothing was found. *)
Lemma search_unreachable_empty e q n w s :
  online (ew_server s) = false -> printable (search_body e q (search_limit n)) ->
  search (W := W) client exn_what index_ e q n (w, s) = (Ok (mkListResult [] 0 0 0), (w, s)).
Proof.
  intros Hoff (text & Hdump & _). unfold search, mbind, Op_bind, indexed, es_post, with_body, dump. rewrite Hdump.
  rewrite (send_offline client "_doc" _ _ _ _ Hoff). done.
Qed.
End Mirror.

(** ** The configuration *)

Definition good_params (c : SearchConfig) : Prop :=
  isValidIndexName (sc_index c) = true /\ sc_refresh c ∈ ["true"; "false"; "wait_for"].

Lemma config_param_good c kv : good_params c -> (config_param (c, false) kv).2 = false -> good_params (config_param (c, false) kv).1.
Proof.
  intros [Hi Hr] Hb. unfold config_param in *. repeat case_match; cbn in *; try done; split; try done.
  - cbn. by apply negb_false_iff in H0.
  - cbn. repeat match goal with H : _ || _ = true |- _ => apply orb_true_iff in H as [H|H] end;
      apply String.eqb_eq in H1 as ->; set_solver.
Qed.

Lemma config_params_good l c : good_params c ->
  let '(c', bad) := foldl config_param (c, false) l in bad = false -> good_params c' /\ sc_base_url c' = sc_base_url c.
Proof.
  revert c. induction l as [|kv l IH]; intros c Hc; [done|]. cbn [foldl].
  assert (sc_base_url (config_param (c, false) kv).1 = sc_base_url c) as Hu
    by (unfold config_param; repeat case_match; done).
  destruct (config_param (c, false) kv) as [c1 []] eqn:H1.
  - enough (forall l, (foldl config_param (c1, true) l) = (c1, true)) as -> by done.
    clear. intros l. by induction l.
  - pose proof (config_param_good c kv Hc) as Hg. rewrite H1 in Hg. specialize (IH c1 (Hg eq_refl)).
    destruct (foldl config_param (c1, false) l) as [c2 bad]. intros Hb. destruct (IH Hb) as [Hg2 Hu2]. cbn in Hu. by rewrite Hu2.
Qed.

Lemma config_params_enabled l cb : sc_enabled (foldl config_param cb l).1 = sc_enabled cb.1.
Proof.
  revert cb. induction l as [|kv l IH]; intros cb; [done|]. cbn [foldl]. rewrite IH.
  destruct cb as [c b]. unfold config_param. repeat case_match; done.
Qed.

Lemma find_char_prefix c n s : find_char c s = None -> find_char c (string_take n s) = None.
Proof.
  revert n. induction s as [|a s IH]; intros [|n]; cbn; try done. destruct (Ascii.eqb c a); [done|].
  destruct (find_char c s); [done|]. intros _. by rewrite IH.
Qed.
Lemma drop_slashes_lacks c n s : find_char c s = None -> find_char c (drop_slashes n s) = None.
Proof. revert s. induction n as [|n IH]; intros s H; cbn; [done|]. case_match; [|done]. by apply IH, find_char_prefix. Qed.
Lemma before_query_lacks url : find_char "?" (before_query url) = None.
Proof.
  unfold before_query. destruct (find_char "?" url) as [q|] eqn:Hq; [|done].
  by destruct (find_char_Some _ _ _ Hq).
Qed.

(** A search URL that is accepted is safe to build requests from: the index is
    a name of lower-case letters, digits, dots, dashes and underscores, the refresh
    policy is one of three, the base URL holds no query, and no error is reported;
    one that is refused leaves search off. *)
Theorem search_url_checked url :
  let c := parseSearchUrl url in
  if sc_enabled c then
    good_params c /\ find_char "?" (sc_base_url c) = None /\
    (String.prefix "http://" url = true \/ String.prefix "https://" url = true)
  else sc_base_url c = "".
Proof.
  cbv zeta. unfold parseSearchUrl. destruct (is_empty url); [done|].
  destruct (String.prefix "http://" url) eqn:Hh, (String.prefix "https://" url) eqn:Hs; cbn [negb andb]; try done.
  all: match goal with |- context [foldl config_param (?c0, false) ?l] =>
      pose proof (config_params_good l c0 (conj eq_refl (list_elem_of_further _ _ _ (list_elem_of_here _ _)))) as Hp;
      pose proof (config_params_enabled l (c0, false)) as Hen;
      destruct (foldl config_param (c0, false) l) as [c []] end; cbn in Hen |- *; [by rewrite Hen|].
  all: destruct (Hp eq_refl) as [Hg Hu]; cbn in Hu; (split; [done|]); rewrite Hu; (split; [|by auto]);
    apply drop_slashes_lacks, before_query_lacks.
Qed.

(** ** On a concrete database and server *)

#[local] Existing Instance plain_json.
#[local] Existing Instance mem_es.
#[local] Existing Instance mem_es_documents.

Definition one_user : DemoDb := mkDemoDb {[("User", "1") := ada_stored]} None.
Definition new_name : json := JObject [("id", JString "1"); ("name", JString "bob")].
Definition renamed : record_write := Updating "1" new_name.

Lemma search_decorator_transparent_witness :
  (issue_call (ad := SearchingAdapter demo_client es_what "records") (DbUpdate "User" "1" new_name) (one_user, es_down)).1 = Ok new_name.
Proof.
  destruct (search_decorator_transparent (W := DemoDb) demo_client es_what "records") as (H & _ & _).
  destruct (H _ (DbUpdate "User" "1" new_name) eq_refl one_user es_down) as [Hr _]. rewrite Hr. reflexivity.
Defined.

Lemma write_mirrored_witness : exists s',
  (issue_call (ad := SearchingAdapter demo_client es_what "records") (DbUpdate "User" "1" new_name) (one_user, es_up)).2.2 = s' /\
  held demo_client "_doc" s' !! ("records", "User:1") =
    Some (JObject [("_entity", JString "User"); ("id", JString "1"); ("name", JString "bob")]).
Proof.
  destruct (write_mirrored (W := DemoDb) demo_client es_what "records" renamed "User" one_user es_up
    [("id", JString "1"); ("name", JString "bob")] (do_update "User" "1" new_name one_user).2) as (s' & Hrun & Hcase).
  - reflexivity.
  - done.
  - split_and!; [by exists "r"%char, "ecords"|done|cbn; lia].
  - split_and!; [done|done|by apply Nat.leb_le].
  - done.
  - apply printable_run. vm_compute. reflexivity.
  - exists s'. split; [exact (f_equal (fun x => x.2.2) Hrun)|]. destruct Hcase as [Hd|[_ (body & status & text & Hb & Hst & Hs)]].
    + rewrite Hd. reflexivity.
    + exfalso. vm_compute in Hb. injection Hb as <-. vm_compute in Hs. injection Hs as <- _. lia.
Defined.

(** A record's own member of the name the mirror uses is replaced in the index, and
    missing from what a search answers. *)
Example own_entity_lost :
  without_entity (mirrored "User" [("_entity", JString "mine")]) = Ok (JObject []).
Proof. reflexivity. Qed.

(** Two records share a document when an entity's name holds the separator. *)
Example document_ids_clash : documentId "a:b" "c" = documentId "a" "b:c".
Proof. reflexivity. Qed.
