(* ===== verification/HttpParser.v ===== *)
(** * The socket HTTP server

    Models the two versions of the daemon's own HTTP server that read requests from
    a socket: src/daemon/http (request_parser.hpp, request_handler.hpp,
    http_types.hpp, server/http_server.hpp) and src/daemon/server (parsing,
    validation_internal, handlers, response, lifecycle).  They share the loop over
    the received text and differ in the checks of the request line and the path, so
    the checks are a record with an instance for each.

    A connection is the list of the texts its [recv] calls deliver; an empty one, and
    what follows the last, is a [recv] that answers 0 or an error. *)

From S2P Require Import Prelude CxxString CxxStd Store Json PlainJson.

Open Scope string_scope.

(** ** Limits (security_limits.hpp, socket_types.hpp) *)

Definition MAX_REQUEST_SIZE : Z := 65536.
Definition MAX_HEADERS : Z := 100.
Definition MAX_HEADER_SIZE : Z := 8192.
Definition MAX_PATH_LENGTH : Z := 2048.
Definition MAX_BODY_SIZE : Z := 10485760.
Definition MAX_CONCURRENT_CONNECTIONS : Z := 1000.
Definition RECV_SIZE : Z := 8192.   (* char buffer[8192] *)

(** ** Requests and responses (http_types.hpp) *)

Record RawRequest := mkRaw {
  rq_method : string; rq_path : string; rq_version : string;
  rq_headers : gmap string string; rq_body : string;
}.
#[export] Instance RawRequest_eq_dec : EqDecision RawRequest.
Proof. solve_decision. Defined.

Record RawResponse := mkResponse {
  rs_status_code : Z; rs_status_text : string; rs_headers : gmap string string; rs_body : string;
}.

Definition first_of_list (s : string) : string :=
  match find_char "," s with Some comma => string_take comma s | None => s end.
Definition realIP (request : RawRequest) : string :=
  match rq_headers request !! "X-Real-IP" with
  | Some ip => ip
  | None => match rq_headers request !! "X-Forwarded-For" with Some l => first_of_list l | None => "" end
  end.
Definition forwardedProto (request : RawRequest) : string := default "http" (rq_headers request !! "X-Forwarded-Proto").

Definition default_headers : gmap string string := {["Content-Type" := "application/json"; "Server" := "DBAL/1.2.1"]}.
Definition response_of (code : Z) (text body : string) : RawResponse := mkResponse code text default_headers body.
(** [{"key":"value"}] *)
Definition json_text (key value : string) : string :=
  "{" +:+ (dquote +:+ (key +:+ (dquote +:+ (":" +:+ (dquote +:+ (value +:+ (dquote +:+ "}"))))))).
Definition response_error (code : Z) (text message : string) : RawResponse := response_of code text (json_text "error" message).

Definition CRLF : string := String "013" (String "010" "").
Fixpoint header_lines (l : list (string * string)) : string :=
  match l with [] => "" | (k, v) :: l => k +:+ (": " +:+ (v +:+ (CRLF +:+ header_lines l))) end.
Definition serialize (r : RawResponse) : string :=
  "HTTP/1.1 " +:+ (to_string (rs_status_code r) +:+ (" " +:+ (rs_status_text r +:+ (CRLF +:+
    ((if has_key (rs_headers r) "Content-Length" then "" else "Content-Length: " +:+ (to_string (size (rs_body r)) +:+ CRLF)) +:+
     (header_lines (map_items (rs_headers r)) +:+ (CRLF +:+ rs_body r))))))).

(** ** Texts *)

(** The text before the first CRLF and the text after it. *)
Fixpoint cut_line (s : string) : option (string * string) :=
  match s with
  | EmptyString => None
  | String c s' =>
      match c, s' with
      | "013"%char, String "010" rest => Some ("", rest)
      | _, _ => '(line, rest) ← cut_line s'; Some (String c line, rest)
      end
  end.

(** [stream >> word]: the next word, and the rest. *)
Fixpoint take_word (s : string) : string * string :=
  match s with
  | EmptyString => ("", "")
  | String c s' => if is_space c then ("", s) else let '(w, r) := take_word s' in (String c w, r)
  end.
Definition next_word (s : string) : string * string := take_word (skip_space s).

Fixpoint trim_left (s : string) : string :=
  match s with String " " s' => trim_left s' | _ => s end.
Fixpoint trim_right (s : string) : string :=
  match s with
  | EmptyString => ""
  | String c s' => match trim_right s' with
                   | EmptyString => if Ascii.eqb c " " then "" else String c ""
                   | t => String c t
                   end
  end.
Definition trim_string (s : string) : string := trim_right (trim_left s).

(** [std::stoull]: a minus sign is taken modulo 2^64, what follows the digits is left. *)
Definition ULLONG_MAX : Z := 2 ^ 64 - 1.
Definition stoull (s : string) : Result Z :=
  let s := skip_space s in
  let '(neg, s) := match s with String "-" s' => (true, s') | String "+" s' => (false, s') | _ => (false, s) end in
  let digits := take_digits s in
  if is_empty digits then Throw invalid_argument
  else let n := Z.of_N (dec_val digits 0) in
       if (ULLONG_MAX <? n)%Z then Throw out_of_range
       else Ok (if neg then (- n) mod 2 ^ 64 else n)%Z.

(** ** The checks that differ *)

Record Checks := mkChecks {
  check_line : RawRequest -> option RawResponse;
  check_path : string -> option RawResponse;
  cl_invalid : string; cl_out_of_range : string;   (* messages for a Content-Length *)
}.

Definition bad_request : string -> RawResponse := response_error 400 "Bad Request".
Definition check_words (r : RawRequest) : option RawResponse :=
  if is_empty (rq_method r) || is_empty (rq_path r) || is_empty (rq_version r)
  then Some (bad_request "Invalid request line") else None.
Definition check_path_size (path : string) : option RawResponse :=
  if contains path (String "000" "") then Some (bad_request "Null byte in path")
  else if (MAX_PATH_LENGTH <? size path)%Z then Some (response_error 414 "URI Too Long" "Path too long")
  else None.

(** request_parser.hpp *)
Definition http_checks : Checks :=
  mkChecks check_words check_path_size "Invalid Content-Length" "Content-Length out of range".

(** parse_request_line.hpp, validate_request_path.hpp *)
Definition isValidHttpMethod (method : string) : bool :=
  existsb (String.eqb method) ["GET"; "POST"; "PUT"; "DELETE"; "PATCH"; "HEAD"; "OPTIONS"].
Definition parse_request_line (r : RawRequest) : option RawResponse :=
  match check_words r with
  | Some e => Some e
  | None => if isValidHttpMethod (rq_method r) then None
            else Some (response_error 405 "Method Not Allowed" "HTTP method not allowed")
  end.
Definition traversal_patterns : list string := ["..%2f"; "..%5c"; "%2e."; ".%2e"].
Definition validate_request_path (path : string) : option RawResponse :=
  match check_path_size path with
  | Some e => Some e
  | None =>
      if contains path ".." then Some (bad_request "Path traversal detected")
      else
        let lowerPath := to_lower path in
        if contains lowerPath "%2e%2e" then Some (bad_request "Encoded path traversal detected")
        else if existsb (contains lowerPath) traversal_patterns then Some (bad_request "Encoded path traversal detected")
        else if contains lowerPath "%252e" then Some (bad_request "Double-encoded path traversal detected")
        else None
  end.
Definition server_checks : Checks :=
  mkChecks parse_request_line validate_request_path "Invalid Content-Length" "Invalid Content-Length".

(** ** Reading *)

(** What the caller gets: nothing (the peer went away), an answer to send, or a
    request. *)
Inductive Parsed := Closed | Rejected (response : RawResponse) | Accepted (request : RawRequest).

(** The [recv] loop: the text, whether the headers are complete, and the packets
    never asked for. *)
Fixpoint recv_loop (packets : list string) (request_data : string) (total_read : Z) (headers_complete : bool) :
    option (string * Z * bool * list string) :=
  if (total_read <? MAX_REQUEST_SIZE)%Z && negb headers_complete then
    match packets with
    | [] => None
    | p :: packets =>
        if is_empty p then None
        else
          let request_data := request_data +:+ p in
          recv_loop packets request_data (total_read + size p) (contains request_data (CRLF +:+ CRLF))
    end
  else Some (request_data, total_read, headers_complete, packets).

(** The flags of the header loop. *)
Record Headers := mkHeaders {
  hd_count : Z; hd_has_cl : bool; hd_has_te : bool; hd_content_length : Z; hd_map : gmap string string;
}.
Definition no_headers : Headers := mkHeaders 0 false false 0 ∅.

Section Parse.
Context (checks : Checks).

Definition validate_content_length (value : string) : RawResponse + Z :=
  match stoull value with
  | Ok cl => if (MAX_BODY_SIZE <? cl)%Z then inl (response_error 413 "Request Entity Too Large" "Content-Length too large") else inr cl
  | Throw out_of_range => inl (bad_request (cl_out_of_range checks))
  | _ => inl (bad_request (cl_invalid checks))
  end.

Definition validate_header_value (value : string) : option RawResponse :=
  if contains value CRLF then Some (bad_request "CRLF in header value")
  else if contains value (String "000" "") then Some (bad_request "Null byte in header")
  else None.

(** A header with a colon. *)
Definition named_header (key raw_value : string) (h : Headers) : RawResponse + Headers :=
  let value := trim_string raw_value in
  match validate_header_value value with
  | Some e => inl e
  | None =>
      let key_lower := to_lower key in
      let has_te := hd_has_te h || String.eqb key_lower "transfer-encoding" in
      let headers := <[key := value]> (hd_map h) in
      if String.eqb key_lower "content-length" then
        if hd_has_cl h then inl (bad_request "Multiple Content-Length headers")
        else match validate_content_length value with
             | inl e => inl e
             | inr cl => inr (mkHeaders (hd_count h) true has_te cl headers)
             end
      else inr (mkHeaders (hd_count h) (hd_has_cl h) has_te (hd_content_length h) headers)
  end.

(** One line that is not empty. *)
Definition header_line (line : string) (h : Headers) : RawResponse + Headers :=
  let h := mkHeaders (hd_count h + 1) (hd_has_cl h) (hd_has_te h) (hd_content_length h) (hd_map h) in
  if (MAX_HEADERS <? hd_count h)%Z then inl (response_error 431 "Request Header Fields Too Large" "Too many headers")
  else if (MAX_HEADER_SIZE <? size line)%Z then inl (response_error 431 "Request Header Fields Too Large" "Header too large")
  else match find_char ":" line with
       | Some colon => named_header (string_take colon line) (string_drop (S colon) line) h
       | None => inr h
       end.

(** The loop over the text from [pos] on: the headers and the text after them;
    [None] only without fuel. *)
Fixpoint header_loop (fuel : nat) (rest : string) (h : Headers) : option (RawResponse + Headers * string) :=
  match fuel with
  | 0 => None
  | S fuel =>
      match cut_line rest with
      | None => Some (inr (h, rest))
      | Some (line, rest') =>
          if is_empty line then Some (inr (h, rest'))
          else match header_line line h with
               | inl e => Some (inl e)
               | inr h => header_loop fuel rest' h
               end
      end
  end.

Definition check_transfer (h : Headers) : option RawResponse :=
  if hd_has_te h && hd_has_cl h then Some (bad_request "Both Transfer-Encoding and Content-Length present")
  else if hd_has_te h then Some (response_error 501 "Not Implemented" "Transfer-Encoding not supported")
  else None.

(** The text after the loop of [recv]. *)
Definition parse_text (request_data : string) : option Parsed :=
  match cut_line request_data with
  | None => Some (Rejected (bad_request "Invalid request format"))
  | Some (request_line, rest) =>
      let '(method, r) := next_word request_line in
      let '(path, r) := next_word r in
      let '(version, _) := next_word r in
      let request := mkRaw method path version ∅ "" in
      match check_line checks request, check_path checks path with
      | Some e, _ | None, Some e => Some (Rejected e)
      | None, None =>
          match header_loop (S (String.length rest)) rest no_headers with
          | None => None
          | Some (inl e) => Some (Rejected e)
          | Some (inr (h, body)) =>
              match check_transfer h with
              | Some e => Some (Rejected e)
              | None => Some (Accepted (mkRaw method path version (hd_map h) body))
              end
          end
      end
  end.

Definition parseRequest (packets : list string) : option Parsed :=
  match recv_loop packets "" 0 false with
  | None => Some Closed
  | Some (request_data, total_read, headers_complete, _) =>
      if (MAX_REQUEST_SIZE <=? total_read)%Z && negb headers_complete
      then Some (Rejected (response_error 413 "Request Entity Too Large" "Request too large"))
      else parse_text request_data
  end.
End Parse.

(** ** Handlers (request_handler.hpp, handlers/)

    The version, the service name and the commit are written by the build. *)

Section Handlers.
Context (kVersion kServiceName gitCommit address : string).

(** The members of an object of texts, written as they are. *)
Fixpoint text_members_of (sep : string) (l : list (string * string)) : string :=
  match l with
  | [] => "}"
  | (k, v) :: l => sep +:+ (dquote +:+ (k +:+ (dquote +:+ (":" +:+ (dquote +:+ (v +:+ (dquote +:+ text_members_of "," l)))))))
  end.
Definition text_object (l : list (string * string)) : string := "{" +:+ text_members_of "" l.

Definition process_health_check (request : RawRequest) : option RawResponse :=
  if String.eqb (rq_path request) "/health" || String.eqb (rq_path request) "/healthz"
  then Some (response_of 200 "OK" (text_object [("status", "healthy"); ("service", "dbal")]))
  else None.
Definition process_version (request : RawRequest) : option RawResponse :=
  if String.eqb (rq_path request) "/api/version" || String.eqb (rq_path request) "/version"
  then Some (response_of 200 "OK" (text_object [("version", kVersion); ("service", kServiceName); ("commit", gitCommit)]))
  else None.
Definition process_status (request : RawRequest) : option RawResponse :=
  if String.eqb (rq_path request) "/api/status" || String.eqb (rq_path request) "/status"
  then Some (response_of 200 "OK" (text_object
    [("status", "running"); ("address", address); ("real_ip", realIP request); ("forwarded_proto", forwardedProto request)]))
  else None.
Definition process_not_found (request : RawRequest) : RawResponse :=
  response_of 404 "Not Found" (text_object [("error", "Not Found"); ("path", rq_path request)]).

Definition processRequest (request : RawRequest) : RawResponse :=
  match process_health_check request with
  | Some r => r
  | None =>
      match process_version request with
      | Some r => r
      | None => match process_status request with Some r => r | None => process_not_found request end
      end
  end.

(** What a connection is sent: nothing when the peer went away. *)
Definition handleConnection (checks : Checks) (packets : list string) : option string :=
  match parseRequest checks packets with
  | Some (Accepted request) => Some (serialize (processRequest request))
  | Some (Rejected response) => Some (serialize response)
  | Some Closed | None => None
  end.
End Handlers.

(** ** Lines *)

Lemma cut_line_cons c s :
  cut_line (String c s) =
  match c, s with
  | "013"%char, String "010" rest => Some ("", rest)
  | _, _ => '(line, rest) ← cut_line s; Some (String c line, rest)
  end.
Proof. reflexivity. Qed.

Definition starts_lf (s : string) : bool := match s with String "010" _ => true | _ => false end.
(** The case analysis on the two characters, without their bits. *)
Lemma cut_line_step c s :
  cut_line (String c s) =
  if Ascii.eqb c "013" && starts_lf s then Some ("", string_drop 1 s)
  else '(line, rest) ← cut_line s; Some (String c line, rest).
Proof.
  rewrite cut_line_cons. destruct (Ascii.eqb c "013") eqn:Hc.
  - apply Ascii.eqb_eq in Hc as ->. by destruct s as [|[[][][][][][][][]] s].
  - destruct c as [[][][][][][][][]]; try discriminate Hc; reflexivity.
Qed.

Lemma cut_line_Some s line rest :
  cut_line s = Some (line, rest) -> s = line +:+ (CRLF +:+ rest) /\ cut_line line = None.
Proof.
  revert line. induction s as [|c s IH]; intros line H; [done|]. rewrite cut_line_step in H.
  destruct (Ascii.eqb c "013" && starts_lf s) eqn:Hc.
  - injection H as <- <-. apply andb_true_iff in Hc as [->%Ascii.eqb_eq Hs].
    destruct s as [|a s]; [done|]. destruct a as [[][][][][][][][]]; try discriminate Hs. cbn. by destruct s.
  - destruct (cut_line s) as [[l r]|]; [|done]. injection H as <- <-. destruct (IH l eq_refl) as [-> Hl].
    split; [done|]. rewrite cut_line_step, Hl. replace (starts_lf l) with (starts_lf (l +:+ (CRLF +:+ r))) at 1.
    + by rewrite Hc.
    + destruct l as [|a l]; [|done]. cbn in Hc |- *. done.
Qed.

Lemma cut_line_app line rest : cut_line line = None -> cut_line (line +:+ (CRLF +:+ rest)) = Some (line, rest).
Proof.
  induction line as [|c s IH]; intros H; [reflexivity|]. rewrite string_app_cons, cut_line_step. rewrite cut_line_step in H.
  destruct (Ascii.eqb c "013" && starts_lf s) eqn:Hc; [done|].
  replace (starts_lf (s +:+ (CRLF +:+ rest))) with (starts_lf s) by by destruct s.
  rewrite Hc. destruct (cut_line s) as [[]|]; [done|]. by rewrite IH.
Qed.

Lemma cut_line_shorter s line rest : cut_line s = Some (line, rest) -> String.length rest < String.length s.
Proof. intros [-> _]%cut_line_Some. rewrite !string_length_app. cbn. lia. Qed.

(** ** The shape of a request *)

(** Lines that are not empty and hold no line end, each followed by one, then an
    empty line and the body. *)
Inductive header_block : string -> list string -> string -> Prop :=
  | block_end body : header_block (CRLF +:+ body) [] body
  | block_line line rest lines body :
      line <> "" -> cut_line line = None -> header_block rest lines body ->
      header_block (line +:+ (CRLF +:+ rest)) (line :: lines) body.

Section ParseFacts.
Context (checks : Checks).

(** The flags after lines, as the loop computes them. *)
Fixpoint take_headers (lines : list string) (h : Headers) : RawResponse + Headers :=
  match lines with
  | [] => inr h
  | line :: lines => match header_line checks line h with inl e => inl e | inr h => take_headers lines h end
  end.

Lemma header_loop_total fuel rest h : String.length rest < fuel -> is_Some (header_loop checks fuel rest h).
Proof.
  revert rest h. induction fuel as [|fuel IH]; intros rest h Hf; [lia|]. cbn.
  destruct (cut_line rest) as [[line rest']|] eqn:Hcut; [|by eexists].
  destruct (is_empty line); [by eexists|]. destruct (header_line checks line h) as [e|h']; [by eexists|].
  apply IH. apply cut_line_shorter in Hcut. lia.
Qed.

(** On a text with its empty line, the loop takes every line of the block. *)
Lemma header_loop_block fuel rest lines body h :
  header_block rest lines body -> String.length rest < fuel ->
  header_loop checks fuel rest h = Some (match take_headers lines h with inl e => inl e | inr h' => inr (h', body) end).
Proof.
  intros Hb. revert fuel h. induction Hb as [body|line rest lines body Hne Hcut _ IH]; intros [|fuel] h Hf;
    [rewrite string_length_app in Hf; cbn in Hf; lia| |lia|]; cbn [header_loop].
  - by replace (cut_line (CRLF +:+ body)) with (Some ("", body)).
  - rewrite (cut_line_app line rest Hcut). apply is_empty_false in Hne. rewrite Hne. cbn [take_headers].
    destruct (header_line checks line h) as [e|h']; [done|]. apply IH.
    rewrite !string_length_app in Hf. cbn in Hf. lia.
Qed.

(** Without the empty line the loop stops at a text without a line end. *)
Lemma header_loop_inv fuel rest h h' body :
  header_loop checks fuel rest h = Some (inr (h', body)) ->
  (exists lines, header_block rest lines body /\ take_headers lines h = inr h') \/ cut_line body = None.
Proof.
  revert rest h. induction fuel as [|fuel IH]; intros rest h H; [done|]. cbn in H.
  destruct (cut_line rest) as [[line rest']|] eqn:Hcut.
  - apply cut_line_Some in Hcut as [-> Hl]. destruct (is_empty line) eqn:He.
    + injection H as <- <-. apply is_empty_true in He as ->. left. exists []. split; [constructor|done].
    + destruct (header_line checks line h) as [e|h1] eqn:Hline; [done|].
      destruct (IH _ _ H) as [(lines & Hb & Ht)|Hc]; [left|by right].
      exists (line :: lines). split; [constructor; [by apply is_empty_false|done..]|]. cbn. by rewrite Hline.
  - injection H as <- <-. by right.
Qed.

(** ** What the headers of an accepted request satisfy *)

Definition value_ok (v : string) : Prop := contains v CRLF = false /\ contains v (String "000" "") = false.
Definition named (k name : string) : Prop := to_lower k = name.

Record headers_ok (h : Headers) : Prop := {
  ho_count : (Z.of_nat (base.size (hd_map h)) <= hd_count h <= MAX_HEADERS)%Z;
  ho_values : forall k v, hd_map h !! k = Some v -> value_ok v;
  ho_te : forall k v, hd_map h !! k = Some v -> named k "transfer-encoding" -> hd_has_te h = true;
  ho_cl : forall k v, hd_map h !! k = Some v -> named k "content-length" ->
    hd_has_cl h = true /\ exists n, stoull v = Ok n /\ (n <= MAX_BODY_SIZE)%Z;
  ho_one_cl : forall k k' v v', hd_map h !! k = Some v -> hd_map h !! k' = Some v' ->
    named k "content-length" -> named k' "content-length" -> k = k';
}.

Lemma no_headers_ok : headers_ok no_headers.
Proof. constructor; cbn; try done; unfold MAX_HEADERS; lia. Qed.

Lemma content_length_ok value n : validate_content_length checks value = inr n ->
  stoull value = Ok n /\ (n <= MAX_BODY_SIZE)%Z.
Proof.
  unfold validate_content_length. destruct (stoull value) as [m|e|x|]; [|done|by destruct x|done].
  destruct (MAX_BODY_SIZE <? m)%Z eqn:Hm; [done|]. intros [= <-]. split; [done|lia].
Qed.

Lemma size_insert_le (m : gmap string string) k v : base.size (<[k := v]> m) <= S (base.size m).
Proof. rewrite map_size_insert. destruct (m !! k); cbn; lia. Qed.

(** Storing one more header. *)
Lemma insert_header_ok h key v has_cl n :
  headers_ok h -> (hd_count h + 1 <= MAX_HEADERS)%Z -> value_ok v ->
  (hd_has_cl h = true -> has_cl = true) ->
  (named key "content-length" -> hd_has_cl h = false /\ has_cl = true /\ exists n, stoull v = Ok n /\ (n <= MAX_BODY_SIZE)%Z) ->
  headers_ok (mkHeaders (hd_count h + 1) has_cl (hd_has_te h || String.eqb (to_lower key) "transfer-encoding") n (<[key := v]> (hd_map h))).
Proof.
  intros [Hcount Hval Hte Hcl Hone] Hmax Hv Hmono Hnew. constructor; cbn.
  - pose proof (size_insert_le (hd_map h) key v). lia.
  - intros k v' [[<- <-]|[_ Hk]]%lookup_insert_Some; eauto.
  - intros k v' [[<- <-]|[_ Hk]]%lookup_insert_Some Hn.
    + unfold named in Hn. rewrite Hn. by rewrite orb_true_r.
    + by rewrite (Hte k v' Hk Hn).
  - intros k v' [[<- <-]|[_ Hk]]%lookup_insert_Some Hn.
    + by destruct (Hnew Hn) as (_ & ? & ?).
    + destruct (Hcl k v' Hk Hn) as [? ?]. auto.
  - intros k k' v1 v2 [[<- <-]|[_ Hk]]%lookup_insert_Some [[<- <-]|[_ Hk']]%lookup_insert_Some Hn Hn'; try done.
    + destruct (Hnew Hn) as [Hf _]. destruct (Hcl _ _ Hk' Hn') as [? _]. congruence.
    + destruct (Hnew Hn') as [Hf _]. destruct (Hcl _ _ Hk Hn) as [? _]. congruence.
    + eauto.
Qed.

Lemma header_line_ok line h h' : headers_ok h -> header_line checks line h = inr h' -> headers_ok h'.
Proof.
  intros Hok. unfold header_line. cbv zeta. cbn [hd_count hd_has_cl hd_has_te hd_content_length hd_map].
  destruct (MAX_HEADERS <? hd_count h + 1)%Z eqn:Hmax; [done|]. destruct (MAX_HEADER_SIZE <? size line)%Z; [done|].
  destruct (find_char ":" line) as [colon|].
  - unfold named_header. cbv zeta. cbn [hd_count hd_has_cl hd_has_te hd_content_length hd_map].
    set (v := trim_string _). unfold validate_header_value.
    destruct (contains v CRLF) eqn:Hc; [done|]. destruct (contains v (String "000" "")) eqn:Hn; [done|].
    assert (value_ok v) as Hv by done.
    destruct (String.eqb (to_lower (string_take colon line)) "content-length") eqn:Hcl.
    + destruct (hd_has_cl h) eqn:Hhas; [done|].
      destruct (validate_content_length checks v) as [e|n] eqn:Hn'; [done|]. intros [= <-].
      apply insert_header_ok; auto; [lia|]. intros _. split_and!; [done..|]. exists n. by apply content_length_ok.
    + intros [= <-]. apply insert_header_ok; auto; [lia|]. intros Hname. unfold named in Hname. by rewrite Hname in Hcl.
  - intros [= <-]. destruct Hok. constructor; cbn; eauto; lia.
Qed.

Lemma header_loop_ok fuel rest h h' body :
  headers_ok h -> header_loop checks fuel rest h = Some (inr (h', body)) -> headers_ok h'.
Proof.
  revert rest h. induction fuel as [|fuel IH]; intros rest h Hok H; [done|]. cbn in H.
  destruct (cut_line rest) as [[line rest']|]; [|by injection H as <- _].
  destruct (is_empty line); [by injection H as <- _|].
  destruct (header_line checks line h) as [e|h1] eqn:Hline; [done|]. eauto using header_line_ok.
Qed.
End ParseFacts.

(** ** Every connection is answered or dropped *)

Lemma parse_text_total checks request_data : is_Some (parse_text checks request_data).
Proof.
  unfold parse_text. destruct (cut_line request_data) as [[line rest]|]; [|by eexists].
  destruct (next_word line) as [method r], (next_word r) as [path r'], (next_word r') as [version r''].
  destruct (check_line _ _); [by eexists|]. destruct (check_path _ _); [by eexists|].
  destruct (header_loop_total checks (S (String.length rest)) rest no_headers (Nat.lt_succ_diag_r _)) as [[e|[h body]] ->];
    [by eexists|]. destruct (check_transfer h); by eexists.
Qed.

(** Reading a request ends, whatever the peer sends: with nothing, an error
    answer, or a request. *)
Theorem parse_request_total checks packets : is_Some (parseRequest checks packets).
Proof.
  unfold parseRequest. destruct (recv_loop packets "" 0 false) as [[[[data total] complete] rest]|]; [|by eexists].
  case_match; [by eexists|apply parse_text_total].
Qed.

(** ** What is accepted *)

Record safe_request (r : RawRequest) : Prop := {
  sr_words : rq_method r <> "" /\ rq_path r <> "" /\ rq_version r <> "";
  sr_path : contains (rq_path r) (String "000" "") = false /\ (size (rq_path r) <= MAX_PATH_LENGTH)%Z;
  sr_count : (Z.of_nat (base.size (rq_headers r)) <= MAX_HEADERS)%Z;
  sr_values : forall k v, rq_headers r !! k = Some v -> value_ok v;
  sr_no_te : forall k v, rq_headers r !! k = Some v -> ~ named k "transfer-encoding";
  sr_cl : forall k v, rq_headers r !! k = Some v -> named k "content-length" ->
    exists n, stoull v = Ok n /\ (n <= MAX_BODY_SIZE)%Z;
  sr_one_cl : forall k k' v v', rq_headers r !! k = Some v -> rq_headers r !! k' = Some v' ->
    named k "content-length" -> named k' "content-length" -> k = k';
}.

Lemma check_words_none r : check_words r = None -> rq_method r <> "" /\ rq_path r <> "" /\ rq_version r <> "".
Proof.
  unfold check_words. destruct (_ || _) eqn:H; [done|]. intros _.
  apply orb_false_iff in H as [[H1 H2]%orb_false_iff H3]. by rewrite <- !is_empty_false.
Qed.
Lemma check_path_size_none p : check_path_size p = None -> contains p (String "000" "") = false /\ (size p <= MAX_PATH_LENGTH)%Z.
Proof. unfold check_path_size. destruct (contains _ _); [done|]. destruct (MAX_PATH_LENGTH <? size p)%Z eqn:H; [done|]. split; [done|lia]. Qed.

(** The two servers' checks include those of the words and of the size. *)
Lemma server_path_size p : validate_request_path p = None -> check_path_size p = None.
Proof. unfold validate_request_path. by destruct (check_path_size p). Qed.
Lemma server_words r : parse_request_line r = None -> check_words r = None /\ isValidHttpMethod (rq_method r) = true.
Proof. unfold parse_request_line. destruct (check_words r); [done|]. by destruct (isValidHttpMethod _). Qed.

Lemma parse_text_accepted checks data r : parse_text checks data = Some (Accepted r) ->
  (exists line rest, cut_line data = Some (line, rest)) /\
  (exists r0, check_line checks r0 = None /\ rq_method r0 = rq_method r /\ rq_path r0 = rq_path r /\ rq_version r0 = rq_version r) /\
  check_path checks (rq_path r) = None /\
  exists h, rq_headers r = hd_map h /\ headers_ok h /\ hd_has_te h = false.
Proof.
  unfold parse_text. destruct (cut_line data) as [[line rest]|]; [|done].
  destruct (next_word line) as [method w], (next_word w) as [path w'], (next_word w') as [version w''].
  destruct (check_line _ _) eqn:Hl; [done|]. destruct (check_path _ _) eqn:Hp; [done|].
  destruct (header_loop _ _ _ _) as [[e|[h body]]|] eqn:Hh; [done| |done].
  unfold check_transfer. destruct (hd_has_te h) eqn:Hte; cbn; [by destruct (hd_has_cl h)|]. intros [= <-].
  split; [eauto|]. split; [eexists; eauto|]. split; [done|]. exists h. split_and!; [done| |done].
  eapply header_loop_ok; [apply no_headers_ok|exact Hh].
Qed.

(** C33. What is known of a request that is let through.  Its line has its three words;
    the path is at most 2048 bytes long and without null bytes; there are at most a
    hundred headers, and no value has a null byte (or the pair CR LF, where lines are
    cut; a bare LF may be in one); no header is named transfer-encoding, in any case of
    the letters (with a space before the colon it is another name, and passes); at most
    one is named content-length, and its value is one that std::stoull reads, as a number
    up to 10 MiB (it takes 12abc for 12, and a negative number modulo 2^64).  The server
    with checks of its own also lets only its seven methods through, and no path with
    two dots or their encodings. *)
Theorem accepted_request_safe checks packets r :
  checks = http_checks \/ checks = server_checks ->
  parseRequest checks packets = Some (Accepted r) ->
  safe_request r /\ (checks = server_checks -> isValidHttpMethod (rq_method r) = true /\ validate_request_path (rq_path r) = None).
Proof.
  intros Hchecks H. unfold parseRequest in H.
  destruct (recv_loop packets "" 0 false) as [[[[data total] complete] rest]|]; [|done].
  destruct (_ && _); [done|]. apply parse_text_accepted in H as (_ & (r0 & Hl & Hm & Hp & Hv) & Hpath & h & Hmap & Hok & Hte).
  assert (check_words r0 = None /\ check_path_size (rq_path r) = None) as [Hw Hps].
  { destruct Hchecks as [-> | ->]; cbn in Hl, Hpath; [done|]. split; [by apply server_words|by apply server_path_size]. }
  split.
  - destruct Hok as [Hcount Hval Hoh Hcl Hone]. constructor; rewrite ?Hmap; try done.
    + rewrite <- Hm, <- Hp, <- Hv. by apply check_words_none.
    + by apply check_path_size_none.
    + lia.
    + intros k v Hk Hn. specialize (Hoh k v Hk Hn). congruence.
    + intros k v Hk Hn. by destruct (Hcl k v Hk Hn).
  - intros ->. cbn in Hl, Hpath. split; [|done]. rewrite <- Hm. by apply server_words.
Qed.

(** ** Path traversal *)

Lemma substring_take m l s : String.substring m l s = string_take l (string_drop m s).
Proof.
  revert m l. induction s as [|c s IH]; intros [|m] [|l]; cbn; try done; by rewrite ?IH; destruct s.
Qed.
Lemma substring_app a n b : String.substring (String.length a) (String.length n) (a +:+ (n +:+ b)) = n.
Proof. by rewrite substring_take, string_drop_app, string_take_app. Qed.
Lemma contains_app a n b : n <> "" -> contains (a +:+ (n +:+ b)) n = true.
Proof.
  intros Hn. unfold contains. destruct (String.index 0 n (a +:+ (n +:+ b))) eqn:H; [done|].
  by destruct (String.index_correct3 0 (String.length a) _ _ H Hn ltac:(lia) (substring_app a n b)).
Qed.
Lemma contains_split s n : contains s n = true -> exists a b, s = a +:+ (n +:+ b).
Proof.
  unfold contains. destruct (String.index 0 n s) as [m|] eqn:H; [|done]. intros _.
  apply String.index_correct1 in H. rewrite substring_take in H.
  exists (string_take m s), (string_drop (String.length n) (string_drop m s)).
  assert (n +:+ string_drop (String.length n) (string_drop m s) = string_drop m s) as ->.
  { rewrite <- H at 1. apply string_take_drop. }
  by rewrite string_take_drop.
Qed.

(** Percent-decoding, as a server that maps paths to files does it: a percent sign
    that two hexadecimal digits follow is the byte they give. *)
Definition hex_digit (c : ascii) : option N :=
  if is_digit c then Some (byte_of c - 48)%N
  else if in_range "a" "f" c then Some (byte_of c - 87)%N
  else if in_range "A" "F" c then Some (byte_of c - 55)%N else None.
Definition hex_byte (a b : ascii) : option ascii :=
  x ← hex_digit a; y ← hex_digit b; Some (ascii_of_N (16 * x + y)).
Fixpoint percent_decode (s : string) : string :=
  match s with
  | EmptyString => ""
  | String c s' =>
      match s' with
      | String a (String b rest) =>
          match (if Ascii.eqb c "%" then hex_byte a b else None) with
          | Some d => String d (percent_decode rest)
          | None => String c (percent_decode s')
          end
      | _ => String c (percent_decode s')
      end
  end.

(** A character of the decoded text comes from itself or from an escape. *)
Definition chunk (d : ascii) (s : string) : Prop :=
  s = String d "" \/ exists a b, s = String "%" (String a (String b "")) /\ hex_byte a b = Some d.
Lemma decode_head s d t : percent_decode s = String d t ->
  exists c rest, s = c +:+ rest /\ chunk d c /\ percent_decode rest = t.
Proof.
  destruct s as [|c s]; [done|]. intros H.
  assert (String c (percent_decode s) = String d t ->
    exists c' rest, String c s = c' +:+ rest /\ chunk d c' /\ percent_decode rest = t) as Hplain.
  { intros [= -> Ht]. exists (String d ""), s. split_and!; [done|by left|done]. }
  cbn in H. destruct s as [|a [|b r]]; [by apply Hplain..|].
  destruct (Ascii.eqb c "%") eqn:Hc; [|by apply Hplain]. destruct (hex_byte a b) as [e|] eqn:Hh; [|by apply Hplain].
  apply Ascii.eqb_eq in Hc as ->. injection H as -> Ht.
  exists (String "%" (String a (String b ""))), r. split_and!; [done|right; eauto|done].
Qed.
Lemma decode_tail a s t : percent_decode s = a +:+ t -> exists u rest, s = u +:+ rest /\ percent_decode rest = t.
Proof.
  revert s. induction a as [|d a IH]; intros s H; [by exists "", s|].
  destruct (decode_head _ _ _ H) as (c & rest & -> & _ & Hr). destruct (IH _ Hr) as (u & rest' & -> & Hr').
  exists (c +:+ u), rest'. by rewrite string_app_assoc.
Qed.

(** The escapes of a dot. *)
Lemma hex_byte_dot a b : hex_byte a b = Some "."%char -> a = "2"%char /\ to_lower_char b = "e"%char.
Proof.
  assert (forall a b, implb (match hex_byte a b with Some d => Ascii.eqb d "." | None => false end)
    (Ascii.eqb a "2" && Ascii.eqb (to_lower_char b) "e") = true) as H.
  { intros a' b'. revert a'. apply ascii_forall. revert b'.
    apply (ascii_forall (fun b => forallb (fun n => implb (match hex_byte (ascii_of_nat n) b with Some d => Ascii.eqb d "." | None => false end)
      (Ascii.eqb (ascii_of_nat n) "2" && Ascii.eqb (to_lower_char b) "e")) (seq 0 256))).
    vm_compute. reflexivity. }
  intros Hd. specialize (H a b). rewrite Hd in H. cbn in H. apply andb_true_iff in H as [Ha Hb].
  by apply Ascii.eqb_eq in Ha, Hb.
Qed.
Lemma chunk_dot c : chunk "." c -> c = "." \/ to_lower c = "%2e".
Proof.
  intros [->|(a & b & -> & Hh)]; [by left|right]. destruct (hex_byte_dot a b Hh) as [-> Hb]. cbn. by rewrite Hb.
Qed.

Lemma string_map_app f s t : string_map f (s +:+ t) = string_map f s +:+ string_map f t.
Proof. induction s as [|c s IH]; [done|]. autorewrite with dbal_str. cbn. autorewrite with dbal_str. by rewrite IH. Qed.

(** No traversal gets past the path check: a path that is accepted has no parent
    segment, neither as it stands nor after its escapes are decoded. *)
Theorem path_traversal_blocked p :
  validate_request_path p = None -> contains p ".." = false /\ contains (percent_decode p) ".." = false.
Proof.
  unfold validate_request_path. destruct (check_path_size p); [done|].
  destruct (contains p "..") eqn:H1; [done|]. cbv zeta.
  destruct (contains (to_lower p) "%2e%2e") eqn:H2; [done|].
  destruct (existsb (contains (to_lower p)) traversal_patterns) eqn:H3; [done|]. intros _. split; [done|].
  cbn in H3. repeat match goal with H : _ || _ = false |- _ => apply orb_false_iff in H as [? ?] end.
  destruct (contains (percent_decode p) "..") eqn:Hd; [|done]. exfalso.
  apply contains_split in Hd as (a & b & Hd). destruct (decode_tail _ _ _ Hd) as (u & r & -> & Hr).
  destruct (decode_head _ _ _ Hr) as (c1 & r1 & -> & Hc1 & Hr1).
  destruct (decode_head _ _ _ Hr1) as (c2 & r2 & -> & Hc2 & Hr2).
  unfold to_lower in *. rewrite !string_map_app in *.
  assert (forall a x y b, x <> "" -> contains (a +:+ (x +:+ (y +:+ b))) (x +:+ y) = true) as Hin.
  { intros a' x y b' Hx. rewrite (string_app_assoc x y b'). apply contains_app. by destruct x. }
  destruct (chunk_dot _ Hc1) as [->|E1], (chunk_dot _ Hc2) as [->|E2]; unfold to_lower in *;
    try rewrite E1 in *; try rewrite E2 in *.
  - exact (eq_true_false_abs _ (Hin u "." "." r2 ltac:(done)) H1).
  - exact (eq_true_false_abs _ (Hin (string_map to_lower_char u) "." "%2e" (string_map to_lower_char r2) ltac:(done)) H4).
  - exact (eq_true_false_abs _ (Hin (string_map to_lower_char u) "%2e" "." (string_map to_lower_char r2) ltac:(done)) H3).
  - exact (eq_true_false_abs _ (Hin (string_map to_lower_char u) "%2e" "%2e" (string_map to_lower_char r2) ltac:(done)) H2).
Qed.

(** The check for twice-encoded dots knows one spelling of them: this path is let
    through, and decoding it twice gives a parent segment. *)
Definition twice_encoded : string := "/%25%32e%25%32e/etc".
Example twice_encoded_passes :
  validate_request_path twice_encoded = None /\ percent_decode (percent_decode twice_encoded) = "/../etc".
Proof. vm_compute. done. Qed.

(** ** Round trip *)

Definition no_cr (c : ascii) : bool := negb (Ascii.eqb c "013").
Definition text_char (c : ascii) : bool := no_cr c && negb (Ascii.eqb c "000").
Definition word_ok (w : string) : Prop := w <> "" /\ string_forallb (fun c => negb (is_space c)) w = true.

Definition line_of (kv : string * string) : string := kv.1 +:+ (": " +:+ kv.2).
Definition is_cl (kv : string * string) : bool := String.eqb (to_lower kv.1) "content-length".

(** A header that a line can carry, and that the checks let through. *)
Record header_ok (kv : string * string) : Prop := {
  hk_key : find_char ":" kv.1 = None /\ string_forallb no_cr kv.1 = true;
  hk_value : string_forallb text_char kv.2 = true /\ trim_string kv.2 = kv.2;
  hk_size : (size (line_of kv) <= MAX_HEADER_SIZE)%Z;
  hk_te : to_lower kv.1 <> "transfer-encoding";
  hk_cl : is_cl kv = true -> exists n, stoull kv.2 = Ok n /\ (n <= MAX_BODY_SIZE)%Z;
}.

(** A later header of the same name replaces an earlier one. *)
Definition header_map (hs : list (string * string)) : gmap string string := foldl (fun m kv => <[kv.1 := kv.2]> m) ∅ hs.
Definition request_line_of (method path version : string) : string := method +:+ (" " +:+ (path +:+ (" " +:+ version))).
Definition print_request (method path version : string) (hs : list (string * string)) (body : string) : string :=
  request_line_of method path version +:+ (CRLF +:+ (header_lines hs +:+ (CRLF +:+ body))).

Lemma no_cr_line s : string_forallb no_cr s = true -> cut_line s = None.
Proof.
  induction s as [|c s IH]; [done|]. cbn [string_forallb]. intros [Hc Hs]%andb_true_iff. rewrite cut_line_step, (IH Hs).
  unfold no_cr in Hc. apply negb_true_iff in Hc. by rewrite Hc.
Qed.
Lemma forallb_impl (p q : ascii -> bool) s : (forall c, p c = true -> q c = true) -> string_forallb p s = true -> string_forallb q s = true.
Proof. intros H. induction s as [|c s IH]; [done|]. cbn. intros [Hc Hs]%andb_true_iff. by rewrite (H c Hc), IH. Qed.
Lemma text_lacks c n s : text_char c = false -> string_forallb text_char s = true -> contains s (String c n) = false.
Proof.
  intros Hc Hs. destruct (contains s (String c n)) eqn:H; [|done]. apply contains_split in H as (a & b & ->).
  rewrite !string_forallb_app in Hs. cbn in Hs. rewrite Hc in Hs. cbn in Hs. by rewrite andb_false_r in Hs.
Qed.

Lemma text_no_cr s : string_forallb text_char s = true -> string_forallb no_cr s = true.
Proof. apply forallb_impl. intros c. unfold text_char. by intros [? _]%andb_true_iff. Qed.
Lemma word_no_cr w : word_ok w -> string_forallb no_cr w = true.
Proof.
  intros [_ H]. revert H. apply forallb_impl. intros c Hc. apply negb_true_iff in Hc. unfold no_cr.
  destruct (Ascii.eqb c "013") eqn:E; [|done]. apply Ascii.eqb_eq in E as ->. discriminate Hc.
Qed.

Lemma header_line_printed checks kv h :
  header_ok kv -> (hd_count h + 1 <= MAX_HEADERS)%Z -> (is_cl kv = true -> hd_has_cl h = false) ->
  exists n, header_line checks (line_of kv) h =
    inr (mkHeaders (hd_count h + 1) (hd_has_cl h || is_cl kv) (hd_has_te h) n (<[kv.1 := kv.2]> (hd_map h))).
Proof.
  destruct kv as [k v]. intros [[Hk Hkc] [Hv Htrim] Hsize Hte Hcl] Hcount Hone. cbn [fst snd] in *.
  unfold header_line. cbv zeta. cbn [hd_count hd_has_cl hd_has_te hd_content_length hd_map].
  replace (MAX_HEADERS <? hd_count h + 1)%Z with false by lia.
  replace (MAX_HEADER_SIZE <? size (line_of (k, v)))%Z with false by lia.
  unfold line_of. cbn [fst snd]. change (": " +:+ v) with (String ":" (String " " v)).
  assert (find_char ":" (k +:+ String ":" (String " " v)) = Some (String.length k)) as ->.
  { rewrite (find_char_app_ne _ _ _ Hk). cbn. by rewrite Nat.add_0_r. }
  rewrite string_take_app, string_drop_app_S.
  unfold named_header. cbv zeta. cbn [hd_count hd_has_cl hd_has_te hd_content_length hd_map].
  change (trim_string (String " " v)) with (trim_string v). rewrite Htrim.
  unfold validate_header_value, CRLF. rewrite !text_lacks by done.
  apply String.eqb_neq in Hte. rewrite Hte, orb_false_r. unfold is_cl in *. cbn [fst snd] in *.
  destruct (String.eqb (to_lower k) "content-length").
  - rewrite (Hone eq_refl). destruct (Hcl eq_refl) as (n & Hn & Hmax). exists n. unfold validate_content_length.
    rewrite Hn. by replace (MAX_BODY_SIZE <? n)%Z with false by lia.
  - exists (hd_content_length h). by rewrite orb_false_r.
Qed.

Lemma take_headers_printed checks hs h :
  Forall header_ok hs -> (hd_count h + Z.of_nat (length hs) <= MAX_HEADERS)%Z ->
  length (List.filter is_cl hs) <= (if hd_has_cl h then 0 else 1) ->
  exists c cl n, take_headers checks (line_of <$> hs) h =
    inr (mkHeaders c cl (hd_has_te h) n (foldl (fun m kv => <[kv.1 := kv.2]> m) (hd_map h) hs)).
Proof.
  intros Hok. revert h. induction Hok as [|kv hs Hkv _ IH]; intros h Hcount Hone.
  - exists (hd_count h), (hd_has_cl h), (hd_content_length h). by destruct h.
  - cbn [length List.filter] in *. destruct (header_line_printed checks kv h Hkv) as [n Hline].
    + lia.
    + intros Hcl. rewrite Hcl in Hone. cbn in Hone. destruct (hd_has_cl h); [lia|done].
    + cbn [fmap list_fmap take_headers]. rewrite Hline. apply (IH (mkHeaders _ _ _ _ _)).
      * cbn. lia.
      * cbn. destruct (is_cl kv), (hd_has_cl h); cbn in *; lia.
Qed.

Lemma printed_block hs body : Forall header_ok hs -> header_block (header_lines hs +:+ (CRLF +:+ body)) (line_of <$> hs) body.
Proof.
  induction 1 as [|[k v] hs [[_ Hk] [Hv _]] _ IH]; [constructor|].
  change (header_lines ((k, v) :: hs)) with (k +:+ (": " +:+ (v +:+ (CRLF +:+ header_lines hs)))).
  rewrite <- !string_app_assoc. rewrite (string_app_assoc ": " v), (string_app_assoc k). change (k +:+ (": " +:+ v)) with (line_of (k, v)).
  cbn [fmap list_fmap]. constructor; [|apply no_cr_line|exact IH].
  - unfold line_of. by destruct k.
  - unfold line_of. cbn [fst snd] in *. rewrite !string_forallb_app, Hk, (text_no_cr _ Hv). done.
Qed.

Lemma take_word_next w rest : string_forallb (fun c => negb (is_space c)) w = true ->
  take_word (w +:+ rest) = (let '(u, r) := take_word rest in (w +:+ u, r)).
Proof.
  induction w as [|c w IH]; cbn [string_forallb].
  - intros _. rewrite string_app_nil_l. destruct (take_word rest). by rewrite string_app_nil_l.
  - intros [Hc Hw]%andb_true_iff. rewrite string_app_cons. cbn [take_word]. apply negb_true_iff in Hc. rewrite Hc, (IH Hw).
    destruct (take_word rest). by autorewrite with dbal_str.
Qed.
Lemma next_word_app w rest : word_ok w -> next_word (w +:+ rest) = (let '(u, r) := take_word rest in (w +:+ u, r)).
Proof.
  intros [Hne Hw]. unfold next_word. rewrite <- (take_word_next w rest Hw). f_equal.
  destruct w as [|c w]; [done|]. rewrite string_app_cons. cbn [skip_space string_forallb] in *. apply andb_true_iff in Hw as [Hc _]. apply negb_true_iff in Hc. by rewrite Hc.
Qed.

Lemma next_word_space w x : word_ok w -> next_word (w +:+ (" " +:+ x)) = (w, " " +:+ x).
Proof.
  intros Hw. rewrite (next_word_app w _ Hw). change (take_word (" " +:+ x)) with ("", " " +:+ x). cbv beta iota. by rewrite string_app_nil_r.
Qed.
Lemma next_word_last w : word_ok w -> next_word w = (w, "").
Proof.
  intros Hw. rewrite <- (string_app_nil_r w) at 1. rewrite (next_word_app w "" Hw). cbn [take_word]. cbv beta iota. by rewrite string_app_nil_r.
Qed.

Lemma request_line_words m p v : word_ok m -> word_ok p -> word_ok v ->
  exists r r', next_word (request_line_of m p v) = (m, r) /\ next_word r = (p, r') /\ (next_word r').1 = v.
Proof.
  intros Hm Hp Hv. exists (" " +:+ (p +:+ (" " +:+ v))), (" " +:+ v). unfold request_line_of. split_and!.
  - by apply next_word_space.
  - exact (next_word_space p v Hp).
  - change (next_word (" " +:+ v)) with (next_word v). by rewrite next_word_last.
Qed.

(** A request that a client may send, and that the checks let through. *)
Record sendable (checks : Checks) (method path version : string) (hs : list (string * string)) : Prop := {
  sd_method : word_ok method; sd_path : word_ok path; sd_version : word_ok version;
  sd_line : check_line checks (mkRaw method path version ∅ "") = None;
  sd_checked : check_path checks path = None;
  sd_headers : Forall header_ok hs;
  sd_count : (Z.of_nat (length hs) <= MAX_HEADERS)%Z;
  sd_one_cl : length (List.filter is_cl hs) <= 1;
}.

Lemma parse_printed checks m p v hs body : sendable checks m p v hs ->
  parse_text checks (print_request m p v hs body) = Some (Accepted (mkRaw m p v (header_map hs) body)).
Proof.
  intros [Hm Hp Hv Hl Hc Hhs Hcount Hone]. unfold parse_text, print_request.
  rewrite cut_line_app.
  2:{ apply no_cr_line. unfold request_line_of. rewrite !string_forallb_app, (word_no_cr m Hm), (word_no_cr p Hp), (word_no_cr v Hv). done. }
  destruct (request_line_words m p v Hm Hp Hv) as (r & r' & -> & -> & Hv').
  destruct (next_word r') as [v' r'']. cbn in Hv'. subst v'. rewrite Hl, Hc.
  rewrite (header_loop_block _ _ _ _ _ _ (printed_block hs body Hhs)) by lia.
  destruct (take_headers_printed checks hs no_headers Hhs) as (c & cl & n & ->); [cbn; lia|done|]. reflexivity.
Qed.

Lemma contains_more s t n : n <> "" -> contains s n = true -> contains (s +:+ t) n = true.
Proof. intros Hn (a & b & ->)%contains_split. rewrite <- !string_app_assoc. by apply contains_app. Qed.
Lemma size_app s t : size (s +:+ t) = (size s + size t)%Z.
Proof. unfold size. rewrite string_length_app. lia. Qed.

Definition end_of_headers : string := CRLF +:+ CRLF.
Definition joined (packets : list string) : string := foldr (fun p s => p +:+ s) "" packets.

(** The loop asks for packets up to the one that ends the headers. *)
Lemma recv_until data ps q more :
  Forall (fun p => p <> "") ps -> contains (data +:+ joined ps) end_of_headers = false -> (size (data +:+ joined ps) < MAX_REQUEST_SIZE)%Z ->
  contains (data +:+ (joined ps +:+ q)) end_of_headers = true ->
  exists total, recv_loop (ps ++ q :: more) data (size data) false = Some (data +:+ (joined ps +:+ q), total, true, more).
Proof.
  intros Hps. revert data. induction Hps as [|p ps Hne%is_empty_false _ IH]; intros data Hno Hsize Hyes.
  - assert (is_empty q = false) as Hq.
    { destruct q; [|done]. change (joined [] +:+ "") with (joined []) in Hyes. by rewrite Hno in Hyes. }
    change (joined []) with "" in *. cbn [app]. rewrite ?string_app_nil_r, ?string_app_nil_l in *. cbn [recv_loop]. rewrite Hq. replace (size data <? MAX_REQUEST_SIZE)%Z with true by lia.
    cbn [andb negb]. change (CRLF +:+ CRLF) with end_of_headers. rewrite Hyes.
    eexists. destruct more; cbn [recv_loop]; rewrite andb_false_r; reflexivity.
  - change (joined (p :: ps)) with (p +:+ joined ps) in *. cbn [app recv_loop]. rewrite Hne. pose proof (size_app data (p +:+ joined ps)) as Hs. assert (0 <= size (p +:+ joined ps))%Z by (unfold size; lia).
    replace (size data <? MAX_REQUEST_SIZE)%Z with true by lia. cbn [andb negb]. change (CRLF +:+ CRLF) with end_of_headers.
    destruct (contains (data +:+ p) end_of_headers) eqn:Hp.
    + apply (contains_more _ (joined ps)) in Hp; [|done]. rewrite <- string_app_assoc in Hp. congruence.
    + rewrite <- size_app. rewrite (string_app_assoc data p) in Hno, Hsize.
      destruct (IH (data +:+ p) Hno Hsize) as [total Ht].
      * by rewrite <- !string_app_assoc in *.
      * exists total. rewrite Ht. by rewrite <- !string_app_assoc.
Qed.

Lemma printed_ends m p v hs body : contains (print_request m p v hs body) end_of_headers = true.
Proof.
  unfold print_request. induction hs as [|[k w] hs IH] using rev_ind.
  - cbn [header_lines]. rewrite string_app_nil_l. rewrite (string_app_assoc CRLF CRLF). by apply contains_app.
  - assert (forall l, header_lines (l ++ [(k, w)]) = (header_lines l +:+ (k +:+ (": " +:+ w))) +:+ CRLF) as ->.
    { clear. intros l. induction l as [|[a b] l IH]; cbn [app header_lines].
      - by rewrite string_app_nil_r, string_app_nil_l, <- !string_app_assoc.
      - rewrite IH. by rewrite <- !string_app_assoc. }
    rewrite <- !(string_app_assoc _ CRLF). rewrite (string_app_assoc CRLF CRLF).
    rewrite (string_app_assoc CRLF (header_lines hs +:+ _)), (string_app_assoc (request_line_of m p v)).
    by apply contains_app.
Qed.

(** C32. Requests come through as they were sent: the text of a request that the
    checks allow, split in any way into packets (none of them empty: a [recv] that answers
    0 is the end of the connection) whose last one ends the headers and carries the
    body, is accepted as exactly that method, path, version and body
    with the last value given for each header. *)
Theorem request_roundtrip checks m p v hs body ps q more :
  sendable checks m p v hs -> Forall (fun p => p <> "") ps -> joined ps +:+ q = print_request m p v hs body ->
  contains (joined ps) end_of_headers = false -> (size (joined ps) < MAX_REQUEST_SIZE)%Z ->
  parseRequest checks (ps ++ q :: more) = Some (Accepted (mkRaw m p v (header_map hs) body)).
Proof.
  intros Hok Hps Htext Hno Hsize. unfold parseRequest. change 0%Z with (size "").
  destruct (recv_until "" ps q more Hps Hno Hsize) as [total Ht].
  - rewrite string_app_nil_l, Htext. apply printed_ends.
  - rewrite Ht, string_app_nil_l, Htext, andb_false_r. by apply parse_printed.
Qed.

(** ** Concrete requests *)

Definition eol (s : string) : string := s +:+ CRLF.
Definition small_request : string := print_request "POST" "/users" "HTTP/1.1" [("Host", "es"); ("Content-Length", "2")] "ok".

Lemma small_sendable : sendable server_checks "POST" "/users" "HTTP/1.1" [("Host", "es"); ("Content-Length", "2")].
Proof.
  constructor; [by split..|reflexivity|vm_compute; reflexivity| |vm_compute; discriminate|by apply Nat.leb_le].
  repeat constructor; cbn [fst snd]; try done; intros _; exists 2%Z; split; [reflexivity|vm_compute; discriminate].
Qed.

Lemma request_roundtrip_witness :
  parseRequest server_checks ["POST /users HT"; string_drop 14 small_request] =
  Some (Accepted (mkRaw "POST" "/users" "HTTP/1.1" (header_map [("Host", "es"); ("Content-Length", "2")]) "ok")).
Proof.
  apply (request_roundtrip server_checks "POST" "/users" "HTTP/1.1" [("Host", "es"); ("Content-Length", "2")] "ok"
    ["POST /users HT"] (string_drop 14 small_request) []).
  - apply small_sendable.
  - by repeat constructor.
  - vm_compute. reflexivity.
  - vm_compute. reflexivity.
  - vm_compute. reflexivity.
Defined.

Lemma accepted_request_safe_witness : exists r,
  parseRequest server_checks [small_request] = Some (Accepted r) /\ safe_request r.
Proof.
  eexists. split; [vm_compute; reflexivity|].
  eapply (accepted_request_safe server_checks [small_request]); [by right|]. vm_compute. reflexivity.
Defined.

Lemma path_traversal_blocked_witness : contains (percent_decode "/a%2Fb/..%") ".." = true /\ contains (percent_decode "/a%2Fb/.%") ".." = false.
Proof.
  split; [reflexivity|]. apply (path_traversal_blocked "/a%2Fb/.%"). vm_compute. reflexivity.
Defined.

(** A body that arrives after the headers is not read. *)
Example late_body_lost : exists r,
  parseRequest server_checks [eol "POST / HTTP/1.1" +:+ (eol "Content-Length: 4" +:+ CRLF); "data"] = Some (Accepted r) /\ rq_body r = "".
Proof. eexists. split; [vm_compute; reflexivity|done]. Qed.

(** A body is everything that arrived, whatever length the headers give. *)
Example length_ignored : exists r,
  parseRequest server_checks [eol "POST / HTTP/1.1" +:+ (eol "Content-Length: 1" +:+ (CRLF +:+ "abc"))] = Some (Accepted r) /\ rq_body r = "abc".
Proof. eexists. split; [vm_compute; reflexivity|done]. Qed.

(** A space before the colon hides a header from the checks. *)
Example hidden_header : exists r,
  parseRequest server_checks [eol "POST / HTTP/1.1" +:+ (eol "Transfer-Encoding : chunked" +:+ CRLF)] = Some (Accepted r) /\
  rq_headers r !! "Transfer-Encoding " = Some "chunked".
Proof. eexists. split; [vm_compute; reflexivity|done]. Qed.

(** Lengths that are no numbers are taken, a negative one by its complement. *)
Example lengths_taken : stoull "12abc" = Ok 12%Z /\ stoull "-18446744073709551615" = Ok 1%Z.
Proof. by vm_compute. Qed.

(** The path is echoed without escapes. *)
Example path_not_escaped path : rs_body (process_not_found (mkRaw "GET" path "HTTP/1.1" ∅ "")) =
  text_object [("error", "Not Found"); ("path", path)].
Proof. done. Qed.
