(* ===== verification/HttpServer.v ===== *)
(** * The threads of the socket HTTP server

    Models src/daemon/http/server/http_server.hpp (and the same loops of
    src/daemon/server/lifecycle): one thread that accepts connections, a detached
    thread for each connection, and the thread that starts and stops the server.
    They share the flag [running_], the socket and the counter of connections; a
    step is one access to what they share. *)

From stdpp Require Import relations.
From S2P Require Import Prelude CxxString CxxStd Store Json PlainJson HttpParser.

(** Where the accepting thread is. *)
Inductive AcceptPc :=
  | NoThread                (* not started, or joined *)
  | Checking                (* about to test running_ *)
  | Waiting                 (* in accept() *)
  | Counted (prev : Z)      (* after fetch_add, with the count before it *)
  | Rejecting               (* over the limit, before fetch_sub *)
  | Finished.               (* left the loop, not joined *)

(** Where the thread that owns the server is. *)
Inductive OwnerPc := Idle | Closing | Joining.

Record Server := mkServer {
  running_ : bool; server_fd_open : bool; accept_pc : AcceptPc; owner_pc : OwnerPc;
  handlers : list nat;            (* connections whose thread has not yet counted down *)
  active_connections_ : Z;        (* std::atomic<size_t> *)
  exists_ : bool;                 (* the object has not been destroyed *)
}.

Definition add_size_t (a b : Z) : Z := ((a + b) mod 2 ^ 64)%Z.
Definition new_server : Server := mkServer false false NoThread Idle [] 0 true.

Inductive server_step : Server -> Server -> Prop :=
  (* start(): the socket is there and listens *)
  | step_start f o h a :
      server_step (mkServer false f NoThread Idle h a o) (mkServer true true Checking Idle h a o)
  (* acceptLoop() *)
  | step_enter f own h a o :
      server_step (mkServer true f Checking own h a o) (mkServer true f Waiting own h a o)
  | step_leave f own h a o :
      server_step (mkServer false f Checking own h a o) (mkServer false f Finished own h a o)
  | step_accept_fails r f own h a o :
      server_step (mkServer r f Waiting own h a o) (mkServer r f Checking own h a o)
  | step_accepts r own h a o :
      server_step (mkServer r true Waiting own h a o) (mkServer r true (Counted a) own h (add_size_t a 1) o)
  | step_over_limit r f own h a o prev : (MAX_CONCURRENT_CONNECTIONS <= prev)%Z ->
      server_step (mkServer r f (Counted prev) own h a o) (mkServer r f Rejecting own h a o)
  | step_reject r f own h a o :
      server_step (mkServer r f Rejecting own h a o) (mkServer r f Checking own h (add_size_t a (-1)) o)
  | step_spawn r f own h a o prev c : (prev < MAX_CONCURRENT_CONNECTIONS)%Z ->
      server_step (mkServer r f (Counted prev) own h a o) (mkServer r f Checking own (c :: h) a o)
  (* the end of handleConnection() *)
  | step_handled r f pc own h h' a o c :
      server_step (mkServer r f pc own (h ++ c :: h') a o) (mkServer r f pc own (h ++ h') (add_size_t a (-1)) o)
  (* stop() *)
  | step_stop f pc h a o :
      server_step (mkServer true f pc Idle h a o) (mkServer false f pc Closing h a o)
  | step_close r f pc h a o :
      server_step (mkServer r f pc Closing h a o) (mkServer r false pc Joining h a o)
  | step_join r f h a o :
      server_step (mkServer r f Finished Joining h a o) (mkServer r f NoThread Idle h a o)
  (* the end of the destructor, whose stop() has nothing more to do *)
  | step_destroy f h a :
      server_step (mkServer false f NoThread Idle h a true) (mkServer false f NoThread Idle h a false).

(** ** The counter *)

(** A connection that is counted and has no thread. *)
Definition in_hand (pc : AcceptPc) : nat := match pc with Counted _ | Rejecting => 1 | _ => 0 end.

Record counted (s : Server) : Prop := {
  ct_exact : active_connections_ s = Z.of_nat (length (handlers s) + in_hand (accept_pc s));
  ct_bound : (Z.of_nat (length (handlers s)) <= MAX_CONCURRENT_CONNECTIONS)%Z;
  ct_prev : forall prev, accept_pc s = Counted prev -> (Z.of_nat (length (handlers s)) <= prev)%Z;
}.

Lemma add_size_t_exact a b : (0 <= a + b < 2 ^ 64)%Z -> add_size_t a b = (a + b)%Z.
Proof. intros H. unfold add_size_t. by rewrite Z.mod_small. Qed.

Lemma in_hand_le pc : in_hand pc <= 1.
Proof. destruct pc; cbn; lia. Qed.

Lemma counted_step s s' : counted s -> server_step s s' -> counted s'.
Proof.
  intros [He Hb Hp] Hstep. pose proof (in_hand_le (accept_pc s)). unfold MAX_CONCURRENT_CONNECTIONS in *.
  destruct Hstep; cbn [active_connections_ handlers accept_pc in_hand] in *;
    (constructor; cbn [active_connections_ handlers accept_pc in_hand length] in *; rewrite ?length_app in *; cbn [length] in *; unfold MAX_CONCURRENT_CONNECTIONS);
    try (intros ? Heq; first [discriminate Heq|injection Heq as <-|specialize (Hp _ Heq)]);
    try (specialize (Hp _ eq_refl)); rewrite ?add_size_t_exact by lia; unfold MAX_CONCURRENT_CONNECTIONS in *; lia.
Qed.

(** C34. The server never handles more than its limit of connections at a time: in
    every state it can reach, with whatever interleaving of accepting, handling,
    stopping and starting again, at most a thousand connections have a thread, and
    the counter is exact, without wrapping. *)
Theorem connections_bounded s :
  rtc server_step new_server s ->
  (Z.of_nat (length (handlers s)) <= MAX_CONCURRENT_CONNECTIONS)%Z /\
  active_connections_ s = Z.of_nat (length (handlers s) + in_hand (accept_pc s)).
Proof.
  intros Hrun. assert (counted s) as [He Hb _]; [|done].
  assert (forall a b, rtc server_step a b -> counted a -> counted b) as Hinv.
  { induction 1; eauto using counted_step. }
  apply (Hinv _ _ Hrun). constructor; cbn; unfold MAX_CONCURRENT_CONNECTIONS; try lia. done.
Qed.

(** ** Runs *)

Definition serving : Server := mkServer true true Checking Idle [7] 1 true.

Lemma serving_reached : rtc server_step new_server serving.
Proof.
  eapply rtc_l; [apply step_start|]. eapply rtc_l; [apply step_enter|]. eapply rtc_l; [apply step_accepts|].
  eapply rtc_l; [apply (step_spawn _ _ _ _ _ _ _ 7); unfold MAX_CONCURRENT_CONNECTIONS; lia|]. apply rtc_refl.
Qed.

Lemma connections_bounded_witness : (Z.of_nat (length (handlers serving)) <= MAX_CONCURRENT_CONNECTIONS)%Z /\ active_connections_ serving = 1%Z.
Proof. destruct (connections_bounded serving serving_reached) as [Hb Ha]. split; [exact Hb|exact Ha]. Defined.

(** Connections are not waited for: the server can be destroyed while a thread that
    uses it is running. *)
Example destroyed_under_a_handler : exists s,
  rtc server_step new_server s /\ exists_ s = false /\ handlers s = [7].
Proof.
  exists (mkServer false false NoThread Idle [7] 1 false). split; [|done].
  etransitivity; [apply serving_reached|].
  eapply rtc_l; [apply step_stop|]. eapply rtc_l; [apply step_close|]. eapply rtc_l; [apply step_leave|].
  eapply rtc_l; [apply step_join|]. eapply rtc_l; [apply step_destroy|]. apply rtc_refl.
Qed.
