(* ===== verification/Limits.v ===== *)
(** * Limits in time

    The state the daemon keeps by the clock: the rate limiter of the routes
    ([SimpleRateLimiter] of src/daemon/server_routes.cpp), the store of nonces
    against replay (src/security/nonce) and the pending authorization requests
    (src/daemon/handlers/oidc/pending_authorize_store.hpp).  Times are readings of
    [steady_clock] in nanoseconds, arguments of each call in the order it takes
    them; each object's mutex makes a call one step. *)

From stdpp Require Import relations.
From S2P Require Import Prelude CxxString CxxStd Oidc.

Open Scope string_scope.

Definition second : Z := 1000000000.
(** [duration_cast<seconds>(d).count()] rounds toward zero. *)
Definition seconds_of (d : Z) : Z := Z.quot d second.

Lemma seconds_of_ge d n : (0 < n)%Z -> (n <= seconds_of d <-> n * second <= d)%Z.
Proof.
  intros Hn. unfold seconds_of, second. destruct (Z_lt_le_dec d 0) as [Hneg|Hpos].
  - assert (Z.quot d 1000000000 <= 0)%Z; [|lia].
    rewrite <- (Z.opp_involutive d), Z.quot_opp_l by lia.
    pose proof (Z.quot_pos (- d) 1000000000 ltac:(lia) ltac:(lia)). lia.
  - rewrite Z.quot_div_nonneg by lia. pose proof (Z.div_mod d 1000000000 ltac:(lia)).
    pose proof (Z.mod_pos_bound d 1000000000 ltac:(lia)). nia.
Qed.

(** ** The rate limiter *)

Record RateLimitEntry := mkEntry { re_count : Z; re_window_start : Z }.

Section RateLimiter.
Context (max_requests window_seconds : Z).

(** [allow]: [now] is read first, a new entry's window starts at [t2]. *)
Definition allow (now t2 : Z) (key : string) (entries : gmap string RateLimitEntry) :
    bool * gmap string RateLimitEntry :=
  let entry := default (mkEntry 0 t2) (entries !! key) in
  let entry := if (window_seconds <=? seconds_of (now - re_window_start entry))%Z then mkEntry 0 now else entry in
  if (max_requests <=? re_count entry)%Z then (false, <[key := entry]> entries)
  else (true, <[key := mkEntry (re_count entry + 1) (re_window_start entry)]> entries).

(** A request: its two readings and its key. *)
Abbreviation request := (Z * Z * string)%type.

Definition allow_request (r : request) := allow r.1.1 r.1.2 r.2.

(** How many requests of [key] a run lets through, and the entries after it. *)
Fixpoint admitted (key : string) (rs : list request) (entries : gmap string RateLimitEntry) : Z :=
  match rs with
  | [] => 0
  | r :: rs =>
      let '(ok, entries') := allow_request r entries in
      ((if ok && String.eqb r.2 key then 1 else 0) + admitted key rs entries')%Z
  end.
Fixpoint after_requests (rs : list request) (entries : gmap string RateLimitEntry) : gmap string RateLimitEntry :=
  match rs with [] => entries | r :: rs => after_requests rs (allow_request r entries).2 end.

(** Readings never go back. *)
Fixpoint in_order (t : Z) (rs : list request) : Prop :=
  match rs with [] => True | r :: rs => (t <= r.1.1 <= r.1.2)%Z /\ in_order r.1.2 rs end.
(** The last of them. *)
Fixpoint last_time (t : Z) (rs : list request) : Z :=
  match rs with [] => t | r :: rs => last_time r.1.2 rs end.

Context (Hmax : (0 <= max_requests)%Z) (Hwindow : (0 < window_seconds)%Z).
Abbreviation window := (window_seconds * second)%Z.

(** What an entry holds at time [t]. *)
Definition entry_ok (t : Z) (entries : gmap string RateLimitEntry) : Prop :=
  forall key e, entries !! key = Some e -> (0 <= re_count e <= max_requests)%Z /\ (re_window_start e <= t)%Z.

Lemma allow_other now t2 key key' entries : key' <> key -> (allow now t2 key entries).2 !! key' = entries !! key'.
Proof. intros Hne. unfold allow. destruct (_ <=? re_count _)%Z; by apply lookup_insert_ne. Qed.

Lemma expired_iff now s : (window_seconds <=? seconds_of (now - s))%Z = true <-> (s + window <= now)%Z.
Proof. rewrite Z.leb_le, seconds_of_ge by done. lia. Qed.

(** A step on the entry of its own key. *)
Lemma allow_self now t2 key entries t :
  entry_ok t entries -> (t <= now <= t2)%Z ->
  let e := default (mkEntry 0 t2) (entries !! key) in
  exists e', (allow now t2 key entries).2 !! key = Some e' /\ (0 <= re_count e' <= max_requests)%Z /\
    (re_window_start e' <= t2)%Z /\
    if bool_decide (re_window_start e + window <= now)%Z
    then re_window_start e' = now /\ re_count e' = (if (allow now t2 key entries).1 then 1 else 0)%Z /\
         (0 < max_requests -> (allow now t2 key entries).1 = true)%Z
    else re_window_start e' = re_window_start e /\
         re_count e' = (re_count e + if (allow now t2 key entries).1 then 1 else 0)%Z.
Proof.
  intros Hok Ht e. unfold allow. fold e.
  assert (0 <= re_count e <= max_requests /\ re_window_start e <= t2)%Z as [Hc Hs].
  { subst e. destruct (entries !! key) as [e|] eqn:He; cbn; [|lia]. apply Hok in He. cbn. lia. }
  clearbody e. pose proof (expired_iff now (re_window_start e)) as Hx.
  destruct (window_seconds <=? seconds_of (now - re_window_start e))%Z;
    [rewrite bool_decide_eq_true_2 by (by apply Hx)|rewrite bool_decide_eq_false_2 by (intros H; by apply Hx in H)];
    cbn [re_count re_window_start];
    (destruct (max_requests <=? _)%Z eqn:Hle; cbn [fst snd]; rewrite lookup_insert_eq;
     eexists; (split; [done|]); cbn [re_count re_window_start]; boolify; lia).
Qed.

Lemma allow_ok now t2 key entries t :
  entry_ok t entries -> (t <= now <= t2)%Z -> entry_ok t2 (allow now t2 key entries).2.
Proof.
  intros Hok Ht key' e. destruct (decide (key' = key)) as [->|Hne].
  - destruct (allow_self now t2 key entries t Hok Ht) as (e' & He' & Hc & Hs & _).
    rewrite He'. by intros [= <-].
  - rewrite allow_other by done. intros He. apply Hok in He. lia.
Qed.

Lemma after_ok rs t entries :
  in_order t rs -> entry_ok t entries -> entry_ok (last_time t rs) (after_requests rs entries).
Proof.
  revert t entries. induction rs as [|[[now t2] key] rs IH]; intros t entries Hord Hok; [done|].
  destruct Hord as [Ht Hord]. cbn [last_time after_requests fst snd] in *. apply IH; [done|].
  by eapply allow_ok.
Qed.
(** What is left to admit before [start] + [window]. *)
Definition budget (start : Z) (key : string) (entries : gmap string RateLimitEntry) : Z :=
  match entries !! key with
  | None => max_requests
  | Some e => (if start <=? re_window_start e then max_requests else 2 * max_requests)%Z - re_count e
  end.

Lemma budget_step start key now t2 key' entries t :
  entry_ok t entries -> (start <= t)%Z -> (t <= now <= t2)%Z -> (now < start + window)%Z ->
  ((if (allow now t2 key' entries).1 && String.eqb key' key then 1 else 0) +
   budget start key (allow now t2 key' entries).2 <= budget start key entries)%Z.
Proof.
  intros Hok Hst Ht Hlt. unfold budget. destruct (String.eqb_spec key' key) as [->|Hne].
  2: { rewrite andb_false_r, allow_other by done. lia. }
  rewrite andb_true_r.
  destruct (allow_self now t2 key entries t Hok Ht) as (e' & He' & _ & _ & Hcase). rewrite He'.
  assert (0 < window)%Z as Hpos by (unfold second; lia).
  destruct (entries !! key) as [e|] eqn:He; cbn [default from_option id] in Hcase.
  - pose proof (Hok _ _ He). case_bool_decide as Hexp; destruct Hcase as [-> Hc]; [destruct Hc as [-> _]|rewrite Hc].
    + rewrite (proj2 (Z.leb_le start now)) by lia. destruct (Z.leb_spec start (re_window_start e)); [lia|].
      destruct (allow now t2 key entries).1; lia.
    + destruct (start <=? re_window_start e)%Z; lia.
  - rewrite bool_decide_eq_false_2 in Hcase by (cbn; lia). cbn [re_window_start re_count] in Hcase.
    destruct Hcase as [-> ->]. rewrite (proj2 (Z.leb_le start t2)) by lia. lia.
Qed.

Lemma admitted_budget start key rs t entries :
  entry_ok t entries -> (start <= t)%Z -> in_order t rs ->
  Forall (fun r => r.1.1 < start + window)%Z rs ->
  (admitted key rs entries <= budget start key entries)%Z.
Proof.
  revert t entries. induction rs as [|[[now t2] key'] rs IH]; intros t entries Hok Hst Hord Hall.
  - cbn [admitted]. unfold budget. destruct (entries !! key) as [e|] eqn:He; [|lia].
    apply Hok in He. destruct (start <=? re_window_start e)%Z; lia.
  - destruct Hord as [Ht Hord]. apply Forall_cons in Hall as [Hlt Hall]. cbn [fst snd] in *.
    cbn [admitted allow_request fst snd].
    pose proof (budget_step start key now t2 key' entries t Hok Hst Ht Hlt) as Hstep.
    unfold allow_request. cbn [fst snd].
    destruct (allow now t2 key' entries) as [ok entries'] eqn:Ha. cbn [fst snd] in *.
    assert (entry_ok t2 entries') as Hok' by (replace entries' with (allow now t2 key' entries).2 by (by rewrite Ha); by eapply allow_ok).
    specialize (IH t2 entries' Hok' ltac:(lia) Hord Hall). lia.
Qed.

(** C38. The limiter bounds the rate: whatever was asked before, of the requests in
    any stretch of time as long as the window, at most twice the maximum are let
    through for one key (the fixed windows may meet inside the stretch). *)
Theorem rate_bounded key t0 earlier start rs :
  in_order t0 earlier -> (last_time t0 earlier <= start)%Z -> in_order start rs ->
  Forall (fun r => r.1.1 < start + window)%Z rs ->
  (admitted key rs (after_requests earlier ∅) <= 2 * max_requests)%Z.
Proof.
  intros Hearlier Hstart Hord Hall.
  assert (entry_ok (last_time t0 earlier) (after_requests earlier ∅)) as Hok.
  { apply after_ok; [done|]. intros k e He. by rewrite lookup_empty in He. }
  assert (entry_ok start (after_requests earlier ∅)) as Hok'.
  { intros k e He. apply Hok in He. lia. }
  etrans; [by eapply (admitted_budget start)|]. unfold budget.
  destruct (_ !! key) as [e|] eqn:He; [|lia]. apply Hok' in He. destruct (start <=? _)%Z; lia.
Qed.

(** C40. A client is never shut out for good: if a request is admitted at all (the
    maximum is not zero), one made a full window after everything before it is
    admitted, whatever the key, however many requests were refused. *)
Theorem rate_recovers key t0 earlier now t2 :
  (0 < max_requests)%Z -> in_order t0 earlier -> (last_time t0 earlier + window <= now <= t2)%Z ->
  (allow now t2 key (after_requests earlier ∅)).1 = true.
Proof.
  intros Hpos Hearlier Hnow.
  assert (entry_ok (last_time t0 earlier) (after_requests earlier ∅)) as Hok.
  { apply after_ok; [done|]. intros k e He. by rewrite lookup_empty in He. }
  assert (0 < window)%Z as Hw by (unfold second; lia).
  destruct (allow_self now t2 key (after_requests earlier ∅) (last_time t0 earlier) Hok ltac:(lia))
    as (e' & _ & Hc & _ & Hcase).
  destruct (_ !! key) as [e|] eqn:He; cbn [default from_option id] in Hcase.
  - apply Hok in He. rewrite bool_decide_eq_true_2 in Hcase by lia. by apply Hcase.
  - unfold allow. rewrite He. cbn [default from_option id re_window_start].
    destruct (window_seconds <=? seconds_of (now - t2))%Z eqn:Hx.
    + cbn [re_count]. destruct (Z.leb_spec max_requests 0); [lia|done].
    + cbn [re_count]. destruct (Z.leb_spec max_requests 0); [lia|done].
Qed.
End RateLimiter.

(** ** Nonces *)

Record NonceStorage := mkNonces {
  ns_nonces : gmap string Z; ns_last_cleanup : Z; ns_expiry_seconds : Z; ns_cleanup_interval_seconds : Z;
}.

Definition nonce_check_and_store (now : Z) (storage : NonceStorage) (nonce : string) : bool * NonceStorage :=
  match ns_nonces storage !! nonce with
  | Some _ => (false, storage)
  | None => (true, mkNonces (<[nonce := now]> (ns_nonces storage)) (ns_last_cleanup storage)
                     (ns_expiry_seconds storage) (ns_cleanup_interval_seconds storage))
  end.

Definition nonce_cleanup (now : Z) (storage : NonceStorage) : NonceStorage :=
  let cutoff := (now - ns_expiry_seconds storage * second)%Z in
  mkNonces (base.filter (fun kv => (cutoff <= kv.2)%Z) (ns_nonces storage)) now
    (ns_expiry_seconds storage) (ns_cleanup_interval_seconds storage).

Definition nonce_maybe_cleanup (t1 t2 : Z) (storage : NonceStorage) : NonceStorage :=
  if (ns_cleanup_interval_seconds storage <=? seconds_of (t1 - ns_last_cleanup storage))%Z
  then nonce_cleanup t2 storage else storage.

Definition nonce_size (storage : NonceStorage) : nat := base.size (ns_nonces storage).

(** [NonceStore]: the object and its locked operations. *)
Definition new_nonce_store (expiry_seconds cleanup_interval_seconds : Z) : NonceStorage :=
  mkNonces ∅ 0 expiry_seconds cleanup_interval_seconds.
Definition check_and_store (t1 t2 t3 : Z) (nonce : string) (storage : NonceStorage) : bool * NonceStorage :=
  nonce_check_and_store t3 (nonce_maybe_cleanup t1 t2 storage) nonce.

(** Calls on one store, with the time of the last reading. *)
Inductive nonce_step : Z * NonceStorage -> Z * NonceStorage -> Prop :=
  | step_check now t1 t2 t3 nonce s :
      (now <= t1 <= t2)%Z -> (t2 <= t3)%Z -> nonce_step (now, s) (t3, (check_and_store t1 t2 t3 nonce s).2)
  | step_cleanup now t s : (now <= t)%Z -> nonce_step (now, s) (t, nonce_cleanup t s).

Section Nonces.
Context (expiry interval : Z) (Hexpiry : (0 <= expiry)%Z) (Hinterval : (0 < interval)%Z).

(** Nothing in the store is older than the last cleanup allowed. *)
Definition nonces_ok (p : Z * NonceStorage) : Prop :=
  ns_expiry_seconds p.2 = expiry /\ ns_cleanup_interval_seconds p.2 = interval /\
  (ns_last_cleanup p.2 <= p.1)%Z /\
  forall n t, ns_nonces p.2 !! n = Some t -> (t <= p.1)%Z /\ (ns_last_cleanup p.2 <= t + expiry * second)%Z.

Lemma cleanup_ok now t s : nonces_ok (now, s) -> (now <= t)%Z -> nonces_ok (t, nonce_cleanup t s).
Proof.
  intros (He & Hi & Hl & Hall) Ht. unfold nonces_ok, nonce_cleanup. cbn in *. split_and!; try done.
  intros n t' Hn. apply map_lookup_filter_Some in Hn as [Hn Hcut]. apply Hall in Hn. cbn in Hcut.
  rewrite He in Hcut. lia.
Qed.

Lemma maybe_cleanup_ok now t1 t2 s :
  nonces_ok (now, s) -> (now <= t1 <= t2)%Z -> nonces_ok (t2, nonce_maybe_cleanup t1 t2 s).
Proof.
  intros Hok Ht. unfold nonce_maybe_cleanup. destruct (_ <=? _)%Z; [eapply cleanup_ok; [done|lia]|].
  destruct Hok as (He & Hi & Hl & Hall). split_and!; try done; cbn in *; [lia|].
  intros n t Hn. apply Hall in Hn. lia.
Qed.

Lemma nonce_step_ok p p' : nonce_step p p' -> nonces_ok p -> nonces_ok p'.
Proof.
  destruct 1 as [now t1 t2 t3 n s Ht Ht3|now t s Ht]; intros Hok; [|by eapply cleanup_ok].
  pose proof (maybe_cleanup_ok _ _ _ _ Hok Ht) as (He & Hi & Hl & Hall).
  unfold check_and_store, nonce_check_and_store. cbn [fst snd] in *.
  destruct (ns_nonces (nonce_maybe_cleanup t1 t2 s) !! n) as [t0|] eqn:Hn; cbn [snd].
  - split_and!; try done; cbn [fst snd]; [lia|]. intros n' t' Hn'. apply Hall in Hn'. lia.
  - unfold nonces_ok. cbn. split_and!; try done; [lia|]. intros n' t' Hn'.
    apply lookup_insert_Some in Hn' as [[<- <-]|[_ Hn']]; [unfold second; lia|apply Hall in Hn'; lia].
Qed.

Lemma nonce_run_ok p p' : rtc nonce_step p p' -> nonces_ok p -> nonces_ok p'.
Proof. induction 1 as [|p p1 p' Hp _ IH]; [done|]. intros Hok. by eapply IH, nonce_step_ok. Qed.

Lemma new_store_ok now : (0 <= now)%Z -> nonces_ok (now, new_nonce_store expiry interval).
Proof. intros Hnow. split_and!; done. Qed.

(** A nonce younger than [expiry] stays. *)
Lemma stored_stays n t0 p p' :
  nonce_step p p' -> nonces_ok p -> ns_nonces p.2 !! n = Some t0 -> (p'.1 <= t0 + expiry * second)%Z ->
  ns_nonces p'.2 !! n = Some t0.
Proof.
  assert (forall now t s, nonces_ok (now, s) -> ns_nonces s !! n = Some t0 -> (t <= t0 + expiry * second)%Z ->
    ns_nonces (nonce_cleanup t s) !! n = Some t0) as Hclean.
  { intros now t s (He & _) Hn Ht. apply map_lookup_filter_Some. split; [done|]. cbn in *. rewrite He. lia. }
  destruct 1 as [now t1 t2 t3 m s Ht Ht3|now t s Ht]; intros Hok Hn Hlt; cbn [fst snd] in *; [|by eapply Hclean].
  assert (ns_nonces (nonce_maybe_cleanup t1 t2 s) !! n = Some t0) as Hn'.
  { unfold nonce_maybe_cleanup. destruct (_ <=? _)%Z; [|done]. eapply Hclean; [done..|lia]. }
  unfold check_and_store, nonce_check_and_store. destruct (ns_nonces (nonce_maybe_cleanup t1 t2 s) !! m) eqn:Hm; [done|].
  cbn. rewrite lookup_insert_ne; [done|]. intros ->. congruence.
Qed.

Lemma step_time p p' : nonce_step p p' -> (p.1 <= p'.1)%Z.
Proof. destruct 1; cbn; lia. Qed.

Lemma run_stays n t0 p p' :
  rtc nonce_step p p' -> nonces_ok p -> ns_nonces p.2 !! n = Some t0 -> (p'.1 <= t0 + expiry * second)%Z ->
  ns_nonces p'.2 !! n = Some t0.
Proof.
  induction 1 as [|p p1 p' Hp Hrun IH]; intros Hok Hn Ht; [done|].
  assert (p1.1 <= p'.1)%Z as Ht1.
  { clear -Hrun. induction Hrun as [|p p1 p' Hp _ IH]; [done|]. apply step_time in Hp. lia. }
  apply IH; [by eapply nonce_step_ok| |done]. eapply stored_stays; [done..|lia].
Qed.

(** A nonce is accepted once: after it was, whatever else the store is asked,
    presenting it again within the expiry time is refused. *)
Theorem nonce_replay_refused now0 now s n t1 t2 t3 now' s' t1' t2' t3' :
  (0 <= now0)%Z -> rtc nonce_step (now0, new_nonce_store expiry interval) (now, s) ->
  (now <= t1 <= t2)%Z -> (t2 <= t3)%Z -> (check_and_store t1 t2 t3 n s).1 = true ->
  rtc nonce_step (t3, (check_and_store t1 t2 t3 n s).2) (now', s') ->
  (now' <= t1' <= t2')%Z -> (t2' <= t3')%Z -> (t3' <= t3 + expiry * second)%Z ->
  (check_and_store t1' t2' t3' n s').1 = false.
Proof.
  intros H0 Hrun Ht Ht3 Hacc Hlater Ht' Ht3' Hexp.
  pose proof (nonce_run_ok _ _ Hrun (new_store_ok now0 H0)) as Hok.
  pose proof (nonce_step_ok _ _ (step_check now t1 t2 t3 n s Ht Ht3) Hok) as Hok1.
  assert (ns_nonces (check_and_store t1 t2 t3 n s).2 !! n = Some t3) as Hn.
  { revert Hacc. unfold check_and_store, nonce_check_and_store. destruct (_ !! n); [done|]. intros _. cbn.
    apply lookup_insert_eq. }
  pose proof (run_stays n t3 _ _ Hlater Hok1 Hn ltac:(cbn; lia)) as Hn'. cbn [snd] in Hn'.
  assert (ns_nonces (nonce_maybe_cleanup t1' t2' s') !! n = Some t3) as Hn2.
  { unfold nonce_maybe_cleanup. destruct (_ <=? _)%Z; [|done]. apply map_lookup_filter_Some. split; [done|].
    pose proof (nonce_run_ok _ _ Hlater Hok1) as (He & _). cbn in *. rewrite He. lia. }
  unfold check_and_store, nonce_check_and_store. by rewrite Hn2.
Qed.

(** A nonce does not block for ever: in every state the store can reach, one
    stored at [t0] is accepted again once more than the expiry time and the
    interval between cleanups have passed, though cleanups only happen inside
    checks. *)
Theorem nonce_freed now0 now s n t0 t1 t2 t3 :
  (0 <= now0)%Z -> rtc nonce_step (now0, new_nonce_store expiry interval) (now, s) ->
  ns_nonces s !! n = Some t0 -> (now <= t1 <= t2)%Z -> (t2 <= t3)%Z ->
  (t0 + (expiry + interval) * second < t1)%Z ->
  (check_and_store t1 t2 t3 n s).1 = true.
Proof.
  intros H0 Hrun Hn Ht Ht3 Hlate.
  pose proof (nonce_run_ok _ _ Hrun (new_store_ok now0 H0)) as (He & Hi & _ & Hall). cbn [fst snd] in *.
  pose proof (Hall _ _ Hn) as [_ Hlast].
  unfold check_and_store, nonce_check_and_store, nonce_maybe_cleanup. rewrite Hi.
  rewrite (proj2 (Z.leb_le interval _)) by (apply seconds_of_ge; lia).
  destruct (ns_nonces (nonce_cleanup t2 s) !! n) as [t|] eqn:Hc; [|done].
  apply map_lookup_filter_Some in Hc as [Hc Hcut]. cbn in Hcut. rewrite He in Hcut.
  rewrite Hn in Hc. injection Hc as <-. unfold second in *. lia.
Qed.
End Nonces.

(** ** Pending authorization requests *)

Record PendingEntry := mkPendingEntry { pe_request : AuthorizeRequest; pe_expiry : Z }.
Abbreviation pending := (gmap string PendingEntry).

Definition cleanupLocked (now : Z) (entries : pending) : pending :=
  base.filter (fun kv => (now <= pe_expiry kv.2)%Z) entries.

(** [store], with the reading of the cleanup, the token drawn and the second reading. *)
Definition store_pending (ttl_seconds t1 : Z) (token : string) (t2 : Z) (req : AuthorizeRequest)
    (entries : pending) : string * pending :=
  (token, <[token := mkPendingEntry req (t2 + ttl_seconds * second)]> (cleanupLocked t1 entries)).

Definition take (now : Z) (token : string) (entries : pending) : option AuthorizeRequest * pending :=
  match entries !! token with
  | None => (None, entries)
  | Some e => (if (pe_expiry e <? now)%Z then None else Some (pe_request e), delete token entries)
  end.

Definition peek (now : Z) (token : string) (entries : pending) : option AuthorizeRequest * pending :=
  match entries !! token with
  | None => (None, entries)
  | Some e => if (pe_expiry e <? now)%Z then (None, delete token entries) else (Some (pe_request e), entries)
  end.

Inductive pending_step : pending -> pending -> Prop :=
  | pending_store ttl t1 token t2 req s : pending_step s (store_pending ttl t1 token t2 req s).2
  | pending_take now token s : pending_step s (take now token s).2
  | pending_peek now token s : pending_step s (peek now token s).2.

(** Calls that do not store under [token]. *)
Definition quiet_step (token : string) (s s' : pending) : Prop :=
  (exists ttl t1 token' t2 req, token' <> token /\ s' = (store_pending ttl t1 token' t2 req s).2) \/
  (exists now token', s' = (take now token' s).2) \/ (exists now token', s' = (peek now token' s).2).

(** A request that was taken is gone: no later call finds it. *)
Lemma taken_is_gone token now s req s' s'' now' :
  take now token s = (Some req, s') -> rtc (quiet_step token) s' s'' ->
  take now' token s'' = (None, s'') /\ peek now' token s'' = (None, s'').
Proof.
  intros Htake Hrun. assert (s'' !! token = None) as Hnone; [|unfold take, peek; by rewrite Hnone].
  assert (s' !! token = None) as Hs'.
  { unfold take in Htake. destruct (s !! token) as [e|]; [|done].
    destruct (pe_expiry e <? now)%Z; [done|]. injection Htake as _ <-. apply lookup_delete_eq. }
  clear Htake. induction Hrun as [|s1 s2 s3 Hstep _ IH]; [done|]. apply IH.
  destruct Hstep as [(ttl & t1 & token' & t2 & r & Hne & ->)|[(t & token' & ->)|(t & token' & ->)]].
  - cbn. rewrite lookup_insert_ne by done. apply map_lookup_filter_None. by left.
  - unfold take. destruct (s1 !! token') as [e|]; [|done]. cbn. apply lookup_delete_None. by right.
  - unfold peek. destruct (s1 !! token') as [e|]; [|done]. destruct (_ <? _)%Z; [|done]. cbn.
    apply lookup_delete_None. by right.
Qed.

(** ** Runs *)

(** Two requests a second. *)
Definition demo_earlier : list (Z * Z * string) := [(0, 0, "a"); (900000000, 900000000, "a"); (950000000, 950000000, "a")]%Z.
Definition demo_burst : list (Z * Z * string) :=
  [(960000000, 960000000, "a"); (1100000000, 1100000000, "a"); (1200000000, 1200000000, "a");
   (1300000000, 1300000000, "b")]%Z.

Lemma rate_bounded_witness :
  admitted 2 1 "a" demo_burst (after_requests 2 1 demo_earlier ∅) = 2%Z /\
  (admitted 2 1 "a" demo_burst (after_requests 2 1 demo_earlier ∅) <= 2 * 2)%Z.
Proof.
  split; [vm_compute; reflexivity|].
  apply (rate_bounded 2 1 ltac:(lia) ltac:(lia) "a" 0 demo_earlier 955000000 demo_burst).
  - cbn [in_order last_time demo_earlier demo_burst fst snd]; repeat split; lia.
  - cbn [in_order last_time demo_earlier demo_burst fst snd]; repeat split; lia.
  - cbn [in_order last_time demo_earlier demo_burst fst snd]; repeat split; lia.
  - repeat constructor.
Defined.

Lemma rate_recovers_witness :
  (allow 2 1 960000000 960000000 "a" (after_requests 2 1 demo_earlier ∅)).1 = false /\
  (allow 2 1 1950000000 1950000000 "a" (after_requests 2 1 demo_earlier ∅)).1 = true.
Proof.
  split; [vm_compute; reflexivity|].
  apply (rate_recovers 2 1 ltac:(lia) ltac:(lia) "a" 0 demo_earlier 1950000000 1950000000).
  - lia.
  - cbn [in_order last_time demo_earlier demo_burst fst snd]; repeat split; lia.
  - cbn [last_time demo_earlier fst snd]. unfold second. lia.
Defined.

Definition fresh_store : NonceStorage := new_nonce_store 300 60.
Definition stored_once : NonceStorage := (check_and_store second second second "n" fresh_store).2.

Lemma nonce_replay_refused_witness :
  (check_and_store second second second "n" fresh_store).1 = true /\
  (check_and_store (301 * second) (301 * second) (301 * second) "n" stored_once).1 = false.
Proof.
  assert ((check_and_store second second second "n" fresh_store).1 = true) as Hacc by (vm_compute; reflexivity).
  split; [exact Hacc|].
  apply (nonce_replay_refused 300 60 ltac:(lia) 0 0 fresh_store "n" second second second second
           stored_once (301 * second) (301 * second) (301 * second));
    unfold second; [lia|constructor|lia|lia|exact Hacc|constructor|lia|lia|lia].
Defined.

Lemma nonce_freed_witness :
  (check_and_store (362 * second) (362 * second) (362 * second) "n" stored_once).1 = true.
Proof.
  apply (nonce_freed 300 60 ltac:(lia) ltac:(lia) 0 second stored_once "n" second
           (362 * second) (362 * second) (362 * second));
    [lia| |vm_compute; reflexivity|unfold second; lia|lia|unfold second; lia].
  apply rtc_once. apply (step_check 0 second second second "n" fresh_store); unfold second; lia.
Defined.
