(* ===== verification/Jwt.v ===== *)
(** * Bearer tokens

    Models src/security/jwt/jwt_validator.cpp and multi_alg_jwt_validator.cpp: the
    HS256 validator and the choice of validator by the token's header.  HMAC and
    the RS256 validator are arguments; TokenIssuer.v models the latter
    (rs_jwt_validator.cpp). *)

From S2P Require Import Prelude CxxString CxxStd Json Base64.

Open Scope string_scope.

Record JwtClaims := mkClaims {
  jc_user_id : string; jc_username : string; jc_exp : Z; jc_tenant_id : string; jc_scope : string;
  jc_aud : string; jc_iss : string; jc_role : string;
}.

(** The loop that splits a token at its first two dots. *)
Fixpoint split_token (dots : nat) (token : string) : list string :=
  match token with
  | EmptyString => [""]
  | String c rest =>
      if Ascii.eqb c "." && (dots <? 2)%nat then "" :: split_token (S dots) rest
      else match split_token dots rest with
           | p :: ps => String c p :: ps
           | [] => [String c ""]
           end
  end.

(** The loop that gathers the differing bits of two texts of one size. *)
Definition same_hex (expected provided : string) : bool :=
  if negb (String.length expected =? String.length provided)%nat then false
  else (xor_all expected provided 0 =? 0)%Z.

(** [try { ... } catch (const std::exception&) { return std::nullopt; }] *)
Definition or_nullopt {A} (r : Result (option A)) : Result (option A) :=
  match r with Throw _ => Ok None | r => r end.

Section Jwt.
Context {jl : JsonLib} (hmac_sha256 : string -> string -> string).

Definition validate (secret : string) (now : Z) (token : string) : Result (option JwtClaims) :=
  if is_empty secret then Ok None
  else
    match split_token 0 token with
    | [header; payload; signature] =>
        if is_empty header || is_empty payload || is_empty signature then Ok None
        else if negb (same_hex (hmac_sha256 secret (header +:+ ("." +:+ payload))) (base64url_to_hex signature))
        then Ok None
        else or_nullopt (
          match parse (base64url_decode payload) with
          | None => Throw (json_error 101)
          | Some claims =>
              user_id ← value_string claims "sub" "";
              username ← value_string claims "username" "";
              exp ← value_int64 claims "exp" 0;
              if is_empty user_id then Ok None
              else if (0 <? exp)%Z && (exp <? now)%Z then Ok None
              else Ok (Some (mkClaims user_id username exp "" "" "" "" ""))
          end)
    | _ => Ok None
    end.

(** [MultiAlgJwtValidator::peekAlgorithm] *)
Definition peekAlgorithm (token : string) : Result (option string) :=
  match find_char "." token with
  | None | Some 0 => Ok None
  | Some dot =>
      or_nullopt (
        match parse (base64url_decode (string_take dot token)) with
        | None => Throw (json_error 101)
        | Some header => alg ← value_string header "alg" ""; Ok (Some alg)
        end)
  end.

(** What [RsJwtValidator::validate] answers for a key, an issuer and a token. *)
Context (rs_validate : string -> string -> string -> option JwtClaims).

Definition bearer_prefix : string := "Bearer ".

(** [fromRequest], of the Authorization header. *)
Definition fromRequest (auth_header hs256Secret rs256PublicKeyPem rs256Issuer : string) (now : Z) :
    Result (option JwtClaims) :=
  if (String.length auth_header <=? String.length bearer_prefix)%nat ||
     negb (String.eqb (string_take (String.length bearer_prefix) auth_header) bearer_prefix) then Ok None
  else
    let token := string_drop (String.length bearer_prefix) auth_header in
    alg ← peekAlgorithm token;
    match alg with
    | None => Ok None
    | Some alg =>
        if String.eqb alg "HS256" then
          if is_empty hs256Secret then Ok None else validate hs256Secret now token
        else if String.eqb alg "RS256" then
          if is_empty rs256PublicKeyPem then Ok None
          else Ok (if is_empty rs256PublicKeyPem then None else rs_validate rs256PublicKeyPem rs256Issuer token)
        else Ok None
    end.

(** ** What a token that is accepted has *)

Definition no_dot (s : string) : Prop := string_forallb (fun c => negb (Ascii.eqb c ".")) s = true.

Lemma split_token_two s : split_token 2 s = [s].
Proof.
  induction s as [|c s IH]; [done|]. cbn [split_token]. change (2 <? 2)%nat with false. by rewrite andb_false_r, IH.
Qed.

Lemma split_token_next dots s :
  (dots < 2)%nat -> no_dot s /\ split_token dots s = [s] \/
  exists a b, s = a +:+ String "." b /\ no_dot a /\ split_token dots s = a :: split_token (S dots) b.
Proof.
  intros Hd. induction s as [|c s IH]; [by left|]. cbn [split_token]. rewrite (proj2 (Nat.ltb_lt _ _) Hd).
  destruct (Ascii.eqb_spec c ".") as [->|Hc]; cbn [andb].
  - right. by exists "", s.
  - apply Ascii.eqb_neq in Hc. destruct IH as [[Hs ->]|(a & b & -> & Ha & ->)].
    + left. unfold no_dot in *. cbn [string_forallb]. by rewrite Hc, Hs.
    + right. exists (String c a), b. unfold no_dot in *. cbn [string_forallb]. by rewrite Hc, Ha.
Qed.

Lemma split_token_three token h p s :
  split_token 0 token = [h; p; s] -> token = h +:+ ("." +:+ (p +:+ ("." +:+ s))) /\ no_dot h /\ no_dot p.
Proof.
  destruct (split_token_next 0 token) as [[_ ->]|(a & b & -> & Ha & ->)]; [lia|done|].
  destruct (split_token_next 1 b) as [[_ ->]|(a' & b' & -> & Ha' & ->)]; [lia|done|].
  rewrite split_token_two. by intros [= <- <- <-].
Qed.

Lemma split_token_app h p s :
  no_dot h -> no_dot p -> split_token 0 (h +:+ ("." +:+ (p +:+ ("." +:+ s)))) = [h; p; s].
Proof.
  assert (forall dots a b, (dots < 2)%nat -> no_dot a -> split_token dots (a +:+ ("." +:+ b)) = a :: split_token (S dots) b) as Hs.
  { intros dots a b Hd. induction a as [|c a IH]; intros Ha.
    - change ("" +:+ ("." +:+ b)) with (String "." b). cbn [split_token].
      by rewrite (proj2 (Nat.ltb_lt _ _) Hd).
    - unfold no_dot in *. cbn [string_forallb] in Ha. apply andb_prop in Ha as [Hc Ha].
      rewrite string_app_cons. cbn [split_token]. apply negb_true_iff in Hc. by rewrite Hc, IH. }
  intros Hh Hp. rewrite Hs, Hs, split_token_two by (done || lia). done.
Qed.

Lemma same_hex_eq a b : same_hex a b = true <-> a = b.
Proof. exact (timing_safe_equal_eq a b). Qed.

(** What HS256 validation accepts, exactly: a secret is configured, the token
    is three non-empty parts, its signature decodes to the HMAC of the first two
    under the secret, the payload is JSON with a non-empty "sub", and the token has
    not expired; a token with no expiry, or one not after 1970, never does.  The
    claims are the payload's; tenant, scope and role are never read from it. *)
Theorem validate_iff secret now token claims :
  validate secret now token = Ok (Some claims) <->
  exists header payload signature body user username exp,
    secret <> "" /\ token = header +:+ ("." +:+ (payload +:+ ("." +:+ signature))) /\
    no_dot header /\ no_dot payload /\ header <> "" /\ payload <> "" /\ signature <> "" /\
    base64url_to_hex signature = hmac_sha256 secret (header +:+ ("." +:+ payload)) /\
    parse (base64url_decode payload) = Some body /\
    value_string body "sub" "" = Ok user /\ user <> "" /\ value_string body "username" "" = Ok username /\
    value_int64 body "exp" 0 = Ok exp /\ (exp <= 0 \/ now <= exp)%Z /\
    claims = mkClaims user username exp "" "" "" "" "".
Proof.
  split.
  - unfold validate. destruct (is_empty secret) eqn:Hsec; [done|]. apply is_empty_false in Hsec.
    destruct (split_token 0 token) as [|h [|p [|s [|? ?]]]] eqn:Hsplit; try done.
    apply split_token_three in Hsplit as (-> & Hh & Hp).
    destruct (is_empty h || is_empty p || is_empty s) eqn:Hemp; [done|].
    destruct (same_hex _ _) eqn:Hsig; [|done]. cbn [negb]. apply same_hex_eq in Hsig.
    destruct (parse _) as [body|] eqn:Hparse; [|done].
    destruct (value_string body "sub" "") as [user|er|x|] eqn:Hu; try done; cbn [mbind Result_bind].
    destruct (value_string body "username" "") as [username|er|x|] eqn:Hn; try done; cbn [mbind Result_bind].
    destruct (value_int64 body "exp" 0) as [exp|er|x|] eqn:He; try done; cbn [mbind Result_bind].
    destruct (is_empty user) eqn:Hemp2; [done|]. destruct ((0 <? exp)%Z && (exp <? now)%Z) eqn:Hexp; [done|].
    intros [= <-]. boolify. exists h, p, s, body, user, username, exp.
    repeat match goal with H : is_empty _ = false |- _ => apply is_empty_false in H end.
    split_and!; try done. apply andb_false_iff in Hexp as [Hx|Hx]; boolify; lia.
  - intros (h & p & s & body & user & username & exp & Hsec & -> & Hh & Hp & Nh & Np & Ns & Hsig & Hparse & Hu &
            Nu & Hn & He & Hexp & ->).
    unfold validate. rewrite (proj2 (is_empty_false _) Hsec), split_token_app by done.
    rewrite (proj2 (is_empty_false _) Nh), (proj2 (is_empty_false _) Np), (proj2 (is_empty_false _) Ns).
    cbn [orb]. rewrite Hsig, (proj2 (same_hex_eq _ _) eq_refl). cbn [negb]. rewrite Hparse, Hu. cbn [mbind Result_bind].
    rewrite Hn. cbn [mbind Result_bind]. rewrite He. cbn [mbind Result_bind].
    rewrite (proj2 (is_empty_false _) Nu).
    destruct (Z.ltb_spec 0 exp), (Z.ltb_spec exp now); cbn [andb]; try done. lia.
Qed.

Lemma string_take_drop_eq n s a : string_take n s = a -> s = a +:+ string_drop n s.
Proof. intros <-. by rewrite string_take_drop. Qed.

(** Each algorithm is checked with its own key: claims are answered only for a
    header "Bearer" and a token whose own header names HS256 or RS256, and then
    only by the validator of that algorithm with the key configured for it; no
    other algorithm, "none" among them, and no algorithm without a key, is
    accepted. *)
Theorem fromRequest_sound auth_header hs pem iss now claims :
  fromRequest auth_header hs pem iss now = Ok (Some claims) ->
  exists token alg, auth_header = "Bearer " +:+ token /\ token <> "" /\ peekAlgorithm token = Ok (Some alg) /\
    (alg = "HS256" /\ hs <> "" /\ validate hs now token = Ok (Some claims) \/
     alg = "RS256" /\ pem <> "" /\ rs_validate pem iss token = Some claims).
Proof.
  unfold fromRequest. destruct (_ || _) eqn:Hb; [done|]. boolify. intros Hx.
  assert (auth_header = bearer_prefix +:+ string_drop (String.length bearer_prefix) auth_header) as Heq
    by (by apply string_take_drop_eq).
  set (token := string_drop (String.length bearer_prefix) auth_header) in *.
  destruct (peekAlgorithm token) as [[alg|]|er|x|] eqn:Halg; try done. cbn [mbind Result_bind] in Hx.
  exists token, alg. split; [done|]. split.
  { intros Hnil. rewrite Hnil in Heq. apply (f_equal String.length) in Heq. rewrite string_length_app in Heq.
    change (String.length "") with 0 in Heq. lia. }
  split; [done|]. destruct (String.eqb_spec alg "HS256") as [->|_].
  - left. destruct (is_empty hs) eqn:He; [done|]. by apply is_empty_false in He.
  - destruct (String.eqb_spec alg "RS256") as [->|_]; [|done]. right.
    destruct (is_empty pem) eqn:He; [done|]. apply is_empty_false in He. by injection Hx.
Qed.
End Jwt.

(** ** A token *)

(** The JSON texts of a header and a payload, spelled as they are. *)
Definition demo_header : string := "{alg:HS256}".
Definition demo_payload : string := "{sub:ada}".
#[local] Instance demo_json : JsonLib := {|
  dump_text _ := None;
  parse s :=
    if String.eqb s demo_header then Some (object [("alg", JString "HS256")])
    else if String.eqb s demo_payload then Some (object [("sub", JString "ada")]) else None;
  stod _ := None;
|}.
(** Not a real one. *)
Definition demo_hmac (key data : string) : string := base64url_to_hex (base64url_encode (key +:+ data)).
Definition demo_signed : string := base64url_encode demo_header +:+ ("." +:+ base64url_encode demo_payload).
Definition demo_token : string := demo_signed +:+ ("." +:+ base64url_encode ("k" +:+ demo_signed)).
Definition demo_claims : JwtClaims := mkClaims "ada" "" 0 "" "" "" "" "".

Lemma fromRequest_sound_witness :
  fromRequest demo_hmac (fun _ _ _ => None) ("Bearer " +:+ demo_token) "k" "" "" 1000 = Ok (Some demo_claims) /\
  exists token, "Bearer " +:+ demo_token = "Bearer " +:+ token /\ validate demo_hmac "k" 1000 token = Ok (Some demo_claims).
Proof.
  assert (fromRequest demo_hmac (fun _ _ _ => None) ("Bearer " +:+ demo_token) "k" "" "" 1000 = Ok (Some demo_claims))
    as Hx by (vm_compute; reflexivity).
  split; [exact Hx|].
  destruct (fromRequest_sound demo_hmac (fun _ _ _ => None) _ _ _ _ _ _ Hx)
    as (token & alg & Ht & _ & _ & [(_ & _ & Hv)|(_ & Hne & _)]).
  - exists token. split; [exact Ht|exact Hv].
  - destruct (Hne eq_refl).
Defined.
