(* ===== verification/AccessControl.v ===== *)
(** * Who may reach an entity

    The gate in front of the entity routes: the access rules a schema declares
    (src/core/loaders/relation_parser.cpp, src/core/schema_acl_registry.cpp), the
    configuration of tenants (src/auth/auth_config.cpp) and the checks of
    src/daemon/server_routes.cpp from the rate limiter to the call of the entity
    handler.  The HTTP library's request is a record of what the checks read. *)

From S2P Require Import Prelude CxxString CxxStd Json Base64 Jwt Limits.

Open Scope string_scope.

(** ** The rules of a schema *)

Record ACL := mkAcl {
  acl_create : gmap string bool; acl_read : gmap string bool; acl_update : gmap string bool;
  acl_del : gmap string bool; acl_roles : gmap string (list string);
}.
(** What the registry reads of an entity's schema; a field is a name and whether
    it is privileged. *)
Record AclSchema := mkAclSchema { as_fields : list (string * bool); as_acl : option ACL }.

(** The lambda [collectBooleans]. *)
Definition collectBooleans (permissions : gmap string bool) (conditions : json) : gmap string bool :=
  match conditions with
  | JObject m =>
      foldl (fun p kv => match kv.2 with JBool b => <[kv.1 := b]> p | _ => p end) permissions m
  | _ => permissions
  end.

Definition parseACLOperation (operationNode : json) : gmap string bool :=
  match operationNode with
  | JArray alternatives => foldl collectBooleans ∅ alternatives
  | v => collectBooleans ∅ v
  end.

Definition parseACLRoles (operationNode : json) : list string :=
  match operationNode with
  | JObject m =>
      match obj_get "role" m with
      | Some (JString r) => [r]
      | Some (JArray l) => omap (fun r => match r with JString s => Some s | _ => None end) l
      | _ => []
      end
  | _ => []
  end.

Definition permissions_of (aclNode : json) (op : string) : gmap string bool :=
  match member aclNode op with Some n => parseACLOperation n | None => ∅ end.

(** The loop over the four operations. *)
Definition role_lists (aclNode : json) : gmap string (list string) :=
  foldl (fun roles op =>
      match member aclNode op with
      | None => roles
      | Some n => match parseACLRoles n with [] => roles | rs => <[op := rs]> roles end
      end) ∅ ["create"; "read"; "update"; "delete"].

Definition parseACL (aclNode : json) : ACL :=
  mkAcl (permissions_of aclNode "create") (permissions_of aclNode "read") (permissions_of aclNode "update")
    (permissions_of aclNode "delete") (role_lists aclNode).

Section Registry.
Context (schemas_ : gmap string AclSchema).

Definition operationMap (acl : ACL) (method : string) : option (gmap string bool) :=
  if String.eqb method "create" then Some (acl_create acl)
  else if String.eqb method "read" then Some (acl_read acl)
  else if String.eqb method "update" then Some (acl_update acl)
  else if String.eqb method "delete" then Some (acl_del acl)
  else None.

(** A flag of the operation, as the three predicates look it up. *)
Definition operation_flag (entity method flag : string) : bool :=
  match schemas_ !! entity with
  | Some (mkAclSchema _ (Some acl)) =>
      match operationMap acl method with
      | Some opMap => default false (opMap !! flag)
      | None => false
      end
  | _ => false
  end.

Definition isSystemOnly (entity method : string) : bool := operation_flag entity method "system".
Definition isPublicWrite (entity method : string) : bool := operation_flag entity method "public".

Definition requiresAuthToRead (entity : string) : bool :=
  match schemas_ !! entity with
  | Some (mkAclSchema _ (Some acl)) =>
      match operationMap acl "read" with
      | Some opMap => if bool_decide (opMap = ∅) then false else negb (default false (opMap !! "public"))
      | None => false
      end
  | _ => false
  end.

Definition privilegedFields (entity : string) : list string :=
  match schemas_ !! entity with
  | Some s => (List.filter snd (as_fields s)).*1
  | None => []
  end.

Definition requiredRoles (entity method : string) : list string :=
  match schemas_ !! entity with
  | Some (mkAclSchema _ (Some acl)) => default [] (acl_roles acl !! method)
  | _ => []
  end.

Definition roleAllowed (entity method role : string) : bool :=
  match requiredRoles entity method with
  | [] => true
  | allowed => existsb (String.eqb role) allowed
  end.
End Registry.

(** ** The configuration of tenants *)

Record EntityAuthConfig := mkEntityAuth {
  ea_require_auth : bool; ea_inject_owner : bool; ea_filter_by_owner : bool; ea_check_ownership : bool;
}.
Record TenantAuthConfig := mkTenantAuth {
  ta_require_auth : bool; ta_cors_origin : string; ta_entities : gmap string EntityAuthConfig;
}.
Record AuthConfig := mkAuthConfig {
  ac_require_auth : bool; ac_cors_origin : string; ac_tenants : gmap string TenantAuthConfig;
}.

Definition getEntityConfig (c : AuthConfig) (tenant entity : string) : EntityAuthConfig :=
  match ac_tenants c !! tenant with
  | None => mkEntityAuth (ac_require_auth c) false false false
  | Some t =>
      match ta_entities t !! entity with
      | None => mkEntityAuth (ta_require_auth t) false false false
      | Some e => e
      end
  end.

Definition parseEntityNode (node : json) : Result EntityAuthConfig :=
  require_auth ← value_bool node "require_auth" false;
  inject_owner ← value_bool node "inject_owner" false;
  filter_by_owner ← value_bool node "filter_by_owner" false;
  check_ownership ← value_bool node "check_ownership" false;
  Ok (mkEntityAuth require_auth inject_owner filter_by_owner check_ownership).

Fixpoint parse_entities (nodes : list (string * json)) (entities : gmap string EntityAuthConfig) :
    Result (gmap string EntityAuthConfig) :=
  match nodes with
  | [] => Ok entities
  | (name, node) :: nodes => e ← parseEntityNode node; parse_entities nodes (<[name := e]> entities)
  end.

Definition parse_tenant (c : AuthConfig) (node : json) : Result TenantAuthConfig :=
  require_auth ← value_bool node "require_auth" (ac_require_auth c);
  cors_origin ← value_string node "cors_origin" (ac_cors_origin c);
  entities ← match member node "entities" with Some e => parse_entities (items e) ∅ | None => Ok ∅ end;
  Ok (mkTenantAuth require_auth cors_origin entities).

Fixpoint load_tenants (nodes : list (string * json)) : Op AuthConfig unit := fun c =>
  match nodes with
  | [] => (Ok tt, c)
  | (name, node) :: nodes =>
      match parse_tenant c node with
      | Ok t => load_tenants nodes (mkAuthConfig (ac_require_auth c) (ac_cors_origin c) (<[name := t]> (ac_tenants c)))
      | r => (recast r, c)
      end
  end.

Definition loadDefault : AuthConfig := mkAuthConfig false "http://localhost:3000" ∅.

(** [AuthConfig::load] of a file, parsed if it could be: an exception ends it with
    what was read so far. *)
Definition load_auth (file : option json) : AuthConfig :=
  match file with
  | None => loadDefault
  | Some root =>
      ((match member root "defaults" with
        | None => mret tt
        | Some d =>
            require_auth ← of_result (value_bool d "require_auth" false);
            modify (fun c => mkAuthConfig require_auth (ac_cors_origin c) (ac_tenants c));;
            cors_origin ← of_result (value_string d "cors_origin" "");
            modify (fun c => mkAuthConfig (ac_require_auth c) cors_origin (ac_tenants c))
        end;;
        match member root "tenants" with None => mret tt | Some t => load_tenants (items t) end) loadDefault).2
  end.

(** ** The routes *)

Inductive HttpMethod := Get | Post | Head | Put | Delete | Options | Patch | Invalid.
#[export] Instance HttpMethod_eq_dec : EqDecision HttpMethod.
Proof. solve_decision. Defined.

(** What the checks read of a request.  [hr_json] is what the HTTP library's
    [getJsonObject] answers: the body read as JSON when the Content-Type says JSON,
    nothing otherwise, whatever the body is. *)
Record HttpRequest := mkRequest {
  hr_method : HttpMethod; hr_authorization : string; hr_forwarded_for : string; hr_peer_ip : string;
  hr_json : option json;
}.

Definition rate_limit_key (req : HttpRequest) : string :=
  if negb (is_empty (hr_forwarded_for req)) then
    match find_char "," (hr_forwarded_for req) with
    | None => hr_forwarded_for req
    | Some comma => string_take comma (hr_forwarded_for req)
    end
  else hr_peer_ip req.

Definition acl_operation_for_method (method : HttpMethod) : string :=
  match method with
  | Post => "create" | Get => "read" | Put | Patch => "update" | Delete => "delete" | _ => "read"
  end.

Definition is_write_method (method : HttpMethod) : bool :=
  match method with Post | Put | Patch | Delete => true | _ => false end.

(** A response: its status and the error in its body. *)
Record Response := mkResponse { rs_status : Z; rs_error : string }.

Definition tenant_mismatch_rejection (claims : JwtClaims) (tenant : string) : option Response :=
  if is_empty (jc_tenant_id claims) then None
  else if String.eqb (jc_tenant_id claims) tenant || String.eqb tenant "system" then None
  else Some (mkResponse 403 "Token tenant does not match request tenant").

Record AuthContext := mkContext { cx_user_id : string; cx_tenant_id : string; cx_config : EntityAuthConfig }.

(** What a route does with a request: it answers, or lets the handler do it. *)
Inductive Outcome := Responded (r : Response) | Handled (auth_ctx : option AuthContext).

Record Limiters := mkLimiters { lim_read : gmap string RateLimitEntry; lim_mutation : gmap string RateLimitEntry }.

Section Gate.
Context {jl : JsonLib} (hmac_sha256 : string -> string -> string)
  (rs_validate : string -> string -> string -> option JwtClaims).
(** The registry, if it loaded; DBAL_ADMIN_TOKEN; the secret; the key and issuer of
    the OIDC service, if it is up; the configuration. *)
Context (registry : option (gmap string AclSchema)) (admin_token : option string) (jwt_secret : string)
  (oidc_service : option (string * string)) (auth_config : AuthConfig).
(** The limits, whether the client is up, and the clocks. *)
Context (max_read max_mutation : Z) (ensureClient : bool) (unix_time t1 t2 : Z).

Definition presents_admin_token (req : HttpRequest) : bool :=
  match admin_token with
  | Some tok => negb (is_empty tok) && timing_safe_equal (hr_authorization req) ("Bearer " +:+ tok)
  | None => false
  end.

Definition rs256_pubkey : string := match oidc_service with Some (pem, _) => pem | None => "" end.
Definition rs256_issuer : string := match oidc_service with Some (_, iss) => iss | None => "" end.

Definition claims_of (req : HttpRequest) : Result (option JwtClaims) :=
  fromRequest hmac_sha256 rs_validate (hr_authorization req) jwt_secret rs256_pubkey rs256_issuer unix_time.

(** [payload->isMember(name)] of the HTTP library's JSON value. *)
Definition isMember (payload : json) (name : string) : Result bool :=
  match payload with
  | JObject m => Ok (match obj_get name m with Some _ => true | None => false end)
  | JNull => Ok false
  | _ => Throw (runtime_error "Json::Value::find: requires objectValue or nullValue")
  end.

Fixpoint privileged_rejection (payload : json) (names : list string) : Result (option Response) :=
  match names with
  | [] => Ok None
  | name :: names =>
      set ← isMember payload name;
      if (set : bool)
      then Ok (Some (mkResponse 403 ("Field '" +:+ (name +:+ "' may not be set without signing in"))))
      else privileged_rejection payload names
  end.

Definition write_authz_rejection (req : HttpRequest) (tenant entity : string) : Result (option Response) :=
  match registry with
  | None => Ok None
  | Some reg =>
      if negb (is_write_method (hr_method req)) then Ok None
      else
        let op := acl_operation_for_method (hr_method req) in
        if presents_admin_token req then Ok None
        else
          claims ← claims_of req;
          if isPublicWrite reg entity op then
            match (claims : option JwtClaims) with
            | Some _ => Ok None
            | None =>
                match privilegedFields reg entity, hr_json req with
                | (_ :: _) as privileged, Some payload => privileged_rejection payload privileged
                | _, _ => Ok None
                end
            end
          else
            match claims with
            | None => Ok (Some (mkResponse 401 "Authentication required to modify this entity"))
            | Some claims =>
                match tenant_mismatch_rejection claims tenant with
                | Some wrong => Ok (Some wrong)
                | None =>
                    if negb (roleAllowed reg entity op (jc_role claims))
                    then Ok (Some (mkResponse 403 "Your role may not modify this entity"))
                    else Ok None
                end
            end
  end.

Definition read_authz_rejection (req : HttpRequest) (tenant entity : string) : Result (option Response) :=
  match registry with
  | None => Ok None
  | Some reg =>
      if negb (bool_decide (hr_method req = Get)) then Ok None
      else if negb (requiresAuthToRead reg entity) then Ok None
      else if presents_admin_token req then Ok None
      else
        claims ← claims_of req;
        match (claims : option JwtClaims) with
        | None => Ok (Some (mkResponse 401 "Authentication required to read this entity"))
        | Some claims =>
            match tenant_mismatch_rejection claims tenant with
            | Some wrong => Ok (Some wrong)
            | None =>
                if negb (roleAllowed reg entity "read" (jc_role claims))
                then Ok (Some (mkResponse 403 "Your role may not read this entity"))
                else Ok None
            end
        end
  end.

(** The [require_auth] block; [inl] is a response to send. *)
Definition auth_context (req : HttpRequest) (tenant entity : string) : Result (Response + option AuthContext) :=
  let entity_cfg := getEntityConfig auth_config tenant entity in
  if negb (ea_require_auth entity_cfg) then Ok (inr None)
  else if presents_admin_token req then Ok (inr None)
  else if is_empty jwt_secret && is_empty rs256_pubkey then
    Ok (inl (mkResponse 503 "Auth not configured (JWT_SECRET_KEY not set)"))
  else
    claims ← claims_of req;
    match (claims : option JwtClaims) with
    | None => Ok (inl (mkResponse 401 "Unauthorized"))
    | Some claims =>
        if negb (is_empty (jc_tenant_id claims)) && negb (String.eqb (jc_tenant_id claims) tenant) then
          Ok (inl (mkResponse 403 "Token tenant does not match request tenant"))
        else Ok (inr (Some (mkContext (jc_user_id claims) tenant entity_cfg)))
    end.

Definition isSystemOnly_rejection (req : HttpRequest) (entity : string) : option Response :=
  match registry with
  | Some reg =>
      if isSystemOnly reg entity (acl_operation_for_method (hr_method req))
      then Some (mkResponse 403 "This entity is system-managed and not reachable via the API") else None
  | None => None
  end.

(** The limiter of the route, under [key]. *)
Definition limited (req : HttpRequest) (key : string) : Op Limiters bool := fun l =>
  if bool_decide (hr_method req = Get) then
    let '(ok, e) := allow max_read 60 t1 t2 key (lim_read l) in (Ok ok, mkLimiters e (lim_mutation l))
  else
    let '(ok, e) := allow max_mutation 60 t1 t2 key (lim_mutation l) in (Ok ok, mkLimiters (lim_read l) e).

(** The part the three routes share; [with_context] is whether the handler is given
    the ownership context. *)
Definition entity_gate (key : string) (with_context : bool) (req : HttpRequest) (tenant entity : string) :
    Op Limiters Outcome :=
  if bool_decide (hr_method req = Options) then mret (Responded (mkResponse 204 ""))
  else
    ok ← limited req key;
    if negb ok then mret (Responded (mkResponse 429 ""))
    else if negb ensureClient then mret (Responded (mkResponse 503 "DBAL client is unavailable"))
    else
      match isSystemOnly_rejection req entity with
      | Some r => mret (Responded r)
      | None =>
          write ← of_result (write_authz_rejection req tenant entity);
          match (write : option Response) with
          | Some r => mret (Responded r)
          | None =>
              read ← of_result (read_authz_rejection req tenant entity);
              match (read : option Response) with
              | Some r => mret (Responded r)
              | None =>
                  ctx ← of_result (auth_context req tenant entity);
                  match (ctx : Response + option AuthContext) with
                  | inl r => mret (Responded r)
                  | inr ctx => mret (Handled (if with_context then ctx else None))
                  end
              end
          end
      end.

(** "/{tenant}/{package}/{entity}", ".../{id}" and ".../{id}/{action}". *)
Definition entity_route (req : HttpRequest) := entity_gate (rate_limit_key req) true req.
Definition entity_id_route (req : HttpRequest) := entity_gate (hr_peer_ip req) true req.
Definition entity_action_route (req : HttpRequest) := entity_gate (hr_peer_ip req) false req.
End Gate.

(** ** Who gets through *)

Section Entitled.
Context {jl : JsonLib} (hmac_sha256 : string -> string -> string)
  (rs_validate : string -> string -> string -> option JwtClaims).
Context (reg : gmap string AclSchema) (admin_token : option string) (jwt_secret : string)
  (oidc_service : option (string * string)) (auth_config : AuthConfig).
Context (max_read max_mutation : Z) (ensureClient : bool) (unix_time t1 t2 : Z).

Abbreviation claims_for := (claims_of hmac_sha256 rs_validate jwt_secret oidc_service unix_time).
Abbreviation gate key ctx := (entity_gate hmac_sha256 rs_validate (Some reg) admin_token jwt_secret oidc_service
  auth_config max_read max_mutation ensureClient unix_time t1 t2 key ctx).

(** The admin token: not empty, and sent to the letter. *)
Definition is_admin (req : HttpRequest) : Prop :=
  exists tok, admin_token = Some tok /\ tok <> "" /\ hr_authorization req = "Bearer " +:+ tok.

(** A valid token of this tenant, or of none, or any for the shared bucket, with
    a role the operation admits. *)
Definition may (req : HttpRequest) (tenant entity op : string) : Prop :=
  exists claims, claims_for req = Ok (Some claims) /\
    (jc_tenant_id claims = "" \/ jc_tenant_id claims = tenant \/ tenant = "system") /\
    (requiredRoles reg entity op = [] \/ jc_role claims ∈ requiredRoles reg entity op).

(** An operation the schema opens: to the signed in, and to anyone else for a
    body without privileged fields. *)
Definition open_write (req : HttpRequest) (entity op : string) : Prop :=
  operation_flag reg entity op "public" = true /\
  ((exists claims, claims_for req = Ok (Some claims)) \/
   forall m name, hr_json req = Some (JObject m) -> name ∈ privilegedFields reg entity -> obj_get name m = None).

Lemma presents_admin_iff req : presents_admin_token admin_token req = true <-> is_admin req.
Proof.
  unfold presents_admin_token, is_admin. destruct admin_token as [tok|]; [|naive_solver].
  rewrite andb_true_iff, negb_true_iff, is_empty_false, timing_safe_equal_eq. naive_solver.
Qed.

Lemma tenant_ok_iff claims tenant :
  tenant_mismatch_rejection claims tenant = None <->
  jc_tenant_id claims = "" \/ jc_tenant_id claims = tenant \/ tenant = "system".
Proof.
  unfold tenant_mismatch_rejection. destruct (is_empty (jc_tenant_id claims)) eqn:He.
  - apply is_empty_true in He. tauto.
  - apply is_empty_false in He. destruct (String.eqb_spec (jc_tenant_id claims) tenant),
      (String.eqb_spec tenant "system"); cbn [orb]; naive_solver.
Qed.

Lemma roleAllowed_iff entity op role :
  roleAllowed reg entity op role = true <->
  requiredRoles reg entity op = [] \/ role ∈ requiredRoles reg entity op.
Proof.
  unfold roleAllowed. destruct (requiredRoles reg entity op) as [|r rs]; [naive_solver|].
  rewrite existsb_exists. setoid_rewrite <- list_elem_of_In. split.
  - intros (x & Hx & ->%String.eqb_eq). by right.
  - intros [?|Hr]; [done|]. exists role. split; [done|apply String.eqb_refl].
Qed.

Lemma privileged_none m names :
  privileged_rejection (JObject m) names = Ok None -> forall name, name ∈ names -> obj_get name m = None.
Proof.
  induction names as [|n names IH]; intros H name Hin; [by apply elem_of_nil in Hin|].
  cbn [privileged_rejection isMember mbind Result_bind] in H. destruct (obj_get n m) as [v|] eqn:Hn; [done|].
  apply elem_of_cons in Hin as [->|Hin]; [done|by apply IH].
Qed.

Lemma write_gate_sound req tenant entity :
  write_authz_rejection hmac_sha256 rs_validate (Some reg) admin_token jwt_secret oidc_service unix_time
    req tenant entity = Ok None ->
  is_write_method (hr_method req) = true ->
  is_admin req \/ open_write req entity (acl_operation_for_method (hr_method req)) \/
  may req tenant entity (acl_operation_for_method (hr_method req)).
Proof.
  unfold write_authz_rejection. intros Hx Hw. rewrite Hw in Hx. cbn [negb] in Hx.
  set (op := acl_operation_for_method (hr_method req)) in *.
  destruct (presents_admin_token admin_token req) eqn:Hadm; [left; by apply presents_admin_iff|right].
  destruct (claims_for req) as [claims|er|x|] eqn:Hcl; try done. cbn [mbind Result_bind] in Hx.
  destruct (isPublicWrite reg entity op) eqn:Hpub; [left|right].
  - split; [done|]. destruct claims as [claims|]; [by left; exists claims|right].
    intros m name Hm Hin. destruct (privilegedFields reg entity) as [|p ps] eqn:Hp;
      [by apply elem_of_nil in Hin|]. rewrite Hm in Hx. by eapply privileged_none.
  - destruct claims as [claims|]; [|done]. exists claims. split; [done|].
    destruct (tenant_mismatch_rejection claims tenant) eqn:Ht; [done|]. apply tenant_ok_iff in Ht. split; [done|].
    apply roleAllowed_iff. by destruct (roleAllowed reg entity op (jc_role claims)).
Qed.

Lemma read_gate_sound req tenant entity :
  read_authz_rejection hmac_sha256 rs_validate (Some reg) admin_token jwt_secret oidc_service unix_time
    req tenant entity = Ok None ->
  hr_method req = Get -> requiresAuthToRead reg entity = true -> is_admin req \/ may req tenant entity "read".
Proof.
  unfold read_authz_rejection. intros Hx Hg Hr. rewrite bool_decide_eq_true_2 in Hx by done. rewrite Hr in Hx.
  cbn [negb] in Hx.
  destruct (presents_admin_token admin_token req) eqn:Hadm; [left; by apply presents_admin_iff|right].
  destruct (claims_for req) as [claims|er|x|] eqn:Hcl; try done. cbn [mbind Result_bind] in Hx.
  destruct claims as [claims|]; [|done]. exists claims. split; [done|].
  destruct (tenant_mismatch_rejection claims tenant) eqn:Ht; [done|]. apply tenant_ok_iff in Ht. split; [done|].
  apply roleAllowed_iff. by destruct (roleAllowed reg entity "read" (jc_role claims)).
Qed.

Lemma context_sound req tenant entity ctx :
  auth_context hmac_sha256 rs_validate admin_token jwt_secret oidc_service auth_config unix_time
    req tenant entity = Ok (inr ctx) ->
  ea_require_auth (getEntityConfig auth_config tenant entity) = true ->
  is_admin req /\ ctx = None \/
  exists claims, claims_for req = Ok (Some claims) /\ (jc_tenant_id claims = "" \/ jc_tenant_id claims = tenant) /\
    ctx = Some (mkContext (jc_user_id claims) tenant (getEntityConfig auth_config tenant entity)).
Proof.
  unfold auth_context. intros Hx Hreq. rewrite Hreq in Hx. cbn [negb] in Hx.
  destruct (presents_admin_token admin_token req) eqn:Hadm.
  { left. injection Hx as <-. split; [by apply presents_admin_iff|done]. }
  right. destruct (is_empty jwt_secret && is_empty _); [done|].
  destruct (claims_for req) as [[claims|]|er|x|] eqn:Hcl; try done. cbn [mbind Result_bind] in Hx.
  exists claims. split; [done|]. destruct (is_empty (jc_tenant_id claims)) eqn:He; cbn [negb andb] in Hx.
  - injection Hx as <-. apply is_empty_true in He. auto.
  - destruct (String.eqb_spec (jc_tenant_id claims) tenant) as [->|]; [|done]. injection Hx as <-. auto.
Qed.

End Entitled.

(** ** What the rules miss *)

Lemma role_lists_lookup node op :
  op ∈ ["create"; "read"; "update"; "delete"] ->
  role_lists node !! op =
    n ← member node op; match parseACLRoles n with [] => None | rs => Some rs end.
Proof.
  intros Hop. unfold role_lists. cbn [foldl].
  assert (forall (m : gmap string (list string)) op' k,
    (match member node op' with
     | None => m | Some n => match parseACLRoles n with [] => m | rs => <[op' := rs]> m end end) !! k =
    if String.eqb k op'
    then match n ← member node op'; match parseACLRoles n with [] => None | rs => Some rs end with
         | Some rs => Some rs | None => m !! k end
    else m !! k) as Hstep.
  { intros m op' k. destruct (member node op') as [n|]; cbn [mbind option_bind]; [|by destruct (String.eqb k op')].
    destruct (parseACLRoles n) as [|r rs]; [by destruct (String.eqb k op')|].
    destruct (String.eqb_spec k op') as [->|Hne]; [by rewrite lookup_insert_eq|by rewrite lookup_insert_ne]. }
  rewrite !Hstep, lookup_empty.
  repeat (apply elem_of_cons in Hop as [->|Hop]); [..|by apply elem_of_nil in Hop]; cbn [String.eqb Ascii.eqb Bool.eqb];
    by repeat case_match.
Qed.

(** Roles named in a list of alternatives restrict nobody: when a schema gives
    an operation as an array, as the deletion of videos does, the registry keeps no
    roles for it and every role is allowed. *)
Theorem alternative_roles_ignored node op alternatives fields entity role :
  op ∈ ["create"; "read"; "update"; "delete"] -> member node op = Some (JArray alternatives) ->
  roleAllowed {[entity := mkAclSchema fields (Some (parseACL node))]} entity op role = true.
Proof.
  intros Hop Hnode. unfold roleAllowed, requiredRoles. rewrite lookup_singleton_eq. cbn [acl_roles parseACL].
  by rewrite role_lists_lookup, Hnode.
Qed.

(** The rule of the deletion of videos in the schemas of the repository. *)
Definition video_acl : json := object [
  ("delete", JArray [object [("authenticated", JBool true); ("uploaderId", JString "{{ currentUserId }}")];
                     object [("role", JString "admin")]])].

Lemma alternative_roles_ignored_witness :
  roleAllowed {["Video" := mkAclSchema [] (Some (parseACL video_acl))]} "Video" "delete" "guest" = true.
Proof.
  apply (alternative_roles_ignored video_acl "delete" [object [("authenticated", JBool true);
    ("uploaderId", JString "{{ currentUserId }}")]; object [("role", JString "admin")]]).
  - apply (bool_decide_unpack _). vm_compute. exact I.
  - reflexivity.
Defined.

(** ** Requests *)

Definition demo_get (authorization : string) : HttpRequest := mkRequest Get authorization "" "10.0.0.1" None.
Definition demo_delete (authorization : string) : HttpRequest := mkRequest Delete authorization "" "10.0.0.1" None.

(** Reading installed packages is for roles only, in the schemas of the repository. *)
Definition package_acl : json := object [("read", object [("role", JArray [JString "god"; JString "supergod"])])].
Definition demo_registry : gmap string AclSchema :=
  {["Video" := mkAclSchema [] (Some (parseACL video_acl));
    "InstalledPackage" := mkAclSchema [] (Some (parseACL package_acl))]}.
Definition demo_route (req : HttpRequest) (entity : string) : Op Limiters Outcome :=
  entity_id_route (jl := demo_json) demo_hmac (fun _ _ _ => None) (Some demo_registry) None "k" None loadDefault
    1000 50 true 1000 0 0 req "acme" entity.
Definition no_requests : Limiters := mkLimiters ∅ ∅.


(** Two ways in that the rules of the repository's schemas leave open: a caller
    with any valid token deletes a video, whose rule names the uploader and
    administrators, and a caller with no token at all reads the installed packages,
    whose rule names two roles. *)
Theorem rules_left_open :
  (demo_route (demo_delete ("Bearer " +:+ demo_token)) "Video" no_requests).1 = Ok (Handled None) /\
  (demo_route (demo_get "") "InstalledPackage" no_requests).1 = Ok (Handled None) /\
  requiredRoles demo_registry "InstalledPackage" "read" = ["god"; "supergod"].
Proof. vm_compute. split_and!; reflexivity. Qed.

(** Signing up, open to everyone but for the role, which is privileged. *)
Definition account_registry : gmap string AclSchema :=
  {["Account" := mkAclSchema [("email", false); ("role", true)]
                   (Some (parseACL (object [("create", object [("public", JBool true)])])))]}.

Definition account_route (json_body : option json) : Result Outcome :=
  (entity_route (jl := demo_json) demo_hmac (fun _ _ _ => None) (Some account_registry) None "k" None loadDefault
     1000 50 true 1000 0 0 (mkRequest Post "" "" "10.0.0.1" json_body) "acme" "Account" no_requests).1.

(** The check of the privileged fields reads the body by [getJsonObject], which is
    nothing for a body sent as text/plain; the handler parses the body whatever it is
    sent as ([EntityRoutes]).  So a caller not signed in is refused the role as
    application/json and let through as text/plain. *)
Theorem privileged_body_unseen :
  account_route (Some (object [("email", JString "a@b.c"); ("role", JString "god")])) =
    Ok (Responded (mkResponse 403 "Field 'role' may not be set without signing in")) /\
  account_route None = Ok (Handled None).
Proof. vm_compute. split; reflexivity. Qed.

(** A file that breaks off leaves what was read before: the setting of its defaults
    holds, the tenants are lost. *)
Lemma load_keeps_part :
  load_auth (Some (object [
    ("defaults", object [("require_auth", JBool true)]);
    ("tenants", object [("acme", object [("require_auth", JString "yes")])])])) = mkAuthConfig true "" ∅.
Proof. vm_compute. reflexivity. Qed.

(** The limit on the collection route can be evaded: whatever was asked before,
    there is a value of the X-Forwarded-For header under which a request is let
    through, since the header the caller sends is the key of the limit. *)
Theorem collection_limit_evaded max_read max_mutation t1 t2 req l :
  (0 < max_read)%Z -> (0 < max_mutation)%Z -> (t1 <= t2)%Z ->
  exists header, let req' := mkRequest (hr_method req) (hr_authorization req) header (hr_peer_ip req) (hr_json req) in
    (limited max_read max_mutation t1 t2 req' (rate_limit_key req') l).1 = Ok true.
Proof.
  intros Hr Hm Ht.
  assert (exists key, lim_read l !! key = None /\ lim_mutation l !! key = None /\ key <> "" /\ find_char "," key = None)
    as (key & Hnr & Hnm & Hne & Hcomma).
  { set (n := S (list_max (String.length <$> ((map_to_list (lim_read l)).*1 ++ (map_to_list (lim_mutation l)).*1)%list))).
    assert (forall (m : gmap string RateLimitEntry) e, m !! zeros n = Some e ->
      zeros n ∈ ((map_to_list m).*1)) as Hin.
    { intros m e He. apply list_elem_of_fmap. exists (zeros n, e). split; [done|]. by apply elem_of_map_to_list. }
    assert (forall k, k ∈ ((map_to_list (lim_read l)).*1 ++ (map_to_list (lim_mutation l)).*1)%list ->
      (String.length k < n)%nat) as Hlt.
    { intros k Hk. subst n. apply Nat.lt_succ_r.
      pose proof (list_max_le (String.length <$> ((map_to_list (lim_read l)).*1 ++ (map_to_list (lim_mutation l)).*1)%list)
        (list_max (String.length <$> ((map_to_list (lim_read l)).*1 ++ (map_to_list (lim_mutation l)).*1)%list)))
        as [Hmax _]. specialize (Hmax (Nat.le_refl _)). rewrite List.Forall_forall in Hmax. apply Hmax.
      apply list_elem_of_In, list_elem_of_fmap. by exists k. }
    exists (zeros n). split_and!.
    - apply eq_None_not_Some. intros [e He%Hin]. specialize (Hlt (zeros n)). rewrite zeros_length in Hlt.
      apply (Nat.lt_irrefl n), Hlt, elem_of_app. by left.
    - apply eq_None_not_Some. intros [e He%Hin]. specialize (Hlt (zeros n)). rewrite zeros_length in Hlt.
      apply (Nat.lt_irrefl n), Hlt, elem_of_app. by right.
    - done.
    - clear. induction n as [|n IH]; [done|]. cbn [zeros find_char]. by rewrite IH. }
  exists key. cbv zeta. unfold rate_limit_key, limited. cbn [hr_forwarded_for hr_method].
  apply is_empty_false in Hne. rewrite Hne, Hcomma. cbn [negb].
  assert (forall max m, (0 < max)%Z -> m !! key = None -> (allow max 60 t1 t2 key m).1 = true) as Hallow.
  { intros max m Hmax Hnone. unfold allow. rewrite Hnone. cbn [default from_option id re_window_start].
    assert ((60 <=? seconds_of (t1 - t2)) = false)%Z as ->.
    { apply Z.leb_gt. destruct (Z_lt_le_dec (seconds_of (t1 - t2)) 60) as [|Hge]; [done|].
      apply seconds_of_ge in Hge; [|lia]. unfold second in Hge. lia. }
    cbn [re_count]. destruct (Z.leb_spec max 0); [lia|done]. }
  destruct (bool_decide (hr_method req = Get)).
  - specialize (Hallow max_read _ Hr Hnr). destruct (allow max_read 60 t1 t2 key (lim_read l)). cbn in *. by subst.
  - specialize (Hallow max_mutation _ Hm Hnm). destruct (allow max_mutation 60 t1 t2 key (lim_mutation l)). cbn in *. by subst.
Qed.

Lemma collection_limit_evaded_witness : exists header,
  (limited 10 10 0 0 (mkRequest Post "" header "10.0.0.1" None)
     (rate_limit_key (mkRequest Post "" header "10.0.0.1" None))
     (mkLimiters ∅ {["10.0.0.1" := mkEntry 10 0]})).1 = Ok true.
Proof.
  destruct (collection_limit_evaded 10 10 0 0 (mkRequest Post "" "" "10.0.0.1" None)
    (mkLimiters ∅ {["10.0.0.1" := mkEntry 10 0]})) as [header Hh]; [lia|lia|lia|]. by exists header.
Defined.
