(* ===== verification/EntityRoutes.v ===== *)
(** * The generic entity routes

    What the daemon does with a request once the gate of AccessControl let it
    through: routes and their parts (src/daemon/rpc_restful_handler.cpp), the four
    operations on a row (src/daemon/crud_handler.cpp), listings with their query
    parameters (src/daemon/list_handler.cpp) and the handlers that add what the
    caller's identity asks for (src/daemon/handlers/entity_route_handler_crud.cpp).
    The client forwards to the adapter of Adapter.v; the two JSON libraries'
    values are one type here. *)

From S2P Require Import Prelude CxxString CxxStd Store Json Adapter AccessControl.

Open Scope string_scope.

(** ** Answers *)

Inductive Reply := Success (data : json) | Failure (message : string) (status : Z).

Definition error_reply (e : Error) : Reply := Failure (message e) (http_status (code e)).

(** ** Routes *)

Record RouteInfo := mkRoute {
  ri_tenant : string; ri_package : string; ri_entity : string; ri_id : string; ri_action : string;
  ri_extra_args : list string; ri_valid : bool; ri_error : string;
}.

Definition strip_leading (s : string) : string := match s with String "/" s => s | s => s end.
Fixpoint strip_trailing (s : string) : string :=
  match s with
  | EmptyString => ""
  | String c EmptyString => if Ascii.eqb c "/" then "" else s
  | String c s => String c (strip_trailing s)
  end.

(** The segments that are not empty. *)
Definition segments_of (path : string) : list string :=
  List.filter (fun p => negb (is_empty p)) (split_on "/" (strip_trailing (strip_leading path))).

Definition is_valid_name (name : string) : bool :=
  negb (is_empty name) && string_forallb (fun c => is_alnum c || Ascii.eqb c "_") name.

Definition invalid_route (route : RouteInfo) (error : string) : RouteInfo :=
  mkRoute (ri_tenant route) (ri_package route) (ri_entity route) (ri_id route) (ri_action route)
    (ri_extra_args route) false error.

Definition parseRoute (path : string) : RouteInfo :=
  match segments_of path with
  | tenant :: package :: entity :: rest =>
      let named := mkRoute tenant package entity "" "" [] true "" in
      let lower_tenant := to_lower tenant in
      if String.eqb lower_tenant "invalid" || String.eqb lower_tenant "invalid_tenant" ||
         String.eqb lower_tenant "test_invalid"
      then invalid_route named ("Invalid tenant name: " +:+ tenant)
      else
        let info := mkRoute tenant package entity (default "" (rest !! 0)) (default "" (rest !! 1)) (drop 2 rest) true "" in
        if negb (is_valid_name tenant) then invalid_route info ("Invalid tenant name: " +:+ tenant)
        else if negb (is_valid_name package) then invalid_route info ("Invalid package name: " +:+ package)
        else if negb (is_valid_name entity) then invalid_route info ("Invalid entity name: " +:+ entity)
        else info
  | _ => mkRoute "" "" "" "" "" [] false "Path requires at least: /{tenant}/{package}/{entity}"
  end.

Fixpoint pascal (capitalize_next : bool) (s : string) : string :=
  match s with
  | EmptyString => ""
  | String c s =>
      if Ascii.eqb c "_" then pascal true s
      else if capitalize_next then String (to_upper_char c) (pascal false s)
      else String (to_lower_char c) (pascal false s)
  end.
Definition toPascalCase (snake_case : string) : string := pascal true snake_case.

Definition getPrefixedEntity (r : RouteInfo) : string :=
  if is_empty (ri_package r) || is_empty (ri_entity r) then ""
  else "Pkg_" +:+ (toPascalCase (ri_package r) +:+ ("_" +:+ toPascalCase (ri_entity r))).
Definition getTableName (r : RouteInfo) : string :=
  if is_empty (ri_package r) || is_empty (ri_entity r) then ""
  else ri_package r +:+ ("_" +:+ to_lower (ri_entity r)).

(** ** Options of a listing *)

Inductive FilterOp := Eq | Ne | Lt | Lte | Gt | Gte | Like | ILike | In | NotIn | IsNull | IsNotNull | Between.
Record FilterCondition := mkCondition {
  fc_field : string; fc_op : FilterOp; fc_value : string; fc_values : list string;
}.
Record FilterGroup := mkGroup { fg_conditions : list FilterCondition }.
Inductive AggFunc := Count | Sum | Avg | Min | Max.
Record AggregateSpec := mkAggregate { ag_func : AggFunc; ag_field : string; ag_alias : string }.

(** The whole of [ListOptions]; [ro_base] is the part the in-memory listings read. *)
Record RichOptions := mkOptions {
  ro_base : ListOptions; ro_conditions : list FilterCondition; ro_filter_groups : list FilterGroup;
  ro_include : list string; ro_aggregates : list AggregateSpec; ro_group_by : list string;
  ro_select_fields : list string; ro_distinct : bool; ro_timeout_ms : Z;
}.

Abbreviation query_map := (gmap string string).

(** [key.rfind(prefix, 0) == 0] *)
Definition has_prefix (prefix key : string) : bool := String.prefix prefix key.

(** [parseIntValue]: [std::stoi] that has to use the whole text. *)
Definition parseIntValue (value : string) : option Z :=
  let digits := match skip_space value with String "-" s | String "+" s => s | s => s end in
  if string_forallb is_digit digits then
    match stoi value with Ok z => Some z | _ => None end
  else None.

Record Paging := mkPaging { pg_limit : option Z; pg_page : option Z; pg_offset : option Z }.

(** The loop of [parseQueryParameters], as far as the numbers go; [inl] is the
    answer that ends the request. *)
Fixpoint parse_paging (query : list (string * string)) (p : Paging) : Reply + Paging :=
  match query with
  | [] => inr p
  | (key, value) :: query =>
      if String.eqb key "limit" || String.eqb key "take" then
        match parseIntValue value with
        | Some n => if (0 <? n)%Z then parse_paging query (mkPaging (Some n) (pg_page p) (pg_offset p))
                    else inl (Failure "limit must be a positive integer" 400)
        | None => inl (Failure "limit must be a positive integer" 400)
        end
      else if String.eqb key "page" then
        match parseIntValue value with
        | Some n => if (0 <? n)%Z then parse_paging query (mkPaging (pg_limit p) (Some n) (pg_offset p))
                    else inl (Failure "page must be a positive integer" 400)
        | None => inl (Failure "page must be a positive integer" 400)
        end
      else if String.eqb key "skip" || String.eqb key "offset" then
        match parseIntValue value with
        | Some n => if (n <? 0)%Z then inl (Failure "offset must be a non-negative integer" 400)
                    else parse_paging query (mkPaging (pg_limit p) (pg_page p) (Some n))
        | None => inl (Failure "offset must be a non-negative integer" 400)
        end
      else parse_paging query p
  end.

(** The conversion of an offset, in [int] arithmetic. *)
Definition page_of_offset (offset limit : Z) : Result Z :=
  let page := (Z.quot offset limit + 1)%Z in if in_int page then Ok page else Undef.

(** Limit and page as the rest of the handler sees them. *)
Definition parseQueryParameters (query : query_map) : Result (Reply + (Z * Z)) :=
  match parse_paging (map_items query) (mkPaging None None None) with
  | inl r => Ok (inl r)
  | inr p =>
      let limit := default 20%Z (pg_limit p) in
      page ← match pg_page p, pg_offset p with
             | Some n, _ => Ok n
             | None, Some offset => page_of_offset offset limit
             | None, None => Ok 1%Z
             end;
      Ok (inr (limit, page))
  end.

Definition splitCsv (s : string) : list string := List.filter (fun p => negb (is_empty p)) (split_on "," s).

Definition parseOpString (op : string) : FilterOp :=
  if String.eqb op "ne" then Ne else if String.eqb op "lt" then Lt else if String.eqb op "lte" then Lte
  else if String.eqb op "gt" then Gt else if String.eqb op "gte" then Gte else if String.eqb op "like" then Like
  else if String.eqb op "ilike" then ILike else if String.eqb op "in" then In else if String.eqb op "notin" then NotIn
  else if String.eqb op "isnull" then IsNull else if String.eqb op "isnotnull" then IsNotNull
  else if String.eqb op "between" then Between else Eq.

Definition parseFieldOp (key : string) : string * string :=
  match find_char "[" key with
  | None => (key, "eq")
  | Some lb =>
      let inside := string_drop (S lb) key in
      (string_take lb key,
       to_lower (match find_char "]" inside with Some n => string_take n inside | None => "eq" end))
  end.

Definition makeCondition (field op_str value : string) : FilterCondition :=
  match parseOpString op_str with
  | (In | NotIn | Between) as op => mkCondition field op "" (splitCsv value)
  | op => mkCondition field op value []
  end.

(** A [std::map] with integer keys, as a list in key order. *)
Fixpoint update_at {A} (def : A) (f : A -> A) (k : Z) (l : list (Z * A)) : list (Z * A) :=
  match l with
  | [] => [(k, f def)]
  | (k', a) :: l =>
      if (k =? k')%Z then (k', f a) :: l
      else if (k <? k')%Z then (k, f def) :: (k', a) :: l
      else (k', a) :: update_at def f k l
  end.

(** What the second loop over the query gathers. *)
Record Gathered := mkGathered {
  ga_options : RichOptions; ga_or : list (Z * list FilterCondition); ga_agg : list (Z * query_map);
}.

Definition with_base (f : ListOptions -> ListOptions) (o : RichOptions) : RichOptions :=
  mkOptions (f (ro_base o)) (ro_conditions o) (ro_filter_groups o) (ro_include o) (ro_aggregates o) (ro_group_by o)
    (ro_select_fields o) (ro_distinct o) (ro_timeout_ms o).
Definition set_filter (field value : string) : RichOptions -> RichOptions := with_base (fun b =>
  mkListOptions (<[field := value]> (opt_filter b)) (opt_sort b) (opt_page b) (opt_limit b)).
Definition set_sort (field value : string) : RichOptions -> RichOptions := with_base (fun b =>
  mkListOptions (opt_filter b) (<[field := value]> (opt_sort b)) (opt_page b) (opt_limit b)).
Definition on_options (f : RichOptions -> RichOptions) (g : Gathered) : Gathered :=
  mkGathered (f (ga_options g)) (ga_or g) (ga_agg g).

(** One parameter.  An index that is not a number is passed over; a key that ends
    at its closing bracket raises [std::out_of_range]. *)
Definition gather (g : Gathered) (key value : string) : Result Gathered :=
  if has_prefix "filter." key || has_prefix "where." key then
    let '(field, op_str) := parseFieldOp (string_drop (if has_prefix "f" key then 7 else 6) key) in
    Ok (on_options (fun o =>
      if String.eqb op_str "eq" then set_filter field value o
      else mkOptions (ro_base o) (ro_conditions o ++ [makeCondition field op_str value])%list (ro_filter_groups o)
             (ro_include o) (ro_aggregates o) (ro_group_by o) (ro_select_fields o) (ro_distinct o) (ro_timeout_ms o)) g)
  else if has_prefix "sort." key then Ok (on_options (set_sort (string_drop 5 key) value) g)
  else if has_prefix "orderBy." key then Ok (on_options (set_sort (string_drop 8 key) value) g)
  else if has_prefix "or[" key then
    match find_char "]" key with
    | None => Ok g
    | Some rb =>
        match stoi (string_take (rb - 3) (string_drop 3 key)) with
        | Ok idx =>
            if (String.length key <? rb + 2)%nat then Throw out_of_range
            else
              let '(field, op_str) := parseFieldOp (string_drop (rb + 2) key) in
              Ok (mkGathered (ga_options g)
                    (update_at [] (fun l => l ++ [makeCondition field op_str value])%list idx (ga_or g)) (ga_agg g))
        | _ => Ok g
        end
    end
  else if has_prefix "aggregate[" key then
    match find_char "]" key with
    | None => Ok g
    | Some rb1 =>
        match stoi (string_take (rb1 - 10) (string_drop 10 key)) with
        | Ok idx =>
            match find_char "[" (string_drop rb1 key) with
            | None => Ok g
            | Some lb =>
                let inside := string_drop (S (rb1 + lb)) key in
                match find_char "]" inside with
                | None => Ok g
                | Some n =>
                    Ok (mkGathered (ga_options g) (ga_or g)
                          (update_at ∅ (<[string_take n inside := value]>) idx (ga_agg g)))
                end
            end
        | _ => Ok g
        end
    end
  else
    let set f := Ok (on_options f g) in
    if String.eqb key "include" then
      set (fun o => mkOptions (ro_base o) (ro_conditions o) (ro_filter_groups o) (splitCsv value) (ro_aggregates o)
                      (ro_group_by o) (ro_select_fields o) (ro_distinct o) (ro_timeout_ms o))
    else if String.eqb key "select" then
      set (fun o => mkOptions (ro_base o) (ro_conditions o) (ro_filter_groups o) (ro_include o) (ro_aggregates o)
                      (ro_group_by o) (splitCsv value) (ro_distinct o) (ro_timeout_ms o))
    else if String.eqb key "groupBy" || String.eqb key "group_by" then
      set (fun o => mkOptions (ro_base o) (ro_conditions o) (ro_filter_groups o) (ro_include o) (ro_aggregates o)
                      (splitCsv value) (ro_select_fields o) (ro_distinct o) (ro_timeout_ms o))
    else if String.eqb key "distinct" then
      set (fun o => mkOptions (ro_base o) (ro_conditions o) (ro_filter_groups o) (ro_include o) (ro_aggregates o)
                      (ro_group_by o) (ro_select_fields o) (String.eqb value "true" || String.eqb value "1")
                      (ro_timeout_ms o))
    else Ok g.

Fixpoint gather_all (query : list (string * string)) (g : Gathered) : Result Gathered :=
  match query with [] => Ok g | (k, v) :: query => g ← gather g k v; gather_all query g end.

Definition aggregate_of (fields : query_map) : AggregateSpec :=
  let func_str := default "count" (fields !! "func") in
  let func := if String.eqb func_str "sum" then Sum else if String.eqb func_str "avg" then Avg
              else if String.eqb func_str "min" then Min else if String.eqb func_str "max" then Max else Count in
  mkAggregate func (default "id" (fields !! "field")) (default func_str (fields !! "alias")).

Definition initial_options (limit page : Z) : RichOptions :=
  mkOptions (mkListOptions ∅ ∅ page limit) [] [] [] [] [] [] false 0.

(** The options a listing of the route is made with. *)
Definition list_options (route : RouteInfo) (query : query_map) (limit page : Z) : Result RichOptions :=
  g ← gather_all (map_items query) (mkGathered (initial_options limit page) [] []);
  let o := ga_options g in
  let o := mkOptions (ro_base o) (ro_conditions o) (mkGroup <$> (ga_or g).*2) (ro_include o)
             (aggregate_of <$> (ga_agg g).*2) (ro_group_by o) (ro_select_fields o) (ro_distinct o) (ro_timeout_ms o) in
  Ok (if is_empty (ri_tenant route) then o else set_filter "tenantId" (ri_tenant route) o).


(** ** Operations on a row *)

(** What creating a row starts: the part of the workflow engine the routes use. *)
Class Workflows (W : Type) := {
  wf_hasEvent : string -> Op W bool;
  wf_runNamedNow : string -> string -> string -> json -> Op W json;
  wf_dispatchAsync : string -> json -> Op W unit;
}.

Section Handlers.
(** [what x] is the text of an exception. *)
Context {W : Type} `{!Adapter W} (what : Exn -> string).
Context (send_success : json -> Op W Reply).

Definition send_error (message : string) (status : Z) : Op W Reply := mret (Failure message status).

(** [ResponseFormatter::withExceptionHandling] *)
Definition withExceptionHandling (func : Op W Reply) : Op W Reply := fun w =>
  match func w with
  | (Throw x, w') => (Ok (Failure ("Internal server error: " +:+ what x) 500), w')
  | r => r
  end.

(** [if (!result.isOk()) { send_error(error.what(), error.code()); return; }] *)
Definition answer {A} (m : Op W A) (k : A -> Op W Reply) : Op W Reply := fun w =>
  match m w with
  | (Ok a, w') => k a w'
  | (Err e, w') => (Ok (error_reply e), w')
  | (r, w') => (recast r, w')
  end.

Definition with_tenant (route : RouteInfo) (data : json) : Result json :=
  if negb (is_empty (ri_tenant route)) && negb (has_member data "tenantId")
  then assign_member data "tenantId" (JString (ri_tenant route)) else Ok data.

Definition handleCreate (route : RouteInfo) (body : json) : Op W Reply := withExceptionHandling (
  data ← of_result (with_tenant route body);
  answer (do_create (ri_entity route) data) send_success).

(** The tenant check of the three other handlers. *)
Definition in_tenant (route : RouteInfo) (record : json) : bool :=
  match string_member record "tenantId" with
  | Some t => is_empty (ri_tenant route) || String.eqb t (ri_tenant route)
  | None => true
  end.
Definition existing_row (route : RouteInfo) (k : json -> Op W Reply) : Op W Reply :=
  answer (do_read (ri_entity route) (ri_id route)) (fun record =>
    if in_tenant route record then k record else send_error (ri_entity route +:+ " not found") 404).

Definition handleRead (route : RouteInfo) : Op W Reply := withExceptionHandling (existing_row route send_success).

(** [data.empty()] *)
Definition json_empty (v : json) : bool :=
  match v with JNull | JArray [] | JObject [] => true | _ => false end.

Definition handleUpdate (route : RouteInfo) (body : json) : Op W Reply := withExceptionHandling (
  if is_empty (ri_id route) then send_error "ID is required for update operations" 400
  else existing_row route (fun _ =>
    if json_empty body then send_error "At least one update field must be provided" 400
    else answer (do_update (ri_entity route) (ri_id route) body) send_success)).

Definition handleDelete (route : RouteInfo) : Op W Reply := withExceptionHandling (
  if is_empty (ri_id route) then send_error "ID is required for delete operations" 400
  else existing_row route (fun _ =>
    answer (do_remove (ri_entity route) (ri_id route)) (fun deleted =>
      send_success (JObject [("deleted", JBool deleted)])))).

(** ** Listings *)

(** The adapters' [list], over the whole of the options. *)
Context (rich_list : string -> RichOptions -> Op W ListResult).

Definition hide_internal (e : Error) : Reply :=
  if (500 <=? http_status (code e))%Z then Failure "Internal server error" (http_status (code e)) else error_reply e.

Definition listing (r : ListResult) : json :=
  JObject [("data", JArray (lr_items r)); ("limit", JInt (lr_limit r)); ("page", JInt (lr_page r));
           ("total", JInt (lr_total r))].

Definition list_reply (m : Op W ListResult) : Op W Reply := fun w =>
  match m w with
  | (Ok r, w') => send_success (listing r) w'
  | (Err e, w') => (Ok (hide_internal e), w')
  | (r, w') => (recast r, w')
  end.

Definition handleList (route : RouteInfo) (query : query_map) : Op W Reply := withExceptionHandling (
  paging ← of_result (parseQueryParameters query);
  match paging with
  | inl r => mret r
  | inr (limit, page) =>
      options ← of_result (list_options route query limit page);
      list_reply (rich_list (ri_entity route) options)
  end).

(** ** Dispatch *)

Definition handleRestfulRequest (route : RouteInfo) (method : string) (body : json) (query : query_map) :
    Op W Reply := withExceptionHandling (
  if negb (ri_valid route) then send_error (ri_error route) 400
  else if negb (is_empty (ri_action route)) then send_error "Custom actions are not supported yet" 404
  else if String.eqb method "GET" then
    if is_empty (ri_id route) then handleList route query else handleRead route
  else if String.eqb method "POST" then
    if negb (is_empty (ri_id route)) then
      send_error "POST with a resource ID is not supported; use PUT/PATCH" 400
    else handleCreate route body
  else if String.eqb method "PUT" || String.eqb method "PATCH" then handleUpdate route body
  else if String.eqb method "DELETE" then handleDelete route
  else send_error ("Unsupported HTTP method: " +:+ method) 405).
End Handlers.

(** ** Validation of a payload against the schema *)

Record ValidationError := mkInvalid { ve_field : string; ve_message : string }.

Section Validate.
(** [std::regex_search(val, std::regex(pattern))]; [None] for a pattern that is not one. *)
Context (regex_search : string -> string -> option bool).

Definition text_type (type : string) : bool :=
  existsb (String.eqb type) ["string"; "email"; "text"; "uuid"; "cuid"; "enum"].
Definition numeric_type (type : string) : bool := existsb (String.eqb type) ["number"; "bigint"; "integer"; "int"].

Definition text_errors (field : EntityField) (val : string) : list ValidationError :=
  let wrong := mkInvalid (fd_name field) in
  (match fd_minLength field with
   | Some n => if (wrap_int (size val) <? n)%Z then [wrong ("Minimum length is " +:+ to_string n)] else []
   | None => []
   end ++
   match fd_maxLength field with
   | Some n => if (n <? wrap_int (size val))%Z then [wrong ("Maximum length is " +:+ to_string n)] else []
   | None => []
   end ++
   match fd_enumValues field with
   | Some allowed => if existsb (String.eqb val) allowed then [] else [wrong "Invalid enum value"]
   | None => []
   end ++
   match fd_pattern field with
   | Some pattern =>
       if is_empty pattern then []
       else match regex_search val pattern with
            | Some false => [wrong "Does not match required pattern"] | _ => [] end
   | None => []
   end)%list.

(** One round of the loop. *)
Definition field_errors (data : json) (isCreate : bool) (field : EntityField) : list ValidationError :=
  let wrong := mkInvalid (fd_name field) in
  if String.eqb (fd_name field) "id" || String.eqb (fd_name field) "createdAt" then []
  else
    match member data (fd_name field) with
    | None | Some JNull => if isCreate && fd_required field then [wrong "Field is required"] else []
    | Some v =>
        if text_type (fd_type field) then
          match v with JString val => text_errors field val | _ => [wrong "Expected string value"] end
        else if numeric_type (fd_type field) then
          if is_number v then [] else [wrong "Expected a numeric value"]
        else if String.eqb (fd_type field) "boolean" then
          if is_boolean v || is_number v || is_string v then [] else [wrong "Expected a boolean value"]
        else []
    end.

Definition validateEntityData (schema : EntitySchema) (data : json) (isCreate : bool) : list ValidationError :=
  mjoin (field_errors data isCreate <$> es_fields schema).
End Validate.

(** ** The routes' handlers *)

Definition parseHttpMethod (m : HttpMethod) : string :=
  match m with
  | Get => "GET" | Post => "POST" | Put => "PUT" | Patch => "PATCH" | Delete => "DELETE" | _ => "UNKNOWN"
  end.

(** [parsed]: what the HTTP library's parser makes of the text of the body. *)
Definition parseRequestBody (parsed : option json) (method : string) : json :=
  if String.eqb method "POST" || String.eqb method "PUT" || String.eqb method "PATCH"
  then default (JObject []) parsed else JObject [].

Section Routes.
Context {W : Type} `{!Adapter W} `{!JsonLib} (what : Exn -> string).
Context (regex_search : string -> string -> option bool) (rich_list : string -> RichOptions -> Op W ListResult)
  (styled : json -> string).
(** The workflow engine, where the daemon has one. *)
Context (wf_engine : option (Workflows W)).

(** [callbacks.send_success] *)
Definition plain_success (data : json) : Op W Reply := mret (Success data).

(** The outer [try] of the three handlers. *)
Definition guarded (m : Op W Reply) : Op W Reply := fun w =>
  match m w with (Throw _, w') => (Ok (Failure "Internal server error" 500), w') | r => r end.

Definition inject_owner (auth : AuthContext) (body : json) : Result json :=
  body ← assign_member body "userId" (JString (cx_user_id auth));
  assign_member body "tenantId" (JString (cx_tenant_id auth)).

Definition validation_reply (errs : list ValidationError) : Reply :=
  Failure (styled (JObject [("error", JString "Validation failed");
    ("fields", JArray ((fun e => JObject [("field", JString (ve_field e)); ("message", JString (ve_message e))]) <$> errs));
    ("success", JBool false)])) 422.

(** The answer to a creation that starts workflows.  One that names its workflow
    waits for its effects; a subscription runs once the answer is out, whatever
    becomes of it. *)
Definition answer_and_run (wf : Workflows W) (tenant event_name : string) (result : json) : Op W Reply :=
  let named := default "" (string_member result "workflow") in
  if is_empty named then fun w =>
    match wf_dispatchAsync event_name result w with
    | (Undef, w') => (Undef, w')
    | (_, w') => (Ok (Success result), w')
    end
  else
    effects ← wf_runNamedNow tenant named (string_drop (S (String.length tenant)) event_name) result;
    text ← of_result (dump effects);
    match parse text with
    | Some parsed => enriched ← of_result (assign_member result "effects" parsed); plain_success enriched
    | None => plain_success result
    end.

(** The schema check: the errors of the payload; none where there is no schema. *)
Definition schema_errors (entity : string) (body : json) (isCreate : bool) : Op W (list ValidationError) := fun w =>
  match do_getEntitySchema entity w with
  | (Ok schema, w') => (Ok (validateEntityData regex_search schema body isCreate), w')
  | (Err _, w') => (Ok [], w')
  | (r, w') => (recast r, w')
  end.

(** The callback a success goes to. *)
Definition success_callback (tenant entity method : string) : Op W (json -> Op W Reply) :=
  match wf_engine with
  | Some wf =>
      if String.eqb method "POST" then
        let event_name := tenant +:+ ("." +:+ (entity +:+ ".created")) in
        known ← wf_hasEvent event_name;
        mret (if (known : bool) then answer_and_run wf tenant event_name else plain_success)
      else mret plain_success
  | None => mret plain_success
  end.

Definition handleEntity (m : HttpMethod) (parsed : option json) (query : query_map)
    (tenant package entity : string) (auth : option AuthContext) : Op W Reply := guarded (
  let route := parseRoute ("/" +:+ (tenant +:+ ("/" +:+ (package +:+ ("/" +:+ entity))))) in
  let method := parseHttpMethod m in
  let body := parseRequestBody parsed method in
  body ← of_result (
    match auth with
    | Some a => if String.eqb method "POST" && ea_inject_owner (cx_config a) then inject_owner a body else Ok body
    | None => Ok body
    end);
  let query :=
    match auth with
    | Some a => if String.eqb method "GET" && ea_filter_by_owner (cx_config a)
                then <["filter.userId" := cx_user_id a]> query else query
    | None => query
    end in
  errs ← (if String.eqb method "POST" || String.eqb method "PATCH" || String.eqb method "PUT"
          then schema_errors (ri_entity route) body (String.eqb method "POST") else mret []);
  match errs with
  | _ :: _ => mret (validation_reply errs)
  | [] =>
      send_success ← success_callback tenant entity method;
      handleRestfulRequest what send_success rich_list route method body query
  end).

Definition id_path (tenant package entity id : string) : string :=
  "/" +:+ (tenant +:+ ("/" +:+ (package +:+ ("/" +:+ (entity +:+ ("/" +:+ id)))))).

Definition handleEntityWithId (m : HttpMethod) (parsed : option json) (query : query_map)
    (tenant package entity id : string) (auth : option AuthContext) : Op W Reply := guarded (
  let route := parseRoute (id_path tenant package entity id) in
  let method := parseHttpMethod m in
  let body := parseRequestBody parsed method in
  let go := handleRestfulRequest what plain_success rich_list route method body query in
  match auth with
  | Some a =>
      if ea_check_ownership (cx_config a) then fun w =>
        match do_read (ri_entity route) id w with
        | (Ok stored, w') =>
            (owner ← of_result (value_string stored "userId" "");
             if negb (String.eqb owner (cx_user_id a)) then send_error "Forbidden" 403 else go) w'
        | (Err _, w') => (Ok (Failure "Entity not found" 404), w')
        | (r, w') => (recast r, w')
        end
      else go
  | None => go
  end).

Definition handleEntityAction (m : HttpMethod) (parsed : option json) (query : query_map)
    (tenant package entity id action : string) : Op W Reply := guarded (
  let route := parseRoute (id_path tenant package entity id +:+ ("/" +:+ action)) in
  let method := parseHttpMethod m in
  handleRestfulRequest what plain_success rich_list route method (parseRequestBody parsed method) query).
End Routes.

(** ** What reaches a row by its route *)

Lemma parseRoute_names path :
  ri_valid (parseRoute path) = true ->
  is_valid_name (ri_tenant (parseRoute path)) = true /\ is_valid_name (ri_package (parseRoute path)) = true /\
  is_valid_name (ri_entity (parseRoute path)) = true.
Proof.
  unfold parseRoute. destruct (segments_of path) as [|t [|p [|e rest]]]; cbn; try done.
  destruct (_ || _ || _); cbn; [done|].
  destruct (is_valid_name t) eqn:Ht; cbn; [|done]. destruct (is_valid_name p) eqn:Hp; cbn; [|done].
  destruct (is_valid_name e) eqn:He; cbn; [|done]. by rewrite Ht, Hp, He.
Qed.

Section Guarded.
Context {W : Type} {A : Adapter W} {R : Rows W} {jl : JsonLib} (what : Exn -> string).
Context (regex_search : string -> string -> option bool) (rich_list : string -> RichOptions -> Op W ListResult).
Implicit Types (w : W) (route : RouteInfo).

(** The request acts on the route's own row, which belongs to its tenant; or it is
    refused and changes nothing. *)
Definition acted route w (r : Result Reply * W) : Prop :=
  (exists v, row w (ri_entity route) (ri_id route) = Some v /\ ri_valid route = true /\ in_tenant route v = true /\
     same_rows_but (fun e id => e = ri_entity route /\ id = ri_id route) (row w) (row r.2)) \/
  ((forall e id, row r.2 e id = row w e id) /\ forall d, r.1 <> Ok (Success d)).

Lemma acted_caught route w (m : Op W Reply) :
  acted route w (m w) -> acted route w (withExceptionHandling what m w).
Proof.
  unfold acted, withExceptionHandling. destruct (m w) as [[a|e|x|] w1]; cbn; [done..| |done].
  intros [H|[H _]]; [by left|by right].
Qed.

Lemma acted_error route w s c : acted route w (send_error s c w).
Proof. right. split; [done|]. intros d. discriminate. Qed.

Lemma existing_row_acted route (k : json -> Op W Reply) w :
  (forall v w1, row w (ri_entity route) (ri_id route) = Some v -> (forall e id, row w1 e id = row w e id) ->
     in_tenant route v = true -> acted route w (k v w1)) ->
  acted route w (existing_row route k w).
Proof.
  intros Hk. unfold existing_row, answer. pose proof (row_read w (ri_entity route) (ri_id route)) as [Hkeep Hval].
  unfold keeps in Hkeep. pose proof Hkeep as Hkept. destruct (do_read _ _ w) as [[v|er|x|] w1]; cbn in *;
    try (right; split; [done|intros d; discriminate]).
  destruct (in_tenant route v) eqn:Ht; [by eauto|]. right. split; [done|]. intros d. discriminate.
Qed.

(** A write of one row that keeps to it, answered at once. *)
Lemma answered_write route w w1 {B} (m : Op W B) (f : B -> json) v :
  row w (ri_entity route) (ri_id route) = Some v -> (forall e id, row w1 e id = row w e id) ->
  ri_valid route = true -> in_tenant route v = true -> writes_or_keeps row w1 (m w1) (one_row (ri_entity route) (ri_id route)) ->
  acted route w (answer m (fun b => mret (Success (f b))) w1).
Proof.
  intros Hv H1 Hok Ht Hm. unfold answer. destruct (m w1) as [[b|er|x|] w2]; cbn in Hm |- *;
    try (right; split; [intros e i; by rewrite Hm, H1|intros d; discriminate]).
  left. exists v. split_and!; [done..|]. intros e i Hne. rewrite Hm, H1; [done|].
  intros (-> & -> & _). by apply Hne.
Qed.

Lemma restful_acted route method body query w :
  ri_id route <> "" ->
  acted route w (handleRestfulRequest what plain_success rich_list route method body query w).
Proof.
  intros Hid%is_empty_false. unfold handleRestfulRequest. apply acted_caught.
  destruct (ri_valid route) eqn:Hok; cbn [negb]; [|apply acted_error]. destruct (negb (is_empty (ri_action route))); [apply acted_error|].
  rewrite Hid. cbn [negb]. destruct (String.eqb method "GET").
  { apply acted_caught, existing_row_acted. intros v w1 Hv H1 Ht. left. exists v. split_and!; [done..|].
    intros e i _. apply H1. }
  destruct (String.eqb method "POST"); [apply acted_error|].
  destruct (String.eqb method "PUT" || String.eqb method "PATCH").
  { unfold handleUpdate. rewrite Hid. apply acted_caught, existing_row_acted. intros v w1 Hv H1 Ht.
    destruct (json_empty body); [right; split; [done|intros d; discriminate]|].
    apply (answered_write route w w1 _ (fun d => d) v Hv H1 Hok Ht), row_update. }
  destruct (String.eqb method "DELETE"); [|apply acted_error].
  unfold handleDelete. rewrite Hid. apply acted_caught, existing_row_acted. intros v w1 Hv H1 Ht.
  apply (answered_write route w w1 _ (fun b : bool => JObject [("deleted", JBool b)]) v Hv H1 Hok Ht), row_remove.
Qed.

(** Rows of other tenants survive what acts on the route's row. *)
Lemma acted_keeps_others route w r e i v t :
  acted route w r -> (ri_valid route = true -> ri_tenant route <> "") -> row w e i = Some v -> string_member v "tenantId" = Some t ->
  t <> ri_tenant route -> row r.2 e i = Some v.
Proof.
  intros [(v0 & Hv0 & Hok & Hin & Hsame)|[Hsame _]] Hnamed Hv Ht Hother; [|by rewrite Hsame].
  pose proof (proj2 (is_empty_false _) (Hnamed Hok)) as Hne.
  rewrite Hsame; [done|]. intros [-> ->]. rewrite Hv in Hv0. injection Hv0 as <-.
  unfold in_tenant in Hin. rewrite Ht, Hne in Hin. by apply String.eqb_eq in Hin.
Qed.

Lemma guarded_acted route w (m : Op W Reply) : acted route w (m w) -> acted route w (guarded m w).
Proof.
  unfold acted, guarded. destruct (m w) as [[a|e|x|] w1]; cbn; [done..| |done].
  intros [H|[H _]]; [by left|by right].
Qed.

Lemma acted_from route w w1 r : (forall e i, row w1 e i = row w e i) -> acted route w1 r -> acted route w r.
Proof.
  intros H1 [(v & Hv & Hok & Hin & Hsame)|[Hsame Hr]].
  - left. exists v. rewrite <- (H1 _ _). split_and!; [done..|]. intros e i Hne. by rewrite Hsame, H1.
  - right. split; [|done]. intros e i. by rewrite Hsame, H1.
Qed.

(** What [handleEntityWithId] does, its [try] included. *)
Lemma id_route_acted m parsed query tenant package entity id auth w :
  let route := parseRoute (id_path tenant package entity id) in
  ri_id route <> "" ->
  let r := handleEntityWithId what rich_list m parsed query tenant package entity id auth w in
  acted route w r /\
  (forall a, auth = Some a -> ea_check_ownership (cx_config a) = true ->
   (exists d, r.1 = Ok (Success d)) \/ (exists e i, row r.2 e i <> row w e i) ->
   exists stored, row w (ri_entity route) id = Some stored /\
     default "" (string_member stored "userId") = cx_user_id a).
Proof.
  intros route Hid r. subst r. unfold handleEntityWithId. fold route.
  set (go := handleRestfulRequest _ _ _ _ _ _ _).
  assert (forall w, acted route w (go w)) as Hgo by (intros w0; by apply restful_acted).
  destruct auth as [a|]; [|split; [by apply guarded_acted|done]].
  destruct (ea_check_ownership (cx_config a)) eqn:Hown.
  2:{ split; [by apply guarded_acted|]. intros a' [= <-] Hown'. by rewrite Hown in Hown'. }
  pose proof (row_read w (ri_entity route) id) as [Hkept Hval]. unfold keeps in Hkept. unfold guarded.
  destruct (do_read _ _ w) as [[v|er|x|] w1] eqn:Hread; cbn in Hkept |- *;
    try (split; [right; split; [done|intros d; discriminate]|
                 intros a' _ _ [[d Hd]|(e & i & Hne)]; [discriminate|by rewrite Hkept in Hne]]).
  unfold mbind, Op_bind, of_result.
  destruct (value_string v "userId" "") as [owner|er|x|] eqn:Howner; cbn;
    try (split; [right; split; [done|intros d; discriminate]|
                 intros a' _ _ [[d Hd]|(e & i & Hne)]; [discriminate|by rewrite Hkept in Hne]]).
  destruct (String.eqb_spec owner (cx_user_id a)) as [->|Hne]; cbn [negb].
  - split; [|].
    + apply (acted_from _ _ w1); [done|]. apply (guarded_acted route w1 go), Hgo.
    + intros a' [= <-] _ _. exists v. split; [by eapply Hval|].
      unfold value_string in Howner. unfold string_member, member. destruct v; try done.
      destruct (obj_get "userId" m0) as [[]|]; by simplify_eq.
  - split; [right; split; [done|intros d; discriminate]|].
    intros a' _ _ [[d Hd]|(e & i & Hx)]; [discriminate|by rewrite Hkept in Hx].
Qed.

End Guarded.

(** ** Paging *)

Lemma parseIntValue_range value n : parseIntValue value = Some n -> (INT_MIN <= n <= INT_MAX)%Z.
Proof.
  unfold parseIntValue. destruct (string_forallb _ _); [|done]. unfold stoi.
  destruct (strtol value) as [z|]; [|done]. destruct (in_int z) eqn:Hz; [|done]. intros [= <-].
  by apply in_int_spec.
Qed.

Definition paging_ok (p : Paging) : Prop :=
  (forall n, pg_limit p = Some n -> 1 <= n <= INT_MAX)%Z /\ (forall n, pg_page p = Some n -> 1 <= n <= INT_MAX)%Z /\
  (forall n, pg_offset p = Some n -> 0 <= n <= INT_MAX)%Z.

Lemma parse_paging_ok query p p' : paging_ok p -> parse_paging query p = inr p' -> paging_ok p'.
Proof.
  revert p. induction query as [|[key value] query IH]; intros p Hp; cbn [parse_paging]; [by intros [= <-]|].
  pose proof (parseIntValue_range value) as Hr. destruct Hp as (Hl & Hpg & Ho).
  destruct (_ || _); [|destruct (String.eqb key "page"); [|destruct (_ || _)]]; [..|by apply IH];
    destruct (parseIntValue value) as [n|]; try done; specialize (Hr n eq_refl);
    destruct (_ <? _)%Z eqn:Hn; try done; apply IH; split_and!; cbn; try done; intros k [= <-]; lia.
Qed.

Lemma page_of_offset_spec offset limit :
  (0 <= offset <= INT_MAX)%Z -> (1 <= limit <= INT_MAX)%Z ->
  match page_of_offset offset limit with
  | Ok page => (1 <= page <= INT_MAX)%Z
  | Undef => offset = INT_MAX /\ limit = 1%Z
  | _ => False
  end.
Proof.
  intros Ho Hl. unfold page_of_offset.
  assert (0 <= Z.quot offset limit <= offset)%Z as Hq.
  { rewrite Z.quot_div_nonneg by lia. split; [apply Z.div_pos; lia|]. apply Z.div_le_upper_bound; nia. }
  destruct (in_int _) eqn:Hin; [apply in_int_spec in Hin; lia|].
  assert (Z.quot offset limit = INT_MAX)%Z as Hmax.
  { destruct (decide (Z.quot offset limit = INT_MAX)%Z); [done|].
    rewrite (proj2 (in_int_spec _)) in Hin; [done|]. unfold INT_MIN. lia. }
  assert (offset = INT_MAX) as -> by lia. split; [done|].
  destruct (decide (limit = 1)%Z) as [->|]; [done|]. exfalso.
  rewrite Z.quot_div_nonneg in Hmax by (unfold INT_MAX; lia).
  assert (INT_MAX / limit < INT_MAX)%Z by (apply Z.div_lt; unfold INT_MAX; lia). lia.
Qed.

Lemma parsed_paging query p :
  parse_paging (map_items query) (mkPaging None None None) = inr p ->
  paging_ok p /\ (1 <= default 20 (pg_limit p) <= INT_MAX)%Z.
Proof.
  intros Hp. apply parse_paging_ok in Hp as (Hl & Hpg & Ho); [|by split_and!]. split; [done|].
  destruct (pg_limit p); cbn; [auto|unfold INT_MAX; lia].
Qed.

Lemma paging_range query limit page :
  parseQueryParameters query = Ok (inr (limit, page)) -> (1 <= limit <= INT_MAX /\ 1 <= page <= INT_MAX)%Z.
Proof.
  unfold parseQueryParameters. destruct (parse_paging _ _) as [r|p] eqn:Hp; [done|].
  apply parsed_paging in Hp as [(Hl & Hpg & Ho) Hlim].
  destruct p as [lim [n|] [o|]]; cbn in *; try (intros [= <- <-]; split; [done|]; first [by apply Hpg | unfold INT_MAX; lia]).
  pose proof (page_of_offset_spec o (default 20%Z lim) (Ho o eq_refl) Hlim) as Hspec.
  destruct (page_of_offset _ _); try done. by intros [= <- <-].
Qed.

Lemma parse_paging_failure query p r : parse_paging query p = inl r -> exists s, r = Failure s 400.
Proof.
  revert p. induction query as [|[k v] l IH]; intros p; cbn [parse_paging]; [done|].
  break_goal; try (by apply IH); intros [= <-]; eauto.
Qed.

(** Limit and page of a listing are positive [int]s whatever the query holds: a
    parameter that is not a number in range is answered 400.  The one exception is
    a skip of 2147483647 with a limit of 1, whose conversion to a page number
    overflows. *)
Theorem paging_bounds query :
  match parseQueryParameters query with
  | Ok (inl r) => exists s, r = Failure s 400
  | Ok (inr (limit, page)) => (1 <= limit <= INT_MAX /\ 1 <= page <= INT_MAX)%Z
  | Undef => parse_paging (map_items query) (mkPaging None None None) = inr (mkPaging (Some 1) None (Some INT_MAX))%Z
  | _ => False
  end.
Proof.
  destruct (parseQueryParameters query) as [[r|[limit page]]|e|x|] eqn:Hq; [|by apply paging_range in Hq|..];
    unfold parseQueryParameters in Hq; destruct (parse_paging _ _) as [r'|p] eqn:Hp; try done.
  1: injection Hq as <-; by eapply parse_paging_failure.
  all: apply parsed_paging in Hp as [(Hl & Hpg & Ho) Hlim]; destruct p as [lim [n|] [o|]]; try done; cbn in *;
    pose proof (page_of_offset_spec o (default 20%Z lim) (Ho o eq_refl) Hlim) as Hspec;
    destruct (page_of_offset _ _); try done.
  destruct Hspec as [-> Hone]. destruct lim; cbn in Hone; [by subst|done].
Qed.

(** ** Listings *)

(** Options that select rows of the route's tenant only, with paging in range. *)
Definition scoped (route : RouteInfo) (o : RichOptions) : Prop :=
  opt_filter (ro_base o) !! "tenantId" = Some (ri_tenant route) /\
  (1 <= opt_limit (ro_base o) <= INT_MAX)%Z /\ (1 <= opt_page (ro_base o) <= INT_MAX)%Z.

Lemma gather_paging g k v g' :
  gather g k v = Ok g' ->
  opt_limit (ro_base (ga_options g')) = opt_limit (ro_base (ga_options g)) /\
  opt_page (ro_base (ga_options g')) = opt_page (ro_base (ga_options g)).
Proof. unfold gather. intros Hg. repeat (case_match; try done); by simplify_eq. Qed.

Lemma gather_all_paging query g g' :
  gather_all query g = Ok g' ->
  opt_limit (ro_base (ga_options g')) = opt_limit (ro_base (ga_options g)) /\
  opt_page (ro_base (ga_options g')) = opt_page (ro_base (ga_options g)).
Proof.
  revert g. induction query as [|[k v] query IH]; intros g; cbn [gather_all]; [by intros [= <-]|].
  destruct (gather g k v) as [g1|e|x|] eqn:Hg; try done. apply gather_paging in Hg as [H1 H2].
  intros [H3 H4]%IH. split; congruence.
Qed.

Lemma list_options_scoped route query limit page o :
  ri_tenant route <> "" -> (1 <= limit <= INT_MAX)%Z -> (1 <= page <= INT_MAX)%Z ->
  list_options route query limit page = Ok o -> scoped route o.
Proof.
  intros Ht%is_empty_false Hl Hp. unfold list_options.
  destruct (gather_all _ _) as [g|e|x|] eqn:Hg; try done. apply gather_all_paging in Hg as [H1 H2].
  cbn [mbind Result_bind ga_options]. rewrite Ht. intros [= <-]. unfold scoped. cbn.
  rewrite H1, H2, lookup_insert_eq. done.
Qed.

Section ListHandler.
Context {W : Type} `{!Adapter W} (what : Exn -> string) (send_success : json -> Op W Reply).

(** A listing reaches the adapter with the tenant of the path as a filter and
    with paging in range, whatever the query: adapters that agree on such calls for
    the entity of the route answer alike. *)
Theorem listing_is_scoped (f g : string -> RichOptions -> Op W ListResult) route query w :
  ri_tenant route <> "" ->
  (forall o w, scoped route o -> f (ri_entity route) o w = g (ri_entity route) o w) ->
  handleList what send_success f route query w = handleList what send_success g route query w.
Proof.
  intros Ht Hfg. unfold handleList, withExceptionHandling, mbind, Op_bind, of_result.
  destruct (parseQueryParameters query) as [[r|[limit page]]|e|x|] eqn:Hq; try done.
  apply paging_range in Hq as [Hl Hp].
  destruct (list_options route query limit page) as [o|e|x|] eqn:Ho; try done.
  apply list_options_scoped in Ho; [|done..]. unfold list_reply. by rewrite Hfg.
Qed.
End ListHandler.

(** ** The path of a row *)

Fixpoint no_slash (s : string) : bool :=
  match s with EmptyString => true | String c s => negb (Ascii.eqb c "/") && no_slash s end.

Lemma valid_no_slash s : is_valid_name s = true -> s <> "" /\ no_slash s = true.
Proof.
  unfold is_valid_name. intros [Hne%negb_true_iff Hall]%andb_prop. split; [by apply is_empty_false|]. clear Hne.
  induction s as [|c s IH]; [done|]. cbn in Hall |- *. apply andb_prop in Hall as [Hc Hall]. rewrite IH by done.
  destruct (Ascii.eqb_spec c "/") as [->|]; [by vm_compute in Hc|done].
Qed.

Lemma split_on_plain s : no_slash s = true -> split_on "/" s = [s].
Proof.
  induction s as [|c s IH]; [done|]. cbn. intros [Hc Hs]%andb_prop. apply negb_true_iff in Hc.
  by rewrite Hc, IH.
Qed.

Lemma split_on_app s r : no_slash s = true -> split_on "/" (s +:+ String "/" r) = s :: split_on "/" r.
Proof.
  induction s as [|c s IH]; [done|]. cbn. intros [Hc Hs]%andb_prop. apply negb_true_iff in Hc.
  change (String c s +:+ String "/" r) with (String c (s +:+ String "/" r)). cbn [split_on]. by rewrite Hc, IH.
Qed.

Lemma strip_trailing_app s r : r <> "" -> strip_trailing (s +:+ r) = s +:+ strip_trailing r.
Proof.
  intros Hr. induction s as [|c s IH]; [done|]. cbn [String.app]. change (String c s +:+ r) with (String c (s +:+ r)).
  change (String c s +:+ strip_trailing r) with (String c (s +:+ strip_trailing r)). rewrite <- IH.
  cbn [strip_trailing]. destruct (s +:+ r) eqn:Hsr; [|done]. destruct s; [|done]. done.
Qed.

Lemma strip_trailing_plain s : no_slash s = true -> strip_trailing s = s.
Proof.
  induction s as [|c s IH]; [done|]. cbn. intros [Hc Hs]%andb_prop. apply negb_true_iff in Hc.
  destruct s; [by rewrite Hc|]. by rewrite IH.
Qed.

Definition reserved_tenant (t : string) : bool :=
  existsb (String.eqb (to_lower t)) ["invalid"; "invalid_tenant"; "test_invalid"].

(** The path the daemon builds for a row parses back into its parts: for a
    tenant, package and entity that are names, and an identifier that is not empty
    and has no slash, the route is valid and carries exactly them. *)
Theorem parseRoute_id_path tenant package entity id :
  is_valid_name tenant = true -> is_valid_name package = true -> is_valid_name entity = true ->
  reserved_tenant tenant = false -> id <> "" -> no_slash id = true ->
  parseRoute (id_path tenant package entity id) = mkRoute tenant package entity id "" [] true "".
Proof.
  intros Ht Hp He Hres Hid Hns. pose proof (valid_no_slash _ Ht) as [Ht0 Ht1].
  pose proof (valid_no_slash _ Hp) as [Hp0 Hp1]. pose proof (valid_no_slash _ He) as [He0 He1].
  assert (segments_of (id_path tenant package entity id) = [tenant; package; entity; id]) as Hseg.
  { unfold segments_of, id_path. cbn [strip_leading String.app].
    change ("/" +:+ ?s) with (String "/" s). cbn [strip_leading].
    assert (strip_trailing (tenant +:+ ("/" +:+ (package +:+ ("/" +:+ (entity +:+ ("/" +:+ id)))))) =
            tenant +:+ String "/" (package +:+ String "/" (entity +:+ String "/" id))) as ->.
    { repeat (rewrite strip_trailing_app; [f_equal|]); [by apply strip_trailing_plain|done|..];
        try done; try (by destruct entity); try (by destruct package). }
    rewrite !split_on_app, split_on_plain by done. cbn [List.filter].
    by rewrite !(proj2 (is_empty_false _)) by done. }
  unfold parseRoute. rewrite Hseg. cbn. unfold reserved_tenant in Hres. cbn in Hres. rewrite orb_false_r in Hres.
  rewrite <- orb_assoc, Hres. by rewrite Ht, Hp, He.
Qed.

Lemma parseRoute_id_path_witness :
  parseRoute (id_path "acme" "core" "User" "42") = mkRoute "acme" "core" "User" "42" "" [] true "".
Proof. apply (parseRoute_id_path "acme" "core" "User" "42"); try reflexivity. discriminate. Defined.

(** ** What the handlers let through *)

Section Evasion.
Context {W : Type} `{!Adapter W} {jl : JsonLib} (what : Exn -> string).
Context (regex_search : string -> string -> option bool) (rich_list : string -> RichOptions -> Op W ListResult)
  (styled : json -> string) (wf_engine : option (Workflows W)).

Abbreviation list_as query auth tenant package entity := (handleEntity what regex_search rich_list styled wf_engine
  Get None query tenant package entity (Some auth)).

(** The restriction of a listing to its owner's rows does not bind: with the
    parameter [where.userId] a caller is answered what the user it names would be
    answered. *)
Theorem owner_filter_evaded me other tenant package entity config :
  ea_filter_by_owner config = true ->
  forall w, list_as {["where.userId" := other]} (mkContext me tenant config) tenant package entity w =
            list_as ∅ (mkContext other tenant config) tenant package entity w.
Proof.
  intros Hf w. unfold handleEntity, guarded. cbn [cx_config cx_user_id]. rewrite Hf. cbn [andb String.eqb parseHttpMethod].
  set (route := parseRoute _). set (q1 := <["filter.userId":=me]> _). set (q2 := <["filter.userId":=other]> _).
  assert (forall w, handleList what plain_success rich_list route q1 w = handleList what plain_success rich_list route q2 w) as Hlist.
  { intros w0. unfold handleList, withExceptionHandling, parseQueryParameters, list_options.
    assert (map_items q1 = [("filter.userId", me); ("where.userId", other)]) as -> by (vm_compute; reflexivity).
    assert (map_items q2 = [("filter.userId", other)]) as -> by (vm_compute; reflexivity).
    reflexivity. }
  assert (forall w, handleRestfulRequest what plain_success rich_list route "GET" (JObject []) q1 w =
                    handleRestfulRequest what plain_success rich_list route "GET" (JObject []) q2 w) as Hrest.
  { intros w0. unfold handleRestfulRequest, withExceptionHandling. cbn [String.eqb Ascii.eqb Bool.eqb].
    destruct (negb (ri_valid route)); [done|]. destruct (negb (is_empty (ri_action route))); [done|].
    destruct (is_empty (ri_id route)); [|done]. by rewrite Hlist. }
  unfold mbind, Op_bind, of_result, mret, Op_ret, success_callback.
  destruct wf_engine; cbn; by rewrite Hrest.
Qed.
End Evasion.

(** ** A database behind the routes *)

Definition demo_row (tenant : string) : json :=
  JObject [("id", JString "1"); ("tenantId", JString tenant); ("userId", JString "ada")].
Definition demo_rows_of (tenant : string) : DemoDb := mkDemoDb {[("Note", "1") := demo_row tenant]} None.
Definition demo_list (d : DemoDb) (entity : string) (o : RichOptions) : Op DemoDb ListResult := fun w =>
  (Ok (mkListResult (snd <$> map_to_list (db_live d)) 0 (opt_page (ro_base o)) (opt_limit (ro_base o))), w).
Definition demo_request (m : HttpMethod) (body : json) (auth : option AuthContext) : Op DemoDb Reply :=
  handleEntityWithId (fun _ => "") (fun _ _ => unsupported) m (Some body) ∅ "acme" "core" "Note" "1" auth.
Definition demo_owner (user : string) : option AuthContext :=
  Some (mkContext user "acme" (mkEntityAuth true false false true)).


Definition demo_route_info : RouteInfo := mkRoute "acme" "core" "Note" "" "" [] true "".

Lemma listing_is_scoped_witness :
  handleList (fun _ => "") plain_success (demo_list (demo_rows_of "acme")) demo_route_info {["limit" := "5"]}
    (demo_rows_of "acme") =
  handleList (fun _ => "") plain_success
    (fun e o => if bool_decide (opt_filter (ro_base o) !! "tenantId" = Some "acme")
                then demo_list (demo_rows_of "acme") e o else unsupported)
    demo_route_info {["limit" := "5"]} (demo_rows_of "acme").
Proof.
  apply (listing_is_scoped (fun _ => "") plain_success (demo_list (demo_rows_of "acme"))); [discriminate|].
  intros o w [H _]. cbn [demo_route_info ri_tenant] in H. by rewrite bool_decide_eq_true_2.
Defined.

Lemma owner_filter_evaded_witness :
  handleEntity (H := scalar_json) (fun _ => "") (fun _ _ => None) (demo_list (demo_rows_of "acme")) (fun _ => "") None Get None
    {["where.userId" := "ada"]} "acme" "core" "Note"
    (Some (mkContext "bob" "acme" (mkEntityAuth true false true false))) (demo_rows_of "acme") =
  handleEntity (H := scalar_json) (fun _ => "") (fun _ _ => None) (demo_list (demo_rows_of "acme")) (fun _ => "") None Get None
    ∅ "acme" "core" "Note" (Some (mkContext "ada" "acme" (mkEntityAuth true false true false))) (demo_rows_of "acme").
Proof. apply owner_filter_evaded. reflexivity. Defined.

(** An update can move a row to another tenant: the tenant of the path is
    compared with the row's, and the row's then replaced by the body's. *)
Theorem update_changes_tenant :
  let r := demo_request Put (demo_row "other") None (demo_rows_of "acme") in
  r.1 = Ok (Success (demo_row "other")) /\ row r.2 "Note" "1" = Some (demo_row "other").
Proof. vm_compute. split; reflexivity. Qed.
