(* ===== verification/BulkRoutes.v ===== *)
(** * Bulk, batch and search routes

    The requests that name several rows: src/daemon/bulk_handler.cpp,
    src/daemon/handlers/batch_route_handler.cpp and src/daemon/search_handler.cpp,
    with the checks their routes make first (src/daemon/server_routes.cpp).  Each
    runs its items inside a transaction of the adapter and rolls back at the first
    that fails.  The search route's listing and the bulk routes' rows are those of
    the adapter; neither looks at the tenant of a row. *)

From S2P Require Import Prelude CxxString CxxStd Store Json Adapter Jwt AccessControl EntityRoutes.

Open Scope string_scope.

(** ** What stands before the handlers *)

(** The limiter, under the peer's address, and the client: no access rule is asked. *)
Definition plain_gate (max_read max_mutation : Z) (ensureClient : bool) (t1 t2 : Z) (req : HttpRequest) :
    Op Limiters (option Response) :=
  ok ← limited max_read max_mutation t1 t2 req (hr_peer_ip req);
  mret (if negb ok then Some (mkResponse 429 "")
        else if negb ensureClient then Some (mkResponse 503 "DBAL client is unavailable") else None).

(** The body of a bulk route: no text, or one that does not parse, is no items. *)
Definition bulk_body (parsed : option json) : json := default (JArray []) parsed.
Definition entity_path (tenant package entity : string) : RouteInfo :=
  parseRoute ("/" +:+ (tenant +:+ ("/" +:+ (package +:+ ("/" +:+ entity))))).

Section Handlers.
Context {W : Type} `{!Adapter W} (what : Exn -> string).
(** The text [asString] makes of a double. *)
Context (real_text : SpecFloat.spec_float -> string).

(** A call whose result is not looked at. *)
Definition discard {A} (m : Op W A) : Op W unit := fun w =>
  match m w with
  | (Ok _, w') | (Err _, w') => (Ok tt, w')
  | (r, w') => (recast r, w')
  end.

(** [rollbackTransaction(); sendError(...); return;] *)
Definition abandon {A} (r : Reply) : Op W (Reply + A) := _ ← discard do_rollbackTransaction; mret (inl r).
Definition refuse {A} (message : string) : Op W (Reply + A) := abandon (Failure message 400).

(** A call of the adapter in an item: its result, or what the item fails with. *)
Definition attempt {A B} (m : Op W A) (k : A -> B) (failed : Error -> Reply) : Op W (Reply + B) := fun w =>
  match m w with
  | (Ok a, w') => (Ok (inr (k a)), w')
  | (Err e, w') => abandon (failed e) w'
  | (r, w') => (recast r, w')
  end.

(** The loop over the items, the n-th of which is next. *)
Fixpoint each (step : Z -> json -> Op W (Reply + json)) (items : list json) (n : Z) (results : list json) :
    Op W (Reply + list json) :=
  match items with
  | [] => mret (inr results)
  | item :: items =>
      r ← step n item;
      match (r : Reply + json) with
      | inl reply => mret (inl reply)
      | inr x => each step items (n + 1)%Z (results ++ [x])%list
      end
  end.

Definition commit (reply : Reply) : Op W Reply := fun w =>
  match do_commitTransaction w with
  | (Ok _, w') => (Ok reply, w')
  | (Err _, w') => (Ok (Failure "Failed to commit transaction" 500), w')
  | (r, w') => (recast r, w')
  end.

(** A transaction around the loop. *)
Definition in_transaction (loop : Op W (Reply + list json)) (finish : list json -> Reply) : Op W Reply := fun w =>
  match do_beginTransaction w with
  | (Ok _, w1) =>
      (r ← loop;
       match (r : Reply + list json) with inl reply => mret reply | inr results => commit (finish results) end) w1
  | (Err _, w1) => (Ok (Failure "Failed to begin transaction" 500), w1)
  | (r, w1) => (recast r, w1)
  end.

Definition counted (field data : string) (results : list json) : Reply :=
  Success (object [("success", JBool true); (field, JInt (Z.of_nat (length results))); (data, JArray results)]).

(** The part the three handlers share. *)
Definition bulk (what_is items_are : string) (step : Z -> json -> Op W (Reply + json)) (finish : list json -> Reply)
    (body : json) : Op W Reply := withExceptionHandling what (
  match body with
  | JArray [] => send_error (what_is +:+ " requires a non-empty array") 400
  | JArray items => in_transaction (each step items 0 []) finish
  | _ => send_error (what_is +:+ (" requires an array of " +:+ items_are)) 400
  end).

Definition at_item (what_is : string) (n : Z) (rest : string) : string :=
  what_is +:+ (" item " +:+ (to_string n +:+ rest)).

Definition create_item (route : RouteInfo) (n : Z) (item : json) : Op W (Reply + json) :=
  nItem ← of_result (with_tenant route item);
  attempt (do_create (ri_entity route) nItem) (fun v => v) (fun e =>
    Failure (at_item "Bulk create failed at" n (": " +:+ message e)) 400).
Definition handleBulkCreate (route : RouteInfo) : json -> Op W Reply :=
  bulk "Bulk create" "resources" (create_item route) (counted "inserted" "data").

(** [item["id"].asString()] of the HTTP library's value. *)
Definition as_string (v : json) : Result string :=
  match v with
  | JString s => Ok s
  | JNull => Ok ""
  | JBool b => Ok (if b then "true" else "false")
  | JInt z => Ok (to_string z)
  | JFloat f => Ok (real_text f)
  | _ => Throw (runtime_error "Type is not convertible to string")
  end.

Definition update_item (route : RouteInfo) (n : Z) (item : json) : Op W (Reply + json) :=
  match member item "id", member item "data" with
  | Some id, Some data =>
      itemId ← of_result (as_string id);
      if is_empty itemId then refuse (at_item "Bulk update" n " has empty 'id'")
      else attempt (do_update (ri_entity route) itemId data) (fun v => v) (fun e =>
        Failure (at_item "Bulk update failed at" n (" (id=" +:+ (itemId +:+ ("): " +:+ message e)))) 400)
  | _, _ => refuse (at_item "Bulk update" n " must be an object with 'id' and 'data' fields")
  end.
Definition handleBulkUpdate (route : RouteInfo) : json -> Op W Reply :=
  bulk "Bulk update" "updates" (update_item route) (counted "updated" "data").

Definition delete_item (route : RouteInfo) (n : Z) (item : json) : Op W (Reply + json) :=
  match item with
  | JString itemId =>
      if is_empty itemId then refuse (at_item "Bulk delete" n " has empty ID")
      else attempt (do_remove (ri_entity route) itemId) (fun _ => JString itemId) (fun e =>
        Failure (at_item "Bulk delete failed at" n (" (id=" +:+ (itemId +:+ ("): " +:+ message e)))) 400)
  | _ => refuse (at_item "Bulk delete" n " must be a string ID")
  end.
Definition handleBulkDelete (route : RouteInfo) : json -> Op W Reply :=
  bulk "Bulk delete" "IDs" (delete_item route) (counted "deleted" "ids").

(** ** Batches *)

Definition operation (n : Z) (rest : string) : string := "Operation " +:+ (to_string n +:+ rest).
Definition failed_operation (n : Z) (rest : string) (e : Error) : Reply :=
  Failure (operation n (rest +:+ (") failed: " +:+ message e))) (http_status (code e)).

(** [op["id"]], when it is a text that is not empty. *)
Definition operation_id (op : json) : option string :=
  match string_member op "id" with Some id => if is_empty id then None else Some id | None => None end.
Definition operation_data (op : json) : option json :=
  match member op "data" with Some (JObject m) => Some (JObject m) | _ => None end.

Definition batch_step (tenant : string) (n : Z) (op : json) : Op W (Reply + json) :=
  if negb (is_object op) then refuse (operation n " must be an object") else
  match string_member op "action", string_member op "entity" with
  | None, _ => refuse (operation n " missing required 'action' field")
  | _, None => refuse (operation n " missing required 'entity' field")
  | Some action, Some entity =>
      let opResult rest :=
        object ([("operation", JInt n); ("action", JString action); ("entity", JString entity)] ++ rest) in
      let on id := " on " +:+ (entity +:+ (" id=" +:+ id)) in
      if String.eqb action "create" then
        match operation_data op with
        | None => refuse (operation n " (create): missing required 'data' object")
        | Some data =>
            nData ← of_result (with_tenant (mkRoute tenant "" "" "" "" [] true "") data);
            attempt (do_create entity nData) (fun v => opResult [("data", v)])
              (failed_operation n (" (create on " +:+ entity))
        end
      else if String.eqb action "update" then
        match operation_id op, operation_data op with
        | None, _ => refuse (operation n " (update): missing required 'id' field")
        | _, None => refuse (operation n " (update): missing required 'data' object")
        | Some id, Some data =>
            attempt (do_update entity id data) (fun v => opResult [("id", JString id); ("data", v)])
              (failed_operation n (" (update" +:+ on id))
        end
      else if String.eqb action "delete" then
        match operation_id op with
        | None => refuse (operation n " (delete): missing required 'id' field")
        | Some id =>
            attempt (do_remove entity id) (fun _ => opResult [("id", JString id); ("deleted", JBool true)])
              (failed_operation n (" (delete" +:+ on id))
        end
      else refuse (operation n (": unsupported action '" +:+ (action +:+ "' (valid: create, update, delete)")))
  end.

(** [Success] here is the whole body of the answer. *)
Definition handleBatch (parsed : option json) (tenant : string) : Op W Reply := guarded (
  match parsed with
  | None => send_error "Invalid JSON body" 400
  | Some body =>
      known ← of_result (isMember body "operations");
      match (known : bool), member body "operations" with
      | true, Some (JArray []) => send_error "Operations array must not be empty" 400
      | true, Some (JArray operations) =>
          in_transaction (each (batch_step tenant) operations 0 []) (counted "operations" "results")
      | _, _ => send_error "Request body must contain an 'operations' array" 400
      end
  end).

(** ** Search *)

Definition search_limit (limit_param : string) : Z :=
  if is_empty limit_param then 20 else match stoi limit_param with Ok n => n | _ => 20 end.

Definition handleSearch (route : RouteInfo) (query : string) (limit : Z) : Op W Reply := withExceptionHandling what (fun w =>
  match do_search (ri_entity route) query limit w with
  | (Ok hits, w') =>
      (Ok (Success (object [("data", JArray (lr_items hits)); ("total", JInt (lr_total hits));
         ("limit", JInt (lr_limit hits)); ("source", JString "search-index")])), w')
  | (Err e, w') => (Ok (Failure (message e) 503), w')
  | (r, w') => (recast r, w')
  end).

Definition search_route (tenant package entity q limit_param : string) : Op W Reply :=
  if is_empty q then send_error "query parameter 'q' is required" 400
  else handleSearch (entity_path tenant package entity) q (search_limit limit_param).
End Handlers.

(** ** Transactions *)

(** What the handlers rely on: [saved] is the rows as they were when the open
    transaction began. *)
Class Transactions (W : Type) `{Rows W} := {
  saved : W -> option row_map;
  tx_begin : forall w,
    match do_beginTransaction w with
    | (Ok _, w') => exists s, saved w' = Some s /\ forall e id, s e id = row w e id
    | (_, w') => saved w' = saved w
    end;
  tx_create : forall w e v, saved (do_create e v w).2 = saved w;
  tx_update : forall w e id v, saved (do_update e id v w).2 = saved w;
  tx_remove : forall w e id, saved (do_remove e id w).2 = saved w;
  tx_rollback : forall w s, saved w = Some s ->
    exists w', do_rollbackTransaction w = (Ok true, w') /\ saved w' = None /\ forall e id, row w' e id = s e id;
  tx_commit : forall w b w', do_commitTransaction w = (Ok b, w') -> saved w' = None;
}.

Section Atomic.
Context {W : Type} {A : Adapter W} {R : Rows W} {T : Transactions W} (what : Exn -> string)
  (real_text : SpecFloat.spec_float -> string).
Implicit Types w : W.

(** Back to the rows [s], with no transaction open. *)
Definition undone (s : row_map) w : Prop := saved w = None /\ forall e id, row w e id = s e id.

(** A step that keeps the transaction open, or refuses its item and undoes it. *)
Definition transactional {B} (m : Op W (Reply + B)) : Prop :=
  forall w s, saved w = Some s ->
  match m w with
  | (Ok (inl (Failure _ _)), w') => undone s w'
  | (Ok (inl _), _) => False
  | (Ok (inr _), w') => saved w' = Some s
  | (Err _, _) => False
  | _ => True
  end.

Lemma abandon_transactional {B} m c : transactional (B := B) (abandon (Failure m c)).
Proof.
  intros w s Hs. unfold abandon, discard, mbind, Op_bind.
  destruct (tx_rollback w s Hs) as (w' & -> & Hw'). exact Hw'.
Qed.

Lemma attempt_transactional {X B} (m : Op W X) (k : X -> B) failed :
  (forall w, saved (m w).2 = saved w) -> (forall e, exists s c, failed e = Failure s c) ->
  transactional (attempt m k failed).
Proof.
  intros Hm Hf w s Hs. unfold attempt. specialize (Hm w). destruct (m w) as [[a|e|x|] w1]; cbn in *; try done.
  - by rewrite Hm.
  - destruct (Hf e) as (t & c & ->). apply (abandon_transactional t c w1 s). by rewrite Hm.
Qed.

Lemma of_result_transactional {X B} (r : Result X) (k : X -> Op W (Reply + B)) :
  (forall e, r <> Err e) -> (forall x, transactional (k x)) -> transactional (x ← of_result r; k x).
Proof.
  intros Hr Hk w s Hs. unfold mbind, Op_bind, of_result. destruct r as [x|e|x|]; [by apply Hk|by destruct (Hr e)|done..].
Qed.

Lemma with_tenant_no_err route data e : with_tenant route data <> Err e.
Proof. unfold with_tenant, assign_member. by repeat case_match. Qed.
Lemma as_string_no_err v e : as_string real_text v <> Err e.
Proof. unfold as_string. by repeat case_match. Qed.

Hint Resolve abandon_transactional attempt_transactional of_result_transactional with_tenant_no_err
  as_string_no_err tx_create tx_update tx_remove : tx.
Ltac tx := intros; unfold refuse;
  repeat (first [case_match | apply of_result_transactional; [by auto with tx|intros] |
    apply abandon_transactional | apply attempt_transactional; [by auto with tx|unfold failed_operation; by eauto]]).

Lemma create_item_tx route n item : transactional (create_item route n item).
Proof. unfold create_item. tx. Qed.
Lemma update_item_tx route n item : transactional (update_item real_text route n item).
Proof. unfold update_item. tx. Qed.
Lemma delete_item_tx route n item : transactional (delete_item route n item).
Proof. unfold delete_item. tx. Qed.
Lemma batch_step_tx tenant n op : transactional (batch_step tenant n op).
Proof. unfold batch_step. tx. Qed.

Lemma each_transactional step items n results :
  (forall n item, transactional (step n item)) -> transactional (each step items n results).
Proof.
  intros Hstep. revert n results. induction items as [|item items IH]; intros n results w s Hs; [exact Hs|].
  cbn [each]. unfold mbind, Op_bind. pose proof (Hstep n item w s Hs) as Hw.
  destruct (step n item w) as [[[[d|m c]|x]|e|x|] w1]; cbn; try done. by apply IH.
Qed.

(** What a request leaves: everything or nothing, and no open transaction; an
    answer of 500 promises less. *)
Definition all_or_nothing w (r : Result Reply * W) : Prop :=
  match r with
  | (Ok (Success _), w') => saved w' = None
  | (Ok (Failure _ c), w') => c = 500%Z \/ (saved w' = None /\ forall e id, row w' e id = row w e id)
  | _ => True
  end.

Lemma in_transaction_atomic loop finish w :
  (forall l, exists d, finish l = Success d) -> transactional loop -> saved w = None ->
  all_or_nothing w (in_transaction loop finish w).
Proof.
  intros Hfin Hloop H0. unfold in_transaction. pose proof (tx_begin w) as Hb.
  destruct (do_beginTransaction w) as [[b|e|x|] w1]; cbn; try (by left); [|done..].
  destruct Hb as (s & Hs & Hrow). unfold mbind, Op_bind. pose proof (Hloop w1 s Hs) as Hw.
  destruct (loop w1) as [[[[d|m c]|l]|e|x|] w2]; cbn; try done.
  - destruct Hw as [H1 H2]. right. split; [done|]. intros e id. by rewrite H2.
  - unfold commit. pose proof (tx_commit w2) as Hc. destruct (Hfin l) as [d ->].
    destruct (do_commitTransaction w2) as [[b'|e|x|] w3]; cbn; try done; [by eapply Hc|by left].
Qed.

Lemma bulk_atomic what_is items_are step finish body w :
  (forall l, exists d, finish l = Success d) -> (forall n item, transactional (step n item)) -> saved w = None ->
  all_or_nothing w (bulk what what_is items_are step finish body w).
Proof.
  intros Hfin Hstep H0. unfold bulk, withExceptionHandling.
  assert (forall m, all_or_nothing w (m w) -> all_or_nothing w (withExceptionHandling what m w)) as Hcatch.
  { intros m Hm. unfold withExceptionHandling. destruct (m w) as [[a|e|x|] w1]; cbn in *; auto. }
  apply (Hcatch (match body with JArray [] => _ | JArray items => _ | _ => _ end)).
  destruct body as [| | | | |[|i l]|]; try (right; by split).
  apply in_transaction_atomic; [done| |done]. by apply each_transactional.
Qed.

End Atomic.

(** ** What a bulk creation runs *)

Section Creates.
Context {W : Type} `{!Adapter W} (what : Exn -> string).

(** Creating the items one after the other, in order. *)
Inductive creates (route : RouteInfo) : W -> list json -> list json -> W -> Prop :=
  | creates_none w : creates route w [] [] w
  | creates_next w item data v w1 items vs w2 :
      with_tenant route item = Ok data -> do_create (ri_entity route) data w = (Ok v, w1) ->
      creates route w1 items vs w2 -> creates route w (item :: items) (v :: vs) w2.

Lemma create_item_inr route n item w v w1 :
  create_item route n item w = (Ok (inr v), w1) <->
  exists data, with_tenant route item = Ok data /\ do_create (ri_entity route) data w = (Ok v, w1).
Proof.
  unfold create_item, mbind, Op_bind, of_result.
  destruct (with_tenant route item) as [data|e|x|]; [|by split; [done|intros (? & [=] & _)]..]. split.
  - unfold attempt. destruct (do_create _ data w) as [[v'|e|x|] w'] eqn:Hc; try done; [intros [= <- <-]; eauto|].
    unfold abandon, discard, mbind, Op_bind. by destruct (do_rollbackTransaction w') as [[]].
  - intros (d & [= <-] & Hc). unfold attempt. by rewrite Hc.
Qed.

Lemma each_creates route items n acc w rs w2 :
  each (create_item route) items n acc w = (Ok (inr rs), w2) <->
  exists vs, rs = (acc ++ vs)%list /\ creates route w items vs w2.
Proof.
  revert n acc w. induction items as [|item items IH]; intros n acc w; cbn [each].
  - split; [intros [= <- <-]; exists []; split; [by rewrite app_nil_r|constructor]|].
    intros (vs & -> & Hvs). inversion Hvs; subst. by rewrite app_nil_r.
  - unfold mbind, Op_bind. destruct (create_item route n item w) as [[[r|v]|e|x|] w1] eqn:Hitem.
    2:{ rewrite IH. apply create_item_inr in Hitem as (data & Hd & Hc). split.
        - intros (vs & -> & Hvs). exists (v :: vs). split; [by rewrite <- app_assoc|by econstructor].
        - intros (vs & -> & Hvs). inversion Hvs as [|? ? d v' w1' ? vs' ? Hd' Hc' Hvs']; subst.
          rewrite Hd in Hd'. injection Hd' as <-. rewrite Hc in Hc'. injection Hc' as <- <-.
          exists vs'. by rewrite <- app_assoc. }
    all: split; [done|]; intros (vs & -> & Hvs); inversion Hvs as [|? ? d v' w1' ? vs' ? Hd' Hc' Hvs']; subst;
      rewrite (proj2 (create_item_inr route n item w v' w1')) in Hitem by eauto; done.
Qed.

Lemma create_item_inl route n item w r w1 :
  create_item route n item w = (Ok (inl r), w1) -> exists m c, r = Failure m c.
Proof.
  unfold create_item, mbind, Op_bind, of_result. destruct (with_tenant route item) as [data|e|x|]; try done.
  unfold attempt. destruct (do_create _ data w) as [[v'|e|x|] w']; try done.
  unfold abandon, discard, mbind, Op_bind. destruct (do_rollbackTransaction w') as [[] ?]; try done; intros [= <- _]; eauto.
Qed.

Lemma each_create_inl route items n acc w r w1 :
  each (create_item route) items n acc w = (Ok (inl r), w1) -> exists m c, r = Failure m c.
Proof.
  revert n acc w. induction items as [|item items IH]; intros n acc w; cbn [each]; [done|].
  unfold mbind, Op_bind. destruct (create_item route n item w) as [[[r'|v]|e|x|] w2] eqn:Hi; try done; [|apply IH].
  intros [= <- _]. by eapply create_item_inl.
Qed.

(** A bulk creation is answered with success exactly when its body is an array
    of at least one item, a transaction begins, the items are created one after
    the other in order (each with the tenant of the path unless it names one), and
    the transaction commits; the answer counts the rows and lists them as the
    adapter answered them. *)
Theorem bulk_create_runs route body d w w' :
  handleBulkCreate what route body w = (Ok (Success d), w') <->
  exists items vs b w1 w2 c,
    body = JArray items /\ items <> [] /\ do_beginTransaction w = (Ok b, w1) /\ creates route w1 items vs w2 /\
    do_commitTransaction w2 = (Ok c, w') /\ Success d = counted "inserted" "data" vs.
Proof.
  unfold handleBulkCreate, bulk, withExceptionHandling. destruct body as [| | | | |items|]; try (by split; [done|naive_solver]).
  destruct items as [|i l]; [by split; [done|naive_solver]|]. set (items := i :: l).
  assert (items <> []) as Hne by done. clearbody items. unfold in_transaction.
  destruct (do_beginTransaction w) as [[b|e|x|] w1]; [|by split; [done|naive_solver]..].
  unfold mbind, Op_bind. pose proof (each_creates route items 0 [] w1) as Heach. split.
  - destruct (each _ items 0 [] w1) as [[[r|rs]|e|x|] w2] eqn:Hloop; cbn; try done.
    + apply each_create_inl in Hloop as (m & c & ->). done.
    + destruct (proj1 (Heach rs w2) eq_refl) as (vs & -> & Hvs). unfold commit.
      destruct (do_commitTransaction w2) as [[c|e|x|] w3] eqn:Hc; intros [=]. subst.
      exists items, vs, b, w1, w2, c. done.
  - intros (items' & vs & b' & w1' & w2 & c & Hi & _ & Hb & Hvs & Hc & Hd). injection Hi as <-. injection Hb as <- <-.
    rewrite (proj2 (Heach vs w2)) by eauto. cbn. unfold commit. by rewrite Hc, Hd.
Qed.
End Creates.

(** ** On the database in memory *)

#[export] Program Instance demo_transactions : Transactions DemoDb := {|
  saved d := (fun m e id => m !! (e, id)) <$> db_saved d;
|}.
Next Obligation. intros [l [s|]]; cbn; [done|]. eexists. split; [done|]. done. Qed.
Next Obligation. intros [l s] e v. cbn. by repeat case_match. Qed.
Next Obligation. intros [l s] e id v. cbn. by case_match. Qed.
Next Obligation. intros [l s] e id. cbn. by case_match. Qed.
Next Obligation. intros [l [s|]] r; cbn; [|done]. intros [= <-]. eexists. done. Qed.
Next Obligation. intros [l s] b w'. cbn. by intros [= _ <-]. Qed.

Definition note (id tenant : string) : json := JObject [("id", JString id); ("tenantId", JString tenant)].
Definition notes (tenant : string) : DemoDb := mkDemoDb {[("Note", "1") := note "1" tenant]} None.
Definition acme_notes : RouteInfo := entity_path "acme" "core" "Note".


(** An item the handler cannot read leaves the transaction of the shared adapter
    open: a body whose item is a number raises an exception between the begin and
    the rollback, and the next bulk request, well formed, cannot begin. *)
Theorem bulk_item_leaves_transaction_open :
  let first := handleBulkCreate (fun _ => "type_error") acme_notes (JArray [JInt 1]) (notes "acme") in
  first.1 = Ok (Failure "Internal server error: type_error" 500) /\ saved first.2 <> None /\
  (handleBulkCreate (fun _ => "") acme_notes (JArray [note "2" "acme"]) first.2).1 =
    Ok (Failure "Failed to begin transaction" 500).
Proof. split_and!; [vm_compute; reflexivity|discriminate|vm_compute; reflexivity]. Qed.

Definition bulk_request : HttpRequest := mkRequest Post "" "" "10.0.0.1" None.
Definition sealed : gmap string AclSchema :=
  {["Note" := mkAclSchema [] (Some (parseACL (object [("delete", object [("system", JBool true)])])))]}.

(** The bulk routes ask no access rule and compare no tenant: a caller who is
    not signed in, refused the deletion of a system-managed row through its own
    route, deletes it in bulk, and from the path of another tenant. *)
Theorem bulk_routes_open :
  (entity_id_route (jl := demo_json) demo_hmac (fun _ _ _ => None) (Some sealed) None "k" None loadDefault
     1000 50 true 1000 0 0 (demo_delete "") "acme" "Note" no_requests).1 =
    Ok (Responded (mkResponse 403 "This entity is system-managed and not reachable via the API")) /\
  (plain_gate 1000 50 true 0 0 bulk_request no_requests).1 = Ok None /\
  let r := handleBulkDelete (fun _ => "") acme_notes (JArray [JString "1"]) (notes "other") in
  r.1 = Ok (counted "deleted" "ids" [JString "1"]) /\ row r.2 "Note" "1" = None.
Proof. split; [vm_compute; reflexivity|]. split; [vm_compute; reflexivity|]. vm_compute. by split. Qed.
