(* ===== verification/Calendar.v ===== *)
(** * Dates of the calendar

    What the sources take from <ctime>: [std::gmtime] on the days since 1970, and
    the formats of [std::put_time] and [std::strftime] they print dates with
    (src/daemon/handlers/blob_route_handler.cpp, src/blob/s3/s3_auth.hpp). *)

From S2P Require Import Prelude CxxString CxxStd.

Open Scope string_scope.

(** The day of a number of days since 1970-01-01. *)
Definition civil_of_days (days : Z) : Z * Z * Z :=
  (let z := days + 719468 in
   let era := z / 146097 in
   let doe := z mod 146097 in
   let yoe := (doe - doe / 1460 + doe / 36524 - doe / 146096) / 365 in
   let doy := doe - (365 * yoe + yoe / 4 - yoe / 100) in
   let mp := (5 * doy + 2) / 153 in
   let d := doy - (153 * mp + 2) / 5 + 1 in
   let m := if mp <? 10 then mp + 3 else mp - 9 in
   let y := yoe + era * 400 in
   (if m <=? 2 then y + 1 else y, m, d))%Z.

Definition two (n : Z) : string := (if (n <? 10)%Z then "0" else "") +:+ to_string n.
Definition nth_name (names : list string) (n : Z) : string := default "" (names !! Z.to_nat n).

(** [to_time_t]: the clock counts nanoseconds. *)
Definition to_time_t (t : Z) : Z := Z.quot t 1000000000.

Definition clock_text (time : Z) : string :=
  let s := (time mod 86400)%Z in
  two (s / 3600) +:+ (":" +:+ (two (s / 60 mod 60) +:+ (":" +:+ two (s mod 60)))).
(** [put_time(gmtime(&t), "%Y-%m-%dT%H:%M:%SZ")] *)
Definition iso_time (time : Z) : string :=
  let '(y, m, d) := civil_of_days (time / 86400) in
  to_string y +:+ ("-" +:+ (two m +:+ ("-" +:+ (two d +:+ ("T" +:+ (clock_text time +:+ "Z")))))).
(** [put_time(gmtime(&t), "%a, %d %b %Y %H:%M:%S GMT")] *)
Definition http_time (time : Z) : string :=
  let '(y, m, d) := civil_of_days (time / 86400) in
  nth_name ["Sun"; "Mon"; "Tue"; "Wed"; "Thu"; "Fri"; "Sat"] ((time / 86400 + 4) mod 7) +:+ (", " +:+
    (two d +:+ (" " +:+
    (nth_name ["Jan"; "Feb"; "Mar"; "Apr"; "May"; "Jun"; "Jul"; "Aug"; "Sep"; "Oct"; "Nov"; "Dec"] (m - 1) +:+ (" " +:+
    (to_string y +:+ (" " +:+ (clock_text time +:+ " GMT")))))))).

Example iso_leap_day : iso_time 951827696 = "2000-02-29T12:34:56Z". Proof. vm_compute. reflexivity. Qed.
Example http_epoch : http_time 784111777 = "Sun, 06 Nov 1994 08:49:37 GMT". Proof. vm_compute. reflexivity. Qed.

(** [std::strftime] with "%Y%m%d" and with "%Y%m%dT%H%M%SZ" *)
Definition basic_date (time : Z) : string :=
  let '(y, m, d) := civil_of_days (time / 86400) in to_string y +:+ (two m +:+ two d).
Definition basic_time (time : Z) : string :=
  let s := (time mod 86400)%Z in
  basic_date time +:+ ("T" +:+ (two (s / 3600) +:+ (two (s / 60 mod 60) +:+ (two (s mod 60) +:+ "Z")))).

Example basic_leap_day : basic_time 951827696 = "20000229T123456Z". Proof. vm_compute. reflexivity. Qed.
