(* ===== verification/BlobRoutes.v ===== *)
(** * The blob routes

    Models src/daemon/handlers/blob_route_handler.cpp over the interface of
    include/dbal/storage/blob_storage.hpp: the routes store every blob under
    "tenant/package/key".  The storage is a type class, with the store of
    BlobMemory.v as an instance; what a client of one tenant may learn and change
    is stated against [KeyedStore]. *)

From S2P Require Import Prelude CxxString CxxStd Uuid Json BlobMemory Calendar AccessControl EntityRoutes BulkRoutes.

Open Scope string_scope.

(** ** The storage *)

Class BlobStorage (W : Type) := {
  st_upload : string -> string -> UploadOptions -> Op W BlobMetadata;
  st_download : string -> DownloadOptions -> Op W string;
  st_deleteBlob : string -> Op W bool;
  st_getMetadata : string -> Op W BlobMetadata;
  st_list : BlobListOptions -> Op W BlobListResult;
  st_generatePresignedUrl : string -> Z -> Op W string;
  st_copy : string -> string -> Op W BlobMetadata;
  st_getTotalSize : Op W Z;
  st_getObjectCount : Op W Z;
}.

(** ** Requests and answers *)

Record BlobRequest := mkBlobRequest {
  br_method : HttpMethod; br_body : string; br_content_type : string; br_overwrite : string;
  br_metadata : string; br_query : gmap string string;
}.

Inductive BlobBody :=
  | NoBody
  | JsonBody (v : json)
  | Content (content_type data : string)
  | Headers (content_length : Z) (content_type etag last_modified : string) (metadata : option json).
Record BlobResponse := mkBlobResponse { bp_status : Z; bp_body : BlobBody }.

Definition buildStorageKey (tenant package key : string) : string :=
  tenant +:+ ("/" +:+ (package +:+ ("/" +:+ key))).

Definition stripKeyPrefix (tenant package storage_key : string) : string :=
  let prefix := tenant +:+ ("/" +:+ (package +:+ "/")) in
  if (String.length prefix <? String.length storage_key)%nat && String.prefix prefix storage_key
  then string_drop (String.length prefix) storage_key else storage_key.

Definition text_object (m : gmap string string) : json := JObject ((fun kv => (kv.1, JString kv.2)) <$> map_items m).

Definition metadataToJson (meta : BlobMetadata) (tenant package : string) : json := object ([
  ("key", JString (stripKeyPrefix tenant package (bm_key meta)));
  ("size", JInt (bm_size meta));
  ("contentType", JString (bm_content_type meta));
  ("etag", JString (bm_etag meta));
  ("lastModified", JString (iso_time (to_time_t (bm_last_modified meta))))] ++
  if bool_decide (bm_custom_metadata meta = ∅) then []
  else [("customMetadata", text_object (bm_custom_metadata meta))]).

Definition errorToHttpStatus (code : ErrorCode) : Z :=
  match code with
  | NotFound => 404 | Conflict => 409 | Unauthorized => 401 | Forbidden => 403 | CxxStd.ValidationError => 422
  | RateLimitExceeded => 429 | CapabilityNotSupported => 501 | Timeout => 504 | DatabaseError => 503
  | _ => 500
  end%Z.
Definition code_text (code : ErrorCode) : string :=
  match code with
  | NotFound => "NOT_FOUND" | Conflict => "CONFLICT" | Unauthorized => "UNAUTHORIZED" | Forbidden => "FORBIDDEN"
  | CxxStd.ValidationError => "VALIDATION_ERROR" | RateLimitExceeded => "RATE_LIMITED"
  | CapabilityNotSupported => "NOT_SUPPORTED" | Timeout => "TIMEOUT" | DatabaseError => "DATABASE_ERROR"
  | _ => "INTERNAL_ERROR"
  end.

Definition blob_error (code message : string) (status : Z) : BlobResponse :=
  mkBlobResponse status (JsonBody (object [("error", object [("code", JString code); ("message", JString message)])])).
Definition sendBlobError (e : Error) : BlobResponse :=
  blob_error (code_text (code e)) (message e) (errorToHttpStatus (code e)).

(** [std::stoull] and [std::stol]; a minus sign of the first wraps around. *)
Definition stoull (s : string) : option Z :=
  match strtol s with
  | Some z => if (Z.abs z <=? SIZE_MAX)%Z then Some (z mod 2 ^ 64)%Z else None
  | None => None
  end.
Definition stol (s : string) : option Z :=
  match strtol s with Some z => if in_int64 z then Some z else None | None => None end.

Section Handlers.
Context {W : Type} `{!BlobStorage W}.
(** The HTTP library's JSON parser, and the text it makes of a double. *)
Context (parse_json : string -> option json) (real_text : SpecFloat.spec_float -> string).

(** [try { ... } catch (const std::exception&)] of the four entry points. *)
Definition catching_blob (m : Op W BlobResponse) : Op W BlobResponse := fun w =>
  match m w with
  | (Throw _, w') => (Ok (blob_error "INTERNAL_ERROR" "Internal server error" 500), w')
  | r => r
  end.

(** [if (result.isError()) { sendBlobError(callback, result.error()); return; }] *)
Definition or_error {A} (m : Op W A) (k : A -> Op W BlobResponse) : Op W BlobResponse := fun w =>
  match m w with
  | (Ok a, w') => k a w'
  | (Err e, w') => (Ok (sendBlobError e), w')
  | (r, w') => (recast r, w')
  end.

(** A call whose error is kept. *)
Definition outcome {A} (m : Op W A) : Op W (Error + A) := fun w =>
  match m w with
  | (Ok a, w') => (Ok (inr a), w')
  | (Err e, w') => (Ok (inl e), w')
  | (r, w') => (recast r, w')
  end.

Definition respond (status : Z) (v : json) : Op W BlobResponse := mret (mkBlobResponse status (JsonBody v)).

Definition handleBlobList (request : BlobRequest) (tenant package : string) : Op W BlobResponse := catching_blob (
  let query := br_query request in
  let tenant_prefix := tenant +:+ ("/" +:+ (package +:+ "/")) in
  let prefix := match query !! "prefix" with Some p => tenant_prefix +:+ p | None => tenant_prefix end in
  let max_keys := default 1000%Z (query !! "maxKeys" ≫= stoull) in
  or_error (st_list (mkBlobListOptions (Some prefix) (query !! "continuationToken") max_keys)) (fun list_result =>
    respond 200 (object [
      ("items", JArray ((fun item => metadataToJson item tenant package) <$> bl_items list_result));
      ("isTruncated", JBool (bl_is_truncated list_result));
      ("nextToken", or_null (bl_next_token list_result))]))).

Definition handleBlobStats : Op W BlobResponse := catching_blob (
  size_result ← outcome st_getTotalSize;
  count_result ← outcome st_getObjectCount;
  match size_result, count_result with
  | inl e, _ | _, inl e => mret (sendBlobError e)
  | inr total, inr count =>
      respond 200 (object [("totalSize", JInt total); ("totalSizeBytes", JInt total);
                           ("objectCount", JInt count); ("count", JInt count)])
  end).

(** The loop over the members of the X-Blob-Metadata header. *)
Fixpoint member_texts (l : members) (m : gmap string string) : Result (gmap string string) :=
  match l with
  | [] => Ok m
  | (k, v) :: l => s ← as_string real_text v; member_texts l (<[k := s]> m)
  end.
Definition header_metadata (header : string) : Result (gmap string string) :=
  if is_empty header then Ok ∅
  else match parse_json header with
       | None | Some JNull => Ok ∅
       | Some (JObject l) => member_texts l ∅
       | Some _ => Throw (runtime_error "value must be objectValue")
       end.

Definition handleUpload (request : BlobRequest) (tenant package key : string) : Op W BlobResponse :=
  let content_type := br_content_type request in
  let overwrite := br_overwrite request in
  metadata ← of_result (header_metadata (br_metadata request));
  let options := mkUpload (Some (if is_empty content_type then "application/octet-stream" else content_type)) metadata
    (if is_empty overwrite then true else String.eqb overwrite "true" || String.eqb overwrite "1") in
  or_error (st_upload (buildStorageKey tenant package key) (br_body request) options) (fun meta =>
    respond 201 (metadataToJson meta tenant package)).

Definition whole : DownloadOptions := mkDownload None None.

Definition handleDownload (tenant package key : string) : Op W BlobResponse :=
  let storage_key := buildStorageKey tenant package key in
  meta_result ← outcome (st_getMetadata storage_key);
  let content_type := match meta_result with inr meta => bm_content_type meta | inl _ => "application/octet-stream" end in
  or_error (st_download storage_key whole) (fun data => mret (mkBlobResponse 200 (Content content_type data))).

Definition handleDelete (tenant package key : string) : Op W BlobResponse :=
  or_error (st_deleteBlob (buildStorageKey tenant package key)) (fun _ =>
    respond 200 (object [("success", JBool true); ("deleted", JBool true)])).

Definition handleHead (tenant package key : string) : Op W BlobResponse :=
  result ← outcome (st_getMetadata (buildStorageKey tenant package key));
  mret match result with
       | inl e => mkBlobResponse (errorToHttpStatus (code e)) NoBody
       | inr meta => mkBlobResponse 200 (Headers (bm_size meta) (bm_content_type meta) (bm_etag meta)
           (http_time (to_time_t (bm_last_modified meta)))
           (if bool_decide (bm_custom_metadata meta = ∅) then None else Some (text_object (bm_custom_metadata meta))))
       end.

Definition handleBlobWithKey (request : BlobRequest) (tenant package key : string) : Op W BlobResponse := catching_blob (
  match br_method request with
  | Put => handleUpload request tenant package key
  | Get => handleDownload tenant package key
  | Delete => handleDelete tenant package key
  | Head => handleHead tenant package key
  | _ => mret (blob_error "METHOD_NOT_ALLOWED" "Method not allowed" 405)
  end).

Definition handlePresign (request : BlobRequest) (tenant package key : string) : Op W BlobResponse :=
  let expiration := default 3600%Z (br_query request !! "expires" ≫= stol) in
  or_error (st_generatePresignedUrl (buildStorageKey tenant package key) expiration) (fun url =>
    respond 200 (object [("url", JString url); ("presignedUrl", JString url)])).

Definition invalid_copy (message : string) : Op W BlobResponse := mret (blob_error "VALIDATION_ERROR" message 422).

Definition handleCopy (request : BlobRequest) (tenant package key : string) : Op W BlobResponse :=
  match parse_json (br_body request) with
  | None => invalid_copy "Invalid JSON body"
  | Some body =>
      known ← of_result (isMember body "destKey");
      match (known : bool), string_member body "destKey" with
      | true, Some dest_key_raw =>
          if is_empty dest_key_raw then invalid_copy "destKey must not be empty"
          else or_error (st_copy (buildStorageKey tenant package key) (buildStorageKey tenant package dest_key_raw))
                 (fun meta => respond 200 (metadataToJson meta tenant package))
      | _, _ => invalid_copy "Missing required field: destKey"
      end
  end.

Definition handleBlobAction (request : BlobRequest) (tenant package key action : string) : Op W BlobResponse := catching_blob (
  if String.eqb action "presign" then handlePresign request tenant package key
  else if String.eqb action "copy" then handleCopy request tenant package key
  else mret (blob_error "NOT_FOUND" ("Unknown blob action: " +:+ action) 404)).
End Handlers.

(** ** What a tenant's requests reach *)

(** What there is under each key; every operation depends on the keys it names and
    changes no other. *)
Section Confined.
Context {W E : Type} (blob_at : W -> string -> option E).

Definition agree (P : string -> Prop) (w w' : W) : Prop := forall k, P k -> blob_at w k = blob_at w' k.

(** [m] changes only the keys of [P], and neither its answer nor what it leaves
    there depends on any other. *)
Definition confined {A} (P : string -> Prop) (m : Op W A) : Prop :=
  (forall w k, ~ P k -> blob_at (m w).2 k = blob_at w k) /\
  (forall w w', agree P w w' -> (m w).1 = (m w').1 /\ agree P (m w).2 (m w').2).

Lemma confined_pure {A} P (r : Result A) : confined P (fun w => (r, w)).
Proof. by split. Qed.

Lemma confined_widen {A} (P Q : string -> Prop) (m : Op W A) :
  (forall k, Decision (P k)) -> (forall k, P k -> Q k) -> confined P m -> confined Q m.
Proof.
  intros HP Hsub [Hout Hin]. split.
  - intros w k Hk. apply Hout. auto.
  - intros w w' Hw. destruct (Hin w w') as [H1 H2]; [intros k Hk; by apply Hw, Hsub|]. split; [done|].
    intros k Hk. destruct (HP k) as [Hp|Hp]; [by apply H2|]. rewrite !Hout by done. by apply Hw.
Qed.

(** Whatever is done with the result of a confined call. *)
Lemma confined_after {A B} P (m : Op W A) (k : Result A -> Op W B) (m' : Op W B) :
  (forall w, m' w = k (m w).1 (m w).2) -> confined P m -> (forall r, confined P (k r)) -> confined P m'.
Proof.
  intros Heq [Hout Hin] Hk. split.
  - intros w key Hkey. by rewrite Heq, (proj1 (Hk _) _ _ Hkey), Hout.
  - intros w w' Hw. rewrite !Heq. destruct (Hin w w' Hw) as [-> H2]. by apply (proj2 (Hk _)).
Qed.
Ltac after_cases := intros w; cbv [mbind Op_bind or_error outcome catching_blob]; by destruct (_ w) as [[]].

Lemma confined_bind {A B} P (m : Op W A) (k : A -> Op W B) :
  confined P m -> (forall a, confined P (k a)) -> confined P (m ≫= k).
Proof.
  intros Hm Hk.
  apply (confined_after P m (fun r => match r with Ok a => k a | r => fun w => (recast r, w) end)); [after_cases|done|].
  intros []; [apply Hk|apply confined_pure..].
Qed.

Lemma confined_or_error {A} P (m : Op W A) k :
  confined P m -> (forall a, confined P (k a)) -> confined P (or_error m k).
Proof.
  intros Hm Hk.
  apply (confined_after P m (fun r => match r with
    Ok a => k a | Err e => fun w => (Ok (sendBlobError e), w) | r => fun w => (recast r, w) end)); [after_cases|done|].
  intros []; [apply Hk|apply confined_pure..].
Qed.

Lemma confined_outcome {A} P (m : Op W A) : confined P m -> confined P (outcome m).
Proof.
  intros Hm.
  apply (confined_after P m (fun r => match r with
    Ok a => fun w => (Ok (inr a), w) | Err e => fun w => (Ok (inl e), w) | r => fun w => (recast r, w) end));
    [after_cases|done|].
  intros []; apply confined_pure.
Qed.

Lemma confined_caught P (m : Op W BlobResponse) : confined P m -> confined P (catching_blob m).
Proof.
  intros Hm.
  apply (confined_after P m (fun r => match r with
    Throw _ => fun w => (Ok (blob_error "INTERNAL_ERROR" "Internal server error" 500), w) | r => fun w => (r, w) end));
    [after_cases|done|].
  intros []; apply confined_pure.
Qed.
End Confined.

Class KeyedStore (W : Type) `{!BlobStorage W} := {
  Entry : Type;
  blob_at : W -> string -> option Entry;
  at_upload : forall k data o, confined blob_at (eq k) (st_upload k data o);
  at_download : forall k o, confined blob_at (eq k) (st_download k o);
  at_delete : forall k, confined blob_at (eq k) (st_deleteBlob k);
  at_metadata : forall k, confined blob_at (eq k) (st_getMetadata k);
  at_presign : forall k n, confined blob_at (eq k) (st_generatePresignedUrl k n);
  at_copy : forall k k', confined blob_at (fun k0 => k = k0 \/ k' = k0) (st_copy k k');
  at_list : forall p t n, confined blob_at (fun k => String.prefix p k = true) (st_list (mkBlobListOptions (Some p) t n));
}.

Lemma prefix_app p s : String.prefix p (p +:+ s) = true.
Proof.
  induction p as [|c p IH]; [by destruct s|]. change (String c p +:+ s) with (String c (p +:+ s)). cbn.
  by destruct (ascii_dec c c).
Qed.
Lemma prefix_inv p s : String.prefix p s = true -> exists t, s = p +:+ t.
Proof.
  revert s. induction p as [|c p IH]; intros s; [by exists s|]. destruct s as [|d s]; [done|]. cbn.
  destruct (ascii_dec c d) as [<-|]; [|done]. intros [t ->]%IH. by exists t.
Qed.

(** The keys of a tenant's package. *)
Definition in_package (tenant package key : string) : Prop :=
  exists rest, key = buildStorageKey tenant package rest.

Lemma in_package_prefix tenant package p k :
  String.prefix ((tenant +:+ ("/" +:+ (package +:+ "/"))) +:+ p) k = true -> in_package tenant package k.
Proof.
  intros [t ->]%prefix_inv. exists (p +:+ t). unfold buildStorageKey. by rewrite <- !string_app_assoc.
Qed.

Lemma no_slash_split a b x y :
  no_slash a = true -> no_slash b = true -> a +:+ String "/" x = b +:+ String "/" y -> a = b /\ x = y.
Proof.
  intros Ha Hb Heq. assert (split_on "/" (a +:+ String "/" x) = split_on "/" (b +:+ String "/" y)) as Hs by congruence.
  rewrite !split_on_app in Hs by done. injection Hs as -> _. split; [done|]. clear Ha Hb.
  induction b as [|c b IH]; [by injection Heq|]. apply IH.
  change (String c b +:+ ?s) with (String c (b +:+ s)) in Heq. by injection Heq.
Qed.

Section Isolation.
Context {W : Type} {B : BlobStorage W} {K : KeyedStore W}.
Context (parse_json : string -> option json) (real_text : SpecFloat.spec_float -> string).

Lemma own_key {A} tenant package key (m : Op W A) :
  confined blob_at (eq (buildStorageKey tenant package key)) m -> confined blob_at (in_package tenant package) m.
Proof. apply confined_widen; [apply _|]. intros k <-. by exists key. Qed.

Hint Resolve own_key at_upload at_download at_delete at_metadata at_presign confined_outcome : confined.
Hint Extern 1 (confined _ _ (mret _)) => apply confined_pure : confined.
Hint Extern 1 (confined _ _ (of_result _)) => apply confined_pure : confined.
Hint Extern 1 (confined _ _ (respond _ _)) => apply confined_pure : confined.
Hint Extern 1 (confined _ _ (invalid_copy _)) => apply confined_pure : confined.
Ltac confined_tac := repeat first
  [ case_match | apply confined_bind; [|intros] | apply confined_or_error; [|intros] | solve [eauto 4 with confined] ].

(** C16. Tenants' blobs do not meet.  Over a storage whose operations keep to the
    keys they name, no request under a tenant's package (listing, upload, download,
    deletion, inspection, link, copy) changes a blob outside it, and neither the
    answer nor what is left inside depends on a blob outside; and two packages
    share no key when the names have no slash. *)
Theorem blob_routes_isolated request tenant package key action :
  confined blob_at (in_package tenant package) (handleBlobList request tenant package) /\
  confined blob_at (in_package tenant package)
    (handleBlobWithKey parse_json real_text request tenant package key) /\
  confined blob_at (in_package tenant package) (handleBlobAction parse_json request tenant package key action) /\
  (forall tenant' package' k,
     no_slash tenant = true -> no_slash package = true -> no_slash tenant' = true -> no_slash package' = true ->
     in_package tenant package k -> in_package tenant' package' k -> tenant' = tenant /\ package' = package).
Proof.
  split_and!.
  - apply confined_caught, confined_or_error; [|intros; by auto with confined].
    eapply confined_widen, at_list; [apply _|]. intros k Hk.
    destruct (br_query request !! "prefix") as [p|]; [by eapply in_package_prefix|].
    apply (in_package_prefix _ _ ""). by rewrite string_app_nil_r.
  - apply confined_caught. unfold handleUpload, handleDownload, handleDelete, handleHead. confined_tac.
  - apply confined_caught. unfold handlePresign, handleCopy. confined_tac.
    eapply confined_widen, at_copy; [intros; apply _|]. intros k [<-|<-]; by eexists.
  - intros t' p' k Ht Hp Ht' Hp' [r ->] [r' Heq]. unfold buildStorageKey in Heq.
    change ("/" +:+ ?s) with (String "/" s) in Heq. apply no_slash_split in Heq as [-> Heq]; [|done..].
    by apply no_slash_split in Heq as [-> _].
Qed.
End Isolation.

(** ** The store in memory *)

Section Memory.
Context (hash : string -> Z) (now : Z).

#[export] Instance memory_storage : BlobStorage blobs := {
  st_upload := memory_upload hash now;
  st_download := memory_download;
  st_deleteBlob := memory_delete;
  st_getMetadata := memory_get_metadata;
  st_list := memory_list;
  st_generatePresignedUrl := fun _ _ => mret "";
  st_copy := memory_copy now;
  st_getTotalSize := memory_total_size;
  st_getObjectCount := memory_object_count;
}.

Abbreviation at_key := (fun (store : blobs) k => store !! k).

Lemma confined_find {A} (P : string -> Prop) key e (k : BlobData -> Op blobs A) :
  P key -> (forall b, confined at_key P (k b)) -> confined at_key P (find_or id key e ≫= k).
Proof.
  intros HP Hk. apply confined_bind; [|done]. split.
  - intros w k' _. unfold find_or. cbn. by destruct (w !! key).
  - intros w w' Hw. unfold find_or. cbn. rewrite <- (Hw key HP). by destruct (w !! key).
Qed.

Lemma confined_modify (P : string -> Prop) (f : blobs -> blobs) :
  (forall w k, ~ P k -> f w !! k = w !! k) -> (forall w w', agree at_key P w w' -> agree at_key P (f w) (f w')) ->
  confined at_key P (modify f).
Proof. intros H1 H2. split; [exact H1|]. intros w w' Hw. split; [done|]. by apply H2. Qed.

Lemma confined_insert (P : string -> Prop) key b : P key -> confined at_key P (modify <[key := b]>).
Proof.
  intros HP. apply confined_modify.
  - intros w k Hk. rewrite lookup_insert_ne; [done|congruence].
  - intros w w' Hw k Hk. destruct (decide (key = k)) as [->|]; [by rewrite !lookup_insert_eq|].
    rewrite !lookup_insert_ne by done. by apply Hw.
Qed.
Lemma confined_delete (P : string -> Prop) key : P key -> confined at_key P (modify (fun w : blobs => delete key w)).
Proof.
  intros HP. apply confined_modify.
  - intros w k Hk. rewrite lookup_delete_ne; [done|congruence].
  - intros w w' Hw k Hk. destruct (decide (key = k)) as [->|]; [by rewrite !lookup_delete_eq|].
    rewrite !lookup_delete_ne by done. by apply Hw.
Qed.
Lemma confined_reject (P : string -> Prop) b e : confined at_key P (reject_if b e).
Proof. destruct b; apply confined_pure. Qed.

Lemma starts_with_prefix key prefix : starts_with key prefix = String.prefix prefix key.
Proof.
  apply Bool.eq_iff_eq_true. rewrite starts_with_spec. split; [|apply prefix_inv].
  intros [t ->]. apply prefix_app.
Qed.
Lemma prefix_filter prefix key : is_empty prefix || starts_with key prefix = String.prefix prefix key.
Proof. rewrite starts_with_prefix. by destruct prefix, key. Qed.

(** A listing sees the matching entries only. *)
Lemma memory_list_loop_filter prefix n l items :
  memory_list_loop prefix n l items =
  memory_list_loop prefix n (List.filter (fun kv => String.prefix prefix kv.1) l) items.
Proof.
  revert items. induction l as [|[k b] l IH]; intros items; [done|]. cbn [memory_list_loop List.filter fst].
  rewrite prefix_filter. destruct (String.prefix prefix k) eqn:Hk; [|apply IH].
  cbn [memory_list_loop]. rewrite prefix_filter, Hk. destruct (_ <=? _)%Z; [done|apply IH].
Qed.

Lemma filter_sorted {A} (p : string * A -> bool) (m : gmap string A) :
  StronglySorted key_le (List.filter p (map_items m)).
Proof.
  assert (StronglySorted key_le (map_items m)) as Hs
    by (apply Sorted_StronglySorted; [intros a b c; unfold key_le; apply transitivity|apply map_items_sorted]).
  induction Hs as [|x l Hs IH Hx]; cbn; [constructor|]. destruct (p x); [|done]. constructor; [done|].
  rewrite Forall_forall in Hx |- *. intros y Hy. apply Hx.
  by apply list_elem_of_In, filter_In in Hy as [Hy%list_elem_of_In _].
Qed.

Lemma filtered_items prefix (w w' : blobs) :
  agree at_key (fun k => String.prefix prefix k = true) w w' ->
  List.filter (fun kv => String.prefix prefix kv.1) (map_items w) =
  List.filter (fun kv => String.prefix prefix kv.1) (map_items w').
Proof.
  intros Hw. apply StronglySorted_unique_strong with (R := key_le).
  - intros [k b] [k' b'] Hx Hy Hle Hge. unfold key_le in *. cbn in *.
    assert (k = k') as <- by (by apply (anti_symm String.le)). f_equal.
    apply list_elem_of_In, filter_In in Hx as [Hx Hp], Hy as [Hy _]. cbn in Hp.
    apply list_elem_of_In, elem_of_map_items in Hx, Hy. specialize (Hw _ Hp). cbn in Hw. congruence.
  - apply filter_sorted.
  - apply filter_sorted.
  - apply NoDup_Permutation.
    + apply NoDup_ListNoDup, List.NoDup_filter, NoDup_ListNoDup, (NoDup_fmap_1 fst), NoDup_map_items_fst.
    + apply NoDup_ListNoDup, List.NoDup_filter, NoDup_ListNoDup, (NoDup_fmap_1 fst), NoDup_map_items_fst.
    + intros [k b]. rewrite !list_elem_of_In, !filter_In, <- !list_elem_of_In, !elem_of_map_items. cbn.
      split; intros [Hk Hp]; (split; [|done]); pose proof (Hw _ Hp) as Heq; cbn in Heq; congruence.
Qed.

#[export] Instance memory_keyed : KeyedStore blobs.
Proof.
  refine {| blob_at := at_key |}.
  - intros k data o. cbn. unfold memory_upload. split.
    + intros w k' Hk. unfold_run. destruct (negb _ && _); cbn; [done|]. by rewrite lookup_insert_ne.
    + intros w w' Hw. unfold_run. cbn [id]. unfold has_key. rewrite (Hw k eq_refl).
      destruct (negb _ && _); cbn; [done|]. split; [done|]. intros k' <-. by rewrite !lookup_insert_eq.
  - intros k o. cbn. apply confined_find; [done|]. intros b. cbn zeta.
    destruct (dl_offset o), (dl_length o); try apply confined_pure;
      (apply confined_bind; [apply confined_reject|intros; apply confined_pure]).
  - intros k. cbn. apply confined_find; [done|]. intros b.
    apply confined_bind; [by apply confined_delete|]. intros; apply confined_pure.
  - intros k. cbn. apply confined_find; [done|]. intros b. apply confined_pure.
  - intros. apply confined_pure.
  - intros k k'. cbn. apply confined_find; [by left|]. intros b. cbn zeta.
    apply confined_bind; [apply confined_insert; by right|]. intros; apply confined_pure.
  - intros p t n. cbn. split; [done|]. intros w w' Hw. split; [|done]. cbn. f_equal.
    rewrite memory_list_loop_filter, (filtered_items p w w' Hw). by rewrite <- memory_list_loop_filter.
Defined.
End Memory.

(** ** The routes nobody guards *)

(** The statistics are those of the whole store: two requests for two tenants are
    answered alike, and one tenant reads how much the others keep. *)
Lemma stats_count_every_tenant hash now (w : blobs) :
  (@handleBlobStats _ (memory_storage hash now) w).1 =
  Ok (mkBlobResponse 200 (JsonBody (object [
    ("totalSize", JInt (foldl (fun t kv => (t + size (b_data kv.2)) mod 2 ^ 64)%Z 0%Z (map_items w)));
    ("totalSizeBytes", JInt (foldl (fun t kv => (t + size (b_data kv.2)) mod 2 ^ 64)%Z 0%Z (map_items w)));
    ("objectCount", JInt (Z.of_nat (base.size w))); ("count", JInt (Z.of_nat (base.size w)))]))).
Proof. done. Qed.

(** ** Requests over the store in memory *)

Section Requests.
Context (parse_json : string -> option json) (real_text : SpecFloat.spec_float -> string).
Context (hash : string -> Z) (now : Z).

Definition with_method (request : BlobRequest) (m : HttpMethod) : BlobRequest :=
  mkBlobRequest m (br_body request) (br_content_type request) (br_overwrite request) (br_metadata request)
    (br_query request).
Definition serve (m : HttpMethod) (request : BlobRequest) (tenant package key : string) : Op blobs BlobResponse :=
  @handleBlobWithKey _ (memory_storage hash now) parse_json real_text (with_method request m) tenant package key.
Definition media_type (request : BlobRequest) : string :=
  if is_empty (br_content_type request) then "application/octet-stream" else br_content_type request.
Definition overwrites (request : BlobRequest) : bool :=
  if is_empty (br_overwrite request) then true
  else String.eqb (br_overwrite request) "true" || String.eqb (br_overwrite request) "1".


(** What was put is what is served.  A PUT whose metadata header can be read stores
    the body, unless the key is taken and overwriting was declined, in which case
    the answer is 409 and nothing changes; after it a GET answers the body with its
    media type, a HEAD its length, type, tag and date, and after a DELETE a GET
    answers 404 and the other blobs are as they were. *)
Theorem put_then_get request tenant package key md (w : blobs) :
  header_metadata parse_json real_text (br_metadata request) = Ok md ->
  let k := buildStorageKey tenant package key in
  let put := serve Put request tenant package key w in
  let blob := mkBlob (br_body request) (media_type request) (generate_etag hash (br_body request)) now md in
  if negb (overwrites request) && has_key w k
  then put = (Ok (blob_error "CONFLICT" ("Blob already exists: " +:+ k) 409), w)
  else
    put = (Ok (mkBlobResponse 201 (JsonBody (metadataToJson (make_blob_metadata k blob) tenant package))), put.2) /\
    serve Get request tenant package key put.2 =
      (Ok (mkBlobResponse 200 (Content (media_type request) (br_body request))), put.2) /\
    serve Head request tenant package key put.2 =
      (Ok (mkBlobResponse 200 (Headers (size (br_body request)) (media_type request) (b_etag blob)
         (http_time (to_time_t now)) (if bool_decide (md = ∅) then None else Some (text_object md)))), put.2) /\
    (let deleted := serve Delete request tenant package key put.2 in
     deleted = (Ok (mkBlobResponse 200 (JsonBody (object [("success", JBool true); ("deleted", JBool true)]))),
                delete k w) /\
     serve Get request tenant package key deleted.2 =
       (Ok (blob_error "NOT_FOUND" ("Blob not found: " +:+ k) 404), delete k w)).
Proof.
  intros Hmd k put blob.
  assert (put = if negb (overwrites request) && has_key w k
    then (Ok (blob_error "CONFLICT" ("Blob already exists: " +:+ k) 409), w)
    else (Ok (mkBlobResponse 201 (JsonBody (metadataToJson (make_blob_metadata k blob) tenant package))),
          <[k := blob]> w)) as ->.
  { subst put. unfold serve, handleBlobWithKey, catching_blob, handleUpload. cbn [br_method with_method].
    cbn [br_metadata br_content_type br_overwrite br_body with_method]. rewrite Hmd.
    unfold of_result, or_error. cbn [st_upload memory_storage]. unfold memory_upload. unfold_run.
    cbn [up_overwrite up_content_type up_metadata default]. fold (overwrites request).
    unfold k, overwrites, media_type in *. cbn.
    by destruct (negb _ && _). }
  destruct (negb (overwrites request) && has_key w k); [done|]. cbn [snd].
  unfold serve, handleBlobWithKey, catching_blob, handleDownload, handleHead, handleDelete, or_error, outcome.
  cbn [br_method with_method st_getMetadata st_download st_deleteBlob memory_storage].
  unfold memory_get_metadata, memory_download, memory_delete. fold k. unfold_run. cbn [id].
  rewrite !lookup_insert_eq. cbn [dl_offset dl_length whole fst snd]. cbn.
  rewrite delete_insert_eq, !lookup_delete_eq. cbn. by rewrite lookup_delete_eq.
Qed.
End Requests.

(** ** Two tenants *)

Definition no_json (s : string) : option json := None.
Definition no_text (x : SpecFloat.spec_float) : string := "".
Definition demo_put : BlobRequest := mkBlobRequest Put "hello" "text/plain" "false" "" ∅.
Definition demo_store : blobs :=
  (memory_upload demo_hash 0 "globex/shop/logo" "secret" (mkUpload None ∅ true) ∅).2.
Definition demo_served : Op blobs BlobResponse := serve no_json no_text demo_hash 7 Put demo_put "acme" "shop" "logo".

(** A page of no entries asks for the next one for ever. *)
Example empty_page_is_truncated :
  memory_list_loop "acme/" 0 (map_items (demo_served ∅).2) [] = mkBlobList [] (Some "acme/shop/logo") true.
Proof. vm_compute. reflexivity. Qed.
(** [stoull("-1")] wraps, and the listing has no bound. *)
Example negative_maximum : stoull "-1" = Some SIZE_MAX. Proof. vm_compute. reflexivity. Qed.

Lemma blob_routes_isolated_witness :
  (demo_served demo_store).2 !! "globex/shop/logo" = demo_store !! "globex/shop/logo" /\
  (demo_served demo_store).1 = (demo_served ∅).1 /\
  ~ in_package "acme" "shop" "globex/shop/logo".
Proof.
  destruct (@blob_routes_isolated blobs (memory_storage demo_hash 7) (memory_keyed demo_hash 7) no_json no_text
    demo_put "acme" "shop" "logo" "copy") as (_ & [Hout Hin] & _ & Hapart).
  assert (~ in_package "acme" "shop" "globex/shop/logo") as Hno.
  { intros H. destruct (Hapart "globex" "shop" "globex/shop/logo") as [Ht _]; try reflexivity; [exact H| |discriminate].
    exists "logo". reflexivity. }
  split; [exact (Hout demo_store _ Hno)|]. split; [|exact Hno].
  apply (Hin demo_store ∅). intros k [rest ->].
  change (<["globex/shop/logo" := mkBlob "secret" "application/octet-stream" (generate_etag demo_hash "secret") 0%Z ∅]>
    (∅ : blobs) !! buildStorageKey "acme" "shop" rest = (∅ : blobs) !! buildStorageKey "acme" "shop" rest).
  rewrite lookup_insert_ne; [done|]. intros Heq. discriminate Heq.
Defined.

Lemma put_then_get_witness :
  serve no_json no_text demo_hash 7 Get demo_put "acme" "shop" "logo" (demo_served ∅).2 =
    (Ok (mkBlobResponse 200 (Content "text/plain" "hello")), (demo_served ∅).2).
Proof.
  exact (proj1 (proj2 (put_then_get no_json no_text demo_hash 7 demo_put "acme" "shop" "logo" ∅ ∅ eq_refl))).
Defined.
