(* ===== verification/S3Auth.v ===== *)
(** * Signing requests to S3

    Models src/blob/s3/s3_auth.hpp: percent encoding, canonical requests, the
    signature (AWS Signature Version 4) and presigned query strings.  SHA-256 and
    HMAC are arguments on byte strings; the clock is a number of seconds. *)

From S2P Require Import Prelude CxxString CxxStd Uuid Base64 Calendar.

Open Scope string_scope.

(** ** Encoding *)

Definition unreserved (c : ascii) : bool :=
  is_alnum c || Ascii.eqb c "_" || Ascii.eqb c "-" || Ascii.eqb c "~" || Ascii.eqb c ".".
(** [std::hex << std::uppercase << std::setw(2)] *)
Definition hex_upper (n : Z) : ascii := to_upper_char (hex_digit n).
Definition percent (c : ascii) : string :=
  String "%" (String (hex_upper (Z.land (Z.shiftr (byte_val c) 4) 15))
    (String (hex_upper (Z.land (byte_val c) 15)) "")).
Definition encode_char (encode_slash : bool) (c : ascii) : string :=
  if unreserved c then String c ""
  else if Ascii.eqb c "/" && negb encode_slash then "/" else percent c.
Fixpoint uri_encode (str : string) (encode_slash : bool) : string :=
  match str with
  | EmptyString => ""
  | String c rest => encode_char encode_slash c +:+ uri_encode rest encode_slash
  end.

(** Texts with a character between them. *)
Fixpoint separated (sep : ascii) (parts : list string) : string :=
  match parts with
  | [] => ""
  | [x] => x
  | x :: rest => x +:+ String sep (separated sep rest)
  end.

Definition query_part (kv : string * string) : string := uri_encode kv.1 true +:+ String "=" (uri_encode kv.2 true).
Definition build_canonical_query_string (params : gmap string string) : string :=
  separated "&" (query_part <$> map_items params).

(** ** Canonical requests *)

Definition newline : ascii := "010".
Definition line (s : string) : string := s +:+ String newline "".

Definition is_blank (c : ascii) : bool := Ascii.eqb c " " || Ascii.eqb c "009".
Fixpoint drop_blank (s : string) : string :=
  match s with
  | String c rest => if is_blank c then drop_blank rest else s
  | EmptyString => ""
  end.
Fixpoint drop_blank_end (s : string) : string :=
  match s with
  | EmptyString => ""
  | String c rest =>
      match drop_blank_end rest with
      | "" => if is_blank c then "" else String c ""
      | rest => String c rest
      end
  end.
(** A value of blanks only is left as it is. *)
Definition trimmed (value : string) : string :=
  if string_forallb is_blank value then value else drop_blank_end (drop_blank value).

Definition canonical_header (kv : string * string) : string * string := (to_lower kv.1, trimmed kv.2).
Definition header_line (kv : string * string) : string := kv.1 +:+ String ":" kv.2.
Fixpoint lines (l : list string) : string :=
  match l with [] => "" | x :: l => x +:+ String newline (lines l) end.

Definition canonical_uri (path : string) : string :=
  let uri := uri_encode path false in if is_empty uri then "/" else uri.

(** The text whose digest is signed, from the headers as they are sent. *)
Definition canonical_request (method path : string) (query headers : gmap string string) (payload_hash : string) : string :=
  let sent := canonical_header <$> map_items headers in
  method +:+ String newline (canonical_uri path +:+ String newline (build_canonical_query_string query +:+ String newline
    (lines (header_line <$> sent) +:+ String newline (separated ";" sent.*1 +:+ String newline payload_hash)))).

(** ** Signatures *)

Record SignedRequest := mkSigned {
  sr_headers : gmap string string; sr_authorization : string; sr_amz_date : string; sr_content_sha256 : string;
}.

Section Signing.
Context (sha256 : string -> string) (hmac_sha256_raw : string -> string -> string).

Definition sha256_hex (data : string) : string := to_hex (sha256 data).

Definition credential_scope (now : Z) (region service : string) : string :=
  basic_date now +:+ ("/" +:+ (region +:+ ("/" +:+ (service +:+ "/aws4_request")))).
Definition string_to_sign (now : Z) (scope request : string) : string :=
  "AWS4-HMAC-SHA256" +:+ String newline (basic_time now +:+ String newline (scope +:+ String newline (sha256_hex request))).
Definition signing_key (now : Z) (region secret_key service : string) : string :=
  let k_date := hmac_sha256_raw ("AWS4" +:+ secret_key) (basic_date now) in
  let k_region := hmac_sha256_raw k_date region in
  let k_service := hmac_sha256_raw k_region service in
  hmac_sha256_raw k_service "aws4_request".
Definition signature (now : Z) (region secret_key service request : string) : string :=
  to_hex (hmac_sha256_raw (signing_key now region secret_key service)
    (string_to_sign now (credential_scope now region service) request)).

(** [all_headers]: the headers to sign with the date and the digest. *)
Definition all_headers (now : Z) (headers_to_sign : gmap string string) (payload_hash : string) : gmap string string :=
  <["x-amz-content-sha256" := payload_hash]> (<["x-amz-date" := basic_time now]> headers_to_sign).

Definition sign_request_v4 (now : Z) (method path : string) (query_params headers_to_sign : gmap string string)
    (payload region access_key secret_key service : string) : SignedRequest :=
  let payload_hash := sha256_hex payload in
  let headers := all_headers now headers_to_sign payload_hash in
  let request := canonical_request method path query_params headers payload_hash in
  let authorization :=
    "AWS4-HMAC-SHA256 Credential=" +:+ (access_key +:+ ("/" +:+ (credential_scope now region service +:+ (", SignedHeaders=" +:+
    (separated ";" (canonical_header <$> map_items headers).*1 +:+ (", Signature=" +:+
      signature now region secret_key service request)))))) in
  mkSigned (<["Authorization" := authorization]> headers) authorization (basic_time now) payload_hash.

Definition generate_presigned_query_string (now : Z) (method host path region access_key secret_key : string)
    (expires_seconds : Z) (service : string) : string :=
  let query_params : gmap string string :=
    <["X-Amz-SignedHeaders" := "host"]> (<["X-Amz-Expires" := to_string expires_seconds]>
    (<["X-Amz-Date" := basic_time now]>
    (<["X-Amz-Credential" := access_key +:+ ("/" +:+ credential_scope now region service)]>
    (<["X-Amz-Algorithm" := "AWS4-HMAC-SHA256"]> ∅)))) in
  let canonical_query_string := build_canonical_query_string query_params in
  let request :=
    method +:+ String newline (canonical_uri path +:+ String newline (canonical_query_string +:+ String newline
      (line ("host:" +:+ host) +:+ String newline ("host" +:+ String newline "UNSIGNED-PAYLOAD")))) in
  canonical_query_string +:+ ("&X-Amz-Signature=" +:+ signature now region secret_key service request).
End Signing.

Example encoded : uri_encode "a b/c&d=~%" true = "a%20b%2Fc%26d%3D~%25". Proof. reflexivity. Qed.
Example encoded_path : uri_encode "/bucket/a+b.txt" false = "/bucket/a%2Bb.txt". Proof. reflexivity. Qed.
Example a_query : build_canonical_query_string {["prefix" := "a b"; "list-type" := "2"]} = "list-type=2&prefix=a%20b".
Proof. vm_compute. reflexivity. Qed.

(** ** Texts that can be read back *)

(** [s] has none of the character [c]. *)
Definition lacks (c : ascii) (s : string) : Prop := string_forallb (fun d => negb (Ascii.eqb c d)) s = true.

Lemma lacks_cons c d s : lacks c (String d s) <-> c <> d /\ lacks c s.
Proof. unfold lacks. cbn. by rewrite andb_true_iff, negb_true_iff, Ascii.eqb_neq. Qed.
Lemma lacks_app c s t : lacks c (s +:+ t) <-> lacks c s /\ lacks c t.
Proof. unfold lacks. by rewrite string_forallb_app, andb_true_iff. Qed.
Lemma lacks_all c p s : p c = false -> string_forallb p s = true -> lacks c s.
Proof.
  intros Hc. induction s as [|d s IH]; [done|]. cbn. intros [Hd Hs]%andb_true_iff.
  apply lacks_cons. split; [congruence|by apply IH].
Qed.

(** Cutting at the first separator, and at the last. *)
Lemma cut_first c a b a' b' :
  lacks c a -> lacks c a' -> a +:+ String c b = a' +:+ String c b' -> a = a' /\ b = b'.
Proof.
  revert a'. induction a as [|d a IH]; intros [|d' a']; rewrite ?string_app_nil_l, ?string_app_cons;
    rewrite ?lacks_cons; intros Ha Ha' Heq; injection Heq; [by intros ->|naive_solver..|].
  intros Hr ->. by destruct (IH a') as [-> ->]; [naive_solver..|].
Qed.
Lemma cut_last c a b a' b' :
  lacks c b -> lacks c b' -> a +:+ String c b = a' +:+ String c b' -> a = a' /\ b = b'.
Proof.
  revert a'. induction a as [|d a IH]; intros [|d' a']; rewrite ?string_app_nil_l, ?string_app_cons;
    intros Hb Hb' Heq; injection Heq; [by intros ->|intros -> _|intros <- _|].
  - apply lacks_app in Hb as [_ Hb]. by apply lacks_cons in Hb as [? _].
  - apply lacks_app in Hb' as [_ Hb']. by apply lacks_cons in Hb' as [? _].
  - intros Hr ->. by destruct (IH a') as [-> ->].
Qed.

Lemma lines_cut l l' r r' :
  Forall (fun x => lacks newline x /\ x <> "") l -> Forall (fun x => lacks newline x /\ x <> "") l' ->
  lines l +:+ String newline r = lines l' +:+ String newline r' -> l = l' /\ r = r'.
Proof.
  intros Hl. revert l'. induction Hl as [|x l [Hx Hne] Hl IH]; intros l' [|x' l0' [Hx' Hne'] Hl0']; cbn [lines];
    rewrite <- ?string_app_assoc, ?string_app_nil_l.
  - by intros [= ->].
  - destruct x' as [|c x']; [done|]. intros [= Hc _]. apply lacks_cons in Hx' as [? _]. done.
  - destruct x as [|c x]; [done|]. intros [= Hc _]. apply lacks_cons in Hx as [? _]. by subst.
  - intros [-> Hr]%cut_first; [|done..]. apply IH in Hr as [-> ->]; done.
Qed.

Lemma separated_cut sep l l' :
  Forall (fun x => lacks sep x /\ x <> "") l -> Forall (fun x => lacks sep x /\ x <> "") l' ->
  separated sep l = separated sep l' -> l = l'.
Proof.
  intros Hl. revert l'. induction Hl as [|x l [Hx Hne] Hl IH]; intros l' [|x' l0' [Hx' Hne'] Hl0']; cbn [separated];
    [done|..].
  - destruct l0', x'; try done; rewrite string_app_cons; done.
  - destruct l, x; try done; rewrite string_app_cons; done.
  - destruct l as [|y l], l0' as [|y' l1'].
    + by intros ->.
    + intros ->. by apply lacks_app in Hx as [_ [? _]%lacks_cons].
    + intros <-. by apply lacks_app in Hx' as [_ [? _]%lacks_cons].
    + intros [-> Hr]%cut_first; [|done..]. by rewrite (IH _ Hl0' Hr).
Qed.

(** ** Decoding *)

Definition hex_value (c : ascii) : Z :=
  (if is_digit c then byte_val c - 48 else byte_val c - 55)%Z.
Fixpoint uri_decode (s : string) : string :=
  match s with
  | String "%" (String a (String b rest)) => String (to_byte (hex_value a * 16 + hex_value b)) (uri_decode rest)
  | String c rest => String c (uri_decode rest)
  | EmptyString => ""
  end.

Lemma percent_back c :
  to_byte (hex_value (hex_upper (Z.land (Z.shiftr (byte_val c) 4) 15)) * 16 +
           hex_value (hex_upper (Z.land (byte_val c) 15))) = c.
Proof.
  apply Ascii.eqb_eq. revert c. apply (ascii_forall (fun c => Ascii.eqb (to_byte (hex_value (hex_upper (Z.land
    (Z.shiftr (byte_val c) 4) 15)) * 16 + hex_value (hex_upper (Z.land (byte_val c) 15)))) c)). vm_compute. reflexivity.
Qed.

Lemma uri_decode_plain c s : c <> "%"%char -> uri_decode (String c s) = String c (uri_decode s).
Proof. intros Hc. destruct c as [[] [] [] [] [] [] [] []]; try reflexivity. done. Qed.

(** The encoding is undone by the usual decoding, so it loses nothing. *)
Lemma uri_decode_encode s b : uri_decode (uri_encode s b) = s.
Proof.
  induction s as [|c s IH]; [done|]. cbn [uri_encode]. unfold encode_char.
  destruct (unreserved c) eqn:Hu.
  - rewrite string_app_cons, string_app_nil_l, uri_decode_plain by (intros ->; discriminate). by rewrite IH.
  - destruct (Ascii.eqb_spec c "/") as [->|_]; [destruct b|]; cbn [andb negb].
    + unfold percent. rewrite !string_app_cons, string_app_nil_l. cbn [uri_decode]. by rewrite percent_back, IH.
    + rewrite string_app_cons, string_app_nil_l, uri_decode_plain by done. by rewrite IH.
    + unfold percent. rewrite !string_app_cons, string_app_nil_l. cbn [uri_decode]. by rewrite percent_back, IH.
Qed.
Lemma uri_encode_inj s t b : uri_encode s b = uri_encode t b -> s = t.
Proof. intros H. by rewrite <- (uri_decode_encode s b), H, uri_decode_encode. Qed.

(** The characters of an encoded text. *)
Definition encoded_char (c : ascii) : bool := unreserved c || Ascii.eqb c "%" || Ascii.eqb c "/".
Lemma uri_encode_chars s b : string_forallb (fun c => encoded_char c && negb (b && Ascii.eqb c "/")) (uri_encode s b) = true.
Proof.
  induction s as [|c s IH]; [done|]. cbn [uri_encode]. rewrite string_forallb_app, IH, andb_true_r. unfold encode_char.
  destruct (unreserved c) eqn:Hu.
  { cbn. unfold encoded_char. rewrite Hu. destruct (Ascii.eqb_spec c "/") as [->|_]; [discriminate|].
    by rewrite andb_false_r. }
  destruct (Ascii.eqb_spec c "/") as [->|_]; [destruct b|]; cbn [andb negb]; [reflexivity..|].
  revert c Hu. assert (forall c, string_forallb (fun c => encoded_char c && negb (b && Ascii.eqb c "/")) (percent c) = true);
    [|auto]. apply ascii_forall. destruct b; vm_compute; reflexivity.
Qed.
Lemma uri_encode_lacks c s b : encoded_char c = false -> lacks c (uri_encode s b).
Proof. intros Hc. eapply lacks_all; [|apply uri_encode_chars]. cbn. by rewrite Hc. Qed.

(** ** What a canonical request says *)

Lemma map_items_inj {A} (m m' : gmap string A) : map_items m = map_items m' -> m = m'.
Proof.
  intros H. apply map_eq. intros k. apply option_eq. intros a.
  by rewrite <- !elem_of_map_items, H.
Qed.

#[export] Instance query_part_inj : Inj (=) (=) query_part.
Proof.
  intros [k v] [k' v'] [Hk Hv]%cut_first; [|by apply uri_encode_lacks..].
  apply uri_encode_inj in Hk, Hv. cbn in Hk, Hv. by subst.
Qed.
Lemma query_part_plain kv : lacks "&" (query_part kv) /\ query_part kv <> "".
Proof.
  unfold query_part. split; [|by destruct (uri_encode kv.1 true)].
  apply lacks_app. split; [|apply lacks_cons; split; [done|]]; by apply uri_encode_lacks.
Qed.
Lemma canonical_query_inj q q' :
  build_canonical_query_string q = build_canonical_query_string q' -> q = q'.
Proof.
  intros H. apply map_items_inj, (inj (fmap query_part)).
  eapply separated_cut; [| |exact H]; apply Forall_fmap, Forall_forall; intros kv _; apply query_part_plain.
Qed.
Lemma canonical_query_lacks c q :
  encoded_char c = false -> c <> "&"%char -> c <> "="%char -> lacks c (build_canonical_query_string q).
Proof.
  intros Hc Ha He. unfold build_canonical_query_string. induction (map_items q) as [|kv l IH]; [done|].
  assert (lacks c (query_part kv)) as Hkv.
  { apply lacks_app. split; [|apply lacks_cons; split; [done|]]; by apply uri_encode_lacks. }
  cbn [fmap list_fmap separated]. destruct (query_part <$> l); [done|].
  apply lacks_app. split; [done|]. by apply lacks_cons.
Qed.

Lemma drop_blank_lacks c s : lacks c s -> lacks c (drop_blank s).
Proof.
  induction s as [|d s IH]; [done|]. intros H. cbn. destruct (is_blank d); [|done]. apply IH. by apply lacks_cons in H as [_ H].
Qed.
Lemma drop_blank_end_lacks c s : lacks c s -> lacks c (drop_blank_end s).
Proof.
  induction s as [|d s IH]; [done|]. intros [Hd Hs]%lacks_cons. specialize (IH Hs). cbn.
  destruct (drop_blank_end s); [destruct (is_blank d); [done|]|]; by apply lacks_cons.
Qed.
Lemma trimmed_lacks c s : lacks c s -> lacks c (trimmed s).
Proof.
  intros H. unfold trimmed. destruct (string_forallb _ _); [done|]. by apply drop_blank_end_lacks, drop_blank_lacks.
Qed.
Lemma to_lower_lacks c s : (forall d, to_lower_char d = c -> d = c) -> lacks c s -> lacks c (to_lower s).
Proof.
  intros Hc. induction s as [|d s IH]; [done|]. intros [Hd Hs]%lacks_cons. unfold to_lower in *. cbn [string_map].
  apply lacks_cons. split; [|by apply IH]. intros H. by apply Hd, eq_sym, Hc.
Qed.
Lemma to_lower_char_stays c :
  forallb (fun n => negb (Ascii.eqb (to_lower_char (ascii_of_nat n)) c) || Ascii.eqb (ascii_of_nat n) c) (seq 0 256) = true ->
  forall d, to_lower_char d = c -> d = c.
Proof.
  intros H d Hd.
  pose proof (ascii_forall (fun d => negb (Ascii.eqb (to_lower_char d) c) || Ascii.eqb d c) H d) as Hf. cbv beta in Hf.
  rewrite Hd, Ascii.eqb_refl in Hf. by apply Ascii.eqb_eq.
Qed.

(** A request one can sign: the method and the values are on one line, a header's
    name is no more than a name. *)
Definition name_ok (k : string) : Prop := lacks newline k /\ lacks ":" k.
Definition headers_ok (headers : gmap string string) : Prop :=
  forall k v, headers !! k = Some v -> name_ok k /\ lacks newline v.

Lemma headers_plain headers :
  headers_ok headers ->
  Forall (fun kv => name_ok kv.1 /\ lacks newline kv.2) (canonical_header <$> map_items headers).
Proof.
  intros H. apply Forall_fmap, Forall_forall. intros [k v] Hin%elem_of_map_items. cbn.
  destruct (H k v Hin) as [[Hn Hc] Hv].
  split; [split; (apply to_lower_lacks; [by apply to_lower_char_stays|done])|by apply trimmed_lacks].
Qed.

Lemma header_line_inj (l l' : list (string * string)) :
  Forall (fun kv => lacks ":" kv.1) l -> Forall (fun kv => lacks ":" kv.1) l' ->
  header_line <$> l = header_line <$> l' -> l = l'.
Proof.
  intros Hl. revert l'. induction Hl as [|[k v] l Hk Hl IH]; intros l' [|[k' v'] l0' Hk' Hl']; cbn; [done..|].
  intros Heq. injection Heq as Hx Hr. apply cut_first in Hx as [Hkk Hvv]; [|done..].
  cbn in Hkk, Hvv. subst. f_equal. by apply IH.
Qed.

(** The canonical request says which request it is: its method, its path, its
    parameters, its headers up to the case of names and the blanks around values,
    and the digest of its payload. *)
Lemma canonical_request_inj m p q h d m' p' q' h' d' :
  lacks newline m -> lacks newline m' -> headers_ok h -> headers_ok h' -> lacks newline d -> lacks newline d' ->
  canonical_request m p q h d = canonical_request m' p' q' h' d' ->
  m = m' /\ canonical_uri p = canonical_uri p' /\ q = q' /\
  canonical_header <$> map_items h = canonical_header <$> map_items h' /\ d = d'.
Proof.
  intros Hm Hm' Hh%headers_plain Hh'%headers_plain Hd Hd'. unfold canonical_request.
  assert (forall p, lacks newline (canonical_uri p)) as Hu.
  { intros p0. unfold canonical_uri. destruct (is_empty _); [done|by apply uri_encode_lacks]. }
  assert (forall q, lacks newline (build_canonical_query_string q)) as Hq by (intros; by apply canonical_query_lacks).
  set (l := canonical_header <$> map_items h) in *. set (l' := canonical_header <$> map_items h') in *.
  assert (forall l, Forall (fun kv => name_ok kv.1 /\ lacks newline kv.2) l ->
    Forall (fun x => lacks newline x /\ x <> "") (header_line <$> l)) as Hlines.
  { intros l0 H0. apply Forall_fmap. eapply Forall_impl; [exact H0|]. intros [k v] [[Hn _] Hv]. cbn.
    split; [|by destruct k]. apply lacks_app. split; [done|]. by apply lacks_cons. }
  intros [-> Heq]%cut_first; [|done..]. apply cut_first in Heq as [-> Heq]; [|done..].
  apply cut_first in Heq as [Hqq Heq]; [|done..]. apply canonical_query_inj in Hqq as ->.
  apply lines_cut in Heq as [Hl Heq]; [|by apply Hlines..]. apply cut_last in Heq as [_ ->]; [|done..].
  split_and!; try done. apply header_line_inj; [..|exact Hl]; eapply Forall_impl; [exact Hh|by intros ? [[] ?]|exact Hh'|by intros ? [[] ?]].
Qed.

Lemma canonical_uri_inj p p' : p <> "" -> p' <> "" -> canonical_uri p = canonical_uri p' -> p = p'.
Proof.
  assert (forall p, p <> "" -> canonical_uri p = uri_encode p false) as Hu.
  { intros p0 Hp. unfold canonical_uri. rewrite (proj2 (is_empty_false _)); [done|].
    intros H. by apply (uri_encode_inj p0 "" false) in H. }
  intros Hp Hp'. rewrite !Hu by done. apply uri_encode_inj.
Qed.

(** ** Digits *)

Lemma to_hex_inj a b : to_hex a = to_hex b -> a = b.
Proof.
  revert b. induction a as [|x a IH]; intros [|y b]; cbn [to_hex]; try done.
  intros Heq. injection Heq as Hhi Hlo Hr. f_equal; [|by apply IH].
  rewrite <- (percent_back x), <- (percent_back y). unfold hex_upper. by rewrite Hhi, Hlo.
Qed.

Lemma to_hex_lacks c s : is_xdigit c = false -> lacks c (to_hex s).
Proof.
  intros Hc. induction s as [|x s IH]; [done|]. cbn [to_hex].
  assert (forall n, lacks c (String (hex_digit (Z.land n 15)) "")) as Hd.
  { intros n. apply lacks_cons. split; [|done]. intros ->. by rewrite hex_digit_xdigit in Hc by apply land_15_range. }
  pose proof (Hd (Z.shiftr (byte_val x) 4)) as [H1 _]%lacks_cons. pose proof (Hd (byte_val x)) as [H2 _]%lacks_cons.
  by rewrite !lacks_cons.
Qed.

Lemma dec_go_lacks c f n acc : is_digit c = false -> lacks c acc -> lacks c (dec_go f n acc).
Proof.
  intros Hc. revert n acc. induction f as [|f IH]; intros n acc Hacc; [done|]. cbn [dec_go].
  assert (lacks c (String (ascii_of_N (48 + n mod 10)) acc)) as Ha.
  { apply lacks_cons. split; [|done]. intros ->. pose proof (N.mod_lt n 10 ltac:(done)).
    unfold is_digit, in_range, byte_of in Hc. rewrite N_ascii_embedding in Hc by lia.
    change (N_of_ascii "0") with 48%N in Hc. change (N_of_ascii "9") with 57%N in Hc.
    set (k := (n mod 10)%N) in *. clearbody k. apply andb_false_iff in Hc as [H0|H0]; apply N.leb_gt in H0; clear -H H0; lia. }
  destruct (n <? 10)%N; [done|by apply IH].
Qed.
Lemma to_string_lacks c z : is_digit c = false -> c <> "-"%char -> lacks c (to_string z).
Proof.
  intros Hc Hm. unfold to_string, dec_string.
  destruct (z <? 0)%Z; [apply lacks_app; split; [by apply lacks_cons|]|]; by apply dec_go_lacks.
Qed.
Lemma two_lacks c n : is_digit c = false -> c <> "-"%char -> lacks c (two n).
Proof.
  intros Hc Hm. unfold two. apply lacks_app. split; [|by apply to_string_lacks].
  destruct (n <? 10)%Z; [|done]. apply lacks_cons. split; [|done]. by intros ->.
Qed.
Lemma basic_time_lacks now : lacks newline (basic_time now).
Proof.
  unfold basic_time, basic_date. destruct (civil_of_days _) as [[y m] d].
  rewrite !lacks_app. split_and!; solve [by apply two_lacks|by apply to_string_lacks|done].
Qed.

(** ** What a signature binds *)

Definition collides {A} (f : A -> string) (x y : A) : Prop := x <> y /\ f x = f y.

Record S3Request := mkRequest {
  rq_method : string; rq_path : string; rq_query : gmap string string;
  rq_headers : gmap string string; rq_payload : string;
}.
Definition signable (r : S3Request) : Prop :=
  lacks newline (rq_method r) /\ rq_path r <> "" /\ headers_ok (rq_headers r).

Section Binding.
Context (sha256 : string -> string) (hmac : string -> string -> string) (region access_key secret_key service : string).

Definition signed (now : Z) (r : S3Request) : SignedRequest :=
  sign_request_v4 sha256 hmac now (rq_method r) (rq_path r) (rq_query r) (rq_headers r) (rq_payload r)
    region access_key secret_key service.
(** The headers that are signed, the text whose digest is, and what HMAC gets. *)
Definition signed_set (now : Z) (r : S3Request) : gmap string string :=
  all_headers now (rq_headers r) (sha256_hex sha256 (rq_payload r)).
Definition request_text (now : Z) (r : S3Request) : string :=
  canonical_request (rq_method r) (rq_path r) (rq_query r) (signed_set now r) (sha256_hex sha256 (rq_payload r)).
Definition hmac_input (now : Z) (r : S3Request) : string * string :=
  (signing_key hmac now region secret_key service,
   string_to_sign sha256 now (credential_scope now region service) (request_text now r)).

Lemma signed_set_ok now r : headers_ok (rq_headers r) -> headers_ok (signed_set now r).
Proof.
  intros H k v. unfold signed_set, all_headers. destruct (decide (k = "x-amz-content-sha256")) as [->|H1].
  { rewrite lookup_insert_eq. intros [= <-]. split; [done|]. by apply to_hex_lacks. }
  rewrite lookup_insert_ne by done. destruct (decide (k = "x-amz-date")) as [->|H2].
  { rewrite lookup_insert_eq. intros [= <-]. split; [done|apply basic_time_lacks]. }
  rewrite lookup_insert_ne by done. apply H.
Qed.

Lemma authorization_shape now r :
  exists before, sr_authorization (signed now r) =
    before +:+ String "=" (to_hex (uncurry hmac (hmac_input now r))).
Proof.
  exists ("AWS4-HMAC-SHA256 Credential=" +:+ (access_key +:+ ("/" +:+ (credential_scope now region service +:+
    (", SignedHeaders=" +:+ (separated ";" (canonical_header <$> map_items (signed_set now r)).*1 +:+ ", Signature")))))).
  rewrite <- !string_app_assoc. reflexivity.
Qed.

(** The digest is the last line of the text HMAC gets. *)
Lemma string_to_sign_digest now scope text now' scope' text' :
  string_to_sign sha256 now scope text = string_to_sign sha256 now' scope' text' -> sha256 text = sha256 text'.
Proof.
  assert (forall now scope text, exists before, string_to_sign sha256 now scope text =
    before +:+ String newline (sha256_hex sha256 text)) as Hshape.
  { intros n c x. exists ("AWS4-HMAC-SHA256" +:+ String newline (basic_time n +:+ String newline c)).
    unfold string_to_sign. rewrite <- !string_app_assoc, !string_app_cons, <- !string_app_assoc. reflexivity. }
  destruct (Hshape now scope text) as [b ->], (Hshape now' scope' text') as [b' ->].
  intros [_ H]%cut_last; [by apply to_hex_inj|by apply to_hex_lacks..].
Qed.

(** C31. A signature is good for one request.  When two requests signed for one
    account carry the same Authorization header, they have the same method, path,
    parameters and payload, and the same headers up to the case of names and the
    blanks around values, the date among them; or else two texts that the proof
    names collide under SHA-256 or HMAC. *)
Theorem signature_binds now r now' r' :
  signable r -> signable r' -> sr_authorization (signed now r) = sr_authorization (signed now' r') ->
  (rq_method r = rq_method r' /\ rq_path r = rq_path r' /\ rq_query r = rq_query r' /\
   canonical_header <$> map_items (signed_set now r) = canonical_header <$> map_items (signed_set now' r') /\
   rq_payload r = rq_payload r') \/
  collides sha256 (rq_payload r) (rq_payload r') \/
  collides sha256 (request_text now r) (request_text now' r') \/
  collides (uncurry hmac) (hmac_input now r) (hmac_input now' r').
Proof.
  intros (Hm & Hp & Hh) (Hm' & Hp' & Hh') Heq.
  assert (uncurry hmac (hmac_input now r) = uncurry hmac (hmac_input now' r')) as Hs.
  { destruct (authorization_shape now r) as [b Hb], (authorization_shape now' r') as [b' Hb']. rewrite Hb, Hb' in Heq.
    apply cut_last in Heq as [_ H]; [by apply to_hex_inj|by apply to_hex_lacks..]. }
  destruct (decide (hmac_input now r = hmac_input now' r')) as [Hi|Hi]; [|by unfold collides; auto].
  pose proof (string_to_sign_digest _ _ _ _ _ _ (f_equal snd Hi)) as Hsts.
  destruct (decide (request_text now r = request_text now' r')) as [Ht|Ht]; [|by unfold collides; auto].
  apply canonical_request_inj in Ht as (-> & Hu & -> & Hhd & Hd);
    [|done || (by apply signed_set_ok) || (by apply to_hex_lacks)..].
  apply canonical_uri_inj in Hu as ->; [|done..]. apply to_hex_inj in Hd.
  destruct (decide (rq_payload r = rq_payload r')) as [Hpl|Hpl]; [|by unfold collides; auto]. by left.
Qed.
End Binding.

(** ** A request *)

Definition a_request (key : string) : S3Request :=
  mkRequest "GET" ("/bucket/" +:+ key) ∅ {["host" := "localhost:9000"]} "".
(** A digest that loses nothing, and one that loses everything. *)
Definition same_text (s : string) : string := s.
Definition weak_hmac (k m : string) : string := "".

Lemma signature_binds_witness :
  signable (a_request "a b") /\ signable (a_request "c") /\
  collides (uncurry weak_hmac) (hmac_input same_text weak_hmac "r" "sk" "s3" 784111777 (a_request "a b"))
    (hmac_input same_text weak_hmac "r" "sk" "s3" 784111777 (a_request "c")).
Proof.
  assert (forall key, signable (a_request key)) as Hs.
  { intros key. split; [reflexivity|]. split; [discriminate|]. intros k v. cbn. intros [<- <-]%lookup_singleton_Some. by repeat split. }
  split; [apply Hs|]. split; [apply Hs|].
  destruct (signature_binds same_text weak_hmac "r" "ak" "sk" "s3" 784111777 (a_request "a b") 784111777
    (a_request "c") (Hs _) (Hs _)) as [(_ & H & _)|[[H _]|[[H He]|H]]];
    [vm_compute; reflexivity|discriminate|by destruct H|by destruct H|exact H].
Defined.
