(* ===== verification/S3Storage.v ===== *)
(** * Blobs in S3

    Models src/blob/s3/*.hpp and src/blob/s3_storage.hpp over S3Auth.v: each
    operation is one signed request or two.  The HTTP client (cpr) is a type
    class; a lawful server, [Bucket], is a map of objects that answers as the
    service documents.  [std::get_time] with [timegm] is an argument. *)

From S2P Require Import Prelude CxxString CxxStd Validation Uuid Base64 Calendar BlobMemory BlobRoutes S3Auth.

Open Scope string_scope.

(** ** Configuration (s3_config.hpp) *)

Record S3Config := mkS3Config {
  s3_endpoint : string; s3_bucket : string; s3_region : string; s3_access_key : string; s3_secret_key : string;
  use_path_style : bool; use_ssl : bool;
}.

Definition detectSsl (c : S3Config) : S3Config :=
  mkS3Config (s3_endpoint c) (s3_bucket c) (s3_region c) (s3_access_key c) (s3_secret_key c) (use_path_style c)
    (starts_with (s3_endpoint c) "https://").
(** The endpoint with its scheme cut off, and the scheme. *)
Definition scheme_and_host (endpoint : string) : string * string :=
  match String.index 0 "://" endpoint with
  | Some pos => (string_take (pos + 3) endpoint, string_drop (pos + 3) endpoint)
  | None => ("https://", endpoint)
  end.
Definition buildBaseUrl (c : S3Config) : string :=
  if use_path_style c then s3_endpoint c +:+ ("/" +:+ s3_bucket c)
  else let '(scheme, host) := scheme_and_host (s3_endpoint c) in scheme +:+ (s3_bucket c +:+ ("." +:+ host)).
Definition getHost (c : S3Config) : string :=
  match String.index 0 "://" (s3_endpoint c) with Some pos => string_drop (pos + 3) (s3_endpoint c) | None => s3_endpoint c end.
Definition buildHostHeader (c : S3Config) : string :=
  if use_path_style c then getHost c else s3_bucket c +:+ ("." +:+ getHost c).

(** ** The HTTP client *)

Record HttpAnswer := mkAnswer { ha_status : Z; ha_text : string; ha_header : gmap string string }.

(** A request that is sent: [inl] is a transport error, with its message. *)
Class S3Http (W : Type) := {
  http_clock : W -> Z;
  http_send : string -> string -> gmap string string -> string -> bool -> W -> (string + HttpAnswer) * W;
}.

Record S3Response := mkS3Response { s3r_status_code : Z; s3r_body : string; s3r_headers : gmap string string }.
Definition is_success (r : S3Response) : bool := (200 <=? s3r_status_code r)%Z && (s3r_status_code r <? 300)%Z.
Definition is_not_found (r : S3Response) : bool := (s3r_status_code r =? 404)%Z.
Definition get_header (r : S3Response) (name : string) : string :=
  match s3r_headers r !! name with
  | Some v => v
  | None =>
      match List.find (fun kv => String.eqb (to_lower kv.1) (to_lower name)) (map_items (s3r_headers r)) with
      | Some (_, v) => v
      | None => ""
      end
  end.

(** The path that is signed. *)
Definition object_path (c : S3Config) (object_key : string) : string :=
  if use_path_style c
  then "/" +:+ (s3_bucket c +:+ (if is_empty object_key then "" else "/" +:+ object_key))
  else "/" +:+ object_key.
(** The headers of a request with their names in lower case. *)
Definition lowered (extra_headers headers : gmap string string) : gmap string string :=
  foldl (fun m kv => <[to_lower kv.1 := kv.2]> m) headers (map_items extra_headers).

Definition s3_response_to_error (resp : S3Response) (context : string) : Error :=
  let status := s3r_status_code resp in
  (if status =? 404 then notFound (context +:+ ": not found")
   else if status =? 403 then forbidden (context +:+ ": access denied")
   else if status =? 401 then unauthorized (context +:+ ": authentication failed")
   else if status =? 409 then conflict (context +:+ ": conflict")
   else if (status =? 412) || (status =? 400) then validationError (context +:+ (": " +:+ s3r_body resp))
   else internal (context +:+ (": HTTP " +:+ (to_string status +:+ (" " +:+ s3r_body resp)))))%Z.

(** Text between XML tags (s3_list.hpp): the text, and what follows it. *)
Definition tagged (xml tag : string) : option (string * string) :=
  let open_tag := "<" +:+ (tag +:+ ">") in
  let close_tag := "</" +:+ (tag +:+ ">") in
  start ← String.index 0 open_tag xml;
  let inner := string_drop (start + String.length open_tag) xml in
  stop ← String.index 0 close_tag inner;
  Some (string_take stop inner, string_drop (stop + String.length close_tag) inner).
Definition xml_extract (xml tag : string) : string :=
  match tagged xml tag with Some (text, _) => text | None => "" end.
Fixpoint xml_loop (fuel : nat) (xml tag : string) : list string :=
  match fuel with
  | O => []
  | S fuel => match tagged xml tag with Some (text, rest) => text :: xml_loop fuel rest tag | None => [] end
  end.
(** [xml_extract_all] and [xml_extract_elements], which are one function. *)
Definition xml_extract_elements (xml tag : string) : list string := xml_loop (S (String.length xml)) xml tag.

Section Storage.
Context {W : Type} `{!S3Http W}.
Context (sha256 : string -> string) (hmac_sha256 : string -> string -> string).
(** [std::get_time] of a text with a format, made a [time_t] by [timegm]. *)
Context (get_time : string -> string -> option Z).
Context (config : S3Config).

(** The URL that is requested: the key as it is, the parameters encoded. *)
Definition request_url (object_key : string) (query_params : gmap string string) : string :=
  buildBaseUrl config +:+ ((if is_empty object_key then "" else "/" +:+ object_key) +:+
    (if bool_decide (query_params = ∅) then "" else "?" +:+ build_canonical_query_string query_params)).
(** The headers it is signed with. *)
Definition signed_headers (now : Z) (method object_key : string) (query_params sent : gmap string string) (body : string) :
    gmap string string :=
  sr_headers (sign_request_v4 sha256 hmac_sha256 now method (object_path config object_key) query_params sent body
    (s3_region config) (s3_access_key config) (s3_secret_key config) "s3").
Definition s3_http_request (method object_key : string) (query_params extra_headers : gmap string string) (body : string) :
    Op W S3Response := fun w =>
  let headers := signed_headers (to_time_t (http_clock w)) method object_key query_params
    (lowered extra_headers {["host" := buildHostHeader config]}) body in
  if bool_decide (method ∈ ["GET"; "PUT"; "DELETE"; "HEAD"]) then
    match http_send method (request_url object_key query_params) headers (if String.eqb method "PUT" then body else "") (use_ssl config) w with
    | (inl message, w') => (Err (mkError DatabaseError ("S3 HTTP request failed: " +:+ message)), w')
    | (inr a, w') => (Ok (mkS3Response (ha_status a) (ha_text a) (ha_header a)), w')
    end
  else (Err (validationError ("Unsupported HTTP method: " +:+ method)), w).

(** [if (!resp.is_success()) return s3_response_to_error(resp, context);] *)
Definition succeeded (resp : S3Response) (context : string) : Op W unit :=
  reject_if (negb (is_success resp)) (s3_response_to_error resp context).

(** A [time_point] counts nanoseconds; the default one is the epoch. *)
Definition parse_http_date (date_str : string) : Z :=
  if is_empty date_str then 0%Z
  else match get_time "%a, %d %b %Y %H:%M:%S" date_str with
       | Some seconds => (seconds * 1000000000)%Z
       | None => match get_time "%Y-%m-%dT%H:%M:%S" date_str with Some seconds => (seconds * 1000000000)%Z | None => 0%Z end
       end.

Definition extract_custom_metadata (headers : gmap string string) : gmap string string :=
  let prefix := "x-amz-meta-" in
  foldl (fun metadata kv =>
    let lower_key := to_lower kv.1 in
    if starts_with lower_key prefix then <[string_drop (String.length prefix) lower_key := kv.2]> metadata else metadata)
    ∅ (map_items headers).

(** A size that is read from a text; without one the member is never assigned,
    and copying it is undefined. *)
Definition read_size (text : string) : Result Z :=
  if is_empty text then Undef else Ok (default 0%Z (stoull text)).

Definition s3_get_metadata (key : string) : Op W BlobMetadata :=
  resp ← s3_http_request "HEAD" key ∅ ∅ "";
  succeeded resp ("GetMetadata " +:+ key);;
  size ← of_result (read_size (get_header resp "Content-Length"));
  let content_type := get_header resp "Content-Type" in
  mret (mkBlobMeta key size (if is_empty content_type then "application/octet-stream" else content_type)
    (get_header resp "ETag") (parse_http_date (get_header resp "Last-Modified")) (extract_custom_metadata (s3r_headers resp))).

(** The HEAD request made before an upload that must not overwrite; its own
    failure is passed over. *)
Definition s3_check_absent (key : string) : Op W unit := fun w =>
  match s3_http_request "HEAD" key ∅ ∅ "" w with
  | (Ok resp, w') => if is_success resp then (Err (conflict ("Blob already exists: " +:+ key)), w') else (Ok tt, w')
  | (_, w') => (Ok tt, w')
  end.
Definition upload_headers (content_type : string) (metadata : gmap string string) : gmap string string :=
  foldl (fun m kv => <["x-amz-meta-" +:+ kv.1 := kv.2]> m) {["content-type" := content_type]} (map_items metadata).
Definition s3_put (key data content_type : string) (metadata : gmap string string) : Op W BlobMetadata :=
  resp ← s3_http_request "PUT" key ∅ (upload_headers content_type metadata) data;
  succeeded resp ("Upload " +:+ key);;
  now ← gets http_clock;
  mret (mkBlobMeta key (size data) content_type (get_header resp "ETag") now metadata).
Definition s3_upload (key data : string) (options : UploadOptions) : Op W BlobMetadata :=
  (if up_overwrite options then mret tt else s3_check_absent key);;
  s3_put key data (default "application/octet-stream" (up_content_type options)) (up_metadata options).
(** The vector is reserved and never filled, and the callback never called. *)
Definition s3_uploadStream (key read_callback : string) (n : Z) (options : UploadOptions) : Op W BlobMetadata :=
  s3_upload key "" options.

Definition range_header (options : DownloadOptions) : gmap string string :=
  match dl_offset options, dl_length options with
  | None, None => ∅
  | o, l =>
      let offset := default 0%Z o in
      {["range" := "bytes=" +:+ (to_string offset +:+ ("-" +:+
        match l with Some length => to_string ((offset + length - 1) mod 2 ^ 64)%Z | None => "" end))]}
  end.
Definition s3_download (key : string) (options : DownloadOptions) : Op W string :=
  resp ← s3_http_request "GET" key ∅ (range_header options) "";
  succeeded resp ("Download " +:+ key);;
  mret (s3r_body resp).
Definition s3_downloadStream (key : string) (options : DownloadOptions) : Op W (list string) :=
  data ← s3_download key options;
  mret (if is_empty data then [] else [data]).

Definition s3_delete (key : string) : Op W bool :=
  head ← s3_http_request "HEAD" key ∅ ∅ "";
  reject_if (is_not_found head) (notFound ("Blob not found: " +:+ key));;
  resp ← s3_http_request "DELETE" key ∅ ∅ "";
  if (s3r_status_code resp =? 204)%Z || is_success resp then mret true
  else fail (s3_response_to_error resp ("Delete " +:+ key)).

Definition s3_exists (key : string) : Op W bool :=
  resp ← s3_http_request "HEAD" key ∅ ∅ "";
  if is_success resp then mret true
  else if is_not_found resp then mret false
  else fail (s3_response_to_error resp ("Exists check " +:+ key)).

Definition s3_copy (source_key dest_key : string) : Op W BlobMetadata :=
  let copy_source := "/" +:+ (s3_bucket config +:+ ("/" +:+ source_key)) in
  resp ← s3_http_request "PUT" dest_key ∅ {["x-amz-copy-source" := copy_source]} "";
  succeeded resp ("Copy " +:+ (source_key +:+ (" to " +:+ dest_key)));;
  s3_get_metadata dest_key.

Definition listing_query (options : BlobListOptions) : gmap string string :=
  let with_text (name : string) (o : option string) (m : gmap string string) :=
    match o with Some v => if is_empty v then m else <[name := v]> m | None => m end in
  with_text "continuation-token" (lo_continuation_token options) (with_text "prefix" (lo_prefix options)
    (<["max-keys" := to_string (lo_max_keys options)]> {["list-type" := "2"]})).
Definition listed_object (content_xml : string) : Result BlobMetadata :=
  size ← read_size (xml_extract content_xml "Size");
  Ok (mkBlobMeta (xml_extract content_xml "Key") size "application/octet-stream" (xml_extract content_xml "ETag")
    (parse_http_date (xml_extract content_xml "LastModified")) ∅).
Definition read_listing (body : string) : Result BlobListResult :=
  items ← mapM listed_object (xml_extract_elements body "Contents");
  let next_token := xml_extract body "NextContinuationToken" in
  Ok (mkBlobList items (if is_empty next_token then None else Some next_token)
    (String.eqb (xml_extract body "IsTruncated") "true")).
Definition s3_list (options : BlobListOptions) : Op W BlobListResult :=
  resp ← s3_http_request "GET" "" (listing_query options) ∅ "";
  succeeded resp "List objects";;
  of_result (read_listing (s3r_body resp)).

(** The loop of s3_total_size and s3_object_count, which gather something of each page. *)
Fixpoint gather_pages (fuel : nat) (gather : Z -> BlobListResult -> Z) (total : Z) (token : option string) : Op W Z :=
  match fuel with
  | O => undef
  | S fuel =>
      page ← s3_list (mkBlobListOptions None token 1000);
      let total := gather total page in
      match bl_is_truncated page, bl_next_token page with
      | true, Some next => gather_pages fuel gather total (Some next)
      | _, _ => mret total
      end
  end.
Definition sizes (total : Z) (page : BlobListResult) : Z :=
  foldl (fun total item => (total + bm_size item) mod 2 ^ 64)%Z total (bl_items page).
Definition counts (total : Z) (page : BlobListResult) : Z := ((total + Z.of_nat (length (bl_items page))) mod 2 ^ 64)%Z.
Definition s3_total_size (fuel : nat) : Op W Z := gather_pages fuel sizes 0%Z None.
Definition s3_object_count (fuel : nat) : Op W Z := gather_pages fuel counts 0%Z None.

(** [static_cast<int>(expiration.count())] *)
Definition cast_int (z : Z) : Z := ((z + 2 ^ 31) mod 2 ^ 32 - 2 ^ 31)%Z.
Definition s3_presigned_url (key : string) (expiration : Z) : Op W string := fun w =>
  if is_empty key then (Err (validationError "Object key cannot be empty for presigned URL"), w)
  else
    let expires_seconds := cast_int expiration in
    if (expires_seconds <=? 0)%Z || (604800 <? expires_seconds)%Z
    then (Err (validationError "Presigned URL expiration must be between 1 and 604800 seconds"), w)
    else
      let path := if use_path_style config then "/" +:+ (s3_bucket config +:+ ("/" +:+ key)) else "/" +:+ key in
      let query_string := generate_presigned_query_string sha256 hmac_sha256 (to_time_t (http_clock w)) "GET"
        (buildHostHeader config) path (s3_region config) (s3_access_key config) (s3_secret_key config) expires_seconds "s3" in
      (Ok (buildBaseUrl config +:+ ("/" +:+ (key +:+ ("?" +:+ query_string)))), w).
End Storage.

(** The class [S3Storage]; the walks over the pages are bounded by [fuel]. *)
Definition S3Storage {W} `{!S3Http W} (sha256 : string -> string) (hmac_sha256 : string -> string -> string)
    (get_time : string -> string -> option Z) (config0 : S3Config) (fuel : nat) : BlobStorage W :=
  let config := detectSsl config0 in {|
  st_upload := s3_upload sha256 hmac_sha256 config;
  st_download := s3_download sha256 hmac_sha256 config;
  st_deleteBlob := s3_delete sha256 hmac_sha256 config;
  st_getMetadata := s3_get_metadata sha256 hmac_sha256 get_time config;
  st_list := s3_list sha256 hmac_sha256 get_time config;
  st_generatePresignedUrl := s3_presigned_url sha256 hmac_sha256 config;
  st_copy := s3_copy sha256 hmac_sha256 get_time config;
  st_getTotalSize := s3_total_size sha256 hmac_sha256 get_time config fuel;
  st_getObjectCount := s3_object_count sha256 hmac_sha256 get_time config fuel;
|}.

(** ** Numbers as texts *)
Lemma stoull_to_string z rest : in_size z -> take_digits rest = "" -> stoull (to_string z +:+ rest) = Some z.
Proof.
  intros [H0 H1] Hr. unfold stoull. rewrite strtol_to_string by done. rewrite Z.abs_eq, (proj2 (Z.leb_le _ _)) by done.
  by rewrite Z.mod_small by (unfold SIZE_MAX in H1; lia).
Qed.
Lemma to_string_size z : in_size z -> to_string z <> "" /\ stoull (to_string z) = Some z.
Proof.
  intros Hz. pose proof (stoull_to_string z "" Hz eq_refl) as H. rewrite string_app_nil_r in H.
  split; [|done]. intros He. by rewrite He in H.
Qed.

(** ** Keys that go through *)

Definition plain_char (c : ascii) : bool := unreserved c || Ascii.eqb c "/".
Definition plain (s : string) : bool := string_forallb plain_char s.

(** A text is its own encoding exactly when it has no character to encode: only
    then is the key in the URL the key that was signed. *)
Lemma encoded_plain s : uri_encode s false = s <-> plain s = true.
Proof.
  unfold plain. induction s as [|c s IH]; [done|]. cbn [uri_encode string_forallb]. unfold encode_char, plain_char at 1.
  destruct (unreserved c); cbn [orb andb]; [rewrite string_app_cons, string_app_nil_l; split; [intros [= H]; by apply IH|
    intros H; f_equal; by apply IH]|].
  destruct (Ascii.eqb_spec c "/") as [->|_]; cbn [andb negb]; [rewrite string_app_cons, string_app_nil_l; split;
    [intros [= H]; by apply IH|intros H; f_equal; by apply IH]|].
  split; [|done]. intros H. exfalso. apply (f_equal String.length) in H.
  unfold percent in H. rewrite string_length_app in H. cbn in H.
  assert (forall t, String.length t <= String.length (uri_encode t false)) as Hlen; [|specialize (Hlen s); lia].
  clear. induction t as [|c t IH]; [done|]. cbn [uri_encode String.length]. rewrite string_length_app. unfold encode_char.
  destruct (unreserved c); [|destruct (Ascii.eqb c "/" && negb false)]; cbn; lia.
Qed.

(** ** A server that is a map of objects *)

Definition object_url (config : S3Config) (key : string) : string :=
  buildBaseUrl config +:+ ("/" +:+ uri_encode key false).
Definition bytes_text (from : Z) (to : option Z) : string :=
  "bytes=" +:+ (to_string from +:+ ("-" +:+ match to with Some z => to_string z | None => "" end)).
Definition bytes_of (data : string) (from : Z) (to : option Z) : string :=
  match to with
  | None => string_drop (Z.to_nat from) data
  | Some z => string_take (Z.to_nat (z - from + 1)) (string_drop (Z.to_nat from) data)
  end.

Definition one_of_dots (segment : string) : bool := String.eqb segment "." || String.eqb segment "..".
Definition addressable (key : string) : Prop := key <> "" /\ forallb (fun s => negb (one_of_dots s)) (split_on "/" key) = true.

(** What the service documents of requests that are signed with the right key for
    the object their URL names, [sent] being the headers besides the signature's.  The
    keys are not empty and have no segment that is one dot or two: the client would
    take those out of the URL it sends.  A copy is to another key: the service refuses
    to copy an object onto itself without a change. *)
Class Bucket {W : Type} (http : S3Http W) (sha256 : string -> string) (hmac_sha256 : string -> string -> string)
    (config : S3Config) (objects : W -> gmap string string) := {
  bucket_head : forall w now key sent, addressable key -> exists answer w',
    http_send "HEAD" (object_url config key) (signed_headers sha256 hmac_sha256 config now "HEAD" key ∅ sent "") "" (use_ssl config) w =
      (inr answer, w') /\ objects w' = objects w /\
    match objects w !! key with
    | Some data => ha_status answer = 200%Z /\ ha_header answer !! "Content-Length" = Some (to_string (size data))
    | None => ha_status answer = 404%Z
    end;
  bucket_put : forall w now key sent data, addressable key -> sent !! "x-amz-copy-source" = None -> exists answer w',
    http_send "PUT" (object_url config key) (signed_headers sha256 hmac_sha256 config now "PUT" key ∅ sent data) data (use_ssl config) w =
      (inr answer, w') /\ ha_status answer = 200%Z /\ objects w' = <[key := data]> (objects w);
  bucket_copy : forall w now key sent source, addressable key -> key <> source ->
    sent !! "x-amz-copy-source" = Some ("/" +:+ (s3_bucket config +:+ ("/" +:+ uri_encode source false))) -> exists answer w',
    http_send "PUT" (object_url config key) (signed_headers sha256 hmac_sha256 config now "PUT" key ∅ sent "") "" (use_ssl config) w =
      (inr answer, w') /\
    match objects w !! source with
    | Some data => ha_status answer = 200%Z /\ objects w' = <[key := data]> (objects w)
    | None => ha_status answer = 404%Z /\ objects w' = objects w
    end;
  bucket_get : forall w now key sent, addressable key -> sent !! "range" = None -> exists answer w',
    http_send "GET" (object_url config key) (signed_headers sha256 hmac_sha256 config now "GET" key ∅ sent "") "" (use_ssl config) w =
      (inr answer, w') /\ objects w' = objects w /\
    match objects w !! key with
    | Some data => ha_status answer = 200%Z /\ ha_text answer = data
    | None => ha_status answer = 404%Z
    end;
  bucket_range : forall w now key sent from to, addressable key -> sent !! "range" = Some (bytes_text from to) ->
    in_size from -> (forall z, to = Some z -> in_size z /\ (from <= z)%Z) -> exists answer w',
    http_send "GET" (object_url config key) (signed_headers sha256 hmac_sha256 config now "GET" key ∅ sent "") "" (use_ssl config) w =
      (inr answer, w') /\ objects w' = objects w /\
    match objects w !! key with
    | Some data =>
        if (from <? size data)%Z then ha_status answer = 206%Z /\ ha_text answer = bytes_of data from to
        else ha_status answer = 416%Z
    | None => ha_status answer = 404%Z
    end;
  bucket_delete : forall w now key sent, addressable key -> exists answer w',
    http_send "DELETE" (object_url config key) (signed_headers sha256 hmac_sha256 config now "DELETE" key ∅ sent "") "" (use_ssl config) w =
      (inr answer, w') /\ ha_status answer = 204%Z /\ objects w' = delete key (objects w);
}.

Section Refinement.
Context {W : Type} {http : S3Http W} (sha256 : string -> string) (hmac_sha256 : string -> string -> string)
  (get_time : string -> string -> option Z) (config : S3Config) (objects : W -> gmap string string)
  (fuel : nat) `{!Bucket http sha256 hmac_sha256 config objects}.

Abbreviation request := (s3_http_request sha256 hmac_sha256 config).

(** A request for an object whose key is plain is the one the server expects. *)
Lemma request_sends method key extra body w :
  addressable key -> plain key = true -> method ∈ ["GET"; "PUT"; "DELETE"; "HEAD"] -> (method <> "PUT" -> body = "") ->
  request method key ∅ extra body w =
    match http_send method (object_url config key)
            (signed_headers sha256 hmac_sha256 config (to_time_t (http_clock w)) method key ∅
               (lowered extra {["host" := buildHostHeader config]}) body) body (use_ssl config) w with
    | (inl message, w') => (Err (mkError DatabaseError ("S3 HTTP request failed: " +:+ message)), w')
    | (inr a, w') => (Ok (mkS3Response (ha_status a) (ha_text a) (ha_header a)), w')
    end.
Proof.
  intros [Hne _] Hp%encoded_plain Hm Hb. unfold s3_http_request, request_url, object_url. rewrite Hp.
  rewrite (proj2 (is_empty_false key)) by done. rewrite (bool_decide_eq_true_2 (method ∈ _)) by done.
  rewrite (bool_decide_eq_true_2 (∅ = ∅)) by done. rewrite string_app_nil_r.
  destruct (String.eqb_spec method "PUT") as [->|Hput]; [done|]. by rewrite (Hb Hput).
Qed.

(** The calls of the class, as in BlobMemory.v. *)
Definition s3_perform (c : blob_call) : Op W blob_answer :=
  match c with
  | Upload key data overwrite =>
      meta ← s3_upload sha256 hmac_sha256 config key data (mkUpload None ∅ overwrite); mret (Stored (bm_size meta))
  | Download key offset length => data ← s3_download sha256 hmac_sha256 config key (mkDownload offset length); mret (Bytes data)
  | Delete key => b ← s3_delete sha256 hmac_sha256 config key; mret (Yes b)
  | Exists key => b ← s3_exists sha256 hmac_sha256 config key; mret (Yes b)
  | Copy source dest => meta ← s3_copy sha256 hmac_sha256 get_time config source dest; mret (Stored (bm_size meta))
  | Size_of key => meta ← s3_get_metadata sha256 hmac_sha256 get_time config key; mret (Stored (bm_size meta))
  | DownloadStream key offset length =>
      l ← s3_downloadStream sha256 hmac_sha256 config key (mkDownload offset length); mret (Pieces l)
  | TotalSize => n ← s3_total_size sha256 hmac_sha256 get_time config fuel; mret (Stored n)
  | ObjectCount => n ← s3_object_count sha256 hmac_sha256 get_time config fuel; mret (Stored n)
  end.

Definition key_ok (key : string) : Prop := addressable key /\ plain key = true.
(** The keys of a call, and the ranges HTTP can ask for: the last byte is named,
    so a range is not empty, and one past the end is an error of its own.  The totals
    are sums over listings (totals_all_pages). *)
Definition s3_call_ok (c : blob_call) (m : gmap string string) : Prop :=
  match c with
  | Upload key _ _ | Delete key | Exists key | Size_of key => key_ok key
  | Copy source dest => key_ok source /\ key_ok dest /\ dest <> source
  | TotalSize | ObjectCount => False
  | Download key offset length | DownloadStream key offset length =>
      key_ok key /\ in_size (default 0%Z offset) /\
      (forall l, length = Some l -> (1 <= l)%Z /\ (default 0 offset + l <= 2 ^ 64)%Z) /\
      (forall data, m !! key = Some data -> (offset <> None \/ length <> None) -> (default 0 offset < size data)%Z)
  end.
(** Answers that agree, up to the text of an error. *)
Definition agree {A} (r r' : Result A) : Prop :=
  match r, r' with Ok a, Ok b => a = b | Err e, Err e' => code e = code e' | _, _ => False end.

(** The state of the server after a request, and what its status tells. *)
Definition answered {A} (m : Op W A) (w : W) (P : A -> gmap string string -> Prop) : Prop :=
  exists a w', m w = (Ok a, w') /\ P a (objects w').

Lemma answered_bind {A B} (m : Op W A) (k : A -> Op W B) w P r objs :
  answered m w P -> (forall a w', P a (objects w') -> agree (k a w').1 r /\ objects (k a w').2 = objs) ->
  agree ((m ≫= k) w).1 r /\ objects ((m ≫= k) w).2 = objs.
Proof. intros (a & w' & Hm & HP) Hk. rewrite (run_bind_ok _ _ _ _ _ Hm). by apply Hk. Qed.

Lemma head_answered key w :
  key_ok key ->
  answered (request "HEAD" key ∅ ∅ "") w (fun resp objs => objs = objects w /\
    match objects w !! key with
    | Some data => s3r_status_code resp = 200%Z /\ get_header resp "Content-Length" = to_string (size data)
    | None => s3r_status_code resp = 404%Z
    end).
Proof.
  intros [Hne Hp].
  destruct (bucket_head w (to_time_t (http_clock w)) key (lowered ∅ {["host" := buildHostHeader config]}) Hne)
    as (a & w' & Hsend & Hobjs & Ha).
  eexists _, w'. rewrite request_sends by (done || set_solver). rewrite Hsend. split; [reflexivity|]. split; [done|].
  destruct (objects w !! key) as [data|]; [|done]. destruct Ha as [Hs Hl]. split; [done|].
  unfold get_header. cbn [s3r_headers]. by rewrite Hl.
Qed.

Lemma delete_answered key w :
  key_ok key ->
  answered (request "DELETE" key ∅ ∅ "") w (fun resp objs =>
    s3r_status_code resp = 204%Z /\ objs = delete key (objects w)).
Proof.
  intros [Hne Hp].
  destruct (bucket_delete w (to_time_t (http_clock w)) key (lowered ∅ {["host" := buildHostHeader config]}) Hne)
    as (a & w' & Hsend & Ha & Hobjs).
  eexists _, w'. rewrite request_sends by (done || set_solver). rewrite Hsend. by split.
Qed.

Lemma lowered_none h : lowered ∅ h = h.
Proof. unfold lowered. by rewrite map_items_empty. Qed.
(** The headers a request adds, in lower case already. *)
Lemma lowered_one k v h : to_lower k = k -> lowered {[k := v]} h = <[k := v]> h.
Proof.
  intros Hk. unfold lowered.
  assert (map_items {[k := v]} = [(k, v)]) as ->.
  { apply Permutation_singleton_r. by rewrite map_items_perm, map_to_list_singleton. }
  cbn. by rewrite Hk.
Qed.

Lemma put_answered key data content_type w :
  key_ok key ->
  answered (request "PUT" key ∅ (upload_headers content_type ∅) data) w (fun resp objs =>
    s3r_status_code resp = 200%Z /\ objs = <[key := data]> (objects w)).
Proof.
  intros [Hne Hp]. unfold upload_headers. rewrite map_items_empty. cbn [foldl].
  destruct (bucket_put w (to_time_t (http_clock w)) key
    (<["content-type" := content_type]> {["host" := buildHostHeader config]}) data Hne) as (a & w' & Hsend & Ha & Hobjs).
  { by rewrite lookup_insert_ne, lookup_singleton_ne. }
  eexists _, w'. rewrite request_sends by (done || set_solver). rewrite lowered_one by done. rewrite Hsend. by split.
Qed.

Lemma copy_answered source dest w :
  key_ok source -> key_ok dest -> dest <> source ->
  answered (request "PUT" dest ∅ {["x-amz-copy-source" := "/" +:+ (s3_bucket config +:+ ("/" +:+ source))]} "") w
    (fun resp objs =>
      match objects w !! source with
      | Some data => s3r_status_code resp = 200%Z /\ objs = <[dest := data]> (objects w)
      | None => s3r_status_code resp = 404%Z /\ objs = objects w
      end).
Proof.
  intros [_ Hs%encoded_plain] [Hne Hp] Hother.
  destruct (bucket_copy w (to_time_t (http_clock w)) dest (<["x-amz-copy-source" := "/" +:+ (s3_bucket config +:+ ("/" +:+ source))]>
    {["host" := buildHostHeader config]}) source Hne Hother) as (a & w' & Hsend & Ha).
  { by rewrite lookup_insert_eq, Hs. }
  eexists _, w'. rewrite request_sends by (done || set_solver). rewrite lowered_one by done. rewrite Hsend. split; [done|].
  by destruct (objects w !! source).
Qed.

Lemma get_answered key options w :
  key_ok key -> s3_call_ok (Download key (dl_offset options) (dl_length options)) (objects w) ->
  answered (request "GET" key ∅ (range_header options) "") w (fun resp objs => objs = objects w /\
    match objects w !! key with
    | Some data => is_success resp = true /\ slice data (dl_offset options) (dl_length options) = Some (s3r_body resp)
    | None => s3r_status_code resp = 404%Z
    end).
Proof.
  intros [Hne Hp] (_ & Hoff & Hlen & Hin). destruct options as [offset length]. cbn [dl_offset dl_length] in *.
  destruct (decide (offset = None /\ length = None)) as [[-> ->]|Hrange].
  { destruct (bucket_get w (to_time_t (http_clock w)) key {["host" := buildHostHeader config]} Hne)
      as (a & w' & Hsend & Hobjs & Ha); [by rewrite lookup_singleton_ne|].
    eexists _, w'. change (range_header (mkDownload None None)) with (∅ : gmap string string).
    rewrite request_sends by (done || set_solver). rewrite lowered_none, Hsend. split; [done|]. split; [done|].
    destruct (objects w !! key); [|done]. destruct Ha as [Hs <-]. unfold is_success. cbn. by rewrite Hs. }
  set (from := default 0%Z offset) in *. set (to := (fun l => (from + l - 1)%Z) <$> length).
  assert (range_header (mkDownload offset length) = {["range" := bytes_text from to]}) as ->.
  { unfold range_header. cbn [dl_offset dl_length]. unfold bytes_text, to.
    destruct offset as [o|], length as [l|]; cbn [from_option id fmap option_fmap option_map]; try done; [| |naive_solver];
      destruct (Hlen l eq_refl) as [H1 H2]; rewrite Z.mod_small; try done; unfold from, in_size, SIZE_MAX in *; cbn in *; lia. }
  destruct (bucket_range w (to_time_t (http_clock w)) key (<["range" := bytes_text from to]> {["host" := buildHostHeader config]})
    from to Hne) as (a & w' & Hsend & Hobjs & Ha).
  { by rewrite lookup_insert_eq. }
  { done. }
  { unfold to. intros z. destruct length as [l|]; [|done]. cbn. intros [= <-]. destruct (Hlen l eq_refl) as [H1 H2].
    unfold in_size, SIZE_MAX in *. lia. }
  eexists _, w'. rewrite request_sends by (done || set_solver). rewrite lowered_one by done. rewrite Hsend.
  split; [done|]. split; [done|]. destruct (objects w !! key) as [data|] eqn:Hk; [|done].
  assert (from < size data)%Z as Hlt by (apply (Hin data eq_refl); destruct offset, length; auto; naive_solver).
  rewrite (proj2 (Z.ltb_lt _ _) Hlt) in Ha. destruct Ha as [Hs Ht]. unfold is_success. cbn [s3r_status_code s3r_body].
  rewrite Hs, Ht. split; [done|]. unfold slice, bytes_of, to. unfold size in Hlt. unfold in_size in Hoff.
  assert (String.length data <=? Z.to_nat from = false)%nat as Hle by (apply Nat.leb_gt; lia).
  change (default 0%Z offset) with from. rewrite Hle. clearbody from. clear -Hrange Hlen.
  destruct offset as [o|], length as [l|]; cbn; try naive_solver; do 2 f_equal; destruct (Hlen l eq_refl); lia.
Qed.

Lemma run_succeeded {B} resp context (k : Op W B) w :
  (succeeded resp context;; k) w = if is_success resp then k w else (Err (s3_response_to_error resp context), w).
Proof. unfold succeeded. rewrite run_reject. by destruct (is_success resp). Qed.
Lemma absent_code resp context : s3r_status_code resp = 404%Z -> code (s3_response_to_error resp context) = NotFound.
Proof. intros H. unfold s3_response_to_error. by rewrite H. Qed.
Lemma found_success resp : s3r_status_code resp = 200%Z -> is_success resp = true /\ is_not_found resp = false.
Proof. intros H. unfold is_success, is_not_found. by rewrite H. Qed.
Lemma absent_failure resp : s3r_status_code resp = 404%Z -> is_success resp = false /\ is_not_found resp = true.
Proof. intros H. unfold is_success, is_not_found. by rewrite H. Qed.

(** The size a metadata request answers is that of the object. *)
Lemma metadata_agrees key w (objs := objects w) :
  key_ok key -> (forall data, objs !! key = Some data -> in_size (size data)) ->
  agree ((meta ← s3_get_metadata sha256 hmac_sha256 get_time config key; mret (Stored (bm_size meta)) : Op W blob_answer) w).1
    (spec_call (Size_of key) objs).1 /\
  objects ((meta ← s3_get_metadata sha256 hmac_sha256 get_time config key; mret (Stored (bm_size meta)) : Op W blob_answer) w).2 = objs.
Proof.
  intros Hk Hsize. unfold s3_get_metadata. rewrite run_assoc.
  eapply answered_bind; [by apply head_answered|]. intros resp w' [Hobjs Hr]. fold objs in Hobjs, Hr.
  rewrite run_assoc, run_succeeded. cbn [spec_call]. destruct (objs !! key) as [data|].
  - destruct Hr as [Hs Hl]. destruct (found_success _ Hs) as [-> _].
    destruct (to_string_size (size data)) as [Hne Hst]; [by apply Hsize|].
    unfold read_size. rewrite Hl, (proj2 (is_empty_false _) Hne), Hst. by split.
  - destruct (absent_failure _ Hr) as [-> _]. by split; [apply absent_code|].
Qed.

Lemma put_agrees key data content_type w :
  key_ok key ->
  agree ((meta ← s3_put sha256 hmac_sha256 config key data content_type ∅; mret (Stored (bm_size meta)) : Op W blob_answer) w).1
    (Ok (Stored (size data))) /\
  objects ((meta ← s3_put sha256 hmac_sha256 config key data content_type ∅; mret (Stored (bm_size meta)) : Op W blob_answer) w).2 =
    <[key := data]> (objects w).
Proof.
  intros Hk. unfold s3_put. rewrite run_assoc. eapply answered_bind; [by apply put_answered|].
  intros resp w1 [Hs Hobjs]. rewrite run_assoc, run_succeeded. destruct (found_success _ Hs) as [-> _].
  rewrite run_assoc, run_gets. by split.
Qed.

(** C30. Over a server that is a map of objects, [S3Storage] implements the same
    specification as the store in memory, the map of byte strings: upload, download,
    downloadStream, delete, exists, copy to another key and the size in the metadata, on
    keys of unreserved characters and slashes without a segment of dots, answer what
    the specification answers, failures by their code, and leave the objects it says; a
    range that is not empty and starts inside the object is that range.  Left out are
    uploadStream (which stores an empty object: uploadStream_stores_empty), the listing
    and the totals made from it. *)
Theorem s3_storage_refines c w :
  s3_call_ok c (objects w) -> (forall key data, objects w !! key = Some data -> in_size (size data)) ->
  agree (s3_perform c w).1 (spec_call c (objects w)).1 /\
  objects (s3_perform c w).2 = (spec_call c (objects w)).2.
Proof.
  intros Hc Hsize.
  destruct c as [key data overwrite|key offset length|key|key|source dest|key|key offset length| |]; cbn [s3_call_ok] in Hc; [..|done|done].
  - cbn [s3_perform]. unfold s3_upload. cbn [up_overwrite up_content_type up_metadata default from_option id spec_call].
    destruct overwrite; [destruct (objects w !! key); by apply put_agrees|].
    rewrite run_assoc. destruct (head_answered key w Hc) as (resp & w' & Hh & Hobjs & Hr).
    assert (forall {B} (k : Op W B), (s3_check_absent sha256 hmac_sha256 config key;; k) w =
      if is_success resp then (Err (conflict ("Blob already exists: " +:+ key)), w') else k w') as Hcheck.
    { intros B k. unfold mbind, Op_bind, s3_check_absent. rewrite Hh. by destruct (is_success resp). }
    rewrite Hcheck. destruct (objects w !! key) as [old|].
    + destruct Hr as [Hs _]. destruct (found_success _ Hs) as [-> _]. by split.
    + destruct (absent_failure _ Hr) as [-> _]. rewrite <- Hobjs. by apply put_agrees.
  - unfold s3_perform, s3_download. rewrite run_assoc. eapply answered_bind.
    { by apply (get_answered key (mkDownload offset length)); [apply Hc|]. }
    intros resp w' [Hobjs Hr]. rewrite run_assoc, run_succeeded. cbn [spec_call dl_offset dl_length] in *.
    destruct (objects w !! key) as [data|].
    + destruct Hr as [-> ->]. by split.
    + destruct (absent_failure _ Hr) as [-> _]. by split; [apply absent_code|].
  - unfold s3_perform, s3_delete. rewrite run_assoc. eapply answered_bind; [by apply head_answered|].
    intros resp w' [Hobjs Hr]. rewrite run_assoc, run_reject. cbn [spec_call]. destruct (objects w !! key) as [data|].
    + destruct Hr as [Hs _]. destruct (found_success _ Hs) as [_ ->]. rewrite run_assoc.
      eapply answered_bind; [by apply delete_answered|]. intros resp' w1 [Hs' Hobjs']. rewrite Hs'. rewrite <- Hobjs. by split.
    + destruct (absent_failure _ Hr) as [_ ->]. by split.
  - unfold s3_perform, s3_exists. rewrite run_assoc. eapply answered_bind; [by apply head_answered|].
    intros resp w' [Hobjs Hr]. cbn [spec_call]. destruct (objects w !! key) as [data|].
    + destruct Hr as [Hs _]. destruct (found_success _ Hs) as [-> _]. by split.
    + destruct (absent_failure _ Hr) as [-> ->]. by split.
  - destruct Hc as (Hsrc & Hdst & Hother). unfold s3_perform, s3_copy. rewrite run_assoc.
    eapply answered_bind; [by apply copy_answered|]. intros resp w' Hr. rewrite run_assoc, run_succeeded. cbn [spec_call].
    destruct (objects w !! source) as [data|] eqn:Hd.
    + destruct Hr as [Hs Hobjs]. destruct (found_success _ Hs) as [-> _].
      destruct (metadata_agrees dest w' Hdst) as [H1 H2].
      { rewrite Hobjs, lookup_insert_eq. intros ? [= <-]. by eapply Hsize. }
      cbn [spec_call] in H1. rewrite Hobjs, lookup_insert_eq in H1. split; [exact H1|]. by rewrite H2.
    + destruct Hr as [Hs Hobjs]. destruct (absent_failure _ Hs) as [-> _]. by split; [apply absent_code|].
  - cbn [s3_perform]. destruct (metadata_agrees key w Hc (Hsize key)) as [H1 H2]. split; [exact H1|].
    rewrite H2. cbn [spec_call]. by destruct (objects w !! key).
  - unfold s3_perform, s3_downloadStream, s3_download. rewrite !run_assoc. eapply answered_bind.
    { by apply (get_answered key (mkDownload offset length)); [apply Hc|]. }
    intros resp w' [Hobjs Hr]. rewrite !run_assoc, run_succeeded. cbn [spec_call dl_offset dl_length] in *.
    destruct (objects w !! key) as [data|].
    + destruct Hr as [-> ->]. by split.
    + destruct (absent_failure _ Hr) as [-> _]. by split; [apply absent_code|].
Qed.

(** A streamed upload stores an empty object, whatever the callback would deliver. *)
Lemma uploadStream_stores_empty key stream n w :
  key_ok key -> objects (s3_uploadStream sha256 hmac_sha256 config key stream n (mkUpload None ∅ true) w).2 = <[key := ""]> (objects w).
Proof.
  intros Hk. pose proof (proj2 (put_agrees key "" "application/octet-stream" w Hk)) as H.
  unfold s3_uploadStream, s3_upload. cbn [up_overwrite up_content_type up_metadata default from_option id].
  revert H. unfold mbind, Op_bind, mret, Op_ret. by destruct (s3_put _ _ _ _ _ _ _ w) as [[]].
Qed.
End Refinement.

(** ** A server in memory *)

Section DemoBucket.
Context (sha256 : string -> string) (hmac_sha256 : string -> string -> string) (config : S3Config).

Definition demo_range (text : string) : Z * option Z :=
  let text := string_drop 6 text in
  let from := default 0%Z (stoull text) in
  let rest := string_drop (S (String.length (to_string from))) text in
  (from, if is_empty rest then None else stoull rest).

Definition demo_send (method url : string) (headers : gmap string string) (body : string) (verify : bool)
    (w : gmap string string) : (string + HttpAnswer) * gmap string string :=
  let key := uri_decode (string_drop (S (String.length (buildBaseUrl config))) url) in
  let answer status text hs w := (inr (mkAnswer status text hs), w) in
  let absent := answer 404%Z "" ∅ w in
  if String.eqb method "HEAD" then
    match w !! key with
    | Some data => answer 200%Z "" {["Content-Length" := to_string (size data)]} w
    | None => absent
    end
  else if String.eqb method "PUT" then
    match headers !! "x-amz-copy-source" with
    | Some text =>
        match w !! uri_decode (string_drop (S (S (String.length (s3_bucket config)))) text) with
        | Some data => answer 200%Z "" ∅ (<[key := data]> w)
        | None => absent
        end
    | None => answer 200%Z "" ∅ (<[key := body]> w)
    end
  else if String.eqb method "DELETE" then answer 204%Z "" ∅ (delete key w)
  else
    match w !! key, headers !! "range" with
    | None, _ => absent
    | Some data, None => answer 200%Z data ∅ w
    | Some data, Some text =>
        let '(from, to) := demo_range text in
        if (from <? size data)%Z then answer 206%Z (bytes_of data from to) ∅ w else answer 416%Z "" ∅ w
    end.
#[local] Instance demo_http : S3Http (gmap string string) := { http_clock := fun _ => 784111777000000000%Z; http_send := demo_send }.

Lemma object_url_key key : uri_decode (string_drop (S (String.length (buildBaseUrl config))) (object_url config key)) = key.
Proof. unfold object_url. change ("/" +:+ ?x) with (String "/" x). by rewrite string_drop_app_S, uri_decode_encode. Qed.

Lemma signed_headers_lookup now method key sent body k :
  k <> "Authorization" -> k <> "x-amz-date" -> k <> "x-amz-content-sha256" ->
  signed_headers sha256 hmac_sha256 config now method key ∅ sent body !! k = sent !! k.
Proof. intros H1 H2 H3. unfold signed_headers, sign_request_v4, all_headers. cbn. by rewrite !lookup_insert_ne. Qed.

Lemma demo_range_back from to :
  in_size from -> (forall z, to = Some z -> in_size z /\ (from <= z)%Z) -> demo_range (bytes_text from to) = (from, to).
Proof.
  intros Hf Ht. unfold demo_range, bytes_text. change 6 with (String.length "bytes="). rewrite string_drop_app.
  rewrite stoull_to_string by done. cbn [default from_option id].
  change ("-" +:+ ?x) with (String "-" x). rewrite string_drop_app_S.
  destruct to as [z|]; [|done]. destruct (Ht z eq_refl) as [Hz _]. destruct (to_string_size z Hz) as [Hne ->].
  by rewrite (proj2 (is_empty_false _) Hne).
Qed.

#[local] Instance demo_bucket : Bucket demo_http sha256 hmac_sha256 config id.
Proof.
  split; intros; cbn [http_send demo_http id]; unfold demo_send; rewrite object_url_key; cbn [String.eqb Ascii.eqb Bool.eqb].
  - destruct (w !! key) as [data|]; eexists _, _; (split; [reflexivity|]); by repeat split.
  - rewrite signed_headers_lookup, H0 by done. eexists _, _. by split.
  - rewrite signed_headers_lookup, H1 by done.
    assert (string_drop (S (S (String.length (s3_bucket config)))) ("/" +:+ (s3_bucket config +:+ ("/" +:+ uri_encode source false))) =
      uri_encode source false) as -> by apply string_drop_app_S. rewrite uri_decode_encode.
    destruct (w !! source); eexists _, _; by split.
  - rewrite signed_headers_lookup, H0 by done.
    destruct (w !! key) as [data|]; eexists _, _; (split; [reflexivity|]); by repeat split.
  - rewrite signed_headers_lookup, H0, demo_range_back by done.
    destruct (w !! key) as [data|]; [destruct (from <? size data)%Z|]; eexists _, _; (split; [reflexivity|]); by repeat split.
  - eexists _, _. by split.
Qed.
End DemoBucket.

Definition local_config : S3Config := mkS3Config "http://localhost:9000" "media" "us-east-1" "ak" "sk" true false.
Definition no_time (format text : string) : option Z := None.
Definition two_objects : gmap string string := {["acme/logo" := "0123456789"; "acme/old" := "x"]}.

Lemma s3_storage_refines_witness :
  s3_call_ok (Download "acme/logo" (Some 2%Z) (Some 3%Z)) two_objects /\
  exists w, s3_perform (http := demo_http local_config) same_text weak_hmac no_time local_config 1
      (Download "acme/logo" (Some 2%Z) (Some 3%Z)) two_objects = (Ok (Bytes "234"), w) /\ w = two_objects.
Proof.
  assert (s3_call_ok (Download "acme/logo" (Some 2%Z) (Some 3%Z)) two_objects) as Hc.
  { split; [by repeat split|]. split; [by vm_compute|]. split.
    - intros l [= <-]. vm_compute. by split.
    - intros data Hd. vm_compute in Hd. injection Hd as <-. intros _. by vm_compute. }
  split; [exact Hc|].
  destruct (s3_storage_refines (http := demo_http local_config) same_text weak_hmac no_time local_config id 1
    (Bucket0 := demo_bucket same_text weak_hmac local_config) _ two_objects Hc) as [H1 H2].
  { intros key data Hd%elem_of_map_to_list. vm_compute in Hd.
    repeat (apply elem_of_cons in Hd as [[= _ ->]|Hd]; [by vm_compute|]). by apply elem_of_nil in Hd. }
  destruct (s3_perform _ _ _ _ _ _ two_objects) as [[a|e|x|] w] eqn:Hrun; [|vm_compute in H1; contradiction..].
  exists w. split; [|exact H2]. f_equal. vm_compute in H1. by rewrite H1.
Defined.

(** ** Listings *)

(** [needle] begins nowhere in [t], whatever follows [t]. *)
Fixpoint mismatch (needle t : string) : bool :=
  match needle, t with String a n, String b t => negb (Ascii.eqb a b) || mismatch n t | _, _ => false end.
Fixpoint avoids (needle t : string) : bool :=
  match t with EmptyString => true | String _ t' => mismatch needle t && avoids needle t' end.

Lemma mismatch_app needle t u : mismatch needle t = true -> mismatch needle (t +:+ u) = true.
Proof.
  revert t. induction needle as [|a n IH]; intros [|b t]; try done. rewrite string_app_cons. cbn.
  destruct (Ascii.eqb a b); [apply IH|done].
Qed.
Lemma mismatch_prefix needle t : mismatch needle t = true -> String.prefix needle t = false.
Proof.
  revert t. induction needle as [|a n IH]; intros [|b t]; try done. cbn.
  destruct (ascii_dec a b) as [->|Hne]; [|done]. rewrite Ascii.eqb_refl. apply IH.
Qed.
Lemma avoids_app needle t u : avoids needle t = true -> avoids needle u = true -> avoids needle (t +:+ u) = true.
Proof.
  intros Ht Hu. induction t as [|c t IH]; [done|]. cbn in Ht. apply andb_true_iff in Ht as [H1 H2].
  rewrite string_app_cons. cbn [avoids]. rewrite <- string_app_cons, mismatch_app by done. by apply IH.
Qed.
Lemma avoids_lacks c needle t : lacks c t -> avoids (String c needle) t = true.
Proof.
  induction t as [|d t IH]; [done|]. intros [Hd Ht]%lacks_cons. cbn. rewrite IH by done.
  by rewrite (proj2 (Ascii.eqb_neq c d) Hd).
Qed.
Lemma avoids_index needle t u :
  needle <> "" -> avoids needle t = true ->
  String.index 0 needle (t +:+ u) = (fun n => String.length t + n) <$> String.index 0 needle u.
Proof.
  intros Hne Ht. induction t as [|c t IH]; [rewrite string_app_nil_l; by destruct (String.index 0 needle u)|].
  cbn [avoids] in Ht. apply andb_true_iff in Ht as [Hm Ht]. rewrite string_app_cons. cbn [String.index].
  rewrite <- string_app_cons, (mismatch_prefix _ _ (mismatch_app _ _ u Hm)), IH by done.
  by destruct (String.index 0 needle u).
Qed.
Lemma index_here needle u : String.index 0 needle (needle +:+ u) = Some 0.
Proof.
  assert (forall n, String.prefix n (n +:+ u) = true) as Hp.
  { induction n as [|c n IH]; [by destruct u|]. rewrite string_app_cons. cbn. by destruct (ascii_dec c c). }
  destruct needle as [|c n]; [by destruct u|]. specialize (Hp (String c n)). rewrite string_app_cons in *.
  cbn [String.index]. by rewrite Hp.
Qed.

Definition element (tag text : string) : string := ("<" +:+ (tag +:+ ">")) +:+ (text +:+ ("</" +:+ (tag +:+ ">"))).

Lemma tagged_element before tag text rest :
  avoids ("<" +:+ (tag +:+ ">")) before = true -> avoids ("</" +:+ (tag +:+ ">")) text = true ->
  tagged (before +:+ (element tag text +:+ rest)) tag = Some (text, rest).
Proof.
  intros Hb Ht. unfold tagged, element.
  set (o := "<" +:+ (tag +:+ ">")) in *. set (c := "</" +:+ (tag +:+ ">")) in *.
  rewrite avoids_index by done. rewrite <- string_app_assoc, index_here. cbn [fmap option_fmap option_map mbind option_bind].
  assert (string_drop (String.length before + 0 + String.length o) (before +:+ (o +:+ ((text +:+ c) +:+ rest))) =
    text +:+ (c +:+ rest)) as ->.
  { rewrite Nat.add_0_r, <- string_length_app, string_app_assoc, string_drop_app. by rewrite string_app_assoc. }
  rewrite avoids_index by done. rewrite index_here. cbn [fmap option_fmap option_map mbind option_bind].
  rewrite Nat.add_0_r, string_take_app, <- string_length_app, string_app_assoc, string_drop_app. done.
Qed.
Lemma tagged_none xml tag : avoids ("<" +:+ (tag +:+ ">")) xml = true -> tagged xml tag = None.
Proof.
  intros H. unfold tagged. rewrite <- (string_app_nil_r xml), avoids_index by done. by destruct tag.
Qed.

(** An object of a listing as the service writes it. *)
Record Listed := mkListed { ls_key : string; ls_date : string; ls_etag : string; ls_size : Z }.
Definition listed_fields (o : Listed) : string :=
  element "Key" (ls_key o) +:+ (element "LastModified" (ls_date o) +:+ (element "ETag" (ls_etag o) +:+
    element "Size" (to_string (ls_size o)))).
Fixpoint listed_xml (os : list Listed) : string :=
  match os with [] => "" | o :: os => element "Contents" (listed_fields o) +:+ listed_xml os end.
Definition listing_xml (truncated : bool) (next : option string) (os : list Listed) : string :=
  element "IsTruncated" (if truncated then "true" else "false") +:+
  ((match next with Some t => element "NextContinuationToken" t | None => "" end) +:+
   (listed_xml os +:+ "</ListBucketResult>")).

(** Texts that need no escaping, and a size that is one. *)
Definition listed_ok (o : Listed) : Prop :=
  lacks "<" (ls_key o) /\ lacks "<" (ls_date o) /\ lacks "<" (ls_etag o) /\ in_size (ls_size o).

(** Everything but one element is passed over. *)
Ltac passed_over :=
  repeat first [done | by apply avoids_lacks | by apply avoids_lacks, to_string_lacks | apply avoids_app].

Lemma listed_fields_avoid needle o :
  listed_ok o -> (needle = "</Contents>" \/ needle = "<Contents>" \/ needle = "<IsTruncated>" \/ needle = "<NextContinuationToken>") ->
  avoids needle (listed_fields o) = true.
Proof.
  intros (Hk & Hd & He & _) Hn. unfold listed_fields, element.
  destruct Hn as [->|[->|[->| ->]]]; passed_over.
Qed.
Lemma listed_object_back get_time o :
  listed_ok o ->
  listed_object get_time (listed_fields o) =
    Ok (mkBlobMeta (ls_key o) (ls_size o) "application/octet-stream" (ls_etag o) (parse_http_date get_time (ls_date o)) ∅).
Proof.
  intros Ho. pose proof Ho as (Hk & Hd & He & Hs). unfold listed_object, xml_extract.
  assert (tagged (listed_fields o) "Size" = Some (to_string (ls_size o), "")) as ->.
  { unfold listed_fields. rewrite <- (string_app_nil_r (element "Size" _)), !string_app_assoc, <- string_app_assoc.
    apply tagged_element; unfold element; passed_over. }
  assert (tagged (listed_fields o) "Key" = Some (ls_key o, element "LastModified" (ls_date o) +:+ (element "ETag" (ls_etag o) +:+
    element "Size" (to_string (ls_size o))))) as ->.
  { unfold listed_fields. apply (tagged_element ""); passed_over. }
  assert (tagged (listed_fields o) "LastModified" = Some (ls_date o, element "ETag" (ls_etag o) +:+
    element "Size" (to_string (ls_size o)))) as ->.
  { unfold listed_fields. apply tagged_element; unfold element; passed_over. }
  assert (tagged (listed_fields o) "ETag" = Some (ls_etag o, element "Size" (to_string (ls_size o)))) as ->.
  { unfold listed_fields. rewrite string_app_assoc. apply tagged_element; unfold element; passed_over. }
  destruct (to_string_size _ Hs) as [Hne Hst]. unfold read_size. by rewrite (proj2 (is_empty_false _) Hne), Hst.
Qed.

Lemma element_length tag text : String.length text < String.length (element tag text).
Proof. unfold element. rewrite !string_length_app. cbn. lia. Qed.
Lemma xml_loop_back os after : Forall listed_ok os -> avoids "<Contents>" after = true ->
  forall fuel, length os < fuel -> xml_loop fuel (listed_xml os +:+ after) "Contents" = listed_fields <$> os.
Proof.
  intros Hos Ha. induction Hos as [|o os Ho Hos IH]; intros [|fuel] Hfuel; cbn [length] in Hfuel; try lia; cbn [xml_loop listed_xml].
  - rewrite string_app_nil_l, tagged_none by done. done.
  - rewrite <- string_app_assoc, <- (string_app_nil_l (element "Contents" _ +:+ _)), tagged_element;
      [|done|by apply listed_fields_avoid; auto]. cbn [fmap list_fmap]. f_equal. apply IH. lia.
Qed.
Lemma tagged_skip before xml tag :
  avoids ("<" +:+ (tag +:+ ">")) before = true -> tagged (before +:+ xml) tag = tagged xml tag.
Proof.
  intros H. unfold tagged. rewrite avoids_index by done. destruct (String.index 0 _ xml) as [start|]; [|done].
  cbn [fmap option_fmap option_map mbind option_bind].
  assert (string_drop (String.length before + start + String.length ("<" +:+ (tag +:+ ">"))) (before +:+ xml) =
    string_drop (start + String.length ("<" +:+ (tag +:+ ">"))) xml) as ->; [|done].
  generalize (String.length ("<" +:+ (tag +:+ ">"))). clear. intros n. rewrite <- Nat.add_assoc.
  induction before as [|c b IH]; [done|]. apply IH.
Qed.

(** A listing is read back.  Of a page of objects, written as the service
    writes it with keys, dates and tags that need no escaping, [s3_list] makes
    exactly those objects in order, whether there are more, and the token that asks
    for them. *)
Theorem listing_read_back get_time truncated next os :
  Forall listed_ok os -> (forall t, next = Some t -> t <> "" /\ lacks "<" t) ->
  read_listing get_time (listing_xml truncated next os) =
    Ok (mkBlobList ((fun o => mkBlobMeta (ls_key o) (ls_size o) "application/octet-stream" (ls_etag o)
                      (parse_http_date get_time (ls_date o)) ∅) <$> os) next truncated).
Proof.
  intros Hos Hnext. unfold read_listing.
  set (first := element "IsTruncated" (if truncated then "true" else "false")).
  set (token := match next with Some t => element "NextContinuationToken" t | None => "" end).
  set (after := "</ListBucketResult>").
  assert (listing_xml truncated next os = first +:+ (token +:+ (listed_xml os +:+ after))) as -> by done.
  assert (forall needle, needle = "<Contents>" \/ needle = "<NextContinuationToken>" -> avoids needle first = true) as Hfirst.
  { intros needle [-> | ->]; unfold first; by destruct truncated. }
  assert (avoids "<Contents>" token = true) as Htoken.
  { unfold token. destruct next as [t|]; [|done]. destruct (Hnext t eq_refl). unfold element. passed_over. }
  assert (avoids "<NextContinuationToken>" (listed_xml os +:+ after) = true) as Hxml.
  { apply avoids_app; [|done]. clear -Hos. induction Hos as [|o os Ho Hos IH]; [done|]. cbn [listed_xml].
    assert (avoids "<NextContinuationToken>" (listed_fields o) = true) by (apply listed_fields_avoid; auto).
    apply avoids_app; [|done]. unfold element. passed_over. }
  assert (xml_extract_elements (first +:+ (token +:+ (listed_xml os +:+ after))) "Contents" = listed_fields <$> os) as ->.
  { unfold xml_extract_elements. cbn [xml_loop]. rewrite !tagged_skip by auto.
    rewrite <- (xml_loop_back os after Hos eq_refl (S (String.length (first +:+ (token +:+ (listed_xml os +:+ after)))))).
    - reflexivity.
    - clear. assert (length os <= String.length (listed_xml os)); [|rewrite !string_length_app; lia].
      induction os as [|o os IH]; [done|]. cbn [listed_xml length]. rewrite string_length_app.
      pose proof (element_length "Contents" (listed_fields o)). lia. }
  assert (mapM (listed_object get_time) (listed_fields <$> os) = Ok ((fun o => mkBlobMeta (ls_key o) (ls_size o)
    "application/octet-stream" (ls_etag o) (parse_http_date get_time (ls_date o)) ∅) <$> os)) as ->.
  { clear -Hos. induction Hos as [|o os Ho Hos IH]; [done|]. cbn. by rewrite listed_object_back, IH. }
  cbn [mbind Result_bind]. f_equal.
  assert (xml_extract (first +:+ (token +:+ (listed_xml os +:+ after))) "NextContinuationToken" = default "" next) as ->.
  { unfold xml_extract. rewrite tagged_skip by auto. unfold token. destruct next as [t|].
    - destruct (Hnext t eq_refl). rewrite <- (string_app_nil_l (element _ _ +:+ _)), tagged_element; [done..|passed_over].
    - by rewrite string_app_nil_l, tagged_none. }
  assert (xml_extract (first +:+ (token +:+ (listed_xml os +:+ after))) "IsTruncated" = if truncated then "true" else "false") as ->.
  { unfold xml_extract. rewrite <- (string_app_nil_l (first +:+ _)). unfold first. rewrite tagged_element; by destruct truncated. }
  destruct next as [t|]; cbn [default from_option id].
  - destruct (Hnext t eq_refl) as [Hne _]. rewrite (proj2 (is_empty_false _) Hne). by destruct truncated.
  - by destruct truncated.
Qed.

(** ** Totals *)

Section Totals.
Context {W : Type} {http : S3Http W} (sha256 : string -> string) (hmac_sha256 : string -> string -> string)
  (get_time : string -> string -> option Z) (config : S3Config).
Abbreviation listing := (s3_list sha256 hmac_sha256 get_time config).

(** The pages a bucket is listed in, each asked for with the token of the one before. *)
Inductive pages : option string -> W -> list BlobListResult -> W -> Prop :=
  | pages_last token w page w' :
      listing (mkBlobListOptions None token 1000) w = (Ok page, w') ->
      bl_is_truncated page = false \/ bl_next_token page = None -> pages token w [page] w'
  | pages_more token w page w' next rest w'' :
      listing (mkBlobListOptions None token 1000) w = (Ok page, w') ->
      bl_is_truncated page = true -> bl_next_token page = Some next -> pages (Some next) w' rest w'' ->
      pages token w (page :: rest) w''.

Lemma gather_pages_all gather token w ps w' fuel total :
  pages token w ps w' -> length ps <= fuel ->
  gather_pages sha256 hmac_sha256 get_time config fuel gather total token w = (Ok (foldl gather total ps), w').
Proof.
  intros Hp. revert fuel total. induction Hp as [token w page w' Hl Hend|token w page w' next rest w'' Hl Ht Hn Hp IH];
    intros [|fuel] total Hfuel; cbn [length] in Hfuel; try lia; cbn [gather_pages]; rewrite (run_bind_ok _ _ _ _ _ Hl).
  - by destruct Hend as [-> | ->]; [|destruct (bl_is_truncated page)].
  - rewrite Ht, Hn. apply IH. lia.
Qed.

Definition all_items (ps : list BlobListResult) : list BlobMetadata := ps ≫= bl_items.

Lemma fold_sizes total (items : list BlobMetadata) :
  (0 <= total < 2 ^ 64)%Z ->
  foldl (fun total item => (total + bm_size item) mod 2 ^ 64)%Z total items =
    ((total + foldr (fun item n => bm_size item + n) 0 items) mod 2 ^ 64)%Z.
Proof.
  revert total. induction items as [|i items IH]; intros total Ht; cbn [foldl foldr].
  - rewrite Z.add_0_r. by rewrite Z.mod_small.
  - rewrite IH by (apply Z.mod_pos_bound; done). rewrite Zplus_mod_idemp_l. f_equal. lia.
Qed.

(** The statistics end, and count every object.  When the bucket is listed in
    finitely many pages, walking as many pages answers the number of the objects of
    all the pages and the sum of their sizes, as values of [size_t]; more fuel
    changes nothing. *)
Theorem totals_all_pages w ps w' fuel :
  pages None w ps w' -> length ps <= fuel ->
  s3_total_size sha256 hmac_sha256 get_time config fuel w =
    (Ok (foldr (fun item n => bm_size item + n)%Z 0%Z (all_items ps) mod 2 ^ 64)%Z, w') /\
  s3_object_count sha256 hmac_sha256 get_time config fuel w =
    (Ok (Z.of_nat (length (all_items ps)) mod 2 ^ 64)%Z, w').
Proof.
  intros Hp Hfuel. unfold s3_total_size, s3_object_count. rewrite !(gather_pages_all _ None w ps w' fuel) by done.
  split; do 2 f_equal.
  - assert (forall total, (0 <= total < 2 ^ 64)%Z -> foldl sizes total ps =
      ((total + foldr (fun item n => bm_size item + n) 0 (all_items ps)) mod 2 ^ 64)%Z) as H; [|by rewrite H].
    clear. induction ps as [|p ps IH]; intros total Ht.
    { cbn. rewrite Z.add_0_r. by rewrite Z.mod_small. }
    cbn [foldl]. unfold sizes at 2. rewrite <- fold_sizes by done. rewrite IH.
    2: { rewrite fold_sizes by done. by apply Z.mod_pos_bound. }
    unfold all_items. cbn [mbind list_bind]. rewrite <- (fold_sizes (foldl _ _ _)).
    2: { rewrite fold_sizes by done. by apply Z.mod_pos_bound. }
    by rewrite <- foldl_app.
  - assert (forall total, (0 <= total < 2 ^ 64)%Z -> foldl counts total ps =
      ((total + Z.of_nat (length (all_items ps))) mod 2 ^ 64)%Z) as H; [|by rewrite H].
    clear. induction ps as [|p ps IH]; intros total Ht.
    { cbn. rewrite Z.add_0_r. by rewrite Z.mod_small. }
    cbn [foldl]. unfold counts at 2. rewrite IH by (by apply Z.mod_pos_bound). rewrite Zplus_mod_idemp_l.
    unfold all_items. cbn [mbind list_bind]. rewrite length_app. f_equal. lia.
Qed.
End Totals.

(** A bucket of two objects, listed in two pages. *)
Definition listed_logo : Listed := mkListed "acme/logo" "2024-01-01T00:00:00" "e1" 10.
Definition listed_old : Listed := mkListed "acme/old" "2024-01-02T00:00:00" "e2" 1.
Definition two_pages : S3Http nat := {|
  http_clock := fun _ => 784111777000000000%Z;
  http_send := fun _ _ _ _ _ w =>
    (inr (mkAnswer 200%Z (match w with 0 => listing_xml true (Some "t2") [listed_logo] | _ => listing_xml false None [listed_old] end) ∅),
     S w);
|}.

Lemma listing_read_back_witness :
  Forall listed_ok [listed_logo] /\
  exists page, read_listing no_time (listing_xml true (Some "t2") [listed_logo]) = Ok page /\ bm_key <$> bl_items page = ["acme/logo"].
Proof.
  assert (Forall listed_ok [listed_logo]) as Hos by (repeat constructor; by vm_compute).
  split; [exact Hos|]. eexists. split; [apply (listing_read_back no_time true (Some "t2") [listed_logo]); [exact Hos|]|reflexivity].
  intros t [= <-]. by split.
Defined.

Lemma totals_all_pages_witness :
  s3_total_size (S3Http0 := two_pages) same_text weak_hmac no_time local_config 2 0 = (Ok 11%Z, 2) /\
  s3_object_count (S3Http0 := two_pages) same_text weak_hmac no_time local_config 2 0 = (Ok 2%Z, 2).
Proof.
  assert (exists p1 p2, pages (http := two_pages) same_text weak_hmac no_time local_config None 0 [p1; p2] 2 /\
    length (all_items [p1; p2]) = 2 /\ foldr (fun item n => bm_size item + n)%Z 0%Z (all_items [p1; p2]) = 11%Z)
    as (p1 & p2 & Hp & Hl & Hs).
  { eexists _, _. split.
    - eapply pages_more; [vm_compute; reflexivity|reflexivity|reflexivity|].
      eapply pages_last; [vm_compute; reflexivity|by left].
    - by split. }
  destruct (totals_all_pages (http := two_pages) same_text weak_hmac no_time local_config 0 [p1; p2] 2 2 Hp) as [H1 H2]; [done|].
  rewrite Hs in H1. rewrite Hl in H2. by split.
Defined.

(** ** Limits of the operations *)

(** A range of no bytes asks for the whole object: the last byte wraps around. *)
Lemma empty_range_is_everything :
  range_header (mkDownload None (Some 0%Z)) = {["range" := "bytes=0-18446744073709551615"]}.
Proof. vm_compute. reflexivity. Qed.

(** A key with a space is signed as one path and requested as another. *)
Lemma key_with_space :
  request_url local_config "a b" ∅ = "http://localhost:9000/media/a b" /\
  canonical_uri (object_path local_config "a b") = "/media/a%20b".
Proof. by vm_compute. Qed.

(** A lifetime is cut to an [int] before it is checked. *)
Lemma lifetime_wraps {W} (http : S3Http W) sha hmac config w :
  exists url, s3_presigned_url sha hmac config "k" (2 ^ 32 + 60)%Z w = (Ok url, w).
Proof. eexists. reflexivity. Qed.
Lemma lifetime_refused {W} (http : S3Http W) sha hmac config key n w :
  (- 2 ^ 31 <= n < 2 ^ 31)%Z ->
  isOk (s3_presigned_url sha hmac config key n w).1 = true <-> key <> "" /\ (1 <= n <= 604800)%Z.
Proof.
  intros Hn. unfold s3_presigned_url. assert (cast_int n = n) as -> by (unfold cast_int; rewrite Z.mod_small; lia).
  destruct (is_empty key) eqn:Hk.
  - apply is_empty_true in Hk. cbn. split; [done|by intros [? _]].
  - apply is_empty_false in Hk. destruct (Z.leb_spec n 0), (Z.ltb_spec 604800 n); cbn; (split; [intros ?; (done || by split; [done|lia])|intros [? ?]; (done || lia)]).
Qed.

(** The names of metadata come back in lower case, and two that differ in case
    only are one. *)
Lemma metadata_names_lowered :
  lowered (upload_headers "text/plain" {["Author" := "a"; "author" := "b"]}) ∅ =
    {["content-type" := "text/plain"; "x-amz-meta-author" := "b"]}.
Proof. vm_compute. reflexivity. Qed.

(** Names in a listing are not unescaped. *)
Lemma escaped_key_stays :
  xml_extract "<Key>a&amp;b</Key>" "Key" = "a&amp;b".
Proof. reflexivity. Qed.
