(* ===== verification/SqlWhere.v ===== *)
(** * WHERE clauses

    Models src/adapters/sql/sql_where_builder.hpp: the conditions of a listing as
    a parameterised WHERE clause, ORDER BY, GROUP BY and aggregate lists.  The
    clause is read back with the grammar of SQL's boolean expressions: it means
    the conjunction of the conditions and of the groups, its placeholders are
    numbered in order, one for each bound value. *)

From S2P Require Import Prelude CxxString CxxStd Store AccessControl EntityRoutes.

Open Scope string_scope.

(** ** The builder *)

Record SqlParam := mkParam { sp_name : string; sp_value : string }.

(** The parameters bound so far and the index of the next one. *)
Abbreviation Build := (Op (list SqlParam * Z)).

Definition dquote : string := String "034" "".
Definition quoted_in (q name : string) : string := q +:+ (name +:+ q).

Definition quoteId (name dialect : string) : string :=
  if String.eqb dialect "mysql" || String.eqb dialect "mariadb" then quoted_in "`" name else quoted_in dquote name.

Definition validateField (field : string) (valid_fields : gset string) : Build unit :=
  if bool_decide (field ∈ valid_fields) then mret tt else throw (bad_argument ("Unknown field: " +:+ field)).

Definition is_postgres (dialect : string) : bool := String.eqb dialect "postgresql" || String.eqb dialect "postgres".
Definition ph (index : Z) (dialect : string) : string :=
  if is_postgres dialect then "$" +:+ to_string index else "?".

Fixpoint sql_join (sep : string) (parts : list string) : string :=
  match parts with
  | [] => ""
  | [x] => x
  | x :: rest => x +:+ (sep +:+ sql_join sep rest)
  end.

(** [params.push_back({field, value})] and [ph(param_index++, dialect)] *)
Definition bind_value (dialect field value : string) : Build string := fun '(params, index) =>
  (Ok (ph index dialect), ((params ++ [mkParam field value])%list, (index + 1)%Z)).

Definition comparison (dialect : string) (cond : FilterCondition) (op : string) : Build string :=
  p ← bind_value dialect (fc_field cond) (fc_value cond);
  mret (quoteId (fc_field cond) dialect +:+ (op +:+ p)).

Definition buildCondition (dialect : string) (cond : FilterCondition) : Build string :=
  let col := quoteId (fc_field cond) dialect in
  match fc_op cond with
  | Eq => comparison dialect cond " = "
  | Ne => comparison dialect cond " <> "
  | Lt => comparison dialect cond " < "
  | Lte => comparison dialect cond " <= "
  | Gt => comparison dialect cond " > "
  | Gte => comparison dialect cond " >= "
  | Like => comparison dialect cond " LIKE "
  | ILike =>
      if is_postgres dialect then comparison dialect cond " ILIKE "
      else p ← bind_value dialect (fc_field cond) (fc_value cond);
           mret ("LOWER(" +:+ (col +:+ (") LIKE LOWER(" +:+ (p +:+ ")"))))
  | IsNull => mret (col +:+ " IS NULL")
  | IsNotNull => mret (col +:+ " IS NOT NULL")
  | (In | NotIn) as op =>
      match fc_values cond with
      | [] => mret "1=0"
      | values =>
          placeholders ← mapM (bind_value dialect (fc_field cond)) values;
          mret (col +:+ ((match op with In => " IN (" | _ => " NOT IN (" end) +:+ (sql_join ", " placeholders +:+ ")")))
      end
  | Between =>
      match fc_values cond with
      | v0 :: v1 :: _ =>
          lo ← bind_value dialect (fc_field cond) v0;
          hi ← bind_value dialect (fc_field cond) v1;
          mret (col +:+ (" BETWEEN " +:+ (lo +:+ (" AND " +:+ hi))))
      | _ => mret "1=1"
      end
  end.

Definition checked_condition (valid : gset string) (dialect : string) (cond : FilterCondition) : Build string :=
  validateField (fc_field cond) valid;; buildCondition dialect cond.

Definition legacy_fragment (valid : gset string) (dialect : string) (kv : string * string) : Build string :=
  validateField kv.1 valid;;
  p ← bind_value dialect kv.1 kv.2;
  mret (quoteId kv.1 dialect +:+ (" = " +:+ p)).

Definition group_fragment (valid : gset string) (dialect : string) (group : FilterGroup) : Build (option string) :=
  match fg_conditions group with
  | [] => mret None
  | conditions =>
      or_parts ← mapM (checked_condition valid dialect) conditions;
      mret (Some (match or_parts with
                  | [part] => part
                  | _ => "(" +:+ (sql_join " OR " or_parts +:+ ")")
                  end))
  end.

(** [SqlWhereBuilder::build] *)
Definition build_where (conditions : list FilterCondition) (filter_groups : list FilterGroup)
    (legacy_filter : gmap string string) (valid : gset string) (dialect : string) : Build string :=
  legacy ← mapM (legacy_fragment valid dialect) (map_items legacy_filter);
  typed ← mapM (checked_condition valid dialect) conditions;
  groups ← mapM (group_fragment valid dialect) filter_groups;
  let root_fragments := (legacy ++ typed ++ omap id groups)%list in
  mret (match root_fragments with [] => "" | _ => "WHERE " +:+ sql_join " AND " root_fragments end).

Definition buildOrderBy (sort : gmap string string) (valid : gset string) (default_field dialect : string) :
    Build string :=
  if bool_decide (sort = ∅) then mret ("ORDER BY " +:+ (quoteId default_field dialect +:+ " DESC"))
  else
    parts ← mapM (fun kv =>
      validateField kv.1 valid;;
      mret (quoteId kv.1 dialect +:+
        (if String.eqb kv.2 "asc" || String.eqb kv.2 "ASC" then " ASC" else " DESC"))) (map_items sort);
    mret ("ORDER BY " +:+ sql_join ", " parts).

Definition aggFuncName (func : AggFunc) : string :=
  match func with Count => "COUNT" | Sum => "SUM" | Avg => "AVG" | Min => "MIN" | Max => "MAX" end.

Definition buildAggregateSelect (aggregates : list AggregateSpec) (group_by_fields : list string)
    (valid : gset string) (dialect : string) : Build string :=
  functions ← mapM (fun agg =>
    (if String.eqb (ag_field agg) "*" then mret tt else validateField (ag_field agg) valid);;
    let col := if String.eqb (ag_field agg) "*" then "*" else quoteId (ag_field agg) dialect in
    mret (aggFuncName (ag_func agg) +:+ ("(" +:+ (col +:+ (") AS " +:+ quoteId (ag_alias agg) dialect))))) aggregates;
  columns ← mapM (fun gb => validateField gb valid;; mret (quoteId gb dialect)) group_by_fields;
  mret (sql_join ", " (functions ++ columns)).

Definition buildGroupBy (group_by_fields : list string) (valid : gset string) (dialect : string) : Build string :=
  match group_by_fields with
  | [] => mret ""
  | _ =>
      parts ← mapM (fun field => validateField field valid;; mret (quoteId field dialect)) group_by_fields;
      mret ("GROUP BY " +:+ sql_join ", " parts)
  end.

Definition nobody : gset string := {["tenantId"; "age"; "name"]}.
Example where_example :
  build_where [mkCondition "age" Between "" ["1"; "5"]]
    [mkGroup [mkCondition "name" Eq "a" []; mkCondition "name" Like "b" []]] {["tenantId" := "t"]} nobody
    "postgresql" ([], 1%Z) =
  (Ok ("WHERE " +:+ (quoteId "tenantId" "" +:+ (" = $1 AND " +:+ (quoteId "age" "" +:+ (" BETWEEN $2 AND $3 AND (" +:+
      (quoteId "name" "" +:+ (" = $4 OR " +:+ (quoteId "name" "" +:+ " LIKE $5)")))))))),
   ([mkParam "tenantId" "t"; mkParam "age" "1"; mkParam "age" "5"; mkParam "name" "a"; mkParam "name" "b"], 6%Z)).
Proof. vm_compute. reflexivity. Qed.

(** ** What a clause says

    The leaves of a clause are conditions with the placeholders of their values. *)

(** The values a condition binds. *)
Definition bound (c : FilterCondition) : list string :=
  match fc_op c with
  | IsNull | IsNotNull => []
  | In | NotIn => fc_values c
  | Between => match fc_values c with v0 :: v1 :: _ => [v0; v1] | _ => [] end
  | _ => [fc_value c]
  end.
(** Conditions whose list of values is too short are constants. *)
Definition constant (c : FilterCondition) : option bool :=
  match fc_op c, fc_values c with
  | (In | NotIn), [] => Some false
  | Between, ([] | [_]) => Some true
  | _, _ => None
  end.
Definition infix (op : FilterOp) : string :=
  match op with
  | Eq => " = " | Ne => " <> " | Lt => " < " | Lte => " <= " | Gt => " > " | Gte => " >= "
  | Like => " LIKE " | _ => " ILIKE "
  end.
Definition leaf_text (dialect : string) (c : FilterCondition) (holes : list string) : string :=
  let col := quoteId (fc_field c) dialect in
  match constant c with
  | Some true => "1=1"
  | Some false => "1=0"
  | None =>
      match fc_op c with
      | IsNull => col +:+ " IS NULL"
      | IsNotNull => col +:+ " IS NOT NULL"
      | In => col +:+ (" IN (" +:+ (sql_join ", " holes +:+ ")"))
      | NotIn => col +:+ (" NOT IN (" +:+ (sql_join ", " holes +:+ ")"))
      | Between => col +:+ (" BETWEEN " +:+ sql_join " AND " holes)
      | ILike =>
          if is_postgres dialect then col +:+ (" ILIKE " +:+ sql_join "" holes)
          else "LOWER(" +:+ (col +:+ (") LIKE LOWER(" +:+ (sql_join "" holes +:+ ")")))
      | op => col +:+ (infix op +:+ sql_join "" holes)
      end
  end.

(** The tokens of a clause and its grammar: AND binds tighter than OR. *)
Inductive tok := TAtom (c : FilterCondition) (from : Z) | TAnd | TOr | TOpen | TClose.
Definition tok_holes (t : tok) : list Z :=
  match t with TAtom c from => seqZ from (Z.of_nat (length (bound c))) | _ => [] end.
Definition tok_text (dialect : string) (t : tok) : string :=
  match t with
  | TAtom c _ => leaf_text dialect c ((fun k => ph k dialect) <$> tok_holes t)
  | TAnd => " AND " | TOr => " OR " | TOpen => "(" | TClose => ")"
  end.
Definition toks_text (dialect : string) (l : list tok) : string := foldr (fun t s => tok_text dialect t +:+ s) "" l.

Inductive bexp := BAtom (c : FilterCondition) (from : Z) | BAnd (a b : bexp) | BOr (a b : bexp).
Inductive level := Factor | Term | Expr.
Inductive Parses : level -> list tok -> bexp -> Prop :=
  | parse_atom c from : Parses Factor [TAtom c from] (BAtom c from)
  | parse_parens l e : Parses Expr l e -> Parses Factor (TOpen :: l ++ [TClose]) e
  | parse_factor l e : Parses Factor l e -> Parses Term l e
  | parse_and l e l' e' : Parses Factor l e -> Parses Term l' e' -> Parses Term (l ++ TAnd :: l') (BAnd e e')
  | parse_term l e : Parses Term l e -> Parses Expr l e
  | parse_or l e l' e' : Parses Term l e -> Parses Expr l' e' -> Parses Expr (l ++ TOr :: l') (BOr e e').

Section Meaning.
(** What the database takes a comparison of a column with values to be. *)
Context {Row : Type} (compares : FilterOp -> string -> list string -> Row -> Prop).

(** The value of a clause on a row, with the parameters it is executed with. *)
Fixpoint holds (params : list SqlParam) (e : bexp) (row : Row) : Prop :=
  match e with
  | BAtom c from =>
      match constant c with
      | Some b => b = true
      | None => compares (fc_op c) (fc_field c)
                  (sp_value <$> take (length (bound c)) (drop (Z.to_nat (from - 1)) params)) row
      end
  | BAnd a b => holds params a row /\ holds params b row
  | BOr a b => holds params a row \/ holds params b row
  end.

(** What a condition asks of a row: that its column compares so with its values. *)
Definition satisfies (c : FilterCondition) (row : Row) : Prop := compares (fc_op c) (fc_field c) (bound c) row.
(** What the leaf of the clause says of it. *)
Definition reads_as (c : FilterCondition) (row : Row) : Prop :=
  match constant c with Some b => b = true | None => satisfies c row end.
(** Nothing is among no values. *)
Definition empty_in : Prop := forall field row, ~ compares In field [] row.
End Meaning.

(** The conditions for which the leaf says what the condition asks: a list that is
    to be left out has a value (of none the code makes 1=0 where it leaves out nothing),
    and a range has its two ends. *)
Definition complete (c : FilterCondition) : Prop :=
  match fc_op c with NotIn => fc_values c <> [] | Between => length (fc_values c) = 2 | _ => True end.

Lemma reads_as_satisfies {Row} (compares : FilterOp -> string -> list string -> Row -> Prop) c row :
  empty_in compares -> complete c -> reads_as compares c row <-> satisfies compares c row.
Proof.
  intros Hin Hc. destruct c as [field op value values]. unfold reads_as, satisfies, complete, constant in *.
  cbn [fc_op fc_values fc_field] in *. destruct op; try done; destruct values as [|v [|v' vs]]; try done.
  split; [done|]. intros H. by destruct (Hin _ _ H).
Qed.

Definition equality (kv : string * string) : FilterCondition := mkCondition kv.1 Eq kv.2 [].

(** What the options of a listing ask of a row when [P] is what a condition asks:
    every equality of the filter, every condition, one condition of every group. *)
Definition admits_by (P : FilterCondition -> Prop) (conditions : list FilterCondition) (groups : list FilterGroup)
    (legacy : gmap string string) : Prop :=
  (forall k v, legacy !! k = Some v -> P (equality (k, v))) /\
  (forall c, c ∈ conditions -> P c) /\
  (forall g, g ∈ groups -> fg_conditions g <> [] -> exists c, c ∈ fg_conditions g /\ P c).
Definition admits {Row} (compares : FilterOp -> string -> list string -> Row -> Prop) (conditions : list FilterCondition)
    (groups : list FilterGroup) (legacy : gmap string string) (row : Row) : Prop :=
  admits_by (fun c => satisfies compares c row) conditions groups legacy.

(** ** Threading the index *)

Definition params_of (cs : list FilterCondition) : list SqlParam :=
  cs ≫= (fun c => mkParam (fc_field c) <$> bound c).
Definition width (cs : list FilterCondition) : Z := Z.of_nat (length (params_of cs)).

Lemma params_of_app l l' : params_of (l ++ l') = (params_of l ++ params_of l')%list.
Proof. apply bind_app. Qed.
Lemma width_app l l' : width (l ++ l') = (width l + width l')%Z.
Proof. unfold width. rewrite params_of_app, length_app. lia. Qed.
Lemma width_single c : width [c] = Z.of_nat (length (bound c)).
Proof. unfold width, params_of. cbn. by rewrite app_nil_r, length_fmap. Qed.

(** A step that binds the values of [cs] and answers [f i] when the index is [i]. *)
Definition emits {A} (m : Build A) (f : Z -> A) (cs : list FilterCondition) : Prop :=
  forall ps i, m (ps, i) = (Ok (f i), ((ps ++ params_of cs)%list, (i + width cs)%Z)).

Lemma emits_ret {A} (a : A) : emits (mret a) (fun _ => a) [].
Proof. intros ps i. unfold width. cbn. by rewrite app_nil_r, Z.add_0_r. Qed.
Lemma emits_bind {A B} (m : Build A) (k : A -> Build B) f g cs cs' :
  emits m f cs -> (forall i, emits (k (f i)) (g i) cs') ->
  emits (m ≫= k) (fun i => g i (i + width cs)%Z) (cs ++ cs').
Proof.
  intros Hm Hk ps i. unfold mbind, Op_bind. rewrite Hm, Hk, params_of_app, width_app, <- app_assoc.
  by rewrite Z.add_assoc.
Qed.
Lemma emits_map {A B} (m : Build A) (h : A -> B) f cs :
  emits m f cs -> emits (a ← m; mret (h a)) (fun i => h (f i)) cs.
Proof.
  intros Hm. rewrite <- (app_nil_r cs). apply (emits_bind m _ f (fun i _ => h (f i))); [done|].
  intros i. apply emits_ret.
Qed.

Fixpoint thread {X A} (f : X -> Z -> A) (cs : X -> list FilterCondition) (l : list X) (i : Z) : list A :=
  match l with [] => [] | x :: l => f x i :: thread f cs l (i + width (cs x))%Z end.
Lemma thread_app {X A} (f : X -> Z -> A) cs l l' i :
  thread f cs (l ++ l') i = (thread f cs l i ++ thread f cs l' (i + width (l ≫= cs))%Z)%list.
Proof.
  revert i. induction l as [|x l IH]; intros i; cbn.
  - by rewrite Z.add_0_r.
  - by rewrite IH, width_app, Z.add_assoc.
Qed.
Lemma emits_mapM {X A} (h : X -> Build A) f cs (l : list X) :
  (forall x, x ∈ l -> emits (h x) (f x) (cs x)) -> emits (mapM h l) (thread f cs l) (l ≫= cs).
Proof.
  induction l as [|x l IH]; intros Hx; [apply emits_ret|].
  apply (emits_bind (h x) _ (f x) (fun i j => f x i :: thread f cs l j)); [apply Hx; by left|].
  intros i. cbn. apply (emits_map _ (cons (f x i))). apply IH. intros y Hy. apply Hx. by right.
Qed.

Lemma emits_ext {A} (m : Build A) f f' cs cs' :
  emits m f cs -> (forall i, f i = f' i) -> params_of cs = params_of cs' -> emits m f' cs'.
Proof. intros Hm Hf Hc ps i. rewrite Hm, Hf. unfold width. by rewrite Hc. Qed.

Definition hole (dialect : string) (k : Z) : string := ph k dialect.

Lemma mapM_bind_value dialect field vs ps i :
  mapM (bind_value dialect field) vs (ps, i) =
    (Ok (hole dialect <$> seqZ i (Z.of_nat (length vs))),
     ((ps ++ (mkParam field <$> vs))%list, (i + Z.of_nat (length vs))%Z)).
Proof.
  revert ps i. induction vs as [|v vs IH]; intros ps i.
  - cbn. by rewrite app_nil_r, Z.add_0_r.
  - cbn [mapM]. unfold mbind, Op_bind. cbn [bind_value]. rewrite IH. cbn [mret Op_ret].
    rewrite (seqZ_cons i) by (cbn [length]; lia). rewrite <- app_assoc. cbn [length fmap list_fmap app].
    replace (Z.pred (Z.of_nat (S (length vs)))) with (Z.of_nat (length vs)) by lia.
    replace (Z.succ i) with (i + 1)%Z by lia.
    f_equal. f_equal. lia.
Qed.

Lemma emits_comparison dialect c op :
  emits (comparison dialect c op)
    (fun i => quoteId (fc_field c) dialect +:+ (op +:+ ph i dialect)) [mkCondition (fc_field c) Eq (fc_value c) []].
Proof. intros ps i. done. Qed.

Lemma emits_condition dialect c :
  emits (buildCondition dialect c) (fun i => tok_text dialect (TAtom c i)) [c].
Proof.
  assert (forall n, seqZ n 1 = [n]) as Hone by (intros n; rewrite seqZ_cons by lia; done).
  destruct c as [field op value values]. unfold buildCondition, tok_text, tok_holes, leaf_text.
  cbn [fc_op fc_field fc_value fc_values].
  destruct op; cbn [bound constant infix fc_op fc_field fc_value fc_values];
    try (eapply emits_ext; [apply emits_comparison|intros i; cbn; by rewrite Hone|done]).
  - destruct (is_postgres dialect) eqn:Hpg.
    + eapply emits_ext; [apply emits_comparison|intros i; cbn; by rewrite Hone|done].
    + intros ps i. cbn. by rewrite Hone.
  - destruct values as [|v vs]; [intros ps i; unfold width; cbn; by rewrite app_nil_r, Z.add_0_r|].
    intros ps i. unfold mbind at 1, Op_bind. rewrite mapM_bind_value. unfold width, params_of. cbn [mbind list_bind bound fc_op fc_field fc_values].
    rewrite app_nil_r, length_fmap. done.
  - destruct values as [|v vs]; [intros ps i; unfold width; cbn; by rewrite app_nil_r, Z.add_0_r|].
    intros ps i. unfold mbind at 1, Op_bind. rewrite mapM_bind_value. unfold width, params_of. cbn [mbind list_bind bound fc_op fc_field fc_values].
    rewrite app_nil_r, length_fmap. done.
  - intros ps i. unfold width. cbn. by rewrite app_nil_r, Z.add_0_r.
  - intros ps i. unfold width. cbn. by rewrite app_nil_r, Z.add_0_r.
  - destruct values as [|v0 [|v1 vs]]; [intros ps i; unfold width; cbn; by rewrite app_nil_r, Z.add_0_r..|].
    intros ps i. unfold mbind, Op_bind. cbn [bind_value mret Op_ret length].
    rewrite (seqZ_cons i) by lia. change (Z.pred (Z.of_nat 2)) with 1%Z. rewrite Hone, <- app_assoc.
    replace (Z.succ i) with (i + 1)%Z by lia. unfold width. cbn. do 2 f_equal. lia.
Qed.

Lemma emits_checked valid dialect c :
  fc_field c ∈ valid -> emits (checked_condition valid dialect c) (fun i => tok_text dialect (TAtom c i)) [c].
Proof.
  intros Hc ps i. unfold checked_condition, validateField. rewrite bool_decide_true by done. apply emits_condition.
Qed.

(** ** The clause of a listing *)

Fixpoint sep_toks (t : tok) (ls : list (list tok)) : list tok :=
  match ls with
  | [] => []
  | [l] => l
  | l :: ls => l ++ t :: sep_toks t ls
  end.
Fixpoint big (op : bexp -> bexp -> bexp) (e : bexp) (es : list bexp) : bexp :=
  match es with [] => e | e' :: es => op e (big op e' es) end.

(** The conditions that stand side by side in the clause, those of a group together. *)
Definition conjuncts (conditions : list FilterCondition) (groups : list FilterGroup) (legacy : gmap string string) :
    list (list FilterCondition) :=
  ((fun kv => [equality kv]) <$> map_items legacy) ++ ((fun c => [c]) <$> conditions) ++
  List.filter (fun cs => match cs with [] => false | _ => true end) (fg_conditions <$> groups).

Definition single (c : FilterCondition) : list FilterCondition := [c].
Definition part_toks (cs : list FilterCondition) (i : Z) : list tok :=
  match cs with
  | [c] => [TAtom c i]
  | _ => TOpen :: sep_toks TOr (thread (fun c i => [TAtom c i]) single cs i) ++ [TClose]
  end.
Definition part_exp (cs : list FilterCondition) (i : Z) : bexp :=
  match thread BAtom single cs i with [] => BAtom (equality ("", "")) 0 | e :: es => big BOr e es end.
Definition clause_toks (parts : list (list FilterCondition)) : list tok := sep_toks TAnd (thread part_toks id parts 1).
Definition clause_exp (parts : list (list FilterCondition)) : bexp :=
  match thread part_exp id parts 1 with [] => BAtom (equality ("", "")) 0 | e :: es => big BAnd e es end.

Lemma toks_text_app d l l' : toks_text d (l ++ l') = toks_text d l +:+ toks_text d l'.
Proof.
  induction l as [|t l IH]; [done|].
  change (tok_text d t +:+ toks_text d (l ++ l') = (tok_text d t +:+ toks_text d l) +:+ toks_text d l').
  by rewrite IH, string_app_assoc.
Qed.
Lemma toks_text_sep d t ls : toks_text d (sep_toks t ls) = sql_join (tok_text d t) (toks_text d <$> ls).
Proof.
  induction ls as [|l [|l' ls] IH]; [done..|].
  change (toks_text d (l ++ t :: sep_toks t (l' :: ls)) = toks_text d l +:+ (tok_text d t +:+
    sql_join (tok_text d t) (toks_text d <$> (l' :: ls)))).
  rewrite toks_text_app, <- IH. done.
Qed.
Lemma thread_fmap {X A B} (g : A -> B) (f : X -> Z -> A) cs l i :
  g <$> thread f cs l i = thread (fun x i => g (f x i)) cs l i.
Proof. revert i. induction l as [|x l IH]; intros i; [done|]. cbn. by rewrite <- IH. Qed.
Lemma thread_ext {X A} (f f' : X -> Z -> A) cs l i :
  (forall x j, x ∈ l -> f x j = f' x j) -> thread f cs l i = thread f' cs l i.
Proof.
  revert i. induction l as [|x l IH]; intros i H; [done|]. cbn. rewrite H by (by left). f_equal. apply IH.
  intros y j Hy. apply H. by right.
Qed.

(** The clause parses. *)
Lemma sep_parses_or l ls e es :
  Parses Term l e -> Forall2 (Parses Term) ls es -> Parses Expr (sep_toks TOr (l :: ls)) (big BOr e es).
Proof.
  intros Hl Hls. revert l e Hl. induction Hls as [|l' e' ls es Hl' Hls IH]; intros l e Hl; [by apply parse_term|].
  apply (parse_or l e (sep_toks TOr (l' :: ls))); [done|]. by apply IH.
Qed.
Lemma sep_parses_and l ls e es :
  Parses Factor l e -> Forall2 (Parses Factor) ls es -> Parses Term (sep_toks TAnd (l :: ls)) (big BAnd e es).
Proof.
  intros Hl Hls. revert l e Hl. induction Hls as [|l' e' ls es Hl' Hls IH]; intros l e Hl; [by apply parse_factor|].
  apply (parse_and l e (sep_toks TAnd (l' :: ls))); [done|]. by apply IH.
Qed.
Lemma Forall2_thread {X A B} (R : A -> B -> Prop) (f : X -> Z -> A) (g : X -> Z -> B) cs l i :
  (forall x j, x ∈ l -> R (f x j) (g x j)) -> Forall2 R (thread f cs l i) (thread g cs l i).
Proof.
  revert i. induction l as [|x l IH]; intros i H; [constructor|]. constructor; [apply H; by left|].
  apply IH. intros y j Hy. apply H. by right.
Qed.
Lemma part_parses cs i : cs <> [] -> Parses Factor (part_toks cs i) (part_exp cs i).
Proof.
  destruct cs as [|c [|c' cs]]; [done|by constructor|]. intros _. unfold part_toks, part_exp.
  apply parse_parens, sep_parses_or; [by repeat constructor|].
  apply (Forall2_thread (Parses Term) (fun c i => [TAtom c i]) BAtom single (c' :: cs)).
  intros x j _. by repeat constructor.
Qed.
Lemma clause_parses parts :
  parts <> [] -> Forall (fun cs => cs <> []) parts -> Parses Expr (clause_toks parts) (clause_exp parts).
Proof.
  destruct parts as [|cs parts]; [done|]. intros _ [Hcs Hparts]%Forall_cons. apply parse_term. unfold clause_toks, clause_exp.
  apply sep_parses_and; [by apply part_parses|]. apply (Forall2_thread (Parses Factor)).
  intros x j Hx. apply part_parses. by eapply Forall_forall in Hparts.
Qed.

(** Its placeholders are numbered one after the other. *)
Lemma width_nonneg cs : (0 <= width cs)%Z. Proof. unfold width. lia. Qed.
Lemma holes_sep t ls : tok_holes t = [] -> sep_toks t ls ≫= tok_holes = ls ≫= (fun l => l ≫= tok_holes).
Proof.
  intros Ht. induction ls as [|l [|l' ls] IH]; [done|cbn; by rewrite app_nil_r|].
  change ((l ++ t :: sep_toks t (l' :: ls)) ≫= tok_holes = (l ≫= tok_holes) ++ ((l' :: ls) ≫= (fun l => l ≫= tok_holes)))%list.
  rewrite bind_app, <- IH. cbn. by rewrite Ht.
Qed.
Lemma holes_thread {X} (f : X -> Z -> list tok) cs (l : list X) i :
  (forall x j, x ∈ l -> f x j ≫= tok_holes = seqZ j (width (cs x))) ->
  thread f cs l i ≫= (fun l => l ≫= tok_holes) = seqZ i (width (l ≫= cs)).
Proof.
  revert i. induction l as [|x l IH]; intros i H; [done|]. cbn. rewrite H by (by left).
  rewrite IH by (intros y j Hy; apply H; by right). rewrite width_app, seqZ_app; [done|apply width_nonneg..].
Qed.
Lemma single_bind (cs : list FilterCondition) : cs ≫= single = cs.
Proof. induction cs as [|c cs IH]; [done|]. cbn. by rewrite IH. Qed.
Lemma part_holes cs i : part_toks cs i ≫= tok_holes = seqZ i (width cs).
Proof.
  assert (forall cs i, (sep_toks TOr (thread (fun c i => [TAtom c i]) single cs i)) ≫= tok_holes = seqZ i (width cs)) as H.
  { intros cs' j. rewrite holes_sep by done. rewrite holes_thread, single_bind; [done|].
    intros c k _. cbn. unfold single. by rewrite app_nil_r, width_single. }
  unfold part_toks. destruct cs as [|c [|c' cs]].
  - done.
  - cbn. by rewrite app_nil_r, width_single.
  - cbn [mbind list_bind tok_holes app]. rewrite bind_app, H. cbn. by rewrite app_nil_r.
Qed.
Lemma clause_holes parts : clause_toks parts ≫= tok_holes = seqZ 1 (width (parts ≫= id)).
Proof.
  unfold clause_toks. rewrite holes_sep by done. apply holes_thread. intros x j _. apply part_holes.
Qed.

(** Its value is what the conditions ask. *)
Section Value.
Context {Row : Type} (compares : FilterOp -> string -> list string -> Row -> Prop).
Abbreviation holds_ := (holds compares).

Lemma holds_big_or ps row e es : holds_ ps (big BOr e es) row <-> Exists (fun e => holds_ ps e row) (e :: es).
Proof.
  revert e. induction es as [|e' es IH]; intros e; [rewrite Exists_cons, Exists_nil; tauto|].
  cbn [big holds]. by rewrite IH, (Exists_cons _ e).
Qed.
Lemma holds_big_and ps row e es : holds_ ps (big BAnd e es) row <-> Forall (fun e => holds_ ps e row) (e :: es).
Proof.
  revert e. induction es as [|e' es IH]; intros e; [rewrite Forall_cons, Forall_nil; tauto|].
  cbn [big holds]. by rewrite IH, (Forall_cons _ e).
Qed.

(** Expressions threaded along the parameters mean what each means where it stands. *)
Lemma thread_means {X} (f : X -> Z -> bexp) (cs : X -> list FilterCondition) (Q : X -> Prop) ps row (l : list X) pre post :
  (forall x pre post, x ∈ l -> ps = (pre ++ params_of (cs x) ++ post)%list ->
     holds_ ps (f x (Z.of_nat (length pre) + 1)%Z) row <-> Q x) ->
  ps = (pre ++ params_of (l ≫= cs) ++ post)%list ->
  Forall2 (fun e x => holds_ ps e row <-> Q x) (thread f cs l (Z.of_nat (length pre) + 1)%Z) l.
Proof.
  revert pre. induction l as [|x l IH]; intros pre Hf Hps; [constructor|]. cbn in Hps.
  rewrite params_of_app, <- app_assoc in Hps. constructor; [by eapply Hf; [left|]|].
  assert (Z.of_nat (length pre) + 1 + width (cs x) = Z.of_nat (length (pre ++ params_of (cs x))) + 1)%Z as Heq
    by (unfold width; rewrite length_app; lia).
  cbn [thread]. rewrite Heq. apply IH; [|by rewrite <- app_assoc]. intros y pre' post' Hy. apply Hf. by right.
Qed.
Lemma Exists_iff2 {A B} (P : A -> Prop) (Q : B -> Prop) l k :
  Forall2 (fun a b => P a <-> Q b) l k -> Exists P l <-> exists b, b ∈ k /\ Q b.
Proof.
  induction 1 as [|a b l k Hab _ IH]; [rewrite Exists_nil; set_solver|]. rewrite Exists_cons, IH, Hab. set_solver.
Qed.
Lemma Forall_iff2 {A B} (P : A -> Prop) (Q : B -> Prop) l k :
  Forall2 (fun a b => P a <-> Q b) l k -> Forall P l <-> forall b, b ∈ k -> Q b.
Proof.
  induction 1 as [|a b l k Hab _ IH]; [rewrite Forall_nil; set_solver|]. rewrite Forall_cons, IH, Hab. set_solver.
Qed.

Lemma atom_means ps row c pre post :
  ps = (pre ++ params_of [c] ++ post)%list ->
  holds_ ps (BAtom c (Z.of_nat (length pre) + 1)%Z) row <-> reads_as compares c row.
Proof.
  intros ->. cbn [holds]. unfold reads_as, satisfies. destruct (constant c); [done|].
  replace (Z.to_nat (Z.of_nat (length pre) + 1 - 1)) with (length pre) by lia.
  rewrite drop_app_length. unfold params_of. cbn. rewrite app_nil_r, take_app_length' by (by rewrite length_fmap).
  rewrite <- list_fmap_compose. cbn. by rewrite list_fmap_id.
Qed.
Lemma part_means ps row cs pre post :
  cs <> [] -> ps = (pre ++ params_of cs ++ post)%list ->
  holds_ ps (part_exp cs (Z.of_nat (length pre) + 1)%Z) row <-> exists c, c ∈ cs /\ reads_as compares c row.
Proof.
  intros Hcs Hps.
  assert (Forall2 (fun e c => holds_ ps e row <-> reads_as compares c row)
    (thread BAtom single cs (Z.of_nat (length pre) + 1)%Z) cs) as H.
  { apply (thread_means _ _ _ _ _ _ _ post); [|by rewrite single_bind]. intros c pre' post' _. apply atom_means. }
  unfold part_exp. destruct (thread BAtom single cs _) as [|e es] eqn:Ht; [by destruct cs|].
  rewrite holds_big_or. by apply (Exists_iff2 _ (fun c => reads_as compares c row)).
Qed.
Lemma clause_means parts row :
  parts <> [] -> Forall (fun cs => cs <> []) parts ->
  holds_ (params_of (parts ≫= id)) (clause_exp parts) row <->
  forall cs, cs ∈ parts -> exists c, c ∈ cs /\ reads_as compares c row.
Proof.
  intros Hne Hparts. set (ps := params_of (parts ≫= id)).
  assert (Forall2 (fun e cs => holds_ ps e row <-> exists c, c ∈ cs /\ reads_as compares c row)
    (thread part_exp id parts (Z.of_nat (length (@nil SqlParam)) + 1)%Z) parts) as H.
  { apply (thread_means part_exp id _ _ _ _ [] []); [|subst ps; by rewrite app_nil_r].
    intros cs pre post Hcs Hps. apply (part_means _ _ _ _ post); [|done]. by eapply Forall_forall in Hparts. }
  unfold clause_exp. change (Z.of_nat (length []) + 1)%Z with 1%Z in H.
  destruct (thread part_exp id parts 1) as [|e es] eqn:Ht; [by destruct parts|].
  rewrite holds_big_and. by apply (Forall_iff2 _ (fun cs => exists c, c ∈ cs /\ reads_as compares c row)).
Qed.

Lemma conjuncts_means P conditions groups legacy :
  (forall cs, cs ∈ conjuncts conditions groups legacy -> exists c, c ∈ cs /\ P c) <->
  admits_by P conditions groups legacy.
Proof.
  unfold conjuncts, admits_by. split.
  - intros H. split_and!.
    + intros k v Hk. destruct (H [equality (k, v)]) as (c & ->%list_elem_of_singleton & Hc); [|exact Hc].
      apply elem_of_app. left. apply list_elem_of_fmap. exists (k, v). split; [done|]. by apply elem_of_map_items.
    + intros c Hc. destruct (H [c]) as (c' & ->%list_elem_of_singleton & Hc'); [|exact Hc'].
      apply elem_of_app. right. apply elem_of_app. left. by apply (list_elem_of_fmap_2 (fun c => [c])).
    + intros g Hg Hne. apply H. apply elem_of_app. right. apply elem_of_app. right.
      apply list_elem_of_In, filter_In. split; [|by destruct (fg_conditions g)].
      by apply list_elem_of_In, list_elem_of_fmap_2.
  - intros (Hl & Hc & Hg) cs. rewrite !elem_of_app, !list_elem_of_fmap, list_elem_of_In, filter_In, <- list_elem_of_In.
    intros [([k v] & -> & Hk)|[(c & -> & Hin)|[Hin Hne]]].
    + exists (equality (k, v)). split; [by left|]. by apply Hl, elem_of_map_items.
    + exists c. split; [by left|]. by apply Hc.
    + apply list_elem_of_fmap in Hin as (g & -> & Hin). apply Hg; [done|]. by destruct (fg_conditions g).
Qed.

(** The parts of a clause read as the conditions ask. *)
Lemma parts_admit conditions groups legacy row :
  empty_in compares -> Forall complete (conjuncts conditions groups legacy ≫= id) ->
  (forall cs, cs ∈ conjuncts conditions groups legacy -> exists c, c ∈ cs /\ reads_as compares c row) <->
  admits compares conditions groups legacy row.
Proof.
  intros Hin Hall. rewrite Forall_forall in Hall. unfold admits. rewrite <- conjuncts_means.
  assert (forall cs c, cs ∈ conjuncts conditions groups legacy -> c ∈ cs ->
    reads_as compares c row <-> satisfies compares c row) as Hc.
  { intros cs c Hcs Hin'. apply reads_as_satisfies; [done|]. apply Hall, list_elem_of_bind. by exists cs. }
  split; intros H cs Hcs; destruct (H cs Hcs) as (c & Hin' & Hr); exists c; (split; [done|]); by apply (Hc cs c Hcs Hin').
Qed.
End Value.

(** ** The builder builds it *)

Section Build.
Context (valid : gset string) (dialect : string).
Definition known (c : FilterCondition) : Prop := fc_field c ∈ valid.

(** A field the schema has not ends the construction. *)
Definition answers {A} (m : Build A) (cs : list FilterCondition) : Prop :=
  forall s, match (m s).1 with
            | Ok _ => Forall known cs
            | Throw (bad_argument text) => exists f, text = "Unknown field: " +:+ f /\ f ∉ valid
            | _ => False
            end.
Lemma answers_bind {A B} (m : Build A) (k : A -> Build B) cs cs' :
  answers m cs -> (forall a, answers (k a) cs') -> answers (m ≫= k) (cs ++ cs').
Proof.
  intros Hm Hk s. specialize (Hm s). unfold mbind, Op_bind. destruct (m s) as [[a|e|[]|] s']; cbn in *; try done.
  specialize (Hk a s'). destruct (k a s') as [[b|e|[]|] s'']; cbn in *; try done. by apply Forall_app.
Qed.
Lemma answers_ret {A} (a : A) : answers (mret a) []. Proof. intros s. apply Forall_nil_2. Qed.
Lemma answers_map {A B} (m : Build A) (h : A -> B) cs : answers m cs -> answers (a ← m; mret (h a)) cs.
Proof.
  intros Hm. rewrite <- (app_nil_r cs). apply answers_bind; [done|]. intros a. apply (answers_ret (h a)).
Qed.
Lemma answers_mapM {X A} (h : X -> Build A) cs l : (forall x, answers (h x) (cs x)) -> answers (mapM h l) (l ≫= cs).
Proof.
  intros Hh. induction l as [|x l IH]; [apply answers_ret|]. apply (answers_bind (h x)); [done|].
  intros a. by apply answers_map.
Qed.
Lemma answers_validate {A} field (m : Build A) c :
  fc_field c = field -> (forall s, exists a s', m s = (Ok a, s')) -> answers (validateField field valid;; m) [c].
Proof.
  intros <- Hm s. unfold validateField. destruct (decide (fc_field c ∈ valid)) as [Hin|Hout].
  - rewrite bool_decide_true by done. destruct (Hm s) as (a & s' & Hs). unfold mbind, Op_bind. cbn. rewrite Hs.
    by repeat constructor.
  - rewrite bool_decide_false by done. cbn. by eexists.
Qed.
Lemma emits_runs {A} (m : Build A) f cs : emits m f cs -> forall s, exists a s', m s = (Ok a, s').
Proof. intros Hm [ps i]. rewrite Hm. by do 2 eexists. Qed.

Lemma emits_legacy kv :
  kv.1 ∈ valid -> emits (legacy_fragment valid dialect kv) (fun i => toks_text dialect (part_toks [equality kv] i)) [equality kv].
Proof.
  intros Hk ps i. unfold legacy_fragment, validateField. rewrite bool_decide_true by done. cbn.
  rewrite string_app_nil_r. unfold width. cbn. rewrite seqZ_cons by lia. done.
Qed.
Lemma emits_typed c :
  known c -> emits (checked_condition valid dialect c) (fun i => toks_text dialect (part_toks [c] i)) [c].
Proof.
  intros Hc. eapply emits_ext; [by apply emits_checked|intros i|done].
  cbn [part_toks toks_text foldr]. by rewrite string_app_nil_r.
Qed.
Definition group_text (g : FilterGroup) (i : Z) : option string :=
  match fg_conditions g with [] => None | cs => Some (toks_text dialect (part_toks cs i)) end.
Lemma emits_group g :
  Forall known (fg_conditions g) -> emits (group_fragment valid dialect g) (group_text g) (fg_conditions g).
Proof.
  intros Hg. unfold group_fragment, group_text. destruct (fg_conditions g) as [|c cs]; [apply emits_ret|].
  rewrite Forall_forall in Hg. rewrite <- (single_bind (c :: cs)) at 2.
  eapply emits_ext; [apply (emits_map _ _), (emits_mapM _ (fun c i => tok_text dialect (TAtom c i)) single)| |done].
  - intros x Hx. by apply emits_checked, Hg.
  - intros i. destruct cs as [|c' cs]; [cbn [thread part_toks]; f_equal; symmetry; apply string_app_nil_r|]. cbv beta. f_equal.
    change ("(" +:+ (sql_join " OR " (thread (fun c i => tok_text dialect (TAtom c i)) single (c :: c' :: cs) i) +:+ ")") =
      toks_text dialect (TOpen :: sep_toks TOr (thread (fun c i => [TAtom c i]) single (c :: c' :: cs) i) ++ [TClose])).
    change (toks_text dialect (TOpen :: ?l)) with ("(" +:+ toks_text dialect l).
    rewrite toks_text_app, toks_text_sep, thread_fmap. do 3 f_equal.
    apply thread_ext. intros x j _. symmetry. apply string_app_nil_r.
Qed.
Lemma omap_groups groups i :
  omap id (thread group_text fg_conditions groups i) =
  thread (fun cs i => toks_text dialect (part_toks cs i)) id
    (List.filter (fun cs => match cs with [] => false | _ => true end) (fg_conditions <$> groups)) i.
Proof.
  revert i. induction groups as [|g groups IH]; intros i; [done|]. cbn [thread fmap list_fmap List.filter]. unfold group_text at 1.
  destruct (fg_conditions g) as [|c cs] eqn:Hg; cbn.
  - rewrite IH. unfold width. cbn. by rewrite Z.add_0_r.
  - by rewrite IH.
Qed.
Lemma filter_groups_bind groups :
  List.filter (fun cs => match cs with [] => false | _ => true end) (fg_conditions <$> groups) ≫= id =
  groups ≫= fg_conditions.
Proof.
  induction groups as [|g groups IH]; [done|]. cbn. rewrite <- IH. by destruct (fg_conditions g).
Qed.

Lemma emits_where conditions groups legacy :
  let parts := conjuncts conditions groups legacy in
  Forall known (parts ≫= id) ->
  emits (build_where conditions groups legacy valid dialect)
    (fun i => match parts with [] => "" | _ => "WHERE " +:+ toks_text dialect (sep_toks TAnd (thread part_toks id parts i)) end)
    (parts ≫= id).
Proof.
  intros parts Hp. unfold parts, conjuncts in *. rewrite !bind_app, !Forall_app in Hp. destruct Hp as (Hl & Hc & Hg).
  rewrite filter_groups_bind in Hg. rewrite Forall_forall in Hl, Hc, Hg. unfold build_where.
  set (text := fun (cs : list FilterCondition) i => toks_text dialect (part_toks cs i)).
  set (lp := (fun kv => [equality kv]) <$> map_items legacy). set (cp := (fun c => [c]) <$> conditions).
  set (gp := List.filter _ _).
  assert (emits (mapM (legacy_fragment valid dialect) (map_items legacy)) (thread text id lp) (lp ≫= id)) as E1.
  { subst lp. eapply emits_ext; [apply (emits_mapM _ (fun kv => text [equality kv]) (fun kv => [equality kv]))| |].
    - intros kv Hkv. apply emits_legacy, (Hl (equality kv)). apply list_elem_of_bind. exists [equality kv].
      split; [by left|]. by apply (list_elem_of_fmap_2 (fun kv => [equality kv])).
    - intros i. generalize (map_items legacy) i. induction l as [|kv l IH]; intros j; [done|]. cbn. by rewrite IH.
    - f_equal. generalize (map_items legacy). induction l as [|kv l IH]; [done|]. cbn. by rewrite IH. }
  assert (emits (mapM (checked_condition valid dialect) conditions) (thread text id cp) (cp ≫= id)) as E2.
  { subst cp. eapply emits_ext; [apply (emits_mapM _ (fun c => text [c]) single)| |].
    - intros c Hin. apply emits_typed, Hc. apply list_elem_of_bind. exists [c].
      split; [by left|]. by apply (list_elem_of_fmap_2 (fun c => [c])).
    - intros i. clear. revert i. induction conditions as [|c l IH]; intros j; [done|]. cbn. by rewrite IH.
    - f_equal. clear. induction conditions as [|c l IH]; [done|]. cbn. by rewrite IH. }
  assert (emits (groups' ← mapM (group_fragment valid dialect) groups; mret (omap id groups')) (thread text id gp) (gp ≫= id)) as E3.
  { subst gp. eapply emits_ext; [apply (emits_map _ (omap id)), (emits_mapM _ group_text fg_conditions)| |].
    - intros g Hin. apply emits_group. apply Forall_forall. intros c Hc'. apply Hg, list_elem_of_bind. by exists g.
    - intros i. apply omap_groups.
    - by rewrite filter_groups_bind. }
  rewrite !bind_app. intros ps i.
  unfold mbind at 1, Op_bind at 1. rewrite E1. unfold mbind at 1, Op_bind at 1. rewrite E2.
  specialize (E3 ((ps ++ params_of (lp ≫= id)) ++ params_of (cp ≫= id))%list (i + width (lp ≫= id) + width (cp ≫= id))%Z).
  unfold mbind at 1, Op_bind at 1 in E3. unfold mbind at 1, Op_bind at 1.
  destruct (mapM (group_fragment valid dialect) groups _) as [[gs|e|x|] s']; cbn in E3; try discriminate E3.
  injection E3 as -> ->. rewrite !params_of_app, !width_app, !app_assoc_reverse, !Z.add_assoc.
  assert (thread text id lp i ++ thread text id cp (i + width (lp ≫= id)) ++
    thread text id gp (i + width (lp ≫= id) + width (cp ≫= id)) = thread text id (lp ++ cp ++ gp) i)%list as ->
    by (by rewrite !thread_app).
  generalize (lp ++ cp ++ gp)%list. intros [|p ps']; [done|]. unfold mret, Op_ret.
  rewrite toks_text_sep, thread_fmap. done.
Qed.
End Build.

Lemma answers_where valid dialect conditions groups legacy :
  answers valid (build_where conditions groups legacy valid dialect) (conjuncts conditions groups legacy ≫= id).
Proof.
  assert (forall c, answers valid (checked_condition valid dialect c) [c]) as Hc.
  { intros c. apply answers_validate; [done|]. eapply emits_runs, emits_condition. }
  unfold conjuncts. rewrite !bind_app, filter_groups_bind.
  assert (((fun c => [c]) <$> conditions) ≫= id = conditions ≫= single) as ->
    by (induction conditions as [|c l IH]; [done|]; cbn; by rewrite IH).
  assert (((fun kv => [equality kv]) <$> map_items legacy) ≫= id = map_items legacy ≫= (fun kv => [equality kv])) as ->
    by (generalize (map_items legacy); intros l; induction l as [|kv l IH]; [done|]; cbn; by rewrite IH).
  apply answers_bind; [apply answers_mapM|intros legacy_texts; apply answers_bind; [by apply answers_mapM|]].
  - intros kv. apply answers_validate; [done|]. intros [ps i]. by do 2 eexists.
  - intros typed. apply (answers_map valid _ (fun groups => match (legacy_texts ++ typed ++ omap id groups)%list with
      [] => "" | _ => "WHERE " +:+ sql_join " AND " (legacy_texts ++ typed ++ omap id groups) end)).
    apply answers_mapM. intros g. unfold group_fragment. destruct (fg_conditions g) as [|c cs]; [apply answers_ret|].
    apply (answers_map valid _ (fun or_parts => Some (match or_parts with [part] => part
      | _ => "(" +:+ (sql_join " OR " or_parts +:+ ")") end))).
    pose proof (answers_mapM valid (checked_condition valid dialect) single (c :: cs) Hc) as Hs.
    by rewrite single_bind in Hs.
Qed.

(** C17. The WHERE clause of a listing asks what the listing asks.  Either a field
    the schema has not is refused, or the values are only in the parameters, the
    placeholders are numbered from 1 on, one for each, and the clause, read with the
    grammar of SQL's boolean expressions, holds of a row exactly when every equality of
    the plain filter (the tenant's is one), every condition and one condition of every
    group that has any hold of it with the values the caller gave: whatever the
    database takes comparisons to mean, as long as nothing is in an empty list, and for
    conditions that are complete, where a BETWEEN has two values and a NOT IN at least
    one (of the others the code makes 1=1 and 1=0, which is not what they ask:
    incomplete_conditions). *)
Theorem where_clause_spec conditions groups legacy valid dialect :
  match build_where conditions groups legacy valid dialect ([], 1%Z) with
  | (Ok text, (params, next)) =>
      (forall c, c ∈ conjuncts conditions groups legacy ≫= id -> fc_field c ∈ valid) /\
      next = (1 + Z.of_nat (length params))%Z /\
      ((text = "" /\ params = [] /\
        forall Row (compares : _ -> _ -> _ -> Row -> Prop) row, admits compares conditions groups legacy row) \/
       exists toks e,
         text = "WHERE " +:+ toks_text dialect toks /\ Parses Expr toks e /\
         toks ≫= tok_holes = seqZ 1 (Z.of_nat (length params)) /\
         forall Row (compares : _ -> _ -> _ -> Row -> Prop) row,
           empty_in compares -> Forall complete (conjuncts conditions groups legacy ≫= id) ->
           holds compares params e row <-> admits compares conditions groups legacy row)
  | (Throw (bad_argument text), _) => exists f, text = "Unknown field: " +:+ f /\ f ∉ valid
  | _ => False
  end.
Proof.
  pose proof (answers_where valid dialect conditions groups legacy ([], 1%Z)) as Ha.
  set (parts := conjuncts conditions groups legacy) in *.
  destruct (build_where conditions groups legacy valid dialect ([], 1%Z)) as [[text|e|x|] [params next]] eqn:Hrun;
    [|by cbn in Ha..].
  cbn in Ha. pose proof (emits_where valid dialect conditions groups legacy Ha [] 1%Z) as Hb. rewrite Hrun in Hb.
  cbn [app] in Hb. fold parts in Hb. injection Hb as -> -> ->. rewrite Forall_forall in Ha.
  split; [exact Ha|]. split; [unfold width; lia|].
  assert (Forall (fun cs => cs <> []) parts) as Hne.
  { apply Forall_forall. intros cs. unfold parts, conjuncts.
    rewrite !elem_of_app, !list_elem_of_fmap, list_elem_of_In, filter_In. intros [(? & -> & _)|[(? & -> & _)|[_ H]]];
      [done..|]. by destruct cs. }
  destruct parts as [|p ps] eqn:Hparts; [left; split; [done|]; split; [done|]|right].
  - intros Row compares row. apply conjuncts_means. fold parts. rewrite Hparts. by intros cs ?%not_elem_of_nil.
  - exists (clause_toks (p :: ps)), (clause_exp (p :: ps)). split; [done|]. split; [by apply clause_parses|].
    split; [apply clause_holes|]. intros Row compares row Hin Hall. rewrite clause_means by done.
    rewrite <- Hparts in Hall |- *. by apply parts_admit.
Qed.

(** A database of numbers, with the comparisons that are computed. *)
Definition age_compares (op : FilterOp) (field : string) (values : list string) (row : string) : Prop :=
  match op, values with
  | Eq, [v] => row = v
  | In, _ => row ∈ values
  | NotIn, _ => row ∉ values
  | _, _ => False
  end.

(** What the code makes of an empty NOT IN and of a range with one end: the first
    refuses every row where it leaves out none, the second admits every row. *)
Theorem incomplete_conditions :
  (build_where [mkCondition "age" NotIn "" []] [] ∅ nobody "sqlite" ([], 1%Z)).1 = Ok "WHERE 1=0" /\
  admits age_compares [mkCondition "age" NotIn "" []] [] ∅ "7" /\
  (build_where [mkCondition "age" Between "" ["1"]] [] ∅ nobody "sqlite" ([], 1%Z)).1 = Ok "WHERE 1=1".
Proof.
  split; [vm_compute; reflexivity|]. split; [|vm_compute; reflexivity]. split_and!.
  - intros k v Hk; by rewrite lookup_empty in Hk.
  - intros c ->%list_elem_of_singleton. intros Hx. by apply elem_of_nil in Hx.
  - intros g Hg. by apply elem_of_nil in Hg.
Qed.

Lemma where_clause_spec_witness :
  exists toks e, toks_text "sqlite" toks = quoteId "age" "sqlite" +:+ " IN (?, ?)" /\ Parses Expr toks e /\
    forall row, holds age_compares [mkParam "age" "1"; mkParam "age" "5"] e row <->
      admits age_compares [mkCondition "age" In "" ["1"; "5"]] [] ∅ row.
Proof.
  pose proof (where_clause_spec [mkCondition "age" In "" ["1"; "5"]] [] ∅ nobody "sqlite") as H.
  destruct (build_where _ _ _ _ _ _) as [r s] eqn:Hrun. vm_compute in Hrun. injection Hrun as <- <-.
  destruct H as (_ & _ & [(Ht & _)|(toks & e & Ht & Hp & Hh & Hm)]); [discriminate Ht|].
  exists toks, e. assert (empty_in age_compares) as Hin by (intros f row Hx; by apply elem_of_nil in Hx).
  assert (Forall complete (conjuncts [mkCondition "age" In "" ["1"; "5"]] [] ∅ ≫= id)) as Hall by by repeat constructor.
  split; [|split; [exact Hp|intros row; exact (Hm string age_compares row Hin Hall)]].
  injection Ht as Ht. exact (eq_sym Ht).
Defined.
