(* ===== verification/SqlAdapter.v ===== *)
(** * The SQL adapter

    Models src/adapters/sql: the statements of sql_adapter_helpers.cpp, the
    conversions of values and rows, the operations of sql_adapter_crud.cpp,
    sql_adapter_query.cpp and sql_adapter_bulk.cpp, the connection pool of
    sql_connection.hpp, the transactions of sql_transaction_manager.cpp, and the
    overrides of mysql_adapter.cpp.  The database behind the connection is a type
    class; an [SqlError] is a value of its answers, since it is no
    [std::exception]. *)

From Stdlib Require Import SpecFloat.
From S2P Require Import Prelude CxxString CxxStd Store Json Adapter AccessControl EntityRoutes BulkRoutes SqlWhere.

Open Scope string_scope.

(** ** The database *)

Inductive SqlErrorCode := UniqueViolation | ForeignKeyViolation | SqlNotFound | SqlTimeout | ConnectionLost | SqlUnknown.
Record SqlError := mkSqlError { se_code : SqlErrorCode; se_message : string }.
Abbreviation SqlRow := (gmap string string).

Class SqlServer (W : Type) := {
  runQuery : string -> list SqlParam -> Op W (SqlError + list SqlRow);
  runNonQuery : string -> list SqlParam -> Op W (SqlError + Z);
}.

Inductive Dialect := Postgres | MySQL | Prisma.
#[export] Instance Dialect_eq_dec : EqDecision Dialect.
Proof. solve_decision. Defined.

(** [mapPgSqlState] and [mapMySqlError] *)
Definition mapPgSqlState (state : option string) : SqlErrorCode :=
  match state with
  | None => SqlUnknown
  | Some s =>
      if String.eqb s "23505" then UniqueViolation
      else if String.eqb s "23503" then ForeignKeyViolation
      else if String.eqb s "42P01" then SqlNotFound
      else if String.eqb s "57014" then SqlTimeout
      else if String.prefix "08" s then ConnectionLost
      else SqlUnknown
  end.
Definition mapMySqlError (errNo : Z) : SqlErrorCode :=
  (if (errNo =? 1062) || (errNo =? 1586) then UniqueViolation
   else if (errNo =? 1451) || (errNo =? 1452) then ForeignKeyViolation
   else if errNo =? 1146 then SqlNotFound
   else if errNo =? 1205 then SqlTimeout
   else if (errNo =? 2006) || (errNo =? 2013) then ConnectionLost
   else SqlUnknown)%Z.

Definition mapSqlError (error : SqlError) : Error :=
  match se_code error with
  | UniqueViolation => conflict (se_message error)
  | ForeignKeyViolation => validationError (se_message error)
  | SqlNotFound => notFound (se_message error)
  | _ => internal (se_message error)
  end.

(** ** Statements *)

Section Statements.
Context {jl : JsonLib} (dialect : Dialect).

Definition numbered : bool := match dialect with Postgres | Prisma => true | MySQL => false end.
Definition placeholder (index : Z) : string := if numbered then "$" +:+ to_string index else "?".
Definition quoteId (identifier : string) : string := quoted_in (if numbered then dquote else "`") identifier.

Definition numeric_type (type : string) : bool :=
  String.eqb type "number" || String.eqb type "bigint" || String.eqb type "integer" || String.eqb type "int".

Fixpoint double_quotes (s : string) : string :=
  match s with
  | "" => ""
  | String c s => if Ascii.eqb c "'" then "''" +:+ double_quotes s else String c (double_quotes s)
  end.
Definition coalesceDefault (type val : string) : string :=
  if String.eqb type "boolean" then (if String.eqb val "true" || String.eqb val "1" then "true" else "false")
  else if numeric_type type then (if is_empty val then "0" else val)
  else "'" +:+ (double_quotes val +:+ "'").

Definition field_expression (field : EntityField) : string :=
  match fd_nullable field && negb (fd_required field), fd_defaultValue field with
  | true, Some d =>
      "COALESCE(" +:+ (quoteId (fd_name field) +:+ (", " +:+ (coalesceDefault (fd_type field) d +:+
        (") AS " +:+ quoteId (fd_name field)))))
  | _, _ => quoteId (fd_name field)
  end.
Definition buildFieldList (schema : EntitySchema) : string := sql_join ", " (field_expression <$> es_fields schema).

(** The columns of an INSERT and their placeholders; the identifier is inserted
    when the caller supplies it, the time of creation never. *)
Fixpoint insert_columns (data : json) (fields : list EntityField) (index : Z) : list string * list string :=
  match fields with
  | [] => ([], [])
  | field :: fields =>
      let push := let '(names, holes) := insert_columns data fields (index + 1) in
                  (quoteId (fd_name field) :: names, placeholder index :: holes) in
      let skip := insert_columns data fields index in
      if String.eqb (fd_name field) "createdAt" then skip
      else if String.eqb (fd_name field) "id" then
        match string_member data "id" with Some id => if is_empty id then skip else push | None => skip end
      else if has_member data (fd_name field) then push else skip
  end.
Definition buildInsertSql (schema : EntitySchema) (data : json) : string :=
  let '(fields, placeholders) := insert_columns data (es_fields schema) 1 in
  "INSERT INTO " +:+ (quoteId (es_name schema) +:+ (" (" +:+ (sql_join ", " fields +:+ (") " +:+
  ("VALUES (" +:+ (sql_join ", " placeholders +:+ (") " +:+ ("RETURNING " +:+ buildFieldList schema)))))))).

Definition equal_to (names : list string) (from : Z) : list string :=
  imap (fun n name => quoteId name +:+ (" = " +:+ placeholder (from + Z.of_nat n))) names.

Definition buildSelectSql (schema : EntitySchema) (filter : json) : string :=
  let sql := "SELECT " +:+ (buildFieldList schema +:+ (" FROM " +:+ quoteId (es_name schema))) in
  match (items filter).*1 with
  | [] => sql
  | keys => sql +:+ (" WHERE " +:+ sql_join " AND " (equal_to keys 1))
  end.

(** The fields an UPDATE sets. *)
Definition updated_fields (schema : EntitySchema) (data : json) : list string :=
  List.filter (fun name => negb (String.eqb name "id" || String.eqb name "createdAt") && has_member data name)
    (fd_name <$> es_fields schema).
Definition buildUpdateSql (schema : EntitySchema) (data : json) : string :=
  match updated_fields schema data with
  | [] => ""
  | names =>
      "UPDATE " +:+ (quoteId (es_name schema) +:+ (" SET " +:+ (sql_join ", " (equal_to names 2) +:+
      (" WHERE " +:+ (quoteId "id" +:+ (" = " +:+ (placeholder 1 +:+ (" RETURNING " +:+ buildFieldList schema))))))))
  end.
Definition buildDeleteSql (schema : EntitySchema) : string :=
  "DELETE FROM " +:+ (quoteId (es_name schema) +:+ (" WHERE " +:+ (quoteId "id" +:+ (" = " +:+ placeholder 1)))).

(** ** Values and rows *)

Definition jsonValueToString (v : json) : Result string :=
  match v with
  | JNull => Ok ""
  | JBool b => Ok (if b then "true" else "false")
  | JInt _ | JFloat _ => z ← get_int64 v; Ok (to_string z)
  | JString s => Ok s
  | v => dump v
  end.

Fixpoint params_of_fields (data : json) (prependId : string) (fields : list EntityField) : Result (list SqlParam) :=
  match fields with
  | [] => Ok []
  | field :: fields =>
      if String.eqb (fd_name field) "createdAt" then params_of_fields data prependId fields
      else if String.eqb (fd_name field) "id" then
        match is_empty prependId, string_member data "id" with
        | true, Some id =>
            if is_empty id then params_of_fields data prependId fields
            else rest ← params_of_fields data prependId fields; Ok (mkParam "id" id :: rest)
        | _, _ => params_of_fields data prependId fields
        end
      else match member data (fd_name field) with
           | Some v =>
               value ← jsonValueToString v;
               rest ← params_of_fields data prependId fields;
               Ok (mkParam (fd_name field) value :: rest)
           | None => params_of_fields data prependId fields
           end
  end.
Definition jsonToParams (schema : EntitySchema) (data : json) (prependId : string) : Result (list SqlParam) :=
  params ← params_of_fields data prependId (es_fields schema);
  Ok (if is_empty prependId then params else mkParam "id" prependId :: params).

Definition columnValue (row : SqlRow) (key : string) : string := default "" (row !! key).
(** [std::stoll] *)
Definition stoll (s : string) : Result Z :=
  match strtol s with
  | None => Throw invalid_argument
  | Some z => if in_int64 z then Ok z else Throw out_of_range
  end.
Definition decodeJsonColumn (value : string) : json := default (JString value) (parse value).

Definition column_json (field : EntityField) (value : string) : Result json :=
  if String.eqb (fd_type field) "boolean" then
    Ok (JBool (bool_decide (value ∈ ["1"; "t"; "true"; "T"; "TRUE"])))
  else if numeric_type (fd_type field) then
    (if is_empty value then Ok JNull else z ← stoll value; Ok (JInt z))
  else if String.eqb (fd_type field) "json" && negb (is_empty value) then Ok (decodeJsonColumn value)
  else if is_empty value then
    match fd_nullable field, fd_defaultValue field with
    | true, Some d => Ok (JString d)
    | _, _ => Ok (if fd_required field then JString value else JNull)
    end
  else Ok (JString value).

Fixpoint row_members (includeSensitive : bool) (row : SqlRow) (fields : list EntityField) (result : json) : Result json :=
  match fields with
  | [] => Ok result
  | field :: fields =>
      if fd_sensitive field && negb includeSensitive then row_members includeSensitive row fields result
      else
        v ← column_json field (columnValue row (fd_name field));
        result ← assign_member result (fd_name field) v;
        row_members includeSensitive row fields result
  end.
Definition rowToJson (schema : EntitySchema) (row : SqlRow) (includeSensitive : bool) : Result json :=
  row_members includeSensitive row (es_fields schema) JNull.
End Statements.

(** ** Connections and transactions *)

Record SqlTransactionManager := mkTxManager { is_active : bool; committed : bool }.

(** The adapter: the database, whether each connection of the pool is connected, the
    transaction and its connection. *)
Record SqlState (W : Type) := mkSqlState {
  sq_server : W; sq_pool : list bool; tx_manager_ : option SqlTransactionManager; tx_connection_ : option nat;
}.
Arguments mkSqlState {W} _ _ _ _.
Arguments sq_server {W} _.
Arguments sq_pool {W} _.
Arguments tx_manager_ {W} _.
Arguments tx_connection_ {W} _.
#[export] Instance SqlState_fields {W} : Fields (SqlState W) := fun s =>
  mkSqlState (sq_server s) (sq_pool s) (tx_manager_ s) (tx_connection_ s).

Section Operations.
Context {W : Type} `{!SqlServer W} {jl : JsonLib} (dialect : Dialect) (schemas : gmap string EntitySchema).
Abbreviation State := (SqlState W).

(** A call of the database; it sees nothing of the adapter. *)
Definition on_server {A} (m : Op W A) : Op State A := fun s =>
  let '(r, w) := m (sq_server s) in (r, s <| sq_server := w |>).
Definition executeQuery (conn : nat) (sql : string) (params : list SqlParam) : Op State (SqlError + list SqlRow) :=
  on_server (runQuery sql params).
Definition executeNonQuery (conn : nat) (sql : string) (params : list SqlParam) : Op State (SqlError + Z) :=
  on_server (runNonQuery sql params).

(** [SqlConnection::connect] answers true; [SqlPool::acquire] hands out the first
    connection, which nothing marks as taken, and [release] does not matter. *)
Definition acquire : Op State (option nat) := fun s =>
  match sq_pool s with
  | [] => (Ok None, s)
  | _ :: rest => (Ok (Some 0), s <| sq_pool := true :: rest |>)
  end.
Definition connection (what : string) : Op State nat :=
  conn ← acquire;
  match (conn : option nat) with
  | Some c => mret c
  | None => fail (internal ("Unable to acquire SQL connection" +:+ what))
  end.

(** [try { ... } catch (const SqlError& err) { return mapSqlError(err); }] *)
Definition sql_answer {A} (r : SqlError + A) : Op State A :=
  match r with inl e => fail (mapSqlError e) | inr a => mret a end.

(** [begin], [commit] and [rollback] of the manager execute no statement. *)
Definition tx_begin (m : SqlTransactionManager) : Result SqlTransactionManager :=
  if is_active m then Throw (runtime_error "Transaction already active") else Ok (mkTxManager true (committed m)).
Definition tx_commit (m : SqlTransactionManager) : Result SqlTransactionManager :=
  if is_active m then Ok (mkTxManager false true) else Throw (runtime_error "No active transaction to commit").
Definition tx_rollback (m : SqlTransactionManager) : Result SqlTransactionManager :=
  if is_active m then Ok (mkTxManager false (committed m))
  else Throw (runtime_error "No active transaction to rollback").

Definition beginTransaction : Op State bool :=
  tx ← gets tx_connection_;
  match (tx : option nat) with
  | Some _ => mret tt
  | None =>
      conn ← connection " for transaction";
      modify (fun s => s <| tx_connection_ := Some conn |> <| tx_manager_ := Some (mkTxManager false false) |>)
  end;;
  manager ← gets tx_manager_;
  match (manager : option SqlTransactionManager) with
  | None => undef
  | Some m => m' ← of_result (tx_begin m); modify (fun s => s <| tx_manager_ := Some m' |>)
  end;;
  mret true.

Definition end_transaction (step : SqlTransactionManager -> Result SqlTransactionManager) : Op State bool :=
  manager ← gets tx_manager_;
  match (manager : option SqlTransactionManager) with
  | Some m =>
      if is_active m then
        _ ← of_result (step m);
        modify (fun s => s <| tx_manager_ := None |> <| tx_connection_ := None |>);;
        mret true
      else fail (internal "No transaction in progress")
  | None => fail (internal "No transaction in progress")
  end.
Definition commitTransaction : Op State bool := end_transaction tx_commit.
Definition rollbackTransaction : Op State bool := end_transaction tx_rollback.

(** ** Rows *)

Definition schema_of (entityName : string) : Op State EntitySchema :=
  match schemas !! entityName with
  | Some schema => mret schema
  | None => fail (validationError ("Unknown entity: " +:+ entityName))
  end.
(** The first of the rows of an answer. *)
Definition first_row (schema : EntitySchema) (includeSensitive : bool) (empty : Error) (rows : list SqlRow) : Op State json :=
  match rows with
  | [] => fail empty
  | row :: _ => of_result (rowToJson schema row includeSensitive)
  end.
Definition missing_row (entityName : string) : Error := notFound (entityName +:+ " not found").

(** The methods of the base class: PostgreSQL's and Prisma's.  At the dialect [MySQL]
    [create], [update] and [createMany] are what its overrides replace, see below. *)
Definition create (entityName : string) (data : json) : Op State json :=
  schema ← schema_of entityName;
  conn ← connection "";
  params ← of_result (jsonToParams schema data "");
  r ← executeQuery conn (buildInsertSql dialect schema data) params;
  rows ← sql_answer r;
  first_row schema false (internal "SQL insert returned no rows") rows.

Definition by_id (id : string) : json := JObject [("id", JString id)].
Definition read_row (includeSensitive : bool) (entityName id : string) : Op State json :=
  schema ← schema_of entityName;
  conn ← connection "";
  r ← executeQuery conn (buildSelectSql dialect schema (by_id id)) [mkParam "id" id];
  rows ← sql_answer r;
  first_row schema includeSensitive (missing_row entityName) rows.
Definition read : string -> string -> Op State json := read_row false.
Definition readIncludingSensitive : string -> string -> Op State json := read_row true.

Definition update (entityName id : string) (data : json) : Op State json :=
  schema ← schema_of entityName;
  conn ← connection "";
  params ← of_result (jsonToParams schema data id);
  r ← executeQuery conn (buildUpdateSql dialect schema data) params;
  rows ← sql_answer r;
  first_row schema false (missing_row entityName) rows.

Definition remove (entityName id : string) : Op State bool :=
  schema ← schema_of entityName;
  conn ← connection "";
  r ← executeNonQuery conn (buildDeleteSql dialect schema) [mkParam "id" id];
  affected ← sql_answer r;
  if (affected =? 0)%Z then fail (missing_row entityName) else mret true.

(** ** Listings *)

Definition dialect_str : string := if numbered dialect then "postgresql" else "mysql".
Definition valid_fields (schema : EntitySchema) : gset string := list_to_set (fd_name <$> es_fields schema).

(** A builder of clauses, run from the first parameter; its [invalid_argument] is
    answered as a validation error. *)
Definition run_builder {A} (m : Build A) (params : list SqlParam) : Op State (A * list SqlParam) := fun s =>
  match m (params, 1%Z) with
  | (Ok a, (params, _)) => (Ok (a, params), s)
  | (Throw (bad_argument what), _) => (Err (validationError what), s)
  | (r, _) => (recast r, s)
  end.

Definition unknown_in (valid : gset string) (what : string) (fields : list string) : Op State unit :=
  match List.filter (fun f => negb (bool_decide (f ∈ valid))) fields with
  | [] => mret tt
  | f :: _ => fail (validationError ("Unknown " +:+ (what +:+ (" field: " +:+ f))))
  end.

Definition clause (text : string) : string := if is_empty text then "" else " " +:+ text.

Definition raw_row (row : SqlRow) : json :=
  match map_items row with [] => JNull | l => JObject ((fun kv => (kv.1, JString kv.2)) <$> l) end.

Definition list_aggregates (schema : EntitySchema) (options : RichOptions) (conn : nat) (page limit : Z) : Op State ListResult :=
  let valid := valid_fields schema in
  unknown_in valid "group_by" (ro_group_by options);;
  unknown_in valid "aggregate" (List.filter (fun f => negb (String.eqb f "*")) (ag_field <$> ro_aggregates options));;
  built ← run_builder (build_where (ro_conditions options) (ro_filter_groups options)
            (opt_filter (ro_base options)) valid dialect_str) [];
  selected ← run_builder (buildAggregateSelect (ro_aggregates options) (ro_group_by options) valid dialect_str) [];
  grouped ← run_builder (buildGroupBy (ro_group_by options) valid dialect_str) [];
  let sql := "SELECT " +:+ (selected.1 +:+ (" FROM " +:+ (quoteId dialect (es_name schema) +:+
               (clause built.1 +:+ clause grouped.1)))) in
  r ← executeQuery conn sql built.2;
  rows ← sql_answer r;
  let found := raw_row <$> rows in
  mret (mkListResult found (Z.of_nat (length found)) page limit).

Definition default_order (schema : EntitySchema) : string :=
  if bool_decide ("createdAt" ∈ fd_name <$> es_fields schema) then "createdAt"
  else match es_fields schema with [] => "id" | f :: _ => fd_name f end.

(** The count of a listing: a text that is no number counts for none. *)
Definition total_of (rows : list SqlRow) : Z :=
  match rows with
  | row :: _ => match stoi (columnValue row "cnt") with Ok n => n | _ => 0%Z end
  | [] => 0%Z
  end.

Definition list_rows (schema : EntitySchema) (options : RichOptions) (conn : nat) (page limit offset : Z) : Op State ListResult :=
  let valid := valid_fields schema in
  built ← run_builder (build_where (ro_conditions options) (ro_filter_groups options)
            (opt_filter (ro_base options)) valid dialect_str) [];
  ordered ← run_builder (buildOrderBy (opt_sort (ro_base options)) valid (default_order schema) dialect_str) [];
  let from := " FROM " +:+ (quoteId dialect (es_name schema) +:+ clause built.1) in
  let sql := "SELECT " +:+ ((if ro_distinct options then "DISTINCT " else "") +:+ (buildFieldList dialect schema +:+
               (from +:+ (" " +:+ (ordered.1 +:+ (" LIMIT " +:+ (to_string limit +:+ (" OFFSET " +:+ to_string offset)))))))) in
  counted ← executeQuery conn ("SELECT COUNT(*) AS cnt" +:+ from) built.2;
  count_rows ← sql_answer counted;
  r ← executeQuery conn sql built.2;
  rows ← sql_answer r;
  found ← of_result (mapM (fun row => rowToJson schema row false) rows);
  mret (mkListResult found (total_of count_rows) page limit).

Definition list_entities (entityName : string) (options : RichOptions) : Op State ListResult :=
  schema ← schema_of entityName;
  conn ← connection "";
  let base := ro_base options in
  let limit := if (0 <? opt_limit base)%Z then opt_limit base else 50%Z in
  let page := if (0 <? opt_page base)%Z then opt_page base else 1%Z in
  let offset := ((page - 1) * limit)%Z in
  (if in_int offset then mret tt else undef);;
  match ro_aggregates options with
  | [] => list_rows schema options conn page limit offset
  | _ => list_aggregates schema options conn page limit
  end.

(** ** Filters given as an object *)

(** The loop over the members of a filter: their fragments and parameters. *)
Fixpoint where_loop (valid : gset string) (unknown : string -> string) (filter : members) (index : Z) :
    Result (list string * list SqlParam) :=
  match filter with
  | [] => Ok ([], [])
  | (key, v) :: filter =>
      if bool_decide (key ∈ valid) then
        value ← jsonValueToString v;
        rest ← where_loop valid unknown filter (index + 1);
        Ok ((quoteId dialect key +:+ (" = " +:+ placeholder dialect index)) :: rest.1, mkParam key value :: rest.2)
      else Err (validationError (unknown key))
  end.
Definition where_members (schema : EntitySchema) (unknown : string -> string) (filter : json) (from : Z) :
    Op State (string * list SqlParam) :=
  built ← of_result (where_loop (valid_fields schema) unknown (items filter) from);
  mret (match built.1 with [] => "" | fragments => " WHERE " +:+ sql_join " AND " fragments end, built.2).

Definition findFirst (entityName : string) (filter : json) : Op State json :=
  schema ← schema_of entityName;
  conn ← connection "";
  built ← where_members schema (fun key => "Unknown field in filter: " +:+ key) filter 1;
  r ← executeQuery conn ("SELECT " +:+ (buildFieldList dialect schema +:+ (" FROM " +:+ (quoteId dialect (es_name schema) +:+
        (built.1 +:+ " LIMIT 1"))))) built.2;
  rows ← sql_answer r;
  first_row schema false (missing_row entityName) rows.
Definition findByField (entityName field : string) (value : json) : Op State json :=
  findFirst entityName (JObject [(field, value)]).

Definition upsert (entityName uniqueField : string) (uniqueValue createData updateData : json) : Op State json := fun s =>
  match findByField entityName uniqueField uniqueValue s with
  | (Ok existing, s') =>
      (v ← of_result (at_member existing "id"); id ← of_result (get_string v); update entityName id updateData) s'
  | (Err _, s') => create entityName createData s'
  | (r, s') => (recast r, s')
  end.

(** ** Bulk operations *)

(** The loop of [createMany]. *)
Fixpoint create_loop (schema : EntitySchema) (conn : nat) (records : list json) (inserted : Z) : Op State Z :=
  match records with
  | [] => mret inserted
  | record :: records =>
      params ← of_result (jsonToParams schema record "");
      r ← executeNonQuery conn (buildInsertSql dialect schema record) params;
      match (r : SqlError + Z) return Op State Z with
      | inr _ => create_loop schema conn records (inserted + 1)
      | inl err => fun s =>
          match rollbackTransaction s with
          | (Ok _, s') | (Err _, s') => (Err (mapSqlError err), s')
          | (r, s') => (recast r, s')
          end
      end
  end.
Definition explained (why : string) {A} (m : Op State A) : Op State A := fun s =>
  match m s with (Err e, s') => (Err (internal (why +:+ message e)), s') | r => r end.

Definition createMany (entityName : string) (records : list json) : Op State Z :=
  match records with
  | [] => mret 0%Z
  | _ =>
      schema ← schema_of entityName;
      conn ← connection "";
      explained "Failed to begin transaction: " beginTransaction;;
      inserted ← create_loop schema conn records 0;
      explained "Failed to commit transaction: " commitTransaction;;
      mret inserted
  end.

Definition updateMany (entityName : string) (filter data : json) : Op State Z :=
  schema ← schema_of entityName;
  conn ← connection "";
  let names := List.filter (has_member data) (fd_name <$> es_fields schema) in
  values ← of_result (mapM (fun name => jsonValueToString (default JNull (member data name))) names);
  match names with
  | [] => fail (validationError "No update fields supplied")
  | _ =>
      built ← where_members schema (fun key => "Unknown filter field: " +:+ key) filter (1 + Z.of_nat (length names));
      r ← executeNonQuery conn ("UPDATE " +:+ (quoteId dialect (es_name schema) +:+ (" SET " +:+
            (sql_join ", " (equal_to dialect names 1) +:+ built.1)))) (zip_with mkParam names values ++ built.2);
      sql_answer r
  end.

(** The names of the filter go into the statement as they are. *)
Definition deleteMany (entityName : string) (filter : json) : Op State Z :=
  schema ← schema_of entityName;
  conn ← connection "";
  values ← of_result (mapM (fun kv => jsonValueToString kv.2) (items filter));
  let names := (items filter).*1 in
  let whereFragments := imap (fun n key => key +:+ (" = " +:+ placeholder dialect (1 + Z.of_nat n))) names in
  let sql := "DELETE FROM " +:+ (quoteId dialect (es_name schema) +:+
    match whereFragments with [] => "" | _ => " WHERE " +:+ sql_join " AND " whereFragments end) in
  r ← executeNonQuery conn sql (zip_with mkParam names values);
  sql_answer r.
End Operations.

(** ** The adapter *)

Section Instance_.
Context {W : Type} `{!SqlServer W} {jl : JsonLib} (dialect : Dialect) (schemas : gmap string EntitySchema).

(** A listing asked for with the plain options only. *)
Definition plain_options (o : ListOptions) : RichOptions := mkOptions o [] [] [] [] [] [] false 0.

#[export] Instance sql_adapter : Adapter (SqlState W) := {|
  do_create := create dialect schemas; do_read := read dialect schemas;
  do_readIncludingSensitive := readIncludingSensitive dialect schemas; do_search := default_search;
  do_update := update dialect schemas; do_remove := remove dialect schemas;
  do_list e o := list_entities dialect schemas e (plain_options o);
  do_createMany := createMany dialect schemas; do_updateMany := updateMany dialect schemas;
  do_deleteMany := deleteMany dialect schemas; do_findFirst := findFirst dialect schemas;
  do_findByField := findByField dialect schemas; do_upsert := upsert dialect schemas;
  do_getAvailableEntities := mret (map_to_list schemas).*1; do_getEntitySchema := schema_of schemas;
  do_close := mret tt; supportsNativeTransactions := true; do_beginTransaction := beginTransaction;
  do_commitTransaction := commitTransaction; do_rollbackTransaction := rollbackTransaction;
|}.
End Instance_.

(** ** What MySQL does differently *)

Section MySql.
(** [mysql_real_escape_string] *)
Context (escapeString : string -> string).

(** The values take the places of the question marks, as literals. *)
Fixpoint buildQueryString (sql : string) (params : list SqlParam) : string :=
  match sql with
  | "" => ""
  | String c sql =>
      match Ascii.eqb c "?", params with
      | true, p :: params =>
          (if is_empty (sp_value p) then "NULL" else "'" +:+ (escapeString (sp_value p) +:+ "'")) +:+
          buildQueryString sql params
      | _, _ => String c (buildQueryString sql params)
      end
  end.
End MySql.

Definition isValidIdentifier (name : string) : bool :=
  negb (is_empty name) && (String.length name <=? 128)%nat &&
  string_forallb (fun c => is_alnum c || Ascii.eqb c "_") name.

Section MySqlOperations.
Context {W : Type} `{!SqlServer W} {jl : JsonLib} (schemas : gmap string EntitySchema).
Abbreviation State := (SqlState W).
Abbreviation quoted := (quoteId MySQL).

Definition mysql_schema (entityName : string) : Op State EntitySchema :=
  schema ← schema_of schemas entityName;
  reject_if (negb (isValidIdentifier (es_name schema))) (validationError ("Invalid entity name: " +:+ es_name schema));;
  mret schema.
Definition given (schema : EntitySchema) (data : json) : list string :=
  List.filter (has_member data) (fd_name <$> es_fields schema).
Definition values_of (data : json) (names : list string) : Result (list string) :=
  mapM (fun name => jsonValueToString (default JNull (member data name))) names.

Definition mysql_create (entityName : string) (data : json) : Op State json :=
  schema ← mysql_schema entityName;
  conn ← connection "";
  let names := given schema data in
  values ← of_result (values_of data names);
  r ← executeNonQuery conn ("INSERT INTO " +:+ (quoted (es_name schema) +:+ (" (" +:+ (sql_join ", " (quoted <$> names) +:+
        (") VALUES (" +:+ (sql_join ", " ((fun _ => "?") <$> names) +:+ ")")))))) (zip_with mkParam names values);
  _ ← sql_answer r;
  let from := "SELECT * FROM " +:+ quoted (es_name schema) in
  r ← match member data "id" with
      | Some id =>
          text ← of_result (jsonValueToString id);
          executeQuery conn (from +:+ (" WHERE " +:+ (quoted "id" +:+ " = ?"))) [mkParam "id" text]
      | None => executeQuery conn (from +:+ (" ORDER BY " +:+ (quoted "createdAt" +:+ " DESC LIMIT 1"))) []
      end;
  rows ← sql_answer r;
  first_row schema false (internal "MySQL insert succeeded but could not read back row") rows.

Definition mysql_update (entityName id : string) (data : json) : Op State json :=
  schema ← mysql_schema entityName;
  conn ← connection "";
  let names := updated_fields schema data in
  values ← of_result (values_of data names);
  match names with
  | [] => fail (validationError "No fields to update")
  | _ =>
      r ← executeNonQuery conn ("UPDATE " +:+ (quoted (es_name schema) +:+ (" SET " +:+
            (sql_join ", " ((fun name => quoted name +:+ " = ?") <$> names) +:+ (" WHERE " +:+ (quoted "id" +:+ " = ?"))))))
            (zip_with mkParam names values ++ [mkParam "id" id]);
      affected ← sql_answer r;
      if (affected =? 0)%Z then fail (missing_row entityName)
      else
        r ← executeQuery conn ("SELECT * FROM " +:+ (quoted (es_name schema) +:+ (" WHERE " +:+ (quoted "id" +:+ " = ?"))))
              [mkParam "id" id];
        rows ← sql_answer r;
        first_row schema false (missing_row entityName) rows
  end.

Fixpoint mysql_create_loop (entityName : string) (records : list json) (inserted : Z) : Op State Z :=
  match records with
  | [] => mret inserted
  | record :: records =>
      explained "createMany aborted: " (mysql_create entityName record);;
      mysql_create_loop entityName records (inserted + 1)
  end.
Definition mysql_createMany (entityName : string) (records : list json) : Op State Z := mysql_create_loop entityName records 0.
End MySqlOperations.

(** ** A database of texts *)

(** Rows by identifier, kept by the statements that begin with INSERT, SELECT and
    DELETE; it answers BEGIN and ROLLBACK as a database does. *)
Record TextDb := mkTextDb { td_rows : gmap string SqlRow; td_saved : option (gmap string SqlRow); td_log : list string }.
Definition param (name : string) (params : list SqlParam) : option string :=
  sp_value <$> List.find (fun p => String.eqb (sp_name p) name) params.
Definition text_statement (sql : string) (params : list SqlParam) : Op TextDb (SqlError + list SqlRow) := fun d =>
  let d := mkTextDb (td_rows d) (td_saved d) (td_log d ++ [sql]) in
  if String.prefix "BEGIN" sql then (Ok (inr []), mkTextDb (td_rows d) (Some (td_rows d)) (td_log d))
  else if String.prefix "ROLLBACK" sql then (Ok (inr []), mkTextDb (default (td_rows d) (td_saved d)) None (td_log d))
  else match param "id" params with
  | None => (Ok (inr (map_to_list (td_rows d)).*2), d)
  | Some id =>
      if String.prefix "INSERT" sql then
        match td_rows d !! id with
        | Some _ => (Ok (inl (mkSqlError UniqueViolation ("duplicate key " +:+ id))), d)
        | None =>
            let row := list_to_map ((fun p => (sp_name p, sp_value p)) <$> params) in
            (Ok (inr [row]), mkTextDb (<[id := row]> (td_rows d)) (td_saved d) (td_log d))
        end
      else match td_rows d !! id with
           | Some row => (Ok (inr [row]), if String.prefix "DELETE" sql
               then mkTextDb (delete id (td_rows d)) (td_saved d) (td_log d) else d)
           | None => (Ok (inr []), d)
           end
  end.
#[export] Instance text_server : SqlServer TextDb := {|
  runQuery := text_statement;
  runNonQuery sql params := r ← text_statement sql params;
    mret (match (r : SqlError + list SqlRow) with inl e => inl e | inr rows => inr (Z.of_nat (length rows)) end);
|}.
