(* ===== verification/SqlSafety.v ===== *)
(** * What the SQL adapter keeps to, and what it does not

    Theorems about SqlAdapter.v: the parameters of an INSERT or UPDATE stand where
    its placeholders do; no answer holds a sensitive field, but a grouped listing
    may; a field the schema has not stops a listing before the database; and the
    transactions, which send no statement, undo nothing. *)

From Stdlib Require Import SpecFloat.
From S2P Require Import Prelude CxxString CxxStd Store Json Adapter AccessControl EntityRoutes BulkRoutes SqlWhere SqlAdapter.

Open Scope string_scope.

(** ** Statements and parameters *)

Section Aligned.
Context {jl : JsonLib} (d : Dialect).

Lemma insert_columns_spec data fields ps i :
  params_of_fields data "" fields = Ok ps ->
  insert_columns d data fields i =
    (quoteId d <$> (sp_name <$> ps), placeholder d <$> seqZ i (Z.of_nat (length ps))).
Proof.
  revert ps i. induction fields as [|field fields IH]; intros ps i; cbn [params_of_fields insert_columns];
    [by intros [= <-]|].
  assert (forall p rest, params_of_fields data "" fields = Ok rest -> sp_name p = fd_name field ->
    (let '(names, holes) := insert_columns d data fields (i + 1) in
     (quoteId d (fd_name field) :: names, placeholder d i :: holes)) =
    (quoteId d <$> (sp_name <$> (p :: rest)), placeholder d <$> seqZ i (Z.of_nat (length (p :: rest))))) as Hpush.
  { intros p rest Hrest Hp. rewrite (IH rest) by done. cbn [length fmap list_fmap]. rewrite Hp, (seqZ_cons i) by lia.
    replace (Z.pred (Z.of_nat (S (length rest)))) with (Z.of_nat (length rest)) by lia.
    by replace (Z.succ i) with (i + 1)%Z by lia. }
  destruct (String.eqb (fd_name field) "createdAt"); [apply IH|].
  destruct (String.eqb_spec (fd_name field) "id") as [Hid|Hid].
  - change (is_empty "") with true. destruct (string_member data "id") as [id|]; [|apply IH].
    destruct (is_empty id); [apply IH|]. destruct (params_of_fields data "" fields) as [rest|e|x|] eqn:Hr; [|done..].
    intros [= <-]. by apply Hpush.
  - unfold has_member. destruct (member data (fd_name field)) as [v|]; [|apply IH].
    destruct (jsonValueToString v) as [value|e|x|]; [|done..]. cbn.
    destruct (params_of_fields data "" fields) as [rest|e|x|] eqn:Hr; [|done..]. intros [= <-]. by apply Hpush.
Qed.

Lemma params_of_update data id fields ps :
  id <> "" -> params_of_fields data id fields = Ok ps ->
  sp_name <$> ps =
    List.filter (fun name => negb (String.eqb name "id" || String.eqb name "createdAt") && has_member data name)
      (fd_name <$> fields).
Proof.
  intros Hid. revert ps. induction fields as [|field fields IH]; intros ps; cbn [params_of_fields]; [by intros [= <-]|].
  cbn [fmap list_fmap List.filter]. rewrite (proj2 (is_empty_false id) Hid).
  destruct (String.eqb_spec (fd_name field) "createdAt") as [->|Hc]; [apply IH|].
  destruct (String.eqb_spec (fd_name field) "id") as [->|Hi]; [apply IH|]. cbn [orb negb andb].
  unfold has_member at 1. destruct (member data (fd_name field)) as [v|]; [|apply IH].
  destruct (jsonValueToString v) as [value|e|x|]; [|done..]. cbn.
  destruct (params_of_fields data id fields) as [rest|e|x|] eqn:Hr; [|done..]. intros [= <-]. cbn. by rewrite (IH rest).
Qed.

(** The value of a parameter is the text of the member it is named after. *)
Definition carries_member (data : json) (p : SqlParam) : Prop :=
  exists v, member data (sp_name p) = Some v /\ jsonValueToString v = Ok (sp_value p).
Lemma params_carry data prependId fields ps :
  params_of_fields data prependId fields = Ok ps -> Forall (carries_member data) ps.
Proof.
  revert ps. induction fields as [|field fields IH]; intros ps; cbn [params_of_fields]; [by intros [= <-]|].
  destruct (String.eqb (fd_name field) "createdAt"); [apply IH|]. destruct (String.eqb (fd_name field) "id").
  - destruct (is_empty prependId); [|apply IH]. destruct (string_member data "id") as [id|] eqn:Hm; [|apply IH].
    destruct (is_empty id); [apply IH|]. destruct (params_of_fields data prependId fields) as [rest|e|x|]; [|done..].
    intros [= <-]. constructor; [|by apply IH]. exists (JString id). split; [|done]. unfold string_member in Hm. cbn.
    repeat case_match; by simplify_eq.
  - destruct (member data (fd_name field)) as [v|] eqn:Hm; [|apply IH].
    destruct (jsonValueToString v) as [value|e|x|] eqn:Hv; [|done..]. cbn.
    destruct (params_of_fields data prependId fields) as [rest|e|x|]; [|done..]. intros [= <-].
    constructor; [by exists v|by apply IH].
Qed.

(** The parameters stand where the placeholders do.  An INSERT names the columns
    of its parameters and gives them the placeholders 1 to n in order; an UPDATE
    keeps 1 for the identifier and numbers its columns from 2 on; and each
    parameter carries the text of the member of its name.  An UPDATE that sets
    nothing is no statement at all. *)
Theorem statements_aligned schema data id ps :
  id <> "" ->
  (jsonToParams schema data "" = Ok ps ->
     Forall (carries_member data) ps /\
     buildInsertSql d schema data =
       "INSERT INTO " +:+ (quoteId d (es_name schema) +:+ (" (" +:+ (sql_join ", " (quoteId d <$> (sp_name <$> ps)) +:+ (") " +:+
       ("VALUES (" +:+ (sql_join ", " (placeholder d <$> seqZ 1 (Z.of_nat (length ps))) +:+ (") " +:+
       ("RETURNING " +:+ buildFieldList d schema))))))))) /\
  (jsonToParams schema data id = Ok ps ->
     exists rest, ps = mkParam "id" id :: rest /\ Forall (carries_member data) rest /\
       buildUpdateSql d schema data =
         match rest with
         | [] => ""
         | _ => "UPDATE " +:+ (quoteId d (es_name schema) +:+ (" SET " +:+ (sql_join ", " (equal_to d (sp_name <$> rest) 2) +:+
                (" WHERE " +:+ (quoteId d "id" +:+ (" = " +:+ (placeholder d 1 +:+ (" RETURNING " +:+ buildFieldList d schema))))))))
         end).
Proof.
  intros Hid. unfold jsonToParams. split.
  - destruct (params_of_fields data "" (es_fields schema)) as [l|e|x|] eqn:Hl; [|done..]. intros [= <-].
    split; [by eapply params_carry|]. unfold buildInsertSql. by rewrite (insert_columns_spec _ _ _ _ Hl).
  - destruct (params_of_fields data id (es_fields schema)) as [l|e|x|] eqn:Hl; [|done..].
    cbn. rewrite (proj2 (is_empty_false id) Hid). intros [= <-]. exists l. split; [done|].
    split; [by eapply params_carry|]. unfold buildUpdateSql, updated_fields.
    rewrite <- (params_of_update data id (es_fields schema) l Hid Hl). by destruct l.
Qed.
End Aligned.

(** ** Sensitive fields *)

Section Sensitive.
Context {W : Type} {S : SqlServer W} {jl : JsonLib} (d : Dialect) (schemas : gmap string EntitySchema).
Implicit Types s : SqlState W.

(** A name no field open to callers has. *)
Definition secret (schema : EntitySchema) (f : string) : Prop :=
  forall field, field ∈ es_fields schema -> fd_name field = f -> fd_sensitive field = true.
Definition hides (schema : EntitySchema) (v : json) : Prop := forall f, secret schema f -> member v f = None.

Lemma row_members_hide row fields f acc v :
  (forall field, field ∈ fields -> fd_name field = f -> fd_sensitive field = true) ->
  row_members false row fields acc = Ok v -> member v f = member acc f.
Proof.
  revert acc. induction fields as [|field fields IH]; intros acc Hf; cbn [row_members]; [by intros [= <-]|].
  assert (forall field', field' ∈ fields -> fd_name field' = f -> fd_sensitive field' = true) as Hrest
    by (intros; apply Hf; [by right|done]).
  destruct (fd_sensitive field) eqn:Hs; cbn [andb negb]; [by apply IH|].
  destruct (column_json field _) as [x|e|x|]; [|done..]. cbn.
  destruct (assign_member acc (fd_name field) x) as [acc'|e|y|] eqn:Ha; [|done..]. cbn. intros Hrun.
  rewrite (IH _ Hrest Hrun). assert (f <> fd_name field) as Hne.
  { intros ->. specialize (Hf field ltac:(by left) eq_refl). congruence. }
  destruct acc as [| | | | | |m]; try done; cbn in Ha; injection Ha as <-; cbn.
  - by destruct (String.eqb_spec f (fd_name field)).
  - rewrite obj_get_set. by destruct (String.eqb_spec f (fd_name field)).
Qed.
Lemma rowToJson_hides schema row v : rowToJson schema row false = Ok v -> hides schema v.
Proof. intros Hrow f Hf. by rewrite (row_members_hide _ _ f JNull v Hf Hrow). Qed.

(** A step whose answer, when it has one, satisfies [P]. *)
Definition only {A} (P : A -> Prop) (m : Op (SqlState W) A) : Prop := forall s a s', m s = (Ok a, s') -> P a.
Lemma only_bind {A B} (P : B -> Prop) (m : Op (SqlState W) A) k : (forall a, only P (k a)) -> only P (m ≫= k).
Proof. intros Hk s b s' (a & s1 & _ & Ha)%run_bind_inv. by eapply Hk. Qed.
Lemma only_first_row schema e rows : only (hides schema) (first_row schema false e rows).
Proof.
  intros s a s'. destruct rows as [|row rows]; [done|]. cbn. intros [= Hr _]. by eapply rowToJson_hides.
Qed.
Lemma only_fail {A} (P : A -> Prop) e : only P (fail e). Proof. done. Qed.
(** Behind the lookup of the schema. *)
Lemma only_schema {A} (P : A -> Prop) e schema k :
  schemas !! e = Some schema -> only P (k schema) -> only P (schema_of schemas e ≫= k).
Proof. intros He Hk s a s'. unfold schema_of. rewrite He. apply Hk. Qed.

Lemma only_list_rows schema options conn page limit offset :
  only (fun r => Forall (hides schema) (lr_items r)) (list_rows d schema options conn page limit offset).
Proof.
  unfold list_rows. do 6 (apply only_bind; intros ?). intros s r s' (found & s1 & Hf & Hr)%run_bind_inv.
  injection Hr as <- _. cbn. unfold of_result in Hf. injection Hf as Hf _.
  clear s s1 s' a3. revert found Hf. induction a4 as [|row rows IH]; intros found; cbn; [by intros [= <-]|].
  destruct (rowToJson schema row false) as [v|e|x|] eqn:Hv; [|done..]. cbn.
  destruct (mapM _ rows) as [rest|e|x|] eqn:Hm; [|done..]. intros [= <-].
  constructor; [by eapply rowToJson_hides|by apply IH].
Qed.

(** C18. No answer of the adapter holds a sensitive field.  Creating, reading,
    updating and finding rows, and listings without aggregates, answer only the
    fields of the schema that are not sensitive, whatever the database answers. *)
Theorem answers_hide_sensitive e schema :
  schemas !! e = Some schema ->
  (forall data, only (hides schema) (create d schemas e data)) /\
  (forall id, only (hides schema) (read d schemas e id)) /\
  (forall id data, only (hides schema) (update d schemas e id data)) /\
  (forall filter, only (hides schema) (findFirst d schemas e filter)) /\
  (forall f v cd ud, only (hides schema) (upsert d schemas e f v cd ud)) /\
  (forall options, ro_aggregates options = [] ->
     only (fun r => Forall (hides schema) (lr_items r)) (list_entities d schemas e options)).
Proof.
  intros He.
  assert (forall data, only (hides schema) (create d schemas e data)) as Hcreate
    by (intros data; unfold create; apply (only_schema _ _ schema); [done|];
        do 4 (apply only_bind; intros ?); apply only_first_row).
  assert (forall id data, only (hides schema) (update d schemas e id data)) as Hupdate
    by (intros id data; unfold update; apply (only_schema _ _ schema); [done|];
        do 4 (apply only_bind; intros ?); apply only_first_row).
  split_and!; [done| |done| | |].
  - intros id. unfold read, read_row. apply (only_schema _ _ schema); [done|].
    do 3 (apply only_bind; intros ?); apply only_first_row.
  - intros filter. unfold findFirst. apply (only_schema _ _ schema); [done|].
    do 4 (apply only_bind; intros ?); apply only_first_row.
  - intros f v cd ud s a s'. unfold upsert. destruct (findByField d schemas e f v s) as [[x|err|x|] s1]; [|apply Hcreate|done..].
    apply only_bind. intros v'. apply only_bind. intros id. apply Hupdate.
  - intros options Hagg. unfold list_entities. apply (only_schema _ _ schema); [done|].
    do 2 (apply only_bind; intros ?). rewrite Hagg. apply only_list_rows.
Qed.
End Sensitive.

(** ** Fields the schema has not *)

Section Unknown.
Context {W : Type} {S : SqlServer W} {jl : JsonLib} (d : Dialect) (schemas : gmap string EntitySchema).
Implicit Types s : SqlState W.

(** The names of a WHERE clause. *)
Definition where_uses (options : RichOptions) (f : string) : Prop :=
  is_Some (opt_filter (ro_base options) !! f) \/
  (exists c, c ∈ ro_conditions options /\ fc_field c = f) \/
  (exists g c, g ∈ ro_filter_groups options /\ c ∈ fg_conditions g /\ fc_field c = f).
(** The names a listing uses. *)
Definition uses (options : RichOptions) (f : string) : Prop :=
  where_uses options f \/
  (ro_aggregates options = [] /\ is_Some (opt_sort (ro_base options) !! f)) \/
  (ro_aggregates options <> [] /\
   (f ∈ ro_group_by options \/ exists a, a ∈ ro_aggregates options /\ ag_field a = f /\ f <> "*")).

(** A refusal that leaves the database alone. *)
Definition refuses {A} (m : Op (SqlState W) A) : Prop :=
  forall s, exists what, (m s).1 = Err (validationError what) /\ sq_server (m s).2 = sq_server s.
Definition quiet {A} (m : Op (SqlState W) A) : Prop :=
  forall s, sq_server (m s).2 = sq_server s /\
    ((exists a, (m s).1 = Ok a) \/ exists what, (m s).1 = Err (validationError what)).
Lemma refuses_bind {A B} (m : Op (SqlState W) A) (k : A -> Op (SqlState W) B) : refuses m -> refuses (m ≫= k).
Proof.
  intros Hm s. destruct (Hm s) as (what & H1 & H2). exists what. unfold mbind, Op_bind.
  destruct (m s) as [r s']. cbn in *. by subst r.
Qed.
Lemma quiet_refuses {A B} (m : Op (SqlState W) A) (k : A -> Op (SqlState W) B) :
  quiet m -> (forall a, refuses (k a)) -> refuses (m ≫= k).
Proof.
  intros Hm Hk s. destruct (Hm s) as [H1 [[a H2]|[what H2]]]; unfold mbind, Op_bind; destruct (m s) as [r s']; cbn in *; subst r.
  - destruct (Hk a s') as (what & H3 & H4). exists what. by rewrite H4.
  - by exists what.
Qed.

(** A builder refuses a field that is not valid, or answers. *)
Definition honest {A} (m : Build A) : Prop :=
  forall b, (exists a b', m b = (Ok a, b')) \/ exists what b', m b = (Throw (bad_argument what), b').
Definition rejects {A} (m : Build A) : Prop := forall b, exists what b', m b = (Throw (bad_argument what), b').
Lemma quiet_builder {A} (m : Build A) ps : honest m -> quiet (run_builder m ps).
Proof.
  intros Hm s. unfold run_builder. destruct (Hm (ps, 1%Z)) as [(a & [ps' i'] & ->)|(what & [ps' i'] & ->)]; cbn; eauto.
Qed.
Lemma refuses_builder {A} (m : Build A) ps : rejects m -> refuses (run_builder m ps).
Proof. intros Hm s. unfold run_builder. destruct (Hm (ps, 1%Z)) as (what & [ps' i'] & ->). by exists what. Qed.

Lemma honest_where conditions groups legacy valid dialect : honest (build_where conditions groups legacy valid dialect).
Proof.
  intros b. pose proof (answers_where valid dialect conditions groups legacy b) as H.
  destruct (build_where _ _ _ _ _ b) as [[a|e|[]|] b'] eqn:Hr; cbn in H; try done; [left|right]; by do 2 eexists.
Qed.
Lemma rejects_where conditions groups legacy valid dialect c :
  c ∈ conjuncts conditions groups legacy ≫= id -> fc_field c ∉ valid ->
  rejects (build_where conditions groups legacy valid dialect).
Proof.
  intros Hc Hv b. pose proof (answers_where valid dialect conditions groups legacy b) as H.
  destruct (build_where _ _ _ _ _ b) as [[a|e|[]|] b'] eqn:Hr; cbn in H; try done; [|by do 2 eexists].
  rewrite Forall_forall in H. by specialize (H c Hc).
Qed.

(** Loops that validate each of their names. *)
Lemma honest_bind {A B} (m : Build A) (k : A -> Build B) : honest m -> (forall a, honest (k a)) -> honest (m ≫= k).
Proof.
  intros Hm Hk b. unfold mbind, Op_bind. destruct (Hm b) as [(a & b' & ->)|(what & b' & ->)]; [apply Hk|right; by do 2 eexists].
Qed.
Lemma honest_ret {A} (a : A) : honest (mret a). Proof. intros b. left. by do 2 eexists. Qed.
Lemma honest_validate f valid : honest (validateField f valid).
Proof. intros b. unfold validateField. case_bool_decide; [left|right]; by do 2 eexists. Qed.
Lemma honest_mapM {X A} (h : X -> Build A) l : (forall x, honest (h x)) -> honest (mapM h l).
Proof.
  intros Hh. induction l as [|x l IH]; [apply honest_ret|]. apply honest_bind; [done|]. intros a.
  apply honest_bind; [done|]. intros. apply honest_ret.
Qed.
Lemma rejects_bind {A B} (m : Build A) (k : A -> Build B) : rejects m -> rejects (m ≫= k).
Proof. intros Hm b. unfold mbind, Op_bind. destruct (Hm b) as (what & b' & ->). by do 2 eexists. Qed.
Lemma rejects_after {A B} (m : Build A) (k : A -> Build B) : honest m -> (forall a, rejects (k a)) -> rejects (m ≫= k).
Proof.
  intros Hm Hk b. unfold mbind, Op_bind. destruct (Hm b) as [(a & b' & ->)|(what & b' & ->)]; [apply Hk|by do 2 eexists].
Qed.
Lemma rejects_mapM {X A} (h : X -> Build A) l x :
  (forall y, honest (h y)) -> x ∈ l -> rejects (h x) -> rejects (mapM h l).
Proof.
  intros Hh Hx Hr. induction Hx as [x l|x y l Hx IH]; [by apply rejects_bind|].
  apply (rejects_after (h y)); [done|]. intros a. by apply rejects_bind, IH.
Qed.
Lemma rejects_validate {A} f valid (m : Build A) : f ∉ valid -> rejects (validateField f valid;; m).
Proof. intros Hf. apply rejects_bind. intros b. unfold validateField. rewrite bool_decide_false by done. by do 2 eexists. Qed.

Lemma rejects_order sort valid default_field dialect f :
  is_Some (sort !! f) -> f ∉ valid -> rejects (buildOrderBy sort valid default_field dialect).
Proof.
  intros [dir Hdir] Hf. unfold buildOrderBy. rewrite bool_decide_false by (by intros ->).
  apply rejects_bind, (rejects_mapM _ _ (f, dir)).
  - intros kv. apply honest_bind; [apply honest_validate|]. intros. apply honest_ret.
  - by apply elem_of_map_items.
  - by apply rejects_validate.
Qed.

Lemma quiet_unknown_in valid what fields : quiet (unknown_in valid what fields).
Proof. intros s. unfold unknown_in. destruct (List.filter _ fields) as [|f l]; cbn; eauto. Qed.
Lemma refuses_unknown_in valid what fields f : f ∈ fields -> f ∉ valid -> refuses (unknown_in valid what fields).
Proof.
  intros Hf Hv s. unfold unknown_in. destruct (List.filter _ fields) as [|g l] eqn:Hl; [|by eexists].
  assert (List.In f (List.filter (fun f => negb (bool_decide (f ∈ valid))) fields)) as Hin
    by (apply filter_In; rewrite bool_decide_false by done; by rewrite <- list_elem_of_In).
  by rewrite Hl in Hin.
Qed.

Lemma where_uses_conjunct options f :
  where_uses options f ->
  exists c, c ∈ conjuncts (ro_conditions options) (ro_filter_groups options) (opt_filter (ro_base options)) ≫= id /\ fc_field c = f.
Proof.
  unfold conjuncts. rewrite !bind_app, filter_groups_bind. setoid_rewrite elem_of_app. setoid_rewrite elem_of_app.
  intros [[v Hv]|[(c & Hc & Hcf)|(g & c & Hg & Hc & Hcf)]].
  - exists (equality (f, v)). split; [left|done]. apply list_elem_of_bind. exists [equality (f, v)].
    split; [by left|]. apply (list_elem_of_fmap_2 (fun kv => [equality kv])). by apply elem_of_map_items.
  - exists c. split; [right; left|done]. apply list_elem_of_bind. exists [c].
    split; [by left|]. by apply (list_elem_of_fmap_2 (fun c => [c])).
  - exists c. split; [right; right|done]. apply list_elem_of_bind. by exists g.
Qed.
Lemma refuses_where {B} options valid dialect f (k : string * list SqlParam -> Op (SqlState W) B) :
  f ∉ valid -> where_uses options f \/ (forall a, refuses (k a)) ->
  refuses (run_builder (build_where (ro_conditions options) (ro_filter_groups options) (opt_filter (ro_base options))
    valid dialect) [] ≫= k).
Proof.
  intros Hf [Hw|Hk]; [|apply quiet_refuses; [apply quiet_builder, honest_where|done]].
  apply refuses_bind, refuses_builder. destruct (where_uses_conjunct _ _ Hw) as (c & Hc & <-).
  by apply (rejects_where _ _ _ _ _ c).
Qed.

(** C37. A listing that uses a field the schema has not sends nothing.  One that names it
    in its filter, in a condition or in a group of conditions, in the order of a listing
    of rows, or in the grouping or as the field of an aggregate of a listing with
    aggregates, is refused with a validation error, and no statement is sent: in a
    pool that has a connection, and for an offset that fits an [int].  What a listing
    does not use it does not look at (an order with aggregates, a grouping without),
    and the alias of an aggregate is no field: it goes into the statement unchecked
    (alias_breaks_out). *)
Theorem listing_refuses_unknown e schema options f :
  schemas !! e = Some schema -> uses options f -> f ∉ valid_fields schema ->
  forall s, sq_pool s <> [] ->
    (let base := ro_base options in
     in_int (((if 0 <? opt_page base then opt_page base else 1) - 1) * (if 0 <? opt_limit base then opt_limit base else 50))%Z = true) ->
    exists what, (list_entities d schemas e options s).1 = Err (validationError what) /\
      sq_server (list_entities d schemas e options s).2 = sq_server s.
Proof.
  intros He Huse Hf s Hpool Hint. cbn zeta in Hint.
  set (base := ro_base options) in *. set (limit := if (0 <? opt_limit base)%Z then opt_limit base else 50%Z) in *.
  set (page := if (0 <? opt_page base)%Z then opt_page base else 1%Z) in *.
  set (m := match ro_aggregates options with
            | [] => list_rows d schema options 0 page limit ((page - 1) * limit)
            | _ => list_aggregates d schema options 0 page limit end).
  assert (exists s0, sq_server s0 = sq_server s /\ list_entities d schemas e options s = m s0) as (s0 & Hs0 & ->).
  { unfold list_entities, schema_of, connection, acquire. rewrite He. destruct (sq_pool s) as [|c rest] eqn:Hp; [done|].
    exists (s <| sq_pool := true :: rest |>). split; [done|]. unfold mbind, Op_bind, mret, Op_ret. cbn. rewrite Hp.
    fold base limit page. rewrite Hint. subst m. by destruct (ro_aggregates options). }
  rewrite <- Hs0. revert s0 Hs0. assert (refuses m) as Hm; [|intros s0 _; apply Hm]. clear s Hpool Hint.
  subst m. unfold uses in Huse. destruct (ro_aggregates options) as [|a0 aggs] eqn:Hagg.
  - unfold list_rows. apply (refuses_where _ _ _ f); [done|]. destruct Huse as [H|[[_ H]|[H _]]]; [by left|right|done].
    intros built. apply refuses_bind, refuses_builder, (rejects_order _ _ _ _ f); done.
  - unfold list_aggregates. destruct Huse as [H|[[H _]|[_ [H|(a & Ha & Haf & Hstar)]]]]; try done.
    + apply quiet_refuses; [apply quiet_unknown_in|intros []]. apply quiet_refuses; [apply quiet_unknown_in|intros []].
      apply (refuses_where _ _ _ f); [done|by left].
    + by apply refuses_bind, (refuses_unknown_in _ _ _ f).
    + apply quiet_refuses; [apply quiet_unknown_in|intros []]. apply refuses_bind, (refuses_unknown_in _ _ _ f); [|done].
      apply list_elem_of_In, filter_In. split; [|by destruct (String.eqb_spec f "*")].
      apply list_elem_of_In. rewrite Hagg, <- Haf. by apply list_elem_of_fmap_2.
Qed.
End Unknown.

(** ** Transactions *)

Lemma sql_answer_server {W A} (r : SqlError + A) (s : SqlState W) : sq_server (sql_answer r s).2 = sq_server s.
Proof. by destruct r. Qed.

(** The transactions of the SQL adapter undo nothing.  Beginning, committing and
    rolling back send the database no statement: whatever an operation of the
    adapter did to the database since the beginning, it is still done after the
    rollback, which answers success; and a second beginning raises an exception. *)
Theorem sql_transactions_undo_nothing {W} {S : SqlServer W} (s : SqlState W) :
  sq_server (beginTransaction s).2 = sq_server s /\
  sq_server (commitTransaction s).2 = sq_server s /\
  sq_server (rollbackTransaction s).2 = sq_server s /\
  (tx_connection_ s = None -> sq_pool s <> [] ->
   exists s1, beginTransaction s = (Ok true, s1) /\
     forall w, exists s2, rollbackTransaction (s1 <| sq_server := w |>) = (Ok true, s2) /\ sq_server s2 = w /\
       beginTransaction (s1 <| sq_server := w |>) =
         (Throw (runtime_error "Transaction already active"), s1 <| sq_server := w |>)).
Proof.
  destruct s as [w pool [[[] ?]|] [c|]]; destruct pool as [|c' pool]; unfold beginTransaction, commitTransaction, rollbackTransaction,
    end_transaction, connection, acquire; cbn; split_and!; try done; intros Hn Hp; try done; eexists; (split; [reflexivity|]);
    intros w'; eexists; split_and!; reflexivity.
Qed.

(** ** A small database *)

Definition field_of (name : string) (sensitive : bool) : EntityField :=
  mkField name "string" true false false None None None None None None sensitive.
Definition user_schema : EntitySchema :=
  mkSchema "User" "User" [field_of "id" false; field_of "name" false; field_of "passwordHash" true] [] ∅ []
    (mkQueryConfig [] [] [] 0 0).
Definition user_schemas : gmap string EntitySchema := {["User" := user_schema]}.
Definition user_db : SqlState TextDb :=
  mkSqlState (mkTextDb {["1" := {["id" := "1"; "name" := "ada"; "passwordHash" := "x9"]}]} None []) [false; false] None None.
Definition user (id : string) : json := JObject [("id", JString id); ("name", JString "bob"); ("tenantId", JString "acme")].
Definition texts : JsonLib := scalar_json.

(** The alias of an aggregate, which a caller gives in the address, is put between
    quotes as it is: with a quote in it the rest is read as SQL. *)
Theorem alias_breaks_out :
  (buildAggregateSelect [mkAggregate Count "*" ("n" +:+ (dquote +:+ " FROM secrets --"))] [] ∅ "sqlite" ([], 1%Z)).1 =
  Ok ("COUNT(*) AS " +:+ (dquote +:+ ("n" +:+ (dquote +:+ (" FROM secrets --" +:+ dquote))))).
Proof. vm_compute. reflexivity. Qed.

(** A creation of many that fails at its second record answers a conflict and keeps
    the first: the rollback it runs is no statement. *)
Lemma createMany_keeps_rows :
  let r := createMany (jl := texts) Postgres user_schemas "User" [user "2"; user "1"] user_db in
  r.1 = Err (conflict "duplicate key 1") /\ td_rows (sq_server r.2) !! "2" <> None /\
  length (td_log (sq_server r.2)) = 2.
Proof. vm_compute. split_and!; discriminate || reflexivity. Qed.

(** So a bulk request over this adapter says that it failed, and has created the
    items before the one that did. *)
Lemma bulk_create_keeps_rows :
  let r := @handleBulkCreate _ (sql_adapter (jl := texts) Postgres user_schemas) (fun _ => "")
             (entity_path "acme" "core" "User") (JArray [user "2"; user "1"]) user_db in
  r.1 = Ok (Failure "Bulk create failed at item 1: duplicate key 1" 400) /\
  td_rows (sq_server r.2) !! "2" <> None.
Proof. vm_compute. split; discriminate || reflexivity. Qed.

(** A grouped listing answers the columns it groups by as the database gave them,
    sensitive ones too. *)
Definition by_password : RichOptions :=
  mkOptions (mkListOptions ∅ ∅ 1 20) [] [] [] [mkAggregate Count "*" "n"] ["passwordHash"] [] false 0.
Lemma grouping_shows_sensitive :
  secret user_schema "passwordHash" /\
  exists r, (list_entities (jl := texts) Postgres user_schemas "User" by_password user_db).1 = Ok r /\
    (fun v => string_member v "passwordHash") <$> lr_items r = [Some "x9"].
Proof.
  split; [|eexists; split; [vm_compute; reflexivity|vm_compute; reflexivity]].
  intros f Hf. unfold user_schema in Hf. cbn in Hf. set_solver.
Qed.

(** The names of the filter of a deletion of many are not checked and go into the
    statement. *)
Lemma deleteMany_sends_names :
  let r := deleteMany (jl := texts) Postgres user_schemas "User" (JObject [("1=1 OR id", JString "0")]) user_db in
  td_log (sq_server r.2) = ["DELETE FROM " +:+ (quoteId Postgres "User" +:+ " WHERE 1=1 OR id = $1")].
Proof. vm_compute. reflexivity. Qed.

(** An UPDATE whose identifier is empty is sent for the row the data names. *)
Lemma update_without_id :
  jsonToParams (jl := texts) user_schema (JObject [("id", JString "9"); ("name", JString "eve")]) "" =
    Ok [mkParam "id" "9"; mkParam "name" "eve"].
Proof. vm_compute. reflexivity. Qed.

(** A double loses its fraction on the way to the database. *)
Lemma fraction_is_lost : jsonValueToString (jl := texts) (JFloat (S754_finite false 7 (-1))) = Ok "3".
Proof. vm_compute. reflexivity. Qed.

(** Two operations at a time share a connection: the pool hands out its first
    again and again. *)
Lemma pool_is_not_exclusive {W} (s : SqlState W) :
  sq_pool s <> [] -> (acquire s).1 = Ok (Some 0) /\ (acquire (acquire s).2).1 = Ok (Some 0).
Proof. unfold acquire. destruct s as [w [|c pool] m t]; cbn; [done|]. by split. Qed.

Lemma statements_aligned_witness :
  "1" <> "" /\
  buildInsertSql Postgres user_schema (user "2") =
    "INSERT INTO " +:+ (quoteId Postgres "User" +:+ (" (" +:+ (quoteId Postgres "id" +:+ (", " +:+ (quoteId Postgres "name" +:+
      (") VALUES ($1, $2) RETURNING " +:+ buildFieldList Postgres user_schema)))))).
Proof.
  assert ("1" <> "") as H1 by discriminate. split; [exact H1|].
  destruct (statements_aligned (jl := texts) Postgres user_schema (user "2") "1" [mkParam "id" "2"; mkParam "name" "bob"] H1)
    as [H _].
  destruct H as [_ Hsql]; [vm_compute; reflexivity|]. exact Hsql.
Defined.

Lemma answers_hide_sensitive_witness :
  user_schemas !! "User" = Some user_schema /\
  exists v s, read (jl := texts) Postgres user_schemas "User" "1" user_db = (Ok v, s) /\
    string_member v "name" = Some "ada" /\ member v "passwordHash" = None.
Proof.
  assert (user_schemas !! "User" = Some user_schema) as He by reflexivity. split; [exact He|].
  destruct (answers_hide_sensitive (jl := texts) Postgres user_schemas "User" user_schema He) as (_ & Hread & _).
  destruct (read (jl := texts) Postgres user_schemas "User" "1" user_db) as [[v|e|x|] s] eqn:Hr;
    [|vm_compute in Hr; discriminate..].
  exists v, s. split; [reflexivity|]. split; [vm_compute in Hr; injection Hr as <- _; reflexivity|].
  apply (Hread "1" user_db v s Hr). intros f Hf Hn. unfold user_schema in Hf. cbn in Hf. set_solver.
Defined.

Definition by_nothing : RichOptions := plain_options (mkListOptions {["x' OR 1" := "1"]} ∅ 1 20).
Lemma listing_refuses_unknown_witness :
  (list_entities (jl := texts) Postgres user_schemas "User" by_nothing user_db).1 =
    Err (validationError "Unknown field: x' OR 1") /\
  exists what, (list_entities (jl := texts) Postgres user_schemas "User" by_nothing user_db).1 = Err (validationError what) /\
    sq_server (list_entities (jl := texts) Postgres user_schemas "User" by_nothing user_db).2 = sq_server user_db.
Proof.
  split; [vm_compute; reflexivity|].
  apply (listing_refuses_unknown (jl := texts) Postgres user_schemas "User" user_schema by_nothing "x' OR 1").
  - reflexivity.
  - left. left. exists "1". reflexivity.
  - apply (bool_decide_eq_false _). vm_compute. reflexivity.
  - discriminate.
  - reflexivity.
Defined.

Lemma sql_transactions_undo_nothing_witness :
  exists s1, beginTransaction user_db = (Ok true, s1).
Proof.
  destruct (sql_transactions_undo_nothing user_db) as (_ & _ & _ & H).
  destruct H as (s1 & H1 & _); [reflexivity|discriminate|]. exists s1. exact H1.
Defined.
