(* ===== verification/Sqlite.v ===== *)
(** * The SQLite adapter

    Models src/adapters/sqlite: the statements of sqlite_query_builder.cpp, the
    values of sqlite_type_converter.cpp, prepared statements, the reading of rows,
    the transaction manager, and the operations of sqlite_adapter_crud.cpp,
    sqlite_adapter_query.cpp and sqlite_adapter_bulk.cpp.  The library sqlite3 is a
    type class of its calls, by their result codes. *)

From Stdlib Require Import SpecFloat.
From S2P Require Import Prelude CxxString CxxStd Store Json Adapter AccessControl EntityRoutes SqlWhere SqlAdapter.

Open Scope string_scope.

(** ** The library *)

Definition SQLITE_OK : Z := 0.
Definition SQLITE_BUSY : Z := 5.
Definition SQLITE_LOCKED : Z := 6.
Definition SQLITE_NOTFOUND : Z := 12.
Definition SQLITE_CONSTRAINT : Z := 19.
Definition SQLITE_ROW : Z := 100.
Definition SQLITE_DONE : Z := 101.

(** A column of the current row, by its storage class; SQLite's conversions are
    operations of the class. *)
Inductive Column := NullColumn | IntegerColumn (z : Z) | FloatColumn (f : spec_float) | TextColumn (s : string).

Class Sqlite (W : Type) := {
  Stmt : Type;
  handle_open : W -> bool;
  close_handle : Op W unit;
  prepare_v2 : string -> Op W (Z * Stmt);
  bind_value_at : Stmt -> Z -> option string -> Op W Z;
  bind_int64_at : Stmt -> Z -> Z -> Op W Z;
  step : Stmt -> Op W Z;
  columns : Stmt -> W -> list (string * Column);
  finalize : Stmt -> Op W unit;
  exec : string -> Op W (Z * string);
  last_insert_rowid : W -> Z;
  changes : W -> Z;
  errmsg : W -> string;
  column_int64 : Column -> Z;
  column_text : Column -> option string;
}.

(** ** Schemas *)

(** [FieldDefinition] of schema_loader.hpp and [core::EntityField] of entity_loader.hpp,
    as far as they are used. *)
Record SchemaField := mkSchemaField {
  sf_name : string; sf_type : string; sf_primary : bool; sf_required : bool; sf_unique : bool; sf_generated : bool;
  sf_optional : bool; sf_nullable : bool; sf_sensitive : bool; sf_default_value : option string;
}.
Record CoreField := mkCoreField {
  cf_name : string; cf_type : string; cf_required : bool; cf_unique : bool; cf_primary : bool; cf_generated : bool;
  cf_nullable : bool; cf_sensitive : bool; cf_defaultValue : option string;
}.
Record CoreSchema := mkCoreSchema { cs_name : string; cs_fields : list CoreField }.

(** [entityDefToSchema]: the flag of a sensitive field is not among those copied. *)
Definition core_field (field : SchemaField) : CoreField :=
  mkCoreField (sf_name field) (sf_type field) (sf_required field) (sf_unique field) (sf_primary field)
    (sf_generated field) (sf_nullable field || sf_optional field) false (sf_default_value field).
Definition entityDefToSchema (name : string) (fields : list SchemaField) : CoreSchema :=
  mkCoreSchema name (core_field <$> fields).

(** ** Statements *)

Definition quoteId (identifier : string) : string := quoted_in dquote identifier.

(** The fields an INSERT names. *)
Definition inserted (schema : CoreSchema) (data : json) : list string :=
  List.filter (has_member data) (cf_name <$> cs_fields schema).
Definition buildInsertQuery (schema : CoreSchema) (data : json) : string :=
  let names := inserted schema data in
  "INSERT INTO " +:+ (quoteId (cs_name schema) +:+ (" (" +:+ (sql_join ", " (quoteId <$> names) +:+ (") " +:+
  ("VALUES (" +:+ (sql_join ", " ((fun _ => "?") <$> names) +:+ ")")))))).

Definition buildFieldList (schema : CoreSchema) : string := sql_join ", " (quoteId <$> (cf_name <$> cs_fields schema)).
Definition equals_hole (name : string) : string := quoteId name +:+ " = ?".
Definition buildWhereClause (filter : json) : string := sql_join " AND " (equals_hole <$> (items filter).*1).
Definition where_filter (filter : json) : string :=
  match items filter with [] => "" | _ => " WHERE " +:+ buildWhereClause filter end.

Definition buildSelectQuery (schema : CoreSchema) (filter : json) : string :=
  "SELECT " +:+ (buildFieldList schema +:+ (" FROM " +:+ (quoteId (cs_name schema) +:+ where_filter filter))).
Definition buildFindFirstQuery (schema : CoreSchema) (filter : json) : string :=
  buildSelectQuery schema filter +:+ " LIMIT 1".

Definition set_names (schema : CoreSchema) (data : json) : list string :=
  List.filter (fun name => negb (String.eqb name "id" || String.eqb name "createdAt") && has_member data name)
    (cf_name <$> cs_fields schema).
Definition where_id : string := " WHERE " +:+ (quoteId "id" +:+ " = ?").
Definition buildUpdateQuery (schema : CoreSchema) (data : json) : string :=
  match set_names schema data with
  | [] => ""
  | names => "UPDATE " +:+ (quoteId (cs_name schema) +:+ (" SET " +:+ (sql_join ", " (equals_hole <$> names) +:+ where_id)))
  end.
Definition buildDeleteQuery (schema : CoreSchema) : string := "DELETE FROM " +:+ (quoteId (cs_name schema) +:+ where_id).
Definition buildUpdateManyQuery (schema : CoreSchema) (filter data : json) : string :=
  match inserted schema data with
  | [] => ""
  | names =>
      "UPDATE " +:+ (quoteId (cs_name schema) +:+ (" SET " +:+ (sql_join ", " (equals_hole <$> names) +:+ where_filter filter)))
  end.
Definition buildDeleteManyQuery (schema : CoreSchema) (filter : json) : string :=
  "DELETE FROM " +:+ (quoteId (cs_name schema) +:+ where_filter filter).

Definition holes_of (values : list string) : string := sql_join ", " ((fun _ => "?") <$> values).
Definition conditionToSql (cond : FilterCondition) : string :=
  let field := quoteId (fc_field cond) in
  match fc_op cond with
  | Eq => field +:+ " = ?" | Ne => field +:+ " != ?" | Lt => field +:+ " < ?" | Lte => field +:+ " <= ?"
  | Gt => field +:+ " > ?" | Gte => field +:+ " >= ?" | Like => field +:+ " LIKE ?"
  | ILike => "LOWER(" +:+ (field +:+ ") LIKE LOWER(?)")
  | IsNull => field +:+ " IS NULL" | IsNotNull => field +:+ " IS NOT NULL"
  | In => field +:+ (" IN (" +:+ (holes_of (fc_values cond) +:+ ")"))
  | NotIn => field +:+ (" NOT IN (" +:+ (holes_of (fc_values cond) +:+ ")"))
  | Between => field +:+ " BETWEEN ? AND ?"
  end.

(** The fragments of WHERE: the plain filter, the conditions, the groups. *)
Definition where_fragments (options : RichOptions) : list string :=
  (equals_hole <$> (map_items (opt_filter (ro_base options))).*1) ++
  (conditionToSql <$> ro_conditions options) ++
  ((fun g => "(" +:+ (sql_join " OR " (conditionToSql <$> fg_conditions g) +:+ ")")) <$>
     List.filter (fun g => match fg_conditions g with [] => false | _ => true end) (ro_filter_groups options)).
Definition where_options (options : RichOptions) : string :=
  match where_fragments options with [] => "" | fragments => " WHERE " +:+ sql_join " AND " fragments end.
Definition group_options (options : RichOptions) : string :=
  match ro_group_by options with [] => "" | fields => " GROUP BY " +:+ sql_join ", " (quoteId <$> fields) end.

Definition buildCountQuery (schema : CoreSchema) (options : RichOptions) : string :=
  "SELECT COUNT(*) FROM " +:+ (quoteId (cs_name schema) +:+ (where_options options +:+ group_options options)).

Definition aggregate_sql (agg : AggregateSpec) : string :=
  aggFuncName (ag_func agg) +:+ ("(" +:+ (quoteId (ag_field agg) +:+ (") AS " +:+ quoteId (ag_alias agg)))).
Definition buildListQuery (schema : CoreSchema) (options : RichOptions) : string :=
  let selected := match ro_aggregates options with
                  | [] => buildFieldList schema
                  | aggs => sql_join ", " ((quoteId <$> ro_group_by options) ++ (aggregate_sql <$> aggs))
                  end in
  let order (kv : string * string) :=
    quoteId kv.1 +:+ (if String.eqb kv.2 "asc" || String.eqb kv.2 "ASC" then " ASC" else " DESC") in
  "SELECT " +:+ (selected +:+ (" FROM " +:+ (quoteId (cs_name schema) +:+ (where_options options +:+ (group_options options +:+
  ((match map_items (opt_sort (ro_base options)) with
    | [] => "" | sorted => " ORDER BY " +:+ sql_join ", " (order <$> sorted) end) +:+ " LIMIT ? OFFSET ?")))))).

(** ** Values *)

(** The text that stands for NULL among the values. *)
Definition kSqlNullSentinel : string := String "001" ("NULL" +:+ String "001" "").

Section Values.
Context {jl : JsonLib}.
Definition jsonValueToString (v : json) : Result string :=
  match v with
  | JNull => Ok kSqlNullSentinel
  | JBool b => Ok (if b then "1" else "0")
  | JInt _ | JFloat _ => z ← get_int64 v; Ok (to_string z)
  | JString s => Ok s
  | v => dump v
  end.
Definition texts_of (data : json) (names : list string) : Result (list string) :=
  mapM (fun name => jsonValueToString (default JNull (member data name))) names.
Definition filter_texts (filter : json) : Result (list string) := mapM (fun kv => jsonValueToString kv.2) (items filter).

Definition jsonToValues (schema : CoreSchema) (data : json) (prependId : string) : Result (list string) :=
  values ← texts_of data (inserted schema data);
  Ok (if is_empty prependId then values else prependId :: values).
Definition buildUpdateParams (schema : CoreSchema) (data : json) (id : string) : Result (list string) :=
  values ← texts_of data (set_names schema data); Ok (values ++ [id])%list.
Definition buildUpdateManyParams (schema : CoreSchema) (filter data : json) : Result (list string) :=
  values ← texts_of data (inserted schema data); rest ← filter_texts filter; Ok (values ++ rest)%list.
End Values.

(** [appendConditionValues] *)
Definition condition_values (cond : FilterCondition) : list string :=
  match fc_op cond with
  | IsNull | IsNotNull => []
  | In | NotIn => fc_values cond
  | Between => match fc_values cond with v0 :: v1 :: _ => [v0; v1] | _ => [] end
  | _ => [fc_value cond]
  end.
Definition buildCountParams (options : RichOptions) : list string :=
  (map_items (opt_filter (ro_base options))).*2 ++ (ro_conditions options ≫= condition_values) ++
  (ro_filter_groups options ≫= (fun g => fg_conditions g ≫= condition_values)).
Definition buildListParams (options : RichOptions) : Result (list string) :=
  let base := ro_base options in
  let limit := if (0 <? opt_limit base)%Z then opt_limit base else 50%Z in
  let offset := if (1 <? opt_page base)%Z then ((opt_page base - 1) * limit)%Z else 0%Z in
  if in_int offset then Ok (buildCountParams options ++ [to_string limit; to_string offset])%list else Undef.

(** ** Prepared statements *)

Record SqliteState (W : Type) := mkSqlite { ql_engine : W; in_transaction_ : bool }.
Arguments mkSqlite {W} _ _.
Arguments ql_engine {W} _.
Arguments in_transaction_ {W} _.

Section Operations.
Context {W : Type} {Q : Sqlite W} {jl : JsonLib} (schemas : gmap string CoreSchema).
Abbreviation State := (SqliteState W).

Definition on_engine {A} (m : Op W A) : Op State A := fun s =>
  let '(r, w) := m (ql_engine s) in (r, mkSqlite w (in_transaction_ s)).

Definition mapSqliteError (rc : Z) (context : string) : Op W Error := fun w =>
  let errorMsg := (if is_empty context then "" else context +:+ ": ") +:+
    (if handle_open w then errmsg w else "SQLite error code " +:+ to_string rc) in
  (Ok (if (rc =? SQLITE_CONSTRAINT)%Z then conflict errorMsg
       else if (rc =? SQLITE_NOTFOUND)%Z then notFound errorMsg
       else if (rc =? SQLITE_BUSY)%Z || (rc =? SQLITE_LOCKED)%Z then internal ("Database is locked: " +:+ errorMsg)
       else internal errorMsg), w).
Definition sqlite_fail {A} (rc : Z) (context : string) : Op W A := e ← mapSqliteError rc context; fail e.

Definition prepareLocked (sql : string) : Op W Stmt :=
  ready ← gets handle_open;
  if (ready : bool) then
    r ← prepare_v2 sql;
    if (r.1 =? SQLITE_OK)%Z then mret r.2 else sqlite_fail r.1 "Failed to prepare statement"
  else fail (internal "Database connection not open").

Fixpoint bindParameters (stmt : Stmt) (values : list string) (index : Z) : Op W unit :=
  match values with
  | [] => mret tt
  | value :: values =>
      rc ← bind_value_at stmt index (if String.eqb value kSqlNullSentinel then None else Some (c_str value));
      if (rc =? SQLITE_OK)%Z then bindParameters stmt values (index + 1) else sqlite_fail rc "Failed to bind parameter"
  end.

(** A statement prepared with its values; one that cannot be bound is finalized. *)
Definition or_finalized (stmt : Stmt) (m : Op W unit) : Op W Stmt := fun w =>
  match m w with
  | (Ok _, w') => (Ok stmt, w')
  | (Err e, w') => (finalize stmt;; fail e) w'
  | (r, w') => (recast r, w')
  end.
Definition executeSelect (sql : string) (values : list string) : Op W Stmt :=
  stmt ← prepareLocked sql;
  or_finalized stmt (bindParameters stmt values 1).
Definition executeStep (what sql : string) (values : list string) : Op W unit :=
  stmt ← executeSelect sql values;
  rc ← step stmt;
  finalize stmt;;
  if (rc =? SQLITE_DONE)%Z then mret tt else sqlite_fail rc ("Failed to execute " +:+ what).
Definition executeInsert (sql : string) (values : list string) : Op W Z :=
  executeStep "insert" sql values;; gets last_insert_rowid.
Definition executeUpdate (sql : string) (values : list string) : Op W Z :=
  executeStep "update" sql values;; gets changes.
Definition executeDelete (sql : string) (values : list string) : Op W Z :=
  executeStep "delete" sql values;; gets changes.

(** ** Reading rows *)

Definition columnToJson (field : CoreField) (c : Column) : json :=
  match c with
  | NullColumn => JNull
  | _ =>
      if String.eqb (cf_type field) "boolean" then JBool (negb (wrap_int (column_int64 c) =? 0)%Z)
      else if String.eqb (cf_type field) "number" || String.eqb (cf_type field) "bigint" then JInt (column_int64 c)
      else match column_text c with
           | None => JNull
           | Some value => if String.eqb (cf_type field) "json" then decodeJsonColumn value else JString value
           end
  end.
(** A column no field is named after: an alias, as it is stored. *)
Definition raw_column (c : Column) : json :=
  match c with
  | NullColumn => JNull | IntegerColumn z => JInt z | FloatColumn f => JFloat f
  | TextColumn _ => JString (default "" (column_text c))
  end.
Definition find_field (schema : CoreSchema) (name : string) : option CoreField :=
  List.find (fun f => String.eqb (cf_name f) name) (cs_fields schema).

Fixpoint row_columns (schema : CoreSchema) (includeSensitive : bool) (cols : list (string * Column)) (result : json) :
    Result json :=
  match cols with
  | [] => Ok result
  | (name, c) :: cols =>
      let emit v := result ← assign_member result name v; row_columns schema includeSensitive cols result in
      match find_field schema name with
      | Some field =>
          if cf_sensitive field && negb includeSensitive then row_columns schema includeSensitive cols result
          else emit (columnToJson field c)
      | None => emit (raw_column c)
      end
  end.
Definition rowToJson (schema : CoreSchema) (cols : list (string * Column)) (includeSensitive : bool) : Result json :=
  row_columns schema includeSensitive cols JNull.

(** The loop over the rows of a statement; [fuel] bounds the number of rows. *)
Fixpoint rows_loop (fuel : nat) (schema : CoreSchema) (stmt : Stmt) (results : list json) : Op W (list json) :=
  match fuel with
  | O => undef
  | S fuel =>
      rc ← step stmt;
      if (rc =? SQLITE_ROW)%Z then
        cols ← gets (columns stmt);
        row ← of_result (rowToJson schema cols false);
        rows_loop fuel schema stmt (results ++ [row])
      else
        finalize stmt;;
        if (rc =? SQLITE_DONE)%Z then mret results
        else open ← gets handle_open; message ← gets errmsg;
             fail (internal ("Failed to read rows: " +:+ (if (open : bool) then message else "")))
  end.

Definition readInsertedRecord (schema : CoreSchema) (rowid : Z) : Op W json :=
  r ← prepare_v2 ("SELECT " +:+ (buildFieldList schema +:+ (" FROM " +:+ (quoteId (cs_name schema) +:+ " WHERE rowid = ?"))));
  if (r.1 =? SQLITE_OK)%Z then
    _ ← bind_int64_at r.2 1 rowid;
    rc ← step r.2;
    if (rc =? SQLITE_ROW)%Z then
      cols ← gets (columns r.2);
      result ← of_result (rowToJson schema cols false);
      finalize r.2;;
      mret result
    else finalize r.2;; fail (internal "Failed to retrieve inserted record")
  else open ← gets handle_open; message ← gets errmsg;
       fail (internal ("Failed to prepare select: " +:+ (if (open : bool) then message else ""))).

(** ** Transactions *)

Definition executeTransactionStatement (sql : string) : Op State bool :=
  r ← on_engine (exec sql);
  if (r.1 =? SQLITE_OK)%Z then mret true else fail (internal ("Transaction statement failed: " +:+ r.2)).
Definition tx_statement (sql : string) (after : bool) : Op State bool :=
  executeTransactionStatement sql;;
  modify (fun s => mkSqlite (ql_engine s) after);;
  mret true.
Definition beginTransaction : Op State bool :=
  busy ← gets in_transaction_;
  if (busy : bool) then fail (internal "Transaction already in progress") else tx_statement "BEGIN TRANSACTION" true.
Definition end_transaction (sql : string) : Op State bool :=
  busy ← gets in_transaction_;
  if (busy : bool) then tx_statement sql false else fail (internal "No transaction in progress").
Definition commitTransaction : Op State bool := end_transaction "COMMIT".
Definition rollbackTransaction : Op State bool := end_transaction "ROLLBACK".
End Operations.

(** ** The operations of the adapter *)

Section Adapter.
Context {W : Type} {Q : Sqlite W} {jl : JsonLib} (schemas : gmap string CoreSchema) (fuel : nat).
Abbreviation State := (SqliteState W).

Definition schema_of (entityName : string) : Op State CoreSchema :=
  match schemas !! entityName with
  | Some schema => mret schema
  | None => fail (validationError ("Unknown entity: " +:+ entityName))
  end.
Definition not_there (entityName : string) : Error := notFound (entityName +:+ " not found").

Definition create (entityName : string) (data : json) : Op State json :=
  schema ← schema_of entityName;
  values ← of_result (jsonToValues schema data "");
  rowid ← on_engine (executeInsert (buildInsertQuery schema data) values);
  on_engine (readInsertedRecord schema rowid).

(** The rows of a SELECT. *)
Definition select (schema : CoreSchema) (sql : string) (values : list string) : Op State (list json) :=
  on_engine (stmt ← executeSelect sql values; rows_loop fuel schema stmt []).
Definition first_of (entityName : string) (rows : list json) : Op State json :=
  match rows with [] => fail (not_there entityName) | row :: _ => mret row end.

Definition read (entityName id : string) : Op State json :=
  schema ← schema_of entityName;
  rows ← select schema (buildSelectQuery schema (JObject [("id", JString id)])) [id];
  first_of entityName rows.

Definition update (entityName id : string) (data : json) : Op State json :=
  schema ← schema_of entityName;
  values ← of_result (buildUpdateParams schema data id);
  affected ← on_engine (executeUpdate (buildUpdateQuery schema data) values);
  if (affected =? 0)%Z then fail (not_there entityName) else read entityName id.

Definition remove (entityName id : string) : Op State bool :=
  schema ← schema_of entityName;
  affected ← on_engine (executeDelete (buildDeleteQuery schema) [id]);
  if (affected =? 0)%Z then fail (not_there entityName) else mret true.

(** The rows a grouped count still has. *)
Fixpoint count_loop (n : nat) (stmt : Stmt) (total : Z) : Op W Z :=
  match n with
  | O => undef
  | S n => rc ← step stmt; if (rc =? SQLITE_ROW)%Z then count_loop n stmt (total + 1) else mret total
  end.
Definition count_rows (options : RichOptions) (stmt : Stmt) : Op W Z :=
  rc ← step stmt;
  total ← (if (rc =? SQLITE_ROW)%Z then
             match ro_group_by options with
             | [] => gets (fun w => match columns stmt w with (_, c) :: _ => wrap_int (column_int64 c) | [] => 0%Z end)
             | _ => count_loop fuel stmt 1
             end
           else mret 0%Z);
  finalize stmt;;
  mret (total : Z).
(** The count of a listing; a failure to prepare it counts for none. *)
Definition total_count (schema : CoreSchema) (options : RichOptions) : Op W Z := fun w =>
  match executeSelect (buildCountQuery schema options) (buildCountParams options) w with
  | (Ok stmt, w') => count_rows options stmt w'
  | (Err _, w') => (Ok 0%Z, w')
  | (r, w') => (recast r, w')
  end.
Definition list_entities (entityName : string) (options : RichOptions) : Op State ListResult :=
  schema ← schema_of entityName;
  totalCount ← on_engine (total_count schema options);
  params ← of_result (buildListParams options);
  found ← select schema (buildListQuery schema options) params;
  let base := ro_base options in
  mret (mkListResult found (if (0 <? totalCount)%Z then totalCount else Z.of_nat (length found)) (opt_page base)
          (if (0 <? opt_limit base)%Z then opt_limit base else 50%Z)).

Definition findFirst (entityName : string) (filter : json) : Op State json :=
  schema ← schema_of entityName;
  values ← of_result (filter_texts filter);
  rows ← select schema (buildFindFirstQuery schema filter) values;
  first_of entityName rows.
Definition findByField (entityName field : string) (value : json) : Op State json :=
  findFirst entityName (JObject [(field, value)]).
Definition upsert (entityName uniqueField : string) (uniqueValue createData updateData : json) : Op State json := fun s =>
  match findByField entityName uniqueField uniqueValue s with
  | (Ok existing, s') =>
      (v ← of_result (at_member existing "id"); id ← of_result (get_string v); update entityName id updateData) s'
  | (Err _, s') => create entityName createData s'
  | (r, s') => (recast r, s')
  end.

(** Whether a record could be inserted; one that cannot is passed over. *)
Definition try_insert (schema : CoreSchema) (record : json) (values : list string) : Op State bool := fun s =>
  match on_engine (executeInsert (buildInsertQuery schema record) values) s with
  | (Ok _, s') => (Ok true, s')
  | (Err _, s') => (Ok false, s')
  | (r, s') => (recast r, s')
  end.
Fixpoint create_loop (schema : CoreSchema) (records : list json) (count : Z) : Op State Z :=
  match records with
  | [] => mret count
  | record :: records =>
      values ← of_result (jsonToValues schema record "");
      done ← try_insert schema record values;
      create_loop schema records (if (done : bool) then count + 1 else count)%Z
  end.
Definition createMany (entityName : string) (records : list json) : Op State Z :=
  match records with [] => mret 0%Z | _ => schema ← schema_of entityName; create_loop schema records 0 end.
Definition updateMany (entityName : string) (filter data : json) : Op State Z :=
  schema ← schema_of entityName;
  match items data with
  | [] => fail (validationError "No update fields supplied")
  | _ =>
      values ← of_result (buildUpdateManyParams schema filter data);
      on_engine (executeUpdate (buildUpdateManyQuery schema filter data) values)
  end.
Definition deleteMany (entityName : string) (filter : json) : Op State Z :=
  schema ← schema_of entityName;
  values ← of_result (filter_texts filter);
  on_engine (executeDelete (buildDeleteManyQuery schema filter) values).

#[export] Instance sqlite_adapter : Adapter State := {|
  do_create := create; do_read := read; do_readIncludingSensitive := read; do_search := default_search;
  do_update := update; do_remove := remove; do_list e o := list_entities e (plain_options o);
  do_createMany := createMany; do_updateMany := updateMany; do_deleteMany := deleteMany; do_findFirst := findFirst;
  do_findByField := findByField; do_upsert := upsert; do_getAvailableEntities := mret (map_to_list schemas).*1;
  do_getEntitySchema e :=
    schema ← schema_of e;
    mret (mkSchema (cs_name schema) (cs_name schema)
      ((fun f => mkField (cf_name f) (cf_type f) (cf_required f) (cf_unique f) false (cf_defaultValue f) None None None
                   None None false) <$> cs_fields schema) [] ∅ [] (mkQueryConfig [] [] [] 1000 0));
  do_close := on_engine close_handle; supportsNativeTransactions := true; do_beginTransaction := beginTransaction;
  do_commitTransaction := commitTransaction; do_rollbackTransaction := rollbackTransaction;
|}.
End Adapter.
