(* ===== verification/SqliteSafety.v ===== *)
(** * What the SQLite adapter keeps to, and what it does not

    Theorems about Sqlite.v: a listing has as many values as placeholders unless a
    BETWEEN is short of values; every row of a result is read; sensitive columns
    are answered like the others; the names of a filter go into the statement
    unchecked; and the creation of many passes failures over. *)

From Stdlib Require Import SpecFloat.
From S2P Require Import Prelude CxxString CxxStd Store Json Adapter AccessControl EntityRoutes SqlWhere SqlAdapter Sqlite.

Open Scope string_scope.

(** ** Placeholders and values *)

Fixpoint marks (s : string) : nat :=
  match s with "" => 0 | String c s => (if Ascii.eqb c "?" then 1 else 0) + marks s end.
(** A name without a question mark. *)
Definition no_mark (s : string) : Prop := marks s = 0.

Lemma marks_app s t : marks (s +:+ t) = marks s + marks t.
Proof. induction s as [|c s IH]; [done|]. change (String c s +:+ t) with (String c (s +:+ t)). cbn. rewrite IH. lia. Qed.
Lemma marks_join sep l : no_mark sep -> marks (sql_join sep l) = sum_list (marks <$> l).
Proof.
  intros Hs. induction l as [|x [|y l] IH]; [done|cbn; lia|].
  change (sql_join sep (x :: y :: l)) with (x +:+ (sep +:+ sql_join sep (y :: l))).
  rewrite !marks_app, IH, Hs. done.
Qed.
Lemma marks_quote s : no_mark s -> marks (Sqlite.quoteId s) = 0.
Proof. intros H. unfold Sqlite.quoteId, quoted_in. by rewrite !marks_app, H. Qed.
Lemma sum_all_zero {A} (f : A -> string) l : (forall x, x ∈ l -> marks (f x) = 0) -> sum_list (marks <$> (f <$> l)) = 0.
Proof.
  induction l as [|x l IH]; intros H; [done|]. cbn. rewrite H by (by left). apply IH. intros y Hy. apply H. by right.
Qed.
Lemma sum_list_cons (x : nat) l : sum_list (x :: l) = x + sum_list l. Proof. done. Qed.
Lemma sum_list_app (l k : list nat) : sum_list (l ++ k) = sum_list l + sum_list k.
Proof. induction l as [|x l IH]; [done|]. cbn. lia. Qed.
Lemma sum_all_one {A} (f : A -> string) l : (forall x, x ∈ l -> marks (f x) = 1) -> sum_list (marks <$> (f <$> l)) = length l.
Proof.
  induction l as [|x l IH]; intros H; [done|]. cbn. rewrite H by (by left). rewrite IH; [done|]. intros y Hy. apply H. by right.
Qed.

(** A BETWEEN with fewer than two values. *)
Definition short (c : FilterCondition) : nat :=
  match fc_op c, fc_values c with Between, ([] | [_]) => 1 | _, _ => 0 end.

Lemma marks_condition c : no_mark (fc_field c) -> marks (conditionToSql c) = length (condition_values c) + 2 * short c.
Proof.
  intros Hf. pose proof (marks_quote _ Hf) as Hq.
  assert (forall vs, marks (holes_of vs) = length vs) as Hholes
    by (intros vs; unfold holes_of; rewrite marks_join by done; by apply sum_all_one).
  destruct c as [field op value values]. unfold conditionToSql, condition_values, short. cbn [fc_op fc_field fc_values fc_value] in *.
  destruct op; rewrite !marks_app, ?Hq, ?Hholes; cbn; try lia.
  destruct values as [|v0 [|v1 vs]]; done.
Qed.
Lemma marks_conditions cs :
  Forall (fun c => no_mark (fc_field c)) cs ->
  sum_list (marks <$> (conditionToSql <$> cs)) = length (cs ≫= condition_values) + 2 * sum_list (short <$> cs).
Proof.
  induction 1 as [|c cs Hc _ IH]; [done|]. cbn. rewrite marks_condition, IH, length_app by done. lia.
Qed.

(** The conditions of a listing, and the names it quotes. *)
Definition all_conditions (o : RichOptions) : list FilterCondition :=
  ro_conditions o ++ (ro_filter_groups o ≫= fg_conditions).
Definition plain_names (schema : CoreSchema) (o : RichOptions) : Prop :=
  no_mark (cs_name schema) /\ Forall no_mark (cf_name <$> cs_fields schema) /\
  Forall no_mark (map_items (opt_filter (ro_base o))).*1 /\ Forall no_mark (map_items (opt_sort (ro_base o))).*1 /\
  Forall (fun c => no_mark (fc_field c)) (all_conditions o) /\ Forall no_mark (ro_group_by o) /\
  Forall (fun a => no_mark (ag_field a) /\ no_mark (ag_alias a)) (ro_aggregates o).

Lemma marks_quoted l : Forall no_mark l -> marks (sql_join ", " (Sqlite.quoteId <$> l)) = 0.
Proof.
  intros Hl. rewrite marks_join by done. apply sum_all_zero. intros x Hx. apply marks_quote. by eapply Forall_forall in Hl.
Qed.
Lemma marks_aggregate a : no_mark (ag_field a) /\ no_mark (ag_alias a) -> marks (aggregate_sql a) = 0.
Proof. intros [H1 H2]. unfold aggregate_sql. rewrite !marks_app, !marks_quote by done. by destruct (ag_func a). Qed.
Lemma marks_groups groups :
  Forall (fun c => no_mark (fc_field c)) (groups ≫= fg_conditions) ->
  sum_list (marks <$> ((fun g => "(" +:+ (sql_join " OR " (conditionToSql <$> fg_conditions g) +:+ ")")) <$>
    List.filter (fun g => match fg_conditions g with [] => false | _ => true end) groups)) =
  length (groups ≫= (fun g => fg_conditions g ≫= condition_values)) + 2 * sum_list (short <$> (groups ≫= fg_conditions)).
Proof.
  induction groups as [|g groups IH]; [done|]. cbn. rewrite Forall_app, fmap_app, sum_list_app, length_app. intros [Hg Hgs].
  specialize (IH Hgs). pose proof (marks_conditions _ Hg) as Hm.
  destruct (fg_conditions g) as [|c cs] eqn:Hc; [exact IH|].
  rewrite (fmap_cons _ g), (fmap_cons marks), sum_list_cons, IH, Hc, !marks_app, marks_join, Hm by done. change (marks "(") with 0.
  change (marks ")") with 0. lia.
Qed.
Lemma marks_where schema o :
  plain_names schema o ->
  marks (where_options o) = length (buildCountParams o) + 2 * sum_list (short <$> all_conditions o).
Proof.
  intros (_ & _ & Hf & _ & Hc & _). unfold all_conditions in *. apply Forall_app in Hc as [Hc Hg].
  assert (marks (where_options o) = sum_list (marks <$> where_fragments o)) as ->.
  { unfold where_options. destruct (where_fragments o) as [|x l]; [done|].
    rewrite marks_app, marks_join by done. done. }
  unfold where_fragments, buildCountParams. rewrite !fmap_app, !sum_list_app, !length_app, length_fmap.
  rewrite marks_conditions, marks_groups by done.
  rewrite (sum_all_one equals_hole), length_fmap.
  2: { intros x Hx. unfold equals_hole. rewrite marks_app, marks_quote; [done|]. by eapply Forall_forall in Hf. }
  lia.
Qed.

(** A listing has a value for each placeholder.  When no name has a question
    mark, the question marks of the statement, those of LIMIT and OFFSET included,
    are the values of the listing, and two more for every BETWEEN with fewer than
    two values; so, without such a BETWEEN, as many as there are values. *)
Theorem list_placeholders schema o params :
  plain_names schema o -> buildListParams o = Ok params ->
  marks (buildListQuery schema o) = length params + 2 * sum_list (short <$> all_conditions o) /\
  marks (buildCountQuery schema o) + 2 = marks (buildListQuery schema o).
Proof.
  intros Hp. pose proof (marks_where schema o Hp) as Hw. destruct Hp as (Hn & Hfs & Hf & Hs & Hc & Hg & Ha).
  unfold buildListParams. destruct (in_int _); [|done]. intros [= <-].
  assert (marks (group_options o) = 0) as Hgroup.
  { unfold group_options. destruct (ro_group_by o) as [|g gs] eqn:He; [done|]. rewrite marks_app. by rewrite marks_quoted. }
  assert (marks (buildListQuery schema o) = marks (where_options o) + 2) as Hlist.
  { unfold buildListQuery. cbv zeta. rewrite !marks_app, Hgroup, (marks_quote _ Hn).
    assert (marks (match ro_aggregates o with [] => buildFieldList schema
      | _ => sql_join ", " ((Sqlite.quoteId <$> ro_group_by o) ++ (aggregate_sql <$> ro_aggregates o)) end) = 0) as Hsel.
    { destruct (ro_aggregates o) as [|a aggs] eqn:He; [by apply marks_quoted|]. rewrite marks_join by done.
      rewrite fmap_app, sum_list_app, (sum_all_zero Sqlite.quoteId), (sum_all_zero aggregate_sql); [done|..].
      - intros x Hx. apply marks_aggregate. by eapply Forall_forall in Ha.
      - intros x Hx. apply marks_quote. by eapply Forall_forall in Hg. }
    destruct (ro_aggregates o); rewrite Hsel;
    (destruct (map_items (opt_sort (ro_base o))) as [|kv sorted] eqn:Hso; [cbn; lia|];
     rewrite marks_app, marks_join, sum_all_zero; [cbn; lia| |done]; intros x Hx; rewrite marks_app, marks_quote;
     [by destruct (_ || _)|]; eapply Forall_forall in Hs; [exact Hs|by apply list_elem_of_fmap_2]). }
  rewrite Hlist, length_app. cbn [length]. split; [lia|]. unfold buildCountQuery. rewrite !marks_app, Hgroup, (marks_quote _ Hn).
  cbn. lia.
Qed.

(** ** Rows *)

Section Rows.
Context {W : Type} {Q : Sqlite W} {jl : JsonLib}.

(** The schemas the adapter registers know no sensitive field, so that the rows it
    answers to callers are the rows it would answer to itself. *)
Lemma sqlite_hides_nothing name fields cols :
  rowToJson (entityDefToSchema name fields) cols false = rowToJson (entityDefToSchema name fields) cols true.
Proof.
  unfold rowToJson. generalize JNull. induction cols as [|[n c] cols IH]; intros acc; [done|]. cbn [row_columns].
  assert (forall field, find_field (entityDefToSchema name fields) n = Some field -> cf_sensitive field = false) as Hs.
  { intros field [Hin _]%List.find_some. cbn in Hin. apply in_map_iff in Hin as (f & <- & _). done. }
  destruct (find_field _ n) as [field|] eqn:Hf.
  - rewrite (Hs field eq_refl). cbn. destruct (assign_member acc n _); [apply IH|done..].
  - destruct (assign_member acc n _); [apply IH|done..].
Qed.

(** The rows [step] delivers from [w] on, and how the statement ends. *)
Inductive delivers (stmt : Stmt) : W -> list (list (string * Column)) -> Z -> W -> Prop :=
  | delivers_end w rc w' : step stmt w = (Ok rc, w') -> rc <> SQLITE_ROW -> delivers stmt w [] rc w'
  | delivers_row w w' rows rc w'' :
      step stmt w = (Ok SQLITE_ROW, w') -> delivers stmt w' rows rc w'' ->
      delivers stmt w (columns stmt w' :: rows) rc w''.

(** Every row of a result is read.  A SELECT whose statement delivers some rows and
    is done answers each of them, in order, and finalizes the statement; the fuel
    needed is one more than the rows there are, and more changes nothing.  A row
    whose columns cannot be a JSON object stops the reading. *)
Theorem rows_loop_reads schema stmt w rows w' fuel results found :
  delivers stmt w rows SQLITE_DONE w' -> length rows < fuel ->
  mapM (fun cols => rowToJson schema cols false) rows = Ok found ->
  rows_loop fuel schema stmt results w =
    (match finalize stmt w' with (Ok _, w'') => (Ok (results ++ found)%list, w'') | (r, w'') => (recast r, w'') end).
Proof.
  intros Hd. remember SQLITE_DONE as rc eqn:Hrc. revert fuel results found Hrc.
  induction Hd as [w rc w' Hstep Hne|w w1 rows rc w' Hstep Hd IH]; intros fuel results found -> Hfuel Hfound;
    (destruct fuel as [|fuel]; [cbn in Hfuel; lia|]); cbn [rows_loop]; unfold mbind at 1, Op_bind at 1; rewrite Hstep.
  - injection Hfound as <-. cbn. rewrite app_nil_r. unfold mbind, Op_bind. by destruct (finalize stmt w') as [[] ?].
  - cbn [Z.eqb]. cbn in Hfound. destruct (rowToJson schema (columns stmt w1) false) as [v|e|x|] eqn:Hv; [|done..].
    cbn in Hfound. destruct (mapM _ rows) as [vs|e|x|] eqn:Hvs; [|done..]. injection Hfound as <-.
    change (SQLITE_ROW =? SQLITE_ROW)%Z with true. cbv iota. rewrite run_gets. unfold of_result.
    unfold mbind at 1, Op_bind at 1. rewrite Hv. cbn in Hfuel. rewrite (IH fuel (results ++ [v])%list vs) by (done || lia).
    destruct (finalize stmt w') as [[] ?]; [|done..]. by rewrite <- app_assoc.
Qed.

(** A creation of many never fails for a record: those that cannot be inserted are
    passed over, and the answer is a number. *)
Lemma createMany_never_refuses schemas e schema records (s : SqliteState W) err :
  schemas !! e = Some schema -> (Sqlite.createMany schemas e records s).1 <> Err err.
Proof.
  intros He. unfold Sqlite.createMany. destruct records as [|r0 records0]; [done|]. generalize (r0 :: records0). intros records.
  unfold Sqlite.schema_of. rewrite He. unfold mbind, Op_bind, mret, Op_ret. generalize 0%Z.
  assert (forall v err, Sqlite.jsonValueToString v <> Err err) as Htext.
  { intros v err'. destruct v; cbn; try done; unfold dump.
    - unfold get_int64, mbind, Result_bind. destruct (float_trunc f) as [z|]; [|done]. by destruct (in_int64 z).
    - by destruct (dump_text _).
    - by destruct (dump_text _). }
  assert (forall record err, jsonToValues schema record "" <> Err err) as Hvalues.
  { intros record err'. unfold jsonToValues, texts_of, mbind, Result_bind. cbn.
    assert (forall l, mapM (fun name => Sqlite.jsonValueToString (default JNull (member record name))) l <> Err err') as Hm.
    { induction l as [|n l IH]; [done|]. cbn. unfold mbind, Result_bind.
      destruct (Sqlite.jsonValueToString _) eqn:Ht; [|by apply Htext in Ht|done..].
      revert IH. unfold mbind, Result_bind. by destruct (mapM _ l). }
    specialize (Hm (inserted schema record)). by destruct (mapM _ _). }
  revert s. induction records as [|record records IH]; intros s n; [done|]. cbn [Sqlite.create_loop].
  unfold mbind, Op_bind, of_result. specialize (Hvalues record). destruct (jsonToValues schema record "") as [vs|e'|x|]; [|by destruct (Hvalues e')|done..].
  unfold try_insert. destruct (on_engine _ s) as [[z|e'|x|] s']; [apply IH|apply IH|done..].
Qed.
End Rows.

(** ** Examples *)

Definition note_fields : list SchemaField :=
  [mkSchemaField "id" "string" true true true false false false false None;
   mkSchemaField "token" "string" false true false false false false true None].
Definition note_schema : CoreSchema := entityDefToSchema "Note" note_fields.
Definition options_with (filter : gmap string string) (conditions : list FilterCondition) : RichOptions :=
  mkOptions (mkListOptions filter ∅ 1 20) conditions [] [] [] [] [] false 0.

(** The filter of a request goes into the statement as it is: its quotes close the
    identifier, and the rest is SQL. *)
Definition hostile : string := "id" +:+ (dquote +:+ " IS NOT NULL OR 1=1 --").
Lemma filter_name_escapes :
  gather (mkGathered (options_with ∅ []) [] []) ("filter." +:+ hostile) "x" =
    Ok (mkGathered (options_with {[hostile := "x"]} []) [] []) /\
  buildListQuery note_schema (options_with {[hostile := "x"]} []) =
    "SELECT " +:+ (buildFieldList note_schema +:+ (" FROM " +:+ (Sqlite.quoteId "Note" +:+ (" WHERE " +:+
      (Sqlite.quoteId "id" +:+ (" IS NOT NULL OR 1=1 --" +:+ (dquote +:+ " = ? LIMIT ? OFFSET ?"))))))).
Proof. split; [|vm_compute; reflexivity]. vm_compute. reflexivity. Qed.

(** With one value for a BETWEEN there are four placeholders and two values: the
    numbers meant for LIMIT and OFFSET are what the column is compared with. *)
Definition one_sided : RichOptions := options_with ∅ [makeCondition "id" "between" "5"].
Lemma short_between_shifts :
  marks (buildListQuery note_schema one_sided) = 4 /\ buildListParams one_sided = Ok ["20"; "0"].
Proof. split; vm_compute; reflexivity. Qed.

(** A caller's text can be the one that stands for NULL, and a text ends at its
    first NUL character. *)
Lemma sentinel_is_a_text {jl : JsonLib} :
  Sqlite.jsonValueToString (JString kSqlNullSentinel) = Sqlite.jsonValueToString JNull /\
  c_str (String "a" (String "000" "b")) = "a".
Proof. done. Qed.

(** An UPDATE that sets nothing is the empty statement. *)
Lemma empty_update {jl : JsonLib} : buildUpdateQuery note_schema (JObject [("id", JString "2")]) = "".
Proof. done. Qed.

Lemma list_placeholders_witness :
  let o := options_with {["id" := "1"]} [mkCondition "token" In "" ["a"; "b"]] in
  marks (buildListQuery note_schema o) = 5 /\ exists params, buildListParams o = Ok params /\ length params = 5.
Proof.
  intros o.
  assert (plain_names note_schema o) as Hp.
  { split; [reflexivity|]. split; [repeat constructor|]. split; [repeat constructor|]. split; [constructor|].
    split; [repeat constructor|]. split; constructor. }
  destruct (buildListParams o) as [params|e|x|] eqn:Hparams; [|vm_compute in Hparams; discriminate..].
  destruct (list_placeholders note_schema o params Hp Hparams) as [Hlist _].
  vm_compute in Hparams. injection Hparams as <-. split; [exact Hlist|]. eexists. split; reflexivity.
Defined.

(** An engine with the rows of one statement, which [step] delivers one by one. *)
Record TapeDb := mkTape { tp_current : list (string * Column); tp_left : list (list (string * Column)); tp_open : bool }.
#[export] Instance tape : Sqlite TapeDb := {|
  Stmt := unit;
  handle_open _ := true; close_handle := mret tt; prepare_v2 _ := mret (SQLITE_OK, tt);
  bind_value_at _ _ _ := mret SQLITE_OK; bind_int64_at _ _ _ := mret SQLITE_OK;
  step _ := fun d => match tp_left d with
                     | [] => (Ok SQLITE_DONE, mkTape [] [] (tp_open d))
                     | row :: rows => (Ok SQLITE_ROW, mkTape row rows (tp_open d))
                     end;
  columns _ d := tp_current d; finalize _ := modify (fun d => mkTape [] [] false); exec _ := mret (SQLITE_OK, "");
  last_insert_rowid _ := 0%Z; changes _ := 0%Z; errmsg _ := "";
  column_int64 c := match c with IntegerColumn z => z | _ => 0%Z end;
  column_text c := match c with TextColumn s => Some s | _ => None end;
|}.
Definition two_rows : TapeDb :=
  mkTape [] [[("id", TextColumn "1"); ("token", TextColumn "t1")]; [("id", TextColumn "2"); ("token", NullColumn)]] true.
Definition two_found : list json :=
  [JObject [("id", JString "1"); ("token", JString "t1")]; JObject [("id", JString "2"); ("token", JNull)]].

Lemma rows_loop_reads_witness :
  rows_loop (jl := scalar_json) 3 note_schema tt [] two_rows = (Ok two_found, mkTape [] [] false).
Proof.
  refine (rows_loop_reads (jl := scalar_json) note_schema tt two_rows (tp_left two_rows) (mkTape [] [] true) 3 [] two_found _ _ _).
  - change (tp_left two_rows) with
      [columns (Sqlite := tape) tt (mkTape [("id", TextColumn "1"); ("token", TextColumn "t1")]
         [[("id", TextColumn "2"); ("token", NullColumn)]] true);
       columns (Sqlite := tape) tt (mkTape [("id", TextColumn "2"); ("token", NullColumn)] [] true)].
    eapply delivers_row; [reflexivity|]. eapply delivers_row; [reflexivity|]. apply delivers_end; [reflexivity|discriminate].
  - cbn. lia.
  - vm_compute. reflexivity.
Defined.
