(* ===== verification/Credentials.v ===== *)
(** * Credentials and users, over the adapter

    Models src/security/crypto/password_hash.cpp, the credential operations of
    src/client_misc_ops.cpp and src/client_user_ops.cpp: passwords are hashed with
    Argon2id (a library, the class [Argon2]) and kept in rows of the entity
    Credential, whose identifier is the username; users are rows of the entity
    User.  [CredentialTable] is what the theorems assume of the database behind the
    adapter. *)

From S2P Require Import Prelude CxxString CxxStd Store Json Validation EntityHost Adapter.

Open Scope string_scope.

(** ** Password hashes *)

(** The library: a status other than [ARGON2_OK] is an error, a text it encoded
    has no null byte and verifies the password it was made from. *)
Class Argon2 := {
  argon2id_hash_encoded : forall t_cost m_cost parallelism : Z, forall pwd salt : string, forall hashlen : Z, Z + string;
  argon2id_verify : forall encoded pwd : string, Z;
  argon2_error_message : Z -> string;
  argon2_verifies : forall t m p pwd salt n encoded,
    argon2id_hash_encoded t m p pwd salt n = inr encoded ->
    encoded <> "" /\ c_str encoded = encoded /\ argon2id_verify encoded pwd = 0%Z;
}.

Definition kTimeCost : Z := 2.
Definition kMemoryCostKiB : Z := 19 * 1024.
Definition kParallelism : Z := 1.
Definition kHashLength : Z := 32.
Definition ARGON2_OK : Z := 0.

(** [salt] is the random salt drawn. *)
Definition hash_password `{!Argon2} (salt password : string) : Result string :=
  match argon2id_hash_encoded kTimeCost kMemoryCostKiB kParallelism password salt kHashLength with
  | inl rc => Throw (runtime_error ("argon2id_hash_encoded failed: " +:+ argon2_error_message rc))
  | inr encoded => Ok (c_str encoded)
  end.

Definition verify_password `{!Argon2} (password encodedHash : string) : bool :=
  if is_empty encodedHash then false
  else (argon2id_verify (c_str encodedHash) password =? ARGON2_OK)%Z.

(** ** Credentials *)

Record CreateCredentialInput := mkCredentialInput {
  ci_username : string; ci_passwordHash : string; ci_tenantId : string; ci_email : string;
}.

Section Credentials.
Context {W : Type} `{!Adapter W} `{!Argon2}.
(** [what x] is the text of an exception, [salt] the salt a call draws. *)
Context (what : Exn -> string) (salt : string).

Definition setCredential (input : CreateCredentialInput) : Op W bool :=
  reject_if (negb (isValidUsername (ci_username input)))
    (validationError "username must be 3-50 characters (alphanumeric, underscore, hyphen)");;
  reject_if (negb (isValidCredentialPassword (ci_passwordHash input)))
    (validationError "password must be 8-128 characters with at least one non-whitespace");;
  encoded ← (match hash_password salt (ci_passwordHash input) with
             | Throw x => fail (internal ("password hashing failed: " +:+ what x))
             | r => of_result r
             end);
  let createData := object (
    [("id", JString (ci_username input)); ("passwordHash", JString encoded)] ++
    (if negb (is_empty (ci_tenantId input)) then [("tenantId", JString (ci_tenantId input))] else []) ++
    (if negb (is_empty (ci_email input)) then [("email", JString (ci_email input))] else [])) in
  let updateData := object [("passwordHash", JString encoded)] in
  _ ← do_upsert "Credential" "id" (JString (ci_username input)) createData updateData;
  mret true.

(** [try { hash_password(password); } catch (...) {}], for its duration only. *)
Definition dummy_hash (password : string) : Op W unit :=
  let ignored := hash_password salt password in mret tt.

Definition invalid_credentials {A} : Op W A := fail (unauthorized "Invalid credentials").

(** [record.isError()] after [dummy_hash]. *)
Definition or_invalid {A B} (password : string) (m : Op W A) (k : A -> Op W B) : Op W B := fun w =>
  match m w with
  | (Err _, w') => (dummy_hash password;; invalid_credentials) w'
  | (Ok a, w') => k a w'
  | (r, w') => (recast r, w')
  end.

(** The check of the stored hash. *)
Definition check_hash (password : string) (row : json) : Op W unit :=
  storedHash ← of_result (value_string row "passwordHash" "");
  reject_if (is_empty storedHash || negb (verify_password password storedHash))
    (unauthorized "Invalid credentials").

Definition verifyCredential (username password : string) : Op W bool :=
  reject_if (is_empty username || is_empty password) (validationError "username and password are required");;
  or_invalid password (do_readIncludingSensitive "Credential" username) (fun row =>
    check_hash password row;; mret true).

(** The row of [verifyCredentialIdentifier], by username or by email address. *)
Definition find_credential (identifier password : string) : Op W (string * json) := fun w =>
  match do_readIncludingSensitive "Credential" identifier w with
  | (Err _, w') =>
      or_invalid password (do_findByField "Credential" "email" (JString identifier)) (fun byEmail =>
        canonicalUsername ← of_result (value_string byEmail "id" "");
        or_invalid password (do_readIncludingSensitive "Credential" canonicalUsername) (fun record =>
          mret (canonicalUsername, record))) w'
  | (Ok record, w') => (Ok (identifier, record), w')
  | (r, w') => (recast r, w')
  end.

Definition verifyCredentialIdentifier (identifier password : string) : Op W string :=
  reject_if (is_empty identifier || is_empty password) (validationError "username and password are required");;
  '(canonicalUsername, record) ← find_credential identifier password;
  check_hash password record;;
  mret canonicalUsername.

Definition getCredentialTenantId (username : string) : Op W string := fun w =>
  match do_read "Credential" username w with
  | (Ok row, w') =>
      (match member row "tenantId" with
       | None | Some JNull => Ok "system"
       | Some v => tenantId ← get_string v; Ok (if is_empty tenantId then "system" else tenantId)
       end, w')
  | (Err _, w') => (Ok "system", w')
  | (r, w') => (recast r, w')
  end.

Definition deleteCredential (username : string) : Op W bool :=
  _ ← do_remove "Credential" username; mret true.
End Credentials.

(** ** What the database promises *)

(** The rows of the entity Credential by identifier.  The database answers: a
    read fails only where there is no row; a plain read may leave columns out, but
    not the tenant. *)
Class CredentialTable (W : Type) `{Adapter W} := {
  creds : W -> table;
  creds_sensitive : forall w id,
    match do_readIncludingSensitive "Credential" id w with
    | (Ok row, w') => creds w' = creds w /\ exists m, creds w !! id = Some m /\ row = JObject m
    | (Err _, w') => creds w' = creds w /\ creds w !! id = None
    | _ => False
    end;
  creds_email : forall w email,
    match do_findByField "Credential" "email" (JString email) w with
    | (Ok row, w') => creds w' = creds w /\ exists r id m, row = JObject r /\ creds w !! id = Some m /\
        string_member (JObject m) "email" = Some email /\ string_member (JObject r) "id" = Some id
    | (Err _, w') => creds w' = creds w /\
        forall id m, creds w !! id = Some m -> string_member (JObject m) "email" <> Some email
    | _ => False
    end;
  creds_read : forall w id,
    match do_read "Credential" id w with
    | (Ok row, w') => creds w' = creds w /\ exists r m, row = JObject r /\ creds w !! id = Some m /\
        obj_get "tenantId" r = obj_get "tenantId" m
    | (Err _, w') => creds w' = creds w /\ creds w !! id = None
    | _ => False
    end;
  creds_upsert : forall w u c d,
    match do_upsert "Credential" "id" (JString u) (JObject c) (JObject d) w with
    | (Ok _, w') =>
        match creds w !! u with
        | None => exists m, creds w' = <[u := m]> (creds w) /\
            forall k, obj_get k c <> None -> obj_get k m = obj_get k c
        | Some m => exists m', creds w' = <[u := m']> (creds w) /\ patched d m m'
        end
    | (Err _, w') => creds w' = creds w
    | _ => False
    end;
}.

Section CredentialTheory.
Context {W : Type} `{!Adapter W} `{!Argon2} `{!CredentialTable W}.
Context (salt : string).

(** The hash in the row verifies [password]. *)
Definition hash_good (password : string) (m : members) : bool :=
  match string_member (JObject m) "passwordHash" with Some h => verify_password password h | None => false end.

(** The password of [u] is [password]. *)
Definition password_ok (db : table) (u password : string) : Prop :=
  exists m, db !! u = Some m /\ hash_good password m = true.

(** What a visitor may call the credential [u]: its username or, where that is
    nobody's username, the email address recorded with it. *)
Definition names (db : table) (identifier u : string) : Prop :=
  (identifier = u /\ is_Some (db !! u)) \/
  (db !! identifier = None /\ exists m, db !! u = Some m /\ string_member (JObject m) "email" = Some identifier).

Lemma check_hash_keeps p row (w : W) : (check_hash p row w).2 = w.
Proof.
  unfold check_hash, of_result, reject_if, mbind, Op_bind. destruct (value_string _ _ _); try done.
  by destruct (_ || _).
Qed.

Lemma check_hash_iff p m (w : W) : (check_hash p (JObject m) w).1 = Ok tt <-> hash_good p m = true.
Proof.
  unfold check_hash, hash_good, value_string, string_member, of_result, reject_if, mbind, Op_bind. cbn [member].
  destruct (obj_get "passwordHash" m) as [[]|]; try done. destruct (is_empty s) eqn:He.
  - apply is_empty_true in He as ->. done.
  - cbn [orb]. by destruct (verify_password p s).
Qed.

Lemma check_hash_good p m (w : W) : hash_good p m = true -> check_hash p (JObject m) w = (Ok tt, w).
Proof.
  intros Hg%(check_hash_iff p m w). pose proof (check_hash_keeps p (JObject m) w) as Hw.
  destruct (check_hash p (JObject m) w) as [r w']. cbn in *. congruence.
Qed.

Lemma dummy_hash_run p {A} (w : W) : (dummy_hash salt p;; invalid_credentials) w = (Err (A:=A) (unauthorized "Invalid credentials"), w).
Proof. done. Qed.

(** A check of the row of [u] succeeds exactly when the password is the user's. *)
Lemma row_check {B} p u (b : B) (w : W) (k : json -> Op W B) :
  (forall row w', (k row w').1 = Ok b <-> (check_hash p row w').1 = Ok tt) ->
  ((or_invalid salt p (do_readIncludingSensitive "Credential" u) k w).1 = Ok b <-> password_ok (creds w) u p).
Proof.
  intros Hk. unfold or_invalid, password_ok. pose proof (creds_sensitive w u) as Hs.
  destruct (do_readIncludingSensitive "Credential" u w) as [[row|e|x|] w']; try done.
  - destruct Hs as (_ & m & -> & ->). rewrite Hk, check_hash_iff. naive_solver.
  - destruct Hs as [_ ->]. rewrite dummy_hash_run. naive_solver.
Qed.

(** A password is accepted exactly when it is not empty and the hash in the row
    of the user verifies it; nothing tells a wrong password from a user there is
    not. *)
Theorem verifyCredential_iff username password w :
  ((verifyCredential salt username password w).1 = Ok true <->
     username <> "" /\ password <> "" /\ password_ok (creds w) username password) /\
  (username <> "" -> password <> "" -> (creds w !! username = None) ->
     (verifyCredential salt username password w).1 = Err (unauthorized "Invalid credentials")).
Proof.
  unfold verifyCredential. rewrite run_reject.
  destruct (is_empty username) eqn:Hu; [apply is_empty_true in Hu; naive_solver|].
  destruct (is_empty password) eqn:Hp; [apply is_empty_true in Hp; naive_solver|].
  apply is_empty_false in Hu, Hp. cbn [orb]. split.
  - rewrite (row_check password username true); [tauto|]. intros row w'. unfold mbind, Op_bind.
    destruct (check_hash password row w') as [[[]| | |] ?]; cbn; naive_solver.
  - intros _ _ Hno. unfold or_invalid. pose proof (creds_sensitive w username) as Hs.
    destruct (do_readIncludingSensitive "Credential" username w) as [[row|e|x|] w']; try done.
    destruct Hs as (_ & m & Hm & _). congruence.
Qed.

Lemma value_string_member m k s : string_member (JObject m) k = Some s -> value_string (JObject m) k "" = Ok s.
Proof. unfold string_member, value_string. cbn [member]. by destruct (obj_get k m) as [[]|]; intros [= ->]. Qed.

Lemma find_credential_spec identifier password w :
  match find_credential salt identifier password w with
  | (Ok (u, row), w') => creds w' = creds w /\ names (creds w) identifier u /\
      exists m, row = JObject m /\ creds w !! u = Some m
  | (Err e, w') => e = unauthorized "Invalid credentials" /\ creds w' = creds w /\
      forall u, ~ names (creds w) identifier u
  | _ => False
  end.
Proof.
  unfold find_credential, names. pose proof (creds_sensitive w identifier) as Hs.
  destruct (do_readIncludingSensitive "Credential" identifier w) as [[row|e|x|] w1]; try done.
  { destruct Hs as (Hw1 & m & Hm & ->). split_and!; eauto. }
  destruct Hs as [Hw1 Hno]. unfold or_invalid at 1. pose proof (creds_email w1 identifier) as He.
  destruct (do_findByField "Credential" "email" (JString identifier) w1) as [[row|e'|x|] w2]; try done.
  - destruct He as (Hw2 & r & id & m & -> & Hm & Hem & Hid). rewrite Hw1 in *.
    unfold of_result, mbind, Op_bind. rewrite (value_string_member _ _ _ Hid). unfold or_invalid.
    pose proof (creds_sensitive w2 id) as Hs2.
    destruct (do_readIncludingSensitive "Credential" id w2) as [[row|e''|x|] w3]; try done.
    + destruct Hs2 as (Hw3 & m' & Hm' & ->). cbn. rewrite Hw2 in *. split; [done|]. split; [|by eauto].
      right. eauto.
    + destruct Hs2 as [_ Hs2]. congruence.
  - destruct He as [Hw2 He]. rewrite Hw1 in *. rewrite dummy_hash_run. split_and!; [done|done|].
    intros u [[-> [? ?]]|(_ & m & Hm & Hem)]; [congruence|]. by destruct (He u m).
Qed.

Lemma verify_identifier_sound identifier password w u w' :
  verifyCredentialIdentifier salt identifier password w = (Ok u, w') ->
  identifier <> "" /\ password <> "" /\ names (creds w) identifier u /\
  password_ok (creds w) u password /\ creds w' = creds w.
Proof.
  unfold verifyCredentialIdentifier. pose proof (find_credential_spec identifier password w) as Hf.
  intros Hx. apply run_reject_inv in Hx as [Hne Hx]. apply orb_false_iff in Hne as [Hi%is_empty_false Hp%is_empty_false].
  apply run_bind_inv in Hx as ([u' row] & w1 & Hfind & Hx). rewrite Hfind in Hf. destruct Hf as (Hw1 & Hn & m & -> & Hm).
  apply run_bind_inv in Hx as ([] & w2 & Hc & [= <- <-]).
  pose proof (check_hash_keeps password (JObject m) w1) as Hk. rewrite Hc in Hk. cbn in Hk. subst w2.
  split_and!; try done. exists m. split; [done|]. apply (check_hash_iff password m w1). by rewrite Hc.
Qed.

(** Signing in by username or email address: what is accepted is the username
    of a credential the identifier names, a username before an address, and the
    password is that user's.  When the identifier names one credential, its
    password is all it takes. *)
Theorem verifyCredentialIdentifier_spec identifier password w :
  (forall u w', verifyCredentialIdentifier salt identifier password w = (Ok u, w') ->
     identifier <> "" /\ password <> "" /\ names (creds w) identifier u /\
     password_ok (creds w) u password /\ creds w' = creds w) /\
  (forall u, identifier <> "" -> password <> "" -> names (creds w) identifier u ->
     (forall u', names (creds w) identifier u' -> u' = u) -> password_ok (creds w) u password ->
     (verifyCredentialIdentifier salt identifier password w).1 = Ok u).
Proof.
  split; [intros u w'; apply verify_identifier_sound|].
  intros u Hi%is_empty_false Hp%is_empty_false Hn Hu (m & Hm & Hg). unfold verifyCredentialIdentifier.
  rewrite run_reject, Hi, Hp. cbn [orb]. pose proof (find_credential_spec identifier password w) as Hf.
  unfold mbind at 1, Op_bind at 1. destruct (find_credential salt identifier password w) as [[[u' row]|e|x|] w1]; try done.
  - destruct Hf as (Hw1 & Hn' & m' & -> & Hm'). rewrite (Hu u' Hn') in *. simplify_eq.
    by rewrite (run_bind_ok _ _ _ _ _ (check_hash_good password m w1 Hg)).
  - destruct Hf as (_ & _ & Hno). by destruct (Hno u).
Qed.

(** ** Setting a password *)

(** The tenant a row names. *)
Definition tenant_of (db : table) (u : string) : Result string :=
  match db !! u with
  | None => Ok "system"
  | Some m => match obj_get "tenantId" m with
              | None | Some JNull => Ok "system"
              | Some (JString t) => Ok (if is_empty t then "system" else t)
              | Some _ => Throw (json_error 302)
              end
  end.

Lemma getCredentialTenantId_eq u (w : W) :
  (getCredentialTenantId u w).1 = tenant_of (creds w) u /\ creds (getCredentialTenantId u w).2 = creds w.
Proof.
  unfold getCredentialTenantId, tenant_of. pose proof (creds_read w u) as Hr.
  destruct (do_read "Credential" u w) as [[row|e|x|] w']; try done.
  - destruct Hr as (Hw & r & m & -> & -> & Ht). cbn [member fst snd]. rewrite Ht. split; [|done].
    by destruct (obj_get "tenantId" m) as [[]|].
  - by destruct Hr as [Hw ->].
Qed.

Lemma hash_verifies s p h : hash_password s p = Ok h -> verify_password p h = true.
Proof.
  unfold hash_password, verify_password. destruct (argon2id_hash_encoded _ _ _ _ _ _) as [rc|enc] eqn:He; [done|].
  apply argon2_verifies in He as (Hne & Hc & Hv). intros [= <-]. rewrite Hc.
  apply is_empty_false in Hne. by rewrite Hne, Hc, Hv.
Qed.

Definition credential_columns (input : CreateCredentialInput) (hash : string) : members :=
  [("id", JString (ci_username input)); ("passwordHash", JString hash)] ++
  (if negb (is_empty (ci_tenantId input)) then [("tenantId", JString (ci_tenantId input))] else []) ++
  (if negb (is_empty (ci_email input)) then [("email", JString (ci_email input))] else []).

Lemma credential_columns_get input h :
  obj_get "passwordHash" (build (credential_columns input h)) = Some (JString h) /\
  (ci_tenantId input <> "" ->
   obj_get "tenantId" (build (credential_columns input h)) = Some (JString (ci_tenantId input))).
Proof.
  unfold credential_columns. split.
  - by destruct (is_empty (ci_tenantId input)), (is_empty (ci_email input)).
  - intros ->%is_empty_false. by destruct (is_empty (ci_email input)).
Qed.

(** The row a password that is set leaves behind. *)
Definition written (input : CreateCredentialInput) (hash : string) (db db' : table) : Prop :=
  exists m, db' = <[ci_username input := m]> db /\ obj_get "passwordHash" m = Some (JString hash) /\
    match db !! ci_username input with
    | Some m0 => forall k, k <> "passwordHash" -> obj_get k m = obj_get k m0
    | None => ci_tenantId input <> "" -> obj_get "tenantId" m = Some (JString (ci_tenantId input))
    end.

Lemma setCredential_writes what input w b w' :
  setCredential what salt input w = (Ok b, w') ->
  isValidUsername (ci_username input) = true /\ isValidCredentialPassword (ci_passwordHash input) = true /\
  exists h, verify_password (ci_passwordHash input) h = true /\ written input h (creds w) (creds w').
Proof.
  unfold setCredential. intros Hx. apply run_reject_inv in Hx as [Hu Hx]. apply run_reject_inv in Hx as [Hp Hx].
  apply negb_false_iff in Hu, Hp. apply run_bind_inv in Hx as (h & w1 & Hh & Hx).
  destruct (hash_password salt (ci_passwordHash input)) as [enc|e|x|] eqn:Henc; try done.
  injection Hh as <- <-. apply hash_verifies in Henc.
  apply run_bind_inv in Hx as (row & w2 & Hup & [= <- <-]). split; [done|]. split; [done|]. exists enc. split; [done|].
  fold (credential_columns input enc) in Hup. unfold object in Hup.
  pose proof (creds_upsert w (ci_username input) (build (credential_columns input enc))
    (build [("passwordHash", JString enc)])) as Hl.
  rewrite Hup in Hl. unfold written. destruct (creds w !! ci_username input) as [m0|].
  - destruct Hl as (m & -> & Hpat). exists m. split; [done|]. split; [exact (Hpat "passwordHash")|].
    intros k Hk. rewrite (Hpat k). cbn. by destruct (String.eqb_spec k "passwordHash").
  - destruct Hl as (m & -> & Hkeep). exists m. split; [done|].
    destruct (credential_columns_get input enc) as [Hh Ht]. split; [by rewrite Hkeep, Hh by (by rewrite Hh)|].
    intros Hne. by rewrite Hkeep, (Ht Hne) by (by rewrite (Ht Hne)).
Qed.

Lemma valid_username_nonempty u : isValidUsername u = true -> u <> "".
Proof. by intros Hx ->. Qed.
Lemma valid_password_nonempty p : isValidCredentialPassword p = true -> p <> "".
Proof. by intros Hx ->. Qed.

(** C27. Setting a password takes effect, on its user alone: the username and the
    password are of the form the validators ask for, the user signs in with the
    new password at once, and no other credential changes.  A user who had a
    credential keeps its tenant; a new one is of the tenant asked for. *)
Theorem setCredential_roundtrip what input w b w' :
  setCredential what salt input w = (Ok b, w') ->
  isValidUsername (ci_username input) = true /\ isValidCredentialPassword (ci_passwordHash input) = true /\
  (verifyCredential salt (ci_username input) (ci_passwordHash input) w').1 = Ok true /\
  (forall u, u <> ci_username input -> creds w' !! u = creds w !! u) /\
  match creds w !! ci_username input with
  | Some _ => (getCredentialTenantId (ci_username input) w').1 = tenant_of (creds w) (ci_username input)
  | None => ci_tenantId input <> "" ->
      (getCredentialTenantId (ci_username input) w').1 = Ok (ci_tenantId input)
  end.
Proof.
  intros (Hu & Hp & h & Hv & m & Hw' & Hh & Hm)%setCredential_writes. split_and!; try done.
  - apply verifyCredential_iff. split_and!; [by apply valid_username_nonempty|by apply valid_password_nonempty|].
    exists m. rewrite Hw', lookup_insert_eq. split; [done|]. unfold hash_good, string_member. cbn [member]. by rewrite Hh.
  - intros u Hne. rewrite Hw'. by apply lookup_insert_ne.
  - rewrite (proj1 (getCredentialTenantId_eq _ _)). unfold tenant_of. rewrite Hw', lookup_insert_eq.
    destruct (creds w !! ci_username input) as [m0|]; [by rewrite (Hm "tenantId")|].
    intros Hne. rewrite (Hm Hne). apply is_empty_false in Hne. by rewrite Hne.
Qed.
End CredentialTheory.

(** ** Users (client_user_ops.cpp) *)

Record CreateUserInput := mkCreateUser {
  cu_username : string; cu_email : string; cu_role : string; cu_profilePicture : option string;
  cu_bio : option string; cu_createdAt : option Timestamp; cu_tenantId : option string;
  cu_isInstanceOwner : option bool; cu_passwordChangeTimestamp : option Timestamp; cu_firstLogin : option bool;
}.
Record UpdateUserInput := mkUpdateUser {
  uu_username : option string; uu_email : option string; uu_role : option string;
  uu_profilePicture : option string; uu_bio : option string; uu_tenantId : option string;
  uu_isInstanceOwner : option bool; uu_passwordChangeTimestamp : option Timestamp; uu_firstLogin : option bool;
}.
Record UpdateUserBatchItem := mkUpdateItem { ui_id : string; ui_data : UpdateUserInput }.

(** [Timestamp] counts nanoseconds: a number of milliseconds that does not fit is
    undefined, as signed overflow is; the conversion back drops the fraction. *)
Definition epochMsToTimestamp (ms : Z) : Result Timestamp :=
  if in_int64 (ms * 1000000) then Ok (ms * 1000000)%Z else Undef.
Definition timestampToEpochMs (ts : Timestamp) : Z := Z.quot ts 1000000.

Definition get_bool (v : json) : Result bool :=
  match v with JBool b => Ok b | _ => Throw (json_error 302) end.

(** [if (j.contains(k) && !j[k].is_null()) x = j[k].get<A>();] *)
Definition unless_null {A} (j : json) (k : string) (get : json -> Result A) : Result (option A) :=
  match member j k with
  | None | Some JNull => Ok None
  | Some v => a ← get v; Ok (Some a)
  end.
Definition get_timestamp (v : json) : Result Timestamp := ms ← get_int64 v; epochMsToTimestamp ms.

Definition userFromJson (j : json) : Result User :=
  id ← value_string j "id" "";
  username ← value_string j "username" "";
  email ← value_string j "email" "";
  role ← value_string j "role" "";
  profilePicture ← unless_null j "profilePicture" get_string;
  bio ← unless_null j "bio" get_string;
  createdAt ← unless_null j "createdAt" get_timestamp;
  tenantId ← unless_null j "tenantId" get_string;
  isInstanceOwner ← unless_null j "isInstanceOwner" get_bool;
  passwordChangeTimestamp ← unless_null j "passwordChangeTimestamp" get_timestamp;
  firstLogin ← unless_null j "firstLogin" get_bool;
  Ok (mkUser id username email role profilePicture bio createdAt tenantId isInstanceOwner
        passwordChangeTimestamp firstLogin).

(** [if (o) data[k] = *o;] *)
Definition if_set {A} (k : string) (f : A -> json) (o : option A) : members :=
  match o with Some a => [(k, f a)] | None => [] end.
Definition ms_json (ts : Timestamp) : json := JInt (timestampToEpochMs ts).

(** The members both inputs share. *)
Definition optional_members (profilePicture bio tenantId : option string) (isInstanceOwner : option bool)
    (passwordChangeTimestamp : option Timestamp) (firstLogin : option bool) : members :=
  if_set "profilePicture" JString profilePicture ++ if_set "bio" JString bio ++
  if_set "tenantId" JString tenantId ++ if_set "isInstanceOwner" JBool isInstanceOwner ++
  if_set "passwordChangeTimestamp" ms_json passwordChangeTimestamp ++ if_set "firstLogin" JBool firstLogin.

Definition createUserToJson (input : CreateUserInput) : json :=
  object ([("username", JString (cu_username input)); ("email", JString (cu_email input));
           ("role", JString (if is_empty (cu_role input) then "user" else cu_role input))] ++
    optional_members (cu_profilePicture input) (cu_bio input) (cu_tenantId input) (cu_isInstanceOwner input)
      (cu_passwordChangeTimestamp input) (cu_firstLogin input)).

(** Without any member the value stays null. *)
Definition updateUserToJson (input : UpdateUserInput) : json :=
  match (if_set "username" JString (uu_username input) ++ if_set "email" JString (uu_email input) ++
    if_set "role" JString (uu_role input) ++
    optional_members (uu_profilePicture input) (uu_bio input) (uu_tenantId input) (uu_isInstanceOwner input)
      (uu_passwordChangeTimestamp input) (uu_firstLogin input))%list with
  | [] => JNull
  | l => object l
  end.

Section Users.
Context {W : Type} `{!Adapter W}.

Definition no_user_id {A} : Op W A := fail (validationError "User ID cannot be empty").

Definition createUser (input : CreateUserInput) : Op W User :=
  row ← do_create "User" (createUserToJson input); of_result (userFromJson row).

Definition getUser (id : string) : Op W User :=
  if is_empty id then no_user_id else row ← do_read "User" id; of_result (userFromJson row).

Definition updateUser (id : string) (input : UpdateUserInput) : Op W User :=
  if is_empty id then no_user_id
  else row ← do_update "User" id (updateUserToJson input); of_result (userFromJson row).

Definition deleteUser (id : string) : Op W bool :=
  if is_empty id then no_user_id else do_remove "User" id.

Fixpoint users_from (items : list json) : Result (list User) :=
  match items with
  | [] => Ok []
  | item :: items => u ← userFromJson item; us ← users_from items; Ok (u :: us)
  end.
Definition listUsers (options : ListOptions) : Op W (list User) :=
  result ← do_list "User" options; of_result (users_from (lr_items result)).

(** The loop of the three batch operations. *)
Fixpoint count_each {A B} (f : A -> Op W B) (l : list A) (n : Z) : Op W Z :=
  match l with [] => mret n | a :: l => _ ← f a; count_each f l (n + 1) end.
Definition batchCreateUsers (inputs : list CreateUserInput) : Op W Z :=
  match inputs with [] => mret 0%Z | _ => count_each createUser inputs 0 end.
Definition batchUpdateUsers (updates : list UpdateUserBatchItem) : Op W Z :=
  match updates with [] => mret 0%Z | _ => count_each (fun item => updateUser (ui_id item) (ui_data item)) updates 0 end.
Definition batchDeleteUsers (ids : list string) : Op W Z :=
  match ids with [] => mret 0%Z | _ => count_each deleteUser ids 0 end.

(** The loop of [searchUsers]; [found] is how many it has. *)
Fixpoint matching_users (query : string) (limit : Z) (users : list User) (found : Z) : list User :=
  match users with
  | [] => []
  | user :: users =>
      if containsInsensitive (user_username user) query || containsInsensitive (user_email user) query then
        user :: (if (0 <? limit)%Z && (limit <=? found + 1)%Z then [] else matching_users query limit users (found + 1))
      else matching_users query limit users found
  end.
Definition users_listed : ListOptions :=
  {| opt_filter := ∅; opt_sort := ∅; opt_page := 1; opt_limit := 10000 |}.
Definition searchUsers (query : string) (limit : Z) : Op W (list User) :=
  reject_if (is_empty query) (validationError "search query is required");;
  all ← listUsers users_listed;
  mret (matching_users query limit all 0).

Definition countUsers (role : option string) : Op W Z :=
  let options := {| opt_filter := match role with Some r => {["role" := r]} | None => ∅ end;
                    opt_sort := ∅; opt_page := 1; opt_limit := 1 |} in
  result ← do_list "User" options; mret (lr_total result).

(** A map of texts as a JSON object. *)
Definition filter_json (filter : gmap string string) : json :=
  JObject ((fun kv => (kv.1, JString kv.2)) <$> map_items filter).

Definition updateManyUsers (filter : gmap string string) (updates : UpdateUserInput) : Op W Z :=
  reject_if (bool_decide (filter = ∅)) (validationError "filter is required for bulk updates");;
  do_updateMany "User" (filter_json filter) (updateUserToJson updates).
Definition deleteManyUsers (filter : gmap string string) : Op W Z :=
  reject_if (bool_decide (filter = ∅)) (validationError "filter is required for bulk deletes");;
  do_deleteMany "User" (filter_json filter).
End Users.

(** ** What the user operations answer *)

Definition user_matches (query : string) (u : User) : bool :=
  containsInsensitive (user_username u) query || containsInsensitive (user_email u) query.

Lemma matching_users_eq query limit users : forall found, (0 <= found)%Z -> (limit <= 0 \/ found < limit)%Z ->
  matching_users query limit users found =
  if (0 <? limit)%Z then take (Z.to_nat (limit - found)) (List.filter (user_matches query) users)
  else List.filter (user_matches query) users.
Proof.
  induction users as [|u us IH]; intros found H0 Hroom; cbn [matching_users List.filter].
  { destruct (0 <? limit)%Z; [by rewrite take_nil|done]. }
  fold (user_matches query u). destruct (user_matches query u); [|by apply IH].
  destruct (Z.ltb_spec 0 limit) as [Hl|Hl]; cbn [andb].
  - destruct (Z.leb_spec limit (found + 1)) as [Hfull|Hfull].
    + replace (Z.to_nat (limit - found)) with 1 by lia. by rewrite firstn_cons, take_0.
    + rewrite IH by lia.
      replace (Z.to_nat (limit - found)) with (S (Z.to_nat (limit - (found + 1)))) by lia. done.
  - by rewrite IH by lia.
Qed.

(** What a search finds: of the ten thousand users it lists, in their order, those
    whose name or address contains the text in whatever case, and of these the
    first [limit] when a limit is given. *)
Lemma searchUsers_spec {W} `{!Adapter W} query limit (w w' : W) found :
  searchUsers query limit w = (Ok found, w') ->
  exists all, listUsers users_listed w = (Ok all, w') /\
    found = (if (0 <? limit)%Z then take (Z.to_nat limit) (List.filter (user_matches query) all)
             else List.filter (user_matches query) all).
Proof.
  unfold searchUsers. intros Hx. apply run_reject_inv in Hx as [_ Hx].
  apply run_bind_inv in Hx as (all & w1 & Hall & [= <- <-]). exists all. split; [done|].
  rewrite matching_users_eq by lia. by rewrite Z.sub_0_r.
Qed.

(** [m] is the row a database keeps of [data]: its identifier besides, and nulls. *)
Definition row_of (data : members) (id : string) (m : members) : Prop :=
  obj_get "id" m = Some (JString id) /\
  forall k, k <> "id" -> obj_get k m = obj_get k data \/ (obj_get k data = None /\ obj_get k m = Some JNull).

(** What is left of a time that went through the database. *)
Definition whole_ms (ts : Timestamp) : Timestamp := (Z.quot ts 1000000 * 1000000)%Z.

Lemma whole_ms_range ts : in_int64 ts = true -> in_int64 (whole_ms ts) = true.
Proof. unfold in_int64, whole_ms. rewrite !andb_true_iff, !Z.leb_le, !Z.ltb_lt. intros [? ?]. Z.to_euclidean_division_equations. lia. Qed.

Lemma get_timestamp_ms ts : in_int64 ts = true -> get_timestamp (ms_json ts) = Ok (whole_ms ts).
Proof.
  intros Hr%whole_ms_range. unfold get_timestamp, ms_json, epochMsToTimestamp. cbn. unfold timestampToEpochMs.
  fold (whole_ms ts). by rewrite Hr.
Qed.

Lemma value_string_row data id m k s : row_of data id m -> k <> "id" -> obj_get k data = Some (JString s) ->
  value_string (JObject m) k "" = Ok s.
Proof. intros [_ Hr] Hk Hd. unfold value_string. destruct (Hr k Hk) as [->|[Hn _]]; [by rewrite Hd|congruence]. Qed.

Lemma unless_null_row {A} data id m k (get : json -> Result A) (f : A -> json) (o : option A) (g : A -> A) :
  row_of data id m -> k <> "id" -> obj_get k data = f <$> o ->
  (forall a, o = Some a -> f a <> JNull /\ get (f a) = Ok (g a)) ->
  unless_null (JObject m) k get = Ok (g <$> o).
Proof.
  intros [_ Hr] Hk Hd Hg. unfold unless_null. cbn [member].
  destruct (Hr k Hk) as [->|[Hn ->]]; rewrite Hd in *; destruct o as [a|]; cbn in *; try done.
  destruct (Hg a eq_refl) as [Hnn Hga]. destruct (f a); [done| | | | | |]; by rewrite Hga.
Qed.

(** The data a user is created from. *)
Definition user_data (input : CreateUserInput) : members :=
  match createUserToJson input with JObject m => m | _ => [] end.

Lemma user_data_get input :
  let d := user_data input in
  obj_get "username" d = Some (JString (cu_username input)) /\
  obj_get "email" d = Some (JString (cu_email input)) /\
  obj_get "role" d = Some (JString (if is_empty (cu_role input) then "user" else cu_role input)) /\
  obj_get "profilePicture" d = JString <$> cu_profilePicture input /\ obj_get "bio" d = JString <$> cu_bio input /\
  obj_get "createdAt" d = None /\ obj_get "tenantId" d = JString <$> cu_tenantId input /\
  obj_get "isInstanceOwner" d = JBool <$> cu_isInstanceOwner input /\
  obj_get "passwordChangeTimestamp" d = ms_json <$> cu_passwordChangeTimestamp input /\
  obj_get "firstLogin" d = JBool <$> cu_firstLogin input.
Proof.
  destruct input as [un em ro pp bio ca te io pc fl]. unfold user_data, createUserToJson, optional_members. cbn [cu_username
    cu_email cu_role cu_profilePicture cu_bio cu_createdAt cu_tenantId cu_isInstanceOwner cu_passwordChangeTimestamp
    cu_firstLogin]. generalize (if is_empty ro then "user" else ro). intros r.
  destruct pp, bio, te, io, pc, fl; cbn; split_and!; reflexivity.
Qed.

(** A user comes back as created: read from the row the database keeps, it has
    every field of the input, the role "user" where none was given, times to the
    millisecond.  The exception is the creation time, which is never written. *)
Theorem created_user_read_back input id m :
  row_of (user_data input) id m ->
  (forall ts, cu_passwordChangeTimestamp input = Some ts -> in_int64 ts = true) ->
  userFromJson (JObject m) = Ok (mkUser id (cu_username input) (cu_email input)
    (if is_empty (cu_role input) then "user" else cu_role input) (cu_profilePicture input) (cu_bio input)
    None (cu_tenantId input) (cu_isInstanceOwner input) (whole_ms <$> cu_passwordChangeTimestamp input)
    (cu_firstLogin input)).
Proof.
  intros Hrow Hts. destruct (user_data_get input) as (Hun & Hem & Hro & Hpp & Hbi & Hca & Hte & Hio & Hpc & Hfl).
  unfold userFromJson. destruct Hrow as [Hid Hrow'] eqn:Hr. pose proof (conj Hid Hrow' : row_of _ id m) as Hrow1.
  rewrite (value_string_member m "id" id) by (by apply string_member_get). clear Hr.
  rewrite (value_string_row _ _ _ "username" _ Hrow1 ltac:(done) Hun),
    (value_string_row _ _ _ "email" _ Hrow1 ltac:(done) Hem), (value_string_row _ _ _ "role" _ Hrow1 ltac:(done) Hro).
  rewrite (unless_null_row _ _ _ "profilePicture" get_string JString _ (fun s => s) Hrow1 ltac:(done) Hpp),
    (unless_null_row _ _ _ "bio" get_string JString _ (fun s => s) Hrow1 ltac:(done) Hbi),
    (unless_null_row _ _ _ "createdAt" get_timestamp ms_json None (fun s => s) Hrow1 ltac:(done) Hca),
    (unless_null_row _ _ _ "tenantId" get_string JString _ (fun s => s) Hrow1 ltac:(done) Hte),
    (unless_null_row _ _ _ "isInstanceOwner" get_bool JBool _ (fun s => s) Hrow1 ltac:(done) Hio),
    (unless_null_row _ _ _ "passwordChangeTimestamp" get_timestamp ms_json _ whole_ms Hrow1 ltac:(done) Hpc),
    (unless_null_row _ _ _ "firstLogin" get_bool JBool _ (fun s => s) Hrow1 ltac:(done) Hfl); try done.
  2: { intros ts Ht. split; [done|]. by apply get_timestamp_ms, Hts. }
  unfold mbind, Result_bind. rewrite !option_fmap_id. done.
Qed.

(** ** A run on the database in memory *)

(** Of the adapter's calls, those that signing in makes. *)
Definition login_adapter : Adapter TableDb := {|
  do_create _ _ := unsupported; do_update _ _ _ := unsupported; do_remove e id := fun db =>
    (Ok true, <[e := delete id (table_of db e)]> db);
  do_read e id := fun db =>
    match view db e !! id with Some m => (Ok (JObject m), db) | None => (Err (notFound id), db) end;
  do_readIncludingSensitive e id := fun db =>
    match view db e !! id with Some m => (Ok (JObject m), db) | None => (Err (notFound id), db) end;
  do_findByField e k v := fun db =>
    match v with
    | JString s =>
        match matching {[k := s]} (view db e) with
        | m :: _ => (Ok (JObject m), db) | [] => (Err (notFound e), db)
        end
    | _ => (Err (notFound e), db)
    end;
  do_upsert e f v cd ud := fun db =>
    match v, cd, ud with
    | JString u, JObject c, JObject d =>
        if is_empty u || bool_decide (string_member (JObject c) "id" <> Some u) || has_member (JObject d) "id"
        then (Err (validationError "identifier"), db)
        else
          let m := match view db e !! u with Some m => merge d m | None => c end in
          (Ok (JObject m), <[e := <[u := m]> (table_of db e)]> db)
    | _, _, _ => (Err (validationError "not objects"), db)
    end;
  do_createMany _ _ := unsupported; do_updateMany _ _ _ := unsupported; do_deleteMany _ _ := unsupported;
  do_search := default_search; do_list _ _ := unsupported; do_findFirst _ _ := unsupported;
  do_getAvailableEntities := unsupported; do_getEntitySchema _ := unsupported;
  do_close := mret tt; supportsNativeTransactions := false;
  do_beginTransaction := default_transaction; do_commitTransaction := default_transaction;
  do_rollbackTransaction := default_transaction;
|}.

Lemma view_shown db e id m : view db e !! id = Some m -> obj_get "id" m = Some (JString id) /\ id <> "".
Proof. unfold view. rewrite map_lookup_filter_Some. intros [_ [Hid Hne]]. split; [|done]. by apply string_member_get. Qed.

#[program] Definition login_credentials : @CredentialTable TableDb login_adapter := {| creds db := view db "Credential" |}.
Next Obligation. intros db id. cbn. destruct (view db "Credential" !! id) as [m|] eqn:Hm; [|done]. eauto. Qed.
Next Obligation.
  intros db email. cbn. destruct (matching {["email" := email]} (view db "Credential")) as [|m ms] eqn:Hf.
  - split; [done|]. intros id m Hm Hem.
    assert (m ∈ matching {["email" := email]} (view db "Credential")) as Hin by (apply elem_of_matching; eauto).
    rewrite Hf in Hin. by apply elem_of_nil in Hin.
  - split; [done|]. assert (m ∈ matching {["email" := email]} (view db "Credential")) as Hin
      by (rewrite Hf; apply list_elem_of_here).
    apply elem_of_matching in Hin as (id & Hid & Hem). exists m, id, m. split_and!; try done.
    apply string_member_get. by apply view_shown in Hid as [? _].
Qed.
Next Obligation. intros db id. cbn. destruct (view db "Credential" !! id) as [m|] eqn:Hm; [|done]. eauto 6. Qed.
Next Obligation.
  intros db u c d. cbn [do_upsert login_adapter]. destruct (is_empty u) eqn:Hu; [done|]. apply is_empty_false in Hu.
  destruct (decide (string_member (JObject c) "id" = Some u)) as [Hc|Hc]; [|by rewrite bool_decide_eq_true_2].
  rewrite bool_decide_eq_false_2 by tauto. apply string_member_get in Hc.
  unfold has_member. cbn [orb member]. destruct (obj_get "id" d) eqn:Hd; [done|]. cbn [has_member member].
  assert (forall m, obj_get "id" m = Some (JString u) -> view (<["Credential" := <[u := m]> (table_of db "Credential")]> db)
    "Credential" = <[u := m]> (view db "Credential")) as Hview.
  { intros m Hm. apply view_insert. split; [|done]. by apply string_member_get. }
  destruct (view db "Credential" !! u) as [m|] eqn:Hm.
  - exists (merge d m). split; [|apply merge_get]. apply Hview. rewrite (merge_get d m "id"), Hd.
    by apply view_shown in Hm as [? _].
  - exists c. split; [by apply Hview|done].
Qed.

#[program] Definition plain_argon2 : Argon2 := {|
  argon2id_hash_encoded _ _ _ pwd _ _ :=
    if String.eqb (c_str pwd) pwd then inr ("$" +:+ pwd) else inl (-1)%Z;
  argon2id_verify encoded pwd := if String.eqb encoded ("$" +:+ pwd) then 0%Z else (-35)%Z;
  argon2_error_message _ := "error";
|}.
Next Obligation.
  intros t m p pwd salt n encoded. cbn beta iota. destruct (String.eqb_spec (c_str pwd) pwd) as [He|]; [|done].
  intros [= <-]. split; [done|]. split.
  - change (c_str ("$" +:+ pwd)) with (String "$" (c_str pwd)). by rewrite He.
  - by rewrite String.eqb_refl.
Qed.

#[local] Existing Instance plain_argon2.
#[local] Existing Instance login_adapter.
#[local] Existing Instance login_credentials.

Definition ada_signs_up : CreateCredentialInput := mkCredentialInput "ada" "lovelace1815" "acme" "ada@example.org".
Definition plain_what (x : Exn) : string := match x with runtime_error m => m | _ => "" end.
Definition with_ada : TableDb := (setCredential plain_what "salt" ada_signs_up (∅ : TableDb)).2.

Example ada_signs_in :
  (verifyCredentialIdentifier "salt" "ada@example.org" "lovelace1815" with_ada).1 = Ok "ada" /\
  (verifyCredentialIdentifier "salt" "ada" "Lovelace1815" with_ada).1 = Err (unauthorized "Invalid credentials").
Proof. vm_compute. split; reflexivity. Qed.

Lemma setCredential_roundtrip_witness :
  (setCredential plain_what "salt" ada_signs_up (∅ : TableDb)).1 = Ok true /\
  (verifyCredential "salt" "ada" "lovelace1815" with_ada).1 = Ok true /\
  (getCredentialTenantId "ada" with_ada).1 = Ok "acme".
Proof.
  assert ((setCredential plain_what "salt" ada_signs_up (∅ : TableDb)).1 = Ok true) as Hset by (vm_compute; reflexivity).
  split; [exact Hset|].
  assert (creds (∅ : TableDb) !! "ada" = None) as Hnew by (vm_compute; reflexivity).
  destruct (setCredential_roundtrip "salt" plain_what ada_signs_up (∅ : TableDb) true with_ada) as (_ & _ & Hv & _ & Ht).
  { exact (surjective_pairing (setCredential plain_what "salt" ada_signs_up (∅ : TableDb))). }
  cbn [ada_signs_up ci_username ci_passwordHash ci_tenantId] in Hv, Ht. rewrite Hnew in Ht.
  split; [exact Hv|]. apply Ht. discriminate.
Defined.

Definition grace : CreateUserInput :=
  mkCreateUser "grace" "grace@example.org" "" None (Some "admiral") (Some 5%Z) (Some "acme") (Some false) (Some 1234567890%Z) None.

Lemma created_user_read_back_witness :
  userFromJson (JObject (obj_set "id" (JString "u1") (user_data grace))) =
  Ok (mkUser "u1" "grace" "grace@example.org" "user" None (Some "admiral") None (Some "acme") (Some false)
        (Some 1234000000%Z) None).
Proof.
  apply (created_user_read_back grace "u1").
  - split; [reflexivity|]. intros k Hk. left. rewrite obj_get_set. by destruct (String.eqb_spec k "id").
  - intros ts [= <-]. reflexivity.
Defined.
