(* ===== verification/TokenIssuer.v ===== *)
(** * Tokens of the provider

    Models src/oidc/tokens/token_issuer.cpp, src/security/jwt/rs_jwt_validator.cpp
    and src/oidc/crypto/jwks.hpp: the payloads the provider signs, and the claims
    the validator reads from a token that verifies.  Signing, decoding and
    verifying are the library's (the class [JwtCpp]). *)

From Stdlib Require Import SpecFloat.
From S2P Require Import Prelude CxxString CxxStd Json PlainJson Jwt EntityHost Oidc.

Open Scope string_scope.

(** jwt-cpp: [jwt_sign] signs a payload under a private key and key identifier,
    [None] when it throws; [jwt_verified] is the payload of a token whose RS256
    signature verifies under the public key, with that issuer and within the times
    it names, at a time in seconds; [llround] rounds a double. *)
Class JwtCpp := {
  jwt_key_pair : forall public_pem private_pem : string, Prop;
  jwt_sign : forall private_pem kid : string, forall payload : json, option string;
  jwt_verified : forall public_pem issuer : string, forall now : Z, forall token : string, option json;
  llround : spec_float -> Z;
  jwt_signed_verifies : forall pub priv kid m token issuer now iat exp,
    jwt_key_pair pub priv -> jwt_sign priv kid (JObject m) = Some token ->
    obj_get "iss" m = Some (JString issuer) -> obj_get "iat" m = Some (JInt iat) ->
    obj_get "exp" m = Some (JInt exp) -> (iat <= now <= exp)%Z ->
    jwt_verified pub issuer now token = Some (JObject m);
}.

(** ** Issuing *)

(** What [RsaKeypair] holds. *)
Record RsaKeypair := mkKeypair {
  kp_privateKeyPem : string; kp_publicKeyPem : string; kp_kid : string;
  kp_modulusB64Url : string; kp_exponentB64Url : string;
}.

Definition buildJwks (keypair : RsaKeypair) : json :=
  object [("keys", JArray [object [
    ("kty", JString "RSA"); ("use", JString "sig"); ("alg", JString "RS256"); ("kid", JString (kp_kid keypair));
    ("n", JString (kp_modulusB64Url keypair)); ("e", JString (kp_exponentB64Url keypair))]])].

(** The claims both tokens have; [now] is the clock in seconds, [jti] a random
    token. *)
Definition registered_claims (issuer subject audience : string) (now ttlSeconds : Z) (jti : string) : members :=
  [("iss", JString issuer); ("sub", JString subject); ("aud", JString audience); ("iat", JInt now);
   ("exp", JInt (now + ttlSeconds)); ("jti", JString jti)].

Definition id_token_members (issuer : string) (now : Z) (jti : string) (claims : IdTokenClaims) : members :=
  registered_claims issuer (ic_subject claims) (ic_audience claims) now (ic_ttlSeconds claims) jti ++
  [("sid", JString (ic_sid claims)); ("tenant_id", JString (ic_tenantId claims)); ("auth_time", JInt (ic_authTime claims))] ++
  (match ic_nonce claims with Some nonce => [("nonce", JString nonce)] | None => [] end).

Definition access_token_members (issuer : string) (now : Z) (jti : string) (claims : AccessTokenClaims) : members :=
  registered_claims issuer (ac_subject claims) (ac_audience claims) now (ac_ttlSeconds claims) jti ++
  [("tenant_id", JString (ac_tenantId claims)); ("scope", JString (ac_scope claims)); ("role", JString (ac_role claims))].

Section Issuing.
Context `{!JwtCpp} (keypair : RsaKeypair) (issuer : string) (now : Z) (jti : string).

Definition issueIdToken (claims : IdTokenClaims) : option string :=
  jwt_sign (kp_privateKeyPem keypair) (kp_kid keypair) (object (id_token_members issuer now jti claims)).
Definition issueAccessToken (claims : AccessTokenClaims) : option string :=
  jwt_sign (kp_privateKeyPem keypair) (kp_kid keypair) (object (access_token_members issuer now jti claims)).
End Issuing.

(** ** Validating *)

(** The library's accessors: an absent claim or one of another type throws. *)
Definition no_claim : Exn := runtime_error "claim not found".
Definition bad_claim : Exn := runtime_error "std::bad_cast".
Definition string_claim (payload : json) (k : string) : Result string :=
  match member payload k with
  | Some (JString s) => Ok s
  | Some _ => Throw bad_claim
  | None => Throw no_claim
  end.
(** [if (decoded.has_payload_claim(k)) x = decoded.get_payload_claim(k).as_string();] *)
Definition optional_claim (payload : json) (k : string) : Result string :=
  match member payload k with None => Ok "" | Some _ => string_claim payload k end.

(** The first of a set of strings, "" of the empty set. *)
Definition least (l : list string) : string :=
  match l with [] => "" | s :: l => foldl (fun a b => if String.ltb b a then b else a) s l end.
Definition audience_claim (payload : json) : Result string :=
  match member payload "aud" with
  | None => Ok ""
  | Some (JString s) => Ok s
  | Some (JArray l) => match get_strings l with Ok l => Ok (least l) | _ => Throw bad_claim end
  | Some _ => Throw bad_claim
  end.

Section Validating.
Context `{!JwtCpp}.

Definition expiry_claim (payload : json) : Result Z :=
  match member payload "exp" with
  | Some (JInt z) => Ok z
  | Some (JFloat f) => Ok (llround f)
  | Some _ => Throw bad_claim
  | None => Throw no_claim
  end.

(** [RsJwtValidator::validate] *)
Definition rs_validate (public_key_pem issuer : string) (now : Z) (token : string) : Result (option JwtClaims) :=
  if is_empty public_key_pem then Ok None
  else or_nullopt (
    match jwt_verified public_key_pem issuer now token with
    | None => Throw bad_claim
    | Some decoded =>
        user_id ← string_claim decoded "sub";
        aud ← audience_claim decoded;
        iss ← string_claim decoded "iss";
        exp ← expiry_claim decoded;
        tenant_id ← optional_claim decoded "tenant_id";
        scope ← optional_claim decoded "scope";
        role ← optional_claim decoded "role";
        if is_empty user_id then Ok None
        else Ok (Some (mkClaims user_id "" exp tenant_id scope aud iss role))
    end).
End Validating.

(** ** What is issued is read back *)

Lemma obj_get_build_app k l l' :
  obj_get k (build (l ++ l')) = match obj_get k (build l') with Some v => Some v | None => obj_get k (build l) end.
Proof. by rewrite !obj_get_build, reverse_app, obj_get_app. Qed.

Section Tokens.
Context `{!JwtCpp} (keypair : RsaKeypair).
Context (pair_ok : jwt_key_pair (kp_publicKeyPem keypair) (kp_privateKeyPem keypair)).
Context (pem_ok : kp_publicKeyPem keypair <> "").

Lemma optional_claim_eq m k o :
  obj_get k m = JString <$> o -> optional_claim (JObject m) k = Ok (default "" o).
Proof. intros Hk. unfold optional_claim, string_claim. cbn [member]. rewrite Hk. by destruct o. Qed.

Lemma verified_claims issuer now t m token ttl sub aud tenant scope role :
  jwt_sign (kp_privateKeyPem keypair) (kp_kid keypair) (JObject m) = Some token ->
  obj_get "iss" m = Some (JString issuer) -> obj_get "iat" m = Some (JInt now) ->
  obj_get "exp" m = Some (JInt (now + ttl)) -> obj_get "sub" m = Some (JString sub) ->
  obj_get "aud" m = Some (JString aud) -> obj_get "tenant_id" m = Some (JString tenant) ->
  obj_get "scope" m = JString <$> scope -> obj_get "role" m = JString <$> role ->
  sub <> "" -> (now <= t <= now + ttl)%Z ->
  rs_validate (kp_publicKeyPem keypair) issuer t token =
  Ok (Some (mkClaims sub "" (now + ttl) tenant (default "" scope) aud issuer (default "" role))).
Proof.
  intros Hs Hi Ha He Hsub Haud Hten Hsc Hro Hne%is_empty_false Ht.
  unfold rs_validate. destruct (is_empty (kp_publicKeyPem keypair)) eqn:Hp; [by apply is_empty_true in Hp|].
  rewrite (jwt_signed_verifies _ _ _ _ _ _ t _ _ pair_ok Hs Hi Ha He) by lia.
  rewrite (optional_claim_eq m "tenant_id" (Some tenant) Hten), (optional_claim_eq m "scope" scope Hsc),
    (optional_claim_eq m "role" role Hro).
  unfold string_claim, audience_claim, expiry_claim. cbn [member]. rewrite Hi, He, Hsub, Haud.
  unfold mbind, Result_bind. by rewrite Hne.
Qed.

(** An access token is read back as it was issued, until it expires: the
    validator answers the subject, audience, tenant, scope, role and issuer the
    provider signed, and the expiry is the issuing time and the lifetime. *)
Theorem access_token_roundtrip issuer now t jti claims token :
  issueAccessToken keypair issuer now jti claims = Some token ->
  ac_subject claims <> "" -> (now <= t <= now + ac_ttlSeconds claims)%Z ->
  rs_validate (kp_publicKeyPem keypair) issuer t token =
  Ok (Some (mkClaims (ac_subject claims) "" (now + ac_ttlSeconds claims) (ac_tenantId claims) (ac_scope claims)
    (ac_audience claims) issuer (ac_role claims))).
Proof.
  unfold issueAccessToken, object. intros Hs Hsub Ht.
  by rewrite (verified_claims issuer now t _ token (ac_ttlSeconds claims) (ac_subject claims) (ac_audience claims)
    (ac_tenantId claims) (Some (ac_scope claims)) (Some (ac_role claims)) Hs).
Qed.

(** An identity token passes for an access token: the validator, which guards the
    routes of the entities, accepts it too, with no scope and no role. *)
Lemma id_token_accepted issuer now t jti claims token :
  issueIdToken keypair issuer now jti claims = Some token ->
  ic_subject claims <> "" -> (now <= t <= now + ic_ttlSeconds claims)%Z ->
  rs_validate (kp_publicKeyPem keypair) issuer t token =
  Ok (Some (mkClaims (ic_subject claims) "" (now + ic_ttlSeconds claims) (ic_tenantId claims) ""
    (ic_audience claims) issuer "")).
Proof.
  unfold issueIdToken, object. intros Hs Hsub Ht.
  rewrite (verified_claims issuer now t _ token (ic_ttlSeconds claims) (ic_subject claims) (ic_audience claims)
    (ic_tenantId claims) None None Hs); try done; unfold id_token_members; by destruct (ic_nonce claims).
Qed.
End Tokens.

(** ** A run with a library whose tokens are the printed payloads *)

(** A payload that is printed and read back. *)
Definition readable (payload : json) : option string :=
  text ← plain_print payload;
  v ← plain_parse text;
  if json_eqb v payload then Some text else None.

Definition int_member (m : members) (k : string) : Z := match obj_get k m with Some (JInt z) => z | _ => 0%Z end.

Definition current (issuer : string) (now : Z) (v : option json) : option json :=
  match v with
  | Some (JObject m) =>
      if bool_decide (string_member (JObject m) "iss" = Some issuer) && (int_member m "iat" <=? now)%Z
         && (now <=? int_member m "exp")%Z
      then Some (JObject m) else None
  | _ => None
  end.

#[program] Definition plain_jwt : JwtCpp := {|
  jwt_key_pair pub priv := pub = priv;
  jwt_sign priv _ payload := text ← readable payload; Some (priv +:+ text);
  jwt_verified pub issuer now token :=
    if String.eqb (string_take (String.length pub) token) pub
    then current issuer now (plain_parse (string_drop (String.length pub) token)) else None;
  llround _ := 0%Z;
|}.
Next Obligation.
  intros pub priv kid m token issuer now iat exp -> Hs Hi Ha He Ht.
  destruct (readable (JObject m)) as [text|] eqn:Hr; [|done]. injection Hs as <-.
  rewrite string_take_app, String.eqb_refl, string_drop_app. unfold readable in Hr.
  destruct (plain_print (JObject m)) as [text'|]; [|done]. cbn in Hr.
  destruct (plain_parse text') as [v|] eqn:Hp; [|done]. cbn in Hr.
  destruct (json_eqb v (JObject m)) eqn:Hv; [|done]. injection Hr as ->. apply json_eqb_sound in Hv as ->.
  rewrite Hp. unfold current, int_member. rewrite Ha, He, bool_decide_eq_true_2 by (by apply string_member_get).
  rewrite (proj2 (Z.leb_le _ _)), (proj2 (Z.leb_le _ _)) by lia. done.
Qed.

#[local] Existing Instance plain_jwt.

Definition demo_keypair : RsaKeypair := mkKeypair "k" "k" "kid" "n" "AQAB".
Definition demo_ada : AccessTokenClaims := mkAccessClaims "ada" "app" "acme" "openid" "admin" 900.
Definition demo_access : option string := issueAccessToken demo_keypair "https://id" 100 "j" demo_ada.

Lemma access_token_roundtrip_witness :
  exists token, demo_access = Some token /\
    rs_validate "k" "https://id" 1000 token =
    Ok (Some (mkClaims "ada" "" 1000 "acme" "openid" "app" "https://id" "admin")).
Proof.
  assert (exists token, demo_access = Some token) as [token Ht].
  { destruct demo_access eqn:Hd; [by eexists|]. vm_compute in Hd. discriminate Hd. }
  exists token. split; [exact Ht|].
  apply (@access_token_roundtrip plain_jwt demo_keypair (eq_refl "k") ltac:(discriminate) "https://id" 100 1000 "j" demo_ada token Ht).
  - discriminate.
  - cbn. lia.
Defined.
