(* ===== verification/LoginPages.v ===== *)
(** * The sign-in pages

    Models the pages the sign-in handlers of src/daemon/handlers answer
    (oidc/login_route_handler.cpp, cas/cas_login_route_handler.cpp,
    saml/saml_login_route_handler.cpp) with their shared style and escaping
    (shared/login_page_style.hpp, shared/html_attr_escape.hpp), and the XML texts
    of cas/cas_route_handler.cpp.  A text is written with ` for the double quote;
    [html] puts the quotes in. *)

From S2P Require Import Prelude CxxString CxxStd.

Open Scope string_scope.

Definition html (s : string) : string := string_map (fun c => if Ascii.eqb c "`" then "034"%char else c) s.

(** ** Escaping *)

Fixpoint escape_with (f : ascii -> string) (s : string) : string :=
  match s with EmptyString => "" | String c s => f c +:+ escape_with f s end.

(** The body of the loop of [htmlAttrEscape]; the CAS and SAML handlers have
    copies of it. *)
Definition html_escape_char (c : ascii) : string :=
  if Ascii.eqb c "&" then "&amp;"
  else if Ascii.eqb c "<" then "&lt;"
  else if Ascii.eqb c ">" then "&gt;"
  else if Ascii.eqb c "034" then "&quot;"
  else if Ascii.eqb c "'" then "&#39;"
  else String c "".
Definition htmlAttrEscape : string -> string := escape_with html_escape_char.
Definition cas_htmlAttrEscape : string -> string := escape_with html_escape_char.
Definition saml_htmlAttrEscape : string -> string := escape_with html_escape_char.

(** [xmlEscape] of the CAS and the SAML handlers leaves the apostrophe. *)
Definition xml_escape_char (c : ascii) : string :=
  if Ascii.eqb c "&" then "&amp;"
  else if Ascii.eqb c "<" then "&lt;"
  else if Ascii.eqb c ">" then "&gt;"
  else if Ascii.eqb c "034" then "&quot;"
  else String c "".
Definition xmlEscape : string -> string := escape_with xml_escape_char.
Definition saml_xmlEscape : string -> string := escape_with xml_escape_char.

(** ** The shared style *)

Definition loginPageStyle : string := html "
<style>
  :root {
    color-scheme: light dark;
    --bg: #f4f5f7;
    --card-bg: #ffffff;
    --text: #1b1f24;
    --text-muted: #5c6470;
    --border: #d9dce1;
    --accent: #4f46e5;
    --accent-hover: #4338ca;
    --error-bg: #fdecec;
    --error-text: #b3261e;
    --notice-bg: #eef2ff;
    --notice-text: #3730a3;
  }
  @media (prefers-color-scheme: dark) {
    :root {
      --bg: #14161a;
      --card-bg: #1e2126;
      --text: #e8eaed;
      --text-muted: #9aa1ab;
      --border: #2e323a;
      --accent: #818cf8;
      --accent-hover: #a5b4fc;
      --error-bg: #3a1f1f;
      --error-text: #f2a8a3;
      --notice-bg: #232a4d;
      --notice-text: #c7d2fe;
    }
  }
  * { box-sizing: border-box; }
  body {
    margin: 0;
    min-height: 100vh;
    display: flex;
    align-items: center;
    justify-content: center;
    background: var(--bg);
    color: var(--text);
    font-family: -apple-system, BlinkMacSystemFont, `Segoe UI`, Roboto, Helvetica, Arial, sans-serif;
    padding: 24px;
  }
  .card {
    width: 100%;
    max-width: 380px;
    background: var(--card-bg);
    border: 1px solid var(--border);
    border-radius: 12px;
    padding: 32px 28px;
    box-shadow: 0 1px 3px rgba(0, 0, 0, 0.08), 0 8px 24px rgba(0, 0, 0, 0.06);
  }
  .brand {
    font-size: 13px;
    font-weight: 600;
    letter-spacing: 0.06em;
    text-transform: uppercase;
    color: var(--text-muted);
    margin: 0 0 6px;
  }
  h1 {
    font-size: 22px;
    font-weight: 600;
    margin: 0 0 24px;
  }
  label {
    display: block;
    font-size: 13px;
    font-weight: 500;
    color: var(--text-muted);
    margin-bottom: 6px;
  }
  .field { margin-bottom: 18px; }
  input[type=`text`],
  input[type=`password`] {
    width: 100%;
    padding: 10px 12px;
    font-size: 15px;
    color: var(--text);
    background: var(--bg);
    border: 1px solid var(--border);
    border-radius: 8px;
    outline: none;
    transition: border-color 0.15s ease;
  }
  input[type=`text`]:focus,
  input[type=`password`]:focus {
    border-color: var(--accent);
    box-shadow: 0 0 0 3px color-mix(in srgb, var(--accent) 20%, transparent);
  }
  button[type=`submit`] {
    width: 100%;
    padding: 11px 12px;
    margin-top: 4px;
    font-size: 15px;
    font-weight: 600;
    color: #fff;
    background: var(--accent);
    border: none;
    border-radius: 8px;
    cursor: pointer;
    transition: background 0.15s ease;
  }
  button[type=`submit`]:hover { background: var(--accent-hover); }
  button[type=`submit`]:focus-visible { outline: 2px solid var(--accent); outline-offset: 2px; }
  .divider {
    display: flex;
    align-items: center;
    gap: 10px;
    margin: 18px 0;
    color: var(--text-muted);
    font-size: 12px;
  }
  .divider::before, .divider::after {
    content: ``;
    flex: 1;
    height: 1px;
    background: var(--border);
  }
  button.turbo {
    width: 100%;
    padding: 10px 12px;
    font-size: 14px;
    font-weight: 600;
    color: var(--accent);
    background: transparent;
    border: 1.5px solid var(--accent);
    border-radius: 8px;
    cursor: pointer;
    transition: background 0.15s ease;
  }
  button.turbo:hover { background: color-mix(in srgb, var(--accent) 10%, transparent); }
  .error {
    background: var(--error-bg);
    color: var(--error-text);
    font-size: 14px;
    padding: 10px 12px;
    border-radius: 8px;
    margin: 0 0 18px;
  }
  /* Informational, not a failure: the sign-in was interrupted rather than
     refused, so it must not read like `invalid username or password`. */
  .notice {
    background: var(--notice-bg);
    color: var(--notice-text);
    font-size: 14px;
    padding: 10px 12px;
    border-radius: 8px;
    margin: 0 0 18px;
  }
  .footnote {
    margin-top: 20px;
    font-size: 13px;
    color: var(--text-muted);
    text-align: center;
  }
</style>
".

(** ** The pages of the OpenID Connect sign-in *)

Definition kTurboLoginScript : string := html "
<script>
async function turboLogin() {
  const errEl = document.getElementById('turbo-error');
  errEl.style.display = 'none';
  try {
    const raw = await navigator.clipboard.readText();
    if (!raw.trim()) throw new Error('Clipboard is empty. Copy a Turbologin from vault.wardcrew.com first.');
    let data;
    try { data = JSON.parse(raw); } catch { throw new Error('Clipboard does not contain valid Turbologin JSON.'); }
    if (!data.user || !data.pass) throw new Error('Clipboard JSON is missing required fields (user, pass).');
    document.getElementById('username').value = data.user;
    document.getElementById('password').value = data.pass;
    document.getElementById('login-form').submit();
  } catch (e) {
    errEl.textContent = e.message || 'Could not read clipboard. Please allow clipboard access and try again.';
    errEl.style.display = 'block';
  }
}
</script>
".

(** What every page starts with, up to its style. *)
Definition page_head (title : string) : string :=
  html "<!doctype html><html><head><meta charset=`utf-8`>" +:+
  (html "<meta name=`viewport` content=`width=device-width, initial-scale=1`>" +:+
  ("<title>" +:+ (title +:+ ("</title>" +:+ (loginPageStyle +:+
  ("</head><body>" +:+ (html "<div class=`card`>" +:+ html "<p class=`brand`>MetaBuilder SSO</p>"))))))).

(** A hidden field of a form. *)
Definition hidden_field (name value : string) : string :=
  html "<input type=`hidden` name=`" +:+ (name +:+ (html "` value=`" +:+ (value +:+ html "`>"))).

(** The two visible fields and the button. *)
Definition credential_fields : string :=
  html "<div class=`field`><label for=`username`>Username</label>" +:+
  (html "<input id=`username` type=`text` name=`username` autofocus autocomplete=`username`></div>" +:+
  (html "<div class=`field`><label for=`password`>Password</label>" +:+
  (html "<input id=`password` type=`password` name=`password` autocomplete=`current-password`></div>" +:+
  (html "<button type=`submit`>Sign in</button>" +:+ "</form>")))).

Definition error_html (error : string) : string :=
  if is_empty error then "" else html "<div class=`error` role=`alert`>" +:+ (error +:+ "</div>").
Definition notice_html (notice : string) : string :=
  if is_empty notice then "" else html "<div class=`notice` role=`status`>" +:+ (notice +:+ "</div>").

Definition flash : string := String "226" (String "154" (String "161" "")).

(** The page after the hidden fields. *)
Definition login_form_tail : string :=
  credential_fields +:+
  (html "<div class=`divider`>or</div>" +:+
  (html "<div class=`error` id=`turbo-error` role=`alert` style=`display:none`></div>" +:+
  (html "<button type=`button` class=`turbo` onclick=`turboLogin()`>" +:+ (flash +:+ (" Turbologin</button>" +:+
  (kTurboLoginScript +:+
  (html "<p class=`footnote`>Signing in via OpenID Connect</p>" +:+ "</div></body></html>"))))))).

Definition renderLoginForm (publicPathPrefix continuationToken restartToken error notice : string) : string :=
  page_head "Sign in" +:+ ("<h1>Sign in</h1>" +:+ (notice_html notice +:+ (error_html error +:+
  (html "<form id=`login-form` method=`POST` action=`" +:+ (publicPathPrefix +:+ (html "/oidc/login`>" +:+
  (hidden_field "continuation" (htmlAttrEscape continuationToken) +:+
  ((if is_empty restartToken then "" else hidden_field "restart" (htmlAttrEscape restartToken)) +:+
  login_form_tail)))))))).

Definition renderUnresumablePage (detail : string) : string :=
  page_head "Sign-in expired" +:+ ("<h1>Sign-in expired</h1>" +:+
  (html "<div class=`notice` role=`status`>" +:+ (detail +:+ ("</div>" +:+
  (html "<p class=`footnote`>Return to the application and start signing in again.</p>" +:+
  "</div></body></html>"))))).

(** ** The pages of the CAS and the SAML sign-in *)

Definition cas_renderLoginForm (publicPathPrefix service error : string) : string :=
  page_head "Sign in" +:+ ("<h1>Sign in</h1>" +:+ (error_html error +:+
  (html "<form method=`POST` action=`" +:+ (publicPathPrefix +:+ (html "/cas/login`>" +:+
  (hidden_field "service" (cas_htmlAttrEscape service) +:+ (credential_fields +:+
  (html "<p class=`footnote`>Signing in via CAS</p>" +:+ "</div></body></html>")))))))).

Definition saml_renderLoginForm (publicPathPrefix continuationToken error : string) : string :=
  page_head "Sign in" +:+ ("<h1>Sign in</h1>" +:+ (error_html error +:+
  (html "<form method=`POST` action=`" +:+ (publicPathPrefix +:+ (html "/saml/login`>" +:+
  (hidden_field "continuation" (saml_htmlAttrEscape continuationToken) +:+ (credential_fields +:+
  (html "<p class=`footnote`>Signing in via SAML 2.0</p>" +:+ "</div></body></html>")))))))).

(** The form that posts an assertion by itself. *)
Definition auto_submit_head (acsUrl samlResponseB64 : string) : string :=
  html "<!doctype html><html><head><meta charset=`utf-8`>" +:+
  ("<title>Redirecting…</title>" +:+ (loginPageStyle +:+
  (html "</head><body onload=`document.forms[0].submit()`>" +:+
  (html "<div class=`card`>" +:+ (html "<p class=`brand`>MetaBuilder SSO</p>" +:+
  ("<h1>Redirecting…</h1>" +:+ (html "<p class=`footnote`>Completing sign-in, please wait.</p>" +:+
  (html "<form method=`POST` action=`" +:+ (saml_htmlAttrEscape acsUrl +:+ (html "`>" +:+
  hidden_field "SAMLResponse" (saml_htmlAttrEscape samlResponseB64))))))))))).
Definition auto_submit_tail : string :=
  html "<noscript><button type=`submit`>Continue</button></noscript>" +:+ ("</form>" +:+ "</div></body></html>").
Definition renderAutoSubmitForm (acsUrl samlResponseB64 : string) (relayState : option string) : string :=
  auto_submit_head acsUrl samlResponseB64 +:+
  ((match relayState with Some r => hidden_field "RelayState" (saml_htmlAttrEscape r) | None => "" end) +:+
  auto_submit_tail).

(** ** The texts of CAS validation *)

Definition cas_response (inner : string) : string :=
  html "<cas:serviceResponse xmlns:cas=`http://www.yale.edu/tp/cas`>" +:+ (inner +:+ "</cas:serviceResponse>").
Definition cas_failure (code desc : string) : string :=
  cas_response (html "<cas:authenticationFailure code=`" +:+ (code +:+ (html "`>" +:+ (desc +:+
    "</cas:authenticationFailure>")))).
Definition cas_success (userId : string) : string :=
  cas_response ("<cas:authenticationSuccess>" +:+ ("<cas:user>" +:+ (xmlEscape userId +:+ ("</cas:user>" +:+
    "</cas:authenticationSuccess>")))).

(** The metadata of [SamlService::metadataDocument]. *)
Definition metadataDocument (issuer : string) : string :=
  html "<?xml version=`1.0` encoding=`UTF-8`?>" +:+
  (html "<EntityDescriptor xmlns=`urn:oasis:names:tc:SAML:2.0:metadata` entityID=`" +:+ (saml_xmlEscape issuer +:+
  (html "`>" +:+
  (html "<IDPSSODescriptor protocolSupportEnumeration=`urn:oasis:names:tc:SAML:2.0:protocol`>" +:+
  (html "<SingleSignOnService Binding=`urn:oasis:names:tc:SAML:2.0:bindings:HTTP-Redirect` Location=`" +:+
  (saml_xmlEscape (issuer +:+ "/saml/sso") +:+ (html "`/>" +:+ ("</IDPSSODescriptor>" +:+ "</EntityDescriptor>")))))))).

(** ** Reading a page *)

(** The character a reference stands for, and how much of the text it takes. *)
Definition entity (s : string) : option (ascii * nat) :=
  if String.eqb (string_take 4 s) "amp;" then Some ("&"%char, 4)
  else if String.eqb (string_take 3 s) "lt;" then Some ("<"%char, 3)
  else if String.eqb (string_take 3 s) "gt;" then Some (">"%char, 3)
  else if String.eqb (string_take 5 s) "quot;" then Some ("034"%char, 5)
  else if String.eqb (string_take 4 s) "#39;" then Some ("'"%char, 4)
  else None.

(** How a browser decodes references, after [skip] characters. *)
Fixpoint decode_from (skip : nat) (s : string) : string :=
  match s with
  | EmptyString => ""
  | String c t =>
      match skip with
      | S n => decode_from n t
      | O =>
          if Ascii.eqb c "&" then
            match entity t with
            | Some (d, n) => String d (decode_from n t)
            | None => String c (decode_from 0 t)
            end
          else String c (decode_from 0 t)
      end
  end.
Definition decode_references : string -> string := decode_from 0.

(** The value of an attribute whose opening quote has been read: up to the next
    quote. *)
Definition attribute_value (s : string) : option string :=
  n ← find_char "034" s; Some (decode_references (string_take n s)).

(** Neither quote nor angle bracket. *)
Definition inert (c : ascii) : bool :=
  negb (Ascii.eqb c "034" || Ascii.eqb c "'" || Ascii.eqb c "<" || Ascii.eqb c ">").

Lemma escape_char_inert c : string_forallb inert (html_escape_char c) = true.
Proof. revert c. apply (ascii_forall (fun c => string_forallb inert (html_escape_char c))). vm_compute. reflexivity. Qed.

Lemma escape_inert s : string_forallb inert (htmlAttrEscape s) = true.
Proof.
  induction s as [|c s IH]; [done|]. unfold htmlAttrEscape in *. cbn [escape_with].
  by rewrite string_forallb_app, escape_char_inert.
Qed.

Lemma find_quote_inert s t : string_forallb inert s = true -> find_char "034" (s +:+ String "034" t) = Some (String.length s).
Proof.
  induction s as [|c s IH]; [done|]. cbn [string_forallb]. rewrite andb_true_iff. intros [Hc Hs].
  rewrite string_app_cons. cbn [find_char]. rewrite (IH Hs). unfold inert in Hc.
  rewrite Ascii.eqb_sym. destruct (Ascii.eqb c "034"); [done|]. done.
Qed.

Lemma decode_escape_char c t : decode_references (html_escape_char c +:+ t) = String c (decode_references t).
Proof.
  unfold html_escape_char.
  destruct (Ascii.eqb_spec c "&") as [->|Hamp]; [reflexivity|].
  do 4 (match goal with |- context [Ascii.eqb c ?d] =>
    destruct (Ascii.eqb_spec c d) as [->|_] end; [reflexivity|]).
  rewrite string_app_cons. unfold decode_references. cbn [decode_from]. apply Ascii.eqb_neq in Hamp. by rewrite Hamp.
Qed.

Lemma decode_escape s : decode_references (htmlAttrEscape s) = s.
Proof.
  induction s as [|c s IH]; [done|]. unfold htmlAttrEscape in *. cbn [escape_with].
  by rewrite decode_escape_char, IH.
Qed.

Lemma escaped_value_read s t : attribute_value (htmlAttrEscape s +:+ String "034" t) = Some s.
Proof.
  unfold attribute_value. rewrite find_quote_inert by apply escape_inert. cbn. by rewrite string_take_app, decode_escape.
Qed.

(** The value is put into [page] as data, in the attribute that [opening] opens: what
    stands before and after it does not depend on it, it holds no quote and no
    bracket, and a browser reads it back as it was. *)
Definition carries_at (opening : string) (page : string -> string) : Prop :=
  exists before after, forall value,
    page value = before +:+ (opening +:+ (htmlAttrEscape value +:+ String "034" after)) /\
    string_forallb inert (htmlAttrEscape value) = true /\
    attribute_value (htmlAttrEscape value +:+ String "034" after) = Some value.
(** The value of the hidden field [name]; the address a form is posted to. *)
Definition carries_value (page : string -> string) (name : string) : Prop :=
  carries_at (html "name=`" +:+ (name +:+ html "` value=`")) page.
Definition carries_address (page : string -> string) : Prop := carries_at (html "<form method=`POST` action=`") page.

Lemma carries_at_intro opening page before after :
  (forall value, page value = before +:+ (opening +:+ (htmlAttrEscape value +:+ String "034" after))) ->
  carries_at opening page.
Proof.
  intros Hp. exists before, after. intros value. split; [apply Hp|]. split; [apply escape_inert|apply escaped_value_read].
Qed.

Lemma carries_value_intro page name before after :
  (forall value, page value = before +:+ (hidden_field name (htmlAttrEscape value) +:+ after)) ->
  carries_value page name.
Proof.
  intros Hp. apply (carries_at_intro _ _ (before +:+ html "<input type=`hidden` ") (">" +:+ after)). intros value.
  rewrite Hp. unfold hidden_field. change (html "<input type=`hidden` name=`") with (html "<input type=`hidden` " +:+ html "name=`").
  change (String "034" (">" +:+ after)) with (html "`>" +:+ after).
  rewrite !string_app_assoc. reflexivity.
Qed.

(** The page that posts an assertion up to its form, and up to the form's address. *)
Definition auto_submit_before : string :=
  html "<!doctype html><html><head><meta charset=`utf-8`>" +:+
  ("<title>Redirecting…</title>" +:+ (loginPageStyle +:+
  (html "</head><body onload=`document.forms[0].submit()`>" +:+
  (html "<div class=`card`>" +:+ (html "<p class=`brand`>MetaBuilder SSO</p>" +:+
  ("<h1>Redirecting…</h1>" +:+ html "<p class=`footnote`>Completing sign-in, please wait.</p>")))))).
Definition auto_submit_open : string := auto_submit_before +:+ html "<form method=`POST` action=`".

(** C29. What a visitor's address brings into a sign-in page is data there: the
    continuation and the restart token of the OpenID page, the service of the CAS
    page, the continuation of the SAML form, and the response, the relay state and the
    address of the page that posts an assertion each stand in one quoted attribute of
    the page, hold nothing that could end it, leave the rest of the page as it is, and
    are read back by the browser as they came. *)
Theorem pages_carry_values prefix :
  (forall restart error notice, carries_value (fun c => renderLoginForm prefix c restart error notice) "continuation") /\
  (forall continuation error notice, exists page, carries_value page "restart" /\
     forall r, r <> "" -> renderLoginForm prefix continuation r error notice = page r) /\
  (forall error, carries_value (fun s => cas_renderLoginForm prefix s error) "service") /\
  (forall error, carries_value (fun c => saml_renderLoginForm prefix c error) "continuation") /\
  (forall acs b64, carries_value (fun r => renderAutoSubmitForm acs b64 (Some r)) "RelayState") /\
  (forall acs relay, carries_value (fun b64 => renderAutoSubmitForm acs b64 relay) "SAMLResponse") /\
  (forall b64 relay, carries_address (fun acs => renderAutoSubmitForm acs b64 relay)).
Proof.
  split_and!.
  - intros restart error notice.
    apply (carries_value_intro _ _ (page_head "Sign in" +:+ ("<h1>Sign in</h1>" +:+ (notice_html notice +:+
      (error_html error +:+ (html "<form id=`login-form` method=`POST` action=`" +:+ (prefix +:+ html "/oidc/login`>"))))))
      ((if is_empty restart then "" else hidden_field "restart" (htmlAttrEscape restart)) +:+ login_form_tail)).
    intros value. unfold renderLoginForm. rewrite <- !string_app_assoc. reflexivity.
  - intros continuation error notice.
    exists (fun r => (page_head "Sign in" +:+ ("<h1>Sign in</h1>" +:+ (notice_html notice +:+ (error_html error +:+
      (html "<form id=`login-form` method=`POST` action=`" +:+ (prefix +:+ (html "/oidc/login`>" +:+
      hidden_field "continuation" (htmlAttrEscape continuation)))))))) +:+
      (hidden_field "restart" (htmlAttrEscape r) +:+ login_form_tail)). split.
    + by eapply carries_value_intro.
    + intros r Hr%is_empty_false. unfold renderLoginForm. rewrite Hr. rewrite <- !string_app_assoc. reflexivity.
  - intros error.
    apply (carries_value_intro _ _ (page_head "Sign in" +:+ ("<h1>Sign in</h1>" +:+ (error_html error +:+
      (html "<form method=`POST` action=`" +:+ (prefix +:+ html "/cas/login`>")))))
      (credential_fields +:+ (html "<p class=`footnote`>Signing in via CAS</p>" +:+ "</div></body></html>"))).
    intros value. unfold cas_renderLoginForm. rewrite <- !string_app_assoc. reflexivity.
  - intros error.
    apply (carries_value_intro _ _ (page_head "Sign in" +:+ ("<h1>Sign in</h1>" +:+ (error_html error +:+
      (html "<form method=`POST` action=`" +:+ (prefix +:+ html "/saml/login`>")))))
      (credential_fields +:+ (html "<p class=`footnote`>Signing in via SAML 2.0</p>" +:+ "</div></body></html>"))).
    intros value. unfold saml_renderLoginForm. rewrite <- !string_app_assoc. reflexivity.
  - intros acs b64. by eapply carries_value_intro.
  - intros acs relay.
    apply (carries_value_intro _ _ (auto_submit_open +:+ (saml_htmlAttrEscape acs +:+ html "`>"))
      ((match relay with Some r => hidden_field "RelayState" (saml_htmlAttrEscape r) | None => "" end) +:+ auto_submit_tail)).
    intros b64. unfold renderAutoSubmitForm, auto_submit_head. rewrite <- !string_app_assoc. reflexivity.
  - intros b64 relay.
    apply (carries_at_intro _ _ auto_submit_before (">" +:+ (hidden_field "SAMLResponse" (saml_htmlAttrEscape b64) +:+
      ((match relay with Some r => hidden_field "RelayState" (saml_htmlAttrEscape r) | None => "" end) +:+ auto_submit_tail)))).
    intros acs. unfold renderAutoSubmitForm, auto_submit_head. rewrite <- !string_app_assoc. reflexivity.
Qed.

Example attack_is_data :
  attribute_value (htmlAttrEscape (html "x`><script>") +:+ html "`>") = Some (html "x`><script>") /\
  htmlAttrEscape (html "x`><script>") = "x&quot;&gt;&lt;script&gt;".
Proof. vm_compute. split; reflexivity. Qed.
