(* ===== verification/SignOn.v ===== *)
(** * The routes of the OpenID Connect provider

    Models src/daemon/handlers/oidc (oidc_route_handler.cpp,
    login_route_handler.cpp, session_cookie.cpp) and the registration of these
    routes in src/daemon/server_routes.cpp: the two stores of pending
    authorization requests (Limits.v), the sign-in form and its submission, the
    token, userinfo and logout endpoints, over the service of Oidc.v, the
    credentials of Credentials.v and the pages of LoginPages.v.  The theorems are
    about every run of requests: where a browser is sent, and for whom a code is
    issued. *)

From stdpp Require Import relations.
From S2P Require Import Prelude CxxString CxxStd Store Json Jwt EntityHost Adapter OneTime RefreshTokens Oidc Limits TokenIssuer Credentials LoginPages.

Open Scope string_scope.

(** ** Requests and responses *)

(** What the handlers see of a request; a parameter, cookie or header that is not
    there is the empty text. *)
Record WebRequest := mkWeb {
  wq_post : bool; wq_parameters : gmap string string; wq_cookies : gmap string string; wq_headers : gmap string string;
}.
Definition getParameter (req : WebRequest) (k : string) : string := default "" (wq_parameters req !! k).
Definition getCookie (req : WebRequest) (k : string) : string := default "" (wq_cookies req !! k).
Definition getHeader (req : WebRequest) (k : string) : string := default "" (wq_headers req !! k).

Inductive SameSite := kLax | kStrict | kNone.
Record Cookie := mkCookie {
  ck_key : string; ck_value : string; ck_path : string; ck_httpOnly : bool; ck_secure : bool;
  ck_sameSite : SameSite; ck_maxAge : Z;
}.
Inductive ContentType := no_type | CT_APPLICATION_JSON | CT_TEXT_HTML | custom_type (type : string).
Record WebResponse := mkWebResponse {
  wp_status : Z; wp_type : ContentType; wp_headers : list (string * string); wp_cookies : list Cookie; wp_body : string;
}.
Definition newHttpResponse : WebResponse := mkWebResponse 200 no_type [] [] "".
Definition with_status (status : Z) (r : WebResponse) : WebResponse :=
  mkWebResponse status (wp_type r) (wp_headers r) (wp_cookies r) (wp_body r).
Definition with_body (type : ContentType) (body : string) (r : WebResponse) : WebResponse :=
  mkWebResponse (wp_status r) type (wp_headers r) (wp_cookies r) body.
Definition addHeader (k v : string) (r : WebResponse) : WebResponse :=
  mkWebResponse (wp_status r) (wp_type r) (wp_headers r ++ [(k, v)])%list (wp_cookies r) (wp_body r).
Definition addCookie (c : Cookie) (r : WebResponse) : WebResponse :=
  mkWebResponse (wp_status r) (wp_type r) (wp_headers r) (wp_cookies r ++ [c])%list (wp_body r).

Definition redirect (location : string) : WebResponse := addHeader "Location" location (with_status 302 newHttpResponse).
Definition html_page (status : Z) (body : string) : WebResponse := with_body CT_TEXT_HTML body (with_status status newHttpResponse).

(** ** Cookies (session_cookie.cpp) *)

Definition kSessionCookieName : string := "dbal_oidc_sid".
Definition kMaxAgeSeconds : Z := 12 * 3600.
Definition issuerIsHttps (issuer : string) : bool := String.eqb (string_take 8 issuer) "https://".

Definition session_cookie (value publicPathPrefix issuer : string) (maxAge : Z) : Cookie :=
  mkCookie kSessionCookieName value (publicPathPrefix +:+ "/oidc") true (issuerIsHttps issuer) kLax maxAge.
Definition setSessionCookie (sid publicPathPrefix issuer : string) : WebResponse -> WebResponse :=
  addCookie (session_cookie sid publicPathPrefix issuer kMaxAgeSeconds).
Definition clearSessionCookie (publicPathPrefix issuer : string) : WebResponse -> WebResponse :=
  addCookie (session_cookie "" publicPathPrefix issuer 0).

(** ** Answers as JSON *)

Section Json.
Context {jl : JsonLib}.

Definition jsonResponse (body : json) (code : Z) : Result WebResponse :=
  text ← dump body; Ok (with_body CT_APPLICATION_JSON text (with_status code newHttpResponse)).

Definition oauthError (error description : string) : Result WebResponse :=
  jsonResponse (object [("error", JString error); ("error_description", JString description)]) 400.

(** "error_code: description" split apart. *)
Definition splitError (message : string) : string * string :=
  match String.index 0 ": " message with
  | None => ("invalid_request", message)
  | Some pos => (string_take pos message, string_drop (pos + 2) message)
  end.
Definition oauth_error_of (e : Error) : Result WebResponse :=
  let '(err, desc) := splitError (CxxStd.message e) in oauthError err desc.
End Json.

(** ** The state of the routes *)

(** The database, the requests a form may answer, and their longer-lived copies. *)
Record SignOnState (W : Type) := mkSignOn { so_db : W; so_pending : pending; so_restart : pending }.
Arguments mkSignOn {W} _ _ _.
Arguments so_db {W} _.
Arguments so_pending {W} _.
Arguments so_restart {W} _.

(** What a call reads from outside: the system clock in seconds, the steady clock
    in nanoseconds, random tokens and the salt of a password hash. *)
Record Env := mkEnv { clock : nat -> Z; steady : nat -> Z; draw : nat -> string; salt : string }.
Definition later (n : nat) (e : Env) : nat -> Z := fun i => clock e (n + i).

Definition pending_ttl : Z := 300.
Definition restart_ttl : Z := 1800.

Section Handlers.
Context {W : Type} `{!Host W} `{!Adapter W} `{!Argon2} `{!JwtCpp} {jl : JsonLib}.
Context (sha256_hex sha256_bytes : string -> string).
Context (clients : gmap string OAuthClient) (issuer : string) (keypair : RsaKeypair).
Context (public_path_prefix : string).
Implicit Types (env : Env) (req : WebRequest).
Abbreviation World := (SignOnState W).

(** A call of the service or the client: the stores are not touched. *)
Definition on_db {A} (m : Op W A) : Op World A := fun s =>
  let '(r, w) := m (so_db s) in (r, mkSignOn w (so_pending s) (so_restart s)).

(** Calls of the two stores; the [i]-th readings and tokens of the call. *)
Definition pending_store env (i : nat) (r : AuthorizeRequest) : Op World string := fun s =>
  let '(token, entries) := store_pending pending_ttl (steady env i) (draw env i) (steady env (i + 1)) r (so_pending s) in
  (Ok token, mkSignOn (so_db s) entries (so_restart s)).
Definition restart_store env (i : nat) (r : AuthorizeRequest) : Op World string := fun s =>
  let '(token, entries) := store_pending restart_ttl (steady env i) (draw env i) (steady env (i + 1)) r (so_restart s) in
  (Ok token, mkSignOn (so_db s) (so_pending s) entries).
Definition pending_take env (i : nat) (token : string) : Op World (option AuthorizeRequest) := fun s =>
  let '(r, entries) := take (steady env i) token (so_pending s) in (Ok r, mkSignOn (so_db s) entries (so_restart s)).
Definition restart_peek env (i : nat) (token : string) : Op World (option AuthorizeRequest) := fun s =>
  let '(r, entries) := peek (steady env i) token (so_restart s) in (Ok r, mkSignOn (so_db s) (so_pending s) entries).

(** A call whose error is dropped. *)
Definition or_none {W A} (m : Op W A) : Op W (option A) := fun w =>
  match m w with
  | (Ok a, w') => (Ok (Some a), w')
  | (Err _, w') => (Ok None, w')
  | (r, w') => (recast r, w')
  end.

(** ** oidc_route_handler.cpp *)

Definition validateBearerToken (now : Z) req (publicKeyPem : string) : Result (option JwtClaims) :=
  let auth_header := getHeader req "Authorization" in
  if (size auth_header <=? size bearer_prefix)%Z || negb (String.eqb (string_take 7 auth_header) bearer_prefix)
  then Ok None
  else rs_validate publicKeyPem issuer now (string_drop 7 auth_header).

Definition handleDiscovery : Op World WebResponse := of_result (jsonResponse (discoveryDocument issuer) 200).
Definition handleJwks : Op World WebResponse := of_result (jsonResponse (buildJwks keypair) 200).

(** The request of the parameters, checked. *)
Definition requested req : Result AuthorizeRequest :=
  let nonceParam := getParameter req "nonce" in
  let nonce := if is_empty nonceParam then None else Some nonceParam in
  validateAuthorize clients (getParameter req "client_id") (getParameter req "redirect_uri")
    (getParameter req "response_type") (getParameter req "scope") (getParameter req "state")
    (getParameter req "code_challenge") (getParameter req "code_challenge_method") nonce.

(** Where a browser with a live session is sent at once. *)
Definition reuse_session env (authReq : AuthorizeRequest) (sidCookie : string) : Op World (option string) :=
  if is_empty sidCookie then mret None
  else
    session ← or_none (on_db (lookupBrowserSession (clock env) sidCookie));
    match session with
    | None => mret None
    | Some session =>
        or_none (on_db (buildAuthorizeRedirect sha256_hex (later 1 env) (draw env) authReq
          (bs_userId session) (bs_tenantId session)))
    end.

Definition login_url (query : string) : string := public_path_prefix +:+ ("/oidc/login?continuation=" +:+ query).

Definition handleAuthorize env req : Op World WebResponse :=
  match requested req with
  | Ok authReq =>
      location ← reuse_session env authReq (getCookie req kSessionCookieName);
      match location with
      | Some location => mret (redirect location)
      | None =>
          continuationToken ← pending_store env 10 authReq;
          restartToken ← restart_store env 20 authReq;
          mret (redirect (login_url (continuationToken +:+ ("&restart=" +:+ restartToken))))
      end
  | Err e => of_result (oauth_error_of e)
  | r => of_result (recast r)
  end.

(** The exchange that a grant type names; an error with its description. *)
Definition token_exchange env req : Op World ((string * string) + TokenResponse) :=
  let exchanged (m : Op W TokenResponse) : Op World ((string * string) + TokenResponse) := fun s =>
    match on_db m s with
    | (Ok t, s') => (Ok (inr t), s')
    | (Err e, s') => (Ok (inl (splitError (CxxStd.message e))), s')
    | (r, s') => (recast r, s')
    end in
  let clientId := getParameter req "client_id" in
  let id_token := issueIdToken keypair issuer (clock env 20) (draw env 30) in
  let access_token := issueAccessToken keypair issuer (clock env 21) (draw env 31) in
  if String.eqb (getParameter req "grant_type") "authorization_code" then
    let code := getParameter req "code" in
    let redirectUri := getParameter req "redirect_uri" in
    if is_empty code || is_empty redirectUri || is_empty clientId then
      mret (inl ("invalid_request", "code, redirect_uri, and client_id are required"))
    else exchanged (exchangeCode sha256_hex sha256_bytes id_token access_token clients (clock env) (draw env)
                      code redirectUri clientId (getParameter req "code_verifier"))
  else if String.eqb (getParameter req "grant_type") "refresh_token" then
    let refreshToken := getParameter req "refresh_token" in
    if is_empty refreshToken || is_empty clientId then
      mret (inl ("invalid_request", "refresh_token and client_id are required"))
    else exchanged (exchangeRefreshToken sha256_hex id_token access_token clients (clock env) (draw env)
                      refreshToken clientId)
  else mret (inl ("unsupported_grant_type", "only authorization_code and refresh_token are supported")).

Definition token_body (tok : TokenResponse) : json :=
  object ([("access_token", JString (tr_accessToken tok)); ("id_token", JString (tr_idToken tok));
           ("token_type", JString (tr_tokenType tok)); ("expires_in", JInt (tr_expiresIn tok));
           ("scope", JString (tr_scope tok))] ++
          (if negb (is_empty (tr_refreshToken tok)) then [("refresh_token", JString (tr_refreshToken tok))] else [])).

Definition handleToken env req : Op World WebResponse :=
  result ← token_exchange env req;
  match result with
  | inl (err, desc) => of_result (oauthError err desc)
  | inr tok =>
      resp ← of_result (jsonResponse (token_body tok) 200);
      mret (addHeader "Pragma" "no-cache" (addHeader "Cache-Control" "no-store" resp))
  end.

Definition handleUserinfo env req : Op World WebResponse :=
  claims ← of_result (validateBearerToken (clock env 0) req (kp_publicKeyPem keypair));
  match claims with
  | None =>
      resp ← of_result (jsonResponse (object [("error", JString "invalid_token")]) 401);
      mret (addHeader "WWW-Authenticate" (html "Bearer error=`invalid_token`") resp)
  | Some claims =>
      of_result (jsonResponse (object [("sub", JString (jc_user_id claims));
        ("tenant_id", JString (jc_tenant_id claims)); ("role", JString (jc_role claims))]) 200)
  end.

(** Where the browser goes after signing out, if anywhere. *)
Definition post_logout_location req : option string :=
  let postLogoutRedirectUri := getParameter req "post_logout_redirect_uri" in
  let state := getParameter req "state" in
  let clientId := getParameter req "client_id" in
  if negb (is_empty postLogoutRedirectUri) && negb (is_empty clientId) then
    match clients !! clientId with
    | Some client =>
        if isValidPostLogoutRedirectUri client postLogoutRedirectUri then
          let separator := match find_char "?" postLogoutRedirectUri with None => "?" | Some _ => "&" end in
          Some (if is_empty state then postLogoutRedirectUri
                else postLogoutRedirectUri +:+ (separator +:+ ("state=" +:+ state)))
        else None
    | None => None
    end
  else None.

Definition signed_out : string := "<!doctype html><html><body><p>You have been signed out.</p></body></html>".

Definition handleLogout env req : Op World WebResponse :=
  let sidCookie := getCookie req kSessionCookieName in
  _ ← (if is_empty sidCookie then mret None else or_none (on_db (revokeBrowserSession (clock env) sidCookie)));
  let refreshToken := if wq_post req then getParameter req "refresh_token" else "" in
  _ ← (if is_empty refreshToken then mret None
       else or_none (on_db (revokeRefreshToken sha256_hex (clock env 1) refreshToken)));
  let resp :=
    match post_logout_location req with
    | Some location => redirect location
    | None => if wq_post req then with_status 204 newHttpResponse else html_page 200 signed_out
    end in
  mret (clearSessionCookie public_path_prefix issuer resp).

(** ** login_route_handler.cpp *)

Definition missing_token : string :=
  "This sign-in link is missing the token that identifies which " +:+
  "application you were signing in to, and it could not be recovered.".
Definition session_expired : string :=
  "Your sign-in session expired, so we started it again. " +:+ "Please enter your details below.".
Definition not_restarted : string :=
  "Your sign-in session expired and could not be restarted " +:+
  "automatically, because the request that began it has also lapsed.".

(** A fresh continuation for a request that a restart token still names. *)
Definition restarted env (restart : string) : Op World (option string) :=
  if is_empty restart then mret None
  else
    original ← restart_peek env 0 restart;
    match original with
    | Some original => fresh ← pending_store env 10 original; mret (Some fresh)
    | None => mret None
    end.

Definition handleGet env req : Op World WebResponse :=
  let given := getParameter req "continuation" in
  let restart := getParameter req "restart" in
  fresh ← (if is_empty given then restarted env restart else mret None);
  let continuation := default given fresh in
  if is_empty continuation then mret (html_page 400 (renderUnresumablePage missing_token))
  else
    let notice := if String.eqb (getParameter req "notice") "session_expired" then session_expired else "" in
    mret (html_page 200 (renderLoginForm public_path_prefix continuation restart "" notice)).

(** The continuation had lapsed or was spent. *)
Definition resume env (restart : string) : Op World WebResponse :=
  fresh ← restarted env restart;
  match fresh with
  | Some fresh => mret (redirect (login_url (fresh +:+ ("&restart=" +:+ (restart +:+ "&notice=session_expired")))))
  | None => mret (html_page 400 (renderUnresumablePage not_restarted))
  end.

(** The user is known: a code and a session. *)
Definition complete_login env (pending : AuthorizeRequest) (userId : string) : Op World WebResponse :=
  tenantId ← on_db (getCredentialTenantId userId);
  location ← or_none (on_db (buildAuthorizeRedirect sha256_hex (clock env) (draw env) pending userId tenantId));
  match location with
  | None => mret (with_body no_type "Failed to complete sign-in" (with_status 500 newHttpResponse))
  | Some location =>
      session ← or_none (on_db (createBrowserSession (later 2 env) userId tenantId));
      mret (match session with
            | Some sid => setSessionCookie sid public_path_prefix issuer (redirect location)
            | None => redirect location
            end)
  end.

Definition handlePost env req : Op World WebResponse :=
  let restart := getParameter req "restart" in
  pending ← pending_take env 0 (getParameter req "continuation");
  match pending with
  | None => resume env restart
  | Some pending =>
      verified ← or_none (on_db (verifyCredentialIdentifier (salt env) (getParameter req "username")
        (getParameter req "password")));
      match verified with
      | None =>
          retryToken ← pending_store env 10 pending;
          mret (html_page 200 (renderLoginForm public_path_prefix retryToken restart "Invalid username or password" ""))
      | Some userId => complete_login env pending userId
      end
  end.

(** ** The routes (server_routes.cpp) *)

Definition wrong_method : WebResponse := with_status 405 newHttpResponse.
Definition not_routed : WebResponse := with_status 404 newHttpResponse.
Definition only (post : bool) req (m : Op World WebResponse) : Op World WebResponse :=
  if Bool.eqb (wq_post req) post then m else mret wrong_method.

(** The routes registered when there is a provider, for GET and POST requests. *)
Definition oidc_route (path : string) env req : Op World WebResponse :=
  if String.eqb path "/.well-known/openid-configuration" then only false req handleDiscovery
  else if String.eqb path "/oidc/jwks.json" then only false req handleJwks
  else if String.eqb path "/oidc/authorize" then only false req (handleAuthorize env req)
  else if String.eqb path "/oidc/token" then only true req (handleToken env req)
  else if String.eqb path "/oidc/login" then (if wq_post req then handlePost env req else handleGet env req)
  else if String.eqb path "/oidc/userinfo" then only false req (handleUserinfo env req)
  else if String.eqb path "/oidc/logout" then handleLogout env req
  else mret not_routed.
End Handlers.

(** ** Where a browser is sent *)

Section Redirects.
Context {W : Type} `{!Host W} `{!Adapter W} `{!Argon2} `{!JwtCpp} {jl : JsonLib}.
Context (sha256_hex sha256_bytes : string -> string).
Context (clients : gmap string OAuthClient) (issuer : string) (keypair : RsaKeypair) (prefix : string).
Abbreviation World := (SignOnState W).
Abbreviation route := (oidc_route (W := W) sha256_hex sha256_bytes clients issuer keypair prefix).

(** A request that the provider may answer with a code. *)
Definition request_ok (r : AuthorizeRequest) : Prop :=
  acceptable clients (ar_redirectUri r) "code" (ar_scope r) (ar_codeChallenge r) (ar_codeChallengeMethod r) (ar_clientId r).

Definition entries_ok (entries : pending) : Prop := map_Forall (fun _ e => request_ok (pe_request e)) entries.
Definition stores_ok (s : World) : Prop := entries_ok (so_pending s) /\ entries_ok (so_restart s).

(** What happens to the routes' state: they answer requests, in any order, and
    the database is whatever the rest of the daemon makes of it. *)
Inductive sign_step : World -> World -> Prop :=
  | by_request path env req s : sign_step s (route path env req s).2
  | by_others w s : sign_step s (mkSignOn w (so_pending s) (so_restart s)).
Definition reachable (s : World) : Prop := exists w, rtc sign_step (mkSignOn w ∅ ∅) s.

(** [l] is the address [uri], possibly with a query added. *)
Definition with_query (uri l : string) : Prop :=
  l = uri \/ exists q, l = uri +:+ ((match find_char "?" uri with None => "?" | Some _ => "&" end) +:+ q).
Definition registered (l : string) : Prop :=
  exists id client uri, clients !! id = Some client /\
    (uri ∈ cl_redirect_uris client \/ uri ∈ cl_post_logout_redirect_uris client) /\ with_query uri l.
Definition well_directed (resp : WebResponse) : Prop := forall l, ("Location", l) ∈ wp_headers resp ->
  (exists q, l = prefix +:+ ("/oidc/login?continuation=" +:+ q)) \/ registered l.

(** A call that keeps the stores in order and answers what [Q] says. *)
Definition safe {A} (Q : A -> Prop) (m : Op World A) : Prop :=
  triple stores_ok m (fun a s => stores_ok s /\ Q a) (fun _ => stores_ok).

Lemma safe_bind {A B} (m : Op World A) (f : A -> Op World B) Q R :
  safe R m -> (forall a, R a -> safe Q (f a)) -> safe Q (m ≫= f).
Proof. intros Hm Hf. eapply triple_bind; [exact Hm|]. intros a. apply triple_pure_pre, Hf. Qed.
Lemma safe_then {A B} (m : Op World A) (f : A -> Op World B) Q :
  safe (fun _ => True) m -> (forall a, safe Q (f a)) -> safe Q (m ≫= f).
Proof. intros Hm Hf. eapply safe_bind; [exact Hm|]. intros a _. apply Hf. Qed.
Lemma safe_ret {A} (a : A) (Q : A -> Prop) : Q a -> safe Q (mret a).
Proof. intros Ha s Hs. by split. Qed.
Lemma safe_of_result {A} (r : Result A) (Q : A -> Prop) : (forall a, r = Ok a -> Q a) -> safe Q (of_result r).
Proof. intros Hr s Hs. unfold of_result. destruct r; auto. Qed.
Lemma safe_on_db {A} (m : Op W A) (Q : A -> Prop) : (forall w a w', m w = (Ok a, w') -> Q a) -> safe Q (on_db m).
Proof. intros Hm [w p r] Hs. unfold on_db. cbn. destruct (m w) as [[a|e|x|] w'] eqn:Hw; try apply Hs. split; [apply Hs|by eapply Hm]. Qed.
Lemma safe_or_none {A} (m : Op World A) (Q : A -> Prop) :
  safe Q m -> safe (fun o => forall a, o = Some a -> Q a) (or_none m).
Proof.
  intros Hm s Hs. specialize (Hm s Hs). unfold or_none. destruct (m s) as [[a|e|x|] s']; try done.
  - destruct Hm as [? ?]. split; [done|]. by intros ? [= <-].
Qed.

Lemma store_pending_ok ttl t1 token t2 r entries :
  request_ok r -> entries_ok entries -> entries_ok (store_pending ttl t1 token t2 r entries).2.
Proof. intros Hr He. apply map_Forall_insert_2; [exact Hr|]. intros k e [He' _]%map_lookup_filter_Some. by eapply He. Qed.

Lemma safe_pending_store env i r : request_ok r -> safe (fun _ => True) (pending_store env i r).
Proof. intros Hr s [Hp Hs]. split; [|done]. split; [by apply store_pending_ok|done]. Qed.
Lemma safe_restart_store env i r : request_ok r -> safe (fun _ => True) (restart_store env i r).
Proof. intros Hr s [Hp Hs]. split; [|done]. split; [done|by apply store_pending_ok]. Qed.
Lemma safe_pending_take env i token :
  safe (fun o => forall r, o = Some r -> request_ok r) (pending_take env i token).
Proof.
  intros s [Hp Hs]. unfold pending_take, take. destruct (so_pending s !! token) as [e|] eqn:He; [|by destruct s].
  cbn. split; [split; [by apply map_Forall_delete|done]|]. destruct (_ <? _)%Z; [done|].
  intros r [= <-]. exact (Hp token e He).
Qed.
Lemma safe_restart_peek env i token :
  safe (fun o => forall r, o = Some r -> request_ok r) (restart_peek env i token).
Proof.
  intros s [Hp Hs]. unfold restart_peek, peek. destruct (so_restart s !! token) as [e|] eqn:He; [|by destruct s].
  destruct (_ <? _)%Z; cbn.
  - split; [split; [done|by apply map_Forall_delete]|done].
  - split; [done|]. intros r [= <-]. exact (Hs token e He).
Qed.

Lemma redirect_target clk drw r u t (w w' : W) l :
  buildAuthorizeRedirect sha256_hex clk drw r u t w = (Ok l, w') -> with_query (ar_redirectUri r) l.
Proof.
  unfold buildAuthorizeRedirect. intros Hx. apply run_bind_inv in Hx as (code & w1 & _ & [= <- <-]).
  right. destruct (is_empty (ar_state r)); cbn [negb]; [by eexists|].
  eexists. by rewrite <- !string_app_assoc.
Qed.

Lemma request_registered r l : request_ok r -> with_query (ar_redirectUri r) l -> registered l.
Proof. intros (client & Hc & Hu & _) Hl. exists (ar_clientId r), client, (ar_redirectUri r). auto. Qed.

(** Answers without a redirect, and the two kinds of redirect. *)
Definition stays (resp : WebResponse) : Prop := forall l, ("Location", l) ∉ wp_headers resp.
Lemma stays_directed resp : stays resp -> well_directed resp.
Proof. intros Hs l Hl. by destruct (Hs l). Qed.
Lemma directed_redirect l :
  (exists q, l = prefix +:+ ("/oidc/login?continuation=" +:+ q)) \/ registered l -> well_directed (redirect l).
Proof. intros Hl l' Hin. cbn in Hin. apply list_elem_of_singleton in Hin. by injection Hin as ->. Qed.
Lemma directed_cookie c resp : well_directed resp -> well_directed (addCookie c resp).
Proof. done. Qed.
Lemma stays_no_headers resp : wp_headers resp = [] -> stays resp.
Proof. intros He l. rewrite He. apply not_elem_of_nil. Qed.
Lemma stays_header k v resp : k <> "Location" -> stays resp -> stays (addHeader k v resp).
Proof.
  intros Hk Hs l Hin. cbn in Hin. apply elem_of_app in Hin as [Hin|Hin]; [by eapply Hs|].
  apply list_elem_of_singleton in Hin. by injection Hin as <- _.
Qed.
Lemma json_stays body code resp : jsonResponse body code = Ok resp -> stays resp.
Proof. unfold jsonResponse. intros (t & _ & [= <-])%result_bind_ok. by apply stays_no_headers. Qed.
Lemma safe_json body code : safe well_directed (of_result (jsonResponse body code)).
Proof. apply safe_of_result. intros resp Hr. by eapply stays_directed, json_stays. Qed.
Lemma safe_json_stays body code : safe stays (of_result (jsonResponse body code)).
Proof. apply safe_of_result. intros resp. apply json_stays. Qed.
Lemma safe_error e : safe well_directed (of_result (oauth_error_of e)).
Proof. unfold oauth_error_of. destruct (splitError _). apply safe_json. Qed.
Lemma safe_page resp : wp_headers resp = [] -> safe well_directed (mret resp).
Proof. intros Hr. by apply safe_ret, stays_directed, stays_no_headers. Qed.

Lemma safe_true {A} (m : Op World A) Q : safe Q m -> safe (fun _ => True) m.
Proof. intros Hm s Hs. specialize (Hm s Hs). destruct (m s) as [[] ?]; naive_solver. Qed.
Lemma safe_db {A} (m : Op W A) : safe (fun _ => True) (on_db m).
Proof. by apply safe_on_db. Qed.
Lemma safe_db_or_none {A} (m : Op W A) : safe (fun _ => True) (or_none (on_db m)).
Proof. eapply safe_true, safe_or_none, safe_db. Qed.

Lemma safe_code clk drw r u t : request_ok r ->
  safe (fun o => forall l, o = Some l -> registered l) (or_none (on_db (buildAuthorizeRedirect sha256_hex clk drw r u t))).
Proof.
  intros Hr. apply safe_or_none, safe_on_db. intros w l w' Hl. by eapply request_registered, redirect_target.
Qed.

Lemma requested_ok req r : requested clients req = Ok r -> request_ok r.
Proof. unfold requested. intros [Hr ->]%validateAuthorize_iff. destruct Hr as (c & ? & ? & ? & ?). by exists c. Qed.

Lemma safe_authorize env req : safe well_directed (handleAuthorize sha256_hex clients prefix env req).
Proof.
  unfold handleAuthorize. destruct (requested clients req) as [r|e|x|] eqn:Hreq; [|apply safe_error|by apply safe_of_result..].
  apply requested_ok in Hreq.
  apply (safe_bind _ _ _ (fun o => forall l, o = Some l -> registered l)).
  - unfold reuse_session. destruct (is_empty _); [by apply safe_ret|].
    apply safe_then; [apply safe_db_or_none|]. intros [b|]; [by apply safe_code|by apply safe_ret].
  - intros [l|] Hl; [apply safe_ret, directed_redirect; right; by apply Hl|].
    apply safe_then; [by apply safe_pending_store|]. intros c.
    apply safe_then; [by apply safe_restart_store|]. intros t.
    apply safe_ret, directed_redirect. left. by eexists.
Qed.

Lemma safe_restarted env restart : safe (fun _ => True) (restarted env restart).
Proof.
  unfold restarted. destruct (is_empty restart); [by apply safe_ret|].
  eapply safe_bind; [apply safe_restart_peek|]. intros [r|] Hr; [|by apply safe_ret].
  apply safe_then; [by apply safe_pending_store, Hr|]. intros f. by apply safe_ret.
Qed.

Lemma safe_get env req : safe well_directed (handleGet prefix env req).
Proof.
  unfold handleGet. apply safe_then; [destruct (is_empty _); [apply safe_restarted|by apply safe_ret]|].
  intros fresh. destruct (is_empty _); by apply safe_page.
Qed.

Lemma safe_complete env r u : request_ok r -> safe well_directed (complete_login sha256_hex issuer prefix env r u).
Proof.
  intros Hr. unfold complete_login. apply safe_then; [apply safe_db|]. intros t.
  eapply safe_bind; [by apply safe_code|]. intros [l|] Hl; [|by apply safe_page].
  apply safe_then; [apply safe_db_or_none|]. intros session.
  apply safe_ret. assert (well_directed (redirect l)) by (apply directed_redirect; right; by apply Hl).
  destruct session; [by apply directed_cookie|done].
Qed.

Lemma safe_post env req : safe well_directed (handlePost sha256_hex issuer prefix env req).
Proof.
  unfold handlePost. eapply safe_bind; [apply safe_pending_take|]. intros [r|] Hr.
  - apply safe_then; [apply safe_db_or_none|]. intros [u|]; [by apply safe_complete, Hr|].
    apply safe_then; [by apply safe_pending_store, Hr|]. intros t. by apply safe_page.
  - unfold resume. apply safe_then; [apply safe_restarted|]. intros [f|]; [|by apply safe_page].
    apply safe_ret, directed_redirect. left. by eexists.
Qed.

Lemma post_logout_registered req l : post_logout_location clients req = Some l -> registered l.
Proof.
  unfold post_logout_location. destruct (_ && _); [|done]. destruct (clients !! _) as [c|] eqn:Hc; [|done].
  destruct (isValidPostLogoutRedirectUri c _) eqn:Hv; [|done]. apply existsb_elem in Hv. intros [= <-].
  eexists _, c, _. split; [exact Hc|]. split; [by right|]. destruct (is_empty _); [by left|right]. by eexists.
Qed.

Lemma safe_logout env req : safe well_directed (handleLogout sha256_hex clients issuer prefix env req).
Proof.
  unfold handleLogout. apply safe_then; [destruct (is_empty _); [by apply safe_ret|apply safe_db_or_none]|]. intros _.
  apply safe_then; [destruct (is_empty _); [by apply safe_ret|apply safe_db_or_none]|]. intros _.
  apply safe_ret, directed_cookie. destruct (post_logout_location clients req) as [l|] eqn:Hl.
  - apply directed_redirect. right. by eapply post_logout_registered.
  - apply stays_directed. destruct (wq_post req); by apply stays_no_headers.
Qed.

Lemma safe_token env req :
  safe well_directed (handleToken sha256_hex sha256_bytes clients issuer keypair env req).
Proof.
  unfold handleToken. apply safe_then.
  - assert (forall m : Op W TokenResponse, safe (fun _ => True) (fun s : World =>
      match on_db m s with
      | (Ok t, s') => (Ok (inr t), s')
      | (Err e, s') => (Ok (inl (splitError (CxxStd.message e))), s')
      | (r, s') => (recast (B := (string * string) + TokenResponse) r, s')
      end)) as Hex.
    { intros m s Hs. pose proof (safe_db m s Hs) as Hm. destruct (on_db m s) as [[t|e|x|] s']; by try apply Hm. }
    unfold token_exchange. destruct (String.eqb _ _); [|destruct (String.eqb _ _); [|by apply safe_ret]].
    + destruct (_ || is_empty (getParameter req "client_id")); [by apply safe_ret|apply Hex].
    + destruct (_ || is_empty (getParameter req "client_id")); [by apply safe_ret|apply Hex].
  - intros [[err desc]|tok]; [apply safe_json|].
    eapply safe_bind; [apply safe_json_stays|]. intros resp Hr.
    apply safe_ret, stays_directed. by do 2 (apply stays_header; [done|]).
Qed.

Lemma safe_userinfo env req : safe well_directed (handleUserinfo issuer keypair env req).
Proof.
  unfold handleUserinfo. apply safe_then; [by apply safe_of_result|]. intros [c|]; [apply safe_json|].
  eapply safe_bind; [apply safe_json_stays|]. intros resp Hr. apply safe_ret, stays_directed. by apply stays_header.
Qed.

Lemma safe_route path env req : safe well_directed (route path env req).
Proof.
  unfold oidc_route, only. repeat (destruct (String.eqb _ _)); try destruct (Bool.eqb _ _); try destruct (wq_post req);
    first [apply safe_json|apply safe_authorize|apply safe_token|apply safe_post|apply safe_get
          |apply safe_userinfo|apply safe_logout|by apply safe_page].
Qed.

Lemma reachable_ok s : reachable s -> stores_ok s.
Proof.
  intros [w Hrun]. remember (mkSignOn w ∅ ∅) as s0 eqn:Hs0.
  assert (stores_ok s0) as Hok by (subst; split; apply map_Forall_empty). clear Hs0.
  induction Hrun as [|s0 s1 s2 Hstep _ IH]; [done|]. apply IH. destruct Hstep as [path env req s|w' s]; [|exact Hok].
  pose proof (safe_route path env req s Hok) as Hr. destruct (route path env req s) as [[] s']; [by destruct Hr|done..].
Qed.

(** C8. Signing on sends a browser nowhere else.  Whatever requests came before,
    in whatever order, and whatever the rest of the daemon did to the database, a
    redirect that a route answers goes to the provider's own sign-in page, or to
    an address registered for a client, with nothing but a query added. *)
Theorem no_open_redirect s path env req resp l :
  reachable s -> (route path env req s).1 = Ok resp -> ("Location", l) ∈ wp_headers resp ->
  (exists q, l = prefix +:+ ("/oidc/login?continuation=" +:+ q)) \/ registered l.
Proof.
  intros Hs Hr Hl. pose proof (safe_route path env req s (reachable_ok s Hs)) as Hd.
  destruct (route path env req s) as [r s']. cbn in Hr. subst. destruct Hd as [_ Hd]. by apply Hd.
Qed.
End Redirects.

(** ** For whom a code is issued *)

(** What the theorems assume of the database besides its tables: looking a
    credential or a session up changes none of them. *)
Class SignOnDb (W : Type) `{Host W, Adapter W, !EntityDb W, !CredentialTable W} := {
  so_sensitive : forall id w e, rows (do_readIncludingSensitive "Credential" id w).2 e = rows w e;
  so_email : forall v w e, rows (do_findByField "Credential" "email" v w).2 e = rows w e;
  so_read : forall id w e, rows (do_read "Credential" id w).2 e = rows w e;
  so_session : forall id w,
    match getEntity "OidcSession" id w with
    | (Ok row, w') => (forall e, rows w' e = rows w e) /\
        exists m, row = JObject m /\ rows w "OidcSession" !! id = Some m
    | (_, w') => forall e, rows w' e = rows w e
    end;
}.

Section Codes.
Context {W : Type} `{!Host W} `{!Adapter W} `{!EntityDb W} `{!Argon2} `{!CredentialTable W} `{!SignOnDb W}.
Context `{!JwtCpp} {jl : JsonLib} (sha256_hex sha256_bytes : string -> string).
Context (clients : gmap string OAuthClient) (issuer : string) (keypair : RsaKeypair) (prefix : string).
Abbreviation World := (SignOnState W).

Definition codes (s : World) : table := rows (so_db s) "AuthorizationCode".

(** The row of a code for the request [r] in the name of a user. *)
Definition grants (env_clock : nat -> Z) (r : AuthorizeRequest) (user tenant code : string) (m : members) : Prop :=
  string_member (JObject m) "codeHash" = Some (sha256_hex code) /\
  string_member (JObject m) "clientId" = Some (ar_clientId r) /\
  string_member (JObject m) "userId" = Some user /\ string_member (JObject m) "tenantId" = Some tenant /\
  string_member (JObject m) "redirectUri" = Some (ar_redirectUri r) /\
  string_member (JObject m) "codeChallenge" = Some (ar_codeChallenge r) /\
  string_member (JObject m) "scope" = Some (ar_scope r) /\
  obj_get "consumedAt" m = Some JNull /\ obj_get "expiresAt" m = Some (JInt (env_clock 0 + 60)).

(** The address a code is sent to. *)
Definition callback (r : AuthorizeRequest) (code : string) : string :=
  ar_redirectUri r +:+ ((match find_char "?" (ar_redirectUri r) with None => "?" | Some _ => "&" end) +:+ ("code=" +:+ code))
  +:+ (if is_empty (ar_state r) then "" else "&state=" +:+ ar_state r).

(** The codes after a code was issued. *)
Definition one_code (clk : nat -> Z) (r : AuthorizeRequest) (user tenant code : string) (t t' : table) : Prop :=
  exists id m, t !! id = None /\ t' = <[id := m]> t /\ grants clk r user tenant code m.

Lemma issue_spec clk drw r user tenant (w : W) :
  match buildAuthorizeRedirect sha256_hex clk drw r user tenant w with
  | (Ok l, w') => l = callback r (drw 0) /\
      one_code clk r user tenant (drw 0) (rows w "AuthorizationCode") (rows w' "AuthorizationCode")
  | (Err _, w') => forall e, rows w' e = rows w e
  | _ => False
  end.
Proof.
  unfold buildAuthorizeRedirect, issueCode, issue_code, object.
  match goal with |- context [createEntity _ (JObject ?d)] =>
    pose proof (db_create w "AuthorizationCode" d) as Hc; set (d0 := d) in * end.
  unfold mbind, Op_bind. destruct (createEntity "AuthorizationCode" (JObject d0) w) as [[row|e|x|] w1]; try done.
  destruct Hc as [(m & _ & i & Hi & Ht & _ & Hm) _]. cbn. split.
  - unfold callback. destruct (is_empty (ar_state r)); cbn [negb]; [by rewrite string_app_nil_r|by rewrite !string_app_assoc].
  - exists i, m. split; [done|]. split; [done|]. unfold grants. rewrite !string_member_get.
    split_and!; apply Hm; try done.
Qed.

(** Calls that leave the codes alone. *)
Definition same_codes : relation W := fun w w' => rows w' "AuthorizationCode" = rows w "AuthorizationCode".
#[local] Instance same_codes_preorder : PreOrder same_codes.
Proof. split; [done|]. intros ? ? ? H1 H2. unfold same_codes in *. congruence. Qed.

Lemma same_or_invalid {A B} s p (m : Op W A) (k : A -> Op W B) :
  frame same_codes m -> (forall a, frame same_codes (k a)) -> frame same_codes (or_invalid s p m k).
Proof.
  intros Hm Hk w. unfold or_invalid. specialize (Hm w). destruct (m w) as [[a|e|x|] w']; cbn in *; try done.
  transitivity w'; [done|apply Hk].
Qed.
Lemma same_sensitive id : frame same_codes (do_readIncludingSensitive "Credential" id).
Proof. intros w. apply so_sensitive. Qed.
Lemma same_email v : frame same_codes (do_findByField "Credential" "email" v).
Proof. intros w. apply so_email. Qed.

Lemma verify_keeps s identifier password : frame same_codes (verifyCredentialIdentifier s identifier password).
Proof.
  unfold verifyCredentialIdentifier. apply (frame_bind _); [apply (frame_pure _), pure_reject_if|]. intros _.
  apply (frame_bind _).
  - intros w. unfold find_credential. pose proof (same_sensitive identifier w) as Hs.
    destruct (do_readIncludingSensitive "Credential" identifier w) as [[row|e|x|] w']; try done.
    transitivity w'; [exact Hs|]. apply same_or_invalid; [apply same_email|]. intros byEmail.
    apply (frame_bind _); [apply (frame_pure _), pure_of_result|]. intros u.
    apply same_or_invalid; [apply same_sensitive|]. intros r. apply (frame_pure _), pure_ret.
  - intros [u row]. apply (frame_bind _); [intros w; by rewrite check_hash_keeps|].
    intros _. apply (frame_pure _), pure_ret.
Qed.

Lemma tenant_keeps u : frame same_codes (getCredentialTenantId u).
Proof.
  intros w. unfold getCredentialTenantId. pose proof (so_read u w "AuthorizationCode") as Hr.
  by destruct (do_read "Credential" u w) as [[row|e|x|] w'].
Qed.

Lemma session_keeps clk u t : frame same_codes (createBrowserSession clk u t).
Proof.
  unfold createBrowserSession, createSession. apply (frame_bind _).
  - intros w. match goal with |- context [createEntity _ (object ?d)] =>
      pose proof (db_create w "OidcSession" (build d)) as Hc; change (JObject (build d)) with (object d) in Hc end.
    unfold changes in Hc. destruct (createEntity "OidcSession" _ w) as [[row|e|x|] w']; try done; [by apply Hc|apply Hc].
  - intros row. apply (frame_pure _), pure_bind; [apply pure_of_result|]. intros sid.
    apply pure_bind; [apply pure_reject_if|]. intros _. apply pure_ret.
Qed.

Lemma codes_on_db {A} (m : Op W A) (s : World) : frame same_codes m -> codes (on_db m s).2 = codes s.
Proof. intros Hm. unfold codes, on_db. specialize (Hm (so_db s)). by destruct (m (so_db s)). Qed.
Lemma on_db_pending {A} (m : Op W A) (s : World) : so_pending (on_db m s).2 = so_pending s.
Proof. unfold on_db. by destruct (m (so_db s)). Qed.
Lemma codes_complete env r user (s : World) :
  let '(res, s') := complete_login sha256_hex issuer prefix env r user s in
  so_pending s' = so_pending s /\
  (codes s' = codes s \/
   exists tenant, tenant_of (creds (so_db s)) user = Ok tenant /\
     one_code (clock env) r user tenant (draw env 0) (codes s) (codes s') /\
     forall resp l, res = Ok resp -> ("Location", l) ∈ wp_headers resp -> l = callback r (draw env 0)).
Proof.
  unfold complete_login, mbind, Op_bind, on_db. destruct s as [w0 p q]. cbn [so_db so_pending so_restart].
  pose proof (getCredentialTenantId_eq user w0) as [Ht _]. pose proof (tenant_keeps user w0) as Hk.
  destruct (getCredentialTenantId user w0) as [[t|e|x|] w1]; try (split; [done|by left]).
  unfold or_none at 1. pose proof (issue_spec (clock env) (draw env) r user t w1) as Hi. cbn [so_db so_pending so_restart].
  destruct (buildAuthorizeRedirect sha256_hex (clock env) (draw env) r user t w1) as [[l|e|x|] w2]; try done.
  - destruct Hi as [-> Hone]. pose proof (session_keeps (later 2 env) user t w2) as Hs. unfold or_none. cbn [so_db so_pending so_restart].
    destruct (createBrowserSession (later 2 env) user t w2) as [[sid|e|x|] w3];
      (split; [done|right; exists t; split; [by rewrite <- Ht|]; unfold codes, same_codes in *; cbn in *; rewrite Hs, <- Hk; split; [done|]]); try done.
    all: intros resp l [= <-] Hin; cbn in Hin; apply list_elem_of_singleton in Hin; by injection Hin as ->.
  - split; [done|]. left. unfold codes. cbn. rewrite (Hi "AuthorizationCode"). exact Hk.
Qed.

(** The calls that a submitted form without a valid user makes leave the database
    alone. *)
Lemma restarted_db env restart (s : World) : so_db (restarted env restart s).2 = so_db s.
Proof.
  unfold restarted. destruct (is_empty restart); [done|]. unfold mbind, Op_bind, restart_peek, pending_store.
  destruct s as [w p q]. cbn. by destruct (peek _ restart q) as [[o|] q'].
Qed.
Lemma resume_db env restart (s : World) : so_db (resume prefix env restart s).2 = so_db s.
Proof.
  unfold resume. pose proof (restarted_db env restart s) as Hr. unfold mbind, Op_bind.
  by destruct (restarted env restart s) as [[[f|]|e|x|] s'].
Qed.


(** A session that spares the sign-in form. *)
Definition live (now : Z) (m : members) (user tenant : string) : Prop :=
  value_string (JObject m) "clientId" "" = Ok kBrowserSessionClientId /\
  value_json (JObject m) "revokedAt" JNull = Ok JNull /\
  (exists expires, value_int64 (JObject m) "expiresAt" 0 = Ok expires /\ (now < expires)%Z) /\
  value_string (JObject m) "userId" "" = Ok user /\ user <> "" /\ value_string (JObject m) "tenantId" "" = Ok tenant.

Lemma lookup_live now sid (w : W) b w' :
  lookupBrowserSession now sid w = (Ok b, w') ->
  rows w' "AuthorizationCode" = rows w "AuthorizationCode" /\
  exists m, rows w "OidcSession" !! sid = Some m /\ live (now 0) m (bs_userId b) (bs_tenantId b).
Proof.
  unfold lookupBrowserSession. pose proof (so_session sid w) as Hs.
  destruct (getEntity "OidcSession" sid w) as [[row|e|x|] w1]; try done. destruct Hs as (Hw & m & -> & Hm). intros Hx.
  apply run_of_result_inv in Hx as (c & Hc & Hx). apply run_reject_inv in Hx as [Hcl Hx].
  apply run_of_result_inv in Hx as (rv & Hrv & Hx). apply run_reject_inv in Hx as [Hnull Hx].
  apply run_of_result_inv in Hx as (ex & Hex & Hx). apply run_reject_inv in Hx as [Hexp Hx].
  apply run_of_result_inv in Hx as (u & Hu & Hx). apply run_of_result_inv in Hx as (t & Ht & Hx).
  apply run_reject_inv in Hx as [Hue [= <- <-]]. split; [apply Hw|]. exists m. split; [done|].
  apply negb_false_iff, String.eqb_eq in Hcl as ->. apply is_empty_false in Hue. apply Z.leb_gt in Hexp.
  destruct rv; try done. unfold live. cbn. split_and!; eauto.
Qed.

Lemma lookup_codes now sid (w : W) : rows (lookupBrowserSession now sid w).2 "AuthorizationCode" = rows w "AuthorizationCode".
Proof.
  unfold lookupBrowserSession. pose proof (so_session sid w) as Hs.
  destruct (getEntity "OidcSession" sid w) as [[row|e|x|] w1]; try apply Hs. destruct Hs as [Hs _].
  rewrite <- (Hs "AuthorizationCode"). match goal with |- rows (?m w1).2 _ = _ => assert (pure_op m) as Hp end.
  { repeat (apply pure_bind; [first [apply pure_of_result|apply pure_reject_if]|intros ?]). apply pure_ret. }
  by rewrite Hp.
Qed.
(** The outcome of looking for a session to reuse. *)
Lemma reuse_spec env r sid (s : World) :
  let '(res, s') := reuse_session sha256_hex env r sid s in
  match res with
  | Ok (Some l) => l = callback r (draw env 0) /\
      exists m user tenant, rows (so_db s) "OidcSession" !! sid = Some m /\ live (clock env 0) m user tenant /\
        one_code (later 1 env) r user tenant (draw env 0) (codes s) (codes s')
  | _ => codes s' = codes s
  end.
Proof.
  unfold reuse_session. destruct (is_empty sid); [done|]. destruct s as [w p q].
  unfold mbind, Op_bind, or_none at 1, on_db at 1. cbn [so_db so_pending so_restart].
  pose proof (lookup_codes (clock env) sid w) as Hk.
  destruct (lookupBrowserSession (clock env) sid w) as [[b|e|x|] w1] eqn:Hl; [|exact Hk..].
  apply lookup_live in Hl as [_ (m & Hm & Hlive)]. cbn [snd] in Hk.
  unfold or_none, on_db. cbn [so_db so_pending so_restart].
  pose proof (issue_spec (later 1 env) (draw env) r (bs_userId b) (bs_tenantId b) w1) as Hi.
  destruct (buildAuthorizeRedirect sha256_hex (later 1 env) (draw env) r _ _ w1) as [[l|e|x|] w2]; try done.
  - destruct Hi as [-> Hone]. split; [done|]. exists m, (bs_userId b), (bs_tenantId b).
    split; [done|]. split; [done|]. unfold codes. cbn. by rewrite <- Hk.
  - unfold codes. cbn. by rewrite (Hi "AuthorizationCode").
Qed.

(** C11. A code without a sign-in form is issued only to a browser that has signed
    in.  Asking for authorization leaves the table of codes as it was, unless the
    request is one the provider accepts and the cookie names a browser session
    that is neither revoked nor expired; then one row is added, for that request
    and in the name of the session's user and tenant, and the browser is sent with
    the code to the request's registered address. *)
Theorem authorize_reuses_session env req s :
  let '(res, s') := handleAuthorize sha256_hex clients prefix env req s in
  codes s' = codes s \/
  exists r m user tenant, requested clients req = Ok r /\ request_ok clients r /\
    rows (so_db s) "OidcSession" !! getCookie req kSessionCookieName = Some m /\
    live (clock env 0) m user tenant /\
    one_code (later 1 env) r user tenant (draw env 0) (codes s) (codes s') /\
    res = Ok (redirect (callback r (draw env 0))).
Proof.
  unfold handleAuthorize. destruct (requested clients req) as [r|e|x|] eqn:Hreq; [|by left..].
  unfold mbind at 1, Op_bind at 1. pose proof (reuse_spec env r (getCookie req kSessionCookieName) s) as Hr.
  destruct (reuse_session _ _ _ _ s) as [[[l|]|e|x|] s1]; [|by left..].
  destruct Hr as (-> & m & user & tenant & Hm & Hl & Hone). right. exists r, m, user, tenant.
  split_and!; try done. by apply (requested_ok clients req).
Qed.
End Codes.

(** ** A run *)

#[local] Existing Instance table_db.
#[local] Existing Instance table_laws.
#[local] Existing Instance plain_argon2.
#[local] Existing Instance plain_jwt.
#[local] Existing Instance login_adapter.
#[local] Existing Instance login_credentials.

Lemma table_sign_on : SignOnDb TableDb.
Proof.
  split.
  - intros id w e. cbn. by destruct (view w "Credential" !! id).
  - intros v w e. cbn. destruct v; try done. by destruct (matching _ _).
  - intros id w e. cbn. by destruct (view w "Credential" !! id).
  - intros id w. cbn. destruct (view w "OidcSession" !! id) as [m|]; [|done]. split; [done|]. by exists m.
Qed.
#[local] Existing Instance table_sign_on.

Definition demo_env : Env :=
  mkEnv (fun i => 100 + Z.of_nat i)%Z (fun i => Z.of_nat i) (fun i => "t" +:+ to_string (Z.of_nat i)) "salt".
Definition demo_route (jl : JsonLib := PlainJson.plain_json) :=
  oidc_route (W := TableDb) demo_sha (fun s => s) demo_clients "https://id.example" demo_keypair "/api".

Definition demo_request : WebRequest := mkWeb false
  (list_to_map [("client_id", "app"); ("redirect_uri", "https://app/cb"); ("response_type", "code");
    ("scope", "openid"); ("state", "xyz"); ("code_challenge", demo_challenge); ("code_challenge_method", "S256")]) ∅ ∅.
Definition signing_in : SignOnState TableDb := mkSignOn with_ada ∅ ∅.
Definition form_shown : SignOnState TableDb := (demo_route "/oidc/authorize" demo_env demo_request signing_in).2.
Definition ada_submits : WebRequest := mkWeb true
  (list_to_map [("continuation", "t10"); ("restart", "t20"); ("username", "ada@example.org"); ("password", "lovelace1815")]) ∅ ∅.
Definition signed_in : Result WebResponse * SignOnState TableDb := demo_route "/oidc/login" demo_env ada_submits form_shown.

Example sign_on_run :
  (demo_route "/oidc/authorize" demo_env demo_request signing_in).1 =
    Ok (redirect "/api/oidc/login?continuation=t10&restart=t20") /\
  (forall resp, signed_in.1 = Ok resp -> wp_headers resp = [("Location", "https://app/cb?code=t0&state=xyz")]) /\
  (let bad := mkWeb true (<["password" := "guess"]> (wq_parameters ada_submits)) ∅ ∅ in
   codes (demo_route "/oidc/login" demo_env bad form_shown).2 = codes form_shown).
Proof.
  split; [vm_compute; reflexivity|]. split.
  - intros resp Hr. vm_compute in Hr. injection Hr as <-. reflexivity.
  - vm_compute. reflexivity.
Qed.

Lemma form_shown_reachable :
  reachable demo_sha (fun s => s) demo_clients "https://id.example" demo_keypair "/api" (jl := PlainJson.plain_json) form_shown.
Proof. exists with_ada. apply rtc_once, (by_request demo_sha (fun s => s) demo_clients "https://id.example" demo_keypair "/api" "/oidc/authorize" demo_env demo_request). Qed.

Lemma no_open_redirect_witness :
  exists resp, signed_in.1 = Ok resp /\ registered demo_clients "https://app/cb?code=t0&state=xyz".
Proof.
  destruct signed_in.1 as [resp|e|x|] eqn:Hr; [|vm_compute in Hr; discriminate Hr..].
  exists resp. split; [reflexivity|].
  destruct (no_open_redirect demo_sha (fun s => s) demo_clients "https://id.example" demo_keypair "/api" (jl := PlainJson.plain_json)
    form_shown "/oidc/login" demo_env ada_submits resp "https://app/cb?code=t0&state=xyz" form_shown_reachable Hr) as [[q Hq]|Hreg].
  - vm_compute in Hr. injection Hr as <-. apply list_elem_of_here.
  - discriminate Hq.
  - exact Hreg.
Defined.

Definition posted : Result WebResponse * SignOnState TableDb :=
  handlePost demo_sha "https://id.example" "/api" demo_env ada_submits form_shown.


(** The browser that signed in comes back with its cookie. *)
Definition comes_back : WebRequest := mkWeb false (wq_parameters demo_request) {[ kSessionCookieName := "0" ]} ∅.
Definition reused : Result WebResponse * SignOnState TableDb :=
  handleAuthorize (jl := PlainJson.plain_json) demo_sha demo_clients "/api" demo_env comes_back signed_in.2.

Lemma authorize_reuses_session_witness :
  exists r m user tenant, requested demo_clients comes_back = Ok r /\ view (so_db signed_in.2) "OidcSession" !! "0" = Some m /\
    live 100 m user tenant /\ reused.1 = Ok (redirect (callback r "t0")).
Proof.
  pose proof (authorize_reuses_session (jl := PlainJson.plain_json) demo_sha demo_clients "/api" demo_env comes_back signed_in.2) as Hx.
  assert (codes reused.2 <> codes signed_in.2) as Hne.
  { intros Heq. apply (f_equal (fun t : table => base.size t)) in Heq. vm_compute in Heq. discriminate Heq. }
  unfold reused in *. destruct (handleAuthorize _ _ _ _ _ _) as [res s'].
  destruct Hx as [Hsame|(r & m & user & tenant & Hr & _ & Hm & Hl & _ & Hres)]; [by destruct Hne|].
  exists r, m, user, tenant. split; [exact Hr|]. split; [exact Hm|]. split; [exact Hl|exact Hres].
Defined.
