(* ===== verification/Federation.v ===== *)
(** * The SAML and CAS sign-in

    Models src/saml (saml_service.cpp, metadata/sp_registry.cpp,
    binding/redirect_binding.cpp, binding/authn_request_parser.cpp,
    assertion/response_builder.cpp), src/cas/cas_service.cpp and the handlers of
    src/daemon/handlers/saml and src/daemon/handlers/cas with their routes: an
    authentication request is decoded, parsed, matched with the registry of service
    providers and filed; a sign-in answers it with an assertion posted to the
    provider's registered address, or a CAS service with a ticket.  The inflater,
    the XML reader and the signature are libraries (the class [SamlLib]). *)

From stdpp Require Import relations.
From S2P Require Import Prelude CxxString CxxStd Store Json Calendar Base64 EntityHost Adapter OneTime Oidc Limits TokenIssuer Credentials LoginPages SignOn.

Open Scope string_scope.

(** ** Libraries *)

(** One round of zlib's [inflate]: some output, the last output, or an error. *)
Inductive InflateRound := Z_OK (produced : string) | Z_STREAM_END (produced : string) | Z_ERROR.

(** What the parser reads of a document: whether it has a DOCTYPE, and the root
    with its attributes and child elements in order. *)
Record XmlElement := mkElement { el_ns : option string; el_name : string; el_content : string }.
Record XmlRoot := mkRoot {
  xr_ns : option string; xr_name : string; xr_attributes : gmap string string; xr_children : list XmlElement;
}.
Record XmlDoc := mkDoc { xd_doctype : bool; xd_root : option XmlRoot }.

(** The document that is built: an element with its attributes, the declarations of
    its namespaces among them, the content given to [xmlNewChild] and the children. *)
Inductive Xml := Elem (name : string) (attributes : list (string * string)) (content : option string) (children : list Xml).

(** [inflateInit2] and the rounds of [inflate] on the data ([None] when it fails),
    [xmlReadMemory], and the serialised document with the element named by an
    identifier signed ([None] when signing or serialising throws). *)
Class SamlLib := {
  raw_inflate : string -> option (list InflateRound);
  xmlReadMemory : string -> option XmlDoc;
  sign_and_dump : forall doc : Xml, forall assertionId privateKeyPem : string, option string;
}.

(** ** Reading a request *)

Definition kMaxOutputBytes : Z := 1 * 1024 * 1024.

(** The loop of [decodeRedirectBinding]; data that ends early is an error. *)
Fixpoint inflate_loop (rounds : list InflateRound) (out : string) : Result string :=
  let append produced (k : string -> Result string) :=
    if (kMaxOutputBytes <? size out + size produced)%Z
    then Throw (runtime_error "SAMLRequest inflated data exceeds size limit") else k (out +:+ produced) in
  match rounds with
  | Z_OK produced :: rounds => append produced (inflate_loop rounds)
  | Z_STREAM_END produced :: _ => append produced Ok
  | _ => Throw (runtime_error "SAMLRequest inflate failed")
  end.

Definition decodeRedirectBinding `{!SamlLib} (samlRequestParam : string) : Result string :=
  compressed ← base64_decode samlRequestParam;
  if is_empty compressed then Throw (runtime_error "SAMLRequest decoded to empty data")
  else
    match raw_inflate compressed with
    | None => Throw (runtime_error "inflateInit2 failed")
    | Some rounds => inflate_loop rounds ""
    end.

Definition kSamlProtocolNs : string := "urn:oasis:names:tc:SAML:2.0:protocol".
Definition kSamlAssertionNs : string := "urn:oasis:names:tc:SAML:2.0:assertion".

Record ParsedAuthnRequest := mkParsed { pq_id : string; pq_issuer : string }.

Definition is_named (ns name : string) (el_ns : option string) (el_name : string) : bool :=
  match el_ns with Some href => String.eqb el_name name && String.eqb href ns | None => false end.

(** The request, or what [errorOut] is set to. *)
Definition parseAuthnRequest `{!SamlLib} (xml : string) : string + ParsedAuthnRequest :=
  match xmlReadMemory xml with
  | None => inl "malformed XML"
  | Some doc =>
      if xd_doctype doc then inl "document has a DOCTYPE — rejected"
      else
        match xd_root doc with
        | Some root =>
            if negb (is_named kSamlProtocolNs "AuthnRequest" (xr_ns root) (xr_name root))
            then inl "root element is not samlp:AuthnRequest"
            else
              match xr_attributes root !! "ID" with
              | None => inl "AuthnRequest missing ID attribute"
              | Some id =>
                  let issuerNode := List.find (fun el => is_named kSamlAssertionNs "Issuer" (el_ns el) (el_name el)) (xr_children root) in
                  let issuer := match issuerNode with Some el => el_content el | None => "" end in
                  if is_empty issuer then inl "AuthnRequest missing saml:Issuer" else inr (mkParsed id issuer)
              end
        | None => inl "root element is not samlp:AuthnRequest"
        end
  end.

(** ** The registry of service providers *)

Record ServiceProvider := mkSp { sp_entity_id : string; sp_name : string; sp_acs_url : string }.

Definition load_sp (node : json) : Result ServiceProvider :=
  entity_id ← (v ← at_member node "entity_id"; get_string v);
  name ← value_string node "name" entity_id;
  acs_url ← (v ← at_member node "acs_url"; get_string v);
  if is_empty acs_url then Throw (runtime_error ("SP '" +:+ (entity_id +:+ "': acs_url must not be empty")))
  else Ok (mkSp entity_id name acs_url).

Fixpoint load_sps (nodes : list json) (sps : gmap string ServiceProvider) : Result (gmap string ServiceProvider) :=
  match nodes with
  | [] => Ok sps
  | node :: nodes => sp ← load_sp node; load_sps nodes (<[sp_entity_id sp := sp]> sps)
  end.

(** [SpRegistry::load] of a file that parsed to [root]. *)
Definition load_registry (path : string) (root : json) : Result (gmap string ServiceProvider) :=
  match member root "service_providers" with
  | Some (JArray nodes) => load_sps nodes ∅
  | _ => Throw (runtime_error ("SAML SP registry missing 'service_providers' array: " +:+ path))
  end.

(** ** The assertion *)

Record ResponseParams := mkResponseParams {
  rp_issuer : string; rp_spEntityId : string; rp_acsUrl : string; rp_inResponseTo : string;
  rp_subjectUsername : string; rp_sessionIndex : string; rp_issueInstant : Z; rp_validitySeconds : Z;
}.

Definition leaf (name content : string) : Xml := Elem name [] (Some content) [].
Definition node (name : string) (attributes : list (string * string)) (children : list Xml) : Xml :=
  Elem name attributes None children.

Definition assertion_of (params : ResponseParams) (assertionId : string) : Xml :=
  let issueInstant := iso_time (rp_issueInstant params) in
  let notOnOrAfter := iso_time (rp_issueInstant params + rp_validitySeconds params) in
  node "saml:Assertion" [("ID", assertionId); ("Version", "2.0"); ("IssueInstant", issueInstant)] [
    leaf "saml:Issuer" (rp_issuer params);
    node "saml:Subject" [] [
      Elem "saml:NameID" [("Format", "urn:oasis:names:tc:SAML:2.0:nameid-format:unspecified")]
        (Some (rp_subjectUsername params)) [];
      node "saml:SubjectConfirmation" [("Method", "urn:oasis:names:tc:SAML:2.0:cm:bearer")] [
        node "saml:SubjectConfirmationData" [("Recipient", rp_acsUrl params); ("NotOnOrAfter", notOnOrAfter);
          ("InResponseTo", rp_inResponseTo params)] []]];
    node "saml:Conditions" [("NotBefore", issueInstant); ("NotOnOrAfter", notOnOrAfter)] [
      node "saml:AudienceRestriction" [] [leaf "saml:Audience" (rp_spEntityId params)]];
    node "saml:AuthnStatement" [("AuthnInstant", issueInstant); ("SessionIndex", rp_sessionIndex params)] [
      node "saml:AuthnContext" [] [
        leaf "saml:AuthnContextClassRef" "urn:oasis:names:tc:SAML:2.0:ac:classes:PasswordProtectedTransport"]]].

Definition response_of (params : ResponseParams) (responseId assertionId : string) : Xml :=
  node "samlp:Response" [("xmlns:samlp", kSamlProtocolNs); ("xmlns:saml", kSamlAssertionNs); ("ID", responseId); ("Version", "2.0"); ("IssueInstant", iso_time (rp_issueInstant params));
      ("Destination", rp_acsUrl params); ("InResponseTo", rp_inResponseTo params)] [
    leaf "saml:Issuer" (rp_issuer params);
    node "samlp:Status" [] [node "samlp:StatusCode" [("Value", "urn:oasis:names:tc:SAML:2.0:status:Success")] []];
    assertion_of params assertionId].

(** The two tokens are those of the identifiers. *)
Definition buildSignedSamlResponse `{!SamlLib} (params : ResponseParams) (token1 token2 privateKeyPem : string) : option string :=
  let responseId := "_" +:+ token1 in
  let assertionId := "_" +:+ token2 in
  sign_and_dump (response_of params responseId assertionId) assertionId privateKeyPem.

Record IssuedSamlResponse := mkIssued { is_acsUrl : string; is_samlResponseBase64 : string; is_relayState : option string }.

(** ** The SAML service and its handlers *)

Section Saml.
Context {W : Type} `{!Host W} `{!Adapter W} `{!Argon2} `{!SamlLib}.
(** [what x] is the text of an exception. *)
Context (what : Exn -> string) (registry : gmap string ServiceProvider) (issuer privateKeyPem prefix : string).
Implicit Types (env : Env) (req : WebRequest).

Definition handleSsoRequest env (samlRequestParam : string) (relayState : option string) : Op W string :=
  xml ← (match decodeRedirectBinding samlRequestParam with
         | Throw x => fail (validationError ("malformed SAMLRequest: " +:+ what x))
         | r => of_result r
         end);
  match parseAuthnRequest xml with
  | inl parseError => fail (validationError ("invalid AuthnRequest: " +:+ parseError))
  | inr parsed =>
      match registry !! pq_issuer parsed with
      | None => fail (validationError ("unknown service provider: " +:+ pq_issuer parsed))
      | Some sp =>
          _ ← store 300 (clock env 0) (clock env 1)
                (mkPending (pq_id parsed) (sp_entity_id sp) (sp_acs_url sp) relayState);
          mret (pq_id parsed)
      end
  end.

Definition issueResponse env (requestId username : string) : Op W IssuedSamlResponse :=
  pending ← take_request (clock env 0) (clock env 1) requestId;
  let params := mkResponseParams issuer (ps_spEntityId pending) (ps_acsUrl pending) (ps_requestId pending) username
                  (draw env 0) (clock env 2) 300 in
  match buildSignedSamlResponse params (draw env 1) (draw env 2) privateKeyPem with
  | None => fail (internal "failed to build SAML response")
  | Some responseXml => mret (mkIssued (ps_acsUrl pending) (base64_encode responseXml) (ps_relayState pending))
  end.

Definition plain_error (message : string) : WebResponse := with_body no_type message (with_status 400 newHttpResponse).

Definition handleMetadata : WebResponse :=
  with_body (custom_type "application/samlmetadata+xml; charset=utf-8") (metadataDocument issuer) newHttpResponse.

Definition handleSso env req : Op W WebResponse := fun w =>
  let samlRequest := getParameter req "SAMLRequest" in
  let relayStateParam := getParameter req "RelayState" in
  let relayState := if is_empty relayStateParam then None else Some relayStateParam in
  if is_empty samlRequest then (Ok (plain_error "Missing SAMLRequest parameter"), w)
  else
    match handleSsoRequest env samlRequest relayState w with
    | (Ok id, w') => (Ok (redirect (prefix +:+ ("/saml/login?continuation=" +:+ id))), w')
    | (Err e, w') => (Ok (plain_error (CxxStd.message e)), w')
    | (r, w') => (recast r, w')
    end.

Definition saml_handleGet req : WebResponse :=
  let continuation := getParameter req "continuation" in
  if is_empty continuation then plain_error "Missing continuation token — start over at /saml/sso"
  else html_page 200 (saml_renderLoginForm prefix continuation "").

Definition rejected_form req : WebResponse :=
  html_page 200 (saml_renderLoginForm prefix (getParameter req "continuation") "Invalid username or password").

(** [verifyResult.isError() || !verifyResult.value()] *)
Definition verified env (username password : string) : Op W bool := fun w =>
  match verifyCredential (salt env) username password w with
  | (Err _, w') => (Ok false, w')
  | r => r
  end.

Definition saml_handlePost env req : Op W WebResponse :=
  let username := getParameter req "username" in
  ok ← verified env username (getParameter req "password");
  if negb ok then mret (rejected_form req)
  else fun w =>
    match issueResponse env (getParameter req "continuation") username w with
    | (Ok r, w') =>
        (Ok (html_page 200 (renderAutoSubmitForm (is_acsUrl r) (is_samlResponseBase64 r) (is_relayState r))), w')
    | (Err e, w') => (Ok (plain_error (CxxStd.message e)), w')
    | (r, w') => (recast r, w')
    end.

(** The routes registered when there is an identity provider. *)
Definition saml_route (path : string) env req : Op W WebResponse :=
  if String.eqb path "/saml/metadata" then mret (if wq_post req then wrong_method else handleMetadata)
  else if String.eqb path "/saml/sso" then (if wq_post req then mret wrong_method else handleSso env req)
  else if String.eqb path "/saml/login" then (if wq_post req then saml_handlePost env req else mret (saml_handleGet req))
  else mret not_routed.
End Saml.

(** ** The CAS service and its handlers *)

Section Cas.
Context {W : Type} `{!Host W} `{!Adapter W} `{!Argon2} (sha256_hex : string -> string) (prefix : string).
Implicit Types (env : Env) (req : WebRequest).

Definition missing_service : WebResponse := plain_error "Missing service parameter".

Definition cas_handleGet req : WebResponse :=
  let service := getParameter req "service" in
  if is_empty service then missing_service else html_page 200 (cas_renderLoginForm prefix service "").

(** The address of the service with the ticket. *)
Definition with_ticket (service ticket : string) : string :=
  let separator := match find_char "?" service with None => "?" | Some _ => "&" end in
  service +:+ (separator +:+ ("ticket=" +:+ ticket)).

Definition cas_handlePost env req : Op W WebResponse :=
  let service := getParameter req "service" in
  let username := getParameter req "username" in
  if is_empty service then mret missing_service
  else
    ok ← verified env username (getParameter req "password");
    if negb ok then mret (html_page 200 (cas_renderLoginForm prefix service "Invalid username or password"))
    else
      tenantId ← getCredentialTenantId username;
      ticket ← or_none (issueServiceTicket sha256_hex (clock env 0) (clock env 1) (draw env 0) username tenantId service);
      mret (match ticket with
            | Some ticket => redirect (with_ticket service ticket)
            | None => with_body no_type "Failed to complete sign-in" (with_status 500 newHttpResponse)
            end).

(** The code and the text of a refusal. *)
Definition refusal (e : Error) : string * string :=
  match String.index 0 ": " (CxxStd.message e) with
  | Some pos => (string_take pos (CxxStd.message e), string_drop (pos + 2) (CxxStd.message e))
  | None => ("INVALID_TICKET", CxxStd.message e)
  end.

Definition xml_page (body : string) : WebResponse := with_body (custom_type "text/xml; charset=utf-8") body newHttpResponse.

Definition handleServiceValidate env req : Op W WebResponse := fun w =>
  let ticket := getParameter req "ticket" in
  let service := getParameter req "service" in
  if is_empty ticket || is_empty service
  then (Ok (xml_page (cas_failure "INVALID_REQUEST" "ticket and service are required")), w)
  else
    match validateServiceTicket sha256_hex (clock env 0) (clock env 1) ticket service w with
    | (Ok validated, w') => (Ok (xml_page (cas_success (vt_userId validated))), w')
    | (Err e, w') =>
        let '(code, desc) := refusal e in (Ok (xml_page (cas_failure (xmlEscape code) (xmlEscape desc))), w')
    | (r, w') => (recast r, w')
    end.

(** The routes registered when CAS is enabled. *)
Definition cas_route (path : string) env req : Op W WebResponse :=
  if String.eqb path "/cas/login" then (if wq_post req then cas_handlePost env req else mret (cas_handleGet req))
  else if String.eqb path "/cas/serviceValidate" then
    (if wq_post req then mret wrong_method else handleServiceValidate env req)
  else mret not_routed.
End Cas.

(** ** What is proved of the SAML sign-in *)

(** However the library inflates, a decoded request is bounded. *)
Lemma inflate_bounded rounds : forall out text, inflate_loop rounds out = Ok text -> (size text <= kMaxOutputBytes)%Z.
Proof.
  induction rounds as [|[produced|produced|] rounds IH]; intros out text; cbn [inflate_loop]; try done.
  - destruct (_ <? _)%Z; [done|]. apply IH.
  - destruct (Z.ltb_spec kMaxOutputBytes (size out + size produced)%Z) as [|Hle]; [done|]. intros [= <-].
    unfold size in *. rewrite string_length_app. lia.
Qed.

Section SamlTheory.
Context {W : Type} `{!Host W} `{!Adapter W} `{!EntityDb W} `{!Argon2} `{!CredentialTable W} `{!SignOnDb W} `{!SamlLib}.
Context (what : Exn -> string) (registry : gmap string ServiceProvider) (issuer privateKeyPem prefix : string).
Abbreviation route := (saml_route (W := W) what registry issuer privateKeyPem prefix).

Definition requests (w : W) : table := rows w "SamlAuthnRequestState".

(** The row names a provider of the registry and that provider's address. *)
Definition row_registered (m : members) : Prop :=
  exists id sp, registry !! id = Some sp /\ string_member (JObject m) "spEntityId" = Some (sp_entity_id sp) /\
    string_member (JObject m) "acsUrl" = Some (sp_acs_url sp).
Definition requests_ok (w : W) : Prop := map_Forall (fun _ => row_registered) (requests w).

(** The routes answer requests in any order; the rest of the daemon changes
    anything but the table of requests. *)
Inductive saml_step : W -> W -> Prop :=
  | saml_request path env req w : saml_step w (route path env req w).2
  | saml_others w w' : requests w' = requests w -> saml_step w w'.

Lemma verified_spec env username password (w : W) :
  let '(res, w') := verified env username password w in
  rows w' "SamlAuthnRequestState" = rows w "SamlAuthnRequestState" /\ rows w' "CasTicket" = rows w "CasTicket" /\
  (forall ok, res = Ok ok -> ok = true -> creds w' = creds w /\ password_ok (creds w) username password).
Proof.
  unfold verified. pose proof (proj1 (verifyCredential_iff (salt env) username password w)) as Hv.
  assert (forall e, rows (verifyCredential (salt env) username password w).2 e = rows w e) as Hr.
  { intros e. unfold verifyCredential. rewrite run_reject. destruct (_ || _); [done|]. unfold or_invalid.
    pose proof (so_sensitive username w e) as Hs.
    destruct (do_readIncludingSensitive "Credential" username w) as [[row|er|x|] w1]; cbn in *; try done.
    unfold mbind, Op_bind. pose proof (check_hash_keeps password row w1) as Hc.
    by destruct (check_hash password row w1) as [[[]| | |] w2]; cbn in *; subst. }
  assert (forall b, (verifyCredential (salt env) username password w).1 = Ok b -> b = true /\ creds (verifyCredential (salt env) username password w).2 = creds w) as Hc.
  { intros b. unfold verifyCredential. rewrite run_reject. destruct (_ || _); [done|]. unfold or_invalid.
    pose proof (creds_sensitive w username) as Hs.
    destruct (do_readIncludingSensitive "Credential" username w) as [[row|er|x|] w1]; try done. destruct Hs as [Hs _].
    unfold mbind, Op_bind. pose proof (check_hash_keeps password row w1) as Hk.
    destruct (check_hash password row w1) as [[[]| | |] w2]; cbn in *; try done. intros [= <-]. by subst. }
  destruct (verifyCredential (salt env) username password w) as [[b|e|x|] w']; cbn in *; (split; [apply Hr|]; split; [apply Hr|]); try done; [|by intros ? [= <-]].
  intros ok [= <-] ->. split; [by apply (Hc true)|]. by apply Hv.
Qed.

Lemma store_ok now1 now2 (r : PendingSamlRequest) ttl (w : W) :
  requests_ok w -> (exists id sp, registry !! id = Some sp /\ ps_spEntityId r = sp_entity_id sp /\ ps_acsUrl r = sp_acs_url sp) ->
  requests_ok (store ttl now1 now2 r w).2.
Proof.
  intros Hok (id & sp & Hsp & He & Ha). unfold store, object.
  match goal with |- context [createEntity _ (JObject ?d)] => pose proof (db_create w "SamlAuthnRequestState" d) as Hc; set (d0 := d) in * end.
  unfold mbind, Op_bind. destruct (createEntity "SamlAuthnRequestState" (JObject d0) w) as [[row|e|x|] w']; try done.
  - destruct Hc as [(m & _ & i & Hi & Ht & _ & Hm) _]. cbn. unfold requests_ok, requests. rewrite Ht.
    apply map_Forall_insert_2; [|exact Hok]. exists id, sp. rewrite !string_member_get, <- He, <- Ha.
    split; [done|]. split; by apply Hm.
  - cbn. unfold requests_ok, requests. by rewrite Hc.
Qed.

Lemma take_ok now1 now2 id (w : W) : requests_ok w -> requests_ok (take_request now1 now2 id w).2.
Proof.
  intros Hok. pose proof (take_consumes now1 now2 id w) as Hc.
  assert (forall i m w', marked "SamlAuthnRequestState" "requestId" "consumedAt" id i m now2 w w' -> requests_ok w') as Hm.
  { intros i m w' (Hi & _ & (m' & Hp & Ht) & _). unfold requests_ok, requests. rewrite Ht.
    apply map_Forall_insert_2; [|exact Hok]. destruct (Hok i m Hi) as (k & sp & Hsp & He & Ha). exists k, sp.
    apply string_member_get in He, Ha. rewrite !string_member_get, !(Hp _). by cbn. }
  unfold consumes in Hc. destruct (take_request now1 now2 id w) as [[r|e|x|] w']; cbn.
  - destruct Hc as (i & m & Hmk & _). by eapply Hm.
  - destruct Hc as [Hsame|(i & m & Hmk)]; [unfold requests_ok, requests; by rewrite Hsame|by eapply Hm].
  - destruct Hc as [Hsame|(i & m & Hmk)]; [unfold requests_ok, requests; by rewrite Hsame|by eapply Hm].
  - destruct Hc as [Hsame|(i & m & Hmk)]; [unfold requests_ok, requests; by rewrite Hsame|by eapply Hm].
Qed.

Lemma sso_ok env p relay (w : W) : requests_ok w -> requests_ok (handleSsoRequest what registry env p relay w).2.
Proof.
  intros Hok. unfold handleSsoRequest, mbind at 1, Op_bind at 1.
  destruct (decodeRedirectBinding p) as [xml|e|x|]; try exact Hok. cbn [of_result].
  destruct (parseAuthnRequest xml) as [e|parsed]; [exact Hok|].
  destruct (registry !! pq_issuer parsed) as [sp|] eqn:Hsp; [|exact Hok].
  unfold mbind, Op_bind. match goal with |- context [store ?t ?n1 ?n2 ?r w] => pose proof (store_ok n1 n2 r t w Hok) as Hs;
    destruct (store t n1 n2 r w) as [[b|e|x|] w']; apply Hs; by exists (pq_issuer parsed), sp end.
Qed.

(** What a document says: the contents, and the values of an attribute, of all the
    elements of a name, wherever they stand. *)
Fixpoint elements (x : Xml) : list Xml :=
  let '(Elem _ _ _ children) := x in x :: concat (List.map elements children).
Definition named_elements (name : string) (x : Xml) : list Xml :=
  List.filter (fun '(Elem n _ _ _) => String.eqb n name) (elements x).
Definition contents (name : string) (x : Xml) : list (option string) :=
  List.map (fun '(Elem _ _ c _) => c) (named_elements name x).
Definition attribute_values (name attribute : string) (x : Xml) : list (option string) :=
  List.map (fun '(Elem _ l _ _) => snd <$> List.find (fun p => String.eqb p.1 attribute) l) (named_elements name x).

(** The document says that [username] signed on, to the provider [sp] only, in
    answer to the request [request], and holds from [now] for five minutes. *)
Definition asserts (sp : ServiceProvider) (request username : string) (now : Z) (doc : Xml) : Prop :=
  contents "saml:NameID" doc = [Some username] /\
  contents "saml:Audience" doc = [Some (sp_entity_id sp)] /\
  contents "saml:Issuer" doc = [Some issuer; Some issuer] /\
  attribute_values "saml:Conditions" "NotBefore" doc = [Some (iso_time now)] /\
  attribute_values "saml:Conditions" "NotOnOrAfter" doc = [Some (iso_time (now + 300))] /\
  attribute_values "saml:SubjectConfirmationData" "NotOnOrAfter" doc = [Some (iso_time (now + 300))] /\
  attribute_values "saml:SubjectConfirmationData" "Recipient" doc = [Some (sp_acs_url sp)] /\
  attribute_values "saml:SubjectConfirmationData" "InResponseTo" doc = [Some request] /\
  attribute_values "samlp:Response" "Destination" doc = [Some (sp_acs_url sp)].

(** How a submitted form ends: the form again, a refusal, or a page that posts an
    assertion to the address of a registered provider, where the element that is
    signed is the one assertion of the document. *)
Definition posts_assertion env req (w w' : W) (resp : WebResponse) : Prop :=
  exists id sp rowid m doc assertionId xml r, registry !! id = Some sp /\
    marked "SamlAuthnRequestState" "requestId" "consumedAt" (getParameter req "continuation") rowid m (clock env 1) w w' /\
    request_good (clock env 0) (getParameter req "continuation") rowid m r /\
    asserts sp (getParameter req "continuation") (getParameter req "username") (clock env 2) doc /\
    attribute_values "saml:Assertion" "ID" doc = [Some assertionId] /\
    sign_and_dump doc assertionId privateKeyPem = Some xml /\
    resp = html_page 200 (renderAutoSubmitForm (sp_acs_url sp) (base64_encode xml) (ps_relayState r)).

Lemma issue_posts env req (w : W) r w' : requests_ok w ->
  issueResponse issuer privateKeyPem env (getParameter req "continuation") (getParameter req "username") w = (Ok r, w') ->
  posts_assertion env req w w'
    (html_page 200 (renderAutoSubmitForm (is_acsUrl r) (is_samlResponseBase64 r) (is_relayState r))).
Proof.
  intros Hok. unfold issueResponse. intros Hx. apply run_bind_inv in Hx as (p & w1 & Hp & Hx).
  pose proof (take_consumes (clock env 0) (clock env 1) (getParameter req "continuation") w) as Hc. rewrite Hp in Hc.
  destruct Hc as (rowid & m & Hmk & Hgood). destruct (Hok rowid m) as (id & sp & Hsp & He & Ha); [by apply Hmk|].
  destruct (buildSignedSamlResponse _ _ _ _) as [xml|] eqn:Hb; [|done]. injection Hx as <- <-.
  assert (Hgood' := Hgood). destruct Hgood' as (Hid & _ & _ & Hpe & Hpa & _).
  rewrite (value_string_member _ _ _ He) in Hpe. rewrite (value_string_member _ _ _ Ha) in Hpa.
  injection Hpe as Hpe. injection Hpa as Hpa. exists id, sp, rowid, m. eexists _, _, xml, p.
  split; [exact Hsp|]. split; [exact Hmk|]. split; [exact Hgood|].
  split; [|split; [|split; [exact Hb|by rewrite Hpa]]]; [|reflexivity].
  unfold asserts. rewrite Hpe, Hpa, Hid. split_and!; reflexivity.
Qed.

Lemma post_ok env req (w : W) : requests_ok w ->
  let '(res, w') := saml_handlePost issuer privateKeyPem prefix env req w in
  requests_ok w' /\
  forall resp, res = Ok resp ->
    resp = rejected_form prefix req \/ (exists e, resp = plain_error e) \/
    (password_ok (creds w) (getParameter req "username") (getParameter req "password") /\
     exists w1, rows w1 "SamlAuthnRequestState" = rows w "SamlAuthnRequestState" /\ posts_assertion env req w1 w' resp).
Proof.
  intros Hok. unfold saml_handlePost, mbind, Op_bind.
  pose proof (verified_spec env (getParameter req "username") (getParameter req "password") w) as Hv.
  destruct (verified _ _ _ w) as [[ok|e|x|] w1]; destruct Hv as (Hsame & _ & Hpw);
    (assert (requests_ok w1) as Hok1 by (unfold requests_ok, requests; by rewrite Hsame)); [|by split..].
  destruct ok; cbn [negb]; [|split; [done|]; intros resp [= <-]; by left].
  pose proof (take_ok (clock env 0) (clock env 1) (getParameter req "continuation") w1 Hok1) as Ht.
  assert (requests_ok (issueResponse issuer privateKeyPem env (getParameter req "continuation") (getParameter req "username") w1).2) as Hi.
  { unfold issueResponse, mbind, Op_bind. destruct (take_request _ _ _ w1) as [[p|e|x|] w2]; try exact Ht.
    by destruct (buildSignedSamlResponse _ _ _ _). }
  destruct (issueResponse _ _ _ _ _ w1) as [[r|e|x|] w2] eqn:Hr; (split; [exact Hi|]); intros resp [= <-].
  - right. right. split; [by apply (Hpw true)|]. exists w1. split; [done|]. by apply issue_posts.
  - right. left. by eexists.
Qed.

Lemma route_ok path env req (w : W) : requests_ok w -> requests_ok (route path env req w).2.
Proof.
  intros Hok. unfold saml_route. destruct (String.eqb path "/saml/metadata"); [done|].
  destruct (String.eqb path "/saml/sso"); [|destruct (String.eqb path "/saml/login"); [|done]].
  - destruct (wq_post req); [done|]. unfold handleSso. destruct (is_empty _); [done|].
    match goal with |- context [handleSsoRequest what registry env ?p ?r w] => pose proof (sso_ok env p r w Hok) as Hs;
      by destruct (handleSsoRequest what registry env p r w) as [[]] end.
  - destruct (wq_post req); [|done]. pose proof (post_ok env req w Hok) as Hp.
    destruct (saml_handlePost _ _ _ _ _ w). apply Hp.
Qed.

Lemma saml_run_ok w0 w : rtc saml_step w0 w -> requests_ok w0 -> requests_ok w.
Proof.
  induction 1 as [|w0 w1 w2 Hstep _ IH]; [done|]. intros Hok. apply IH. destruct Hstep as [path env req w|w w' Hsame].
  - by apply route_ok.
  - unfold requests_ok. by rewrite Hsame.
Qed.

(** C12. An assertion goes to a registered provider only, about a user who gave the
    password.  Starting without filed requests, after whatever requests to the
    routes and whatever the rest of the daemon did to other tables, a submitted
    SAML sign-in form is answered with the form, a refusal, or a page that posts a
    signed assertion; the last only if the password is that of the user it names,
    to the address the registry has for the provider whose request it answers, once
    per filed request, which is marked.  The document whose assertion is signed names
    that user as its subject, that provider as its only audience, that address as
    its recipient and destination, that request, and five minutes from the clock's
    reading as the time it holds. *)
Theorem assertion_to_registered w0 w env req :
  requests w0 = ∅ -> rtc saml_step w0 w ->
  let '(res, w') := saml_handlePost issuer privateKeyPem prefix env req w in
  forall resp, res = Ok resp ->
    resp = rejected_form prefix req \/ (exists e, resp = plain_error e) \/
    (password_ok (creds w) (getParameter req "username") (getParameter req "password") /\
     exists w1, rows w1 "SamlAuthnRequestState" = rows w "SamlAuthnRequestState" /\ posts_assertion env req w1 w' resp).
Proof.
  intros Hempty Hrun. assert (requests_ok w) as Hok.
  { eapply saml_run_ok; [exact Hrun|]. unfold requests_ok. rewrite Hempty. apply map_Forall_empty. }
  pose proof (post_ok env req w Hok) as Hp. destruct (saml_handlePost _ _ _ _ _ w) as [res w']. apply Hp.
Qed.
End SamlTheory.

(** ** What is proved of the CAS sign-in *)

Section CasTheory.
Context {W : Type} `{!Host W} `{!Adapter W} `{!EntityDb W} `{!Argon2} `{!CredentialTable W} `{!SignOnDb W}.
Context (sha256_hex : string -> string) (prefix : string).

Definition tickets (w : W) : table := rows w "CasTicket".

Lemma tenant_tickets u (w : W) : tickets (getCredentialTenantId u w).2 = tickets w.
Proof.
  unfold getCredentialTenantId, tickets. pose proof (so_read u w "CasTicket") as Hr.
  by destruct (do_read "Credential" u w) as [[row|e|x|] w'].
Qed.

Lemma issue_ticket_spec now1 now2 token u t service (w : W) :
  match issueServiceTicket sha256_hex now1 now2 token u t service w with
  | (Ok ticket, w') => ticket = "ST-" +:+ token /\ exists id m, tickets w !! id = None /\ tickets w' = <[id := m]> (tickets w) /\
      string_member (JObject m) "ticketHash" = Some (sha256_hex ("ST-" +:+ token)) /\
      string_member (JObject m) "userId" = Some u /\ string_member (JObject m) "tenantId" = Some t /\
      string_member (JObject m) "service" = Some service /\ obj_get "expiresAt" m = Some (JInt (now1 + 10))
  | (Err _, w') => tickets w' = tickets w
  | _ => False
  end.
Proof.
  unfold issueServiceTicket, issue_ticket, object.
  match goal with |- context [createEntity _ (JObject ?d)] => pose proof (db_create w "CasTicket" d) as Hc; set (d0 := d) in * end.
  unfold mbind, Op_bind. destruct (createEntity "CasTicket" (JObject d0) w) as [[row|e|x|] w1]; try done; [|apply Hc].
  destruct Hc as [(m & _ & i & Hi & Ht & _ & Hm) _]. cbn. split; [done|]. exists i, m.
  rewrite !string_member_get. split_and!; try done; by apply Hm.
Qed.

(** A ticket is issued for a user who gave the password.  A submitted CAS form
    leaves the table of tickets as it was, unless the password is that of the user
    it names; then one ticket is added, for that user and the tenant of the
    credential and for the service of the form, good for ten seconds, and the
    browser is sent with it to that service. *)
Theorem cas_ticket_for_password env req (w : W) :
  let '(res, w') := cas_handlePost sha256_hex prefix env req w in
  tickets w' = tickets w \/
  (password_ok (creds w) (getParameter req "username") (getParameter req "password") /\
   exists tenant id m, tenant_of (creds w) (getParameter req "username") = Ok tenant /\
     tickets w !! id = None /\ tickets w' = <[id := m]> (tickets w) /\
     string_member (JObject m) "ticketHash" = Some (sha256_hex ("ST-" +:+ draw env 0)) /\
     string_member (JObject m) "userId" = Some (getParameter req "username") /\
     string_member (JObject m) "tenantId" = Some tenant /\
     string_member (JObject m) "service" = Some (getParameter req "service") /\
     obj_get "expiresAt" m = Some (JInt (clock env 0 + 10)) /\
     res = Ok (redirect (with_ticket (getParameter req "service") ("ST-" +:+ draw env 0)))).
Proof.
  unfold cas_handlePost. destruct (is_empty (getParameter req "service")); [by left|]. unfold mbind at 1, Op_bind at 1.
  pose proof (verified_spec env (getParameter req "username") (getParameter req "password") w) as Hv.
  destruct (verified _ _ _ w) as [[ok|e|x|] w1]; destruct Hv as (_ & Hsame & Hpw); [|by left..].
  destruct ok; cbn [negb]; [|by left]. destruct (Hpw true eq_refl eq_refl) as [Hc Hpass]. unfold mbind at 1, Op_bind at 1.
  pose proof (tenant_tickets (getParameter req "username") w1) as Htt.
  pose proof (proj1 (getCredentialTenantId_eq (getParameter req "username") w1)) as Ht. rewrite Hc in Ht.
  destruct (getCredentialTenantId _ w1) as [[tenant|e|x|] w2]; cbn [snd fst] in *; unfold tickets in *; [|left; congruence..].
  unfold mbind, Op_bind, or_none. pose proof (issue_ticket_spec (clock env 0) (clock env 1) (draw env 0)
    (getParameter req "username") tenant (getParameter req "service") w2) as Hi. unfold tickets in Hi. rewrite Htt, Hsame in Hi.
  destruct (issueServiceTicket _ _ _ _ _ _ _ w2) as [[ticket|e|x|] w3]; try done.
  - destruct Hi as (-> & id & m & Hi). right. split; [done|]. exists tenant, id, m. naive_solver.
  - by left.
Qed.

(** A ticket is validated once, within its time, for the service it was issued
    for: an answer of success names the user of its row, which is marked. *)
Lemma cas_validates env req (w : W) resp w' :
  handleServiceValidate sha256_hex env req w = (Ok resp, w') ->
  (exists code desc, wp_body resp = cas_failure code desc) \/
  exists id m r, marked "CasTicket" "ticketHash" "consumedAt" (sha256_hex (getParameter req "ticket")) id m (clock env 1) w w' /\
    ticket_good (clock env 0) (getParameter req "service") id m r /\ wp_body resp = cas_success (vt_userId r).
Proof.
  unfold handleServiceValidate. destruct (_ || _); [intros [= <- _]; left; by eexists _, _|].
  pose proof (validate_consumes sha256_hex (clock env 0) (clock env 1) (getParameter req "ticket") (getParameter req "service") w) as Hc.
  destruct (validateServiceTicket _ _ _ _ _ w) as [[r|e|x|] w1]; try done.
  - intros [= <- <-]. right. destruct Hc as (id & m & Hm & Hg). by exists id, m, r.
  - destruct (refusal e) as [code desc]. intros [= <- _]. left. by eexists _, _.
Qed.
End CasTheory.

(** ** Runs *)

#[local] Existing Instance table_db.
#[local] Existing Instance table_laws.
#[local] Existing Instance plain_argon2.
#[local] Existing Instance login_adapter.
#[local] Existing Instance login_credentials.
#[local] Existing Instance table_sign_on.

Definition plain_request : XmlDoc := mkDoc false (Some (mkRoot (Some kSamlProtocolNs) "AuthnRequest" {["ID" := "_r1"]}
  [mkElement (Some kSamlAssertionNs) "Issuer" "https://sp.example"])).
Definition plain_saml : SamlLib := {|
  raw_inflate data := Some [Z_STREAM_END data];
  xmlReadMemory text := if String.eqb text "request" then Some plain_request else None;
  sign_and_dump doc id key := Some ("signed by " +:+ key);
|}.
#[local] Existing Instance plain_saml.

Definition demo_sps : gmap string ServiceProvider :=
  {["https://sp.example" := mkSp "https://sp.example" "SP" "https://sp.example/acs"]}.
Definition demo_saml := saml_route (W := TableDb) plain_what demo_sps "https://idp" "key" "/api".
Definition sso_request : WebRequest :=
  mkWeb false (list_to_map [("SAMLRequest", base64_encode "request"); ("RelayState", "/home")]) ∅ ∅.
Definition sso_filed : TableDb := (demo_saml "/saml/sso" demo_env sso_request with_ada).2.
Definition saml_submit : WebRequest :=
  mkWeb true (list_to_map [("continuation", "_r1"); ("username", "ada"); ("password", "lovelace1815")]) ∅ ∅.

Example saml_run :
  (demo_saml "/saml/sso" demo_env sso_request with_ada).1 = Ok (redirect "/api/saml/login?continuation=_r1") /\
  (demo_saml "/saml/login" demo_env saml_submit sso_filed).1 =
    Ok (html_page 200 (renderAutoSubmitForm "https://sp.example/acs" (base64_encode "signed by key") (Some "/home"))).
Proof. split; vm_compute; reflexivity. Qed.

(** A CAS sign-in sends the browser, and the ticket, wherever the link says. *)
Example cas_redirects_anywhere :
  (cas_route (W := TableDb) demo_sha "/api" "/cas/login" demo_env
    (mkWeb true (list_to_map [("service", "https://evil.example/?a=b"); ("username", "ada"); ("password", "lovelace1815")]) ∅ ∅)
    with_ada).1 = Ok (redirect "https://evil.example/?a=b&ticket=ST-t0").
Proof. vm_compute. reflexivity. Qed.

Lemma assertion_to_registered_witness :
  exists resp, (saml_handlePost "https://idp" "key" "/api" demo_env saml_submit sso_filed).1 = Ok resp /\
    password_ok (view sso_filed "Credential") "ada" "lovelace1815".
Proof.
  assert (requests with_ada = ∅) as Hempty by (vm_compute; reflexivity).
  assert (rtc (saml_step plain_what demo_sps "https://idp" "key" "/api") with_ada sso_filed) as Hrun
    by exact (rtc_once _ _ (saml_request plain_what demo_sps "https://idp" "key" "/api" "/saml/sso" demo_env sso_request with_ada)).
  pose proof (assertion_to_registered plain_what demo_sps "https://idp" "key" "/api" with_ada sso_filed demo_env saml_submit Hempty Hrun) as Hx.
  assert (exists resp, (saml_handlePost "https://idp" "key" "/api" demo_env saml_submit sso_filed).1 = Ok resp /\ resp = html_page 200
    (renderAutoSubmitForm "https://sp.example/acs" (base64_encode "signed by key") (Some "/home"))) as (resp & Hres & Hresp).
  { eexists. split; [|reflexivity]. vm_compute. reflexivity. }
  destruct (saml_handlePost "https://idp" "key" "/api" demo_env saml_submit sso_filed) as [res w']. cbn [fst] in Hres. subst res.
  exists resp. split; [reflexivity|]. destruct (Hx resp eq_refl) as [Hf|[[e He]|[Hp _]]]; [..|exact Hp]; subst resp; exfalso.
  - apply (f_equal (fun r => String.length (wp_body r))) in Hf. vm_compute in Hf. discriminate Hf.
  - apply (f_equal wp_status) in He. discriminate He.
Defined.
