(* ===== verification/Seeding.v ===== *)
(** * Loading seed data

    Models src/daemon/actions/seed_loader_action.cpp: the documents of a
    directory of JSON files are put into the database at the start of the daemon
    and by POST /admin/seed.  A bootstrap record that is there already is written
    again only when the seed file has changed since it was last applied, which the
    entity SeedFingerprint remembers; what an operator has changed is to be left
    alone.  [SeedTable] is what the theorems assume of the database. *)

From Stdlib Require Import SpecFloat.
From S2P Require Import Prelude CxxString CxxStd Store Json PlainJson EntityHost Adapter.

Open Scope string_scope.

(** ** Data *)

Record SeedResult := mkSeedResult {
  sr_entity : string; sr_inserted : Z; sr_updated : Z; sr_skipped : Z; sr_failed : Z; sr_errors : list string;
}.
Record SeedSummary := mkSeedSummary {
  ss_success : bool; ss_total_inserted : Z; ss_total_updated : Z; ss_total_skipped : Z; ss_total_failed : Z;
  ss_results : list SeedResult; ss_errors : list string;
}.
Definition new_result (entity : string) : SeedResult := mkSeedResult entity 0 0 0 0 [].

Definition inserted_one (r : SeedResult) : SeedResult :=
  mkSeedResult (sr_entity r) (sr_inserted r + 1) (sr_updated r) (sr_skipped r) (sr_failed r) (sr_errors r).
Definition updated_one (r : SeedResult) : SeedResult :=
  mkSeedResult (sr_entity r) (sr_inserted r) (sr_updated r + 1) (sr_skipped r) (sr_failed r) (sr_errors r).
Definition skipped_more (n : Z) (r : SeedResult) : SeedResult :=
  mkSeedResult (sr_entity r) (sr_inserted r) (sr_updated r) (sr_skipped r + n) (sr_failed r) (sr_errors r).
Definition failed_one (error : string) (r : SeedResult) : SeedResult :=
  mkSeedResult (sr_entity r) (sr_inserted r) (sr_updated r) (sr_skipped r) (sr_failed r + 1) (sr_errors r ++ [error])%list.

(** The members of "metadata" that are read. *)
Record SeedMeta := mkSeedMeta {
  sm_skipIfExists : bool; sm_bootstrap : bool; sm_useCurrentTimestamp : bool; sm_timestampField : string;
}.

(** A database call has changed the world while a result is being counted. *)
Record Loading (W : Type) := mkLoading { ld_world : W; ld_result : SeedResult }.
Arguments mkLoading {W} _ _.
Arguments ld_world {W} _.
Arguments ld_result {W} _.

(** The clock of the process, in milliseconds. *)
Class Clock (W : Type) := { nowMs : W -> Z * W }.

(** ** Records *)

(** [v == 0], for a number. *)
Definition is_zero (v : json) : bool := match v with JInt z => (z =? 0)%Z | JFloat (S754_zero _) => true | _ => false end.

Definition stamp (now : Z) (record : json) (field : string) : json :=
  match record with
  | JObject m =>
      match obj_get field m with
      | Some v => if is_zero v then JObject (obj_set field (JInt now) m) else record
      | None => record
      end
  | _ => record
  end.
Definition common_ts_fields : list string :=
  ["createdAt"; "updatedAt"; "publishedAt"; "installedAt"; "timestamp"; "lastSyncAt"].
Definition stamped (now : Z) (timestamp_field : string) (record : json) : json :=
  foldl (stamp now) record (timestamp_field :: common_ts_fields).

Definition doc_entity (doc : json) : Result (option string) :=
  match member doc "entity", member doc "displayName", member doc "name" with
  | Some v, _, _ | None, Some v, _ | None, None, Some v => s ← get_string v; Ok (Some s)
  | None, None, None => Ok None
  end.

Definition doc_meta (doc : json) : Result SeedMeta :=
  match member doc "metadata" with
  | None => Ok (mkSeedMeta false false false "")
  | Some meta =>
      skip_if_exists ← value_bool meta "skipIfExists" false;
      bootstrap ← value_bool meta "bootstrap" false;
      use_current_timestamp ← value_bool meta "useCurrentTimestamp" false;
      timestamp_field ← value_string meta "timestampField" "";
      Ok (mkSeedMeta skip_if_exists bootstrap use_current_timestamp timestamp_field)
  end.

Definition tracking_id (entity_name record_id : string) : string := entity_name +:+ (":" +:+ record_id).

Section Loader.
Context {W : Type} `{!Adapter W} `{!Clock W} `{!JsonLib} (sha256_hex : string -> string) (what : Exn -> string).

(** A call whose result is looked at; [lift] only runs it. *)
Definition call {A} (m : Op W A) : Op (Loading W) (Error + A) := fun s =>
  match m (ld_world s) with
  | (Ok a, w') => (Ok (inr a), mkLoading w' (ld_result s))
  | (Err e, w') => (Ok (inl e), mkLoading w' (ld_result s))
  | (r, w') => (recast r, mkLoading w' (ld_result s))
  end.
Definition clock : Op (Loading W) Z := fun s =>
  let '(t, w') := nowMs (ld_world s) in (Ok t, mkLoading w' (ld_result s)).
Definition count (f : SeedResult -> SeedResult) : Op (Loading W) unit :=
  modify (fun s => mkLoading (ld_world s) (f (ld_result s))).

Definition fingerprintOf (record : json) : Result string := text ← dump record; Ok (sha256_hex text).

Definition bootstrapNeedsReconcile (entity_name record_id current_fingerprint : string) : Op (Loading W) bool :=
  existing ← call (do_read "SeedFingerprint" (tracking_id entity_name record_id));
  match existing with
  | inl _ => mret true
  | inr row =>
      fingerprint ← of_result (value_string row "fingerprint" "");
      mret (negb (String.eqb fingerprint current_fingerprint))
  end.

Definition recordBootstrapFingerprint (entity_name record_id fingerprint : string) : Op (Loading W) unit :=
  appliedAt ← clock;
  create_result ← call (do_create "SeedFingerprint" (object [
    ("id", JString (tracking_id entity_name record_id)); ("entity", JString entity_name);
    ("recordId", JString record_id); ("fingerprint", JString fingerprint); ("appliedAt", JInt appliedAt)]));
  match create_result with
  | inr _ => mret tt
  | inl e =>
      if negb (bool_decide (code e = Conflict)) then mret tt
      else
        again ← clock;
        _ ← call (do_update "SeedFingerprint" (tracking_id entity_name record_id)
                    (object [("fingerprint", JString fingerprint); ("appliedAt", JInt again)]));
        mret tt
  end.

(** [applyCurrentTimestamps], which returns at once without a field. *)
Definition current_record (meta : SeedMeta) (record : json) : Op (Loading W) json :=
  if sm_useCurrentTimestamp meta && negb (is_empty (sm_timestampField meta)) then
    now_ms ← clock; mret (stamped now_ms (sm_timestampField meta) record)
  else mret record.

(** The text of the identifier in a message; printing it may throw. *)
Definition id_text (record : json) : Result string :=
  match member record "id" with Some v => dump v | None => Ok "unknown" end.

(** The update of a record that is there and whose seed content has changed. *)
Definition reconcile (entity_name record_id id_str fingerprint : string) (record : json) : Op (Loading W) unit :=
  update_result ← call (do_update entity_name record_id record);
  match update_result with
  | inr _ => count updated_one;; recordBootstrapFingerprint entity_name record_id fingerprint
  | inl e => count (failed_one ("Failed to reconcile bootstrap " +:+ (entity_name +:+ (" id=" +:+ (id_str +:+ (": " +:+ message e))))))
  end.

(** A record whose creation was refused as a conflict. *)
Definition record_exists (entity_name : string) (bootstrap : bool) (record : json) : Op (Loading W) unit :=
  id_str ← of_result (id_text record);
  match (if bootstrap then string_member record "id" else None) with
  | None => count (skipped_more 1)
  | Some record_id =>
      current_fingerprint ← of_result (fingerprintOf record);
      needs ← bootstrapNeedsReconcile entity_name record_id current_fingerprint;
      if needs : bool then reconcile entity_name record_id id_str current_fingerprint record else count (skipped_more 1)
  end.

(** A record that was created. *)
Definition record_created (entity_name : string) (bootstrap : bool) (record : json) : Op (Loading W) unit :=
  count inserted_one;;
  match (if bootstrap then string_member record "id" else None) with
  | None => mret tt
  | Some record_id =>
      fingerprint ← of_result (fingerprintOf record);
      recordBootstrapFingerprint entity_name record_id fingerprint
  end.

Definition load_record_body (entity_name : string) (meta : SeedMeta) (record_node : json) : Op (Loading W) unit :=
  record ← current_record meta record_node;
  create_result ← call (do_create entity_name record);
  match create_result with
  | inr _ => record_created entity_name (sm_bootstrap meta) record
  | inl e =>
      if bool_decide (code e = Conflict) then record_exists entity_name (sm_bootstrap meta) record
      else
        id_str ← of_result (id_text record);
        count (failed_one ("Failed to create " +:+ (entity_name +:+ (" id=" +:+ (id_str +:+ (": " +:+ message e))))))
  end.

(** [try { ... } catch (const std::exception& e)] around one record. *)
Definition load_record (entity_name : string) (meta : SeedMeta) (record_node : json) : Op (Loading W) unit := fun s =>
  match load_record_body entity_name meta record_node s with
  | (Throw x, s') => count (failed_one ("Exception processing record: " +:+ what x)) s'
  | r => r
  end.

(** ** Documents *)

(** [static_cast<int>(doc["records"].size())] *)
Definition records_size (doc : json) : Z :=
  match member doc "records" with Some v => wrap_int (Z.of_nat (length (iterate v))) | None => 0 end.

Definition any_there (entity_name : string) : Op W bool := fun w =>
  match do_list entity_name {| opt_filter := ∅; opt_sort := ∅; opt_page := 1; opt_limit := 1 |} w with
  | (Ok existing, w') => (Ok (match lr_items existing with [] => false | _ => true end), w')
  | (Err _, w') => (Ok false, w')
  | (r, w') => (recast r, w')
  end.

(** The records of a document, counted from nothing. *)
Definition counting (entity_name : string) (m : Op (Loading W) unit) : Op W SeedResult := fun w =>
  match m (mkLoading w (new_result entity_name)) with
  | (Ok _, s) => (Ok (ld_result s), ld_world s)
  | (r, s) => (recast r, ld_world s)
  end.

(** One turn of the loop over the documents: what is pushed on the results. *)
Definition load_document (force : bool) (doc : json) : Op W (option SeedResult) :=
  if negb (is_object doc) then mret None
  else
    name ← of_result (doc_entity doc);
    match name with
    | None => mret None
    | Some entity_name =>
        meta ← of_result (doc_meta doc);
        skip ← (if sm_skipIfExists meta && negb force && negb (sm_bootstrap meta) then any_there entity_name else mret false);
        if skip : bool then mret (Some (skipped_more (records_size doc) (new_result entity_name)))
        else
          match member doc "records" with
          | Some (JArray records) => r ← counting entity_name (forM records (load_record entity_name meta)); mret (Some r)
          | _ => mret (Some (new_result entity_name))
          end
    end.

(** The loop, with the results pushed before it was left. *)
Fixpoint load_documents (force : bool) (docs : list json) (results : list SeedResult) (w : W) :
    Result unit * list SeedResult * W :=
  match docs with
  | [] => (Ok tt, results, w)
  | doc :: docs =>
      match load_document force doc w with
      | (Ok o, w') => load_documents force docs (results ++ option_list o)%list w'
      | (r, w') => (recast r, results, w')
      end
  end.

(** ** Files *)

(** What a path leads to: [fs_directory] lists the names of a directory in the
    order of the operating system, telling the regular files. *)
Record FileSystem := mkFiles {
  fs_exists : string -> bool; fs_is_directory : string -> bool;
  fs_directory : string -> option (list (string * bool)); fs_read : string -> option string;
}.
Context (files : FileSystem).
(** The message of the JSON parser for a text it refuses. *)
Context (parse_what : string -> string).

(** [fs::path(p).filename().string()] *)
Fixpoint last_part (p seen : string) : string :=
  match p with
  | "" => seen
  | String c p => if Ascii.eqb c "/" then last_part p "" else last_part p (seen +:+ String c "")
  end.
Definition filename (p : string) : string := last_part p "".

(** [path.extension() == ".json"]: the name has something before its last dot. *)
Definition has_json_extension (name : string) : bool :=
  let n := (String.length name - 5)%nat in (0 <? n)%nat && String.eqb (string_drop n name) ".json".

(** [fs::path(dir) / name] *)
Definition join (dir name : string) : string :=
  if is_empty dir then name
  else if String.eqb (string_drop (String.length dir - 1) dir) "/" then dir +:+ name else dir +:+ ("/" +:+ name).

Definition file_error (file_path error : string) : SeedResult := failed_one error (new_result (filename file_path)).

(** Both one document and an array of documents are read. *)
Definition documents_of (root : json) : list json := match root with JArray l => l | JObject _ => [root] | _ => [] end.

Definition loadSeedFile (file_path : string) (force : bool) : Op W (list SeedResult) := fun w =>
  match fs_read files file_path with
  | None => (Ok [file_error file_path ("Error: " +:+ what (runtime_error ("Cannot open file: " +:+ file_path)))], w)
  | Some text =>
      match parse text with
      | None => (Ok [file_error file_path ("JSON parse error: " +:+ parse_what text)], w)
      | Some root =>
          match load_documents force (documents_of root) [] w with
          | (Ok _, results, w') => (Ok results, w')
          | (Throw x, results, w') => (Ok (results ++ [file_error file_path ("Error: " +:+ what x)])%list, w')
          | (r, _, w') => (recast r, w')
          end
      end
  end.

(** ** Directories *)

Definition getSeedLoadOrder : list string :=
  ["users.json"; "credentials.json"; "test_logins.json"; "workspaces.json"; "installed_packages.json";
   "projects.json"; "workflows.json"; "products.json"; "games.json"; "artists.json"; "videos.json"; "forum.json";
   "notifications.json"; "audit_logs.json"].

(** [env] is DBAL_SEED_DIR. *)
Definition getDefaultSeedDir (env : option string) : string :=
  match env with
  | Some dir => dir
  | None =>
      default "dbal/shared/seeds/database"
        (List.find (fun path => fs_exists files path && fs_is_directory files path)
           ["dbal/shared/seeds/database"; "../shared/seeds/database"; "/app/dbal/shared/seeds/database"; "/app/seeds/database"])
  end.

(** [success] is decided again when everything is loaded. *)
Definition add_result (s : SeedSummary) (r : SeedResult) : SeedSummary :=
  mkSeedSummary (ss_success s && match sr_errors r with [] => true | _ => false end)
    (ss_total_inserted s + sr_inserted r) (ss_total_updated s + sr_updated r) (ss_total_skipped s + sr_skipped r)
    (ss_total_failed s + sr_failed r) (ss_results s ++ [r])%list (ss_errors s ++ sr_errors r)%list.
Definition empty_summary : SeedSummary := mkSeedSummary true 0 0 0 0 [] [].

(** The files of the load order that exist, then the other JSON files there are. *)
Definition ordered_files (seed_dir : string) : list string :=
  List.filter (fun name => fs_exists files (join seed_dir name)) getSeedLoadOrder.
Fixpoint remaining_files (entries : list (string * bool)) (loaded_files : list string) : list string :=
  match entries with
  | [] => []
  | (name, is_regular_file) :: entries =>
      if negb is_regular_file || negb (has_json_extension name) || bool_decide (name ∈ loaded_files)
         || String.eqb name "package_permissions.json" || String.eqb name "smtp_credentials.json"
      then remaining_files entries loaded_files
      else name :: remaining_files entries (name :: loaded_files)
  end.

Fixpoint load_files (seed_dir : string) (force : bool) (names : list string) (s : SeedSummary) : Op W SeedSummary :=
  match names with
  | [] => mret s
  | name :: names =>
      results ← loadSeedFile (join seed_dir name) force;
      load_files seed_dir force names (foldl add_result s results)
  end.

Definition loadSeeds (seed_dir : string) (force : bool) : Op W SeedSummary :=
  if negb (fs_exists files seed_dir) then
    mret (mkSeedSummary false 0 0 0 0 [] ["Seed directory not found: " +:+ seed_dir])
  else
    s ← load_files seed_dir force (ordered_files seed_dir) empty_summary;
    match fs_directory files seed_dir with
    | None => throw (runtime_error ("directory iterator cannot open directory: " +:+ seed_dir))
    | Some entries =>
        s ← load_files seed_dir force (remaining_files entries (ordered_files seed_dir)) s;
        mret (mkSeedSummary (ss_total_failed s =? 0)%Z (ss_total_inserted s) (ss_total_updated s) (ss_total_skipped s)
                (ss_total_failed s) (ss_results s) (ss_errors s))
    end.
End Loader.

(** ** What the database promises *)

(** The rows of every entity by identifier.  A creation adds one row, under the
    identifier of its data where there is one, and is refused as a conflict only
    where that row is there; an update changes the members it names; calls that do not
    succeed change nothing. *)
Definition same_tables {W} (tables : W -> string -> table) (w w' : W) : Prop := forall e, tables w' e = tables w e.
Definition row_written {W} (tables : W -> string -> table) (w w' : W) (e id : string) (m : members) : Prop :=
  tables w' e = <[id := m]> (tables w e) /\ forall e', e' <> e -> tables w' e' = tables w e'.

Class SeedTable (W : Type) `{Adapter W} `{Clock W} := {
  seeded : W -> string -> table;
  seed_clock : forall w, same_tables seeded w (nowMs w).2;
  seed_list : forall w e o, same_tables seeded w (do_list e o w).2;
  seed_read : forall w e id,
    match do_read e id w with
    | (Ok v, w') => same_tables seeded w w' /\ exists m mv, seeded w e !! id = Some m /\
        v = JObject mv /\ obj_get "fingerprint" mv = obj_get "fingerprint" m
    | (Err _, w') => same_tables seeded w w'
    | _ => False
    end;
  seed_create : forall w e data,
    match do_create e data w with
    | (Ok _, w') => exists id m, seeded w e !! id = None /\ row_written seeded w w' e id m /\
        (forall i, string_member data "id" = Some i -> id = i) /\
        forall k v, k <> "id" -> member data k = Some v -> obj_get k m = Some v
    | (Err er, w') => same_tables seeded w w' /\
        forall i, string_member data "id" = Some i -> code er = Conflict -> is_Some (seeded w e !! i)
    | _ => False
    end;
  seed_update : forall w e id patch,
    match do_update e id patch w with
    | (Ok _, w') => exists m m', seeded w e !! id = Some m /\ row_written seeded w w' e id m' /\
        forall k, k <> "id" -> obj_get k m' = match member patch k with Some v => Some v | None => obj_get k m end
    | (Err _, w') => same_tables seeded w w'
    | _ => False
    end;
}.

Section Properties.
Context {W : Type} `{!Adapter W} `{!Clock W} `{!SeedTable W} `{!JsonLib}.
Context (sha256_hex : string -> string) (what : Exn -> string).

(** The loader takes every failed read of a fingerprint for a missing one; the theorems
    are about databases where it is ([failed_read_overwrites] is about others). *)
Context (fingerprints_read : forall w id er w',
  do_read "SeedFingerprint" id w = (Err er, w') -> seeded w "SeedFingerprint" !! id = None).

(** ** What is left alone *)

(** The fingerprint that was applied last under a tracking identifier, if any. *)
Definition tracked (w : W) (key : string) (fp : option string) : Prop :=
  match fp with
  | None => True
  | Some fp => exists m, seeded w "SeedFingerprint" !! key = Some m /\ value_string (JObject m) "fingerprint" "" = Ok fp
  end.

(** The question whether there is something to do is answered by the fingerprint
    that is remembered. *)
Lemma needs_reconcile_spec entity id fp s :
  let '(r, s') := bootstrapNeedsReconcile entity id fp s in
  ld_result s' = ld_result s /\ same_tables seeded (ld_world s) (ld_world s') /\
  match r with
  | Ok b => b = false <-> tracked (ld_world s) (tracking_id entity id) (Some fp)
  | Throw _ => ~ tracked (ld_world s) (tracking_id entity id) (Some fp)
  | _ => False
  end.
Proof.
  destruct s as [w r]. unfold bootstrapNeedsReconcile, mbind, Op_bind, call. cbn [ld_world ld_result].
  pose proof (seed_read w "SeedFingerprint" (tracking_id entity id)) as Hread.
  pose proof (fingerprints_read w (tracking_id entity id)) as Hnone.
  destruct (do_read "SeedFingerprint" (tracking_id entity id) w) as [[v|er|x|] w']; try done.
  - destruct Hread as (Hs & m & mv & Hm & -> & Hf). unfold of_result, tracked.
    assert (value_string (JObject mv) "fingerprint" "" = value_string (JObject m) "fingerprint" "") as ->
      by (unfold value_string; by rewrite Hf).
    destruct (value_string (JObject m) "fingerprint" "") as [f|er|x|] eqn:Hv.
    + split_and!; [done..|]. cbn [mret Op_ret]. split.
      * intros Hb. destruct (String.eqb_spec f fp) as [->|]; [|done]. by exists m.
      * intros (m1 & Hm1 & Heq). rewrite Hm1 in Hm. injection Hm as ->. rewrite Hv in Heq. injection Heq as ->. by rewrite String.eqb_refl.
    + exfalso. unfold value_string in Hv. by repeat case_match.
    + split_and!; [done..|]. intros (m1 & Hm1 & Heq). rewrite Hm1 in Hm. injection Hm as ->. by rewrite Hv in Heq.
    + exfalso. unfold value_string in Hv. by repeat case_match.
  - specialize (Hnone er w' eq_refl). split_and!; [done..|]. cbn [mret Op_ret]. split; [done|].
    intros (m1 & Hm1 & _). by rewrite Hm1 in Hnone.
Qed.

(** The record a node becomes when the clock shows [t]. *)
Definition record_at (meta : SeedMeta) (t : Z) (node : json) : json :=
  if sm_useCurrentTimestamp meta && negb (is_empty (sm_timestampField meta))
  then stamped t (sm_timestampField meta) node else node.

(** Nothing is new for [key] in the node of a document: a bootstrap record with
    this tracking identifier has the fingerprint [fp]. *)
Definition settled_record (key : string) (fp : option string) (entity : string) (meta : SeedMeta) (node : json) : Prop :=
  sm_bootstrap meta = true -> entity <> "SeedFingerprint" /\
  forall t id fp', string_member (record_at meta t node) "id" = Some id -> tracking_id entity id = key ->
    fingerprintOf sha256_hex (record_at meta t node) = Ok fp' -> fp = Some fp'.
Definition settled (key : string) (fp : option string) (doc : json) : Prop :=
  forall entity meta nodes, doc_entity doc = Ok (Some entity) -> doc_meta doc = Ok meta ->
    member doc "records" = Some (JArray nodes) -> Forall (settled_record key fp entity meta) nodes.

Section Kept.
Context (e0 id0 : string) (m0 : members) (fp : option string).
Let key := tracking_id e0 id0.
Hypothesis Hentity : e0 <> "SeedFingerprint".

Definition kept (w : W) : Prop := seeded w e0 !! id0 = Some m0 /\ tracked w key fp.
Definition kept_in (s : Loading W) : Prop := kept (ld_world s).

Lemma kept_same w w' : same_tables seeded w w' -> kept w -> kept w'.
Proof. intros Hs [Hr Ht]. split; [by rewrite Hs|]. unfold tracked in *. destruct fp; [|done]. destruct Ht as (mf & Hm & Hf). exists mf. by rewrite Hs. Qed.

Lemma kept_written w w' e id m :
  row_written seeded w w' e id m -> (e, id) <> (e0, id0) ->
  (e = "SeedFingerprint" -> id = key -> forall f, fp = Some f -> obj_get "fingerprint" m = Some (JString f)) ->
  kept w -> kept w'.
Proof.
  intros [Hw Ho] Hne Hf [Hr Ht]. split.
  - destruct (decide (e0 = e)) as [<-|]; [|by rewrite Ho]. rewrite Hw, lookup_insert_ne; [done|]. by intros ->.
  - unfold tracked in *. destruct fp as [f|] eqn:Hfp; [|done]. destruct Ht as (mf & Hmf & Hf').
    destruct (decide ("SeedFingerprint" = e)) as [<-|]; [|rewrite Ho by done; eauto].
    rewrite Hw. destruct (decide (id = key)) as [->|].
    + rewrite lookup_insert_eq. exists m. split; [done|]. unfold value_string. by rewrite (Hf eq_refl eq_refl f eq_refl).
    + rewrite lookup_insert_ne by done. eauto.
Qed.

Lemma kept_create e d : preserves kept_in (call (do_create e d)).
Proof.
  intros [w r] Hk. unfold kept_in, call in *. cbn [ld_world ld_result] in *. pose proof (seed_create w e d) as Hc.
  destruct (do_create e d w) as [[v|er|x|] w']; cbn [snd ld_world]; [|by eapply kept_same, Hk; apply Hc|done..].
  destruct Hc as (id & m & Hnew & Hw & _). destruct Hk as [Hr Ht]. apply (kept_written w w' e id m); [done|..|by split].
  - intros [= -> ->]. by rewrite Hr in Hnew.
  - intros -> -> f ->. destruct Ht as (mf & Hmf & _). by rewrite Hmf in Hnew.
Qed.

Lemma kept_count f : preserves kept_in (count f).
Proof. by intros [w r]. Qed.

Lemma kept_clock : preserves kept_in clock.
Proof.
  intros [w r] Hk. unfold kept_in, clock in *. cbn [ld_world ld_result] in *. pose proof (seed_clock w) as Hc.
  destruct (nowMs w) as [t w']. by eapply kept_same.
Qed.

Lemma kept_update e id d :
  (e, id) <> (e0, id0) -> (e = "SeedFingerprint" -> id = key -> forall f, fp = Some f -> member d "fingerprint" = Some (JString f)) ->
  preserves kept_in (call (do_update e id d)).
Proof.
  intros Hne Hf [w r] Hk. unfold kept_in, call in *. cbn [ld_world ld_result] in *. pose proof (seed_update w e id d) as Hu.
  destruct (do_update e id d w) as [[v|er|x|] w']; cbn [snd ld_world]; [|by eapply kept_same, Hk|done..].
  destruct Hu as (m & m' & _ & Hw & Hm'). apply (kept_written w w' e id m'); [done..| |done].
  intros He Hid f Hfp. specialize (Hf He Hid f Hfp). rewrite (Hm' "fingerprint") by done. by rewrite Hf.
Qed.

Lemma kept_record entity id fp' : (tracking_id entity id = key -> fp = Some fp') ->
  preserves kept_in (recordBootstrapFingerprint entity id fp').
Proof.
  intros Hkey. unfold recordBootstrapFingerprint. apply preserves_bind; [apply kept_clock|intros t].
  apply preserves_bind; [apply kept_create|intros [e|v]]; [|by apply pure_preserves].
  destruct (negb _); [by apply pure_preserves|]. apply preserves_bind; [apply kept_clock|intros t'].
  apply preserves_bind; [|intros ?; by apply pure_preserves]. apply kept_update; [congruence|].
  intros _ Hid f Hf. rewrite (Hkey Hid) in Hf. by injection Hf as <-.
Qed.

Lemma kept_exists entity b record : 
  (b = true -> entity <> "SeedFingerprint" /\ forall id fp', string_member record "id" = Some id ->
     tracking_id entity id = key -> fingerprintOf sha256_hex record = Ok fp' -> fp = Some fp') ->
  preserves kept_in (record_exists sha256_hex entity b record).
Proof.
  intros Hset. unfold record_exists. apply preserves_bind; [apply pure_preserves, pure_of_result|intros id_str].
  destruct b; [|apply kept_count]. destruct (Hset eq_refl) as [He Hfp].
  destruct (string_member record "id") as [id|] eqn:Hid; [|apply kept_count].
  unfold of_result, preserves. intros s Hs. unfold mbind at 1, Op_bind at 1.
  destruct (fingerprintOf sha256_hex record) as [fp'|er|x|] eqn:Hf; try exact Hs.
  specialize (Hfp id fp' eq_refl). unfold mbind at 1, Op_bind at 1. pose proof (needs_reconcile_spec entity id fp' s) as Hn.
  destruct (bootstrapNeedsReconcile entity id fp' s) as [r s1]. destruct Hn as (_ & Hsame & Hn).
  pose proof (kept_same _ _ Hsame Hs : kept_in s1) as Hs1. destruct r as [needs|er|x|]; try exact Hs1.
  destruct needs; [|by apply kept_count].
  assert (tracking_id entity id <> key) as Hne.
  { intros Hkey. destruct Hs as [_ Ht]. rewrite (Hfp Hkey eq_refl), <- Hkey in Ht. by apply Hn in Ht. }
  revert s1 Hs1 Hsame. intros s1 Hs1 _. revert s1 Hs1. unfold reconcile. apply (preserves_bind kept_in).
  - apply kept_update; [|done]. by intros [= -> ->].
  - intros [e|v]; [apply kept_count|]. apply preserves_bind; [apply kept_count|intros _]. by apply kept_record.
Qed.

Lemma kept_load_record entity meta node :
  settled_record key fp entity meta node -> preserves kept_in (load_record sha256_hex what entity meta node).
Proof.
  intros Hset. assert (preserves kept_in (load_record_body sha256_hex entity meta node)) as Hbody.
  - unfold load_record_body. intros s Hs. unfold mbind at 1, Op_bind at 1.
    assert (exists t, (current_record meta node s).1 = Ok (record_at meta t node)) as [t Ht].
    { unfold current_record, record_at, mbind, Op_bind, clock. destruct (_ && _); [|by exists 0%Z].
      destruct (nowMs (ld_world s)) as [t w']. by exists t. }
    assert (kept_in (current_record meta node s).2) as Hs1.
    { revert s Hs Ht. intros s Hs _. unfold current_record. destruct (_ && _); [|done].
      revert s Hs. apply (preserves_bind kept_in); [apply kept_clock|intros ?; by apply pure_preserves]. }
    destruct (current_record meta node s) as [r s1]. cbn [fst snd] in *. subst r. revert s1 Hs1.
    apply (preserves_bind kept_in); [apply kept_create|]. intros [er|v].
    + case_bool_decide.
      * apply kept_exists. intros Hb. destruct (Hset Hb) as [He Hfp]. split; [done|]. intros id fp'. apply Hfp.
      * apply preserves_bind; [apply pure_preserves, pure_of_result|intros ?; apply kept_count].
    + unfold record_created. apply preserves_bind; [apply kept_count|intros _].
      destruct (sm_bootstrap meta) eqn:Hb; [|by apply pure_preserves]. destruct (Hset Hb) as [He Hfp].
      destruct (string_member _ "id") as [id|] eqn:Hid; [|by apply pure_preserves].
      intros s2 Hs2. unfold mbind, Op_bind, of_result. destruct (fingerprintOf _ _) as [fp'| | |] eqn:Hf; try exact Hs2.
      revert s2 Hs2. apply kept_record. intros Hkey. by apply (Hfp t id).
  - intros s Hs. unfold load_record. specialize (Hbody s Hs).
    destruct (load_record_body _ _ _ _ s) as [[]]; [done|done| |done]. by apply kept_count.
Qed.

Lemma kept_document force doc : settled key fp doc -> preserves kept (load_document sha256_hex what force doc).
Proof.
  intros Hset. unfold load_document. destruct (negb (is_object doc)); [by apply pure_preserves|].
  destruct (doc_entity doc) as [[entity|]|er|x|] eqn:Hen; try (intros w Hw; exact Hw). 
  destruct (doc_meta doc) as [meta|er|x|] eqn:Hme; try (intros w Hw; exact Hw).
  change (preserves kept (skip ← (if sm_skipIfExists meta && negb force && negb (sm_bootstrap meta) then any_there entity else mret false);
    if skip : bool then mret (Some (skipped_more (records_size doc) (new_result entity)))
    else match member doc "records" with
         | Some (JArray records) => r ← counting entity (forM records (load_record sha256_hex what entity meta)); mret (Some r)
         | _ => mret (Some (new_result entity))
         end)).
  apply preserves_bind.
  - destruct (_ && _); [|by apply pure_preserves]. intros w Hw. unfold any_there.
    pose proof (seed_list w entity {| opt_filter := ∅; opt_sort := ∅; opt_page := 1; opt_limit := 1 |}) as Hl.
    destruct (do_list _ _ w) as [[]]; by eapply kept_same.
  - intros [|]; [by apply pure_preserves|]. destruct (member doc "records") as [[| | | | |nodes|]|] eqn:Hre; try by apply pure_preserves.
    apply preserves_bind; [|intros ?; by apply pure_preserves]. specialize (Hset _ _ _ Hen Hme Hre).
    intros w Hw. unfold counting.
    assert (preserves kept_in (forM nodes (load_record sha256_hex what entity meta))) as Hloop.
    { clear Hre. induction Hset as [|node nodes Hn _ IH]; [by apply pure_preserves|]. cbn [forM].
      apply preserves_bind; [by apply kept_load_record|by intros _]. }
    specialize (Hloop (mkLoading w (new_result entity)) Hw). destruct (forM _ _ _) as [[] s]; exact Hloop.
Qed.

Lemma kept_documents force docs : Forall (settled key fp) docs -> forall results w, kept w ->
  kept (load_documents sha256_hex what force docs results w).2.
Proof.
  induction 1 as [|doc docs Hd _ IH]; intros results w Hw; [done|]. cbn [load_documents].
  pose proof (kept_document force doc Hd w Hw) as Hk. destruct (load_document _ _ _ doc w) as [[o|er|x|] w']; try exact Hk.
  by apply IH.
Qed.

Context (files : FileSystem) (parse_what : string -> string).
(** The documents of every file there is. *)
Definition all_documents (P : json -> Prop) : Prop := forall path text root,
  fs_read files path = Some text -> parse text = Some root -> Forall P (documents_of root).

Lemma kept_files force dir names : all_documents (settled key fp) -> forall s,
  preserves kept (load_files sha256_hex what files parse_what dir force names s).
Proof.
  intros Hset. induction names as [|name names IH]; intros s; [by apply pure_preserves|]. cbn [load_files].
  apply preserves_bind; [|intros ?; apply IH]. intros w Hw. unfold loadSeedFile.
  destruct (fs_read _ _) as [text|] eqn:Ht; [|done]. destruct (parse text) as [root|] eqn:Hr; [|done].
  pose proof (kept_documents force _ (Hset _ _ _ Ht Hr) [] w Hw) as Hk.
  destruct (load_documents _ _ _ _ _ _) as [[[] results] w']; exact Hk.
Qed.
End Kept.

(** Loading keeps a row and its fingerprint, forced or not. *)
Lemma loading_keeps files parse_what dir force e id m fp w :
  e <> "SeedFingerprint" ->
  all_documents files (settled (tracking_id e id) fp) ->
  seeded w e !! id = Some m -> tracked w (tracking_id e id) fp ->
  seeded (loadSeeds sha256_hex what files parse_what dir force w).2 e !! id = Some m /\
  tracked (loadSeeds sha256_hex what files parse_what dir force w).2 (tracking_id e id) fp.
Proof.
  intros He Hset Hm Ht. assert (kept e id m fp w) as Hk by done.
  pose proof (fun names s => kept_files e id m fp He files parse_what force dir names Hset s) as Hf.
  clear Hm Ht. revert w Hk. change (preserves (kept e id m fp) (loadSeeds sha256_hex what files parse_what dir force)).
  unfold loadSeeds. destruct (negb _); [by apply pure_preserves|]. apply preserves_bind; [apply Hf|intros s].
  destruct (fs_directory files dir); [|by apply pure_preserves].
  apply preserves_bind; [apply Hf|intros ?; by apply pure_preserves].
Qed.

(** C15. An ordinary start, where loading is not forced, leaves alone what has been
    changed since.  Whatever the files of the directory hold, the row of an entity is
    after loadSeeds what it was before, byte for byte, when every bootstrap record of
    the files with its identifier has the fingerprint that was recorded when it was
    last applied; in particular a row that no bootstrap record names is not written
    to.  This is for a database where reading a fingerprint fails only where none is
    recorded (the named hypothesis [fingerprints_read]: the code takes any failed read
    for a missing fingerprint and then overwrites the row), where a creation is
    refused where the row is there, and calls that fail change nothing. *)
Theorem seeds_leave_rows files parse_what dir e id m fp w :
  e <> "SeedFingerprint" ->
  all_documents files (settled (tracking_id e id) fp) ->
  seeded w e !! id = Some m -> tracked w (tracking_id e id) fp ->
  seeded (loadSeeds sha256_hex what files parse_what dir false w).2 e !! id = Some m /\
  tracked (loadSeeds sha256_hex what files parse_what dir false w).2 (tracking_id e id) fp.
Proof. apply loading_keeps. Qed.

(** ** What is applied *)

Lemma string_member_stamp now record field k v :
  string_member record k = Some v -> string_member (stamp now record field) k = Some v.
Proof.
  unfold string_member, stamp. destruct record as [| | | | | |m]; try done. cbn [member].
  destruct (obj_get field m) as [x|] eqn:Hx; [|done]. destruct (is_zero x) eqn:Hz; [|done]. cbn [member].
  rewrite obj_get_set. destruct (String.eqb_spec k field) as [->|]; [|done]. rewrite Hx. by destruct x.
Qed.

Lemma string_member_at meta t node k v :
  string_member node k = Some v -> string_member (record_at meta t node) k = Some v.
Proof.
  unfold record_at. destruct (_ && _); [|done]. unfold stamped. generalize (sm_timestampField meta :: common_ts_fields).
  intros l. revert node. induction l as [|f l IH]; intros node Hv; [done|]. by apply IH, string_member_stamp.
Qed.

(** Only the entity SeedFingerprint is touched, and the count is as it was. *)
Definition remembering (s s' : Loading W) : Prop :=
  ld_result s' = ld_result s /\ forall e, e <> "SeedFingerprint" -> seeded (ld_world s') e = seeded (ld_world s) e.
#[local] Instance remembering_preorder : PreOrder remembering.
Proof.
  split; [by intros s|]. intros s1 s2 s3 [H1 H2] [H3 H4]. split; [congruence|]. intros e He. by rewrite H4, H2.
Qed.

Lemma create_remembering d : frame remembering (call (do_create "SeedFingerprint" d)).
Proof.
  intros [w r]. unfold call. cbn [ld_world ld_result]. pose proof (seed_create w "SeedFingerprint" d) as Hc.
  destruct (do_create _ d w) as [[v|er|x|] w']; try done; (split; [done|]); intros e He; cbn [ld_world snd].
  - destruct Hc as (id & m & _ & [_ Ho] & _). by apply Ho.
  - by destruct Hc as [Hs _].
Qed.
Lemma update_remembering id d : frame remembering (call (do_update "SeedFingerprint" id d)).
Proof.
  intros [w r]. unfold call. cbn [ld_world ld_result]. pose proof (seed_update w "SeedFingerprint" id d) as Hu.
  destruct (do_update _ id d w) as [[v|er|x|] w']; try done.
  split; [done|]. intros e He. cbn [ld_world snd]. destruct Hu as (m & m' & _ & [_ Ho] & _). by apply Ho.
Qed.
Lemma clock_remembering : frame remembering clock.
Proof.
  intros [w r]. unfold clock. cbn [ld_world ld_result]. pose proof (seed_clock w) as Hc. destruct (nowMs w). by split.
Qed.
Lemma record_remembering entity id fp : frame remembering (recordBootstrapFingerprint entity id fp).
Proof.
  unfold recordBootstrapFingerprint. apply (frame_bind _); [apply clock_remembering|intros t].
  apply (frame_bind _); [apply create_remembering|intros [e|v]]; [|by apply (frame_pure _)].
  destruct (negb _); [by apply (frame_pure _)|]. apply (frame_bind _); [apply clock_remembering|intros t'].
  apply (frame_bind _); [apply update_remembering|intros ?; by apply (frame_pure _)].
Qed.

(** A call never ends but with a value or an error of the database. *)
Definition settles {A} (m : Op (Loading W) A) : Prop := forall s, isOk (m s).1 = true.
Lemma settles_bind {A B} (m : Op (Loading W) A) (f : A -> Op (Loading W) B) : settles m -> (forall a, settles (f a)) -> settles (m ≫= f).
Proof. intros Hm Hf s. specialize (Hm s). unfold mbind, Op_bind. destruct (m s) as [[a|e|x|] s']; try done. apply Hf. Qed.
Lemma create_settles e d : settles (call (do_create e d)).
Proof. intros [w r]. unfold call. cbn [ld_world]. pose proof (seed_create w e d). by destruct (do_create e d w) as [[] ?]. Qed.
Lemma update_settles e id d : settles (call (do_update e id d)).
Proof. intros [w r]. unfold call. cbn [ld_world]. pose proof (seed_update w e id d). by destruct (do_update e id d w) as [[] ?]. Qed.
Lemma clock_settles : settles clock.
Proof. intros [w r]. unfold clock. cbn [ld_world]. by destruct (nowMs w). Qed.
Lemma record_settles entity id fp : settles (recordBootstrapFingerprint entity id fp).
Proof.
  unfold recordBootstrapFingerprint. apply settles_bind; [apply clock_settles|intros t].
  apply settles_bind; [apply create_settles|intros [e|v]]; [|done].
  destruct (negb _); [done|]. apply settles_bind; [apply clock_settles|intros t'].
  apply settles_bind; [apply update_settles|done].
Qed.

(** What has become of a record. *)
Definition failed_by (s s' : Loading W) : Prop := sr_failed (ld_result s') = (sr_failed (ld_result s) + 1)%Z.
Definition applied (record : json) (m : members) : Prop :=
  forall k v, k <> "id" -> member record k = Some v -> obj_get k m = Some v.
Definition in_place (w : W) (entity id : string) (record : json) (w' : W) : Prop :=
  exists m, seeded w' entity !! id = Some m /\
    (applied record m \/
     (seeded w entity !! id = Some m /\
      exists fp, fingerprintOf sha256_hex record = Ok fp /\ tracked w (tracking_id entity id) (Some fp))).

(** The ways a step for a record ends, from the state [s]. *)
Definition done_with (entity id : string) (record : json) (s : Loading W) (p : Result unit * Loading W) : Prop :=
  match p with
  | (Ok _, s') => failed_by s s' \/ in_place (ld_world s) entity id record (ld_world s')
  | (Throw _, s') => sr_failed (ld_result s') = sr_failed (ld_result s)
  | _ => False
  end.

Lemma reconcile_spec entity id id_str fp record s s1 :
  entity <> "SeedFingerprint" -> ld_result s1 = ld_result s -> done_with entity id record s (reconcile entity id id_str fp record s1).
Proof.
  intros He Hres. unfold reconcile. unfold mbind at 1, Op_bind at 1, call. pose proof (seed_update (ld_world s1) entity id record) as Hu.
  destruct (do_update entity id record (ld_world s1)) as [[v|er|x|] w2]; try done.
  - destruct Hu as (m & m' & _ & [Hw _] & Hm'). unfold mbind, Op_bind, count, modify.
    pose proof (record_settles entity id fp (mkLoading w2 (updated_one (ld_result s1)))) as Hok.
    pose proof (record_remembering entity id fp (mkLoading w2 (updated_one (ld_result s1)))) as [_ Hr].
    cbn [ld_world ld_result]. destruct (recordBootstrapFingerprint _ _ _ _) as [[u|e|x|] s']; try done. right.
    cbn [snd ld_world] in Hr. exists m'. rewrite Hr by done. split; [by rewrite Hw, lookup_insert_eq|]. left.
    intros k v' Hk Hv. by rewrite Hm', Hv.
  - unfold count, modify. left. unfold failed_by. cbn. by rewrite Hres.
Qed.

Lemma dump_total v : match dump v with Ok _ | Throw _ => True | _ => False end.
Proof. unfold dump. by destruct (dump_text v). Qed.

Lemma record_exists_spec entity id record s s1 :
  entity <> "SeedFingerprint" -> string_member record "id" = Some id -> ld_result s1 = ld_result s ->
  same_tables seeded (ld_world s) (ld_world s1) -> is_Some (seeded (ld_world s) entity !! id) ->
  done_with entity id record s (record_exists sha256_hex entity true record s1).
Proof.
  intros He Hid Hres Hsame Hrow. unfold record_exists. rewrite Hid. unfold id_text, fingerprintOf.
  assert (exists v, member record "id" = Some v) as [v Hv].
  { unfold string_member in Hid. destruct (member record "id"); [by eexists|done]. }
  rewrite Hv. pose proof (dump_total v) as Hd. unfold of_result. unfold mbind at 1, Op_bind at 1.
  destruct (dump v) as [id_str|er|x|]; try done; [|cbn; by rewrite Hres].
  pose proof (dump_total record) as Hdr. unfold mbind at 1, Op_bind at 1.
  destruct (dump record) as [text|er|x|] eqn:Hdump; try done; [|unfold done_with; cbn; by rewrite Hres].
  cbn [mbind Result_bind]. unfold mbind at 1, Op_bind at 1. set (fp := sha256_hex text).
  pose proof (needs_reconcile_spec entity id fp s1) as Hn. destruct (bootstrapNeedsReconcile entity id fp s1) as [r s2].
  destruct Hn as (Hr2 & Hs2 & Hn). destruct r as [needs|er|x|]; try done; [|cbn; by rewrite Hr2, Hres].
  destruct needs.
  - apply reconcile_spec; [done|congruence].
  - unfold count, modify. right. cbn [ld_world]. destruct Hrow as [m Hm]. exists m. rewrite Hs2, Hsame. split; [done|]. right.
    split; [done|]. exists fp. split; [by unfold fingerprintOf; rewrite Hdump|]. destruct Hn as [Hn _]. specialize (Hn eq_refl).
    destruct Hn as (mt & Hmt & Hf). exists mt. by rewrite <- Hsame.
Qed.

Lemma record_created_spec entity id record s s1 m :
  entity <> "SeedFingerprint" -> string_member record "id" = Some id -> ld_result s1 = ld_result s ->
  seeded (ld_world s1) entity !! id = Some m -> applied record m ->
  done_with entity id record s (record_created sha256_hex entity true record s1).
Proof.
  intros He Hid Hres Hm Hap. unfold record_created. rewrite Hid. unfold mbind at 1, Op_bind at 1, count, modify.
  unfold mbind at 1, Op_bind at 1, of_result, fingerprintOf. pose proof (dump_total record) as Hd.
  destruct (dump record) as [text|er|x|]; try done; [|cbn; by rewrite Hres]. cbn [mbind Result_bind].
  set (s2 := mkLoading _ _). pose proof (record_settles entity id (sha256_hex text) s2) as Hok.
  pose proof (record_remembering entity id (sha256_hex text) s2) as [_ Hr].
  destruct (recordBootstrapFingerprint _ _ _ s2) as [[u|e|x|] s']; try done. right. exists m. cbn [snd] in Hr.
  rewrite Hr by done. auto.
Qed.

(** A bootstrap record of a seed file gets into the database.  When it has been
    loaded, one more failure is counted, or the row of its identifier is there and
    has every member of the record; the one exception is a row that was there and
    whose record was applied with the same content before: it stays as it is.  No
    exception leaves the loop. *)
Theorem bootstrap_record_applied entity meta node id s :
  entity <> "SeedFingerprint" -> sm_bootstrap meta = true -> string_member node "id" = Some id ->
  let '(r, s') := load_record sha256_hex what entity meta node s in
  r = Ok tt /\
  (failed_by s s' \/ exists t, in_place (ld_world s) entity id (record_at meta t node) (ld_world s')).
Proof.
  intros He Hb Hid.
  assert (exists t, done_with entity id (record_at meta t node) s (load_record_body sha256_hex entity meta node s)) as [t Hdone].
  - assert (exists t w', current_record meta node s = (Ok (record_at meta t node), mkLoading w' (ld_result s)) /\
      same_tables seeded (ld_world s) w') as (t & w1 & Hcur & Hs1).
    { destruct s as [w res]. unfold current_record, record_at, mbind, Op_bind, clock. cbn [ld_world ld_result].
      destruct (_ && _); [|by exists 0%Z, w]. pose proof (seed_clock w) as Hc. destruct (nowMs w) as [t w'] eqn:Hnow. exists t, w'. split; [|exact Hc]. cbn. by rewrite Hnow. }
    exists t. unfold load_record_body. unfold mbind at 1, Op_bind at 1. rewrite Hcur.
    pose proof (string_member_at meta t node "id" id Hid) as Hidt. set (record := record_at meta t node) in *.
    unfold mbind at 1, Op_bind at 1, call. cbn [ld_world ld_result]. pose proof (seed_create w1 entity record) as Hc.
    destruct (do_create entity record w1) as [[v|er|x|] w2]; try done.
    + destruct Hc as (i & m & _ & [Hw _] & Hi & Hm). rewrite Hb. apply (record_created_spec _ _ _ _ _ m); try done.
      cbn [ld_world]. rewrite Hw, (Hi id Hidt). by rewrite lookup_insert_eq.
    + destruct Hc as [Hs2 Hc]. destruct (bool_decide (code er = Conflict)) eqn:Hcode.
      * apply bool_decide_eq_true in Hcode. rewrite Hb. apply record_exists_spec; try done.
        -- intros e. cbn [ld_world]. by rewrite Hs2, Hs1.
        -- rewrite <- Hs1. by apply Hc.
      * unfold mbind at 1, Op_bind at 1, of_result, id_text. destruct (member record "id") as [v|].
        -- pose proof (dump_total v) as Hd. destruct (dump v) as [id_str|e|x|]; try done. by left.
        -- by left.
  - unfold load_record. destruct (load_record_body _ _ _ _ s) as [[[]|e|x|] s1]; try done.
    + cbn in Hdone. split; [done|]. destruct Hdone as [Hf|Hp]; [by left|]. right. by exists t.
    + cbn in Hdone. unfold count, modify. split; [done|]. left. unfold failed_by. cbn. by rewrite Hdone.
Qed.
End Properties.

(** ** A run *)

(** Tables whose rows are named by the identifier of their data, and a clock that
    stands still. *)
Definition seed_name (db : TableDb) (e : string) (data : json) : string :=
  default (fresh_id (table_of db e)) (string_member data "id").
Definition seed_adapter : Adapter TableDb := {|
  do_create e data := fun db =>
    match data with
    | JObject d =>
        let id := seed_name db e data in
        if bool_decide (is_Some (table_of db e !! id)) then (Err (conflict id), db)
        else (Ok data, <[e := <[id := obj_set "id" (JString id) d]> (table_of db e)]> db)
    | _ => (Err (validationError "not an object"), db)
    end;
  do_read e id := fun db =>
    match table_of db e !! id with Some m => (Ok (JObject m), db) | None => (Err (notFound id), db) end;
  do_update e id data := fun db =>
    match data, table_of db e !! id with
    | JObject p, Some m => (Ok data, <[e := <[id := merge p m]> (table_of db e)]> db)
    | _, _ => (Err (notFound id), db)
    end;
  do_list e o := fun db =>
    let items := JObject <$> (map_to_list (table_of db e)).*2 in
    (Ok (mkListResult (take (Z.to_nat (opt_limit o)) items) (Z.of_nat (length items)) 1 (opt_limit o)), db);
  do_readIncludingSensitive _ _ := unsupported; do_remove _ _ := unsupported; do_upsert _ _ _ _ _ := unsupported;
  do_createMany _ _ := unsupported; do_updateMany _ _ _ := unsupported; do_deleteMany _ _ := unsupported;
  do_search := default_search; do_findFirst _ _ := unsupported; do_findByField _ _ _ := unsupported;
  do_getAvailableEntities := unsupported; do_getEntitySchema _ := unsupported;
  do_close := mret tt; supportsNativeTransactions := false;
  do_beginTransaction := default_transaction; do_commitTransaction := default_transaction;
  do_rollbackTransaction := default_transaction;
|}.
Definition still_clock (t : Z) : Clock TableDb := {| nowMs db := (t, db) |}.

Lemma table_written db e id m : row_written table_of db (<[e := <[id := m]> (table_of db e)]> db) e id m.
Proof. split; [by rewrite table_of_insert, decide_True|]. intros e' He. by rewrite table_of_insert, decide_False. Qed.

#[program] Definition seed_tables t : @SeedTable TableDb seed_adapter (still_clock t) := {| seeded := table_of |}.
Next Obligation. by intros t db e. Qed.
Next Obligation. by intros t db e o e'. Qed.
Next Obligation.
  intros t db e id. cbn. destruct (table_of db e !! id) as [m|] eqn:Hm; [|done]. split; [done|]. by exists m, m.
Qed.
Next Obligation.
  intros t db e data. cbn [do_create seed_adapter]. destruct data as [| | | | | |d]; try done.
  set (id := seed_name db e (JObject d)). case_bool_decide as Hid.
  - split; [done|]. intros i Hi _. unfold id, seed_name in Hid. by rewrite Hi in Hid.
  - exists id, (obj_set "id" (JString id) d). split; [by apply eq_None_not_Some|]. split; [apply table_written|]. split.
    + intros i Hi. unfold id, seed_name. by rewrite Hi.
    + intros k v Hk Hv. rewrite obj_get_set. by destruct (String.eqb_spec k "id").
Qed.
Next Obligation.
  intros t db e id patch. cbn [do_update seed_adapter]. destruct patch as [| | | | | |p]; try done.
  destruct (table_of db e !! id) as [m|] eqn:Hm; [|done]. exists m, (merge p m). split; [done|]. split; [apply table_written|].
  intros k _. apply merge_get.
Qed.
#[local] Existing Instance seed_adapter.
#[local] Existing Instance seed_tables.
#[local] Existing Instance PlainJson.plain_json.

Definition seed_doc (entity : string) (bootstrap stamp : bool) (record : json) : json := object [
  ("entity", JString entity); ("records", JArray [record]);
  ("metadata", object [("bootstrap", JBool bootstrap); ("useCurrentTimestamp", JBool stamp); ("timestampField", JString "installedAt")])].
Definition one_file (doc : json) : FileSystem := mkFiles
  (fun path => String.eqb path "seeds" || String.eqb path "seeds/credentials.json") (fun path => String.eqb path "seeds")
  (fun path => Some [("credentials.json", true)])
  (fun path => if String.eqb path "seeds/credentials.json" then plain_print doc else None).
Definition demo_what (x : Exn) : string := match x with runtime_error m => m | _ => "" end.
Definition demo_load (t : Z) (doc : json) (force : bool) (db : TableDb) : Result SeedSummary * TableDb :=
  loadSeeds (Clock0 := still_clock t) (fun s => s) demo_what (one_file doc) (fun _ => "") "seeds" force db.
Definition counts (p : Result SeedSummary * TableDb) : option (Z * Z * Z * Z) :=
  match p.1 with
  | Ok s => Some (ss_total_inserted s, ss_total_updated s, ss_total_skipped s, ss_total_failed s)
  | _ => None
  end.

Definition demo_credential (hash : string) : json := object [("id", JString "demo"); ("passwordHash", JString hash)].
Definition credentials_file (hash : string) : json := seed_doc "Credential" true false (demo_credential hash).
Definition seeded_once : TableDb := (demo_load 1 (credentials_file "h1") false ∅).2.
(** An operator sets another password. *)
Definition password_reset : TableDb := (do_update "Credential" "demo" (object [("passwordHash", JString "other")]) seeded_once).2.
Definition hash_of (db : TableDb) : option json := m ← table_of db "Credential" !! "demo"; obj_get "passwordHash" m.

Example seeding_run :
  counts (demo_load 1 (credentials_file "h1") false ∅) = Some (1, 0, 0, 0)%Z /\
  counts (demo_load 2 (credentials_file "h1") false password_reset) = Some (0, 0, 1, 0)%Z /\
  hash_of (demo_load 2 (credentials_file "h1") false password_reset).2 = Some (JString "other") /\
  counts (demo_load 2 (credentials_file "h2") false password_reset) = Some (0, 1, 0, 0)%Z /\
  hash_of (demo_load 2 (credentials_file "h2") false password_reset).2 = Some (JString "h2").
Proof. vm_compute. repeat split. Qed.

(** Forced loading does not write rows that are there, bootstrap or not. *)
Example force_rewrites_nothing :
  hash_of (demo_load 2 (credentials_file "h1") true password_reset).2 = Some (JString "other") /\
  hash_of (demo_load 2 (seed_doc "Credential" false false (demo_credential "h2")) true password_reset).2 = Some (JString "other").
Proof. vm_compute. split; reflexivity. Qed.

(** A bootstrap record whose time is filled in has another fingerprint at every
    start, so every start undoes what an operator has changed. *)
Definition installed_file : json :=
  seed_doc "Credential" true true (object [("id", JString "demo"); ("installedAt", JInt 0); ("passwordHash", JString "h1")]).
Example stamped_record_overwrites :
  let first := (demo_load 1 installed_file false ∅).2 in
  let changed := (do_update "Credential" "demo" (object [("passwordHash", JString "other")]) first).2 in
  hash_of changed = Some (JString "other") /\ hash_of (demo_load 2 installed_file false changed).2 = Some (JString "h1").
Proof. vm_compute. split; reflexivity. Qed.

(** The same database, where a fingerprint cannot be read for the moment. *)
Definition unread_adapter : Adapter TableDb := {|
  do_create := do_create; do_update := do_update; do_remove := do_remove; do_upsert := do_upsert;
  do_read e id := if String.eqb e "SeedFingerprint" then fail (internal "timeout") else do_read e id;
  do_createMany := do_createMany; do_updateMany := do_updateMany; do_deleteMany := do_deleteMany;
  do_search := do_search; do_readIncludingSensitive := do_readIncludingSensitive; do_list := do_list;
  do_findFirst := do_findFirst; do_findByField := do_findByField;
  do_getAvailableEntities := do_getAvailableEntities; do_getEntitySchema := do_getEntitySchema;
  do_close := do_close; supportsNativeTransactions := supportsNativeTransactions;
  do_beginTransaction := do_beginTransaction; do_commitTransaction := do_commitTransaction;
  do_rollbackTransaction := do_rollbackTransaction;
|}.

(** A fingerprint that cannot be read counts as none: what the operator has set is
    overwritten by a file that has not changed. *)
Example failed_read_overwrites :
  hash_of (loadSeeds (Adapter0 := unread_adapter) (Clock0 := still_clock 2) (fun s => s) demo_what (one_file (credentials_file "h1"))
    (fun _ => "") "seeds" false password_reset).2 = Some (JString "h1").
Proof. vm_compute. reflexivity. Qed.

Lemma demo_fingerprints_read t w id er w' :
  @do_read _ seed_adapter "SeedFingerprint" id w = (Err er, w') -> seeded (SeedTable := seed_tables t) w "SeedFingerprint" !! id = None.
Proof. cbn. by destruct (table_of w "SeedFingerprint" !! id). Qed.

Lemma seeds_leave_rows_witness :
  hash_of password_reset = Some (JString "other") /\
  exists m, table_of password_reset "Credential" !! "demo" = Some m /\
    table_of (demo_load 2 (credentials_file "h1") false password_reset).2 "Credential" !! "demo" = Some m.
Proof.
  split; [vm_compute; reflexivity|].
  destruct (table_of password_reset "Credential" !! "demo") as [m|] eqn:Hm; [|vm_compute in Hm; discriminate Hm].
  exists m. split; [reflexivity|].
  destruct (fingerprintOf (fun s => s) (demo_credential "h1")) as [fp|e|x|] eqn:Hfp; [|vm_compute in Hfp; discriminate Hfp..].
  refine (proj1 (seeds_leave_rows (Clock0 := still_clock 2) (SeedTable0 := seed_tables 2) (fun s => s) demo_what
    (demo_fingerprints_read 2) (one_file (credentials_file "h1")) (fun _ => "") "seeds" "Credential" "demo" m (Some fp) password_reset _ _ Hm _)).
  - discriminate.
  - intros path text root Hread Hparse. cbn [one_file fs_read] in Hread.
    destruct (String.eqb path "seeds/credentials.json"); [|discriminate Hread].
    vm_compute in Hread. injection Hread as <-. vm_compute in Hparse. injection Hparse as <-.
    apply Forall_singleton. intros entity meta nodes Hen Hme Hno. vm_compute in Hen, Hme, Hno.
    injection Hen as <-. injection Hme as <-. injection Hno as <-. apply Forall_singleton. intros _. split; [discriminate|].
    intros t id fp' Hid _ Hfp'. vm_compute in Hfp'. vm_compute in Hfp. congruence.
  - destruct (table_of password_reset "SeedFingerprint" !! "Credential:demo") as [mt|] eqn:Hmt; [|vm_compute in Hmt; discriminate Hmt].
    exists mt. split; [exact Hmt|]. vm_compute in Hmt, Hfp. injection Hmt as <-. injection Hfp as <-. vm_compute. reflexivity.
Defined.

Definition before_update : Loading TableDb := mkLoading password_reset (new_result "Credential").
Definition bootstrap_meta : SeedMeta := mkSeedMeta false true false "".

Lemma bootstrap_record_applied_witness :
  exists s', load_record (Clock0 := still_clock 2) (fun s => s) demo_what "Credential" bootstrap_meta (demo_credential "h2") before_update = (Ok tt, s') /\
    sr_failed (ld_result s') = 0%Z /\
    exists m, table_of (ld_world s') "Credential" !! "demo" = Some m /\ obj_get "passwordHash" m = Some (JString "h2").
Proof.
  pose proof (bootstrap_record_applied (Clock0 := still_clock 2) (SeedTable0 := seed_tables 2) (fun s => s) demo_what
    (demo_fingerprints_read 2) "Credential" bootstrap_meta (demo_credential "h2") "demo" before_update ltac:(discriminate) eq_refl eq_refl) as H.
  destruct (load_record _ _ _ _ _ before_update) as [r s'] eqn:Hrun. destruct H as [-> H]. exists s'. split; [reflexivity|].
  assert (sr_failed (ld_result s') = 0%Z) as Hf by (vm_compute in Hrun; injection Hrun as <-; reflexivity).
  split; [exact Hf|]. destruct H as [Hfail|(t & m & Hm & [Hap|(Hold & fp & Hfp & mt & Hmt & Htr)])].
  - unfold failed_by in Hfail. rewrite Hf in Hfail. discriminate Hfail.
  - exists m. split; [exact Hm|]. apply Hap; [discriminate|reflexivity].
  - exfalso. vm_compute in Hmt. injection Hmt as <-. vm_compute in Htr, Hfp. congruence.
Defined.
