(* ===== verification/Connections.v ===== *)
(** * Starting the daemon and choosing its database

    Models the way from the environment to an open database: the daemon's
    configuration (src/daemon/daemon_config.cpp), the checks of a connection URL
    (src/core/connection_validator.cpp, src/core/client_config.cpp), the choice of
    an adapter (src/core/adapter_factory.cpp), the layers a client puts around it
    (src/client_init.cpp, src/cache/cache_config.cpp), and the client the server
    holds and replaces while it runs (src/daemon/server.cpp).  Opening a database is
    an argument. *)

From S2P Require Import Prelude CxxString CxxStd Regex Validation Elastic Searching.

Open Scope string_scope.

(** The environment of the process. *)
Abbreviation Environment := (string -> option string).

(** ** Connection URLs (connection_validator.cpp) *)

Record ValidationResult := mkValidation {
  vr_is_valid : bool; vr_error_message : string; vr_adapter_type : string; vr_normalized_url : string;
}.
Definition success (type url : string) : ValidationResult := mkValidation true "" type url.
Definition failure (message : string) : ValidationResult := mkValidation false message "" "".

Definition find_protocol (url : string) : option nat := String.index 0 "://" url.
Definition hasValidFormat (url : string) : bool := match find_protocol url with Some _ => true | None => false end.
Definition extractProtocol (url : string) : string :=
  match find_protocol url with None => "" | Some pos => to_lower (string_take pos url) end.

Definition isValidPath (path : string) : bool :=
  negb (is_empty path) && match find_char "000" path with None => true | Some _ => false end.

Definition validateSQLite (url : string) : ValidationResult :=
  match find_protocol url with
  | None => failure "Invalid SQLite URL format"
  | Some pos =>
      let path := string_drop (pos + 3) url in
      if String.eqb path ":memory:" then success "sqlite" url
      else if is_empty path then failure "SQLite path cannot be empty"
      else if negb (isValidPath path) then failure ("Invalid SQLite database path: " +:+ path)
      else success "sqlite" url
  end.

Definition none_of (cs : list ascii) : re := RCls (fun c => negb (existsb (Ascii.eqb c) cs)).
(** [.] is any character but the ends of a line. *)
Definition rdot : re := none_of ["010"; "013"]%char.
(** The part of both patterns after the protocol: a user with a password, the host,
    the port, the database and the options, all but the host optional. *)
Definition url_rest : re :=
  RCat (ropt (RCat (rplus (none_of [":"; "@"]%char)) (RCat (ropt (RCat (rchar ":") (rplus (none_of ["@"]%char)))) (rchar "@"))))
  (RCat (rplus (none_of [":"; "/"]%char))
  (RCat (ropt (RCat (rchar ":") (rplus (RCls is_digit))))
  (RCat (ropt (RCat (rchar "/") (rplus (none_of ["?"]%char))))
        (ropt (RCat (rchar "?") (RStar rdot)))))).
Definition pg_regex : re := RCat (RAlt (rlit "postgresql") (rlit "postgres")) (RCat (rlit "://") url_rest).
Definition mysql_regex : re := RCat (rlit "mysql://") url_rest.

Definition validatePostgreSQL (url : string) : ValidationResult :=
  if negb (re_match pg_regex url) then failure "Invalid PostgreSQL URL format"
  else success "postgres" (if String.prefix "postgresql://" url then "postgres://" +:+ string_drop 13 url else url).
Definition validateMySQL (url : string) : ValidationResult :=
  if negb (re_match mysql_regex url) then failure "Invalid MySQL URL format" else success "mysql" url.

Definition validate (database_url : string) : ValidationResult :=
  if is_empty database_url then failure "Database URL cannot be empty"
  else if negb (hasValidFormat database_url) then failure "Invalid URL format. Expected: protocol://..."
  else
    let protocol := extractProtocol database_url in
    if String.eqb protocol "sqlite" then validateSQLite database_url
    else if String.eqb protocol "postgresql" || String.eqb protocol "postgres" then validatePostgreSQL database_url
    else if String.eqb protocol "mysql" then validateMySQL database_url
    else failure ("Unsupported database protocol: " +:+ protocol).

(** ** The client's configuration (client_config.cpp) *)

Record ClientConfig := mkClientConfig {
  cc_mode : string; cc_adapter : string; cc_endpoint : string; cc_database_url : string; cc_sandbox_enabled : bool;
}.

Definition validateMode (mode : string) : Result unit :=
  if is_empty mode then Ok tt
  else
    let lower_mode := to_lower mode in
    if existsb (String.eqb lower_mode) ["development"; "dev"; "production"; "prod"; "test"] then Ok tt
    else Throw (bad_argument ("Invalid mode: " +:+ (mode +:+ ". Valid modes: development, production, test"))).

Definition validateAdapter (adapter : string) : Result unit :=
  if is_empty adapter then Throw (bad_argument "Adapter type must be specified") else Ok tt.

Definition is_postgres (name : string) : bool := String.eqb name "postgres" || String.eqb name "postgresql".
Definition validateDatabaseUrl (adapter database_url : string) : Result unit :=
  if is_empty database_url then Throw (bad_argument "Database URL must be specified")
  else
    let result := validate database_url in
    if negb (vr_is_valid result) then Throw (bad_argument ("Invalid database URL: " +:+ vr_error_message result))
    else
      let url_adapter := extractProtocol database_url in
      if negb (is_empty url_adapter) && negb (String.eqb adapter url_adapter) && negb (is_postgres adapter && is_postgres url_adapter)
      then Throw (bad_argument ("Adapter type '" +:+ (adapter +:+ ("' does not match URL protocol '" +:+ (url_adapter +:+ "'")))))
      else Ok tt.

Definition ClientConfigManager_validate (config : ClientConfig) : Result unit :=
  _ ← validateMode (cc_mode config); _ ← validateAdapter (cc_adapter config);
  validateDatabaseUrl (cc_adapter config) (cc_database_url config).

(** ** Adapters (adapter_factory.cpp) *)

Record SqlConnectionConfig := mkSqlConfig {
  sq_host : string; sq_port : Z; sq_database : string; sq_user : string; sq_password : string; sq_options : string;
}.
Inductive AdapterChoice :=
  | SQLiteAdapter (path : string)
  | PostgresAdapter (config : SqlConnectionConfig)
  | MySQLAdapter (config : SqlConnectionConfig)
  | MongoDBAdapter (connectionString database : string).

(** The text before and after the first [c], if there is one. *)
Definition cut (c : ascii) (s : string) : option (string * string) :=
  i ← find_char c s; Some (string_take i s, string_drop (S i) s).

Definition parseConnectionUrl (url : string) : Result SqlConnectionConfig :=
  match find_protocol url with
  | None => Throw (bad_argument "Invalid connection URL format: missing '://'")
  | Some protocol_end =>
      let remaining := string_drop (protocol_end + 3) url in
      let '(user, password, remaining) :=
        match cut "@" remaining with
        | None => ("", "", remaining)
        | Some (credentials, rest) =>
            match cut ":" credentials with
            | Some (user, password) => (user, password, rest)
            | None => (credentials, "", rest)
            end
        end in
      let '(remaining, options) := match cut "?" remaining with Some (a, b) => (a, b) | None => (remaining, "") end in
      let '(remaining, database) := match cut "/" remaining with Some (a, b) => (a, b) | None => (remaining, "") end in
      match cut ":" remaining with
      | None => Ok (mkSqlConfig remaining 0 database user password options)
      | Some (host, port_str) =>
          match stoi port_str with
          | Ok port => Ok (mkSqlConfig host port database user password options)
          | _ => Throw (bad_argument ("Invalid port number in connection URL: " +:+ port_str))
          end
      end
  end.

Definition extractAdapterType (database_url : string) : Result string :=
  match find_protocol database_url with
  | None => Throw (bad_argument "Invalid database URL format. Expected: protocol://...")
  | Some pos =>
      let protocol := string_take pos database_url in
      Ok (if String.eqb protocol "postgresql" then "postgres"
          else if String.eqb protocol "mongodb+srv" then "mongodb"
          else if String.eqb protocol "elasticsearch" || String.eqb protocol "es" then "elasticsearch"
          else if String.eqb protocol "surrealdb" || String.eqb protocol "surreal" then "surrealdb"
          else protocol)
  end.

Definition createSQLiteAdapter (url : string) : AdapterChoice :=
  SQLiteAdapter (match find_protocol url with Some pos => string_drop (pos + 3) url | None => url end).
Definition createMongoDBAdapter (url : string) : AdapterChoice :=
  let database :=
    match find_protocol url with
    | None => ""
    | Some protocol_end =>
        let remaining := before_query (string_drop (protocol_end + 3) url) in
        match cut "/" remaining with Some (_, database) => database | None => "" end
    end in
  MongoDBAdapter url (if is_empty database then "metabuilder" else database).

Definition createFromType (adapter_type connection_string : string) : Result AdapterChoice :=
  let lower_type := to_lower adapter_type in
  if String.eqb lower_type "sqlite" then Ok (createSQLiteAdapter connection_string)
  else if String.eqb lower_type "postgres" || String.eqb lower_type "postgresql" then
    config ← parseConnectionUrl connection_string; Ok (PostgresAdapter config)
  else if String.eqb lower_type "mysql" then config ← parseConnectionUrl connection_string; Ok (MySQLAdapter config)
  else if String.eqb lower_type "mongodb" then Ok (createMongoDBAdapter connection_string)
  else Throw (bad_argument ("Unsupported adapter type: " +:+ adapter_type)).

Definition createFromUrl (getenv : Environment) (database_url : string) : Result AdapterChoice :=
  if is_empty database_url then Throw (bad_argument "Database URL cannot be empty")
  else if negb (hasValidFormat database_url) then createFromType (default "sqlite" (getenv "DBAL_ADAPTER")) database_url
  else adapter_type ← extractAdapterType database_url; createFromType adapter_type database_url.

Definition supported_adapters : list string :=
  ["sqlite"; "postgres"; "postgresql"; "mysql"; "mongodb"; "prisma"; "supabase"; "redis"; "cassandra"; "elasticsearch";
   "es"; "surrealdb"; "surreal"; "dynamodb"; "cockroachdb"; "tidb"].
Definition isSupported (adapter_type : string) : bool := existsb (String.eqb (to_lower adapter_type)) supported_adapters.

(** ** The cache's configuration (cache_config.cpp) *)

Record CacheConfig := mkCacheConfig {
  ca_enabled : bool; ca_redis_url : string; ca_ttl_seconds : Z; ca_error : string;
}.
Definition no_cache : CacheConfig := mkCacheConfig false "" 300 "".
Definition cache_refused (why : string) (c : CacheConfig) : CacheConfig :=
  mkCacheConfig (ca_enabled c) (ca_redis_url c) (ca_ttl_seconds c) why.

(** [std::stoi(value, &consumed)] used the whole text. *)
Definition whole_int (value : string) : option Z :=
  match stoi value with
  | Ok z =>
      let s := skip_space value in
      let digits := match s with String "-" t | String "+" t => t | _ => s end in
      if String.eqb (take_digits digits) digits then Some z else None
  | _ => None
  end.

Definition cache_param (cb : CacheConfig * bool) (kv : string * string) : CacheConfig * bool :=
  let '(c, bad) := cb in
  if bad then cb
  else if String.eqb kv.1 "ttl" then
    match whole_int kv.2 with
    | Some parsed =>
        if (parsed <=? 0)%Z
        then (cache_refused ("DBAL_CACHE_URL ttl must be a positive integer (got: " +:+ (kv.2 +:+ ")")) c, true)
        else (mkCacheConfig (ca_enabled c) (ca_redis_url c) parsed (ca_error c), false)
    | None => (cache_refused ("DBAL_CACHE_URL ttl must be a positive integer (got: " +:+ (kv.2 +:+ ")")) c, true)
    end
  else if String.eqb kv.1 "pattern" then
    if String.eqb kv.2 "read-through" then (c, false)
    else (cache_refused ("DBAL_CACHE_URL pattern '" +:+ (kv.2 +:+ "' is not implemented; only read-through is supported")) c, true)
  else (c, false).

Definition parseCacheUrl (url : string) : CacheConfig :=
  if is_empty url then no_cache
  else if negb (String.prefix "redis://" url) && negb (String.prefix "rediss://" url) then
    cache_refused ("DBAL_CACHE_URL must begin with redis:// or rediss:// (got: " +:+ (url +:+ ")")) no_cache
  else
    let '(c, bad) := foldl cache_param (mkCacheConfig false (before_query url) 300 "", false) (query_pairs (after_query url)) in
    if bad then mkCacheConfig (ca_enabled c) "" (ca_ttl_seconds c) (ca_error c)
    else mkCacheConfig true (ca_redis_url c) (ca_ttl_seconds c) (ca_error c).
Definition cacheConfigFromEnv (getenv : Environment) : CacheConfig := parseCacheUrl (default "" (getenv "DBAL_CACHE_URL")).
Definition searchConfigFromEnv (getenv : Environment) : SearchConfig := parseSearchUrl (default "" (getenv "DBAL_SEARCH_URL")).

(** ** The client (client_init.cpp) *)

Inductive Layer := SearchLayer (index : string) | CacheLayer (ttl_seconds : Z).
(** The adapter of a client: the database, and the layers around it from the inside. *)
Record DbalClient := mkClient { cl_config : ClientConfig; cl_adapter : AdapterChoice; cl_layers : list Layer }.

Section Daemon.
Context {W : Type} (getenv : Environment) (what : Exn -> string).
(** The constructor of an adapter connects: it throws a [std::exception], or raises an
    [SqlError], which is none ([Err], and nothing here catches it; [calm] leaves it
    out).  Those of the search and the cache client fail only for what they are
    given. *)
Context (open_adapter : AdapterChoice -> Op W unit) (open_search : SearchConfig -> bool) (open_redis : string -> bool).

Definition search_layer : list Layer :=
  let search_config := searchConfigFromEnv getenv in
  if negb (is_empty (sc_error search_config)) then []
  else if sc_enabled search_config && open_search search_config then [SearchLayer (sc_index search_config)] else [].
Definition cache_layer : list Layer :=
  let cache_config := cacheConfigFromEnv getenv in
  if negb (is_empty (ca_error cache_config)) then []
  else if ca_enabled cache_config && open_redis (ca_redis_url cache_config) then [CacheLayer (ca_ttl_seconds cache_config)] else [].

Definition newClient (config : ClientConfig) : Op W DbalClient :=
  _ ← of_result (ClientConfigManager_validate config);
  adapter ← of_result (createFromUrl getenv (cc_database_url config));
  _ ← open_adapter adapter;
  mret (mkClient config adapter (search_layer ++ cache_layer)%list).

(** ** The server's client (server.cpp) *)

(** A client is told from its successors by a number; a service of the daemon
    keeps a reference to the client it was made with. *)
Record Server := mkServer {
  sv_config : ClientConfig; sv_client : option (nat * DbalClient); sv_made : nat;
  sv_services : list (string * nat); sv_world : W;
}.

Definition new_client (config : ClientConfig) : Op Server DbalClient := fun s =>
  let '(r, w') := newClient config (sv_world s) in
  (r, mkServer (sv_config s) (sv_client s) (sv_made s) (sv_services s) w').
(** [dbal_client_ = std::move(client)]; the client there was is gone. *)
Definition hold_client (client : DbalClient) (s : Server) : Server :=
  mkServer (sv_config s) (Some (sv_made s, client)) (S (sv_made s)) (sv_services s) (sv_world s).

(** [try { ... } catch (const std::exception&) { return false; }]: an [SqlError] passes. *)
Definition or_false (m : Op Server bool) : Op Server bool := fun s =>
  match m s with (Throw _, s') => (Ok false, s') | r => r end.

Definition ensureClient : Op Server bool :=
  client_ ← gets sv_client;
  match client_ with
  | Some _ => mret true
  | None => or_false (
      config ← gets sv_config; client ← new_client config; modify (hold_client client);; mret true)
  end.

Definition getActiveConfig (s : Server) : string * string := (cc_adapter (sv_config s), cc_database_url (sv_config s)).

Definition requested_config (adapter database_url : string) (c : ClientConfig) : ClientConfig :=
  mkClientConfig (cc_mode c) adapter (cc_endpoint c) database_url (cc_sandbox_enabled c).
Definition set_config (c : ClientConfig) (s : Server) : Server :=
  mkServer c (sv_client s) (sv_made s) (sv_services s) (sv_world s).

Definition switchAdapter (adapter database_url : string) : Op Server bool := or_false (
  config ← gets sv_config;
  let new_config := requested_config adapter database_url config in
  client ← new_client new_config;
  modify (hold_client client);; modify (set_config new_config);; mret true).

(** Whether a client can be made, and why not. *)
Definition testConnection (adapter database_url : string) : Op Server (bool * string) := fun s =>
  match new_client (requested_config adapter database_url (sv_config s)) s with
  | (Ok _, s') => (Ok (true, ""), s')
  | (Throw x, s') => (Ok (false, what x), s')
  | (r, s') => (recast r, s')
  end.

(** The services that registerRoutes makes with a reference to the client: each
    needs its switch in the environment and, but for CAS, its files ([loads]). *)
Definition is_set (name : string) : bool := match getenv name with Some v => negb (is_empty v) | None => false end.
Definition is_true (name : string) : bool :=
  match getenv name with Some v => String.eqb v "true" || String.eqb v "1" | None => false end.
Definition start_service (name : string) (enabled loads : bool) : Op Server unit :=
  if negb enabled then mret tt
  else
    up ← ensureClient;
    if negb up || negb loads then mret tt
    else modify (fun s => mkServer (sv_config s) (sv_client s) (sv_made s)
      (match sv_client s with Some (n, _) => (name, n) :: sv_services s | None => sv_services s end) (sv_world s)).
Definition start_services (loads : string -> bool) : Op Server unit :=
  start_service "oidc" (is_set "DBAL_OIDC_ISSUER") (loads "oidc");;
  start_service "saml" (is_set "DBAL_SAML_ISSUER") (loads "saml");;
  start_service "cas" (is_true "DBAL_CAS_ENABLED") true.

(** ** The daemon's configuration (daemon_config.cpp) *)

Record DaemonConfig := mkDaemonConfig {
  dc_config_file : string; dc_bind_address : string; dc_port : Z; dc_development_mode : bool; dc_daemon_mode : bool;
}.
Definition default_daemon : DaemonConfig := mkDaemonConfig "config.yaml" "127.0.0.1" 8080 false false.
Definition set_port (port : Z) (c : DaemonConfig) : DaemonConfig :=
  mkDaemonConfig (dc_config_file c) (dc_bind_address c) port (dc_development_mode c) (dc_daemon_mode c).
Definition is_development (mode : string) : bool := String.eqb mode "development" || String.eqb mode "dev".

Definition fromEnvironment : Result DaemonConfig :=
  let bind_address := default "127.0.0.1" (getenv "DBAL_BIND_ADDRESS") in
  port ← (match getenv "DBAL_PORT" with Some p => stoi p | None => Ok 8080%Z end);
  let development_mode := match getenv "DBAL_MODE" with Some m => is_development m | None => false end in
  let config_file := default "config.yaml" (getenv "DBAL_CONFIG") in
  let daemon_mode :=
    match getenv "DBAL_DAEMON" with Some d => String.eqb d "true" || String.eqb d "1" || String.eqb d "yes" | None => false end in
  Ok (mkDaemonConfig config_file bind_address port development_mode daemon_mode).

(** The arguments after the program's name; false when the help was asked for. *)
Fixpoint parseCommandLine (argv : list string) (c : DaemonConfig) : Result (bool * DaemonConfig) :=
  match argv with
  | [] => Ok (true, c)
  | arg :: rest =>
      let flag (_ : unit) :=
        if String.eqb arg "--daemon" || String.eqb arg "-d" then
          parseCommandLine rest (mkDaemonConfig (dc_config_file c) (dc_bind_address c) (dc_port c) (dc_development_mode c) true)
        else if String.eqb arg "--help" || String.eqb arg "-h" then Ok (false, c)
        else parseCommandLine rest c in
      match rest with
      | [] => flag tt
      | v :: rest' =>
          if String.eqb arg "--config" then
            parseCommandLine rest' (mkDaemonConfig v (dc_bind_address c) (dc_port c) (dc_development_mode c) (dc_daemon_mode c))
          else if String.eqb arg "--bind" then
            parseCommandLine rest' (mkDaemonConfig (dc_config_file c) v (dc_port c) (dc_development_mode c) (dc_daemon_mode c))
          else if String.eqb arg "--port" then port ← stoi v; parseCommandLine rest' (set_port port c)
          else if String.eqb arg "--mode" then
            parseCommandLine rest'
              (mkDaemonConfig (dc_config_file c) (dc_bind_address c) (dc_port c) (is_development v) (dc_daemon_mode c))
          else flag tt
      end
  end.

Definition createClientConfig (c : DaemonConfig) : ClientConfig :=
  mkClientConfig (if dc_development_mode c then "development" else "production")
    (default "sqlite" (getenv "DBAL_ADAPTER")) (default "" (getenv "DBAL_ENDPOINT"))
    (match getenv "DBAL_DATABASE_URL" with
     | Some url => url
     | None => default ":memory:" (getenv "DATABASE_URL")
     end) true.
Definition start_server (client_config : ClientConfig) (w : W) : Server := mkServer client_config None 0 [] w.
End Daemon.

(** ** Connection URLs are read back *)

Definition without (cs : list ascii) (s : string) : Prop := Forall (fun c => find_char c s = None) cs.

Lemma find_protocol_app proto rest :
  find_char ":" proto = None -> find_protocol (proto +:+ ("://" +:+ rest)) = Some (String.length proto).
Proof.
  unfold find_protocol. induction proto as [|c proto IH]; intros Hp; [by rewrite string_app_nil_l; destruct rest|].
  cbn [find_char] in Hp. destruct (Ascii.eqb_spec ":" c) as [|Hne]; [done|].
  destruct (find_char ":" proto) eqn:Hf; [done|]. rewrite string_app_cons. cbn [String.index String.length].
  assert (String.prefix "://" (String c (proto +:+ ("://" +:+ rest))) = false) as ->.
  { cbn [String.prefix]. destruct (ascii_dec ":" c); [by subst|done]. }
  by rewrite IH.
Qed.

Lemma find_char_here c a rest : find_char c a = None -> find_char c (a +:+ String c rest) = Some (String.length a).
Proof. intros Ha. rewrite (find_char_app_ne _ _ _ Ha). cbn [find_char]. rewrite Ascii.eqb_refl. cbn. by rewrite Nat.add_0_r. Qed.
Lemma cut_app c a b : find_char c a = None -> cut c (a +:+ String c b) = Some (a, b).
Proof.
  intros Ha. unfold cut. rewrite (find_char_here _ _ _ Ha).
  unfold mbind, option_bind. by rewrite string_take_app, string_drop_app_S.
Qed.
Lemma cut_none c a : find_char c a = None -> cut c a = None.
Proof. intros Ha. unfold cut. by rewrite Ha. Qed.

Lemma find_char_app c a b : find_char c a = None -> find_char c b = None -> find_char c (a +:+ b) = None.
Proof. intros Ha Hb. by rewrite (find_char_app_ne _ _ _ Ha), Hb. Qed.
Lemma find_char_cons c d s : c <> d -> find_char c s = None -> find_char c (String d s) = None.
Proof. intros Hne Hs. cbn. destruct (Ascii.eqb_spec c d); [done|]. by rewrite Hs. Qed.

Lemma find_char_digits c s : string_forallb is_digit s = true -> is_digit c = false -> find_char c s = None.
Proof.
  induction s as [|d s IH]; intros Hs Hc; [done|]. cbn in Hs. apply andb_true_iff in Hs as [Hd Hs].
  apply find_char_cons; [|by apply IH]. intros ->. by rewrite Hd in Hc.
Qed.
Lemma to_string_digits z : (0 <= z)%Z -> string_forallb is_digit (to_string z) = true.
Proof. intros Hz. unfold to_string. rewrite (proj2 (Z.ltb_ge z 0)) by done. by destruct (canonical_dec_string (Z.to_N z)). Qed.
Lemma stoi_to_string z : (0 <= z <= INT_MAX)%Z -> stoi (to_string z) = Ok z.
Proof.
  intros [H0 H1]. unfold stoi. rewrite <- (string_app_nil_r (to_string z)), strtol_to_string by done.
  rewrite (proj2 (in_int_spec z)); [done|]. unfold INT_MIN, INT_MAX in *. lia.
Qed.

(** Both sides of an equation of concatenations, in normal form. *)
Ltac string_norm := repeat first [rewrite <- string_app_assoc|rewrite string_app_cons|rewrite string_app_nil_l]; reflexivity.

(** The URL of a configuration, in the form the factory documents. *)
Definition connection_url (proto : string) (c : SqlConnectionConfig) : string :=
  proto +:+ ("://" +:+ (sq_user c +:+ (":" +:+ (sq_password c +:+ ("@" +:+ (sq_host c +:+ (":" +:+ (to_string (sq_port c)
  +:+ ("/" +:+ (sq_database c +:+ ("?" +:+ sq_options c))))))))))).

(** A connection URL written in the documented form is read back: whatever the
    user, the password, the host, the database and the options, as long as none of
    them contains the character that ends it, parseConnectionUrl answers exactly
    these parts and the port. *)
Theorem connection_url_parsed proto c :
  without [":"%char] proto -> without [":"; "@"]%char (sq_user c) -> without ["@"%char] (sq_password c) ->
  without [":"; "/"; "?"]%char (sq_host c) -> without ["?"%char] (sq_database c) -> (0 <= sq_port c <= INT_MAX)%Z ->
  parseConnectionUrl (connection_url proto c) = Ok c.
Proof.
  intros Hproto Huser Hpass Hhost Hdb Hport. unfold without in *.
  repeat match goal with H : Forall _ (_ :: _) |- _ => apply Forall_cons in H as [? H] end.
  pose proof (to_string_digits (sq_port c) ltac:(lia)) as Hd.
  assert (forall ch, is_digit ch = false -> find_char ch (to_string (sq_port c)) = None) as Hpd
    by (intros ch; by apply find_char_digits).
  unfold connection_url, parseConnectionUrl. rewrite find_protocol_app by done.
  assert (forall x, string_drop (String.length proto + 3) (proto +:+ ("://" +:+ x)) = x) as ->.
  { intros x. rewrite (Nat.add_comm _ 3). clear. revert x. induction proto as [|p proto IH]; intros x; [by rewrite string_app_nil_l|].
    rewrite string_app_cons. cbn [String.length]. rewrite Nat.add_succ_r. cbn [string_drop]. apply IH. }
  set (tail := sq_host c +:+ _).
  assert (sq_user c +:+ (":" +:+ (sq_password c +:+ ("@" +:+ tail))) = (sq_user c +:+ String ":" (sq_password c)) +:+ String "@" tail) as ->
    by string_norm.
  rewrite cut_app by (apply find_char_app; [done|by apply find_char_cons]). rewrite cut_app by done.
  unfold tail.
  assert (sq_host c +:+ (":" +:+ (to_string (sq_port c) +:+ ("/" +:+ (sq_database c +:+ ("?" +:+ sq_options c))))) =
    (sq_host c +:+ String ":" (to_string (sq_port c) +:+ String "/" (sq_database c))) +:+ String "?" (sq_options c)) as -> by string_norm.
  rewrite cut_app.
  2:{ apply find_char_app; [done|]. apply find_char_cons; [done|]. apply find_char_app; [by apply Hpd|]. by apply find_char_cons. }
  assert (sq_host c +:+ String ":" (to_string (sq_port c) +:+ String "/" (sq_database c)) =
    (sq_host c +:+ String ":" (to_string (sq_port c))) +:+ String "/" (sq_database c)) as -> by string_norm.
  rewrite cut_app by (apply find_char_app; [done|]; apply find_char_cons; [done|by apply Hpd]).
  rewrite cut_app by done. rewrite stoi_to_string by done. by destruct c.
Qed.

(** ** What is accepted can be opened *)

Definition kind (a : AdapterChoice) : string :=
  match a with SQLiteAdapter _ => "sqlite" | PostgresAdapter _ => "postgres" | MySQLAdapter _ => "mysql" | MongoDBAdapter _ _ => "mongodb" end.

(** The URL of one of the protocols that are checked gets an adapter of this kind,
    or its port is refused. *)
Definition opens_as (k : string) (r : Result AdapterChoice) : Prop :=
  match r with
  | Ok a => kind a = k
  | Throw x => exists p, x = bad_argument ("Invalid port number in connection URL: " +:+ p)
  | _ => False
  end.

(** A value or an exception. *)
Definition calm {A} (r : Result A) : Prop := match r with Ok _ | Throw _ => True | _ => False end.
Lemma calm_bind {A B} (r : Result A) (f : A -> Result B) : calm r -> (forall a, calm (f a)) -> calm (r ≫= f).
Proof. intros Hr Hf. destruct r; try done. apply Hf. Qed.
Lemma calm_parse url : calm (parseConnectionUrl url).
Proof. unfold parseConnectionUrl. by repeat case_match. Qed.
Lemma calm_type type url : calm (createFromType type url).
Proof.
  unfold createFromType. repeat (case_match; try done); (apply calm_bind; [apply calm_parse|done]).
Qed.
Lemma calm_create getenv url : calm (createFromUrl getenv url).
Proof.
  unfold createFromUrl. repeat (case_match; [try done; apply calm_type|]). apply calm_bind; [|intros ?; apply calm_type].
  unfold extractAdapterType. by case_match.
Qed.
Lemma calm_config config : calm (ClientConfigManager_validate config).
Proof.
  unfold ClientConfigManager_validate. repeat (apply calm_bind; [|intros _]);
    unfold validateMode, validateAdapter, validateDatabaseUrl; cbv zeta; by repeat case_match.
Qed.

Lemma parse_url_total url :
  is_Some (find_protocol url) ->
  match parseConnectionUrl url with
  | Ok _ => True
  | Throw x => exists p, x = bad_argument ("Invalid port number in connection URL: " +:+ p)
  | _ => False
  end.
Proof.
  intros [n Hn]. unfold parseConnectionUrl. rewrite Hn. repeat case_match; simplify_eq; first [done|by eexists].
Qed.

Lemma create_type_opens type url :
  is_Some (find_protocol url) -> to_lower type ∈ ["sqlite"; "postgres"; "postgresql"; "mysql"] ->
  opens_as (if String.eqb (to_lower type) "postgresql" then "postgres" else to_lower type) (createFromType type url).
Proof.
  intros Hp Hin. pose proof (parse_url_total url Hp) as Ht. unfold createFromType.
  rewrite !elem_of_cons in Hin. destruct Hin as [E|[E|[E|[E|[]%elem_of_nil]]]]; rewrite E; cbn -[parseConnectionUrl]; [done|..];
    by destruct (parseConnectionUrl url).
Qed.

(** Whatever URL the validator accepts, the factory makes the adapter of the
    kind the validator names, with or without capital letters in the protocol; the
    one thing it may still refuse is a port that is no int. *)
Theorem accepted_url_opens getenv url :
  vr_is_valid (validate url) = true -> opens_as (vr_adapter_type (validate url)) (createFromUrl getenv url).
Proof.
  intros Hv. unfold createFromUrl. assert (is_empty url = false) as Hne by (unfold validate in Hv; by destruct (is_empty url)).
  assert (hasValidFormat url = true) as Hf by (unfold validate in Hv; rewrite Hne in Hv; by destruct (hasValidFormat url)).
  rewrite Hne, Hf. unfold hasValidFormat in Hf. destruct (find_protocol url) as [pos|] eqn:Hpos; [|done].
  set (proto := string_take pos url). assert (extractProtocol url = to_lower proto) as Hx by (unfold extractProtocol; by rewrite Hpos).
  assert (to_lower proto ∈ ["sqlite"; "postgres"; "postgresql"; "mysql"] /\
    vr_adapter_type (validate url) = if String.eqb (to_lower proto) "postgresql" then "postgres" else to_lower proto) as [Hin Ht].
  { unfold validate in Hv |- *. unfold hasValidFormat in Hv |- *. rewrite Hne, Hpos in Hv |- *. cbn [negb] in Hv |- *. rewrite Hx in Hv |- *.
    destruct (String.eqb_spec (to_lower proto) "sqlite") as [->|].
    { split; [set_solver|]. unfold validateSQLite in *. rewrite Hpos in *. by repeat case_match. }
    destruct (String.eqb_spec (to_lower proto) "postgresql") as [->|]; cbn [orb] in *.
    { split; [set_solver|]. unfold validatePostgreSQL in *. by case_match. }
    destruct (String.eqb_spec (to_lower proto) "postgres") as [->|]; cbn [orb] in *.
    { split; [set_solver|]. unfold validatePostgreSQL in *. by case_match. }
    destruct (String.eqb_spec (to_lower proto) "mysql") as [->|]; [|done].
    split; [set_solver|]. unfold validateMySQL in *. by case_match. }
  rewrite Ht. unfold extractAdapterType. rewrite Hpos. fold proto. cbn [mbind Result_bind negb].
  destruct (String.eqb_spec proto "postgresql") as [->|Hpg].
  { apply (create_type_opens "postgres"); [by eexists|set_solver]. }
  assert (forall other, to_lower other ∉ ["sqlite"; "postgres"; "postgresql"; "mysql"] -> String.eqb proto other = false) as Hno.
  { intros other Ho. apply String.eqb_neq. intros ->. done. }
  rewrite (Hno "mongodb+srv"), (Hno "elasticsearch"), (Hno "es"), (Hno "surrealdb"), (Hno "surreal") by (cbn; set_solver).
  apply create_type_opens; [by eexists|done].
Qed.

(** ** The client the server holds *)

Section Runs.
Context {W : Type} (getenv : Environment) (what : Exn -> string).
Context (open_adapter : AdapterChoice -> Op W unit) (open_search : SearchConfig -> bool) (open_redis : string -> bool).
Let ensure := ensureClient getenv open_adapter open_search open_redis.
Let switch := switchAdapter getenv open_adapter open_search open_redis.
Let test := testConnection getenv what open_adapter open_search open_redis.
Let make := newClient getenv open_adapter open_search open_redis.

(** A client as its constructor leaves it. *)
Definition well_made (config : ClientConfig) (c : DbalClient) : Prop :=
  cl_config c = config /\ ClientConfigManager_validate config = Ok tt /\
  createFromUrl getenv (cc_database_url config) = Ok (cl_adapter c).

Lemma make_well config w c w' : make config w = (Ok c, w') -> well_made config c.
Proof.
  unfold make, newClient. intros H. unfold mbind, Op_bind, of_result in H.
  destruct (ClientConfigManager_validate config) as [[]| | |] eqn:Hv; try done.
  destruct (createFromUrl _ _) as [a| | |] eqn:Ha; try done. destruct (open_adapter a w) as [[]]; try done.
  injection H as <- <-. done.
Qed.
(** Neither an error value nor undefined behaviour. *)
Lemma make_calm config w : (forall a w, calm (open_adapter a w).1) -> calm (make config w).1.
Proof.
  intros Ho. unfold make, newClient, mbind, Op_bind, of_result. pose proof (calm_config config) as Hc.
  destruct (ClientConfigManager_validate config) as [[]| | |]; try done.
  pose proof (calm_create getenv (cc_database_url config)) as Hu. destruct (createFromUrl _ _) as [a| | |]; try done.
  specialize (Ho a w). by destruct (open_adapter a w) as [[] ?].
Qed.

(** What may happen to a server: requests that need the client, the routes of the
    administrator, the start of the services. *)
Inductive server_step : Server (W := W) -> Server (W := W) -> Prop :=
  | step_ensure s : server_step s (ensure s).2
  | step_switch adapter url s : server_step s (switch adapter url s).2
  | step_test adapter url s : server_step s (test adapter url s).2
  | step_services loads s : server_step s (start_services getenv open_adapter open_search open_redis loads s).2.

Definition client_ok (s : Server (W := W)) : Prop := forall n c, sv_client s = Some (n, c) -> well_made (sv_config s) c.

Lemma ensure_ok : preserves client_ok ensure.
Proof.
  intros s Hs. unfold ensure, ensureClient. unfold mbind at 1, Op_bind at 1, gets. destruct (sv_client s) as [[n c]|] eqn:Hc; [done|].
  unfold or_false, mbind, Op_bind, gets, new_client, modify. pose proof (make_well (sv_config s) (sv_world s)) as Hm. unfold make in Hm.
  destruct (newClient _ _ _ _ (sv_config s) (sv_world s)) as [[c|e|x|] w']; try (intros n' c' H'; cbn in H'; by rewrite Hc in H').
  intros n' c' H'. cbn in H'. injection H' as <- <-. by apply (Hm c w').
Qed.

(** Switching the database at run time is all or nothing.  When switchAdapter
    answers true, the active configuration is the one that was asked for and the
    server holds a client made for it; when it answers false, configuration,
    client and services are what they were, so the old database stays in use. *)
Theorem switch_adapter_spec adapter url s :
  (forall a w, calm (open_adapter a w).1) ->
  let '(r, s') := switchAdapter getenv open_adapter open_search open_redis adapter url s in
  sv_services s' = sv_services s /\
  ((r = Ok true /\ getActiveConfig s' = (adapter, url) /\ sv_config s' = requested_config adapter url (sv_config s) /\
    exists n c, sv_client s' = Some (n, c) /\ well_made (sv_config s') c) \/
   (r = Ok false /\ sv_config s' = sv_config s /\ sv_client s' = sv_client s)).
Proof.
  intros Ho. unfold switchAdapter, or_false, mbind, Op_bind, gets, new_client, modify.
  set (config := requested_config adapter url (sv_config s)).
  pose proof (make_well config (sv_world s)) as Hm. pose proof (make_calm config (sv_world s) Ho) as Hc. unfold make in *.
  destruct (newClient _ _ _ _ config (sv_world s)) as [[c|e|x|] w']; try done.
  - split; [done|]. left. split_and!; [done..|]. exists (sv_made s), c. split; [done|]. by apply (Hm c w').
  - split; [done|]. by right.
Qed.

Lemma switch_ok adapter url : preserves client_ok (switch adapter url).
Proof.
  intros s Hs. unfold switch, switchAdapter, or_false, mbind, Op_bind, gets, new_client, modify.
  set (config := requested_config adapter url (sv_config s)). pose proof (make_well config (sv_world s)) as Hm. unfold make in Hm.
  destruct (newClient _ _ _ _ config (sv_world s)) as [[c|e|x|] w']; try exact Hs.
  intros n' c' H'. cbn in H'. injection H' as <- <-. by apply (Hm c w').
Qed.
Lemma test_ok adapter url : preserves client_ok (test adapter url).
Proof.
  intros s Hs. unfold test, testConnection, new_client. by destruct (newClient _ _ _ _ _ _) as [[] ?].
Qed.
Lemma service_ok name enabled loads : preserves client_ok (start_service getenv open_adapter open_search open_redis name enabled loads).
Proof.
  unfold start_service. destruct (negb enabled); [by apply pure_preserves|]. apply preserves_bind; [apply ensure_ok|intros up].
  destruct (_ || _); [by apply pure_preserves|]. by intros s Hs.
Qed.

(** C19. The server answers from the database it says it does.  Whatever requests,
    switches, connection tests and service starts it has been through, the client
    it holds, if any, was made for the configuration it reports, this
    configuration passed validation, and the client's adapter is the one its URL
    names. *)
Theorem client_matches_config config w s :
  rtc server_step (start_server config w) s ->
  forall n c, sv_client s = Some (n, c) ->
    cl_config c = sv_config s /\ ClientConfigManager_validate (sv_config s) = Ok tt /\
    createFromUrl getenv (cc_database_url (sv_config s)) = Ok (cl_adapter c).
Proof.
  intros Hrun. enough (client_ok s) as H by exact H. assert (client_ok (start_server config w)) as H0 by done.
  induction Hrun as [|s1 s2 s3 Hstep _ IH]; [done|]. apply IH. destruct Hstep.
  - by apply ensure_ok.
  - by apply switch_ok.
  - by apply test_ok.
  - unfold start_services. revert H0. apply (preserves_bind client_ok); [apply service_ok|intros _].
    apply preserves_bind; [apply service_ok|intros _; apply service_ok].
Qed.
End Runs.

(** ** Runs *)

Definition no_env : Environment := fun _ => None.
Definition demo_env : Environment := fun name =>
  if String.eqb name "DBAL_OIDC_ISSUER" then Some "https://id.example"
  else if String.eqb name "DBAL_CACHE_URL" then Some "redis://cache:6379?ttl=60" else None.
(** A world that keeps the adapters opened; there is no server at the host "down". *)
Definition open_demo (a : AdapterChoice) : Op (list AdapterChoice) unit := fun w =>
  match a with
  | PostgresAdapter c =>
      if String.eqb (sq_host c) "down" then (Throw (runtime_error "cannot connect"), w) else (Ok tt, a :: w)
  | _ => (Ok tt, a :: w)
  end.
Definition demo_what (x : Exn) : string := match x with runtime_error m | bad_argument m => m | _ => "" end.
Definition demo_start (getenv : Environment) (config : ClientConfig) := start_server config ([] : list AdapterChoice).
Definition demo_switch (getenv : Environment) := switchAdapter getenv open_demo (fun _ => true) (fun _ => true).
Definition demo_ensure (getenv : Environment) := ensureClient getenv open_demo (fun _ => true) (fun _ => true).
Definition demo_services (getenv : Environment) := start_services getenv open_demo (fun _ => true) (fun _ => true) (fun _ => true).

Definition sqlite_config : ClientConfig := mkClientConfig "production" "sqlite" "" "sqlite://dbal.db" true.
Definition serving : Server (W := list AdapterChoice) := (demo_services demo_env (demo_start demo_env sqlite_config)).2.

Example starting : exists c, sv_client serving = Some (0, c) /\ cl_adapter c = SQLiteAdapter "dbal.db" /\
  cl_layers c = [CacheLayer 60] /\ sv_services serving = [("oidc", 0)].
Proof. eexists. vm_compute. repeat split. Qed.

Definition pg_url : string := "postgres://dbal:s3cret@db:5432/main?sslmode=require".
Definition pg_config : SqlConnectionConfig := mkSqlConfig "db" 5432 "main" "dbal" "s3cret" "sslmode=require".
Lemma connection_url_parsed_witness : pg_url = connection_url "postgres" pg_config /\ parseConnectionUrl pg_url = Ok pg_config.
Proof.
  split; [reflexivity|]. change pg_url with (connection_url "postgres" pg_config).
  apply connection_url_parsed; try (unfold without; repeat constructor; reflexivity). split; vm_compute; discriminate.
Defined.

Lemma accepted_url_opens_witness :
  vr_is_valid (validate pg_url) = true /\ opens_as "postgres" (createFromUrl no_env pg_url).
Proof.
  assert (vr_is_valid (validate pg_url) = true) as Hv by (vm_compute; reflexivity).
  split; [exact Hv|]. exact (accepted_url_opens no_env pg_url Hv).
Defined.

Definition switched := demo_switch demo_env "postgres" pg_url serving.
Lemma open_demo_calm a w : calm (open_demo a w).1.
Proof. destruct a; cbn; repeat case_match; exact I. Qed.
Lemma switch_adapter_spec_witness :
  switched.1 = Ok true /\ getActiveConfig switched.2 = ("postgres", pg_url) /\
  (demo_switch demo_env "postgres" "postgres://down/x" serving).1 = Ok false /\
  sv_client (demo_switch demo_env "postgres" "postgres://down/x" serving).2 = sv_client serving.
Proof.
  assert (switched.1 = Ok true) as Hon by (vm_compute; reflexivity).
  assert ((demo_switch demo_env "postgres" "postgres://down/x" serving).1 = Ok false) as Hoff by (vm_compute; reflexivity).
  pose proof (switch_adapter_spec demo_env open_demo (fun _ => true) (fun _ => true) "postgres" pg_url serving (fun a w => open_demo_calm a w)) as H1.
  pose proof (switch_adapter_spec demo_env open_demo (fun _ => true) (fun _ => true) "postgres" "postgres://down/x" serving (fun a w => open_demo_calm a w)) as H2.
  unfold switched, demo_switch in *.
  destruct (switchAdapter _ _ _ _ "postgres" pg_url serving) as [r1 s1]. destruct (switchAdapter _ _ _ _ "postgres" "postgres://down/x" serving) as [r2 s2].
  cbn [fst snd] in *. subst r1 r2. destruct H1 as [_ [(_ & Ha & _)|(Hc & _)]]; [|discriminate Hc].
  destruct H2 as [_ [(Hc & _)|(_ & _ & Hb)]]; [discriminate Hc|]. repeat split; assumption.
Defined.

Lemma client_matches_config_witness :
  exists c, sv_client switched.2 = Some (1, c) /\ cl_config c = sv_config switched.2 /\ cl_adapter c = PostgresAdapter pg_config.
Proof.
  assert (rtc (server_step demo_env demo_what open_demo (fun _ => true) (fun _ => true)) (start_server sqlite_config []) switched.2) as Hrun.
  { eapply rtc_l; [apply (step_services demo_env demo_what open_demo (fun _ => true) (fun _ => true) (fun _ => true))|].
    eapply rtc_l; [apply (step_switch demo_env demo_what open_demo (fun _ => true) (fun _ => true) "postgres" pg_url)|apply rtc_refl]. }
  destruct (sv_client switched.2) as [[n c]|] eqn:Hc; [|vm_compute in Hc; discriminate Hc].
  destruct (client_matches_config demo_env demo_what open_demo (fun _ => true) (fun _ => true) sqlite_config [] switched.2 Hrun n c Hc)
    as (Hconf & _ & Had). exists c. vm_compute in Hc. injection Hc as <- <-. split; [reflexivity|]. split; [exact Hconf|reflexivity].
Defined.

(** The services started before a switch refer to a client that is gone. *)
Example switch_leaves_services : sv_services switched.2 = [("oidc", 0)] /\ (fst <$> sv_client switched.2) = Some 1.
Proof. vm_compute. split; reflexivity. Qed.

(** Without a database in the environment the daemon's own default is refused. *)
Example default_database_refused :
  ClientConfigManager_validate (createClientConfig no_env default_daemon) =
    Throw (bad_argument "Invalid database URL: Invalid URL format. Expected: protocol://...").
Proof. vm_compute. reflexivity. Qed.

(** An adapter the factory makes and calls supported is refused by the validator. *)
Example mongodb_refused :
  isSupported "mongodb" = true /\ createFromUrl no_env "mongodb://h/db" = Ok (MongoDBAdapter "mongodb://h/db" "db") /\
  ClientConfigManager_validate (mkClientConfig "" "mongodb" "" "mongodb://h/db" true) =
    Throw (bad_argument "Invalid database URL: Unsupported database protocol: mongodb").
Proof. vm_compute. repeat split. Qed.

(** An at sign in the options is taken for the end of the credentials. *)
Example at_sign_in_options :
  vr_is_valid (validate "postgres://h:5432/db?application_name=a@b") = true /\
  parseConnectionUrl "postgres://h:5432/db?application_name=a@b" =
    Ok (mkSqlConfig "b" 0 "" "h" "5432/db?application_name=a" "").
Proof. vm_compute. repeat split. Qed.
