(* ===== verification/Secrets.v ===== *)
(** * Secrets that can be read back

    Models src/security/crypto/reversible_crypto.cpp and src/client_secret_ops.cpp:
    a secret is sealed with AES-256-GCM under a key derived from the environment
    and kept in a row of the entity EncryptedSecret, whose identifier is all a
    caller gets.  The cipher and the key derivation are a library, the class
    [Gcm]; [SecretTable] is what the round trip assumes of the database. *)

From S2P Require Import Prelude CxxString CxxStd Store Json EntityHost Adapter.

Open Scope string_scope.

(** ** Sealing *)

(** The library: a body as long as the text with a tag of 16 bytes, which the same
    key and nonce open. *)
Class Gcm := {
  pbkdf2_hmac_sha256 : forall (password salt : string) (iterations keylen : Z), string;
  gcm_encrypt : forall key nonce plaintext : string, string * string;
  gcm_decrypt : forall key nonce body tag : string, option string;
  gcm_lengths : forall key nonce p,
    String.length (gcm_encrypt key nonce p).1 = String.length p /\ String.length (gcm_encrypt key nonce p).2 = 16;
  gcm_opens : forall key nonce p, gcm_decrypt key nonce (gcm_encrypt key nonce p).1 (gcm_encrypt key nonce p).2 = Some p;
}.

Record SealedSecret := mkSealed { se_ciphertext : string; se_nonce : string }.

Definition kTagLen : nat := 16.
Definition kKeyLen : Z := 32.
Definition kSaltInfo : string := "dbal-encrypted-secret-v1".

Section Crypto.
Context {gcm : Gcm} (getenv : string -> option string).

Definition getRequired (name : string) : Result string :=
  match getenv name with
  | Some value =>
      if is_empty value then Throw (runtime_error ("Required environment variable not set: " +:+ name)) else Ok value
  | None => Throw (runtime_error ("Required environment variable not set: " +:+ name))
  end.

Definition masterKey : Result string :=
  password ← getRequired "DBAL_SECRET_ENCRYPTION_KEY";
  Ok (pbkdf2_hmac_sha256 password kSaltInfo 600000 kKeyLen).

(** [nonce] is the random nonce drawn; lengths are passed to the library as [int]. *)
Definition seal_secret (nonce plaintext : string) : Result SealedSecret :=
  key ← masterKey;
  if negb (in_int (size plaintext)) then Undef
  else let '(body, tag) := gcm_encrypt key nonce plaintext in Ok (mkSealed (body +:+ tag) nonce).

Definition open_secret (sealed : SealedSecret) : Result string :=
  let ciphertext := se_ciphertext sealed in
  if negb (in_int (size ciphertext)) then Undef
  else if (String.length ciphertext <? kTagLen)%nat then Throw (runtime_error "ciphertext too short")
  else
    let bodyLen := (String.length ciphertext - kTagLen)%nat in
    key ← masterKey;
    match gcm_decrypt key (se_nonce sealed) (string_take bodyLen ciphertext) (string_drop bodyLen ciphertext) with
    | Some out => Ok out
    | None => Throw (runtime_error "GCM authentication failed (tampered data or wrong key)")
    end.

(** ** The operations of the client *)

Context {W : Type} `{!Adapter W} (what : Exn -> string).

(** [try { ... } catch (const std::exception& e)] *)
Definition or_internal {A} (prefix : string) (r : Result A) : Op W A :=
  match r with Throw x => fail (internal (prefix +:+ what x)) | r => of_result r end.

Definition createEncryptedSecret (nonce tenantId plaintext : string) : Op W string :=
  reject_if (is_empty plaintext) (validationError "plaintext is required");;
  sealed ← or_internal "encryption failed: " (seal_secret nonce plaintext);
  row ← do_create "EncryptedSecret" (object (
    [("ciphertext", JString (se_ciphertext sealed)); ("nonce", JString (se_nonce sealed))] ++
    (if negb (is_empty tenantId) then [("tenantId", JString tenantId)] else [])));
  of_result (value_string row "id" "").

Definition read_secret (id : string) : Op W json := fun w =>
  match do_readIncludingSensitive "EncryptedSecret" id w with
  | (Err _, w') => (Err (notFound "Secret not found"), w')
  | r => r
  end.

Definition revealEncryptedSecret (id : string) : Op W string :=
  row ← read_secret id;
  ciphertext ← of_result (value_string row "ciphertext" "");
  nonce ← of_result (value_string row "nonce" "");
  reject_if (is_empty ciphertext || is_empty nonce) (internal "Secret record is missing ciphertext/nonce");;
  or_internal "decryption failed: " (open_secret (mkSealed ciphertext nonce)).
End Crypto.

(** ** What the database promises *)

(** The rows of EncryptedSecret: a row that is created can be read, with the
    columns it was given. *)
Class SecretTable (W : Type) `{Adapter W} := {
  secrets : W -> table;
  secret_create : forall w data,
    match do_create "EncryptedSecret" (JObject data) w with
    | (Ok row, w') => exists id m, value_string row "id" "" = Ok id /\ secrets w' !! id = Some m /\
        forall k v, k <> "id" -> obj_get k data = Some v -> obj_get k m = Some v
    | (Err _, w') => secrets w' = secrets w
    | _ => False
    end;
  secret_read : forall w id,
    match do_readIncludingSensitive "EncryptedSecret" id w with
    | (Ok row, w') => secrets w' = secrets w /\ exists m, secrets w !! id = Some m /\ row = JObject m
    | (Err _, w') => secrets w' = secrets w /\ secrets w !! id = None
    | _ => False
    end;
}.

Section RoundTrip.
Context {gcm : Gcm} {W : Type} `{!Adapter W} `{!SecretTable W} (getenv : string -> option string) (what : Exn -> string).

(** What was sealed is opened again. *)
Lemma seal_open nonce p sealed :
  (size p <= INT_MAX - 16)%Z -> seal_secret getenv nonce p = Ok sealed ->
  open_secret getenv sealed = Ok p /\ se_nonce sealed = nonce /\ se_ciphertext sealed <> "".
Proof.
  intros Hs. unfold seal_secret, open_secret, mbind, Result_bind. destruct (masterKey getenv) as [key| | |]; try done.
  destruct (negb (in_int (size p))); [done|]. pose proof (gcm_lengths key nonce p) as [Hb Ht]. pose proof (gcm_opens key nonce p) as Ho.
  destruct (gcm_encrypt key nonce p) as [body tag]. cbn [fst snd] in *. intros [= <-]. cbn [se_ciphertext se_nonce].
  assert (in_int (size (body +:+ tag)) = true) as ->.
  { apply in_int_spec. unfold size in *. rewrite string_length_app. unfold INT_MIN, INT_MAX in *. lia. }
  cbn [negb]. rewrite string_length_app, Ht, Hb. unfold kTagLen. rewrite (proj2 (Nat.ltb_ge _ _)) by lia.
  rewrite Nat.add_sub, <- Hb, string_take_app, string_drop_app, Ho. split_and!; [done..|].
  destruct body; [|done]. intros E. rewrite string_app_nil_l in E. by subst tag.
Qed.

(** A secret that is stored can be revealed by its identifier, as long as its
    row is in the table, and what is revealed is the secret: whatever its bytes,
    the tenant and the nonce drawn, up to the length the library can be told. *)
Theorem secret_roundtrip nonce tenant p w id w' w'' :
  nonce <> "" -> (size p <= INT_MAX - 16)%Z ->
  createEncryptedSecret getenv what nonce tenant p w = (Ok id, w') ->
  secrets w'' !! id = secrets w' !! id ->
  (revealEncryptedSecret getenv what id w'').1 = Ok p.
Proof.
  intros Hn Hs Hc Hrow. unfold createEncryptedSecret in Hc. run_steps Hc. unfold or_internal in *.
  destruct (seal_secret getenv nonce p) as [sealed|er|ex|] eqn:Hseal; try done.
  destruct (seal_open _ _ _ Hs Hseal) as (Hopen & Hnonce & Hne).
  match goal with H : of_result (Ok sealed) _ = _ |- _ => injection H as <- <- end.
  match goal with H : do_create _ _ ?w1 = (Ok ?row, ?w2) |- _ => rename H into Hcreate end.
  unfold object in Hcreate. set (data := build _) in Hcreate.
  match type of Hcreate with do_create _ _ ?w1 = _ => pose proof (secret_create w1 data) as Hlaw end. rewrite Hcreate in Hlaw.
  destruct Hlaw as (id' & m & Hid & Hm & Hdata). unfold of_result in Hc. rewrite Hid in Hc. injection Hc as -> ->.
  assert (obj_get "ciphertext" m = Some (JString (se_ciphertext sealed)) /\ obj_get "nonce" m = Some (JString (se_nonce sealed))) as [Hct Hno].
  { split; apply Hdata; try done; unfold data; rewrite obj_get_build; by destruct (negb (is_empty tenant)). }
  unfold revealEncryptedSecret, read_secret. unfold mbind at 1, Op_bind at 1. pose proof (secret_read w'' id) as Hread.
  rewrite Hrow, Hm in Hread. destruct (do_readIncludingSensitive _ id w'') as [[row'|e|x|] w3]; try done; [|by destruct Hread].
  destruct Hread as (_ & m' & [= <-] & ->). unfold value_string. rewrite Hct, Hno.
  unfold of_result, mbind, Op_bind, reject_if, or_internal. apply is_empty_false in Hne as ->.
  rewrite Hnonce. apply is_empty_false in Hn as ->. cbn [orb]. destruct sealed as [ct no]. cbn [se_ciphertext se_nonce] in *.
  by rewrite <- Hnonce, Hopen.
Qed.
End RoundTrip.

(** ** A run *)

(** A cipher that hides nothing. *)
#[program] Definition plain_gcm : Gcm := {|
  pbkdf2_hmac_sha256 password _ _ _ := password;
  gcm_encrypt _ _ p := (p, zeros 16);
  gcm_decrypt _ _ body _ := Some body;
|}.
Next Obligation. intros key nonce p. cbn. done. Qed.
Next Obligation. done. Qed.

(** Tables that pass every text they store through [keep]. *)
Definition kept_text (keep : string -> string) (kv : string * json) : string * json :=
  match kv with (k, JString s) => (k, JString (keep s)) | kv => kv end.
Definition secret_adapter (keep : string -> string) : Adapter TableDb := {|
  do_create e data := fun db =>
    match data with
    | JObject d =>
        let id := fresh_id (table_of db e) in
        let m := obj_set "id" (JString id) (map (kept_text keep) d) in
        (Ok (JObject m), <[e := <[id := m]> (table_of db e)]> db)
    | _ => (Err (validationError "not an object"), db)
    end;
  do_readIncludingSensitive e id := fun db =>
    match table_of db e !! id with Some m => (Ok (JObject m), db) | None => (Err (notFound id), db) end;
  do_read _ _ := unsupported; do_update _ _ _ := unsupported; do_list _ _ := unsupported;
  do_remove _ _ := unsupported; do_upsert _ _ _ _ _ := unsupported;
  do_createMany _ _ := unsupported; do_updateMany _ _ _ := unsupported; do_deleteMany _ _ := unsupported;
  do_search := default_search; do_findFirst _ _ := unsupported; do_findByField _ _ _ := unsupported;
  do_getAvailableEntities := unsupported; do_getEntitySchema _ := unsupported;
  do_close := mret tt; supportsNativeTransactions := false;
  do_beginTransaction := default_transaction; do_commitTransaction := default_transaction;
  do_rollbackTransaction := default_transaction;
|}.

Lemma kept_text_id d : map (kept_text (fun s => s)) d = d.
Proof. induction d as [|[k []] d IH]; cbn; by rewrite ?IH. Qed.

#[program] Definition secret_laws : @SecretTable TableDb (secret_adapter (fun s => s)) := {|
  secrets db := table_of db "EncryptedSecret" |}.
Next Obligation.
  intros db data. cbn. rewrite kept_text_id. set (id := fresh_id (table_of db "EncryptedSecret")).
  exists id, (obj_set "id" (JString id) data). split; [by rewrite obj_get_set|]. split.
  - by rewrite table_of_insert, decide_True, lookup_insert_eq.
  - intros k v Hk Hv. rewrite obj_get_set. by destruct (String.eqb_spec k "id").
Qed.
Next Obligation.
  intros db id. cbn. destruct (table_of db "EncryptedSecret" !! id) as [m|] eqn:Hm; [|done]. eauto.
Qed.

Definition key_env : string -> option string := fun name => if String.eqb name "DBAL_SECRET_ENCRYPTION_KEY" then Some "k" else None.
Definition secret_what (x : Exn) : string := match x with runtime_error m => m | _ => "" end.
Definition store_secret (keep : string -> string) (p : string) : Result string * TableDb :=
  createEncryptedSecret (gcm := plain_gcm) (Adapter0 := secret_adapter keep) key_env secret_what "nonce" "acme" p ∅.
Definition reveal_secret (keep : string -> string) (p : string) : Result string :=
  match store_secret keep p with
  | (Ok id, w) => (revealEncryptedSecret (gcm := plain_gcm) (Adapter0 := secret_adapter keep) key_env secret_what id w).1
  | (r, _) => r
  end.

Lemma secret_roundtrip_witness :
  (store_secret (fun s => s) "pass").1 = Ok "0" /\
  (revealEncryptedSecret (gcm := plain_gcm) (Adapter0 := secret_adapter (fun s => s)) key_env secret_what "0"
    (store_secret (fun s => s) "pass").2).1 = Ok "pass".
Proof.
  assert ((store_secret (fun s => s) "pass").1 = Ok "0") as Hok by (vm_compute; reflexivity).
  split; [exact Hok|].
  apply (secret_roundtrip (gcm := plain_gcm) (SecretTable0 := secret_laws) key_env secret_what "nonce" "acme" "pass" ∅ "0"
    (store_secret (fun s => s) "pass").2); [discriminate|vm_compute; discriminate| |reflexivity].
  unfold store_secret in *. destruct (createEncryptedSecret _ _ _ _ _ _) as [r w]. cbn [fst snd] in *. by rewrite Hok.
Defined.

(** A database that stores texts up to their first null byte loses secrets: the
    ciphertext is bytes, not text. *)
Example null_byte_loses_the_secret :
  reveal_secret c_str "pass" = Ok "pass" /\
  reveal_secret c_str (String "a" (String "000" "bcdefghijklmnopqrst")) =
    Err (internal "decryption failed: ciphertext too short").
Proof. vm_compute. split; reflexivity. Qed.
