(* ===== verification/RpcRoutes.v ===== *)
(** * Remote calls on users

    Models src/daemon/handlers/rpc_route_handler.cpp, rpc_user_actions.cpp,
    server_helpers/serialization.cpp and role.cpp, and the registration of
    POST /api/dbal in server_routes.cpp: a body names an action on users and a
    tenant, over the client's user operations (Credentials.v) and the server
    (Connections.v, AdminRoutes.v).  [UserTable] is what the theorem assumes of the
    database.  The theorem says that a call stays in the tenant it names; the run
    at the end that nobody checks who is calling. *)

From S2P Require Import Prelude CxxString CxxStd Store Json EntityHost Adapter Limits BulkRoutes Credentials Connections AdminRoutes.

Open Scope string_scope.

(** ** Users as answers (serialization.cpp, role.cpp) *)

Definition normalize_role (role : string) : string :=
  let value := to_lower role in
  if String.eqb value "admin" || String.eqb value "god" || String.eqb value "supergod" ||
     String.eqb value "moderator" || String.eqb value "public" then value else "user".

Definition user_to_json (user : User) : json := object (
  [("id", JString (user_id user)); ("tenantId", JString (default "" (user_tenantId user)));
   ("username", JString (user_username user)); ("email", JString (user_email user)); ("role", JString (user_role user))] ++
  if_set "createdAt" ms_json (user_createdAt user) ++ if_set "profilePicture" JString (user_profilePicture user) ++
  if_set "bio" JString (user_bio user) ++ [("isInstanceOwner", JBool (default false (user_isInstanceOwner user)))] ++
  if_set "passwordChangeTimestamp" ms_json (user_passwordChangeTimestamp user) ++
  [("firstLogin", JBool (default false (user_firstLogin user)))])%list.
Definition users_to_json (users : list User) : json := JArray (user_to_json <$> users).
Definition list_response_value (users : list User) (options : ListOptions) : json := object
  [("data", users_to_json users); ("total", JInt (Z.of_nat (length users))); ("page", JInt (opt_page options));
   ("limit", JInt (opt_limit options)); ("hasMore", JBool false)].

(** [v.isInt()] and [v.asInt()]: a double counts when it is a whole number. *)
Definition is_whole (f : SpecFloat.spec_float) : bool :=
  match f with
  | SpecFloat.S754_zero _ => true
  | SpecFloat.S754_finite _ m e => (0 <=? e)%Z || (Z.shiftl (Z.shiftr (Zpos m) (- e)) (- e) =? Zpos m)%Z
  | _ => false
  end.
Definition int_value (v : json) : option Z :=
  match v with
  | JInt z => if in_int z then Some z else None
  | JFloat f => if is_whole f then z ← float_trunc f; if in_int z then Some z else None else None
  | _ => None
  end.

Section Actions.
Context {W : Type} `{!Adapter W} (real_text : SpecFloat.spec_float -> string).

Fixpoint texts_of (m : members) : Result (gmap string string) :=
  match m with
  | [] => Ok ∅
  | (k, v) :: m => s ← as_string real_text v; rest ← texts_of m; Ok (<[k := s]> rest)
  end.
Definition texts_member (m : members) (k : string) : Result (gmap string string) :=
  match obj_get k m with Some (JObject texts) => texts_of texts | _ => Ok ∅ end.
Definition list_options_from_json (json : json) : Result ListOptions :=
  match json with
  | JNull => Ok (mkListOptions ∅ ∅ 1 20)
  | JObject m =>
      filter ← texts_member m "filter"; sort ← texts_member m "sort";
      Ok (mkListOptions filter sort (default 1%Z (obj_get "page" m ≫= int_value)) (default 20%Z (obj_get "limit" m ≫= int_value)))
  | _ => Throw (runtime_error "Json::Value::find: requires objectValue or nullValue")
  end.

(** ** Actions (rpc_user_actions.cpp) *)

Definition send_error (message : string) (status : Z) : AdminResponse :=
  newHttpJsonResponse status (object [("success", JBool false); ("message", JString message)]).
Definition send_success (data : json) : AdminResponse := build_json_response (object [("success", JBool true); ("data", data)]).

(** [if (!result.isOk()) { send_error(...); return; }] *)
Definition or_send_error {A} (m : Op W A) (k : A -> Op W AdminResponse) : Op W AdminResponse := fun w =>
  match m w with
  | (Ok a, w') => k a w'
  | (Err e, w') => (Ok (send_error (message e) (http_status (code e))), w')
  | (r, w') => (recast r, w')
  end.
(** The user, when it is one of the tenant's. *)
Definition with_user (tenantId id no_id : string) (k : User -> Op W AdminResponse) : Op W AdminResponse :=
  if is_empty tenantId then mret (send_error "Tenant ID is required" 400)
  else if is_empty id then mret (send_error no_id 400)
  else or_send_error (getUser id) (fun user =>
    if bool_decide (user_tenantId user = Some tenantId) then k user else mret (send_error "User not found" 404)).

Definition handle_user_list (tenantId : string) (options : json) : Op W AdminResponse :=
  if is_empty tenantId then mret (send_error "Tenant ID is required" 400)
  else
    read ← of_result (list_options_from_json options);
    let list_options := mkListOptions (<["tenantId" := tenantId]> (opt_filter read)) (opt_sort read) (opt_page read) (opt_limit read) in
    or_send_error (listUsers list_options) (fun users => mret (send_success (list_response_value users list_options))).

Definition handle_user_read (tenantId id : string) : Op W AdminResponse :=
  with_user tenantId id "ID is required for read operations" (fun user => mret (send_success (user_to_json user))).

Definition role_of (payload : json) : option string := normalize_role <$> string_member payload "role".
Definition handle_user_create (tenantId : string) (payload : json) : Op W AdminResponse :=
  if is_empty tenantId then mret (send_error "Tenant ID is required" 400)
  else
    username ← of_result (text_of real_text payload "username"); email ← of_result (text_of real_text payload "email");
    if is_empty username || is_empty email then mret (send_error "Username and email are required for creation" 400)
    else or_send_error (createUser (mkCreateUser username email (default "" (role_of payload)) None None None (Some tenantId) None None None))
      (fun user => mret (send_success (user_to_json user))).

Definition requested_update (payload : json) : UpdateUserInput :=
  mkUpdateUser (string_member payload "username") (string_member payload "email") (role_of payload) None None None None None None.
Definition has_updates (u : UpdateUserInput) : bool :=
  bool_decide (is_Some (uu_username u)) || bool_decide (is_Some (uu_email u)) || bool_decide (is_Some (uu_role u)).
Definition handle_user_update (tenantId id : string) (payload : json) : Op W AdminResponse :=
  with_user tenantId id "ID is required for updates" (fun _ =>
    let updates := requested_update payload in
    if negb (has_updates updates) then mret (send_error "At least one update field must be provided" 400)
    else or_send_error (updateUser id updates) (fun user => mret (send_success (user_to_json user)))).

Definition handle_user_delete (tenantId id : string) : Op W AdminResponse :=
  with_user tenantId id "ID is required for delete operations" (fun _ =>
    or_send_error (deleteUser id) (fun deleted => mret (send_success (object [("deleted", JBool deleted)])))).

(** ** Calls (rpc_route_handler.cpp) *)

(** [rq_json] is the body, or what is wrong with it; [rq_size] its length in bytes. *)
Record RpcRequest := mkRpc { rq_peer : string; rq_size : Z; rq_json : string + json }.

(** [v.get(k1, v'.get(k2, def)).asString()] *)
Definition text_or (v : json) (key : string) (v' : json) (key' : string) : Result string :=
  def ← jget v' key' (JString ""); x ← jget v key def; as_string real_text x.
Definition rpc_tenant (rpc_request : json) : Result string :=
  payload ← jget rpc_request "payload" (JObject []); text_or rpc_request "tenantId" payload "tenantId".

Definition user_action (action tenantId : string) (payload options : json) : Op W AdminResponse :=
  if String.eqb action "list" then handle_user_list tenantId options
  else
    id ← of_result (text_of real_text payload "id");
    let reading := String.eqb action "get" || String.eqb action "read" in
    if reading && is_empty id then mret (send_error "ID is required for read operations" 400)
    else if reading then handle_user_read tenantId id
    else if String.eqb action "create" then handle_user_create tenantId payload
    else if String.eqb action "update" then handle_user_update tenantId id payload
    else if String.eqb action "delete" || String.eqb action "remove" then handle_user_delete tenantId id
    else mret (send_error ("Unsupported action: " +:+ action) 400).

Definition handleRpc (request : RpcRequest) : Op W AdminResponse :=
  if (10 * 1024 * 1024 <? rq_size request)%Z then mret (refusal 413 "Request body too large")
  else match rq_json request with
  | inl errs => mret (send_error ("Invalid JSON payload: " +:+ errs) 400)
  | inr rpc_request =>
      entity ← of_result (text_of real_text rpc_request "entity");
      action ← of_result (text_or rpc_request "action" rpc_request "method");
      if is_empty entity || is_empty action then mret (send_error "Both entity and action are required" 400)
      else
        payload ← of_result (jget rpc_request "payload" (JObject [])); options ← of_result (jget rpc_request "options" (JObject []));
        tenantId ← of_result (rpc_tenant rpc_request);
        if negb (String.eqb (to_lower entity) "user") then mret (send_error ("Unsupported entity: " +:+ entity) 400)
        else user_action (to_lower action) tenantId payload options
  end.
End Actions.

(** POST /api/dbal, at the readings [t1] and [t2] of the clock. *)
Definition rpc_route {W} `{!Adapter W} getenv real_text open_adapter open_search open_redis (max_requests t1 t2 : Z)
    (request : RpcRequest) : Op (AdminWorld (W := W)) AdminResponse := fun s =>
  let '(ok, limiter) := allow max_requests 60 t1 t2 (rq_peer request) (aw_limiter s) in
  (if negb ok then mret (mkAdminResponse 429 [] None)
   else on_daemon (
     up ← ensureClient getenv open_adapter open_search open_redis;
     if up : bool then on_db (handleRpc real_text request) else mret (send_error "DBAL client is unavailable" 503)))
  (mkAdminWorld (aw_daemon s) limiter).

(** ** What the database promises *)

(** The rows of User by identifier.  What a call answers has the tenant of the row
    it is about; a creation adds one row, an update changes the members it names,
    a removal removes its row, a listing answers rows that match the filter, and a
    call that does not succeed changes nothing. *)
Definition same_tenant (v : json) (m : members) : Prop := member v "tenantId" = obj_get "tenantId" m.

Class UserTable (W : Type) `{Adapter W} := {
  user_rows : W -> table;
  users_read : forall w id,
    match do_read "User" id w with
    | (Ok v, w') => user_rows w' = user_rows w /\ exists m, user_rows w !! id = Some m /\ same_tenant v m
    | (_, w') => user_rows w' = user_rows w
    end;
  users_list : forall w o,
    match do_list "User" o w with
    | (Ok l, w') => user_rows w' = user_rows w /\ Forall (fun v => exists id m,
        user_rows w !! id = Some m /\ same_tenant v m /\ matches (opt_filter o) m) (lr_items l)
    | (_, w') => user_rows w' = user_rows w
    end;
  users_create : forall w data,
    match do_create "User" data w with
    | (Ok v, w') => exists id m, user_rows w !! id = None /\ user_rows w' = <[id := m]> (user_rows w) /\ same_tenant v m /\
        forall k x, k <> "id" -> member data k = Some x -> obj_get k m = Some x
    | (_, w') => user_rows w' = user_rows w
    end;
  users_update : forall w id patch,
    match do_update "User" id patch w with
    | (Ok v, w') => exists m m', user_rows w !! id = Some m /\ user_rows w' = <[id := m']> (user_rows w) /\ same_tenant v m' /\
        forall k, member patch k = None -> obj_get k m' = obj_get k m
    | (_, w') => user_rows w' = user_rows w
    end;
  users_remove : forall w id,
    match do_remove "User" id w with
    | (Ok _, w') => user_rows w' = delete id (user_rows w)
    | (_, w') => user_rows w' = user_rows w
    end;
}.

(** ** Calls stay in their tenant *)

Section Isolation.
Context {W : Type} `{!Adapter W} {users : UserTable W} (real_text : SpecFloat.spec_float -> string).

Definition belongs (t : string) (m : members) : Prop := obj_get "tenantId" m = Some (JString t).
(** Every row is as it was, or a row of [t] before and after, where it is there. *)
Definition changed_within (t : string) (rows rows' : table) : Prop :=
  forall id, rows' !! id = rows !! id \/
    ((forall m, rows !! id = Some m -> belongs t m) /\ (forall m, rows' !! id = Some m -> belongs t m)).

(** The users an answer shows. *)
Definition shown_users (a : AdminResponse) : list json :=
  match ap_body a ≫= fun body => member body "data" with
  | Some d =>
      match member d "data", member d "username" with
      | Some (JArray us), _ => us
      | _, Some _ => [d]
      | _, _ => []
      end
  | None => []
  end.
Definition shows_only (t : string) (a : AdminResponse) : Prop :=
  Forall (fun v => member v "tenantId" = Some (JString t)) (shown_users a).

Definition stays (t : string) (m : Op W AdminResponse) : Prop := forall w,
  let '(r, w') := m w in
  changed_within t (user_rows w) (user_rows w') /\ forall a, r = Ok a -> shows_only t a.

Lemma changed_refl t rows rows' : rows' = rows -> changed_within t rows rows'.
Proof. intros -> id. by left. Qed.
Lemma changed_one t rows id (x : option members) :
  (forall m, rows !! id = Some m -> belongs t m) -> (forall m, x = Some m -> belongs t m) ->
  changed_within t rows (partial_alter (fun _ => x) id rows).
Proof.
  intros Hold Hnew id'. destruct (decide (id' = id)) as [->|Hne].
  - right. split; [done|]. by rewrite lookup_partial_alter_eq.
  - left. by apply lookup_partial_alter_ne.
Qed.

Lemma shows_none t a : shown_users a = [] -> shows_only t a.
Proof. intros H. unfold shows_only. by rewrite H. Qed.
Lemma stays_answer t a : shown_users a = [] -> stays t (mret a).
Proof. intros H w. split; [by apply changed_refl|]. intros ? [= <-]. by apply shows_none. Qed.
Lemma stays_read {A} t (r : Result A) k : (forall a, stays t (k a)) -> stays t (of_result r ≫= k).
Proof.
  intros Hk w. unfold of_result, mbind, Op_bind. destruct r as [a|e|x|]; [by apply Hk|..]; by (split; [apply changed_refl|]).
Qed.

(** A call whose errors are answered: what is left is the answer to its result. *)
Lemma or_send_error_stays {A} t (m : Op W A) (k : A -> Op W AdminResponse) w :
  match m w with
  | (Ok a, w1) => let '(r, w') := k a w1 in changed_within t (user_rows w) (user_rows w') /\ forall b, r = Ok b -> shows_only t b
  | (_, w1) => changed_within t (user_rows w) (user_rows w1)
  end ->
  let '(r, w') := or_send_error m k w in
  changed_within t (user_rows w) (user_rows w') /\ forall b, r = Ok b -> shows_only t b.
Proof.
  unfold or_send_error. destruct (m w) as [[a|e|x|] w1]; [done|..]; intros Hw; split; try done.
  intros ? [= <-]. by apply shows_none.
Qed.

(** The tenant of a user is read from its row. *)
Lemma user_tenant v u : userFromJson v = Ok u -> user_tenantId u = string_member v "tenantId".
Proof.
  unfold userFromJson, mbind, Result_bind. intros H. repeat (case_match; try discriminate H). injection H as <-. cbn [user_tenantId].
  match goal with H : unless_null v "tenantId" get_string = Ok ?o |- _ => revert H end.
  unfold unless_null, string_member. destruct (member v "tenantId") as [[]|]; cbn; congruence.
Qed.
Lemma user_of_tenant t v m u : userFromJson v = Ok u -> same_tenant v m -> (user_tenantId u = Some t <-> belongs t m).
Proof.
  intros Hu%user_tenant Hv. unfold belongs. rewrite Hu, <- Hv. unfold string_member. destruct (member v "tenantId") as [[]|]; naive_solver.
Qed.
Lemma user_json_members u :
  member (user_to_json u) "tenantId" = Some (JString (default "" (user_tenantId u))) /\
  member (user_to_json u) "data" = None /\ member (user_to_json u) "username" = Some (JString (user_username u)).
Proof. destruct u as [? ? ? ? [] [] [] ? ? [] ?]; cbn; done. Qed.
Lemma one_user_shown u : shown_users (send_success (user_to_json u)) = [user_to_json u].
Proof.
  unfold shown_users. change (ap_body _ ≫= _) with (Some (user_to_json u)). cbv iota.
  by destruct (user_json_members u) as (_ & -> & ->).
Qed.
Lemma shows_user t u : user_tenantId u = Some t -> shows_only t (send_success (user_to_json u)).
Proof.
  intros Hu. unfold shows_only. rewrite one_user_shown. apply Forall_singleton.
  destruct (user_json_members u) as [-> _]. by rewrite Hu.
Qed.

Lemma read_stays t id no_id k :
  (forall u w, (exists m, user_rows w !! id = Some m /\ belongs t m) -> user_tenantId u = Some t ->
    let '(r, w') := k u w in changed_within t (user_rows w) (user_rows w') /\ forall b, r = Ok b -> shows_only t b) ->
  stays t (with_user t id no_id k).
Proof.
  intros Hk. unfold with_user. destruct (is_empty t); [by apply stays_answer|]. destruct (is_empty id) eqn:Hid; [by apply stays_answer|].
  intros w. apply or_send_error_stays. unfold getUser. rewrite Hid. unfold mbind, Op_bind. pose proof (users_read w id) as Hr.
  destruct (do_read "User" id w) as [[v|e|x|] w1]; try by apply changed_refl. destruct Hr as (Hsame & m & Hm & Hv).
  unfold of_result. destruct (userFromJson v) as [u|e|x|] eqn:Hu; try by apply changed_refl.
  case_bool_decide as Ht.
  - rewrite <- Hsame. apply Hk; [|done]. exists m. rewrite Hsame. split; [done|]. by apply (user_of_tenant t v m u).
  - split; [by apply changed_refl|]. intros ? [= <-]. by apply shows_none.
Qed.

Lemma update_keeps_tenant payload : member (updateUserToJson (requested_update payload)) "tenantId" = None.
Proof.
  unfold updateUserToJson, requested_update, optional_members. cbn [uu_username uu_email uu_role uu_profilePicture uu_bio uu_tenantId
    uu_isInstanceOwner uu_passwordChangeTimestamp uu_firstLogin].
  by destruct (string_member payload "username"), (string_member payload "email"), (role_of payload).
Qed.
Lemma update_stays t id payload : stays t (handle_user_update t id payload).
Proof.
  apply read_stays. intros _ w (m & Hm & Hb) _. cbv zeta. destruct (has_updates _); [cbn [negb]|by apply stays_answer].
  apply or_send_error_stays. unfold updateUser. destruct (is_empty id); [by apply changed_refl|].
  unfold mbind, Op_bind. pose proof (users_update w id (updateUserToJson (requested_update payload))) as Hu.
  destruct (do_update _ _ _ w) as [[v|e|x|] w1]; try by apply changed_refl. destruct Hu as (m0 & m' & Hm0 & Hrows & Hv & Hk).
  rewrite Hm in Hm0. injection Hm0 as <-. specialize (Hk "tenantId" (update_keeps_tenant payload)).
  assert (belongs t m') as Hb' by (unfold belongs; by rewrite Hk).
  assert (changed_within t (user_rows w) (user_rows w1)) as Hch by (rewrite Hrows; apply changed_one; congruence).
  unfold of_result. destruct (userFromJson v) as [u|e|x|] eqn:Hu'; try done. split; [done|].
  intros ? [= <-]. apply shows_user. by apply (user_of_tenant t v m' u).
Qed.

Lemma delete_stays t id : stays t (handle_user_delete t id).
Proof.
  apply read_stays. intros _ w (m & Hm & Hb) _. apply or_send_error_stays. unfold deleteUser.
  destruct (is_empty id); [by apply changed_refl|]. pose proof (users_remove w id) as Hr.
  destruct (do_remove _ _ w) as [[d|e|x|] w1]; try by apply changed_refl. cbn. split; [|intros ? [= <-]; by apply shows_none].
  rewrite Hr. apply changed_one; congruence.
Qed.

Lemma one_read_stays t id : stays t (handle_user_read t id).
Proof.
  apply read_stays. intros u w _ Hu. split; [by apply changed_refl|]. intros ? [= <-]. by apply shows_user.
Qed.

Lemma create_stays t payload : stays t (handle_user_create real_text t payload).
Proof.
  unfold handle_user_create. destruct (is_empty t); [by apply stays_answer|]. do 2 (apply stays_read; intros ?).
  destruct (_ || _); [by apply stays_answer|]. intros w. apply or_send_error_stays. unfold createUser, mbind, Op_bind.
  set (input := mkCreateUser _ _ _ _ _ _ _ _ _ _). pose proof (users_create w (createUserToJson input)) as Hc.
  destruct (do_create _ _ w) as [[v|e|x|] w1]; try by apply changed_refl. destruct Hc as (id & m & Hnew & Hrows & Hv & Hk).
  assert (belongs t m) as Hb by by apply Hk.
  assert (changed_within t (user_rows w) (user_rows w1)) as Hch by (rewrite Hrows; apply changed_one; congruence).
  unfold of_result. destruct (userFromJson v) as [u|e|x|] eqn:Hu'; try done. split; [done|].
  intros ? [= <-]. apply shows_user. by apply (user_of_tenant t v m u).
Qed.

Lemma users_from_Forall (P : User -> Prop) items us :
  Forall (fun v => forall u, userFromJson v = Ok u -> P u) items -> users_from items = Ok us -> Forall P us.
Proof.
  revert us. induction items as [|v items IH]; intros us Hall Hus; [injection Hus as <-; constructor|].
  apply Forall_cons in Hall as [Hv Hall]. cbn [users_from] in Hus. unfold mbind, Result_bind in Hus.
  destruct (userFromJson v) as [u| | |]; try done. destruct (users_from items) as [us'| | |]; try done.
  injection Hus as <-. constructor; [by apply Hv|by apply IH].
Qed.
Lemma list_stays t options : stays t (handle_user_list real_text t options).
Proof.
  unfold handle_user_list. destruct (is_empty t); [by apply stays_answer|]. apply stays_read. intros read w.
  set (o := mkListOptions _ _ _ _). apply or_send_error_stays. unfold listUsers, mbind, Op_bind.
  pose proof (users_list w o) as Hl. destruct (do_list _ _ w) as [[l|e|x|] w1]; try by apply changed_refl.
  destruct Hl as [Hsame Hl]. unfold of_result. destruct (users_from (lr_items l)) as [us|e|x|] eqn:Hus; try by apply changed_refl.
  split; [by apply changed_refl|]. intros ? [= <-].
  assert (Forall (fun u => user_tenantId u = Some t) us) as Hall.
  { revert Hus. apply users_from_Forall. eapply Forall_impl; [exact Hl|]. intros v (id & m & Hm & Hv & Hmatch) u Hu.
    apply (user_of_tenant t v m u); [done..|]. apply string_member_get. apply (Hmatch "tenantId"). apply lookup_insert_eq. }
  change (Forall (fun v => member v "tenantId" = Some (JString t)) (user_to_json <$> us)).
  apply Forall_fmap. eapply Forall_impl; [exact Hall|]. intros u Hu. destruct (user_json_members u) as [Htn _].
  cbn [compose]. by rewrite Htn, Hu.
Qed.

Lemma action_stays action t payload options : stays t (user_action real_text action t payload options).
Proof.
  unfold user_action. destruct (String.eqb action "list"); [apply list_stays|]. apply stays_read. intros id.
  destruct (_ && _); [by apply stays_answer|]. destruct (_ || _); [apply one_read_stays|].
  destruct (String.eqb action "create"); [apply create_stays|]. destruct (String.eqb action "update"); [apply update_stays|].
  destruct (_ || _); [apply delete_stays|by apply stays_answer].
Qed.

(** Nothing is changed and no user is shown. *)
Definition quiet (p : Result AdminResponse * W) (w : W) : Prop :=
  user_rows p.2 = user_rows w /\ forall a, p.1 = Ok a -> shown_users a = [].
Definition contained (request : RpcRequest) (m : Op W AdminResponse) : Prop := forall w, quiet (m w) w \/
  exists body t, rq_json request = inr body /\ rpc_tenant real_text body = Ok t /\ t <> "" /\
    changed_within t (user_rows w) (user_rows (m w).2) /\ forall a, (m w).1 = Ok a -> shows_only t a.

Lemma contained_answer request a : shown_users a = [] -> contained request (mret a).
Proof. intros Ha w. left. split; [done|]. by intros ? [= <-]. Qed.
Lemma contained_read {A} request (r : Result A) k : (forall a, r = Ok a -> contained request (k a)) -> contained request (of_result r ≫= k).
Proof. intros Hk w. unfold of_result, mbind, Op_bind. destruct r as [a|e|x|]; [by apply Hk|..]; by left. Qed.

Lemma with_no_tenant request id no_id k : contained request (with_user "" id no_id k).
Proof. by apply contained_answer. Qed.
Lemma action_no_tenant request action payload options : contained request (user_action real_text action "" payload options).
Proof.
  unfold user_action. destruct (String.eqb action "list"); [by apply contained_answer|]. apply contained_read. intros id _.
  repeat (case_match; try first [by apply contained_answer|apply with_no_tenant]).
Qed.

(** C14. A remote call stays in the tenant it names.  Whatever the call and however
    it ends, either nothing is changed and no user is shown, or the body names a
    tenant, every user the database holds that is not of this tenant is as it was,
    no user is moved into or out of it, and all users the answer shows are of it. *)
Theorem rpc_stays_in_tenant request w :
  let '(r, w') := handleRpc real_text request w in
  (user_rows w' = user_rows w /\ forall a, r = Ok a -> shown_users a = []) \/
  exists body t, rq_json request = inr body /\ rpc_tenant real_text body = Ok t /\ t <> "" /\
    changed_within t (user_rows w) (user_rows w') /\ forall a, r = Ok a -> shows_only t a.
Proof.
  enough (contained request (handleRpc real_text request)) as H.
  { specialize (H w). unfold quiet in H. by destruct (handleRpc real_text request w). }
  unfold handleRpc. destruct (_ <? _)%Z; [by apply contained_answer|]. destruct (rq_json request) as [errs|body] eqn:Hbody; [by apply contained_answer|].
  do 2 (apply contained_read; intros ? _). destruct (_ || _); [by apply contained_answer|].
  do 2 (apply contained_read; intros ? _). apply contained_read. intros t Ht. destruct (negb _); [by apply contained_answer|].
  destruct (decide (t = "")) as [->|Hne]; [apply action_no_tenant|]. intros w1. right. exists body, t.
  match goal with |- context [user_action _ ?a t ?p ?o] => pose proof (action_stays a t p o w1) as Hs; destruct (user_action _ _ _ _ _ w1) end.
  by destruct Hs.
Qed.
End Isolation.

(** ** Runs *)

(** Of the adapter's calls, those that the actions make. *)
Definition rpc_adapter : Adapter TableDb := {|
  do_create e data := fun db =>
    match data with
    | JObject d =>
        let id := fresh_id (table_of db e) in
        let m := obj_set "id" (JString id) d in
        (Ok (JObject m), <[e := <[id := m]> (table_of db e)]> db)
    | _ => (Err (validationError "not an object"), db)
    end;
  do_read e id := fun db => match table_of db e !! id with Some m => (Ok (JObject m), db) | None => (Err (notFound id), db) end;
  do_update e id data := fun db =>
    match data, table_of db e !! id with
    | JObject p, Some m => (Ok (JObject (merge p m)), <[e := <[id := merge p m]> (table_of db e)]> db)
    | _, _ => (Err (notFound id), db)
    end;
  do_remove e id := fun db => (Ok true, <[e := delete id (table_of db e)]> db);
  do_list e o := fun db =>
    let rows := JObject <$> matching (opt_filter o) (table_of db e) in
    (Ok (mkListResult rows (Z.of_nat (length rows)) (opt_page o) (opt_limit o)), db);
  do_readIncludingSensitive _ _ := unsupported; do_upsert _ _ _ _ _ := unsupported;
  do_createMany _ _ := unsupported; do_updateMany _ _ _ := unsupported; do_deleteMany _ _ := unsupported;
  do_search := default_search; do_findFirst _ _ := unsupported; do_findByField _ _ _ := unsupported;
  do_getAvailableEntities := unsupported; do_getEntitySchema _ := unsupported;
  do_close := mret tt; supportsNativeTransactions := false;
  do_beginTransaction := default_transaction; do_commitTransaction := default_transaction;
  do_rollbackTransaction := default_transaction;
|}.

Lemma users_written db e t : table_of (<[e := t]> db) e = t.
Proof. by rewrite table_of_insert, decide_True. Qed.

#[program] Definition rpc_table : @UserTable TableDb rpc_adapter := {| user_rows db := table_of db "User" |}.
Next Obligation. intros db id. cbn. destruct (table_of db "User" !! id) as [m|] eqn:Hm; [|done]. split; [done|]. by exists m. Qed.
Next Obligation.
  intros db o. cbn. split; [done|]. apply Forall_fmap, Forall_forall. intros m Hin. unfold matching in Hin.
  apply list_elem_of_filter in Hin as [Hm ([id m'] & -> & Hid%elem_of_map_to_list)%list_elem_of_fmap]. by exists id, m'.
Qed.
Next Obligation.
  intros db data. cbn. destruct data as [| | | | | |d]; try done. set (id := fresh_id (table_of db "User")).
  exists id, (obj_set "id" (JString id) d). split_and!; [apply fresh_id_new|by rewrite users_written|done|].
  intros k v Hk Hv. rewrite obj_get_set. by destruct (String.eqb_spec k "id").
Qed.
Next Obligation.
  intros db id patch. cbn. destruct patch as [| | | | | |p]; try done. destruct (table_of db "User" !! id) as [m|] eqn:Hm; [|done].
  exists m, (merge p m). split_and!; [done|by rewrite users_written|done|]. intros k Hk. cbn in Hk. by rewrite (merge_get p m k), Hk.
Qed.
Next Obligation. intros db id. cbn. by rewrite users_written. Qed.
#[local] Existing Instance rpc_adapter.

Definition rpc_start : AdminWorld (W := TableDb) := mkAdminWorld (start_server sqlite_config ∅) ∅.
Definition rpc_call (body : json) (s : AdminWorld (W := TableDb)) : Result AdminResponse * AdminWorld (W := TableDb) :=
  rpc_route admin_env (fun _ => "") open_tables (fun _ => true) (fun _ => true) 50 0 0 (mkRpc "10.0.0.1" 100 (inr body)) s.
Definition rpc_body (action tenant : string) (payload : json) : json :=
  object [("entity", JString "User"); ("action", JString action); ("tenantId", JString tenant); ("payload", payload)].
Definition users_of (s : AdminWorld (W := TableDb)) : table := table_of (sv_world (aw_daemon s)) "User".
Definition a_god : json := object [("username", JString "eve"); ("email", JString "e@x"); ("role", JString "SuperGod")].
Definition god_made : AdminWorld (W := TableDb) := (rpc_call (rpc_body "create" "acme" a_god) rpc_start).2.
Definition god_id : string := fresh_id ∅.
Definition of_god (fields : members) : json := object (("id", JString god_id) :: fields).

(** Nobody is asked who is calling: any caller makes a user of the highest role.
    One of another tenant neither sees it nor renames it nor deletes it. *)
Example anyone_makes_a_god :
  (m ← users_of god_made !! god_id; obj_get "role" m) = Some (JString "supergod") /\
  answer_status (rpc_call (rpc_body "read" "acme" (of_god [])) god_made) = Some 200%Z /\
  answer_status (rpc_call (rpc_body "read" "other" (of_god [])) god_made) = Some 404%Z /\
  answer_status (rpc_call (rpc_body "update" "other" (of_god [("username", JString "x")])) god_made) = Some 404%Z /\
  answer_status (rpc_call (rpc_body "update" "acme" (of_god [])) god_made) = Some 400%Z /\
  users_of (rpc_call (rpc_body "delete" "acme" (of_god [])) god_made).2 = ∅.
Proof. vm_compute. repeat split. Qed.

Definition acme_list : RpcRequest := mkRpc "10.0.0.1" 100 (inr (rpc_body "list" "other" (object []))).
Definition god_rows : TableDb := sv_world (aw_daemon god_made).
Lemma rpc_stays_in_tenant_witness :
  user_rows (UserTable := rpc_table) god_rows <> ∅ /\
  forall a, (handleRpc (fun _ => "") acme_list god_rows).1 = Ok a -> shows_only "other" a.
Proof.
  split; [vm_compute; discriminate|]. intros a Ha.
  pose proof (rpc_stays_in_tenant (users := rpc_table) (fun _ => "") acme_list god_rows) as H.
  destruct (handleRpc (fun _ => "") acme_list god_rows) as [r w'] eqn:Hrun. cbn [fst] in Ha.
  destruct H as [[_ H]|(body & t & Hbody & Ht & _ & _ & H)].
  - apply H in Ha. unfold shows_only. rewrite Ha. apply Forall_nil. exact I.
  - injection Hbody as <-. vm_compute in Ht. injection Ht as <-. exact (H a Ha).
Defined.
