(* ===== verification/QueryProcedures.v ===== *)
(** * Named queries

    Models src/daemon/handlers/query_route_handler.cpp, the conversion of answers in
    json_convert.hpp and the registration of GET /{tenant}/{package}/query/{name} in
    server_routes.cpp: a procedure is a JSON file that names an entity, conditions
    and aggregates, and a request gives values for its parameters.  The options go
    to the adapter's listing, a parameter of the model as in EntityRoutes.v.  The
    theorem says how far a request can bend a procedure. *)

From S2P Require Import Prelude CxxString CxxStd Store Json PlainJson EntityHost Adapter Limits AccessControl EntityRoutes Seeding Connections AdminRoutes.

Open Scope string_scope.

(** ** Answers (json_convert.hpp) *)

(** Unsigned numbers count as integers, so they are read as signed ones. *)
Definition wrap_int64 (z : Z) : Z := ((z + 2 ^ 63) mod 2 ^ 64 - 2 ^ 63)%Z.
Fixpoint nlohmann_to_jsoncpp (v : json) : json :=
  match v with
  | JInt z => JInt (wrap_int64 z)
  | JArray l => JArray (map nlohmann_to_jsoncpp l)
  | JObject m => JObject (map (fun '(k, x) => (k, nlohmann_to_jsoncpp x)) m)
  | v => v
  end.

(** ** Procedures (loadProcedures) *)

Definition procedures : Type := gmap string json.

(** [fs::path(name).stem().string()] of a name that ends in ".json" *)
Definition json_stem (name : string) : string := string_take (String.length name - 5) name.

Section Loading.
Context {jl : JsonLib} (files : FileSystem).

(** A file that cannot be opened or read as a procedure is skipped. *)
Definition load_procedure (queries_dir : string) (entry : string * bool) (loaded : procedures) : procedures :=
  let '(name, is_regular_file) := entry in
  if negb is_regular_file || negb (has_json_extension name) then loaded
  else match fs_read files (join queries_dir name) ≫= parse with
  | Some proc =>
      match value_string proc "name" (json_stem name) with Ok pname => <[pname := proc]> loaded | _ => loaded end
  | None => loaded
  end.
Definition loadProcedures (queries_dir : string) (loaded : procedures) : Result procedures :=
  if negb (fs_exists files queries_dir) then Ok loaded
  else match fs_directory files queries_dir with
  | None => Throw (runtime_error ("directory iterator cannot open directory: " +:+ queries_dir))
  | Some entries => Ok (foldl (fun loaded entry => load_procedure queries_dir entry loaded) loaded entries)
  end.
End Loading.

(** ** Options (handle) *)

Section Options.
Context {jl : JsonLib}.
Abbreviation query := (gmap string string).

(** [proc.contains(k) && proc[k].is_array()] *)
Definition array_member (proc : json) (k : string) : list json :=
  match member proc k with Some (JArray l) => l | _ => [] end.

(** The first required parameter that is not there. *)
Fixpoint missing_param (params : list json) (qparams : query) : Result (option string) :=
  match params with
  | [] => Ok None
  | p :: params =>
      pname ← value_string p "name" ""; required ← value_bool p "required" false;
      if required && bool_decide (qparams !! pname = None) then Ok (Some pname) else missing_param params qparams
  end.

(** [opts.limit = std::stoi(qparams["limit"])], when it is one. *)
Definition int_param (qparams : query) (key : string) (def : Z) : Z :=
  match qparams !! key with Some s => match stoi s with Ok z => z | _ => def end | None => def end.

(** The operators of a procedure are fewer than those of a listing. *)
Definition procedure_op (op_str : string) : FilterOp :=
  match parseOpString op_str with (In | NotIn | Between) => Eq | op => op end.

Definition condition_of (qparams : query) (w : json) : Result (option FilterCondition) :=
  field ← value_string w "field" ""; op_str ← value_string w "op" "eq";
  if is_empty field then Ok None
  else
    let cond value := Some (mkCondition field (procedure_op op_str) value []) in
    match member w "param", member w "value" with
    | Some param, _ => param_name ← get_string param; Ok (match qparams !! param_name with Some value => cond value | None => None end)
    | None, Some (JString value) => Ok (cond value)
    | None, Some value => text ← dump value; Ok (cond text)
    | None, None => Ok None
    end.
Fixpoint conditions_of (qparams : query) (ws : list json) : Result (list FilterCondition) :=
  match ws with
  | [] => Ok []
  | w :: ws => c ← condition_of qparams w; cs ← conditions_of qparams ws; Ok (match c with Some c => c :: cs | None => cs end)
  end.

Definition agg_func (func_str : string) : AggFunc :=
  if String.eqb func_str "sum" then Sum else if String.eqb func_str "avg" then Avg
  else if String.eqb func_str "min" then Min else if String.eqb func_str "max" then Max else Count.

(** The loop over "select", which fills two lists. *)
Fixpoint selection (sels : list json) : Result (list AggregateSpec * list string) :=
  match sels with
  | [] => Ok ([], [])
  | sel :: sels =>
      match sel with
      | JString field => '(aggs, fields) ← selection sels; Ok (aggs, field :: fields)
      | JObject _ =>
          if has_member sel "func" then
            func_str ← value_string sel "func" "count"; field_str ← value_string sel "field" "id";
            alias_str ← value_string sel "alias" func_str;
            '(aggs, fields) ← selection sels; Ok (mkAggregate (agg_func func_str) field_str alias_str :: aggs, fields)
          else selection sels
      | _ => selection sels
      end
  end.

Fixpoint sorting (obs : list json) (sort : gmap string string) : Result (gmap string string) :=
  match obs with
  | [] => Ok sort
  | ob :: obs =>
      match ob with
      | JObject _ =>
          field ← value_string ob "field" ""; dir ← value_string ob "dir" "asc";
          sorting obs (if is_empty field then sort else <[field := dir]> sort)
      | _ => sorting obs sort
      end
  end.
Definition strings_of (l : list json) : list string := omap (fun v => match v with JString s => Some s | _ => None end) l.

Definition procedure_options (tenant : string) (qparams : query) (proc : json) : Result RichOptions :=
  limit ← value_int proc "limit" 100;
  conditions ← conditions_of qparams (array_member proc "where");
  '(aggregates, select_fields) ← selection (array_member proc "select");
  sort ← sorting (array_member proc "orderBy") ∅;
  Ok (mkOptions
    (mkListOptions (if is_empty tenant then ∅ else {["tenantId" := tenant]}) sort (int_param qparams "page" 1) (int_param qparams "limit" limit))
    conditions [] [] aggregates (strings_of (array_member proc "groupBy")) select_fields false 0).

(** ** The handler *)

Context {W : Type} (rich_list : string -> RichOptions -> Op W ListResult).

Definition hidden_error (e : Error) : AdminResponse :=
  refusal (http_status (code e)) (if (500 <=? http_status (code e))%Z then "Internal server error" else message e).
Definition procedure_answer (r : ListResult) : AdminResponse :=
  newHttpJsonResponse 200 (object [("data", JArray (nlohmann_to_jsoncpp <$> lr_items r)); ("total", JInt (lr_total r)); ("success", JBool true)]).

Definition handle (loaded : procedures) (qparams : query) (tenant name : string) : Op W AdminResponse :=
  match loaded !! name with
  | None => mret (refusal 404 ("Unknown query procedure: " +:+ name))
  | Some proc =>
      missing ← of_result (missing_param (array_member proc "params") qparams);
      match missing with
      | Some pname => mret (refusal 400 ("Missing required parameter: " +:+ pname))
      | None =>
          opts ← of_result (procedure_options tenant qparams proc);
          entity ← of_result (value_string proc "entity" "");
          if is_empty entity then mret (refusal 500 "Procedure missing 'entity' field")
          else fun w =>
            match rich_list entity opts w with
            | (Ok r, w') => (Ok (procedure_answer r), w')
            | (Err e, w') => (Ok (hidden_error e), w')
            | (r, w') => (recast r, w')
            end
      end
  end.
End Options.

(** ** The route *)

(** [fs::path(p).parent_path()], for a path without slashes at the end or in a row. *)
Fixpoint parent_of (p : string) : option string :=
  match p with
  | "" => None
  | String c p => match parent_of p with Some d => Some (String c d) | None => if Ascii.eqb c "/" then Some "" else None end
  end.
Definition parent_path (p : string) : string := match parent_of p with None => "" | Some "" => "/" | Some dir => dir end.
Definition queries_dir (getenv : Environment) : string :=
  match getenv "DBAL_QUERIES_DIR", getenv "DBAL_SCHEMA_DIR" with
  | Some dir, _ => dir
  | None, Some schema_dir => join (parent_path schema_dir) "queries"
  | None, None => "dbal/shared/api/schema/queries"
  end.

Record QueryWorld (W : Type) := mkQueryWorld { qw_admin : AdminWorld (W := W); qw_loaded : option procedures }.
Arguments mkQueryWorld {W} _ _.
Arguments qw_admin {W} _.
Arguments qw_loaded {W} _.

Section Route.
Context {W : Type} {jl : JsonLib} (rich_list : string -> RichOptions -> Op W ListResult).
Context (getenv : Environment) (open_adapter : AdapterChoice -> Op W unit) (open_search : Searching.SearchConfig -> bool) (open_redis : string -> bool).
Context (files : FileSystem) (cors_origin : string).

(** [std::call_once]: a load that throws is tried again. *)
Definition load_once : Op (QueryWorld W) procedures := fun s =>
  match qw_loaded s with
  | Some loaded => (Ok loaded, s)
  | None =>
      match loadProcedures files (queries_dir getenv) ∅ with
      | Ok loaded => (Ok loaded, mkQueryWorld (qw_admin s) (Some loaded))
      | r => (r, s)
      end
  end.
Definition on_admin_world {A} (m : Op (AdminWorld (W := W)) A) : Op (QueryWorld W) A := fun s =>
  let '(r, a) := m (qw_admin s) in (r, mkQueryWorld a (qw_loaded s)).

(** GET or OPTIONS /{tenant}/{package}/query/{name}, at the readings [t1] and [t2]
    of the clock; [peer] is the caller's address. *)
Definition query_route (max_requests t1 t2 : Z) (method : HttpMethod) (peer : string) (qparams : gmap string string)
    (tenant name : string) : Op (QueryWorld W) AdminResponse :=
  let cors_org := default cors_origin (getenv "DBAL_CORS_ORIGIN") in
  if bool_decide (method = Options) then
    mret (mkAdminResponse 204 [("Access-Control-Allow-Origin", cors_org); ("Access-Control-Allow-Methods", "GET, OPTIONS");
      ("Access-Control-Allow-Headers", "Content-Type, Authorization")] None)
  else
    ok ← on_admin_world (fun s =>
      let '(ok, limiter) := allow max_requests 60 t1 t2 peer (aw_limiter s) in (Ok ok, mkAdminWorld (aw_daemon s) limiter));
    answer ← (if negb ok then mret (mkAdminResponse 429 [] None)
      else
        up ← on_admin_world (on_daemon (ensureClient getenv open_adapter open_search open_redis));
        if negb up then mret (refusal 503 "DBAL client is unavailable")
        else loaded ← load_once; on_admin_world (on_daemon (on_db (handle rich_list loaded qparams tenant name))));
    mret (add_headers [("Access-Control-Allow-Origin", cors_org)] answer).
End Route.

(** ** What a request can change *)

(** The value an entry of "where" has for a request: that of the parameter it names,
    if the request gives it; else the literal of the file. *)
Definition entry_value {jl : JsonLib} (qparams : gmap string string) (w : json) : option string :=
  match member w "param" with
  | Some (JString p) => qparams !! p
  | Some _ => None
  | None => match member w "value" with Some (JString s) => Some s | Some v => dump_text v | None => None end
  end.
(** The entries that count: those with a field and a value. *)
Definition in_force {jl : JsonLib} (qparams : gmap string string) (w : json) : bool :=
  match value_string w "field" "", entry_value qparams w with Ok field, Some _ => negb (is_empty field) | _, _ => false end.
(** [c] is the condition of the entry [w]. *)
Definition declared {jl : JsonLib} (qparams : gmap string string) (w : json) (c : FilterCondition) : Prop :=
  value_string w "field" "" = Ok (fc_field c) /\
  (exists op_str, value_string w "op" "eq" = Ok op_str /\ fc_op c = procedure_op op_str) /\
  entry_value qparams w = Some (fc_value c) /\ fc_values c = [].

(** [a] is the aggregate of an entry of "select" with a function. *)
Definition is_aggregate (sel : json) : bool := is_object sel && has_member sel "func".
Definition aggregate_declared (sel : json) (a : AggregateSpec) : Prop :=
  exists func_str, value_string sel "func" "count" = Ok func_str /\ ag_func a = agg_func func_str /\
    value_string sel "field" "id" = Ok (ag_field a) /\ value_string sel "alias" func_str = Ok (ag_alias a).

(** The options a request for [proc] leads to: the tenant, the conditions of the
    file's entries in their order, its aggregates, columns, groups and order, and the
    paging of the request, or the file's limit. *)
Definition as_declared {jl : JsonLib} (tenant : string) (qparams : gmap string string) (proc : json) (o : RichOptions) : Prop :=
  Forall2 (declared qparams) (List.filter (in_force qparams) (array_member proc "where")) (ro_conditions o) /\
  exists aggs sort limit,
    Forall2 aggregate_declared (List.filter is_aggregate (array_member proc "select")) aggs /\
    sorting (array_member proc "orderBy") ∅ = Ok sort /\ value_int proc "limit" 100 = Ok limit /\
    o = mkOptions (mkListOptions {["tenantId" := tenant]} sort (int_param qparams "page" 1) (int_param qparams "limit" limit))
          (ro_conditions o) [] [] aggs (strings_of (array_member proc "groupBy")) (strings_of (array_member proc "select")) false 0.

Section Bounds.
Context {jl : JsonLib}.

Lemma get_string_inv v s : get_string v = Ok s -> v = JString s.
Proof. destruct v; cbn; congruence. Qed.

Lemma condition_declared qparams w oc :
  condition_of qparams w = Ok oc ->
  match oc with Some c => in_force qparams w = true /\ declared qparams w c | None => in_force qparams w = false end.
Proof.
  unfold condition_of, declared, in_force, entry_value, mbind, Result_bind.
  destruct (value_string w "field" "") as [field| | |]; try done.
  destruct (value_string w "op" "eq") as [op_str| | |]; try done. destruct (is_empty field) eqn:Hf.
  { intros [= <-]. by case_match. }
  destruct (member w "param") as [param|].
  - destruct (get_string param) as [p| | |] eqn:Hp; try done. apply get_string_inv in Hp as ->.
    destruct (qparams !! p) as [v|]; intros [= <-]; [|done]. cbn. split_and!; eauto.
  - destruct (member w "value") as [v|]; [|by intros [= <-]].
    destruct v; unfold dump; try (destruct (dump_text _) as [text|]); intros [= <-]; cbn; split_and!; eauto.
Qed.

Lemma conditions_declared qparams ws cs : conditions_of qparams ws = Ok cs ->
  Forall2 (declared qparams) (List.filter (in_force qparams) ws) cs.
Proof.
  revert cs. induction ws as [|w ws IH]; intros cs; cbn [conditions_of List.filter]; [by intros [= <-]|].
  unfold mbind, Result_bind. destruct (condition_of qparams w) as [oc| | |] eqn:Hc; try done. apply condition_declared in Hc.
  destruct (conditions_of qparams ws) as [cs'| | |]; try done. specialize (IH cs' eq_refl). intros [= <-].
  destruct oc as [c|]; [|by rewrite Hc]. destruct Hc as [-> Hd]. by constructor.
Qed.

Lemma selection_declared sels aggs fields : selection sels = Ok (aggs, fields) ->
  Forall2 aggregate_declared (List.filter is_aggregate sels) aggs /\ fields = strings_of sels.
Proof.
  revert aggs fields. induction sels as [|sel sels IH]; intros aggs fields; cbn [selection]; [by intros [= <- <-]|].
  unfold strings_of in *. destruct sel; cbn [omap list_omap List.filter is_aggregate is_object andb]; try by apply IH.
  - destruct (selection sels) as [[a f]| | |]; intros [= <- <-]. destruct (IH a f eq_refl) as [H ->]. done.
  - destruct (has_member _ "func"); [|by apply IH]. unfold mbind, Result_bind.
    destruct (value_string _ "func" _) as [fs| | |] eqn:Hfs; try done. destruct (value_string _ "field" _) as [fd| | |] eqn:Hfd; try done.
    destruct (value_string _ "alias" _) as [al| | |] eqn:Hal; try done. destruct (selection sels) as [[a f]| | |]; intros [= <- <-].
    destruct (IH a f eq_refl) as [H ->]. split; [|done]. constructor; [|done]. by exists fs.
Qed.

Lemma options_as_declared tenant qparams proc o : tenant <> "" ->
  procedure_options tenant qparams proc = Ok o -> as_declared tenant qparams proc o.
Proof.
  intros Ht%is_empty_false. unfold procedure_options, mbind, Result_bind. rewrite Ht.
  destruct (value_int proc "limit" 100) as [limit| | |] eqn:Hl; try done.
  destruct (conditions_of _ _) as [cs| | |] eqn:Hcs; try done. destruct (selection _) as [[aggs fields]| | |] eqn:Hsel; try done.
  destruct (sorting _ _) as [sort| | |] eqn:Hsort; try done. intros [= <-]. apply selection_declared in Hsel as [Hsel ->].
  split; [by apply conditions_declared|]. by exists aggs, sort, limit.
Qed.

End Bounds.

(** ** Runs *)

#[local] Existing Instance PlainJson.plain_json.

Definition snippet_stats : json := object
  [("name", JString "snippet_stats"); ("entity", JString "Snippet");
   ("select", JArray [object [("func", JString "count"); ("field", JString "id"); ("alias", JString "count")]; JString "language"]);
   ("groupBy", JArray [JString "language"]); ("orderBy", JArray [object [("field", JString "count"); ("dir", JString "desc")]]);
   ("limit", JInt 50);
   ("params", JArray [object [("name", JString "userId"); ("required", JBool true)]]);
   ("where", JArray [object [("field", JString "userId"); ("op", JString "eq"); ("param", JString "userId")]])].
Definition query_files : FileSystem := mkFiles (fun path => String.eqb path "/s/queries") (fun path => String.eqb path "/s/queries")
  (fun _ => Some [("stats.json", true); ("notes.txt", true)])
  (fun path => if String.eqb path "/s/queries/stats.json" then plain_print snippet_stats else None).
Definition query_env : Environment := fun name => if String.eqb name "DBAL_SCHEMA_DIR" then Some "/s/entities" else None.
(** An adapter that answers what it was asked. *)
Definition echo_list (entity : string) (o : RichOptions) : Op unit ListResult := fun w =>
  let tenant := default "" (opt_filter (ro_base o) !! "tenantId") in
  let row := object ([("entity", JString entity); ("limit", JInt (opt_limit (ro_base o))); ("tenant", JString tenant)] ++
    ((fun c => (fc_field c, JString (fc_value c))) <$> ro_conditions o))%list in
  (Ok (mkListResult [row] 1 1 1), w).
Definition ask (qparams : gmap string string) : Result AdminResponse :=
  (query_route echo_list query_env (fun _ => mret tt) (fun _ => true) (fun _ => true) query_files "" 1000 0 0 Get "10.0.0.1"
    qparams "acme" "snippet_stats" (mkQueryWorld (mkAdminWorld (start_server sqlite_config tt) ∅) None)).1.
Definition told (r : Result AdminResponse) : option json :=
  match r with Ok a => b ← ap_body a; match member b "data" with Some (JArray [v]) => Some v | _ => None end | _ => None end.

(** Nobody is asked who is calling, and the caller's limit is taken as it is. *)
Example query_run :
  told (ask {["userId" := "ada"]}) = Some (object
    [("entity", JString "Snippet"); ("limit", JInt 50); ("tenant", JString "acme"); ("userId", JString "ada")]) /\
  told (ask (<["limit" := "100000000"]> {["userId" := "ada"]})) = Some (object
    [("entity", JString "Snippet"); ("limit", JInt 100000000); ("tenant", JString "acme"); ("userId", JString "ada")]) /\
  match ask ∅ with Ok a => ap_status a | _ => 0%Z end = 400%Z.
Proof. vm_compute. repeat split. Qed.

Definition scoped_list (entity : string) (o : RichOptions) : Op unit ListResult :=
  if bool_decide (opt_filter (ro_base o) = {["tenantId" := "acme"]}) && String.eqb entity "Snippet" then echo_list entity o
  else fail (internal "not asked").
