(* ===== verification/SchemaQueue.v ===== *)
(** * The queue of schema migrations

    Models src/daemon/handlers/schema_route_handler.cpp, rpc_schema_actions.cpp, the
    actions schema_loader_action.cpp, schema_query_action.cpp,
    schema_validator_action.cpp, migration_runner_action.cpp and
    table_creator_action.cpp: /api/dbal/schema lists the migrations of a registry
    file, approves and rejects them, and generates Prisma models of those approved.
    The registry is read from its file by every request and written back whole.
    The theorems say what becomes of an entry of the queue. *)

From Stdlib Require Import SpecFloat.
From S2P Require Import Prelude CxxString CxxStd Validation Json Calendar BulkRoutes AccessControl AdminRoutes.

Open Scope string_scope.

(** ** Values of the HTTP library *)

(** [v[k]] of a constant value, and of one that can be changed: a member that is
    not there is put there, as null. *)
Definition const_at (v : json) (k : string) : Result json :=
  match v with
  | JObject m => Ok (default JNull (obj_get k m))
  | JNull => Ok JNull
  | _ => Throw (runtime_error "in Json::Value::find(begin, end): requires objectValue or nullValue")
  end.
Definition slot_at (v : json) (k : string) : Result (members * json) :=
  match v with
  | JObject m => match obj_get k m with Some x => Ok (m, x) | None => Ok (obj_set k JNull m, JNull) end
  | JNull => Ok ([(k, JNull)], JNull)
  | _ => Throw (runtime_error "in Json::Value::resolveReference(key, end): requires objectValue")
  end.
(** [v[k] = x] *)
Definition set_at (v : json) (k : string) (x : json) : Result json := '(m, _) ← slot_at v k; Ok (JObject (obj_set k x m)).

(** A range-[for], and the value with what it leaves of the elements. *)
Definition elements (v : json) : list json := match v with JArray l => l | JObject m => m.*2 | _ => [] end.
Fixpoint put_back (m : members) (l : list json) : members :=
  match m, l with (k, _) :: m, x :: l => (k, x) :: put_back m l | _, _ => m end.
Definition with_elements (v : json) (l : list json) : json :=
  match v with JArray _ => JArray l | JObject m => JObject (put_back m l) | v => v end.

(** ** Files *)

(** What a read of the registry finds: the value, when the text is no JSON, is what
    the parser had read so far. *)
Inductive RegistryFile := NoFile | Locked | Text (parses : bool) (value : json).
(** The directory of the packages: whether each entry is a directory and has
    seed/schema/entities.json. *)
Inductive PackagesPath := NoPath | NoDirectory | Packages (entries : list (bool * bool)).
Record SchemaFiles := mkSchemaFiles {
  sf_registry : RegistryFile; sf_registry_writable : bool;
  sf_packages : PackagesPath; sf_output : option string; sf_output_writable : bool;
}.

Section Actions.
Context (real_text : spec_float -> string) (what : Exn -> string).
(** What a value is after it was printed and read again. *)
Context (written : json -> bool * json).
Context (registry_path packages_path output_path : string).

(** ** The registry (schema_loader_action.cpp) *)

Definition empty_registry (v : json) : Result json :=
  v ← set_at v "version" (JString "1.0.0"); v ← set_at v "packages" (JObject []); set_at v "migrationQueue" (JArray []).
Definition load_registry (s : SchemaFiles) : Result json :=
  match sf_registry s with
  | Text true v => Ok v
  | Text false v => empty_registry v
  | NoFile | Locked => empty_registry JNull
  end.
(** False when the file cannot be opened. *)
Definition save_registry (registry : json) : Op SchemaFiles bool := fun s =>
  if sf_registry_writable s then
    let '(parses, v) := written registry in
    (Ok true, mkSchemaFiles (Text parses v) true (sf_packages s) (sf_output s) (sf_output_writable s))
  else (Ok false, s).

Definition text_at (v : json) (k : string) : Result string := x ← const_at v k; as_string real_text x.
Fixpoint with_status (status : string) (l : list json) : Result (list json) :=
  match l with
  | [] => Ok []
  | migration :: l =>
      st ← text_at migration "status"; rest ← with_status status l;
      Ok (if String.eqb st status then migration :: rest else rest)
  end.
Definition get_migrations (status : string) (registry : json) : Result (list json) :=
  queue ← const_at registry "migrationQueue"; with_status status (elements queue).
Definition get_pending_migrations := get_migrations "pending".
Definition get_approved_migrations := get_migrations "approved".

(** ** Answers (schema_route_handler.cpp) *)

Definition fail_with (message : string) (status : Z) : AdminResponse := refusal status message.
(** [try { ... } catch (const std::exception& e) { send_error(prefix + e.what(), 500); }] *)
Definition caught (prefix : string) (m : Op SchemaFiles AdminResponse) : Op SchemaFiles AdminResponse := fun s =>
  match m s with
  | (Throw x, s') => (Ok (fail_with (prefix +:+ what x) 500), s')
  | r => r
  end.

(** ** Listing and scanning *)

Definition handle_list : Op SchemaFiles AdminResponse := caught "Failed to load registry: " (fun s => (
  registry ← load_registry s; pending ← get_pending_migrations registry; '(_, packages) ← slot_at registry "packages";
  Ok (build_json_response (object [("status", JString "ok"); ("pendingCount", JInt (Z.of_nat (length pending)));
    ("migrations", JArray pending); ("packages", packages)])), s)).

Definition handle_scan : Op SchemaFiles AdminResponse := caught "Scan failed: " (
  registry ← (fun s => (load_registry s, s));
  packages ← gets sf_packages;
  match packages with
  | NoPath => mret (fail_with ("Packages directory not found: " +:+ packages_path) 404)
  | NoDirectory => throw (runtime_error ("directory iterator cannot open directory: " +:+ packages_path))
  | Packages entries =>
      let scanned := length (List.filter (fun e => e.1 && e.2) entries) in
      save_registry registry;;
      mret (build_json_response (object [("status", JString "ok"); ("action", JString "scan");
        ("packagesScanned", JInt (Z.of_nat scanned)); ("changesQueued", JInt 0); ("errors", JArray []);
        ("note", JString "Full schema parsing delegated to Next.js API")]))
  end).

(** ** Approving and rejecting (schema_validator_action.cpp) *)

Definition is_all (id : string) : bool := String.eqb id "all".
Definition approved (timestamp : string) (m : members) : json :=
  JObject (obj_set "approvedAt" (JString timestamp) (obj_set "status" (JString "approved") m)).

(** The loop, with how many it approves; it ends at the migration it was for. *)
Fixpoint approve_loop (id timestamp : string) (queue : list json) : Result (list json * Z) :=
  match queue with
  | [] => Ok ([], 0%Z)
  | migration :: queue =>
      '(m, status) ← slot_at migration "status"; st ← as_string real_text status;
      if negb (String.eqb st "pending") then '(queue, n) ← approve_loop id timestamp queue; Ok (JObject m :: queue, n)
      else if is_all id then '(queue, n) ← approve_loop id timestamp queue; Ok (approved timestamp m :: queue, (n + 1)%Z)
      else
        '(m, mid) ← slot_at (JObject m) "id"; mid ← as_string real_text mid;
        if String.eqb mid id then Ok (approved timestamp m :: queue, 1%Z)
        else '(queue, n) ← approve_loop id timestamp queue; Ok (JObject m :: queue, n)
  end.

Definition handle_approve (now : Z) (id : string) : Op SchemaFiles AdminResponse := caught "Approve failed: " (
  registry ← (fun s => (load_registry s, s));
  '(m, queue) ← of_result (slot_at registry "migrationQueue");
  '(l, approved_count) ← of_result (approve_loop id (iso_time now) (elements queue));
  if (approved_count =? 0)%Z && negb (is_all id) then mret (fail_with ("Migration not found: " +:+ id) 404)
  else
    save_registry (JObject (obj_set "migrationQueue" (with_elements queue l) m));;
    mret (build_json_response (object [("status", JString "ok"); ("action", JString "approve"); ("approved", JInt approved_count);
      ("message", JString ("Approved " +:+ (to_string approved_count +:+ " migration(s)")))]))).

(** The loop, with whether it found the migration pending. *)
Fixpoint reject_loop (id : string) (queue : list json) : Result (list json * bool) :=
  match queue with
  | [] => Ok ([], false)
  | migration :: queue =>
      '(m, mid) ← slot_at migration "id"; mid ← as_string real_text mid;
      if negb (String.eqb mid id) then '(queue, found) ← reject_loop id queue; Ok (JObject m :: queue, found)
      else
        '(m, status) ← slot_at (JObject m) "status"; st ← as_string real_text status;
        if String.eqb st "pending" then Ok (JObject (obj_set "status" (JString "rejected") m) :: queue, true)
        else '(queue, found) ← reject_loop id queue; Ok (JObject m :: queue, found)
  end.

Definition handle_reject (id : string) : Op SchemaFiles AdminResponse := caught "Reject failed: " (
  registry ← (fun s => (load_registry s, s));
  '(m, queue) ← of_result (slot_at registry "migrationQueue");
  '(l, found) ← of_result (reject_loop id (elements queue));
  if negb found then mret (fail_with ("Migration not found or not pending: " +:+ id) 404)
  else
    save_registry (JObject (obj_set "migrationQueue" (with_elements queue l) m));;
    mret (build_json_response (object [("status", JString "ok"); ("action", JString "reject"); ("id", JString id);
      ("message", JString ("Rejected migration " +:+ id))]))).

(** ** Models (table_creator_action.cpp) *)

Fixpoint pascal (capitalize_next : bool) (snake_case : string) : string :=
  match snake_case with
  | "" => ""
  | String c s =>
      if Ascii.eqb c "_" then pascal true s
      else if capitalize_next then String (to_upper_char c) (pascal false s)
      else String (to_lower_char c) (pascal false s)
  end.
Definition to_pascal_case (snake_case : string) : string := pascal true snake_case.
Definition get_prefixed_name (packageId entity_name : string) : string := "Pkg_" +:+ (to_pascal_case packageId +:+ ("_" +:+ entity_name)).
Definition get_table_name (packageId entity_name : string) : string := packageId +:+ ("_" +:+ to_lower entity_name).

Definition yaml_type_to_prisma (yaml_type : string) : string :=
  let one_of := existsb (String.eqb yaml_type) in
  if one_of ["String"; "string"] then "String" else if one_of ["Int"; "int"; "integer"] then "Int"
  else if one_of ["Float"; "float"; "double"] then "Float" else if one_of ["Boolean"; "boolean"; "bool"] then "Boolean"
  else if one_of ["DateTime"; "datetime"; "timestamp"] then "DateTime" else if one_of ["Json"; "json"; "object"] then "Json"
  else if one_of ["BigInt"; "bigint"] then "BigInt" else "String".

Definition newline : string := String "010" "".
Definition dquoted (s : string) : string := String "034" (s +:+ String "034" "").
Definition flag (field : json) (k text : string) : Result string :=
  v ← jget field k (JBool false); b ← as_bool v; Ok (if b : bool then text else "").
Definition field_line (field_name : string) (field : json) : Result string :=
  t ← jget field "type" (JString "String"); t ← as_string real_text t;
  nullable ← flag field "nullable" "?"; primary ← flag field "primary" " @id";
  generated ← flag field "generated" " @default(cuid())"; unique ← flag field "unique" " @unique";
  Ok ("  " +:+ (field_name +:+ (" " +:+ (yaml_type_to_prisma t +:+ (nullable +:+ (primary +:+ (generated +:+ (unique +:+ newline)))))))).
Fixpoint field_lines (fields : members) : Result string :=
  match fields with
  | [] => Ok ""
  | (field_name, field) :: fields => l ← field_line field_name field; rest ← field_lines fields; Ok (l +:+ rest)
  end.
(** [v.getMemberNames()] with the members. *)
Definition members_of (v : json) : Result members :=
  match v with
  | JObject m => Ok m
  | JNull => Ok []
  | _ => Throw (runtime_error "in Json::Value::getMemberNames(), value must be objectValue")
  end.
Definition entity_to_prisma (packageId : string) (entity : json) : Result string :=
  name ← text_at entity "name"; fields ← const_at entity "fields"; fields ← members_of fields; lines ← field_lines fields;
  Ok ("model " +:+ (get_prefixed_name packageId name +:+ (" {" +:+ (newline +:+ (lines +:+ (newline +:+ ("  @@map(" +:+
    (dquoted (get_table_name packageId name) +:+ (")" +:+ (newline +:+ ("}" +:+ newline))))))))))).

Fixpoint entities_text (packageId : string) (entities : list json) : Result string :=
  match entities with
  | [] => Ok ""
  | entity :: entities => t ← entity_to_prisma packageId entity; rest ← entities_text packageId entities; Ok (t +:+ (newline +:+ rest))
  end.
Fixpoint packages_text (approved : list json) : Result string :=
  match approved with
  | [] => Ok ""
  | migration :: approved =>
      pkg_id ← text_at migration "packageId"; entities ← const_at migration "entities";
      t ← entities_text pkg_id (elements entities); rest ← packages_text approved;
      Ok ("// Package: " +:+ (pkg_id +:+ (newline +:+ (t +:+ rest))))
  end.

Definition handle_generate (now : Z) : Op SchemaFiles AdminResponse := caught "Generate failed: " (
  registry ← (fun s => (load_registry s, s)); approved ← of_result (get_approved_migrations registry);
  match approved with
  | [] => mret (build_json_response (object [("status", JString "ok"); ("action", JString "generate"); ("generated", JBool false);
      ("message", JString "No approved migrations to generate")]))
  | _ =>
      models ← of_result (packages_text approved);
      let text := "// Auto-generated from package schemas" +:+ (newline +:+ ("// DO NOT EDIT MANUALLY" +:+ (newline +:+
        ("// Generated at: " +:+ (iso_time now +:+ (newline +:+ (newline +:+ models))))))) in
      writable ← gets sf_output_writable;
      if negb writable then mret (fail_with ("Failed to write output file: " +:+ output_path) 500)
      else
        modify (fun s => mkSchemaFiles (sf_registry s) (sf_registry_writable s) (sf_packages s) (Some text) true);;
        mret (build_json_response (object [("status", JString "ok"); ("action", JString "generate"); ("generated", JBool true);
          ("path", JString output_path); ("migrationCount", JInt (Z.of_nat (length approved)));
          ("nextStep", JString "Run: npx prisma migrate dev --name package-schemas")]))
  end).

(** ** The handler (schema_route_handler.cpp) *)

(** [body] is the request's body, when it is JSON. *)
Definition handleSchema (now : Z) (method : HttpMethod) (body : option json) : Op SchemaFiles AdminResponse :=
  if bool_decide (method = Get) then handle_list
  else match body with
  | None => mret (fail_with "Invalid JSON payload" 400)
  | Some body =>
      action ← of_result (text_of real_text body "action"); id ← of_result (text_of real_text body "id");
      if String.eqb action "scan" then handle_scan
      else if String.eqb action "approve" then
        if is_empty id then mret (fail_with "Migration ID required" 400) else handle_approve now id
      else if String.eqb action "reject" then
        if is_empty id then mret (fail_with "Migration ID required" 400) else handle_reject id
      else if String.eqb action "generate" then handle_generate now
      else mret (fail_with ("Unknown action: " +:+ action) 400)
  end.
End Actions.

(** ** Values that survive their file *)

(** Numbers that are integers and texts in ASCII are printed and read exactly. *)
Definition ascii_text (s : string) : bool := string_forallb (fun c => byte_of c <? 128)%N s.
Fixpoint exact (v : json) : bool :=
  match v with
  | JFloat _ => false
  | JString s => ascii_text s
  | JArray l => forallb exact l
  | JObject m => forallb (fun '(k, x) => ascii_text k && exact x) m
  | _ => true
  end.

Lemma exact_get m k x : exact (JObject m) = true -> obj_get k m = Some x -> exact x = true.
Proof.
  cbn [exact]. induction m as [|[k' v] m IH]; [done|]. cbn [forallb obj_get]. rewrite !andb_true_iff. intros [[_ Hv] Hm].
  destruct (String.eqb k k'); [congruence|]. by apply IH.
Qed.
Lemma exact_set m k x : exact (JObject m) = true -> ascii_text k = true -> exact x = true -> exact (JObject (obj_set k x m)) = true.
Proof.
  intros Hm Hk Hx. cbn [exact] in *. induction m as [|[k' v] m IH]; cbn [obj_set forallb]; [by rewrite Hk, Hx|].
  cbn [forallb] in Hm. apply andb_true_iff in Hm as [Hv Hm]. destruct (String.eqb k k'); cbn [forallb]; [by rewrite Hk, Hx, Hm|].
  destruct (String.ltb k k'); cbn [forallb]; [by rewrite Hk, Hx, Hv, Hm|by rewrite Hv, IH].
Qed.

Lemma digits_ascii s : string_forallb is_digit s = true -> ascii_text s = true.
Proof.
  unfold ascii_text. induction s as [|c s IH]; [done|]. cbn [string_forallb]. rewrite !andb_true_iff. intros [Hc Hs].
  split; [|by apply IH]. clear -Hc. revert Hc. by destruct c as [[] [] [] [] [] [] [] []].
Qed.
Lemma to_string_ascii z : ascii_text (to_string z) = true.
Proof.
  assert (forall n, ascii_text (dec_string n) = true) as Hdec by (intros n; apply digits_ascii; by destruct (canonical_dec_string n)).
  unfold to_string. destruct (z <? 0)%Z; [|apply Hdec]. unfold ascii_text in *. by rewrite string_forallb_app, Hdec.
Qed.
Lemma two_ascii z : ascii_text (two z) = true.
Proof.
  pose proof (to_string_ascii z) as H. unfold two, ascii_text in *. rewrite string_forallb_app, H. by destruct (z <? 10)%Z.
Qed.
Lemma iso_time_ascii now : ascii_text (iso_time now) = true.
Proof.
  unfold iso_time, clock_text. destruct (civil_of_days _) as [[y m] d].
  pose proof to_string_ascii as Hs. pose proof two_ascii as Ht. unfold ascii_text in *. by rewrite !string_forallb_app, !Hs, !Ht.
Qed.

(** ** What becomes of a migration *)

Definition status_of (v : json) : option string := string_member v "status".
(** An entry as the registry should have them. *)
Definition migration_ok (v : json) : Prop :=
  exact v = true /\ is_Some (string_member v "id") /\ is_Some (status_of v).
(** [v'] is [v] later: only a pending migration has changed, and only its status and
    the time of its approval. *)
Definition decided (v v' : json) : Prop :=
  (status_of v' = status_of v \/ (status_of v = Some "pending" /\ (status_of v' = Some "approved" \/ status_of v' = Some "rejected"))) /\
  (status_of v <> Some "pending" -> v' = v) /\
  forall k, k <> "status" -> k <> "approvedAt" -> member v' k = member v k.

#[export] Instance decided_preorder : PreOrder decided.
Proof.
  split.
  - intros v. split; [by left|]. done.
  - intros u v w (Huv & Hu & Ku) (Hvw & Hv & Kv). split_and!.
    + destruct Hvw as [->|[Hp Hw]]; [done|]. destruct Huv as [<-|[Hq [Hr|Hr]]]; [by right|congruence..].
    + intros Hn. specialize (Hu Hn) as ->. by apply Hv.
    + intros k H1 H2. by rewrite Kv, Ku.
Qed.

Lemma migration_slot v k s : string_member v k = Some s -> exists m, v = JObject m /\ slot_at v k = Ok (m, JString s).
Proof.
  unfold string_member. destruct v as [| | | | | |m]; try done. cbn [member slot_at]. destruct (obj_get k m) as [[]|] eqn:Hk; try done.
  intros [= <-]. eauto.
Qed.

Lemma decide_status m status v' :
  status_of (JObject m) = Some "pending" -> (status = "approved" \/ status = "rejected") ->
  (forall k, k <> "approvedAt" -> member v' k = member (JObject (obj_set "status" (JString status) m)) k) -> decided (JObject m) v'.
Proof.
  intros Hp Hs Hv. split_and!.
  - right. split; [done|]. unfold status_of, string_member. rewrite Hv by done. cbn [member]. rewrite obj_get_set, String.eqb_refl.
    by destruct Hs as [-> | ->]; [left|right].
  - by rewrite Hp.
  - intros k H1 H2. rewrite Hv by done. cbn [member]. rewrite obj_get_set. by apply String.eqb_neq in H1 as ->.
Qed.
Lemma ok_after_set m k x : migration_ok (JObject m) -> k <> "id" -> ascii_text k = true -> exact (JString x) = true ->
  migration_ok (JObject (obj_set k (JString x) m)).
Proof.
  intros (He & Hi & Hs) Hk Hka Hx. split_and!; [by apply exact_set|..]; unfold status_of, string_member in *; cbn [member] in *; rewrite obj_get_set.
  - assert (String.eqb "id" k = false) as -> by (apply String.eqb_neq; congruence). done.
  - destruct (String.eqb "status" k); [done|exact Hs].
Qed.

Section Decisions.
Context (real_text : spec_float -> string) (what : Exn -> string).
Context (written : json -> bool * json) (written_exact : forall v, exact v = true -> written v = (true, v)).
Context (packages_path output_path : string).

Lemma approved_ok timestamp m : ascii_text timestamp = true -> migration_ok (JObject m) -> status_of (JObject m) = Some "pending" ->
  migration_ok (approved timestamp m) /\ decided (JObject m) (approved timestamp m).
Proof.
  intros Ht Hok Hp. unfold approved. split; [by repeat apply ok_after_set|].
  apply (decide_status _ "approved"); [done|by left|]. intros k Hk. cbn [member]. rewrite obj_get_set. by apply String.eqb_neq in Hk as ->.
Qed.

#[local] Instance all_decided_refl : Reflexive (Forall2 decided).
Proof. intros l. induction l; constructor; [reflexivity|done]. Qed.
(** The rest of the queue is as the induction hypothesis or as it was. *)
Ltac queue_done := eexists _, _; split; [reflexivity|]; split; constructor; first [assumption|reflexivity].

Lemma approve_loop_decides id timestamp queue : ascii_text timestamp = true -> Forall migration_ok queue ->
  exists queue' n, approve_loop real_text id timestamp queue = Ok (queue', n) /\ Forall migration_ok queue' /\ Forall2 decided queue queue'.
Proof.
  intros Ht. induction queue as [|v queue IH]; intros Hall; [by exists [], 0%Z|]. apply Forall_cons in Hall as [Hv Hall].
  destruct (IH Hall) as (queue' & n & Hrun & Hok & Hdec). clear IH. pose proof Hv as (_ & [i Hi] & [st Hst]).
  destruct (migration_slot _ _ _ Hst) as (m & -> & Hslot). cbn [approve_loop]. rewrite Hslot. cbn [mbind Result_bind as_string].
  destruct (String.eqb_spec st "pending") as [->|Hne]; cbn [negb].
  - destruct (approved_ok timestamp m Ht Hv Hst) as [Hao Had]. destruct (is_all id).
    + rewrite Hrun. cbn. queue_done.
    + destruct (migration_slot _ _ _ Hi) as (m' & [= <-] & ->). cbn [mbind Result_bind as_string]. destruct (String.eqb i id).
      * queue_done.
      * rewrite Hrun. cbn. queue_done.
  - rewrite Hrun. cbn. queue_done.
Qed.

Lemma rejected_ok m : migration_ok (JObject m) -> status_of (JObject m) = Some "pending" ->
  migration_ok (JObject (obj_set "status" (JString "rejected") m)) /\ decided (JObject m) (JObject (obj_set "status" (JString "rejected") m)).
Proof. intros Hok Hp. split; [by apply ok_after_set|]. apply (decide_status _ "rejected"); [done|by right|done]. Qed.

Lemma reject_loop_decides id queue : Forall migration_ok queue ->
  exists queue' found, reject_loop real_text id queue = Ok (queue', found) /\ Forall migration_ok queue' /\ Forall2 decided queue queue'.
Proof.
  induction queue as [|v queue IH]; intros Hall; [by exists [], false|]. apply Forall_cons in Hall as [Hv Hall].
  destruct (IH Hall) as (queue' & found & Hrun & Hok & Hdec). clear IH. pose proof Hv as (_ & [i Hi] & [st Hst]).
  destruct (migration_slot _ _ _ Hi) as (m & -> & Hslot). cbn [reject_loop]. rewrite Hslot. cbn [mbind Result_bind as_string].
  destruct (negb (String.eqb i id)); [rewrite Hrun; cbn; queue_done|].
  destruct (migration_slot _ _ _ Hst) as (m' & [= <-] & ->). cbn [mbind Result_bind as_string]. destruct (String.eqb_spec st "pending") as [->|Hne].
  - destruct (rejected_ok m Hv Hst). queue_done.
  - rewrite Hrun. cbn. queue_done.
Qed.

(** ** Runs of requests *)

(** The registry is in its file, with the queue [l]. *)
Definition holds_queue (s : SchemaFiles) (l : list json) : Prop := exists m,
  sf_registry s = Text true (JObject m) /\ exact (JObject m) = true /\
  obj_get "migrationQueue" m = Some (JArray l) /\ Forall migration_ok l.

Definition keeps_deciding (m : Op SchemaFiles AdminResponse) : Prop := forall s l, holds_queue s l ->
  exists l', holds_queue (m s).2 l' /\ Forall2 decided l l'.

Lemma same_registry s s' l : sf_registry s' = sf_registry s -> holds_queue s l -> exists l', holds_queue s' l' /\ Forall2 decided l l'.
Proof. intros Hr (m & Hm & H). exists l. split; [|reflexivity]. exists m. by rewrite Hr. Qed.
Lemma keeps_caught prefix m : keeps_deciding m -> keeps_deciding (caught what prefix m).
Proof.
  intros Hm s l Hl. destruct (Hm s l Hl) as (l' & Hl' & Hd). exists l'. split; [|done]. unfold caught. by destruct (m s) as [[] s'].
Qed.
Lemma saved_registry m l l' s : holds_queue s l -> exact (JObject m) = true -> obj_get "migrationQueue" m = Some (JArray l') ->
  Forall migration_ok l' -> Forall2 decided l l' -> exists l'', holds_queue (save_registry written (JObject m) s).2 l'' /\ Forall2 decided l l''.
Proof.
  intros Hs He Hq Hok Hd. unfold save_registry. destruct (sf_registry_writable s) eqn:Hw; [|by exists l].
  rewrite (written_exact _ He). exists l'. split; [|done]. by exists m.
Qed.

Lemma exact_all l : Forall migration_ok l -> exact (JArray l) = true.
Proof. intros H. cbn. apply forallb_forall. intros v Hin. rewrite Forall_forall in H. by apply H, list_elem_of_In. Qed.
Lemma with_queue_exact m l : exact (JObject m) = true -> Forall migration_ok l -> exact (JObject (obj_set "migrationQueue" (JArray l) m)) = true.
Proof. intros He Hl. apply exact_set; [done..|]. by apply exact_all. Qed.
Lemma with_queue_get m v : obj_get "migrationQueue" (obj_set "migrationQueue" v m) = Some v.
Proof. by rewrite obj_get_set. Qed.

Lemma list_keeps : keeps_deciding (handle_list real_text what).
Proof. apply keeps_caught. intros s l. by apply same_registry. Qed.
Lemma scan_keeps : keeps_deciding (handle_scan what written packages_path).
Proof.
  apply keeps_caught. intros s l Hl. pose proof Hl as (m & Hr & He & Hq & Hok). unfold mbind, Op_bind, load_registry, gets. rewrite Hr.
  destruct (sf_packages s); try by apply (same_registry s).
  destruct (saved_registry m l l s) as (l' & Hl' & Hd); [done..|].
  exists l'. split; [|done]. by destruct (save_registry written (JObject m) s) as [[] s'].
Qed.

Lemma approve_keeps now id : keeps_deciding (handle_approve real_text what written now id).
Proof.
  apply keeps_caught. intros s l Hl. pose proof Hl as (m & Hr & He & Hq & Hok). unfold mbind, Op_bind, load_registry, of_result. rewrite Hr.
  cbn [slot_at]. rewrite Hq. cbn [elements with_elements].
  destruct (approve_loop_decides id (iso_time now) l (iso_time_ascii now) Hok) as (l1 & n & -> & Hok1 & Hd).
  destruct (_ && _); [by apply (same_registry s)|].
  destruct (saved_registry (obj_set "migrationQueue" (JArray l1) m) l l1 s) as (l' & Hl' & Hd');
    [done|by apply with_queue_exact|apply with_queue_get|done..|].
  exists l'. split; [|done]. by destruct (save_registry written _ s) as [[] s'].
Qed.
Lemma reject_keeps id : keeps_deciding (handle_reject real_text what written id).
Proof.
  apply keeps_caught. intros s l Hl. pose proof Hl as (m & Hr & He & Hq & Hok). unfold mbind, Op_bind, load_registry, of_result. rewrite Hr.
  cbn [slot_at]. rewrite Hq. cbn [elements with_elements].
  destruct (reject_loop_decides id l Hok) as (l1 & found & -> & Hok1 & Hd). destruct (negb found); [by apply (same_registry s)|].
  destruct (saved_registry (obj_set "migrationQueue" (JArray l1) m) l l1 s) as (l' & Hl' & Hd');
    [done|by apply with_queue_exact|apply with_queue_get|done..|].
  exists l'. split; [|done]. by destruct (save_registry written _ s) as [[] s'].
Qed.
Lemma generate_keeps now : keeps_deciding (handle_generate real_text what output_path now).
Proof.
  apply keeps_caught. intros s l. apply same_registry. unfold mbind, Op_bind, of_result, gets, modify.
  repeat case_match; by simplify_eq.
Qed.

Lemma request_keeps now method body : keeps_deciding (handleSchema real_text what written packages_path output_path now method body).
Proof.
  unfold handleSchema. case_bool_decide; [apply list_keeps|]. destruct body as [body|]; [|by intros s l; apply same_registry].
  intros s l Hl. unfold mbind, Op_bind, of_result. destruct (text_of _ _ "action"); try by apply (same_registry s).
  destruct (text_of _ _ "id"); try by apply (same_registry s).
  repeat case_match; first [by apply scan_keeps|by apply approve_keeps|by apply reject_keeps|by apply generate_keeps|by apply (same_registry s)].
Qed.

Inductive schema_step : SchemaFiles -> SchemaFiles -> Prop :=
  | step_request now method body s :
      schema_step s (handleSchema real_text what written packages_path output_path now method body s).2.

(** C22. Decisions are final, and only pending migrations are decided.  Along every run
    of requests, from a registry whose entries have an identifier and a status and whose
    texts the JSON library keeps exactly, the
    queue keeps its entries in their order; an entry changes only while it is
    pending, only to approved or to rejected, and only in its status and the time of
    its approval; one that is approved or rejected stays as it is for good. *)
Theorem decisions_are_final s s' l :
  holds_queue s l -> rtc schema_step s s' -> exists l', holds_queue s' l' /\ Forall2 decided l l'.
Proof.
  intros Hl Hrun. revert l Hl. induction Hrun as [s|s s1 s2 Hstep _ IH]; intros l Hl; [exists l; split; [done|reflexivity]|].
  destruct Hstep as [now method body s]. destruct (request_keeps now method body s l Hl) as (l1 & Hl1 & Hd1).
  destruct (IH l1 Hl1) as (l2 & Hl2 & Hd2). exists l2. split; [done|]. by transitivity l1.
Qed.

(** ** Approving one migration *)

Definition pending_with (id : string) (v : json) : Prop := status_of v = Some "pending" /\ string_member v "id" = Some id.

(** One round of the loop. *)
Lemma approve_round id timestamp m queue : is_all id = false -> migration_ok (JObject m) ->
  (pending_with id (JObject m) /\
    approve_loop real_text id timestamp (JObject m :: queue) = Ok (approved timestamp m :: queue, 1%Z)) \/
  (~ pending_with id (JObject m) /\ approve_loop real_text id timestamp (JObject m :: queue) =
    '(queue, n) ← approve_loop real_text id timestamp queue; Ok (JObject m :: queue, n)).
Proof.
  intros Hid (_ & [i Hi] & [st Hst]). unfold pending_with. rewrite Hst, Hi.
  destruct (migration_slot _ _ _ Hst) as (m' & [= <-] & Hs1). destruct (migration_slot _ _ _ Hi) as (m' & [= <-] & Hs2).
  cbn [approve_loop]. rewrite Hs1, Hid. cbn [mbind Result_bind as_string].
  destruct (String.eqb_spec st "pending") as [->|Hne]; cbn [negb]; [|right; split; [naive_solver|done]].
  rewrite Hs2. cbn [mbind Result_bind as_string].
  destruct (String.eqb_spec i id) as [->|Hne]; [by left|right; split; [naive_solver|done]].
Qed.
Lemma approve_loop_one id timestamp queue : is_all id = false -> Forall migration_ok queue ->
  (approve_loop real_text id timestamp queue = Ok (queue, 0%Z) /\ Forall (fun v => ~ pending_with id v) queue) \/
  exists l1 m l2, queue = (l1 ++ JObject m :: l2)%list /\ Forall (fun v => ~ pending_with id v) l1 /\ pending_with id (JObject m) /\
    approve_loop real_text id timestamp queue = Ok ((l1 ++ approved timestamp m :: l2)%list, 1%Z).
Proof.
  intros Hid. induction queue as [|v queue IH]; intros Hall; [by left|]. apply Forall_cons in Hall as [Hv Hall]. specialize (IH Hall).
  pose proof Hv as (_ & [i Hi] & _). destruct (migration_slot _ _ _ Hi) as (m & -> & _).
  destruct (approve_round id timestamp m queue Hid Hv) as [[Hp ->]|[Hno ->]]; [right; by exists [], m, queue|].
  destruct IH as [[-> Hnone]|(l1 & m1 & l2 & -> & Hnone & Hp & ->)]; [left; split; [done|by constructor]|].
  right. exists (JObject m :: l1), m1, l2. split; [done|]. by split; [constructor|].
Qed.

(** C28. Approving a migration approves that one.  For an identifier other than
    "all", a request to approve it changes the first pending entry with this
    identifier, to approved at the time of the request, and no other, where the
    registry can be written; where it cannot, the answer is 200 all the same and nothing
    has changed.  Where there is no such entry it answers 404 and changes nothing.  (The
    texts of the registry are ones the JSON library keeps exactly.) *)
Theorem approve_decides_one now id s l :
  holds_queue s l -> is_all id = false ->
  let '(r, s') := handle_approve real_text what written now id s in
  (Forall (fun v => ~ pending_with id v) l /\ s' = s /\ exists a, r = Ok a /\ ap_status a = 404%Z) \/
  (exists l1 m l2, l = (l1 ++ JObject m :: l2)%list /\ Forall (fun v => ~ pending_with id v) l1 /\ pending_with id (JObject m) /\
    (if sf_registry_writable s then holds_queue s' (l1 ++ approved (iso_time now) m :: l2)%list else s' = s) /\
    exists a, r = Ok a /\ ap_status a = 200%Z).
Proof.
  intros Hl Hid. pose proof Hl as (m & Hr & He & Hq & Hok).
  unfold handle_approve, caught, mbind, Op_bind, load_registry, of_result. rewrite Hr. cbn [slot_at]. rewrite Hq. cbn [elements with_elements].
  destruct (approve_loop_decides id (iso_time now) l (iso_time_ascii now) Hok) as (l3 & n & Hrun & Hok3 & _).
  destruct (approve_loop_one id (iso_time now) l Hid Hok) as [[Hone Hnone]|(l1 & m1 & l2 & Hsplit & Hnone & Hp & Hone)]; rewrite Hone, Hid.
  - left. split; [done|]. split; [done|]. by eexists.
  - rewrite Hrun in Hone. injection Hone as -> ->. cbn [Z.eqb andb]. unfold save_registry.
    pose proof (with_queue_exact m _ He Hok3) as He3. rewrite (written_exact _ He3).
    destruct (sf_registry_writable s); right; exists l1, m1, l2; [|split_and!; try done; by eexists].
    split_and!; try done; [|by eexists].
    exists (obj_set "migrationQueue" (JArray (l1 ++ approved (iso_time now) m1 :: l2)) m). split_and!; try done. apply with_queue_get.
Qed.
End Decisions.

(** ** Runs *)

Definition kept (v : json) : bool * json := (true, v).
Definition schema_what (x : Exn) : string := match x with runtime_error m => m | _ => "" end.
Definition ask_schema (now : Z) (method : HttpMethod) (body : option json) : Op SchemaFiles AdminResponse :=
  handleSchema (fun _ => "") schema_what kept "/packages" "/out.prisma" now method body.
Definition act (action id : string) : option json := Some (object [("action", JString action); ("id", JString id)]).

Definition forum_entity : json := object [("name", JString "Post"); ("fields", object
  [("id", object [("type", JString "string"); ("primary", JBool true)]); ("likes", object [("type", JString "int"); ("nullable", JBool true)])])].
Definition migration (id package status : string) : json := object
  [("id", JString id); ("packageId", JString package); ("status", JString status); ("entities", JArray [forum_entity])].
Definition demo_queue : list json := [migration "m1" "forum_plus" "pending"; migration "m2" "media" "pending"].
Definition demo_registry : json := object [("version", JString "1.0.0"); ("packages", JObject []); ("migrationQueue", JArray demo_queue)].
Definition demo_files : SchemaFiles := mkSchemaFiles (Text true demo_registry) true (Packages [(true, true); (false, false)]) None true.
Definition statuses (s : SchemaFiles) : list (option string) :=
  match load_registry s with Ok v => status_of <$> elements (default JNull (member v "migrationQueue")) | _ => [] end.

Definition approved_m1 : SchemaFiles := (ask_schema 0 Post (act "approve" "m1") demo_files).2.
Definition rejected_m2 : SchemaFiles := (ask_schema 0 Post (act "reject" "m2") approved_m1).2.
Definition answered (p : Result AdminResponse * SchemaFiles) : Z := match p.1 with Ok a => ap_status a | _ => 0 end.

(** Nobody is asked who is calling. *)
Example schema_run :
  statuses rejected_m2 = [Some "approved"; Some "rejected"] /\
  answered (ask_schema 0 Post (act "reject" "m1") rejected_m2) = 404%Z /\
  statuses (ask_schema 0 Post (act "approve" "all") rejected_m2).2 = [Some "approved"; Some "rejected"] /\
  sf_output (ask_schema 0 Post (act "generate" "") rejected_m2).2 = Some (
    "// Auto-generated from package schemas" +:+ (newline +:+ ("// DO NOT EDIT MANUALLY" +:+ (newline +:+
    ("// Generated at: 1970-01-01T00:00:00Z" +:+ (newline +:+ (newline +:+ ("// Package: forum_plus" +:+ (newline +:+
    ("model Pkg_ForumPlus_Post {" +:+ (newline +:+ ("  id String @id" +:+ (newline +:+ ("  likes Int?" +:+ (newline +:+ (newline +:+
    ("  @@map(" +:+ (dquoted "forum_plus_post" +:+ (")" +:+ (newline +:+ ("}" +:+ (newline +:+ newline)))))))))))))))))))))).
Proof. split_and!; vm_compute; reflexivity. Qed.

(** A registry that cannot be read as JSON, for a slip of an editor, is replaced by
    an empty one as soon as somebody asks for a scan. *)
Example garbled_registry_is_lost :
  sf_registry (ask_schema 0 Post (act "scan" "")
    (mkSchemaFiles (Text false demo_registry) true (Packages []) None true)).2 =
  Text true (object [("version", JString "1.0.0"); ("packages", JObject []); ("migrationQueue", JArray [])]).
Proof. vm_compute. reflexivity. Qed.

(** An approval that cannot be stored is answered as one that was. *)
Example unsaved_approval :
  let r := ask_schema 0 Post (act "approve" "m1") (mkSchemaFiles (Text true demo_registry) false NoPath None true) in
  answered r = 200%Z /\ statuses r.2 = [Some "pending"; Some "pending"].
Proof. vm_compute. split; reflexivity. Qed.

(** Two packages may give their models the same name. *)
Example model_names_clash : get_prefixed_name "media_files" "File" = get_prefixed_name "Media__Files" "File".
Proof. reflexivity. Qed.

Lemma demo_queue_held : holds_queue demo_files demo_queue.
Proof.
  exists (match demo_registry with JObject m => m | _ => [] end). split; [reflexivity|]. split; [vm_compute; reflexivity|].
  split; [reflexivity|]. repeat constructor; vm_compute; first [reflexivity|eexists; reflexivity].
Qed.
Lemma kept_exact v : exact v = true -> kept v = (true, v).
Proof. intros _. reflexivity. Qed.

Lemma decisions_are_final_witness :
  statuses rejected_m2 = [Some "approved"; Some "rejected"] /\ exists l, holds_queue rejected_m2 l /\ Forall2 decided demo_queue l.
Proof.
  split; [vm_compute; reflexivity|].
  apply (decisions_are_final (fun _ => "") schema_what kept kept_exact "/packages" "/out.prisma" demo_files rejected_m2 demo_queue demo_queue_held).
  eapply rtc_l; [exact (step_request (fun _ => "") schema_what kept "/packages" "/out.prisma" 0 Post (act "approve" "m1") demo_files)|].
  eapply rtc_l; [exact (step_request (fun _ => "") schema_what kept "/packages" "/out.prisma" 0 Post (act "reject" "m2") approved_m1)|].
  apply rtc_refl.
Defined.

Lemma approve_decides_one_witness :
  statuses (handle_approve (fun _ => "") schema_what kept 0 "m2" demo_files).2 = [Some "pending"; Some "approved"] /\
  exists a, (handle_approve (fun _ => "") schema_what kept 0 "m2" demo_files).1 = Ok a /\ ap_status a = 200%Z.
Proof.
  split; [vm_compute; reflexivity|].
  pose proof (approve_decides_one (fun _ => "") schema_what kept kept_exact 0 "m2" demo_files demo_queue demo_queue_held eq_refl) as H.
  destruct (handle_approve _ _ _ _ _ demo_files) as [r s']. destruct H as [[Hnone _]|(l1 & m & l2 & _ & _ & _ & _ & H)]; [|exact H].
  exfalso. apply Forall_cons in Hnone as [_ [Hnone _]%Forall_cons]. apply Hnone. split; reflexivity.
Defined.
