(* ===== verification/SchemaLoaders.v ===== *)
(** * Loading of schemas

    Models src/adapters/schema_loader.hpp, from which the adapters take their
    tables, and src/core/entity_loader.cpp with src/core/loaders, from which the
    access rules are taken (src/core/schema_acl_registry.cpp).  Both read the same
    directory of JSON files, one after the other and each in its own way; an entity
    the second does not know has no rules.  The theorem says when they agree. *)

From S2P Require Import Prelude CxxString CxxStd Json Seeding AccessControl.

Open Scope string_scope.

(** ** Files *)

(** An entry of a directory and its subdirectories: its name, and what parsing its
    contents gives ([None] when it is no JSON); the file may not open at all. *)
Record DirEntry := mkDirEntry { de_regular : bool; de_name : string; de_text : option (option json) }.
(** The iteration over the entries may end with an exception. *)
Inductive SchemaDir := NoDir | NotADirectory (what : string) | Entries (entries : list DirEntry) (failed : option string).

(** The tests before a file is read. *)
Definition is_schema_file (e : DirEntry) : bool :=
  de_regular e && has_json_extension (de_name e) && negb (String.eqb (de_name e) "entities.json").
(** One entity or an array of them. *)
Definition docs_of (root : json) : list json := match root with JArray l => l | v => [v] end.

(** ** Definitions (schema_loader.hpp) *)

Record FieldDefinition := mkFieldDefinition {
  fl_name : string; fl_type : string; fl_primary : bool; fl_required : bool; fl_unique : bool; fl_generated : bool;
  fl_optional : bool; fl_nullable : bool; fl_sensitive : bool; fl_default_value : option string;
  fl_min_length : option Z; fl_max_length : option Z; fl_pattern : option string; fl_enum_values : list string;
}.
Record IndexDefinition := mkIndexDefinition { ix_fields : list string; ix_unique : bool }.
Record RelationDefinition := mkRelationDefinition {
  rn_name : string; rn_type : string; rn_entity : string; rn_foreign_key : string; rn_cascade_delete : bool;
}.
Record SchemaQueryConfig := mkSchemaQueryConfig {
  sq_allowed_operators : list string; sq_allowed_group_by : list string; sq_allowed_includes : list string;
  sq_max_results : Z; sq_timeout_ms : Z;
}.
Record EntityDefinition := mkEntityDefinition {
  en_name : string; en_version : string; en_description : string; en_fields : list FieldDefinition;
  en_indexes : list IndexDefinition; en_relations : list RelationDefinition; en_query_config : SchemaQueryConfig;
}.

Section Loaders.
Context {jl : JsonLib}.

(** ** Parts of a document *)

(** A member read with [get<std::string>()] or [get<int>()] when it is there. *)
Definition optional_string (v : json) (k : string) : Result (option string) :=
  match member v k with Some x => s ← get_string x; Ok (Some s) | None => Ok None end.
Definition get_len (v : json) (snake camel : string) : Result (option Z) :=
  match member v snake, member v camel with
  | Some x, _ | None, Some x => n ← get_int x; Ok (Some n)
  | None, None => Ok None
  end.
Definition strings_of (v : json) : Result (list string) := mapM get_string (iterate v).
(** [v.value("primary", false) || v.value("primaryKey", false)] *)
Definition is_primary (v : json) : Result bool :=
  b ← value_bool v "primary" false; if b : bool then Ok true else value_bool v "primaryKey" false.

Definition default_of (v : json) : Result (option string) :=
  match member v "default" with
  | Some (JString s) => Ok (Some s)
  | None | Some JNull | Some (JObject _) | Some (JArray _) => Ok None
  | Some x => s ← dump x; Ok (Some s)
  end.

Definition column_type (field_type : string) : string :=
  if String.eqb field_type "datetime" then "bigint" else if String.eqb field_type "number" then "bigint" else field_type.

(** The body of the loop over the fields. [inline] is its copy in
    loadFromDirectory, which reads neither bounds nor patterns; a relationship
    is no field. *)
Definition parse_field (inline : bool) (field_name : string) (field_def : json) : Result (option FieldDefinition) :=
  field_type ← value_string field_def "type" "string";
  let field_type := to_lower field_type in
  if String.eqb field_type "relationship" then Ok None
  else
    primary ← is_primary field_def;
    required ← value_bool field_def "required" false;
    unique ← value_bool field_def "unique" false;
    generated ← value_bool field_def "generated" false;
    is_optional ← value_bool field_def "optional" false;
    nullable ← value_bool field_def "nullable" false;
    sensitive ← value_bool field_def "sensitive" false;
    default_value ← default_of field_def;
    min_length ← if inline then Ok None else get_len field_def "min_length" "minLength";
    max_length ← if inline then Ok None else get_len field_def "max_length" "maxLength";
    pattern ← if inline then Ok None else optional_string field_def "pattern";
    enum_values ← match member field_def "values" with
                  | None => Ok []
                  | Some v => if inline && negb (is_array v) then Ok [] else strings_of v
                  end;
    Ok (Some (mkFieldDefinition field_name (column_type field_type) primary required unique generated is_optional
      nullable sensitive default_value min_length max_length pattern enum_values)).
Fixpoint parse_fields (inline : bool) (l : members) : Result (list FieldDefinition) :=
  match l with
  | [] => Ok []
  | (name, def) :: l =>
      field ← parse_field inline name def; rest ← parse_fields inline l;
      Ok (match field with Some f => f :: rest | None => rest end)
  end.

(** A top-level "tenantId": true *)
Definition wants_tenant (v : json) : bool := match member v "tenantId" with Some (JBool b) => b | _ => false end.
Definition tenant_field : FieldDefinition :=
  mkFieldDefinition "tenantId" "string" false false false false false true false None None None None [].
Definition add_tenant (v : json) (fields : list FieldDefinition) : list FieldDefinition :=
  if wants_tenant v && negb (existsb (fun f => String.eqb (fl_name f) "tenantId") fields)
  then (fields ++ [tenant_field])%list else fields.

Definition index_fields (v : json) : Result (list string) :=
  match member v "fields" with Some fs => strings_of fs | None => Ok [] end.
Definition parse_index_def (v : json) : Result IndexDefinition :=
  fields ← index_fields v; unique ← value_bool v "unique" false; Ok (mkIndexDefinition fields unique).

Fixpoint parse_relations (l : members) : Result (list RelationDefinition) :=
  match l with
  | [] => Ok []
  | (name, def) :: l =>
      type ← value_string def "type" "has-many"; entity ← value_string def "entity" "";
      foreign_key ← value_string def "foreign_key" ""; cascade_delete ← value_bool def "cascade_delete" false;
      rest ← parse_relations l;
      Ok (if is_empty entity then rest else mkRelationDefinition name type entity foreign_key cascade_delete :: rest)
  end.

Definition parse_str_array (q : json) (key : string) : Result (list string) :=
  match member q key with Some (JArray l) => mapM get_string l | _ => Ok [] end.
Definition parse_query (q : json) : Result SchemaQueryConfig :=
  operators ← parse_str_array q "allowed_operators"; group_by ← parse_str_array q "allowed_group_by";
  includes ← parse_str_array q "allowed_includes";
  max_results ← value_int q "max_results" 1000; timeout_ms ← value_int q "timeout_ms" 0;
  Ok (mkSchemaQueryConfig operators group_by includes max_results timeout_ms).

Definition capitalised (s : string) : string :=
  match s with "" => "" | String c s => String (to_upper_char c) s end.
(** Without one of the three names a document is passed over. *)
Definition entity_name (inline : bool) (v : json) : Result (option string) :=
  match member v "entity", member v "displayName", member v "name" with
  | Some x, _, _ | None, Some x, _ => s ← get_string x; Ok (Some s)
  | None, None, Some x => s ← get_string x; Ok (Some (if inline then s else capitalised s))
  | None, None, None => Ok None
  end.

Definition parse_entity (inline : bool) (v : json) : Result (option EntityDefinition) :=
  name ← entity_name inline v;
  match (name : option string) with
  | None => Ok None
  | Some name =>
      version ← value_string v "version" "1.0"; description ← value_string v "description" "";
      fields ← match member v "fields" with Some fs => parse_fields inline (items fs) | None => Ok [] end;
      indexes ← match member v "indexes" with Some l => mapM parse_index_def (iterate l) | None => Ok [] end;
      relations ← match member v "relations" with Some (JObject m) => parse_relations m | _ => Ok [] end;
      query_config ← match member v "query" with
                     | Some (JObject m) => parse_query (JObject m)
                     | _ => Ok (mkSchemaQueryConfig [] [] [] 1000 0)
                     end;
      Ok (Some (mkEntityDefinition name version description (add_tenant v fields) indexes relations query_config))
  end.

(** ** The loader of the adapters *)

(** [catch (...)]: what was done before the exception stays done. *)
Definition swallow {S} (m : Op S unit) : Op S unit := fun s =>
  match m s with (Throw _, s') => (Ok tt, s') | r => r end.

(** [SchemaLoader::loadFromFile] *)
Definition loadFromFile (text : option (option json)) : Result (option EntityDefinition) :=
  match text with
  | None | Some None => Ok None
  | Some (Some root) =>
      match parse_entity false (match root with JArray (x :: _) => x | v => v end) with
      | Throw _ => Ok None
      | r => r
      end
  end.

Definition load_doc (v : json) : Op (list EntityDefinition) unit :=
  if is_object v then
    entity ← of_result (parse_entity true v);
    match (entity : option EntityDefinition) with
    | Some e => modify (fun entities => entities ++ [e])%list
    | None => mret tt
    end
  else mret tt.
Definition load_entry (e : DirEntry) : Op (list EntityDefinition) unit :=
  match is_schema_file e, de_text e with
  | true, Some (Some root) => swallow (forM (docs_of root) load_doc)
  | _, _ => mret tt
  end.
(** [SchemaLoader::loadFromDirectory] *)
Definition loadFromDirectory (dir : SchemaDir) : Result (list EntityDefinition) :=
  match dir with
  | NoDir => Ok []
  | NotADirectory what => Throw (runtime_error what)
  | Entries entries failed =>
      let '(r, entities) := forM entries load_entry [] in
      _ ← r; match failed with None => Ok entities | Some what => Throw (runtime_error what) end
  end.

(** ** The schemas of the core (entity_loader.hpp) *)

Record CoreEntityField := mkCoreEntityField {
  cl_name : string; cl_type : string; cl_required : bool; cl_unique : bool; cl_primary : bool; cl_generated : bool;
  cl_nullable : bool; cl_index : bool; cl_sensitive : bool; cl_privileged : bool;
  cl_defaultValue : option string; cl_references : option string; cl_minLength : option Z; cl_maxLength : option Z;
  cl_pattern : option string; cl_enumValues : option (list string); cl_description : option string;
}.
Record CoreEntityIndex := mkCoreEntityIndex { ci_fields : list string; ci_unique : bool; ci_name : option string }.
Record CoreEntitySchema := mkCoreEntitySchema {
  co_name : string; co_displayName : string; co_description : string; co_version : string;
  co_fields : list CoreEntityField; co_indexes : list CoreEntityIndex; co_metadata : gmap string string;
  co_acl : option ACL;
}.

(** ** FieldParser *)

Definition parseType (fieldNode : json) : Result string :=
  type ← value_string fieldNode "type" "string"; Ok (to_lower type).
Definition default_dumped (fieldNode : json) : Result (option string) :=
  match member fieldNode "default" with
  | Some (JString s) => Ok (Some s)
  | None | Some JNull => Ok None
  | Some x => s ← dump x; Ok (Some s)
  end.
Definition parseEnumValues (fieldNode : json) : Result (list string) :=
  strings_of (default JNull (member fieldNode "values")).
Definition parseField (fieldName : string) (fieldNode : json) : Result CoreEntityField :=
  type ← parseType fieldNode;
  required ← value_bool fieldNode "required" false;
  unique ← value_bool fieldNode "unique" false;
  primary ← is_primary fieldNode;
  generated ← value_bool fieldNode "generated" false;
  nullable ← value_bool fieldNode "nullable" false;
  index ← value_bool fieldNode "index" false;
  sensitive ← value_bool fieldNode "sensitive" false;
  privileged ← value_bool fieldNode "privileged" false;
  defaultValue ← default_dumped fieldNode;
  references ← optional_string fieldNode "references";
  description ← optional_string fieldNode "description";
  minLength ← get_len fieldNode "min_length" "minLength";
  maxLength ← get_len fieldNode "max_length" "maxLength";
  pattern ← optional_string fieldNode "pattern";
  enumValues ← if String.eqb type "enum" && has_member fieldNode "values"
               then values ← parseEnumValues fieldNode; Ok (Some values) else Ok None;
  Ok (mkCoreEntityField fieldName type required unique primary generated nullable index sensitive privileged
    defaultValue references minLength maxLength pattern enumValues description).

(** ** EntitySchemaLoader::parseJson *)

Definition parseIndex (indexNode : json) : Result CoreEntityIndex :=
  fields ← index_fields indexNode; unique ← value_bool indexNode "unique" false;
  name ← optional_string indexNode "name"; Ok (mkCoreEntityIndex fields unique name).

Definition core_tenant_field : CoreEntityField :=
  mkCoreEntityField "tenantId" "string" false false false false true false false false None None None None None None None.
Definition core_add_tenant (node : json) (fields : list CoreEntityField) : list CoreEntityField :=
  if wants_tenant node && negb (existsb (fun f => String.eqb (cl_name f) "tenantId") fields)
  then (fields ++ [core_tenant_field])%list else fields.

Definition schema_name (node : json) : Result string :=
  if has_member node "entity" then value_string node "entity" ""
  else if has_member node "displayName" then value_string node "displayName" ""
  else if has_member node "name" then value_string node "name" "" else Ok "".

Fixpoint parse_metadata (l : members) (metadata : gmap string string) : Result (gmap string string) :=
  match l with
  | [] => Ok metadata
  | (k, v) :: l => s ← match v with JString s => Ok s | v => dump v end; parse_metadata l (<[k := s]> metadata)
  end.

Definition parseJson (node : json) : Result CoreEntitySchema :=
  name ← schema_name node;
  displayName ← value_string node "displayName" name;
  description ← value_string node "description" "";
  version ← value_string node "version" "1.0";
  fields ← match member node "fields" with
           | Some fs => mapM (fun kv => parseField kv.1 kv.2) (items fs) | None => Ok [] end;
  indexes ← match member node "indexes" with Some l => mapM parseIndex (iterate l) | None => Ok [] end;
  metadata ← match member node "metadata" with Some m => parse_metadata (items m) ∅ | None => Ok ∅ end;
  Ok (mkCoreEntitySchema name displayName description version (core_add_tenant node fields) indexes metadata
    (parseACL <$> member node "acl")).

(** ** SchemaValidator *)

Record ValidationResult := mkValidation { vr_valid : bool; vr_errors : list string; vr_warnings : list string }.
Definition no_findings : ValidationResult := mkValidation true [] [].
Definition addError (error : string) (r : ValidationResult) : ValidationResult :=
  mkValidation false (vr_errors r ++ [error])%list (vr_warnings r).
Definition addWarning (warning : string) (r : ValidationResult) : ValidationResult :=
  mkValidation (vr_valid r) (vr_errors r) (vr_warnings r ++ [warning])%list.
Definition error_if (b : bool) (error : string) (r : ValidationResult) : ValidationResult :=
  if b then addError error r else r.
Definition warning_if (b : bool) (warning : string) (r : ValidationResult) : ValidationResult :=
  if b then addWarning warning r else r.

Definition getValidFieldTypes : list string :=
  ["string"; "number"; "boolean"; "timestamp"; "json"; "uuid"; "email"; "text"; "bigint"; "enum"; "cuid";
   "integer"; "int"; "float"; "double"; "date"; "datetime"; "decimal"].
Definition isValidFieldType (type : string) : bool := existsb (String.eqb type) getValidFieldTypes.

Definition quote_named (name : string) : string := "'" +:+ (name +:+ "'").
Definition validateMetadata (s : CoreEntitySchema) (r : ValidationResult) : ValidationResult :=
  let r := error_if (is_empty (co_name s)) "Entity schema must have a 'name' or 'entity' field" r in
  let r := error_if (match co_fields s with [] => true | _ => false end)
             ("Entity schema " +:+ (quote_named (co_name s) +:+ " has no fields defined")) r in
  warning_if (is_empty (co_version s)) ("Entity schema " +:+ (quote_named (co_name s) +:+ " has no version specified")) r.

Definition validateField (field : CoreEntityField) (r : ValidationResult) : ValidationResult :=
  let name := quote_named (cl_name field) in
  if is_empty (cl_name field) then addError "Field has no name" r
  else
    let r := error_if (negb (isValidFieldType (cl_type field)))
               ("Field " +:+ (name +:+ (" has invalid type: " +:+ cl_type field))) r in
    let r := error_if (String.eqb (cl_type field) "enum" &&
                       match cl_enumValues field with None | Some [] => true | _ => false end)
               ("Enum field " +:+ (name +:+ " has no values defined")) r in
    let r := warning_if (match cl_references field with Some s => is_empty s | None => false end)
               ("Field " +:+ (name +:+ " has empty references")) r in
    error_if (match cl_minLength field, cl_maxLength field with
              | Some lo, Some hi => (hi <? lo)%Z | _, _ => false end)
      ("Field " +:+ (name +:+ " has minLength > maxLength")) r.

Fixpoint validate_each (schema : string) (fields : list CoreEntityField) (hasPrimary : bool) (r : ValidationResult) :
    ValidationResult :=
  match fields with
  | [] => warning_if (negb hasPrimary) ("Entity " +:+ (quote_named schema +:+ " has no primary key field defined")) r
  | field :: fields =>
      let r := validateField field r in
      let r := error_if (cl_primary field && hasPrimary)
                 ("Entity " +:+ (quote_named schema +:+ " has multiple primary key fields")) r in
      validate_each schema fields (hasPrimary || cl_primary field) r
  end.

Definition validate_index (s : CoreEntitySchema) (r : ValidationResult) (index : CoreEntityIndex) : ValidationResult :=
  match ci_fields index with
  | [] => addError ("Index in entity " +:+ (quote_named (co_name s) +:+ " has no fields")) r
  | fields =>
      foldl (fun r indexField =>
        error_if (negb (existsb (fun f => String.eqb (cl_name f) indexField) (co_fields s)))
          ("Index references non-existent field " +:+ (quote_named indexField +:+
            (" in entity " +:+ quote_named (co_name s)))) r) r fields
  end.
Definition validateIndexes (s : CoreEntitySchema) (r : ValidationResult) : ValidationResult :=
  foldl (validate_index s) r (co_indexes s).

Definition validate (s : CoreEntitySchema) : ValidationResult :=
  validateIndexes s (validate_each (co_name s) (co_fields s) false (validateMetadata s no_findings)).

(** ** EntitySchemaLoader::loadSchemas *)

(** The schemas loaded so far, and the cache all loaders share. *)
Abbreviation Schemas := (gmap string CoreEntitySchema).
Definition load_schema_doc (node : json) : Op (Schemas * Schemas) unit :=
  if is_object node then
    schema ← of_result (parseJson node);
    if is_empty (co_name schema) then mret tt
    else if negb (vr_valid (validate schema)) then mret tt
    else modify (fun '(schemas, cache) =>
           (<[co_name schema := schema]> schemas, <[co_name schema := schema]> cache))
  else mret tt.
(** [findJsonFiles]: an exception ends the iteration with the files found. *)
Definition findJsonFiles (dir : SchemaDir) : list DirEntry :=
  match dir with Entries entries _ => List.filter is_schema_file entries | _ => [] end.
(** A file that cannot be read is like one that is no JSON. *)
Definition load_schema_file (e : DirEntry) : Op (Schemas * Schemas) unit :=
  match de_text e with
  | Some (Some root) => swallow (forM (docs_of root) load_schema_doc)
  | _ => mret tt
  end.
Definition loadSchemas (dir : SchemaDir) (cache : Schemas) : Result unit * (Schemas * Schemas) :=
  forM (findJsonFiles dir) load_schema_file (∅, cache).

(** [EntitySchemaLoader::loadSchema], of one file: its contents, or what the parser says of them. *)
Definition loadSchema (filePath : string) (there : bool) (text : string + json) : Result CoreEntitySchema :=
  if there then
    match text with
    | inl what => Throw (runtime_error ("Failed to parse JSON file " +:+ (filePath +:+ (": " +:+ what))))
    | inr root =>
        schema ← parseJson (match root with JArray (x :: _) => x | v => v end);
        if vr_valid (validate schema) then Ok schema
        else Throw (runtime_error ("Schema validation failed for " +:+ (filePath +:+ (":" +:+ (String "010" "" +:+
          foldr (fun e s => "  ERROR: " +:+ (e +:+ (String "010" "" +:+ s))) "" (vr_errors (validate schema)))))))
    end
  else Throw (runtime_error ("Schema file does not exist: " +:+ filePath)).

(** What the registry of access rules reads of the schemas. *)
Definition acl_schema (s : CoreEntitySchema) : AclSchema :=
  mkAclSchema ((fun f => (cl_name f, cl_privileged f)) <$> co_fields s) (co_acl s).
Definition newSchemaAclRegistry (dir : SchemaDir) (cache : Schemas) : gmap string AclSchema :=
  acl_schema <$> (loadSchemas dir cache).2.1.

(** ** The validator *)

Definition field_ok (f : CoreEntityField) : bool :=
  negb (is_empty (cl_name f)) && isValidFieldType (cl_type f) &&
  negb (String.eqb (cl_type f) "enum" && match cl_enumValues f with None | Some [] => true | _ => false end) &&
  negb (match cl_minLength f, cl_maxLength f with Some lo, Some hi => (hi <? lo)%Z | _, _ => false end).
Fixpoint one_primary (seen : bool) (fields : list CoreEntityField) : bool :=
  match fields with [] => true | f :: fields => negb (cl_primary f && seen) && one_primary (seen || cl_primary f) fields end.
Definition index_ok (s : CoreEntitySchema) (i : CoreEntityIndex) : bool :=
  negb (bool_decide (ci_fields i = [])) &&
  forallb (fun name => existsb (fun f => String.eqb (cl_name f) name) (co_fields s)) (ci_fields i).

Lemma error_if_valid b e r : vr_valid (error_if b e r) = negb b && vr_valid r.
Proof. by destruct b. Qed.
Lemma warning_if_valid b e r : vr_valid (warning_if b e r) = vr_valid r.
Proof. by destruct b. Qed.
#[local] Hint Rewrite error_if_valid warning_if_valid : vr.

Lemma validateField_valid f r : vr_valid (validateField f r) = field_ok f && vr_valid r.
Proof.
  unfold validateField, field_ok. destruct (is_empty (cl_name f)); [done|]. autorewrite with vr.
  destruct (isValidFieldType _), (vr_valid r); cbn [negb andb]; rewrite ?andb_false_r, ?andb_true_r; try done.
  apply andb_comm.
Qed.
Lemma validate_each_valid n fields seen r :
  vr_valid (validate_each n fields seen r) = forallb field_ok fields && one_primary seen fields && vr_valid r.
Proof.
  revert seen r. induction fields as [|f fields IH]; intros seen r; cbn [validate_each forallb one_primary].
  - by autorewrite with vr.
  - rewrite IH. autorewrite with vr. rewrite validateField_valid.
    destruct (field_ok f), (negb _), (forallb _ _), (one_primary _ _), (vr_valid r); done.
Qed.
Lemma validate_index_valid s r i : vr_valid (validate_index s r i) = index_ok s i && vr_valid r.
Proof.
  unfold validate_index, index_ok. destruct (ci_fields i) as [|x l]; [done|].
  rewrite bool_decide_eq_false_2 by done. cbn [negb andb].
  generalize (x :: l) as names. intros names. revert r. induction names as [|y names IH]; intros r; [done|].
  cbn [foldl forallb]. rewrite IH. autorewrite with vr.
  by destruct (existsb _ _), (forallb _ _), (vr_valid r).
Qed.
Lemma validateIndexes_valid s l r : vr_valid (foldl (validate_index s) r l) = forallb (index_ok s) l && vr_valid r.
Proof.
  revert r. induction l as [|i l IH]; intros r; [done|]. cbn [foldl forallb]. rewrite IH, validate_index_valid.
  by destruct (index_ok s i), (forallb _ _), (vr_valid r).
Qed.

(** A schema is accepted when it has a name and fields, its fields are sound, at most
    one of them is primary, and its indexes name fields it has. *)
Theorem validate_accepts s :
  vr_valid (validate s) = true <->
  co_name s <> "" /\ co_fields s <> [] /\ Forall (fun f => field_ok f = true) (co_fields s) /\
  one_primary false (co_fields s) = true /\ Forall (fun i => index_ok s i = true) (co_indexes s).
Proof.
  unfold validate, validateIndexes, validateMetadata. rewrite validateIndexes_valid, validate_each_valid.
  autorewrite with vr. rewrite !andb_true_iff, !forallb_Forall, !negb_true_iff, is_empty_false. cbn [vr_valid no_findings].
  destruct (co_fields s); naive_solver.
Qed.

(** ** What both loaders read of a document *)

(** Peel the binds of a computation that gave a value. *)
Ltac peel H := repeat (let a := fresh "v" in let Ha := fresh "Hv" in apply result_bind_ok in H as (a & Ha & H)).

Lemma parse_field_name inline n v f c :
  parse_field inline n v = Ok f -> parseField n v = Ok c -> isValidFieldType (cl_type c) = true ->
  cl_name c = n /\ exists f', f = Some f' /\ fl_name f' = n.
Proof.
  unfold parse_field, parseField, parseType. intros Hf Hc.
  destruct (value_string v "type" "string") as [t| | |]; [|done..].
  cbn [mbind Result_bind] in Hf, Hc. destruct (String.eqb_spec (to_lower t) "relationship") as [Hr|Hne].
  - rewrite Hr in Hc. peel Hc. by injection Hc as <-.
  - peel Hf. peel Hc. injection Hf as <-. injection Hc as <-. cbn. eauto.
Qed.
Lemma parse_fields_names inline l fs cs :
  parse_fields inline l = Ok fs -> mapM (fun kv => parseField kv.1 kv.2) l = Ok cs ->
  Forall (fun c => isValidFieldType (cl_type c) = true) cs -> fl_name <$> fs = cl_name <$> cs.
Proof.
  revert fs cs. induction l as [|[n v] l IH]; intros fs cs Hfs Hcs Hok; cbn in Hfs, Hcs.
  - by injection Hfs as <-; injection Hcs as <-.
  - apply result_bind_ok in Hfs as (f & Hf & Hfs), Hcs as (c & Hc & Hcs).
    apply result_bind_ok in Hfs as (fs' & Hfs' & Hfs), Hcs as (cs' & Hcs' & Hcs).
    injection Hcs as <-. apply Forall_cons in Hok as [Hct Hok].
    destruct (parse_field_name _ _ _ _ _ Hf Hc Hct) as (Hn & f' & -> & Hf'). injection Hfs as <-.
    rewrite !fmap_cons, Hn, Hf'. f_equal. by apply IH.
Qed.

Lemma existsb_named {A} (name : A -> string) l n : existsb (fun x => String.eqb (name x) n) l = existsb (fun y => String.eqb y n) (name <$> l).
Proof. induction l as [|x l IH]; [done|]. cbn. by rewrite IH. Qed.
Lemma add_tenant_names v fs cs :
  fl_name <$> fs = cl_name <$> cs -> fl_name <$> add_tenant v fs = cl_name <$> core_add_tenant v cs.
Proof.
  intros H. unfold add_tenant, core_add_tenant. rewrite (existsb_named fl_name), (existsb_named cl_name), H.
  destruct (_ && _); [|done]. by rewrite !fmap_app, H.
Qed.
Lemma core_add_tenant_incl v cs f : f ∈ cs -> f ∈ core_add_tenant v cs.
Proof. unfold core_add_tenant. destruct (_ && _); [|done]. intros. apply elem_of_app. by left. Qed.

Lemma entity_name_same m n : entity_name true (JObject m) = Ok (Some n) -> schema_name (JObject m) = Ok n.
Proof.
  unfold entity_name, schema_name, has_member. cbn [member value_string].
  destruct (obj_get "entity" m) as [[]|], (obj_get "displayName" m) as [[]|], (obj_get "name" m) as [[]|]; cbn; congruence.
Qed.

(** A document both read: same name, same columns, and the rules written in it. *)
Lemma loaders_agree m e c :
  parse_entity true (JObject m) = Ok (Some e) -> parseJson (JObject m) = Ok c -> vr_valid (validate c) = true ->
  en_name e = co_name c /\ fl_name <$> en_fields e = cl_name <$> co_fields c /\
  co_acl c = parseACL <$> obj_get "acl" m.
Proof.
  unfold parse_entity, parseJson. intros He Hc Hok. apply validate_accepts in Hok as (_ & _ & Hok & _).
  apply result_bind_ok in He as ([n|] & Hn & He); [|done]. rewrite (entity_name_same _ _ Hn) in Hc.
  cbn [mbind Result_bind] in Hc. cbn [member] in He, Hc. peel He. peel Hc. injection He as <-. injection Hc as <-.
  split; [done|]. split; [|done]. cbn [en_fields co_fields] in *. apply add_tenant_names.
  destruct (obj_get "fields" m) as [fs|]; [|by simplify_eq/=].
  eapply parse_fields_names; [done..|]. apply Forall_forall. intros f Hf.
  rewrite Forall_forall in Hok. specialize (Hok f (core_add_tenant_incl _ _ _ Hf)).
  unfold field_ok in Hok. by boolify.
Qed.

(** ** The directory *)

(** The documents of a file and of a directory, in the order they are read. *)
Definition file_documents (e : DirEntry) : list json :=
  match de_text e with Some (Some root) => List.filter is_object (docs_of root) | _ => [] end.
Definition documents (entries : list DirEntry) : list json :=
  List.filter is_schema_file entries ≫= file_documents.

Lemma elem_of_documents entries e root v :
  e ∈ entries -> is_schema_file e = true -> de_text e = Some (Some root) -> v ∈ docs_of root -> is_object v = true ->
  v ∈ documents entries.
Proof.
  intros He Hf Ht Hv Ho. apply list_elem_of_bind. exists e. unfold file_documents. rewrite Ht, !list_elem_of_In, !filter_In, <- !list_elem_of_In.
  naive_solver.
Qed.

Lemma preserves_forM_in {S A} (P : S -> Prop) (l : list A) (f : A -> Op S unit) :
  (forall x, x ∈ l -> preserves P (f x)) -> preserves P (forM l f).
Proof.
  induction l as [|x l IH]; intros Hf; cbn; [by apply pure_preserves|].
  apply preserves_bind; [apply Hf; left|]. intros _. apply IH. intros y Hy. apply Hf. by right.
Qed.
Lemma preserves_swallow {S} (P : S -> Prop) (m : Op S unit) : preserves P m -> preserves P (swallow m).
Proof. intros Hm s Hs. specialize (Hm s Hs). unfold swallow. destruct (m s) as [[] s']; exact Hm. Qed.

(** Every entity loaded comes from a document. *)
Definition from_document (entries : list DirEntry) (e : EntityDefinition) : Prop :=
  exists m, JObject m ∈ documents entries /\ parse_entity true (JObject m) = Ok (Some e).
Lemma load_entry_sound entries x :
  x ∈ entries -> preserves (Forall (from_document entries)) (load_entry x).
Proof.
  intros Hx. unfold load_entry. destruct (is_schema_file x) eqn:Hf; [|by apply pure_preserves].
  destruct (de_text x) as [[root|]|] eqn:Ht; [|by apply pure_preserves..].
  apply preserves_swallow, preserves_forM_in. intros v Hv. unfold load_doc.
  destruct (is_object v) eqn:Ho; [|by apply pure_preserves].
  destruct v as [| | | | | |m]; try done. intros es Hes. unfold of_result, mbind, Op_bind.
  destruct (parse_entity true (JObject m)) as [[e|]| | |] eqn:He; cbn; try done.
  apply Forall_app. split; [done|]. constructor; [|done]. exists m. split; [|done]. by eapply elem_of_documents.
Qed.
Lemma loaded_from_document entries failed es e :
  loadFromDirectory (Entries entries failed) = Ok es -> e ∈ es -> from_document entries e.
Proof.
  unfold loadFromDirectory. intros H He.
  assert (Forall (from_document entries) (forM entries load_entry []).2) as Hall.
  { apply (preserves_forM_in (Forall (from_document entries))); [|done]. by apply load_entry_sound. }
  destruct (forM entries load_entry []) as [r s]. apply result_bind_ok in H as ([] & -> & H).
  destruct failed; [done|]. injection H as <-. rewrite Forall_forall in Hall. by apply Hall.
Qed.

(** No bound and no pattern comes out of a directory. *)
Lemma parse_field_unbounded n v f :
  parse_field true n v = Ok (Some f) -> fl_min_length f = None /\ fl_max_length f = None /\ fl_pattern f = None.
Proof.
  unfold parse_field. intros H. apply result_bind_ok in H as (t & _ & H). destruct (String.eqb _ _); [done|].
  peel H. by simplify_eq/=.
Qed.

(** ** The registry *)

(** A document the core accepts as the schema [c]. *)
Definition accepted (v : json) (c : CoreEntitySchema) : Prop := parseJson v = Ok c /\ vr_valid (validate c) = true.

Definition register (s : Schemas * Schemas) (c : CoreEntitySchema) : Schemas * Schemas :=
  (<[co_name c := c]> s.1, <[co_name c := c]> s.2).
Lemma load_accepted v c s : is_object v = true -> accepted v c -> load_schema_doc v s = (Ok tt, register s c).
Proof.
  intros Ho [Hp Hv]. unfold load_schema_doc. rewrite Ho. unfold of_result, mbind, Op_bind. rewrite Hp.
  apply validate_accepts in Hv as Hn. destruct Hn as [Hn%is_empty_false _]. rewrite Hn, Hv. by destruct s.
Qed.

(** When every document is accepted, loading registers them one by one. *)
Lemma load_docs_accepted docs s :
  (forall v, v ∈ List.filter is_object docs -> exists c, accepted v c) ->
  exists cs, Forall2 accepted (List.filter is_object docs) cs /\
    forM docs load_schema_doc s = (Ok tt, foldl register s cs).
Proof.
  revert s. induction docs as [|v docs IH]; intros s Hdocs; cbn [List.filter forM]; [by exists []|].
  cbn [List.filter] in Hdocs. destruct (is_object v) eqn:Ho.
  - destruct (Hdocs v) as [c Hc]; [left|]. destruct (IH (register s c)) as (cs & Hcs & Hrun).
    { intros w Hw. apply Hdocs. by right. }
    exists (c :: cs). split; [by constructor|]. unfold mbind, Op_bind. by rewrite (load_accepted v c).
  - destruct (IH s) as (cs & Hcs & Hrun); [done|]. exists cs. split; [done|].
    assert (load_schema_doc v s = (Ok tt, s)) as Hskip by (unfold load_schema_doc; by rewrite Ho).
    unfold mbind, Op_bind. by rewrite Hskip.
Qed.
Lemma load_file_accepted e s :
  (forall v, v ∈ file_documents e -> exists c, accepted v c) ->
  exists cs, Forall2 accepted (file_documents e) cs /\ load_schema_file e s = (Ok tt, foldl register s cs).
Proof.
  unfold file_documents, load_schema_file. destruct (de_text e) as [[root|]|]; [|by exists []..].
  intros (cs & Hcs & Hrun)%(load_docs_accepted _ s). exists cs. split; [done|]. unfold swallow. by rewrite Hrun.
Qed.
Lemma loadSchemas_accepted entries failed cache :
  (forall v, v ∈ documents entries -> exists c, accepted v c) ->
  exists cs, Forall2 accepted (documents entries) cs /\
    loadSchemas (Entries entries failed) cache = (Ok tt, foldl register (∅, cache) cs).
Proof.
  unfold loadSchemas, findJsonFiles, documents. generalize (List.filter is_schema_file entries) as files.
  generalize (∅ : Schemas, cache) as s. intros s files. revert s.
  induction files as [|e files IH]; intros s Hdocs; [by exists []|].
  rewrite bind_cons in Hdocs |- *. setoid_rewrite elem_of_app in Hdocs.
  destruct (load_file_accepted e s) as (cs & Hcs & Hrun); [by eauto|].
  destruct (IH (foldl register s cs)) as (cs' & Hcs' & Hrun'); [by eauto|].
  exists (cs ++ cs')%list. split; [by apply Forall2_app|]. cbn [forM].
  by rewrite (run_bind_ok _ _ _ _ _ Hrun), foldl_app.
Qed.
Lemma registered cs s c : c ∈ cs -> exists c', c' ∈ cs /\ co_name c' = co_name c /\ (foldl register s cs).1 !! co_name c = Some c'.
Proof.
  induction cs as [|c' cs IH] using rev_ind; intros Hc; [by apply not_elem_of_nil in Hc|].
  rewrite foldl_app. cbn [foldl register fst]. destruct (decide (co_name c' = co_name c)) as [Heq|Hne].
  - exists c'. rewrite Heq, lookup_insert_eq. split_and!; [|done..]. apply elem_of_app. right. left.
  - apply elem_of_app in Hc as [Hc|Hc].
    + destruct (IH Hc) as (d & Hd & Hn & Hl). exists d. rewrite lookup_insert_ne by done.
      split_and!; [|done..]. apply elem_of_app. by left.
    + apply list_elem_of_singleton in Hc as ->. done.
Qed.

(** C3. Where the core accepts every document and no two of them have one name, every
    entity the adapters take from a directory is known to the registry of access
    rules, with the fields of its table and the rules written in its document. *)
Theorem tables_have_rules entries failed cache es e :
  (forall v, v ∈ documents entries -> exists c, accepted v c) ->
  (forall v w c d, v ∈ documents entries -> w ∈ documents entries -> accepted v c -> accepted w d ->
     co_name c = co_name d -> c = d) ->
  loadFromDirectory (Entries entries failed) = Ok es -> e ∈ es ->
  exists m fields, JObject m ∈ documents entries /\ parse_entity true (JObject m) = Ok (Some e) /\
    newSchemaAclRegistry (Entries entries failed) cache !! en_name e =
      Some (mkAclSchema fields (parseACL <$> obj_get "acl" m)) /\
    fields.*1 = fl_name <$> en_fields e.
Proof.
  intros Hall Hdistinct Hes He. destruct (loaded_from_document _ _ _ _ Hes He) as (m & Hm & Hp).
  destruct (loadSchemas_accepted entries failed cache Hall) as (cs & Hcs & Hrun).
  apply list_elem_of_lookup in Hm as Hi. destruct Hi as [i Hi].
  destruct (Forall2_lookup_l _ _ _ _ _ Hcs Hi) as (c & Hci & Hc).
  destruct (registered cs (∅, cache) c) as (d & Hd & Hn & Hl); [by eapply list_elem_of_lookup_2|].
  apply list_elem_of_lookup in Hd as [j Hj]. destruct (Forall2_lookup_r _ _ _ _ _ Hcs Hj) as (w & Hw & Hdw).
  assert (d = c) as -> by (eapply Hdistinct; [eapply list_elem_of_lookup_2, Hw|exact Hm|done..]).
  destruct (loaders_agree m e c Hp (proj1 Hc) (proj2 Hc)) as (Hname & Hfields & Hacl).
  exists m, ((fun f => (cl_name f, cl_privileged f)) <$> co_fields c). split_and!; [done..| |].
  - unfold newSchemaAclRegistry. rewrite lookup_fmap, Hname, Hrun. cbn [snd]. rewrite Hl. cbn. unfold acl_schema. by rewrite Hacl.
  - rewrite <- list_fmap_compose, Hfields. done.
Qed.
End Loaders.

(** ** Concrete runs *)

Definition id_field : string * json := ("id", JObject [("primary", JBool true); ("type", JString "uuid")]).
Definition job_acl : json := JObject [("create", JObject [("system", JBool true)])].
Definition job_schema : json :=
  JObject [("acl", job_acl); ("entity", JString "Job"); ("fields", JObject [id_field; ("title", JObject [("maxLength", JInt 2000)])]);
    ("tenantId", JBool true)].
Definition note_schema : json := JObject [("displayName", JString "Note"); ("fields", JObject [id_field])].
Definition demo_entries : list DirEntry :=
  [mkDirEntry true "job.json" (Some (Some job_schema)); mkDirEntry true "notes.txt" None;
   mkDirEntry true "more.json" (Some (Some (JArray [note_schema; JNull])))].

Example two_tables :
  (es ← loadFromDirectory (jl := scalar_json) (Entries demo_entries None);
   Ok (map (fun e => (en_name e, fl_name <$> en_fields e)) es))
  = Ok [("Job", ["id"; "title"; "tenantId"]); ("Note", ["id"])].
Proof. vm_compute. reflexivity. Qed.

Lemma tables_have_rules_witness :
  exists e m fields, en_name e = "Job" /\ JObject m ∈ documents demo_entries /\
    newSchemaAclRegistry (jl := scalar_json) (Entries demo_entries None) ∅ !! "Job" =
      Some (mkAclSchema fields (parseACL <$> obj_get "acl" m)) /\
    fields.*1 = fl_name <$> en_fields e.
Proof.
  assert (forall v, v ∈ documents demo_entries -> v = job_schema \/ v = note_schema) as Hdocs.
  { intros v Hv. change (v ∈ [job_schema; note_schema]) in Hv. apply elem_of_cons in Hv as [->|Hv]; [by left|].
    apply list_elem_of_singleton in Hv as ->. by right. }
  edestruct (tables_have_rules (jl := scalar_json) demo_entries None ∅) as (m & fields & Hm & Hp & Hl & Hf).
  - intros v [->| ->]%Hdocs; eexists; split; vm_compute; reflexivity.
  - intros v w c d [->| ->]%Hdocs [->| ->]%Hdocs [Hc _] [Hd _] Hn;
      vm_compute in Hc, Hd; injection Hc as <-; injection Hd as <-; first [reflexivity|discriminate Hn].
  - vm_compute. reflexivity.
  - left.
  - match type of Hp with _ = Ok (Some ?e) => exists e, m, fields end. split; [reflexivity|]. split; [exact Hm|]. split; [exact Hl|exact Hf].
Defined.

(** A relationship among the fields, or a type only one loader knows: the table is
    there, and its rules are not. *)
Definition with_field (type : string) : SchemaDir :=
  Entries [mkDirEntry true "job.json" (Some (Some (JObject [("acl", job_acl); ("entity", JString "Job");
    ("fields", JObject [id_field; ("owner", JObject [("type", JString type)])])])))] None.
Example relationship_drops_rules :
  (es ← loadFromDirectory (jl := scalar_json) (with_field "relationship"); Ok (map en_name es)) = Ok ["Job"] /\
  isSystemOnly (newSchemaAclRegistry (jl := scalar_json) (with_field "relationship") ∅) "Job" "create" = false /\
  isSystemOnly (newSchemaAclRegistry (jl := scalar_json) (with_field "string") ∅) "Job" "create" = true.
Proof. vm_compute. done. Qed.

(** Bounds are read from a single file only. *)
Example bounds_are_lost :
  (es ← loadFromDirectory (jl := scalar_json) (Entries demo_entries None);
   Ok (map (fun e => fl_max_length <$> en_fields e) es))
    = Ok [[None; None; None]; [None]] /\
  (e ← loadFromFile (jl := scalar_json) (Some (Some job_schema));
   Ok (option_map (fun e => fl_max_length <$> en_fields e) e))
    = Ok (Some [None; Some 2000%Z; None]).
Proof. vm_compute. done. Qed.
