(* ===== verification/SchemaTables.v ===== *)
(** * Tables

    Models src/adapters/sql_template_generator.hpp, which writes the statements
    that make and change tables, src/adapters/sql/sql_adapter_schema.cpp and
    src/adapters/sqlite/sqlite_adapter_schema.cpp, which run them when an adapter is
    made, and the copies the other adapters keep of what they loaded.  The
    theorems say which statements a migration can run. *)

From S2P Require Import Prelude CxxString CxxStd Store Json Adapter AccessControl EntityRoutes SqlWhere SqlAdapter Sqlite.
From S2P Require Import SqliteSafety Secrets SchemaLoaders.

Open Scope string_scope.

(** ** Types and defaults *)

Inductive SqlDialect := DialectSQLite | DialectPostgreSQL | DialectMySQL.
#[export] Instance SqlDialect_eq_dec : EqDecision SqlDialect.
Proof. solve_decision. Defined.

Definition one_of (s : string) (names : list string) : bool := existsb (String.eqb s) names.
Definition varchar (field : FieldDefinition) : string :=
  "VARCHAR(" +:+ (to_string (default 255%Z (fl_max_length field)) +:+ ")").
Definition mapFieldType (field : FieldDefinition) (dialect : SqlDialect) : string :=
  let type := fl_type field in
  match dialect with
  | DialectSQLite =>
      if one_of type ["uuid"; "string"; "email"; "text"] then "TEXT"
      else if one_of type ["bigint"; "integer"; "int"; "timestamp"] then "INTEGER"
      else if String.eqb type "boolean" then "INTEGER" else "TEXT"
  | DialectPostgreSQL =>
      if String.eqb type "uuid" then "UUID"
      else if one_of type ["string"; "email"] then varchar field
      else if String.eqb type "text" then "TEXT"
      else if one_of type ["bigint"; "timestamp"] then "BIGINT"
      else if one_of type ["integer"; "int"] then "INTEGER"
      else if String.eqb type "boolean" then "BOOLEAN"
      else if String.eqb type "enum" then "VARCHAR(50)"
      else if String.eqb type "json" then "JSONB" else "TEXT"
  | DialectMySQL =>
      if String.eqb type "uuid" then "CHAR(36)"
      else if one_of type ["string"; "email"] then varchar field
      else if String.eqb type "text" then "TEXT"
      else if one_of type ["bigint"; "timestamp"] then "BIGINT"
      else if one_of type ["integer"; "int"] then "INT"
      else if String.eqb type "boolean" then "TINYINT(1)"
      else if String.eqb type "enum" then "VARCHAR(50)"
      else if String.eqb type "json" then "JSON" else "TEXT"
  end.

Definition uuid_default (dialect : SqlDialect) : string :=
  match dialect with
  | DialectPostgreSQL => "gen_random_uuid()"
  | DialectSQLite =>
      "(lower(hex(randomblob(4))) || '-' || lower(hex(randomblob(2))) || '-4' || " +:+
      ("substr(lower(hex(randomblob(2))),2) || '-' || substr('89ab',abs(random()) % 4 + 1, 1) || " +:+
       "substr(lower(hex(randomblob(2))),2) || '-' || lower(hex(randomblob(6))))")
  | DialectMySQL => "(UUID())"
  end.
Definition text_key_default (dialect : SqlDialect) : string :=
  match dialect with
  | DialectPostgreSQL => "gen_random_uuid()::text"
  | DialectSQLite => "(lower(hex(randomblob(16))))"
  | DialectMySQL => "(UUID())"
  end.
Definition now_default (dialect : SqlDialect) : string :=
  match dialect with
  | DialectPostgreSQL => "EXTRACT(EPOCH FROM NOW())::BIGINT"
  | DialectSQLite => "(strftime('%s', 'now'))"
  | DialectMySQL => "(UNIX_TIMESTAMP())"
  end.
Definition quoted_text (s : string) : string := "'" +:+ (s +:+ "'").
Definition declared_default (type value : string) (dialect : SqlDialect) : string :=
  if String.eqb type "boolean" then
    match dialect with
    | DialectPostgreSQL => if String.eqb value "true" then "true" else "false"
    | _ => if String.eqb value "true" || String.eqb value "1" then "1" else "0"
    end
  else if one_of type ["string"; "enum"; "text"] then quoted_text value else value.
Definition default_expression (field : FieldDefinition) (dialect : SqlDialect) : option string :=
  match fl_default_value field with
  | Some value => Some (declared_default (fl_type field) value dialect)
  | None =>
      if fl_primary field then
        Some (if String.eqb (fl_type field) "uuid" then uuid_default dialect else text_key_default dialect)
      else if String.eqb (fl_name field) "createdAt" then Some (now_default dialect) else None
  end.

(** ** The data of a template *)

Definition quote_of (dialect : SqlDialect) : string := match dialect with DialectMySQL => "`" | _ => dquote end.
Definition checks (field : FieldDefinition) (dialect : SqlDialect) : list string :=
  let name := quoted_in (quote_of dialect) (fl_name field) in
  let bound (op : string) (n : option Z) :=
    match n with Some n => ["LENGTH(" +:+ (name +:+ (") " +:+ (op +:+ (" " +:+ to_string n))))] | None => [] end in
  (match fl_enum_values field with
   | [] => []
   | values => [name +:+ (" IN (" +:+ (sql_join ", " (quoted_text <$> values) +:+ ")"))]
   end) ++ bound ">=" (fl_min_length field) ++ bound "<=" (fl_max_length field).
Definition check_expression (field : FieldDefinition) (dialect : SqlDialect) : option string :=
  match checks field dialect with [] => None | l => Some ("CHECK (" +:+ (sql_join " AND " l +:+ ")")) end.

Definition optional_member (k : string) (v : option string) : members :=
  match v with Some s => [(k, JString s)] | None => [] end.
Definition field_json (dialect : SqlDialect) (field : FieldDefinition) : json :=
  object ([("name", JString (fl_name field)); ("type", JString (mapFieldType field dialect));
    ("primary", JBool (fl_primary field)); ("required", JBool (fl_required field)); ("unique", JBool (fl_unique field));
    ("nullable", JBool (fl_nullable field || fl_optional field))] ++
    optional_member "default" (default_expression field dialect) ++
    optional_member "check" (check_expression field dialect)).

(** An index left out: it has no fields, or it is the unique index of a field that
    is unique already. *)
Definition skipped_index (entity : EntityDefinition) (index : IndexDefinition) : bool :=
  match ix_fields index with
  | [] => true
  | [name] =>
      ix_unique index &&
      existsb (fun f => String.eqb (fl_name f) name && (fl_unique f || fl_primary f)) (en_fields entity)
  | _ => false
  end.
Definition index_name (entity : EntityDefinition) (index : IndexDefinition) : string :=
  to_lower (foldl (fun s f => s +:+ ("_" +:+ f)) ("idx_" +:+ en_name entity) (ix_fields index)).
Definition index_json (entity : EntityDefinition) (index : IndexDefinition) : json :=
  object [("fields", JArray (JString <$> ix_fields index)); ("unique", JBool (ix_unique index));
    ("name", JString (index_name entity index))].
Definition used_indexes (entity : EntityDefinition) : list IndexDefinition :=
  List.filter (fun i => negb (skipped_index entity i)) (en_indexes entity).
Definition entity_members (entity : EntityDefinition) (dialect : SqlDialect) : members :=
  [("table_name", JString (en_name entity)); ("version", JString (en_version entity));
   ("description", JString (en_description entity)); ("fields", JArray (field_json dialect <$> en_fields entity));
   ("indexes", JArray (index_json entity <$> used_indexes entity))].
Definition entityToJson (entity : EntityDefinition) (dialect : SqlDialect) : json := object (entity_members entity dialect).

(** ** Statements *)

(** Texts of templates: a caret stands for a double quote and a semicolon for the
    end of a line. *)
Definition raw_char (c : ascii) : ascii :=
  if Ascii.eqb c "^" then "034" else if Ascii.eqb c ";" then "010" else c.
Definition raw : string -> string := string_map raw_char.

Definition column_template (q : string) : string :=
  "{% for field in fields %}    " +:+ (quoted_in q "{{ field.name }}" +:+ raw (" {{ field.type }}" +:+
  ("{% if field.primary %} PRIMARY KEY{% endif %}" +:+
  ("{% if field.required and not field.primary %} NOT NULL{% endif %}" +:+
  ("{% if field.unique and not field.primary %} UNIQUE{% endif %}" +:+
  ("{% if existsIn(field, ^default^) %} DEFAULT {{ field.default }}{% endif %}" +:+
  ("{% if existsIn(field, ^check^) %} {{ field.check }}{% endif %}" +:+
   "{% if not loop.is_last %},;{% endif %}{% endfor %};)"))))))).
Definition getInlineCreateTableTemplate (dialect : SqlDialect) : string :=
  "CREATE TABLE IF NOT EXISTS " +:+ (quoted_in (quote_of dialect) "{{ table_name }}" +:+ (raw " (;" +:+
  (column_template (quote_of dialect) +:+
   match dialect with DialectMySQL => " ENGINE=InnoDB DEFAULT CHARSET=utf8mb4 COLLATE=utf8mb4_unicode_ci" | _ => "" end))).
Definition index_template (dialect : SqlDialect) : string :=
  let q := quote_of dialect in
  "CREATE {{ unique_keyword }}INDEX " +:+
  ((match dialect with DialectMySQL => "{{ name }}" | _ => "IF NOT EXISTS " +:+ quoted_in q "{{ name }}" end) +:+
  (" ON " +:+ (quoted_in q "{{ table_name }}" +:+ ("({% for f in fields %}" +:+ (quoted_in q "{{ f }}" +:+
   "{% if not loop.is_last %}, {% endif %}{% endfor %})"))))).

Definition generateAlterAddColumn (entity : EntityDefinition) (field : FieldDefinition) (dialect : SqlDialect) : string :=
  let q := quote_of dialect in
  "ALTER TABLE " +:+ (quoted_in q (en_name entity) +:+
  ((match dialect with DialectPostgreSQL => " ADD COLUMN IF NOT EXISTS " | _ => " ADD COLUMN " end) +:+
   (quoted_in q (fl_name field) +:+ (" " +:+ mapFieldType field dialect)))).

(** The templating library: a file or a text rendered with some data. *)
Class Templates := {
  template_there : string -> bool;
  render_file : string -> json -> Result string;
  render_text : string -> json -> Result string;
}.

Section Generator.
Context `{!Templates} (template_dir : string).
Definition template_dir_ : string := if is_empty template_dir then "/dbal/templates/sql" else template_dir.
Definition template_file (dialect : SqlDialect) : string :=
  template_dir_ +:+ match dialect with
    | DialectSQLite => "/sqlite_create_table.sql.j2"
    | DialectPostgreSQL => "/postgres_create_table.sql.j2"
    | DialectMySQL => "/mysql_create_table.sql.j2"
    end.
Definition generateCreateTable (entity : EntityDefinition) (dialect : SqlDialect) : Result string :=
  if template_there (template_file dialect) then render_file (template_file dialect) (entityToJson entity dialect)
  else render_text (getInlineCreateTableTemplate dialect) (entityToJson entity dialect).

(** Each index is rendered over the data of its entity. *)
Definition index_data (entity : EntityDefinition) (dialect : SqlDialect) (index : IndexDefinition) : json :=
  object (entity_members entity dialect ++
    [("name", JString (index_name entity index)); ("fields", JArray (JString <$> ix_fields index));
     ("unique", JBool (ix_unique index)); ("unique_keyword", JString (if ix_unique index then "UNIQUE " else ""))]).
Definition generateIndexes (entity : EntityDefinition) (dialect : SqlDialect) : Result (list string) :=
  mapM (fun index => render_text (index_template dialect) (index_data entity dialect index)) (used_indexes entity).
End Generator.

(** ** Schemas of the adapters *)

(** The fields of the schema that [SqlAdapter::loadSchemas] makes of a definition. *)
Definition sql_field (field : FieldDefinition) : EntityField :=
  mkField (fl_name field) (fl_type field) (fl_required field || fl_primary field) (fl_unique field || fl_primary field)
    (fl_nullable field || fl_optional field) (fl_default_value field) None (fl_min_length field) (fl_max_length field)
    (fl_pattern field) (match fl_enum_values field with [] => None | l => Some l end) (fl_sensitive field).
Definition relation_def (rel : RelationDefinition) : RelationDef :=
  mkRelation (rn_name rel) (rn_type rel) (rn_entity rel) (rn_foreign_key rel) (rn_cascade_delete rel).
Definition query_config (q : SchemaQueryConfig) : QueryConfig :=
  mkQueryConfig (sq_allowed_operators q) (sq_allowed_group_by q) (sq_allowed_includes q) (sq_max_results q) (sq_timeout_ms q).
Definition sql_schema (entity : EntityDefinition) : EntitySchema :=
  mkSchema (en_name entity) (en_name entity) (sql_field <$> en_fields entity) [] ∅ (relation_def <$> en_relations entity)
    (query_config (en_query_config entity)).

(** Under its name and under its name in lower case. *)
Definition register_schema (schemas : gmap string EntitySchema) (entity : EntityDefinition) : gmap string EntitySchema :=
  let schemas := <[en_name entity := sql_schema entity]> schemas in
  let lower_name := to_lower (en_name entity) in
  if String.eqb lower_name (en_name entity) then schemas else <[lower_name := sql_schema entity]> schemas.

(** The copies kept by [SqlSchemaManager] and the Elasticsearch adapter. *)
Definition plain_field (field : FieldDefinition) : EntityField :=
  mkField (fl_name field) (fl_type field) (fl_required field) (fl_unique field) false (fl_default_value field) None None
    None None None false.
Definition convertToEntitySchema (def : EntityDefinition) : EntitySchema :=
  mkSchema (en_name def) (en_description def) (plain_field <$> en_fields def) [] ∅ [] (mkQueryConfig [] [] [] 1000 0).
Definition manager_loadSchemas (dir : SchemaDir) `{!JsonLib} (schemas : gmap string EntitySchema) :
    Result (gmap string EntitySchema) :=
  entities ← loadFromDirectory dir;
  Ok (foldl (fun m e => <[to_lower (en_name e) := convertToEntitySchema e]> (<[en_name e := convertToEntitySchema e]> m))
       schemas entities).
Definition elastic_loadSchemas (dir : SchemaDir) `{!JsonLib} : Result (gmap string EntitySchema) :=
  entities ← loadFromDirectory dir;
  Ok (foldl (fun m e => <[en_name e := convertToEntitySchema e]> m) ∅ entities).
Definition redis_loadSchemas (dir : SchemaDir) `{!JsonLib} (schemas : gmap string EntityDefinition) :
    Result (gmap string EntityDefinition) :=
  entities ← loadFromDirectory dir; Ok (foldl (fun m e => <[en_name e := e]> m) schemas entities).

(** ** The SQL adapter *)

Record ExistingColumn := mkExisting { xc_nullable : bool; xc_data_type : string }.
Abbreviation Existing := (gmap string ExistingColumn).

Section SqlTables.
Context {W : Type} `{!SqlServer W} {jl : JsonLib} `{!Templates} (getenv : string -> option string)
  (directory : string -> SchemaDir) (dialect : Dialect).
Abbreviation State := (SqlState W).

(** [catch (const std::exception&)] around a statement, which an [SqlError] is not. *)
Definition caught_exceptions {A} (m : Op State (SqlError + A)) : Op State (option (SqlError + A)) := fun s =>
  match m s with
  | (Ok a, s') => (Ok (Some a), s')
  | (Throw _, s') => (Ok None, s')
  | (r, s') => (recast r, s')
  end.
(** Both are caught: whether the statement succeeded. *)
Definition attempted {A} (m : Op State (SqlError + A)) : Op State bool :=
  r ← caught_exceptions m; mret (match r with Some (inr _) => true | _ => false end).
Definition run_statement (conn : nat) (sql : string) : Op State bool := attempted (executeNonQuery conn sql []).

(** [SqlAdapter::loadSchemas] *)
Definition sql_loadSchemas (schemas : gmap string EntitySchema) : Result (gmap string EntitySchema) :=
  match getRequired getenv "DBAL_SCHEMA_DIR" with
  | Throw _ => Ok schemas
  | Ok schema_dir => entities ← loadFromDirectory (directory schema_dir); Ok (foldl register_schema schemas entities)
  | r => recast r
  end.

(** The dialect of a template. *)
Definition sql_dialect : SqlDialect := if numbered dialect then DialectPostgreSQL else DialectMySQL.

(** *** migrateTable, 1: the columns there are *)

Definition columns_query : string :=
  if numbered dialect then
    "SELECT column_name, is_nullable FROM information_schema.columns " +:+
    "WHERE table_schema='public' AND table_name=$1"
  else
    "SELECT COLUMN_NAME, IS_NULLABLE, COLUMN_TYPE FROM information_schema.COLUMNS " +:+
    "WHERE TABLE_SCHEMA=DATABASE() AND TABLE_NAME=?".
(** A column of an answer under either spelling; PostgreSQL's has one. *)
Definition row_column (row : SqlRow) (lower upper : string) : option string :=
  if numbered dialect then row !! lower
  else match row !! upper with Some v => Some v | None => row !! lower end.
Definition existing_column (row : SqlRow) : option (string * ExistingColumn) :=
  name ← row_column row "column_name" "COLUMN_NAME";
  let nullable := match row_column row "is_nullable" "IS_NULLABLE" with None => true | Some v => String.eqb v "YES" end in
  let data_type := if numbered dialect then "" else default "" (row_column row "column_type" "COLUMN_TYPE") in
  Some (name, mkExisting nullable data_type).
Definition existing_columns (rows : list SqlRow) : Existing :=
  foldl (fun cols kv => <[kv.1 := kv.2]> cols) ∅ (omap existing_column rows).

(** *** 2 and 3: missing columns, and columns that may be null now *)

Definition missing (existing_cols : Existing) (field : FieldDefinition) : bool := negb (has_key existing_cols (fl_name field)).
Fixpoint add_columns (conn : nat) (entity : EntityDefinition) (existing_cols : Existing) (fields : list FieldDefinition) :
    Op State unit :=
  match fields with
  | [] => mret tt
  | field :: fields =>
      (if missing existing_cols field
       then _ ← run_statement conn (generateAlterAddColumn entity field sql_dialect); mret tt
       else mret tt);;
      add_columns conn entity existing_cols fields
  end.

Definition allows_null (field : FieldDefinition) : bool := (fl_nullable field || fl_optional field) && negb (fl_primary field).
Definition quoted (name : string) : string := SqlAdapter.quoteId dialect name.
Definition alter_table (entity : EntityDefinition) (change : string) : string :=
  "ALTER TABLE " +:+ (quoted (en_name entity) +:+ (" " +:+ change)).
(** The statement that lets a column be null; for MySQL its type must be known. *)
Definition relax_statement (entity : EntityDefinition) (name : string) (col : ExistingColumn) : option string :=
  if numbered dialect then Some (alter_table entity ("ALTER COLUMN " +:+ (quoted name +:+ " DROP NOT NULL")))
  else if is_empty (xc_data_type col) then None
  else Some (alter_table entity ("MODIFY COLUMN " +:+ (quoted name +:+ (" " +:+ (xc_data_type col +:+ " NULL"))))).
(** The column a field may relax. *)
Definition relaxable (existing_cols : Existing) (field : FieldDefinition) : option ExistingColumn :=
  col ← existing_cols !! fl_name field;
  if xc_nullable col || negb (allows_null field) then None else Some col.
Fixpoint relax_columns (conn : nat) (entity : EntityDefinition) (existing_cols : Existing) (fields : list FieldDefinition) :
    Op State Existing :=
  match fields with
  | [] => mret existing_cols
  | field :: fields =>
      match relaxable existing_cols field with
      | None => relax_columns conn entity existing_cols fields
      | Some col =>
          ok ← match relax_statement entity (fl_name field) col with
               | Some sql => run_statement conn sql | None => mret true end;
          relax_columns conn entity
            (if ok : bool then <[fl_name field := mkExisting true (xc_data_type col)]> existing_cols else existing_cols) fields
      end
  end.

(** *** 4: the primary key *)

Definition key_query : string :=
  if numbered dialect then
    "SELECT kcu.column_name, tc.constraint_name " +:+ ("FROM information_schema.table_constraints tc " +:+
    ("JOIN information_schema.key_column_usage kcu " +:+
    ("  ON tc.constraint_name = kcu.constraint_name AND tc.table_schema = kcu.table_schema " +:+
     "WHERE tc.table_schema='public' AND tc.table_name=$1 AND tc.constraint_type='PRIMARY KEY'")))
  else
    "SELECT COLUMN_NAME FROM information_schema.KEY_COLUMN_USAGE " +:+
    "WHERE TABLE_SCHEMA=DATABASE() AND TABLE_NAME=? AND CONSTRAINT_NAME='PRIMARY'".
Definition key_columns (rows : list SqlRow) : list string := omap (fun row => row_column row "column_name" "COLUMN_NAME") rows.
Definition key_constraint (rows : list SqlRow) : string :=
  if numbered dialect then default "" (last (omap (fun row : SqlRow => row !! "constraint_name") rows)) else "".

Definition primary_name (entity : EntityDefinition) : string :=
  match List.find fl_primary (en_fields entity) with Some f => fl_name f | None => "" end.
Definition key_matches (cols : list string) (name : string) : bool :=
  match cols with [c] => String.eqb c name | _ => false end.

Definition key_statements (entity : EntityDefinition) (existing_cols : Existing) (cols : list string) (constraint : string) :
    list string :=
  let name := primary_name entity in
  (if numbered dialect then [alter_table entity ("ALTER COLUMN " +:+ (quoted name +:+ " SET NOT NULL"))]
   else match existing_cols !! name with
        | Some col =>
            if is_empty (xc_data_type col) then []
            else [alter_table entity ("MODIFY COLUMN " +:+ (quoted name +:+ (" " +:+ (xc_data_type col +:+ " NOT NULL"))))]
        | None => []
        end) ++
  (if negb (is_empty constraint) then [alter_table entity ("DROP CONSTRAINT " +:+ quoted constraint)]
   else match cols with
        | _ :: _ => if numbered dialect then [] else [alter_table entity "DROP PRIMARY KEY"]
        | [] => []
        end) ++
  [alter_table entity ("ADD PRIMARY KEY (" +:+ (quoted name +:+ ")"))].
(** One after the other, until one fails. *)
Fixpoint run_statements (conn : nat) (l : list string) : Op State unit :=
  match l with
  | [] => mret tt
  | sql :: l => ok ← run_statement conn sql; if ok : bool then run_statements conn l else mret tt
  end.
Definition correct_key (conn : nat) (entity : EntityDefinition) (existing_cols : Existing) : Op State unit :=
  let name := primary_name entity in
  if is_empty name then mret tt
  else
    r ← caught_exceptions (executeQuery conn key_query [mkParam "table_name" (en_name entity)]);
    let '(cols, constraint) :=
      match r with Some (inr rows) => (key_columns rows, key_constraint rows) | _ => ([], "") end in
    if negb (key_matches cols name) && has_key existing_cols name
    then run_statements conn (key_statements entity existing_cols cols constraint) else mret tt.

(** [inl e] is an [SqlError] that leaves the function. *)
Definition migrateTable (conn : nat) (entity : EntityDefinition) : Op State (SqlError + unit) :=
  r ← caught_exceptions (executeQuery conn columns_query [mkParam "table_name" (en_name entity)]);
  match r with
  | None => mret (inr tt)
  | Some (inl e) => mret (inl e)
  | Some (inr rows) =>
      let existing_cols := existing_columns rows in
      add_columns conn entity existing_cols (en_fields entity);;
      existing_cols ← relax_columns conn entity existing_cols (en_fields entity);
      correct_key conn entity existing_cols;;
      mret (inr tt)
  end.

(** *** createTables *)

(** An index that is there already is no error, and neither is any other [SqlError]. *)
Fixpoint create_indexes (conn : nat) (statements : list string) : Op State unit :=
  match statements with
  | [] => mret tt
  | sql :: statements => _ ← executeNonQuery conn sql []; create_indexes conn statements
  end.
Definition create_table (template_dir : string) (conn : nat) (entity : EntityDefinition) : Op State (SqlError + unit) :=
  create_sql ← of_result (generateCreateTable template_dir entity sql_dialect);
  r ← executeNonQuery conn create_sql [];
  match r with
  | inl err => throw (runtime_error ("Failed to create table " +:+ (en_name entity +:+ (": " +:+ se_message err))))
  | inr _ =>
      r ← migrateTable conn entity;
      match r with
      | inl e => mret (inl e)
      | inr _ =>
          index_statements ← of_result (generateIndexes entity sql_dialect);
          create_indexes conn index_statements;;
          mret (inr tt)
      end
  end.
Fixpoint create_each (template_dir : string) (conn : nat) (entities : list EntityDefinition) : Op State (SqlError + unit) :=
  match entities with
  | [] => mret (inr tt)
  | entity :: entities =>
      r ← create_table template_dir conn entity;
      match r with inl e => mret (inl e) | inr _ => create_each template_dir conn entities end
  end.
Definition sql_createTables : Op State (SqlError + unit) :=
  match (schema_dir ← getRequired getenv "DBAL_SCHEMA_DIR"; template_dir ← getRequired getenv "DBAL_TEMPLATE_DIR";
         Ok (schema_dir, template_dir)) with
  | Throw _ => mret (inr tt)
  | Ok (schema_dir, template_dir) =>
      conn ← acquire;
      match (conn : option nat) with
      | None => throw (runtime_error "Unable to acquire SQL connection for table creation")
      | Some conn => entities ← of_result (loadFromDirectory (directory schema_dir)); create_each template_dir conn entities
      end
  | r => of_result (recast r)
  end.
End SqlTables.

(** ** The SQLite adapter *)

Definition schema_field (f : FieldDefinition) : SchemaField :=
  mkSchemaField (fl_name f) (fl_type f) (fl_primary f) (fl_required f) (fl_unique f) (fl_generated f) (fl_optional f)
    (fl_nullable f) (fl_sensitive f) (fl_default_value f).
Definition core_schema (entity : EntityDefinition) : CoreSchema :=
  entityDefToSchema (en_name entity) (schema_field <$> en_fields entity).

Section SqliteTables.
Context {W : Type} {Q : Sqlite W} {jl : JsonLib} `{!Templates} (getenv : string -> option string)
  (directory : string -> SchemaDir).

(** The second column of a row of table_info is the name of a column; [fuel] bounds
    the number of rows. *)
Fixpoint columns_loop (fuel : nat) (stmt : Stmt) (found : gset string) : Op W (gset string) :=
  match fuel with
  | O => undef
  | S fuel =>
      rc ← step stmt;
      if (rc =? SQLITE_ROW)%Z then
        cols ← gets (columns stmt);
        columns_loop fuel stmt
          (match cols !! 1 with
           | Some (_, c) => match column_text c with Some name => {[name]} ∪ found | None => found end
           | None => found
           end)
      else mret found
  end.
Definition table_columns (fuel : nat) (entity : EntityDefinition) : Op W (gset string) :=
  r ← prepare_v2 ("PRAGMA table_info(" +:+ (quoted_in dquote (en_name entity) +:+ ")"));
  if (r.1 =? SQLITE_OK)%Z then found ← columns_loop fuel r.2 ∅; finalize r.2;; mret found else mret ∅.

(** [SQLiteAdapter::migrateTable]: a column that cannot be added is logged. *)
Fixpoint sqlite_add_columns (entity : EntityDefinition) (existing_cols : gset string) (fields : list FieldDefinition) : Op W unit :=
  match fields with
  | [] => mret tt
  | field :: fields =>
      (if bool_decide (fl_name field ∈ existing_cols) then mret tt
       else _ ← exec (generateAlterAddColumn entity field DialectSQLite); mret tt);;
      sqlite_add_columns entity existing_cols fields
  end.
Definition sqlite_migrateTable (fuel : nat) (entity : EntityDefinition) : Op W unit :=
  existing_cols ← table_columns fuel entity; sqlite_add_columns entity existing_cols (en_fields entity).

(** [sqlite3_exec] of a statement that must succeed. *)
Definition exec_or_throw (error sql : string) : Op W unit :=
  r ← exec sql; if (r.1 =? SQLITE_OK)%Z then mret tt else throw (runtime_error (error +:+ r.2)).
Fixpoint sqlite_indexes (entity : EntityDefinition) (statements : list string) : Op W unit :=
  match statements with
  | [] => mret tt
  | sql :: statements =>
      exec_or_throw ("Failed to create index for " +:+ (en_name entity +:+ ": ")) sql;; sqlite_indexes entity statements
  end.
Definition sqlite_create_table (fuel : nat) (template_dir : string) (entity : EntityDefinition) : Op W unit :=
  create_sql ← of_result (generateCreateTable template_dir entity DialectSQLite);
  exec_or_throw ("Failed to create table " +:+ (en_name entity +:+ ": ")) create_sql;;
  sqlite_migrateTable fuel entity;;
  index_statements ← of_result (generateIndexes entity DialectSQLite);
  sqlite_indexes entity index_statements.

Definition on_database {A} (m : Op W A) : Op (W * gmap string CoreSchema) A := fun '(w, schemas) =>
  let '(r, w') := m w in (r, (w', schemas)).
(** Each entity is registered before its table is made. *)
Fixpoint sqlite_create_each (fuel : nat) (template_dir : string) (entities : list EntityDefinition) :
    Op (W * gmap string CoreSchema) unit :=
  match entities with
  | [] => mret tt
  | entity :: entities =>
      modify (fun '(w, schemas) => (w, <[en_name entity := core_schema entity]> schemas));;
      on_database (sqlite_create_table fuel template_dir entity);;
      sqlite_create_each fuel template_dir entities
  end.
Definition sqlite_createTables (fuel : nat) : Op (W * gmap string CoreSchema) unit :=
  schema_dir ← of_result (getRequired getenv "DBAL_SCHEMA_DIR");
  entities ← of_result (loadFromDirectory (directory schema_dir));
  template_dir ← of_result (getRequired getenv "DBAL_TEMPLATE_DIR");
  sqlite_create_each fuel template_dir entities.
End SqliteTables.

(** ** Which statements a migration runs *)

(** What a server was asked and told: a query with its answer ([None] when it failed)
    and a statement with whether it succeeded. *)
Inductive event := Asked (sql : string) (params : list SqlParam) (answer : option (list SqlRow)) | Ran (step : string * bool).
(** A server that also keeps these, in order. *)
Definition observed {W} (srv : SqlServer W) : SqlServer (W * list event) := {|
  runQuery sql params := fun '(w, l) =>
    let '(r, w') := runQuery sql params w in
    (r, (w', l ++ [Asked sql params (match r with Ok (inr rows) => Some rows | _ => None end)]))%list;
  runNonQuery sql params := fun '(w, l) =>
    let '(r, w') := runNonQuery sql params w in
    (r, (w', l ++ [Ran (sql, match r with Ok (inr _) => true | _ => false end)]))%list;
|}.

(** The statements are run one after the other until one fails. *)
Inductive until_failure : list string -> list (string * bool) -> Prop :=
  | until_end : until_failure [] []
  | until_failed sql l : until_failure (sql :: l) [(sql, false)]
  | until_next sql l steps : until_failure l steps -> until_failure (sql :: l) ((sql, true) :: steps).

Section Migrating.
Context {W : Type} {srv : SqlServer W} (dialect : Dialect).
#[local] Existing Instance observed | 0.
Abbreviation State := (SqlState (W * list event)).
Definition events (s : State) : list event := (sq_server s).2.

(** The statements for the columns a table lacks and for those that may be null now. *)
Definition added_statements (entity : EntityDefinition) (existing_cols : Existing) (fields : list FieldDefinition) : list string :=
  (fun f => generateAlterAddColumn entity f (sql_dialect dialect)) <$> List.filter (missing existing_cols) fields.
Definition relaxed_statements (entity : EntityDefinition) (existing_cols : Existing) (fields : list FieldDefinition) : list string :=
  omap (fun f => col ← relaxable existing_cols f; relax_statement dialect entity (fl_name f) col) fields.

(** What the part of a migration about the key does, for a table with the columns
    [cols]: nothing where the schema has no primary field; else it asks for the key,
    and, unless the answer is that field alone or the field has no column, runs the
    statements that move the key from the columns and the constraint of the answer
    (none, when the question failed), until one fails. *)
Definition key_events (entity : EntityDefinition) (cols : Existing) (l : list event) : Prop :=
  let name := primary_name entity in
  if is_empty name then l = []
  else exists answer steps,
    l = Asked (key_query dialect) [mkParam "table_name" (en_name entity)] answer :: (Ran <$> steps) /\
    let key := match answer with Some rows => key_columns dialect rows | None => [] end in
    let constraint := match answer with Some rows => key_constraint dialect rows | None => "" end in
    if key_matches key name || negb (has_key cols name) then steps = []
    else until_failure (key_statements dialect entity cols key constraint) steps.

(** A statement of its own is tried: it is run and its failure is logged. *)
Lemma run_statement_events conn sql (s : State) ok s' :
  run_statement conn sql s = (Ok ok, s') -> events s' = (events s ++ [Ran (sql, ok)])%list.
Proof.
  unfold run_statement, attempted, caught_exceptions, executeNonQuery, on_server, mbind, Op_bind, events. cbn.
  destruct (sq_server s) as [w l]. destruct (runNonQuery sql [] w) as [[[e|z]|e|x|] w']; cbn; intros [= <- <-]; done.
Qed.
Lemma query_events conn sql params (s : State) r s' :
  caught_exceptions (executeQuery conn sql params) s = (Ok r, s') ->
  events s' = (events s ++ [Asked sql params (match r with Some (inr rows) => Some rows | _ => None end)])%list.
Proof.
  unfold caught_exceptions, executeQuery, on_server, events. cbn.
  destruct (sq_server s) as [w l]. destruct (runQuery sql params w) as [[[e|rows]|e|x|] w']; cbn; intros [= <- <-]; done.
Qed.

(** The statements [l] are tried, all of them. *)
Definition tries (l : list string) (s s' : State) : Prop :=
  exists steps, steps.*1 = l /\ events s' = (events s ++ (Ran <$> steps))%list.
Lemma tries_none s : tries [] s s.
Proof. exists []. split; [done|by rewrite app_nil_r]. Qed.
Lemma tries_one conn sql (s : State) ok s' : run_statement conn sql s = (Ok ok, s') -> tries [sql] s s'.
Proof. intros H%run_statement_events. by exists [(sql, ok)]. Qed.
Lemma tries_app l l' s s1 s' : tries l s s1 -> tries l' s1 s' -> tries (l ++ l') s s'.
Proof.
  intros (t & <- & H1) (t' & <- & H2). exists (t ++ t')%list. rewrite !fmap_app. split; [done|]. by rewrite H2, H1, <- app_assoc.
Qed.

Lemma add_columns_events conn entity cols fields (s : State) s' :
  add_columns dialect conn entity cols fields s = (Ok tt, s') -> tries (added_statements entity cols fields) s s'.
Proof.
  unfold added_statements. revert s. induction fields as [|f fields IH]; intros s; cbn [add_columns List.filter].
  - intros [= <-]. apply tries_none.
  - destruct (missing cols f); [|by apply IH]. intros ([] & s1 & Hrun & H%IH)%run_bind_inv.
    apply run_bind_inv in Hrun as (b & s2 & Hrun%tries_one & [= <-]). by apply (tries_app [_] _ _ s2).
Qed.

(** What relaxing leaves of the columns: all of them, with their types. *)
Definition same_columns (c c' : Existing) : Prop := forall k, xc_data_type <$> c !! k = xc_data_type <$> c' !! k.
Lemma same_columns_relaxed cols name col :
  cols !! name = Some col -> same_columns cols (<[name := mkExisting true (xc_data_type col)]> cols).
Proof.
  intros Hc k. destruct (decide (name = k)) as [<-|Hne]; [by rewrite Hc, lookup_insert_eq|by rewrite lookup_insert_ne].
Qed.
Lemma relaxed_statements_ext entity cols cols' fields :
  (forall f, f ∈ fields -> cols !! fl_name f = cols' !! fl_name f) ->
  relaxed_statements entity cols fields = relaxed_statements entity cols' fields.
Proof.
  unfold relaxed_statements, relaxable. induction fields as [|f fields IH]; intros H; [done|]. cbn.
  rewrite (H f) by left. rewrite IH; [done|]. intros g Hg. apply H. by right.
Qed.
Lemma relax_columns_events conn entity cols fields (s : State) cols' s' :
  NoDup (fl_name <$> fields) ->
  relax_columns dialect conn entity cols fields s = (Ok cols', s') ->
  tries (relaxed_statements entity cols fields) s s' /\ same_columns cols cols'.
Proof.
  revert s cols. induction fields as [|f fields IH]; intros s cols Hnd; cbn [relax_columns].
  { intros [= <- <-]. split; [apply tries_none|by intros k]. }
  rewrite fmap_cons, NoDup_cons in Hnd. destruct Hnd as [Hf Hnd]. unfold relaxed_statements. cbn [omap list_omap].
  destruct (relaxable cols f) as [col|] eqn:Hr; [|by apply IH].
  intros (ok & s1 & Hrun & H)%run_bind_inv. cbn [mbind option_bind].
  assert (cols !! fl_name f = Some col) as Hc.
  { unfold relaxable in Hr. destruct (cols !! fl_name f) as [c|]; [|done]. cbn in Hr. destruct (_ || _); congruence. }
  apply IH in H as [Hlog Hsame]; [|done]. split.
  - rewrite (relaxed_statements_ext entity _ cols fields) in Hlog.
    + destruct (relax_statement dialect entity (fl_name f) col) as [sql|].
      * apply tries_one in Hrun. by apply (tries_app [sql] _ _ s1).
      * by injection Hrun as <- <-.
    + intros g Hg. destruct ok; [|done]. rewrite lookup_insert_ne; [done|]. intros Heq. apply Hf. rewrite Heq.
      by apply list_elem_of_fmap_2.
  - destruct ok; [|done]. intros k. by rewrite <- Hsame, <- (same_columns_relaxed _ _ _ Hc).
Qed.

Lemma run_statements_events conn l (s : State) s' :
  run_statements conn l s = (Ok tt, s') ->
  exists steps, until_failure l steps /\ events s' = (events s ++ (Ran <$> steps))%list.
Proof.
  revert s. induction l as [|sql l IH]; intros s; cbn [run_statements].
  - intros [= <-]. exists []. split; [constructor|by rewrite app_nil_r].
  - intros (ok & s1 & Hrun%run_statement_events & H)%run_bind_inv. destruct ok.
    + apply IH in H as (steps & Hu & H). exists ((sql, true) :: steps). split; [by constructor|]. by rewrite H, Hrun, <- app_assoc.
    + injection H as <-. exists [(sql, false)]. split; [constructor|done].
Qed.
Lemma key_events_same entity cols cols' l : same_columns cols cols' -> key_events entity cols' l -> key_events entity cols l.
Proof.
  intros H. unfold key_events. specialize (H (primary_name entity)). destruct (is_empty _); [done|].
  intros (answer & steps & Hl & Hs). exists answer, steps. split; [done|]. revert Hs. unfold has_key, key_statements.
  destruct (cols !! _), (cols' !! _); cbn in H; simplify_eq; [|done]. by rewrite H.
Qed.
Lemma correct_key_events conn entity cols (s : State) s' :
  correct_key dialect conn entity cols s = (Ok tt, s') ->
  exists l, key_events entity cols l /\ events s' = (events s ++ l)%list.
Proof.
  unfold correct_key, key_events. destruct (is_empty (primary_name entity)) eqn:Hn.
  { intros [= <-]. exists []. split; [done|by rewrite app_nil_r]. }
  intros (r & s1 & Hq%query_events & H)%run_bind_inv.
  set (answer := match r with Some (inr rows) => Some rows | _ => None end) in *.
  assert ((match r with Some (inr rows) => (key_columns dialect rows, key_constraint dialect rows) | _ => ([], "") end) =
    (match answer with Some rows => key_columns dialect rows | None => [] end,
     match answer with Some rows => key_constraint dialect rows | None => "" end)) as Hr
    by (subst answer; by destruct r as [[]|]).
  rewrite Hr in H. clear Hr. rewrite <- (negb_involutive (has_key cols _)), <- negb_orb in H.
  set (settled := key_matches _ _ || _) in *.
  assert (exists steps, (if settled then steps = [] else until_failure (key_statements dialect entity cols
      (match answer with Some rows => key_columns dialect rows | None => [] end)
      (match answer with Some rows => key_constraint dialect rows | None => "" end)) steps) /\
    events s' = (events s1 ++ (Ran <$> steps))%list) as (steps & Hs & He).
  { destruct settled; cbn [negb] in H; [|by apply run_statements_events in H].
    injection H as <-. exists []. split; [done|by rewrite app_nil_r]. }
  eexists. split; [exists answer, steps; split; [reflexivity|exact Hs]|]. by rewrite He, Hq, <- app_assoc.
Qed.

(** A driver answers or throws an exception; a migration then always comes back. *)
Definition answers {S A} (m : Op S A) : Prop := forall s, match (m s).1 with Ok _ | Throw _ => True | _ => False end.
Definition comes_back {A} (m : Op State A) : Prop := forall s, exists a s', m s = (Ok a, s').
Lemma comes_back_ret {A} (a : A) : comes_back (mret a).
Proof. intros s. by eexists _, _. Qed.
Lemma comes_back_bind {A B} (m : Op State A) (k : A -> Op State B) :
  comes_back m -> (forall a, comes_back (k a)) -> comes_back (m ≫= k).
Proof. intros Hm Hk s. destruct (Hm s) as (a & s1 & H). rewrite (run_bind_ok _ _ _ _ _ H). apply Hk. Qed.
Hint Resolve comes_back_ret comes_back_bind : core.

Section Returning.
Hypothesis queries_answer : forall sql params, answers (runQuery (SqlServer := srv) sql params).
Hypothesis statements_answer : forall sql params, answers (runNonQuery (SqlServer := srv) sql params).

Lemma query_comes_back conn sql params : comes_back (caught_exceptions (executeQuery conn sql params)).
Proof.
  intros s. unfold caught_exceptions, executeQuery, on_server. cbn. destruct (sq_server s) as [w l].
  specialize (queries_answer sql params w). destruct (runQuery sql params w) as [[x|e|x|] w']; cbn in *; try done; by eexists _, _.
Qed.
Lemma statement_comes_back conn sql : comes_back (run_statement conn sql).
Proof.
  apply comes_back_bind; [|auto]. intros s. unfold caught_exceptions, executeNonQuery, on_server. cbn.
  destruct (sq_server s) as [w l].
  specialize (statements_answer sql [] w). destruct (runNonQuery sql [] w) as [[x|e|x|] w']; cbn in *; try done; by eexists _, _.
Qed.
Hint Resolve query_comes_back statement_comes_back : core.
Lemma statements_come_back conn l : comes_back (run_statements conn l).
Proof. induction l; cbn [run_statements]; [auto|]. apply comes_back_bind; [auto|]. by intros []; auto. Qed.
Lemma add_comes_back conn entity cols fields : comes_back (add_columns dialect conn entity cols fields).
Proof. induction fields as [|f fields IH]; cbn [add_columns]; [auto|]. destruct (missing cols f); auto. Qed.
Lemma relax_comes_back conn entity cols fields : comes_back (relax_columns dialect conn entity cols fields).
Proof.
  revert cols. induction fields as [|f fields IH]; intros cols; cbn [relax_columns]; [auto|].
  destruct (relaxable cols f) as [col|]; [|auto]. apply comes_back_bind; [|auto]. destruct (relax_statement _ _ _ _); auto.
Qed.
Lemma key_comes_back conn entity cols : comes_back (correct_key dialect conn entity cols).
Proof.
  unfold correct_key. destruct (is_empty _); [auto|]. apply comes_back_bind; [auto|]. intros r.
  destruct (match r with Some (inr rows) => _ | _ => _ end) as [key constraint]. destruct (_ && _); [|auto].
  apply statements_come_back.
Qed.
Lemma migration_comes_back conn entity : comes_back (migrateTable dialect conn entity).
Proof.
  apply comes_back_bind; [auto|]. intros [[e|rows]|]; [auto| |auto]. apply comes_back_bind; [apply add_comes_back|intros _].
  apply comes_back_bind; [apply relax_comes_back|intros cols]. apply comes_back_bind; [apply key_comes_back|auto].
Qed.
End Returning.

End Migrating.

(** A server that also keeps the statements it was given. *)
Definition logged {W} (srv : SqlServer W) : SqlServer (W * list string) := {|
  runQuery sql params := fun '(w, l) => let '(r, w') := runQuery sql params w in (r, (w', l));
  runNonQuery sql params := fun '(w, l) => let '(r, w') := runNonQuery sql params w in (r, (w', l ++ [sql]))%list;
|}.

Section Migration.
Context {W : Type} {srv : SqlServer W} (dialect : Dialect).
#[local] Existing Instance logged | 0.
Abbreviation State := (SqlState (W * list string)).
Definition log (s : State) : list string := (sq_server s).2.

(** A table that is as its schema says. *)
Definition settled (cols : Existing) (fields : list FieldDefinition) : Prop :=
  Forall (fun f => exists col, cols !! fl_name f = Some col /\ (allows_null f = true -> xc_nullable col = true)) fields.
Lemma settled_adds_none conn entity cols fields (s : State) :
  settled cols fields -> add_columns dialect conn entity cols fields s = (Ok tt, s).
Proof.
  induction 1 as [|f fields (col & Hc & _) _ IH]; [done|]. cbn [add_columns]. unfold missing, has_key. by rewrite Hc.
Qed.
Lemma settled_relaxes_none conn entity cols fields (s : State) :
  settled cols fields -> relax_columns dialect conn entity cols fields s = (Ok cols, s).
Proof.
  induction 1 as [|f fields (col & Hc & Hnull) _ IH]; [done|]. cbn [relax_columns]. unfold relaxable. rewrite Hc. cbn.
  destruct (xc_nullable col); [done|]. destruct (allows_null f); [by specialize (Hnull eq_refl)|done].
Qed.

Lemma settled_key_untouched conn entity cols (s : State) :
  (primary_name entity = "" \/ exists key w',
    runQuery (key_query dialect) [mkParam "table_name" (en_name entity)] (sq_server s).1 = (Ok (inr key), w') /\
    key_matches (key_columns dialect key) (primary_name entity) = true) ->
  exists s', correct_key dialect conn entity cols s = (Ok tt, s') /\ log s' = log s.
Proof.
  intros Hkey. destruct s as [[w l] pool tx c]. cbn in Hkey. unfold correct_key. destruct Hkey as [->|(key & w' & Hk & Hm)].
  { eexists. by split. }
  destruct (is_empty (primary_name entity)); [eexists; by split|].
  erewrite run_bind_ok by (unfold caught_exceptions, executeQuery, on_server; cbn; by rewrite Hk).
  cbv beta iota zeta. rewrite Hm. eexists. by split.
Qed.

End Migration.

(** ** Names *)

(** Whatever is registered under a name is a schema of that name, or of one that is
    it in lower case. *)
Lemma registered_schemas schemas entities name s :
  foldl register_schema schemas entities !! name = Some s ->
  schemas !! name = Some s \/
  exists e, e ∈ entities /\ s = sql_schema e /\ (en_name e = name \/ to_lower (en_name e) = name).
Proof.
  revert schemas. induction entities as [|e entities IH]; intros schemas; [by left|]. cbn [foldl].
  intros [H|(e' & He & H)]%IH; [|right; exists e'; split; [by right|done]].
  unfold register_schema in H. destruct (String.eqb _ _).
  - apply lookup_insert_Some in H as [[<- <-]|[_ H]]; [right; exists e; split_and!; [left|done|by left]|by left].
  - apply lookup_insert_Some in H as [[<- <-]|[_ H]]; [right; exists e; split_and!; [left|done|by right]|].
    apply lookup_insert_Some in H as [[<- <-]|[_ H]]; [right; exists e; split_and!; [left|done|by left]|by left].
Qed.

(** Every entity loaded is found under its name and under its name in lower case. *)
Lemma register_keeps schemas entities name :
  is_Some (schemas !! name) -> is_Some (foldl register_schema schemas entities !! name).
Proof.
  revert schemas. induction entities as [|e entities IH]; intros schemas H; [done|]. cbn [foldl]. apply IH.
  unfold register_schema. destruct (String.eqb _ _); rewrite ?lookup_insert_is_Some'; by auto.
Qed.
Lemma entities_found schemas entities e :
  e ∈ entities ->
  is_Some (foldl register_schema schemas entities !! en_name e) /\
  is_Some (foldl register_schema schemas entities !! to_lower (en_name e)).
Proof.
  revert schemas. induction entities as [|e' entities IH]; intros schemas He; [by apply not_elem_of_nil in He|].
  cbn [foldl]. apply elem_of_cons in He as [->|He]; [|by apply IH].
  split; apply register_keeps; unfold register_schema; destruct (String.eqb_spec (to_lower (en_name e')) (en_name e')) as [Heq|Hne].
  - by rewrite lookup_insert_eq.
  - rewrite lookup_insert_ne by done. by rewrite lookup_insert_eq.
  - by rewrite Heq, lookup_insert_eq.
  - by rewrite lookup_insert_eq.
Qed.

(** ** Reading the columns of a table *)

Section Columns.
Context {W : Type} {Q : Sqlite W}.
Definition row_name (cols : list (string * Column)) : option string :=
  '(_, c) ← cols !! 1; column_text c.
Lemma columns_loop_reads stmt w rows rc w' fuel found :
  delivers stmt w rows rc w' -> length rows < fuel ->
  columns_loop fuel stmt found w = (Ok (list_to_set (omap row_name rows) ∪ found), w').
Proof.
  intros Hd. revert fuel found. induction Hd as [w rc w' Hstep Hne|w w1 rows rc w' Hstep Hd IH]; intros fuel found Hfuel;
    (destruct fuel as [|fuel]; [cbn in Hfuel; lia|]); cbn [columns_loop]; rewrite (run_bind_ok _ _ _ _ _ Hstep).
  - apply Z.eqb_neq in Hne. rewrite Hne. cbn. by rewrite union_empty_l_L.
  - change (SQLITE_ROW =? SQLITE_ROW)%Z with true. cbv iota. rewrite run_gets, IH by (cbn in Hfuel; lia).
    f_equal. f_equal. cbn [omap list_omap]. unfold row_name at 2. destruct (columns stmt w1 !! 1) as [[n c]|]; [|done].
    cbn. destruct (column_text c); [|done]. cbn. set_solver.
Qed.
End Columns.

(** ** Concrete runs *)

(** A PostgreSQL server with some columns and a primary key, which keeps the
    statements it carried out and refuses some. *)
Definition catalog (cols key : list SqlRow) (refused : string -> bool) : SqlServer (list string) := {|
  runQuery sql _ := fun w => (Ok (inr (if String.eqb sql (columns_query Postgres) then cols else key)), w);
  runNonQuery sql _ := fun w =>
    if refused sql then (Ok (inl (mkSqlError SqlUnknown "refused")), w) else (Ok (inr 0%Z), w ++ [sql])%list;
|}.
Definition column_row (name nullable : string) : SqlRow := {["column_name" := name; "is_nullable" := nullable]}.
Definition note_cols : list SqlRow := [column_row "id" "NO"; column_row "slug" "NO"; column_row "title" "NO"].
Definition key_on (name : string) : list SqlRow := [{["column_name" := name; "constraint_name" := "Note_pkey"]}].

Definition text_field (name : string) (primary nullable : bool) : FieldDefinition :=
  mkFieldDefinition name "string" primary false false false false nullable false None None None None [].
Definition note_entity : EntityDefinition :=
  mkEntityDefinition "Note" "1.0" "" [text_field "id" true false; text_field "tags" false true; text_field "title" false true]
    [mkIndexDefinition ["id"] true; mkIndexDefinition ["title"; "id"] false] [] (mkSchemaQueryConfig [] [] [] 1000 0).
Definition note_state : SqlState (list string * list string) := mkSqlState ([], []) [true] None None.

Example moved_key :
  let srv := catalog note_cols (key_on "slug") (fun _ => false) in
  log (migrateTable (SqlServer0 := logged srv) Postgres 0 note_entity note_state).2 =
    map raw ["ALTER TABLE ^Note^ ADD COLUMN IF NOT EXISTS ^tags^ VARCHAR(255)";
             "ALTER TABLE ^Note^ ALTER COLUMN ^title^ DROP NOT NULL";
             "ALTER TABLE ^Note^ ALTER COLUMN ^id^ SET NOT NULL";
             "ALTER TABLE ^Note^ DROP CONSTRAINT ^Note_pkey^";
             "ALTER TABLE ^Note^ ADD PRIMARY KEY (^id^)"].
Proof. vm_compute. reflexivity. Qed.

Definition note_observed : SqlState (list string * list event) := mkSqlState ([], []) [true] None None.


(** Where the new key is refused the old one is gone already. *)
Example key_is_lost :
  let add_key := raw "ALTER TABLE ^Note^ ADD PRIMARY KEY (^id^)" in
  let srv := catalog note_cols (key_on "slug") (String.eqb add_key) in
  let '(r, s) := migrateTable Postgres 0 note_entity (mkSqlState [] [true] None None) in
  r = Ok (inr tt) /\ raw "ALTER TABLE ^Note^ DROP CONSTRAINT ^Note_pkey^" ∈ sq_server s /\ ~ add_key ∈ sq_server s.
Proof.
  vm_compute. split; [done|]. split; [right; right; right; left|].
  intros H. repeat (apply elem_of_cons in H as [H|H]; [discriminate H|]). by apply not_elem_of_nil in H.
Qed.

(** A refused answer to the question for the columns leaves the migration, and with
    it the making of all the tables. *)
Definition unreadable : SqlServer unit := {|
  runQuery _ _ := mret (inl (mkSqlError SqlTimeout "timeout")); runNonQuery _ _ := mret (inr 0%Z);
|}.
Example inspection_error_escapes :
  (migrateTable (SqlServer0 := unreadable) Postgres 0 note_entity (mkSqlState tt [true] None None)).1 =
    Ok (inl (mkSqlError SqlTimeout "timeout")).
Proof. reflexivity. Qed.

(** Texts of a schema go into the statements as they are. *)
Example default_not_escaped :
  default_expression (mkFieldDefinition "title" "string" false false false false false false false (Some "it's") None None None [])
    DialectPostgreSQL = Some "'it's'".
Proof. reflexivity. Qed.

(** Of two names that differ in case the second takes the lower case of the first. *)
Example names_differ_in_case :
  es_name <$> (foldl register_schema ∅ [mkEntityDefinition "note" "" "" [] [] [] (mkSchemaQueryConfig [] [] [] 0 0);
    mkEntityDefinition "Note" "" "" [] [] [] (mkSchemaQueryConfig [] [] [] 0 0)]) !! "note" = Some "Note".
Proof. reflexivity. Qed.

(** The unique index of the key is not made again. *)
Example indexes_used : index_name note_entity <$> used_indexes note_entity = ["idx_note_title_id"].
Proof. reflexivity. Qed.
